(* ===== verification/_CoqProject ===== *)
-Q . S2P
Prelude.v
Core.v
Futures.v
FutureLaws.v
MultiFuture.v
Unpark.v
Streams.v
Channels.v
Buffered.v
WsParser.v
WsCodec.v
IOBufQueue.v
StreamAdapter.v
Codec.v
IoObject.v
Socket.v
SocketLaws.v
Framed.v
Executors.v
Timers.v
Crypto.v
Sha1.v
HttpSyntax.v
HttpExec.v
HttpMessage.v
HttpEncode.v
HttpSafe.v
HttpCuts.v
HttpDecode.v
HttpBytes.v
HttpRoundtrip.v
HttpUrl.v
WsSession.v
Service.v
ClientRpc.v
DnsName.v
DnsText.v
DnsPacket.v
DnsAnswer.v
DnsQlist.v
DnsResolver.v
DnsResolverInv.v
DnsResolverSpec.v
DnsRuns.v
AsyncResolver.v
ResolveRuns.v
HttpController.v
ServerSocket.v
WsServer.v
WsStream.v
