(* ===== verification/Prelude.v ===== *)
(** * futures_cpp: a verification

    futures_cpp is a C++ library of poll-based futures with an event loop, and of
    sockets, codecs and an HTTP/websocket stack on top of it.  This library is a
    shallow embedding of its sources (under [src/]) with the theorems that make
    them correct.  A definition that models code carries the file and the lines
    it translates.

    ** The program and where it is modelled

    - Exceptions, results of calls, the state-and-error monad, tactics and the
      lemmas on lists and integers the files share: this file.
    - [Core.v]: [Try], [Optional], [Either], [Async] and their moved-from states
      ([include/futures/core/Try.h], [Optional.h], [Either.h], [Async.h]).
    - [Futures.v], [FutureLaws.v]: the poll protocol, the leaf futures and the
      combinators of [Future.h], [Future-inl.h] and [detail/LoopFn.h].  A future is
      a state with an instance of the class [Future]; the class a combinator is a
      template over is an instance argument.  [MultiFuture.v]: [makeSelect],
      [makeWhenAll], [whenAny], [whenAll].
    - [Unpark.v]: [UnparkMutex.h], [FutureSpawnRun] and [ThreadUnpark], one step
      per atomic operation, over any number of threads.
    - [Streams.v]: [Stream.h], [Stream-inl.h] and [detail/StreamIterator.h].
    - [Channels.v], [Buffered.v]: one-shot, unbounded and buffered channels,
      promises, and a receiver as a stream ([channel/], [Promise.h]).
    - [Executors.v]: [CpuPoolExecutor.h] and [EventExecutor.h] as step relations.
      [Timers.v]: [TimerKeeper.h], [Timer.h] and [Timeout.h].
    - [IOBufQueue.v]: the queue of buffers ([src/folly/IOBufQueue.cpp]).
      [StreamAdapter.v]: the stream buffer over a queue ([io/StreamAdapter.h]) and
      [QueueAppender] ([core/Cursor.h]).
    - [Codec.v]: the decoder interface and the line and length-field codecs.
    - [IoObject.v], [Socket.v], [SocketLaws.v]: completion tokens, the socket
      ([src/AsyncSocket.cpp], [io/AsyncSocket.h]) and its invariant.  [Framed.v]:
      framed streams and sinks over a socket ([io/IoFuture.h]).
    - [WsParser.v], [WsCodec.v]: the websocket frame parser, the assembler of
      frames and the frame encoder ([src/http/ws_parser.c], [WsCodec.cpp]).
      [WsSession.v]: the decoder of a session, from the HTTP handshake to the
      frames, the reply to a handshake and the encoder ([WsCodec.cpp]).
    - [Crypto.v], [Sha1.v]: base64 and SHA-1 of [src/http/cryptlite/], and the
      accept key of the websocket handshake.
    - [HttpSyntax.v], [HttpExec.v]: the HTTP/1 parser [src/http/http_parser.c]
      (tables and states; [http_parser_execute]).  [HttpMessage.v]: [http::Parser]
      with its callbacks and the decoders ([HttpParser.cpp], [HttpCodec.cpp]).
      [HttpSafe.v]: the invariant of the parser, for any user that meets the
      interface [Handler].  [HttpCuts.v]: buffers of any size against one byte
      at a time, for any user that meets [Appends].  [HttpDecode.v]:
      [http::Parser] meets both.  [HttpEncode.v]: the encoders ([HttpCodec.cpp]).
      [HttpBytes.v]: what the parser does with each part of a message, byte by
      byte.  [HttpRoundtrip.v]: the encoders against the decoders.  [HttpUrl.v]:
      the URL splitter [http_parser_parse_url] and [HttpClient::parseUrl].
    - [Service.v]: [RpcFuture], for any connection that meets [Transport] and any
      dispatcher that meets [IDispatcher], and the server dispatchers
      ([include/futures/service/]).  [ClientRpc.v]: the client dispatchers.
    - The DNS resolver [src/src/udns/].  [DnsName.v], [DnsText.v]: names in wire
      form and as text ([udns_dn.c]).  [DnsPacket.v], [DnsAnswer.v]: names,
      records and address replies in packets ([udns_parse.c], [udns_rr_a.c]).
      [DnsQlist.v]: the doubly linked list of queries, in a heap, against lists.
      [DnsResolver.v], [DnsResolverInv.v], [DnsResolverSpec.v], [DnsRuns.v]: the
      resolver ([udns_resolver.c], [udns_jran.c]), its invariant, its operations
      and its runs; the datagrams, the time and the results of [sendto] are
      inputs, what it sends and whom it calls back are events.
    - [AsyncResolver.v], [ResolveRuns.v]: futures for the addresses of a host
      ([src/Resolver.cpp], [dns/Resolver.h], [dns/ResolverFuture.h]), over
      [IoObject.v] and [DnsResolver.v], and runs of a program that has them.
    - Servers.  [HttpController.v]: routing of requests ([http/HttpController.h]).
      [ServerSocket.v]: the listening socket and the stream of its connections
      ([io/AsyncServerSocket.h], [Socket::accept]).  [WsServer.v]: a websocket
      connection, its handler and its flushing future ([http/WsController.h]),
      over [Streams.v], [SocketLaws.v] and [WsSession.v].  [WsStream.v]: the same
      connection over the framed stream of [Framed.v] and the websocket decoder,
      with the reads of its socket given as a script.

    ** How code becomes definitions

    A call returns a [res]: a value, a C++ exception, or [Abort] for undefined
    behaviour and failed assertions (the code is read with [assert] enabled), or
    [OutOfFuel] for a loop that was cut off.  Mutable objects are records passed
    through; shared objects live in stores indexed by address.  Code that threads
    interleave is a step relation with one step per atomic operation or critical
    section.  Bytes are integers between 0 and 255, machine words are integers
    with their wrap-around written out.  The results of system calls, the time and
    user callbacks are arguments of the definitions.

    ** What the theorems show

    - Futures: what each combinator computes, and with which polls; [andThen] is
      a monad; loops end; every select and join delivers what it promises.
    - Wake-ups: in every interleaving a spawned future has one holder, and no
      wake-up is lost; a thread that waits for a future sees its result.
    - Streams: each combinator as a function of the items of its source.
    - Channels: refinement to FIFO queues and one-shot cells, under every
      interleaving of handles.
    - Executors and timers: no job or timeout is lost, run twice or out of order.
    - Buffers and codecs: the queue is a list of bytes; frames, lines and
      websocket messages are recovered however the stream is cut.
    - Sockets: no call or event trips an assertion or corrupts a list; the bytes
      written are neither lost nor reordered.
    - SHA-1 is the SHA-1 of FIPS 180-4, base64 decodes what it encodes.
    - HTTP: the parser returns on every input, within its bounds, the message it
      delivers does not depend on how the input is cut into buffers, and the
      decoders throw nothing but [IOError]; a request or response that is encoded
      is decoded as it was.
    - Websockets: an upgrade request and the frames after it are delivered in
      order however they are cut, the reply has the accept key of RFC 6455, a
      text that is sent is received, and errors are [IOError]s.
    - Servers: a request goes to the handler it is due; a listening socket loses
      no connection and wakes whoever waits for one; the handler of a websocket
      connection sees one [onConnect], the messages in order, and exactly one of
      [onClose] and [onError].  What a completed connection has seen of the bytes
      of its client is the upgrade request and the first frames that were sent,
      in order; an example shows that the last frames can be lost.
    - URLs: the fields of a URL lie inside it, and a URL put together from its
      parts is split into them.
    - Services: a pipelined server replies in order, a multiplexed one once per
      request, and both have answered every request when their future completes;
      a client dispatcher gives every call its response and, when the connection
      is over, leaves no call waiting.
    - DNS: names are recovered from their text and from packets with jumps; the
      addresses, the alias and the lifetime of a reply are what its records say;
      every query that is submitted is called back exactly once unless it is
      cancelled, only a reply of a server that was asked counts, and without
      replies every query times out.  Two hypotheses exclude packets that make
      the code write out of bounds, and examples show that it does.  A future for
      a host never gets a late callback, is ready with the addresses of its
      replies, and its task is woken.

    ** Bounds and fuel

    Loops that are not structural take a bound.  Where the bound is an argument
    (the polling loops of futures and streams) the theorems say that every large
    enough bound gives the result.  The parsers take the length of the input,
    which each turn shortens (so does the loop around [accept], in the script of
    the kernel), and the HTTP parser at most 4 jumps to [reexecute]
    inside one turn; both are shown to be enough.  The loops of [RpcFuture] take
    at most one turn per request received or available.  Reading a name in a
    packet takes at most 400 turns: it stops after 100 jumps or 255 bytes.

    ** Not modelled

    - The HTTP client (other than [parseUrl]) and [WsServer::start]: compositions
      of parts that are modelled on their own.  Matching a regular expression is
      an argument, and so is the type of the boxed futures that handlers return.
    - Reference counting and allocation of [IOBuf], the folly headers other than
      [IOBufQueue], libev, libae, OpenSSL, hiredis, mariadb, zookeeper and
      readline: libraries the sources call.
    - Of udns the settings ([dns_init], [dns_open], options), the synchronous
      [dns_resolve] and the records other than addresses, which the project does
      not use.
    - Files, pipes and SSL: thin layers over system calls and those libraries.
    - [mpsc-queue.hpp], [sha256.h] and [hmac.h]: included by nothing. *)

From stdpp Require Export base tactics list numbers relations.
From stdpp Require Export strings gmap sorting.
From Stdlib Require Export ZArith Lia.

Declare Scope cpp_scope.
Delimit Scope cpp_scope with cpp.

(** ** Exceptions

    The exception classes of [src/include/futures/Exception.h] and of the folly
    headers, plus the two ways in which user code can throw: an object derived
    from [std::exception] and one that is not (a [throw 42]), which the
    [catch (std::exception&)] clauses of the library do not intercept. *)

(** [src/include/futures/Exception.h:27-32] CancelReason *)
Inductive CancelReason :=
| CR_Unknown | CR_ExecutorShutdown | CR_IOObjectShutdown | CR_UserCancel.

(** [src/include/futures/Exception.h:9-91] exception classes *)
Inductive exn :=
| InvalidPollStateException
| InvalidChannelStateException
| MovedFutureException
| FutureCancelledException (r : CancelReason)
| FutureEmptySetException
| IOError (what : string)
| DispatchException (what : string)
| OptionalEmptyException
| EitherEmptyException
| TryException
| UsingUninitializedTry
| PromiseException
| TimeoutException (what : string)
| std_out_of_range
| std_underflow_error
| std_overflow_error
| std_invalid_argument (what : string)
| std_runtime_error (what : string)
| UserException (code : Z)
| NonStdThrow (code : Z).

#[global] Instance CancelReason_eq_dec : EqDecision CancelReason.
Proof. solve_decision. Defined.
#[global] Instance exn_eq_dec : EqDecision exn.
Proof. solve_decision. Defined.

(** Which thrown objects a [catch (std::exception&)] clause intercepts. *)
Definition is_std (e : exn) : bool :=
  match e with NonStdThrow _ => false | _ => true end.

(** ** Outcomes of a C++ call

    [Ret] is a normal return, [Throw] an exception leaving the call, [Abort] a
    failed [assert], [std::terminate] or undefined behaviour (there is no
    defined continuation), and [OutOfFuel] a loop whose bound was too small:
    it is a feature of the model only, and the theorems about loops say which
    bound is enough. *)
Inductive res (A : Type) :=
| Ret (a : A)
| Throw (e : exn)
| Abort (why : string)
| OutOfFuel.
Arguments Ret {A} a.
Arguments Throw {A} e.
Arguments Abort {A} why.
Arguments OutOfFuel {A}.

Definition res_bind {A B} (m : res A) (k : A -> res B) : res B :=
  match m with
  | Ret a => k a
  | Throw e => Throw e
  | Abort s => Abort s
  | OutOfFuel => OutOfFuel
  end.

(** Code run against a world [W]: everything a callback or a future can touch
    besides the future object itself. *)
Definition eff (W A : Type) : Type := W -> res A * W.

Definition eff_ret {W A} (a : A) : eff W A := fun w => (Ret a, w).
Definition eff_throw {W A} (e : exn) : eff W A := fun w => (Throw e, w).
Definition eff_bind {W A B} (m : eff W A) (k : A -> eff W B) : eff W B :=
  fun w => match m w with
           | (Ret a, w') => k a w'
           | (Throw e, w') => (Throw e, w')
           | (Abort s, w') => (Abort s, w')
           | (OutOfFuel, w') => (OutOfFuel, w')
           end.

Notation "'let!' x ':=' m 'in' k" := (res_bind m (fun x => k))
  (at level 10, x pattern, m at level 100, k at level 200) : cpp_scope.
Notation "'do!' x <- m ; k" := (eff_bind m (fun x => k))
  (at level 10, x pattern, m at level 100, k at level 200) : cpp_scope.

(** ** Machine integers *)
Definition u8 (z : Z) : Z := z mod 2 ^ 8.
Definition u16 (z : Z) : Z := z mod 2 ^ 16.
Definition u32 (z : Z) : Z := z mod 2 ^ 32.
Definition u64 (z : Z) : Z := z mod 2 ^ 64.
Definition i32 (z : Z) : Z := (z + 2 ^ 31) mod 2 ^ 32 - 2 ^ 31.

Definition is_byte (b : Z) : Prop := (0 <= b < 256)%Z.
#[global] Instance is_byte_dec b : Decision (is_byte b).
Proof. unfold is_byte. apply _. Defined.

Create HintDb cpp discriminated.

(** ** Tactics *)

(** Case analysis on every [match] or [if] of the goal. *)
Ltac case_all :=
  repeat (case_match; simplify_eq/=; try done).

(** Split hypotheses made of conjunctions and existentials. *)
Ltac split_hyps :=
  repeat match goal with
         | H : _ ∧ _ |- _ => destruct H
         | H : ∃ _, _ |- _ => destruct H
         | H : (_, _) = (_, _) |- _ => simplify_eq H; intros; subst
         end.

(** ** Lists *)
Lemma take_drop_app {A} (l k : list A) n :
  n = length l -> take n (l ++ k) = l /\ drop n (l ++ k) = k.
Proof. intros ->. split; [apply take_app_length | apply drop_app_length]. Qed.

(** Writing the cell after the first [n]. *)
Lemma take_S_insert {A} (l : list A) n x :
  n < length l -> take (S n) (<[n := x]> l) = take n l ++ [x].
Proof.
  intros Hn. rewrite (take_S_r _ _ x) by (by rewrite list_lookup_insert_eq). f_equal.
  by rewrite take_insert_ge by lia.
Qed.

(** ** Characters and strings *)

(** The bytes of a string literal. *)
Definition bytes (s : string) : list Z :=
  (fun c => Z.of_N (Ascii.N_of_ascii c)) <$> String.list_ascii_of_string s.

(** Equality of two integers, bit by bit. *)
Ltac bitwise n :=
  apply Z.bits_inj'; intros n ?;
  repeat (rewrite Z.lxor_spec || rewrite Z.land_spec || rewrite Z.lor_spec || rewrite Z.lnot_spec by lia ||
          rewrite Z.shiftl_spec by lia || rewrite Z.shiftr_spec by lia);
  repeat match goal with |- context [Z.testbit ?a ?b] => destruct (Z.testbit a b) end; try reflexivity.
