(* ===== verification/Core.v ===== *)
(** * Core vocabulary: [Try], [Optional], [Either], [Async], [Poll]

    Models [src/include/futures/core/Try.h], [Optional.h], [Either.h] and
    [src/include/futures/Async.h].  Every accessor that throws in the source
    returns a [res] here.  Moving out of an object leaves it in a moved-from
    state: what that state is depends on the C++ type, so it is the operation
    of a class, [Movable], with one instance per type used below. *)

From S2P Require Import Prelude.
Local Open Scope cpp_scope.

(** The value left behind in an object of type [T] by [std::move]. *)
Class Movable (T : Type) := moved_from : T -> T.

(** A type whose move is a copy (integers, enums, [Unit]). *)
#[global] Instance Movable_Z : Movable Z := fun z => z.
#[global] Instance Movable_nat : Movable nat := fun n => n.
#[global] Instance Movable_bool : Movable bool := fun b => b.
#[global] Instance Movable_unit : Movable unit := fun u => u.
(** A moved-from [std::string] or [std::vector] is empty in every
    implementation the project supports. *)
#[global] Instance Movable_list A : Movable (list A) := fun _ => [].
#[global] Instance Movable_pair A B `{Movable A, Movable B} : Movable (A * B) :=
  fun p => (moved_from p.1, moved_from p.2).

(** ** exception_wrapper: an exception, or nothing once it was moved out. *)
Definition exception_wrapper := option exn.
#[global] Instance Movable_exception_wrapper : Movable exception_wrapper := fun _ => None.

(** ** Try *)
Module Try_.
(** [src/include/futures/core/Try.h:62-71] Try *)
Inductive Try (T : Type) :=
| VALUE (v : T)
| EXCEPTION (e : exception_wrapper)
| NOTHING.
Arguments VALUE {T} v.
Arguments EXCEPTION {T} e.
Arguments NOTHING {T}.

Definition hasValue {T} (t : Try T) : bool :=
  match t with VALUE _ => true | _ => false end.

Definition hasException {T} (t : Try T) : bool :=
  match t with EXCEPTION _ => true | _ => false end.

(** exception(): the stored wrapper, or a throw. *)
Definition exception {T} (t : Try T) : res exception_wrapper :=
  match t with EXCEPTION e => Ret e | _ => Throw TryException end.

(** [src/include/futures/core/Try-inl.h:120-129] Try::throwIfFailed *)
Definition throwIfFailed {T} (t : Try T) : res unit :=
  match t with
  | VALUE _ => Ret tt
  | EXCEPTION (Some e) => Throw e
  | EXCEPTION None => Abort "throwException on an empty exception_wrapper"
  | NOTHING => Throw UsingUninitializedTry
  end.

(** [src/include/futures/core/Try-inl.h:102-118] Try::value *)
Definition value {T} (t : Try T) : res T :=
  let! _ := throwIfFailed t in
  match t with VALUE v => Ret v | _ => Abort "unreachable" end.

(** [src/include/futures/core/Try-inl.h:137-140] moveFromTry *)
Definition moveFromTry {T} (t : Try T) : res T := value t.
End Try_.
Abbreviation Try := Try_.Try.
Abbreviation VALUE := Try_.VALUE.
Abbreviation EXCEPTION := Try_.EXCEPTION.
Abbreviation NOTHING := Try_.NOTHING.

#[global] Instance Try_eq_dec {T} `{EqDecision T} : EqDecision (Try T).
Proof. solve_decision. Defined.

(** The moved-from [Try] keeps its tag; its content is moved out. *)
#[global] Instance Movable_Try T `{Movable T} : Movable (Try T) := fun t =>
  match t with
  | VALUE v => VALUE (moved_from v)
  | EXCEPTION e => EXCEPTION (moved_from e)
  | NOTHING => NOTHING
  end.

(** ** Optional: [option]; [value()] throws on an empty one, [value() &&]
    moves the content out and leaves the flag set. *)
Module Optional.
(** [src/include/futures/core/Optional.h:199-212] Optional::value *)
Definition value {T} (o : option T) : res T :=
  match o with Some v => Ret v | None => Throw OptionalEmptyException end.

Definition hasValue {T} (o : option T) : bool :=
  match o with Some _ => true | None => false end.

(** What [std::move(o).value()] leaves in [o]. *)
Definition after_move {T} `{Movable T} (o : option T) : option T :=
  match o with Some v => Some (moved_from v) | None => None end.
End Optional.

(** ** Either *)
Module Either_.
(** [src/include/futures/core/Either.h:202-206] Either *)
Inductive Either (L R : Type) :=
| UNINIT
| LEFT (l : L)
| RIGHT (r : R).
Arguments UNINIT {L R}.
Arguments LEFT {L R} l.
Arguments RIGHT {L R} r.

(** [src/include/futures/core/Either.h:72-73] Either::hasLeft, Either::hasRight *)
Definition hasLeft {L R} (e : Either L R) : bool :=
  match e with LEFT _ => true | _ => false end.

Definition hasRight {L R} (e : Either L R) : bool :=
  match e with RIGHT _ => true | _ => false end.

(** [src/include/futures/core/Either.h:75-88] Either::left *)
Definition left {L R} (e : Either L R) : res L :=
  match e with LEFT l => Ret l | _ => Throw EitherEmptyException end.

(** [src/include/futures/core/Either.h:90-103] Either::right *)
Definition right {L R} (e : Either L R) : res R :=
  match e with RIGHT r => Ret r | _ => Throw EitherEmptyException end.

(** [src/include/futures/core/Either.h:115-123] Either::assignRight *)
Definition assignRight {L R} (e : Either L R) (r : R) : Either L R := RIGHT r.

(** [src/include/futures/core/Either.h:105-113] Either::assignLeft *)
Definition assignLeft {L R} (e : Either L R) (l : L) : Either L R := LEFT l.
End Either_.
Abbreviation Either := Either_.Either.
Abbreviation UNINIT := Either_.UNINIT.
Abbreviation LEFT := Either_.LEFT.
Abbreviation RIGHT := Either_.RIGHT.

(** ** Async and Poll *)

(** [src/include/futures/Async.h:141-153] Async *)
Definition Async (T : Type) : Type := option T.

Definition isReady {T} (a : Async T) : bool := Optional.hasValue a.

(** [src/include/futures/Async.h:155-158] Poll *)
Definition Poll (T : Type) : Type := Try (Async T).

Definition not_ready {T} : Poll T := VALUE None.

(** [src/include/futures/Async.h:160-164] makePollReady *)
Definition makePollReady {T} (v : T) : Poll T := VALUE (Some v).

(** [src/include/futures/Async.h:166-170] makePollReady *)
Definition makePollReady_Try {T} (v : Try T) : res (Poll T) :=
  if Try_.hasException v then
    let! e := Try_.exception v in Ret (EXCEPTION e)
  else
    let! x := Try_.value v in Ret (VALUE (Some x)).
