(* ===== verification/Futures.v ===== *)
(** * Futures: the poll protocol and the combinators

    Models [src/include/futures/Future.h], [Future-inl.h] and
    [detail/LoopFn.h].  A C++ future is an object with a virtual [poll()] that
    mutates the object and whatever it shares with the rest of the program;
    here it is a state type [F] with an instance of the class [Future], whose
    [poll] returns the outcome, the new object and the new world.  The C++
    templates (CRTP classes parameterised by the futures they contain) become
    instances parameterised by instances.  [Future.h] is read with
    [DEBUG_FUTURE] off, the default, and with [assert] enabled. *)

From S2P Require Import Prelude Core.
Local Open Scope cpp_scope.

(** [src/include/futures/Future.h:17-23] IFuture *)
Class Future (W F T : Type) := poll : F -> W -> res (Poll T) * F * W.
#[global] Hint Mode Future ! ! - : typeclass_instances.

(** The effect of [catch (std::exception &e) { return Poll<T>(e); }]. *)
Definition catch_std {T} (r : res (Poll T)) : res (Poll T) :=
  match r with
  | Throw e => if is_std e then Ret (EXCEPTION (Some e)) else Throw e
  | _ => r
  end.

Section Basic.
Context {W : Type}.

(** [src/include/futures/Future.h:170-177] EmptyFuture *)
Record EmptyFuture (T : Type) := mkEmptyFuture {}.

#[global] Instance EmptyFuture_Future {T} : Future W (EmptyFuture T) T :=
  fun f w => (Ret not_ready, f, w).

(** [src/include/futures/Future.h:179-200] ErrFuture *)
Record ErrFuture (T : Type) := mkErrFuture { err_e : exception_wrapper }.
Arguments mkErrFuture {T} err_e.
Arguments err_e {T} e : rename.

(** [src/include/futures/Future.h:183-190] ErrFuture::poll *)
Definition ErrFuture_poll {T} (f : ErrFuture T) (w : W) : res (Poll T) * ErrFuture T * W :=
  (Ret (EXCEPTION (err_e f)), mkErrFuture (moved_from (err_e f)), w).
#[global] Instance ErrFuture_Future {T} : Future W (ErrFuture T) T := ErrFuture_poll.

(** [src/include/futures/Future.h:202-229] OkFuture *)
Record OkFuture (T : Type) := mkOkFuture { ok_v : T }.
Arguments mkOkFuture {T} ok_v.
Arguments ok_v {T} o.

(** [src/include/futures/Future.h:206-213] OkFuture::poll *)
Definition OkFuture_poll {T} `{Movable T} (f : OkFuture T) (w : W)
  : res (Poll T) * OkFuture T * W :=
  (Ret (VALUE (Some (ok_v f))), mkOkFuture (moved_from (ok_v f)), w).
#[global] Instance OkFuture_Future {T} `{Movable T} : Future W (OkFuture T) T := OkFuture_poll.

(** [src/include/futures/Future.h:231-250] ResultFuture *)
Record ResultFuture (T : Type) := mkResultFuture { result_try : Try T }.
Arguments mkResultFuture {T} result_try.
Arguments result_try {T} r.

(** [src/include/futures/Future.h:240-246] ResultFuture::poll *)
Definition ResultFuture_poll {T} `{Movable T} (f : ResultFuture T) (w : W)
  : res (Poll T) * ResultFuture T * W :=
  match result_try f with
  | EXCEPTION e => (Ret (EXCEPTION e), f, w)
  | VALUE v => (Ret (VALUE (Some v)), mkResultFuture (VALUE (moved_from v)), w)
  | NOTHING => (Throw UsingUninitializedTry, f, w)
  end.
#[global] Instance ResultFuture_Future {T} `{Movable T} : Future W (ResultFuture T) T :=
  ResultFuture_poll.

(** [src/include/futures/Future.h:305-322] LazyFuture *)
Record LazyFuture (T : Type) := mkLazyFuture { lazy_fn : eff W T }.
Arguments mkLazyFuture {T} lazy_fn.
Arguments lazy_fn {T} l.

(** [src/include/futures/Future.h:312-318] LazyFuture::poll *)
Definition LazyFuture_poll {T} (f : LazyFuture T) (w : W) : res (Poll T) * LazyFuture T * W :=
  let '(r, w') := lazy_fn f w in
  (catch_std (let! v := r in Ret (VALUE (Some v))), f, w').
#[global] Instance LazyFuture_Future {T} : Future W (LazyFuture T) T := LazyFuture_poll.

(** [src/include/futures/Future.h:252-278] FutureOrExceptionFuture *)
Record FutureOrExceptionFuture (FutA : Type) := mkFutureOrException { foe_try : Try FutA }.
Arguments mkFutureOrException {FutA} foe_try.
Arguments foe_try {FutA} f.

(** [src/include/futures/Future.h:265-274] FutureOrExceptionFuture::poll *)
Definition FutureOrExceptionFuture_poll {FutA T} `{Future W FutA T}
    (f : FutureOrExceptionFuture FutA) (w : W)
  : res (Poll T) * FutureOrExceptionFuture FutA * W :=
  match foe_try f with
  | EXCEPTION e => (Ret (EXCEPTION e), f, w)
  | NOTHING => (Throw UsingUninitializedTry, f, w)
  | VALUE a =>
      let '(r, a', w') := poll a w in
      let same := mkFutureOrException (VALUE a') in
      let cleared := mkFutureOrException NOTHING in
      match r with
      | Ret (EXCEPTION e) => (Ret (EXCEPTION e), cleared, w')
      | Ret (VALUE (Some v)) => (Ret (VALUE (Some v)), cleared, w')
      | Ret (VALUE None) => (Ret (VALUE None), same, w')
      | Ret NOTHING => (Throw UsingUninitializedTry, same, w')
      | _ => (r, same, w')
      end
  end.
#[global] Instance FutureOrExceptionFuture_Future {FutA T} `{Future W FutA T} :
  Future W (FutureOrExceptionFuture FutA) T := FutureOrExceptionFuture_poll.

(** [src/include/futures/Future.h:280-303] FutureOrValueFuture *)
Record FutureOrValueFuture (FutA T : Type) := mkFutureOrValue { fov_v : Either FutA T }.
Arguments mkFutureOrValue {FutA T} fov_v.
Arguments fov_v {FutA T} f.

(** [src/include/futures/Future.h:292-300] FutureOrValueFuture::poll *)
Definition FutureOrValueFuture_poll {FutA T} `{Future W FutA T, Movable T}
    (f : FutureOrValueFuture FutA T) (w : W)
  : res (Poll T) * FutureOrValueFuture FutA T * W :=
  match fov_v f with
  | LEFT a => let '(r, a', w') := poll a w in (r, mkFutureOrValue (LEFT a'), w')
  | RIGHT v => (Ret (makePollReady v), mkFutureOrValue (RIGHT (moved_from v)), w)
  | UNINIT => (Throw InvalidPollStateException, f, w)
  end.
#[global] Instance FutureOrValueFuture_Future {FutA T} `{Future W FutA T, Movable T} :
  Future W (FutureOrValueFuture FutA T) T := FutureOrValueFuture_poll.

(** [src/include/futures/Future.h:136-168] BoxedFuture *)
Inductive BoxedFuture (T : Type) :=
| Boxed (F : Type) (inst : Future W F T) (impl : F)
| BoxedNull.
Arguments Boxed {T F inst} impl.
Arguments BoxedNull {T}.

(** [src/include/futures/Future.h:141-144] BoxedFuture::poll *)
Definition BoxedFuture_poll {T} (f : BoxedFuture T) (w : W) : res (Poll T) * BoxedFuture T * W :=
  match f with
  | @Boxed _ F inst impl =>
      let '(r, impl', w') := @poll W F T inst impl w in (r, @Boxed _ F inst impl', w')
  | BoxedNull => (Throw MovedFutureException, BoxedNull, w)
  end.
#[global] Instance BoxedFuture_Future {T} : Future W (BoxedFuture T) T := BoxedFuture_poll.
End Basic.

Arguments mkErrFuture {T} err_e.
Arguments err_e {T} e : rename.
Arguments mkOkFuture {T} ok_v.
Arguments ok_v {T} o.
Arguments mkResultFuture {T} result_try.
Arguments result_try {T} r.
Arguments mkFutureOrException {FutA} foe_try.
Arguments foe_try {FutA} f.
Arguments mkFutureOrValue {FutA T} fov_v.
Arguments fov_v {FutA T} f.
Arguments lazy_fn {W T} l.
Arguments Boxed {W T F inst} impl.
Arguments BoxedNull {W T}.
Arguments LazyFuture W T : clear implicits.
Arguments mkLazyFuture {W T} lazy_fn.
Arguments BoxedFuture W T : clear implicits.

(** ** Chaining *)
Section Chain.
Context {W FutA FutB A B : Type} `{FA : Future W FutA A, FB : Future W FutB B}.

(** [src/include/futures/Future-inl.h:9-13] ChainStateMachine::State *)
Inductive ChainState := First | Second | Done.

(** [src/include/futures/Future-inl.h:7-71] ChainStateMachine, the state of ThenFuture *)
Record ThenFuture := mkThen {
  state_ : ChainState;
  v_ : Either (FutA * (Try A -> eff W FutB)) FutB
}.

(** [src/include/futures/Future-inl.h:23-26] ChainStateMachine::ChainStateMachine *)
Definition then_ (a : FutA) (fn : Try A -> eff W FutB) : ThenFuture :=
  {| state_ := First; v_ := LEFT (a, fn) |}.

(** [src/include/futures/Future-inl.h:55-64] ChainStateMachine::poll_second *)
Definition poll_second (m : ThenFuture) (a_result : Try A) (w : W)
  : res (Poll B) * ThenFuture * W :=
  let m := {| state_ := Second; v_ := v_ m |} in
  match Either_.left (v_ m) with
  | Ret (_, fn) =>
      match fn a_result w with
      | (Ret b, w') =>
          let '(r, b', w'') := poll b w' in
          (catch_std r, {| state_ := Second; v_ := RIGHT b' |}, w'')
      | (Throw e, w') => (catch_std (Throw e), m, w')
      | (Abort s, w') => (Abort s, m, w')
      | (OutOfFuel, w') => (OutOfFuel, m, w')
      end
  | Throw e => (catch_std (Throw e), m, w)
  | Abort s => (Abort s, m, w)
  | OutOfFuel => (OutOfFuel, m, w)
  end.

(** [src/include/futures/Future-inl.h:28-52] ChainStateMachine::poll *)
Definition ThenFuture_poll (m : ThenFuture) (w : W) : res (Poll B) * ThenFuture * W :=
  match state_ m with
  | First =>
      match v_ m with
      | LEFT (a, fn) =>
          let '(p, a', w') := poll a w in
          let m' := {| state_ := First; v_ := LEFT (a', fn) |} in
          match p with
          | Ret (VALUE (Some v)) => poll_second m' (VALUE v) w'
          | Ret (VALUE None) => (Ret not_ready, m', w')
          | Ret (EXCEPTION e) => poll_second m' (EXCEPTION e) w'
          | Ret NOTHING => (Throw TryException, m', w')
          | Throw e => (Throw e, m', w')
          | Abort s => (Abort s, m', w')
          | OutOfFuel => (OutOfFuel, m', w')
          end
      | _ => (Abort "assert(v_.hasLeft())", m, w)
      end
  | Second =>
      match v_ m with
      | RIGHT b =>
          let '(p, b', w') := poll b w in
          (p, {| state_ := Second; v_ := RIGHT b' |}, w')
      | _ => (Abort "assert(v_.hasRight())", m, w)
      end
  | Done => (Throw InvalidPollStateException, m, w)
  end.
#[global] Instance ThenFuture_Future : Future W ThenFuture B := ThenFuture_poll.
End Chain.
Arguments ThenFuture W FutA FutB A : clear implicits.

(** The callbacks that [andThen], [error], [orElse], [map] and [cast] install. *)
Section Wrappers.
Context {W : Type}.

(** [src/include/futures/Future-inl.h:141-156] AndThenWrapper *)
Definition AndThenWrapper {T FutR} (func : T -> eff W FutR) (v : Try T)
  : eff W (FutureOrExceptionFuture FutR) :=
  match v with
  | VALUE x => do! fut <- func x; eff_ret (mkFutureOrException (VALUE fut))
  | EXCEPTION e => eff_ret (mkFutureOrException (EXCEPTION e))
  | NOTHING => eff_throw TryException
  end.

(** [src/include/futures/Future-inl.h:158-173] AndThenWrapper2 *)
Definition AndThenWrapper2 {T1 T2 FutR} (func : T1 -> T2 -> eff W FutR) (v : Try (T1 * T2))
  : eff W (FutureOrExceptionFuture FutR) :=
  match v with
  | VALUE (x, y) => do! fut <- func x y; eff_ret (mkFutureOrException (VALUE fut))
  | EXCEPTION e => eff_ret (mkFutureOrException (EXCEPTION e))
  | NOTHING => eff_throw TryException
  end.

(** [src/include/futures/Future-inl.h:175-188] ErrorWrapper *)
Definition ErrorWrapper {T} (func : exception_wrapper -> eff W unit) (v : Try T)
  : eff W (OkFuture unit) :=
  match v with
  | EXCEPTION e => do! _ <- func e; eff_ret (mkOkFuture tt)
  | _ => eff_ret (mkOkFuture tt)
  end.

(** [src/include/futures/Future-inl.h:190-203] OrElseWrapper *)
Definition OrElseWrapper {T FutR} (func : eff W FutR) (v : Try T)
  : eff W (FutureOrValueFuture FutR T) :=
  match v with
  | EXCEPTION _ => do! fut <- func; eff_ret (mkFutureOrValue (LEFT fut))
  | VALUE x => eff_ret (mkFutureOrValue (RIGHT x))
  | NOTHING => eff_throw UsingUninitializedTry
  end.

(** [src/include/futures/Future-inl.h:205-220] MapWrapper *)
Definition MapWrapper {T R} (func : T -> eff W R) (v : Try T) : eff W (ResultFuture R) :=
  match v with
  | EXCEPTION e => eff_ret (mkResultFuture (EXCEPTION e))
  | VALUE x => do! y <- func x; eff_ret (mkResultFuture (VALUE y))
  | NOTHING => eff_throw UsingUninitializedTry
  end.

(** [src/include/futures/Future-inl.h:222-236] CastWrapper; [conv] is the implicit conversion *)
Definition CastWrapper {T OtherT} (conv : T -> OtherT) (v : Try T) : eff W (ResultFuture OtherT) :=
  match v with
  | EXCEPTION e => eff_ret (mkResultFuture (EXCEPTION e))
  | VALUE x => eff_ret (mkResultFuture (VALUE (conv x)))
  | NOTHING => eff_throw UsingUninitializedTry
  end.
End Wrappers.

Module FutureBase.
Section Combinators.
Context {W FutA A : Type} `{FA : Future W FutA A}.

(** [src/include/futures/Future-inl.h:318-324] FutureBase::andThen *)
Definition andThen {FutR R} `{Future W FutR R} (a : FutA) (f : A -> eff W FutR)
  : ThenFuture W FutA (FutureOrExceptionFuture FutR) A := then_ a (AndThenWrapper f).

(** [src/include/futures/Future-inl.h:340-344] FutureBase::error *)
Definition error (a : FutA) (f : exception_wrapper -> eff W unit)
  : ThenFuture W FutA (OkFuture unit) A := then_ a (ErrorWrapper f).

(** [src/include/futures/Future-inl.h:346-350] FutureBase::orElse *)
Definition orElse {FutR} `{Future W FutR A} (a : FutA) (f : eff W FutR)
  : ThenFuture W FutA (FutureOrValueFuture FutR A) A := then_ a (OrElseWrapper f).

(** [src/include/futures/Future-inl.h:352-356] FutureBase::map *)
Definition map {R} (a : FutA) (f : A -> eff W R) : ThenFuture W FutA (ResultFuture R) A :=
  then_ a (MapWrapper f).

(** [src/include/futures/Future-inl.h:358-362] FutureBase::cast *)
Definition cast {OtherT} (a : FutA) (conv : A -> OtherT)
  : ThenFuture W FutA (ResultFuture OtherT) A := then_ a (CastWrapper conv).

(** [src/include/futures/Future-inl.h:376-385] FutureBase::boxed *)
Definition boxed (a : FutA) : BoxedFuture W A := Boxed a.
End Combinators.

(** [src/include/futures/Future-inl.h:326-332] FutureBase::andThen2 *)
Definition andThen2 {W FutA A1 A2 FutR R} `{Future W FutA (A1 * A2), Future W FutR R}
    (a : FutA) (f : A1 -> A2 -> eff W FutR)
  : ThenFuture W FutA (FutureOrExceptionFuture FutR) (A1 * A2) := then_ a (AndThenWrapper2 f).
End FutureBase.

(** ** Join *)
Section Join.
Context {W FutA FutB A B : Type} `{FA : Future W FutA A, FB : Future W FutB B, Movable A, Movable B}.

(** [src/include/futures/Future-inl.h:97-139] JoinFuture *)
Record JoinFuture := mkJoin { fa_ : Either FutA A; fb_ : Either FutB B }.

(** [src/include/futures/Future-inl.h:105-107] JoinFuture::JoinFuture *)
Definition join (a : FutA) (b : FutB) : JoinFuture := {| fa_ := LEFT a; fb_ := LEFT b |}.

(** [src/include/futures/Future-inl.h:128-131] JoinFuture::poll, once both sides are present *)
Definition join_finish (fa : Either FutA A) (fb : Either FutB B) (w : W)
  : res (Poll (A * B)) * JoinFuture * W :=
  match fa, fb with
  | RIGHT a, RIGHT b =>
      (Ret (makePollReady (a, b)), mkJoin (RIGHT (moved_from a)) (RIGHT (moved_from b)), w)
  | _, _ => (Abort "assert(fa_.hasRight() && fb_.hasRight())", mkJoin fa fb, w)
  end.

(** [src/include/futures/Future-inl.h:119-127] JoinFuture::poll, second side *)
Definition join_poll_b (fa : Either FutA A) (fb : Either FutB B) (w : W)
  : res (Poll (A * B)) * JoinFuture * W :=
  match fb with
  | LEFT b =>
      let '(r, b', w') := poll b w in
      let m := mkJoin fa (LEFT b') in
      match r with
      | Ret (EXCEPTION e) => (Ret (EXCEPTION e), m, w')
      | Ret (VALUE None) => (Ret not_ready, m, w')
      | Ret (VALUE (Some v)) => join_finish fa (RIGHT v) w'
      | Ret NOTHING => (Throw UsingUninitializedTry, m, w')
      | Throw e => (Throw e, m, w')
      | Abort s => (Abort s, m, w')
      | OutOfFuel => (OutOfFuel, m, w')
      end
  | _ => join_finish fa fb w
  end.

(** [src/include/futures/Future-inl.h:109-132] JoinFuture::poll *)
Definition JoinFuture_poll (j : JoinFuture) (w : W) : res (Poll (A * B)) * JoinFuture * W :=
  match fa_ j with
  | LEFT a =>
      let '(r, a', w') := poll a w in
      let m := mkJoin (LEFT a') (fb_ j) in
      match r with
      | Ret (EXCEPTION e) => (Ret (EXCEPTION e), m, w')
      | Ret (VALUE None) => (Ret not_ready, m, w')
      | Ret (VALUE (Some v)) => join_poll_b (RIGHT v) (fb_ j) w'
      | Ret NOTHING => (Throw UsingUninitializedTry, m, w')
      | Throw e => (Throw e, m, w')
      | Abort s => (Abort s, m, w')
      | OutOfFuel => (OutOfFuel, m, w')
      end
  | _ => join_poll_b (fa_ j) (fb_ j) w
  end.
#[global] Instance JoinFuture_Future : Future W JoinFuture (A * B) := JoinFuture_poll.
End Join.
Arguments JoinFuture FutA FutB A B : clear implicits.

(** ** Loops *)
Section LoopFn.
Context {W FutR B St : Type} `{FR : Future W FutR (Either B St), Movable St}.

(** [src/include/futures/detail/LoopFn.h:11-45] LoopFnFuture *)
Record LoopFnFuture := mkLoop { func_ : St -> eff W FutR; init_ : St; fut_ : option FutR }.

(** [src/include/futures/detail/LoopFn.h:18-21] LoopFnFuture::LoopFnFuture *)
Definition makeLoop (s : St) (f : St -> eff W FutR) : LoopFnFuture :=
  {| func_ := f; init_ := s; fut_ := None |}.

(** [src/include/futures/detail/LoopFn.h:26-39] LoopFnFuture::poll, the while loop *)
Fixpoint loop_iterate (fuel : nat) (f : St -> eff W FutR) (init : St) (fut : FutR) (w : W)
  : res (Poll B) * LoopFnFuture * W :=
  match fuel with
  | O => (OutOfFuel, mkLoop f init (Some fut), w)
  | S fuel =>
      let '(r, fut', w') := poll fut w in
      let m := mkLoop f init (Some fut') in
      match r with
      | Ret (EXCEPTION e) => (Ret (EXCEPTION e), m, w')
      | Ret (VALUE None) => (Ret not_ready, m, w')
      | Ret NOTHING => (Throw UsingUninitializedTry, m, w')
      | Ret (VALUE (Some (LEFT b))) => (Ret (makePollReady b), mkLoop f init None, w')
      | Ret (VALUE (Some (RIGHT s))) =>
          match f s w' with
          | (Ret next, w'') => loop_iterate fuel f init next w''
          | (Throw e, w'') => (Throw e, m, w'')
          | (Abort s, w'') => (Abort s, m, w'')
          | (OutOfFuel, w'') => (OutOfFuel, m, w'')
          end
      | Ret (VALUE (Some UNINIT)) => (Throw EitherEmptyException, m, w')
      | Throw e => (Throw e, m, w')
      | Abort s => (Abort s, m, w')
      | OutOfFuel => (OutOfFuel, m, w')
      end
  end.

(** [src/include/futures/detail/LoopFn.h:23-40] LoopFnFuture::poll *)
Definition LoopFnFuture_poll (fuel : nat) (l : LoopFnFuture) (w : W)
  : res (Poll B) * LoopFnFuture * W :=
  match fut_ l with
  | Some fut => loop_iterate fuel (func_ l) (init_ l) fut w
  | None =>
      let init' := moved_from (init_ l) in
      let m := mkLoop (func_ l) init' None in
      match func_ l (init_ l) w with
      | (Ret fut, w') => loop_iterate fuel (func_ l) init' fut w'
      | (Throw e, w') => (Throw e, m, w')
      | (Abort s, w') => (Abort s, m, w')
      | (OutOfFuel, w') => (OutOfFuel, m, w')
      end
  end.
End LoopFn.
Arguments LoopFnFuture W FutR St : clear implicits.
