(* ===== verification/FutureLaws.v ===== *)
(** * What the future combinators compute

    [completes f w r w'] says that polling [f] from world [w], with the rest of
    the program taking an [env] step between two polls, ends with result [r] in
    world [w'].  The combinators of [src/include/futures/Future-inl.h] are
    characterised by it. *)

From S2P Require Import Prelude Core Futures.
Local Open Scope cpp_scope.

Section Completion.
Context {W : Type} (env : W -> W -> Prop).

Inductive completes {F T} `{Future W F T} : F -> W -> Try T -> W -> Prop :=
| completes_value f w v f' w' :
    poll f w = (Ret (VALUE (Some v)), f', w') -> completes f w (VALUE v) w'
| completes_exception f w e f' w' :
    poll f w = (Ret (EXCEPTION e), f', w') -> completes f w (EXCEPTION e) w'
| completes_pending f w f1 w1 w2 r w3 :
    poll f w = (Ret (VALUE None), f1, w1) -> env w1 w2 ->
    completes f1 w2 r w3 -> completes f w r w3.

(** The first poll is made inside a [try] block. *)
Definition completes_guarded {F T} `{Future W F T} (f : F) (w : W) (r : Try T) (w' : W) : Prop :=
  completes f w r w' \/
  exists e f', poll f w = (Throw e, f', w') /\ is_std e = true /\ r = EXCEPTION (Some e).

(** A callback is run; the future it returns is then polled to completion. *)
Definition continues {F T} `{Future W F T} (m : eff W F) (w : W) (r : Try T) (w' : W) : Prop :=
  match m w with
  | (Ret b, w1) => completes_guarded b w1 r w'
  | (Throw e, w1) => is_std e = true /\ r = EXCEPTION (Some e) /\ w' = w1
  | _ => False
  end.

(** No poll of the future ever yields an uninitialised [Try]. *)
Class Defined_polls (F : Type) {T} `{Future W F T} :=
  polls_defined (f : F) (w : W) (f' : F) (w' : W) : poll f w <> (Ret NOTHING, f', w').

Definition same_completions {F G T} `{Future W F T, Future W G T} (f : F) (g : G) : Prop :=
  forall w r w', completes f w r w' <-> completes g w r w'.
End Completion.

Create HintDb completion discriminated.
#[export] Hint Constructors completes : completion.

(** One poll decides the completion, or postpones it. *)
Definition after_poll {W F T} `{Future W F T} (env : W -> W -> Prop)
    (p : res (Poll T) * F * W) (r : Try T) (w' : W) : Prop :=
  match p with
  | (Ret (VALUE (Some v)), _, w1) => r = VALUE v /\ w' = w1
  | (Ret (EXCEPTION e), _, w1) => r = EXCEPTION e /\ w' = w1
  | (Ret (VALUE None), f1, w1) => exists w2, env w1 w2 /\ completes env f1 w2 r w'
  | _ => False
  end.

Lemma completes_unfold {W F T} `{Future W F T} (env : W -> W -> Prop) (f : F) w (r : Try T) w' :
  completes env f w r w' <-> after_poll env (poll f w) r w'.
Proof.
  split.
  - destruct 1 as [????? Hp|????? Hp|??????? Hp]; rewrite Hp; cbn; eauto.
  - destruct (poll f w) as [[p f1] w1] eqn:Ep. destruct p as [[[v|]|e|]|?|?|]; cbn; try done.
    + intros (w2 & ? & ?) || intros [-> ->]; eauto with completion.
    + intros (w2 & ? & ?); eauto with completion.
    + intros [-> ->]; eauto with completion.
Qed.

Lemma guarded_unfold {W F T} `{Future W F T} (env : W -> W -> Prop) (f : F) w (r : Try T) w' :
  completes_guarded env f w r w' <->
  let '(p, f1, w1) := poll f w in after_poll env (catch_std p, f1, w1) r w'.
Proof.
  unfold completes_guarded. rewrite completes_unfold.
  destruct (poll f w) as [[p f1] w1] eqn:Ep. split.
  - intros [Ha|(e & f' & He & Hs & ->)]; [by destruct p|]. simplify_eq. cbn. by rewrite Hs.
  - destruct p as [p|e|?|]; cbn; [by left| |done..].
    destruct (is_std e) eqn:Es; cbn; [|done]. intros [-> ->]. eauto 6.
Qed.

#[local] Arguments poll_second : simpl never.
#[local] Arguments completes_guarded : simpl never.

Lemma guarded_value {W F T} `{Future W F T} (env : W -> W -> Prop) (f : F) w (v : T) w' :
  completes_guarded env f w (VALUE v) w' <-> completes env f w (VALUE v) w'.
Proof. unfold completes_guarded. naive_solver. Qed.

Section Then.
Context {W FutA FutB A B : Type} `{FA : Future W FutA A, FB : Future W FutB B}.
Implicit Types (a : FutA) (b : FutB) (w : W).

(** The [catch] clause lets only foreign exceptions escape. *)
Lemma poll_second_throws (m : ThenFuture W FutA FutB A) t w e m' w' :
  poll_second m t w = (Throw e, m', w') -> is_std e = false.
Proof.
  destruct m as [? [|[a fn]|?]]; unfold poll_second; cbn; try done.
  destruct (fn t w) as [[b|?|?|] wb]; cbn; [|case_match; naive_solver|done..].
  destruct (poll b wb) as [[q ?] ?]. destruct q; cbn; [done|case_match; naive_solver|done..].
Qed.

Lemma poll_second_defined `{!Defined_polls (W:=W) FutB} (m : ThenFuture W FutA FutB A) t w m' w' :
  poll_second m t w <> (Ret NOTHING, m', w').
Proof.
  destruct m as [? [|[a fn]|?]]; unfold poll_second; cbn; try done.
  destruct (fn t w) as [[b|e|?|] wb]; cbn; [|case_match; done|done..].
  pose proof (polls_defined b wb) as Hd. destruct (poll b wb) as [[p b'] wp].
  destruct p as [p|e|?|]; cbn; [|case_match; done|done..]. naive_solver.
Qed.

Context (env : W -> W -> Prop).
Local Abbreviation completes := (completes env).
Local Abbreviation Then := (ThenFuture W FutA FutB A).

Lemma completes_second b w (r : Try B) w' :
  completes (mkThen Second (RIGHT b) : Then) w r w' <-> completes b w r w'.
Proof.
  split.
  - remember (mkThen Second (RIGHT b) : Then) as m eqn:Em. intros Hc. revert b Em.
    induction Hc as [f w v f' w' Hp|f w e f' w' Hp|f w f1 w1 w2 r w3 Hp He Hc IH];
      intros b ->; cbn in Hp; destruct (poll b w) as [[p b'] w''] eqn:Ep; simplify_eq;
      eauto with completion.
  - induction 1 as [f w v f' w' Hp|f w e f' w' Hp|f w f1 w1 w2 r w3 Hp He Hc IH];
      [eapply completes_value|eapply completes_exception|eapply completes_pending; [|done|exact IH]];
      cbn; rewrite Hp; done.
Qed.

(** What the rest of a chain does once its first future has produced [t]. *)
Lemma after_poll_second a fn (t : Try A) w (r : Try B) w' :
  after_poll env (poll_second (mkThen First (LEFT (a, fn)) : Then) t w) r w' <->
  continues env (fn t) w r w'.
Proof.
  unfold continues, poll_second; cbn.
  destruct (fn t w) as [[b|e|s|] wb]; cbn; [|destruct (is_std e); cbn; naive_solver|done..].
  rewrite guarded_unfold. destruct (poll b wb) as [[q b'] wq].
  destruct (catch_std q) as [[[v|]|e|]|?|?|]; cbn; try done.
  by setoid_rewrite completes_second.
Qed.

Lemma completes_then_iff a fn w (r : Try B) w' :
  completes (then_ a fn : Then) w r w' <->
  exists t w1, completes a w t w1 /\ continues env (fn t) w1 r w'.
Proof.
  unfold then_. split.
  - remember (mkThen First (LEFT (a, fn)) : Then) as m eqn:Em. intros Hc.
    assert (Hp : after_poll env (poll m w) r w') by by rewrite <-completes_unfold.
    revert a Em Hp. induction Hc as [f w v f' w' Hq|f w e f' w' Hq|f w f1 w1 w2 r w3 Hq He Hc IH];
      intros a ->; cbn in *; destruct (poll a w) as [[p a'] wa] eqn:Ep;
      destruct p as [[[x|]|x|]|?|?|]; try done; rewrite ?after_poll_second; eauto with completion.
    simplify_eq. intros _. destruct (IH a' eq_refl) as (t & wt & Ht & Hk);
      [by rewrite <-completes_unfold|]. eauto with completion.
  - intros (t & w1 & Ha & Hk). revert w' r Hk.
    induction Ha as [f w v f' w1 Hp|f w e f' w1 Hp|f w f1 w1 w2 t w3 Hp He Hc IH]; intros w' r Hk;
      rewrite completes_unfold; cbn; rewrite Hp; rewrite ?after_poll_second; cbn; eauto.
Qed.
End Then.

Lemma completes_defined {W F T} `{Future W F T} (env : W -> W -> Prop) (f : F) w w' :
  ~ completes env f w (NOTHING : Try T) w'.
Proof. intros Hc. remember (NOTHING : Try T) as r. by induction Hc. Qed.

(** The futures that the wrappers build. *)
Section WrapperFutures.
Context {W : Type}.

#[export] Instance foe_defined {F T} `{Future W F T} :
  Defined_polls (W:=W) (FutureOrExceptionFuture F).
Proof.
  intros [[b|e|]] w f' w' Hp; cbn in Hp; simplify_eq.
  destruct (poll b w) as [[p b'] wb]. destruct p as [[[x|]|x|]|?|?|]; simplify_eq.
Qed.

#[export] Instance then_defined {FutA FutB A B} `{Future W FutA A, Future W FutB B}
  `{!Defined_polls (W:=W) FutB} : Defined_polls (W:=W) (ThenFuture W FutA FutB A).
Proof.
  intros [[] [|[a fn]|b]] w f' w' Hp; cbn in Hp; try done.
  - destruct (poll a w) as [[p a'] wa]. destruct p as [[[x|]|x|]|?|?|]; try done; by eapply poll_second_defined.
  - pose proof (polls_defined b w) as Hd. destruct (poll b w) as [[p b'] wb]. naive_solver.
Qed.

#[export] Instance ok_defined {T} `{Movable T} : Defined_polls (W:=W) (OkFuture T).
Proof. by intros f w f' w' Hp. Qed.
Context (env : W -> W -> Prop).

Lemma completes_foe_value {F T} `{Future W F T} (b : F) w (r : Try T) w' :
  completes env (mkFutureOrException (VALUE b)) w r w' <-> completes env b w r w'.
Proof.
  split.
  - remember (mkFutureOrException (VALUE b)) as m eqn:Em. intros Hc. revert b Em.
    induction Hc as [f w v f' w' Hp|f w e f' w' Hp|f w f1 w1 w2 r w3 Hp He Hc IH];
      intros b ->; cbn in Hp; destruct (poll b w) as [[p b'] w''] eqn:Ep;
      destruct p as [[[x|]|x|]|?|?|]; simplify_eq; eauto with completion.
  - induction 1 as [f w v f' w' Hp|f w e f' w' Hp|f w f1 w1 w2 r w3 Hp He Hc IH];
      [eapply completes_value|eapply completes_exception|eapply completes_pending; [|done|exact IH]];
      cbn; rewrite Hp; done.
Qed.

Lemma guarded_foe_value {F T} `{Future W F T, !Defined_polls (W:=W) F} (b : F) w (r : Try T) w' :
  completes_guarded env (mkFutureOrException (VALUE b)) w r w' <-> completes_guarded env b w r w'.
Proof.
  unfold completes_guarded. rewrite completes_foe_value. apply or_iff_compat_l.
  pose proof (polls_defined b w) as Hd. cbn.
  destruct (poll b w) as [[p b'] wb]. destruct p as [[[x|]|x|]|?|?|]; naive_solver.
Qed.

Lemma guarded_once {F T} `{Future W F T} (f : F) w t f' w1 (r : Try T) w' :
  poll f w = (Ret t, f', w1) -> (forall w2 w3, ~ (t = VALUE None /\ env w2 w3)) -> t <> NOTHING ->
  completes_guarded env f w r w' <->
  match t with
  | VALUE (Some v) => r = VALUE v /\ w' = w1
  | EXCEPTION e => r = EXCEPTION e /\ w' = w1
  | _ => False
  end.
Proof.
  intros Hp Hn Hd. rewrite guarded_unfold, Hp. destruct t as [[v|]|e|]; cbn; naive_solver.
Qed.

End WrapperFutures.

Section AndThen.
Context {W FutA FutB A B : Type} `{FA : Future W FutA A, FB : Future W FutB B}.
Context `{DB : !Defined_polls (W:=W) FutB} (env : W -> W -> Prop).
Implicit Types (a : FutA) (f : A -> eff W FutB).
Import FutureBase.

Lemma continues_wrapper f v w (r : Try B) w' :
  continues env (AndThenWrapper f (VALUE v)) w r w' <-> continues env (f v) w r w'.
Proof.
  unfold continues; cbn. unfold eff_bind.
  destruct (f v w) as [[b|e|?|] wb]; cbn; [apply guarded_foe_value; done|done..].
Qed.

Lemma continues_wrapper_exc f e w (r : Try B) w' :
  continues env (AndThenWrapper f (EXCEPTION e)) w r w' <-> r = EXCEPTION e /\ w' = w.
Proof.
  unfold continues; cbn. rewrite guarded_unfold. cbn. done.
Qed.

Lemma completes_andThen_iff a f w (r : Try B) w' :
  completes env (andThen a f) w r w' <->
  (exists e, completes env a w (EXCEPTION e) w' /\ r = EXCEPTION e) \/
  (exists v w1, completes env a w (VALUE v) w1 /\ continues env (f v) w1 r w').
Proof.
  unfold andThen. rewrite completes_then_iff. split.
  - intros ([v|e|] & w1 & Ha & Hk); [|apply continues_wrapper_exc in Hk; naive_solver|].
    + right. apply continues_wrapper in Hk. eauto.
    + by apply completes_defined in Ha.
  - intros [(e & Ha & ->)|(v & w1 & Ha & Hk)].
    + exists (EXCEPTION e), w'. by rewrite continues_wrapper_exc.
    + exists (VALUE v), w1. by rewrite continues_wrapper.
Qed.

Lemma guarded_andThen_iff `{DA : !Defined_polls (W:=W) FutA} a f w (r : Try B) w' :
  completes_guarded env (andThen a f) w r w' <->
  (exists e, completes_guarded env a w (EXCEPTION e) w' /\ r = EXCEPTION e) \/
  (exists v w1, completes env a w (VALUE v) w1 /\ continues env (f v) w1 r w').
Proof.
  unfold completes_guarded at 1. rewrite completes_andThen_iff.
  assert (Ht : (exists e m', poll (andThen a f) w = (Throw e, m', w') /\ is_std e = true
                            /\ r = EXCEPTION (Some e)) <->
               (exists e a', poll a w = (Throw e, a', w') /\ is_std e = true
                            /\ r = EXCEPTION (Some e))); [|rewrite Ht; clear Ht].
  { pose proof (polls_defined a w) as Hd. cbn. destruct (poll a w) as [[p a'] wa].
    destruct p as [[[x|]|x|]|?|?|]; [|naive_solver| |by destruct (Hd a' wa)|naive_solver..];
      (split; [intros (e & m' & Hp & Hs & _); apply poll_second_throws in Hp; by rewrite Hs in Hp|naive_solver]). }
  unfold completes_guarded. naive_solver.
Qed.
End AndThen.

(** ** The laws *)
Section Laws.
Context {W FutA FutB FutC A B C : Type}.
Context `{FA : Future W FutA A, FB : Future W FutB B, FC : Future W FutC C}.
Context `{DB : !Defined_polls (W:=W) FutB, DC : !Defined_polls (W:=W) FutC}.
Context `{Movable A} (env : W -> W -> Prop).
Import FutureBase.

(** C1: [then] runs its first future to completion and calls its callback
    exactly once, with that future's result (value or exception) and in the
    world the completion left, and then behaves as the future the callback
    returned; an exception thrown by the callback, or by the first poll of its
    future, becomes the result. *)
Theorem then_spec (a : FutA) (fn : Try A -> eff W FutB) w (r : Try B) w' :
  completes env (then_ a fn) w r w' <->
  exists t w1, completes env a w t w1 /\ continues env (fn t) w1 r w'.
Proof. apply completes_then_iff. Qed.

(** C2: [andThen] is associative: chaining two callbacks one after the other
    gives the same completions as chaining their composition. *)
Theorem andThen_assoc (a : FutA) (f : A -> eff W FutB) (g : B -> eff W FutC) :
  same_completions env
    (andThen (andThen a f) g)
    (andThen a (fun x => do! b <- f x; eff_ret (andThen b g))).
Proof.
  intros w r w'. rewrite !completes_andThen_iff. setoid_rewrite completes_andThen_iff.
  assert (Hk : forall v w1, continues env (do! b <- f v; eff_ret (andThen b g)) w1 r w' <->
    (exists e, continues env (f v) w1 (EXCEPTION e) w' /\ r = EXCEPTION e) \/
    (exists x w2, continues env (f v) w1 (VALUE x) w2 /\ continues env (g x) w2 r w')).
  { intros v w1. unfold continues at 1 2 3. unfold eff_bind, eff_ret.
    destruct (f v w1) as [[b|e|?|] wb]; [|naive_solver..].
    rewrite (guarded_andThen_iff env) by exact DB. by setoid_rewrite guarded_value. }
  setoid_rewrite Hk. naive_solver.
Qed.

(** A ready future is a unit of [andThen] on both sides: [makeOk(v)]
    followed by [f] completes as [f v] does, and following any future with
    [makeOk] changes nothing. *)
Theorem andThen_units (v : A) (f : A -> eff W FutB) (a : FutA) w w' :
  (forall r, completes env (andThen (mkOkFuture v) f) w r w' <-> continues env (f v) w r w') /\
  (forall r, completes env (andThen a (fun x => eff_ret (mkOkFuture x))) w r w' <->
             completes env a w r w').
Proof.
  split; intros r; rewrite completes_andThen_iff.
  - split.
    + intros [(e & Hc & ->)|(x & w1 & Hc & Hk)]; apply completes_unfold in Hc; cbn in Hc; naive_solver.
    + intros Hk. right. exists v, w. split; [|done]. apply completes_unfold. done.
  - unfold continues, eff_ret. setoid_rewrite guarded_unfold. cbn. split.
    + naive_solver.
    + intros Hc. destruct r as [x|e|]; [right|left|by apply completes_defined in Hc]; eauto.
Qed.
End Laws.

Section Recovery.
Context {W FutA FutB A R : Type}.
Context `{FA : Future W FutA A, FB : Future W FutB A}.
Context `{Movable A, Movable R} (env : W -> W -> Prop).
Import FutureBase.

Lemma guarded_fov_left (b : FutB) w (r : Try A) w' :
  completes_guarded env (mkFutureOrValue (LEFT b) : FutureOrValueFuture FutB A) w r w' <->
  completes_guarded env b w r w'.
Proof.
  assert (Hc : forall b w r w',
    completes env (mkFutureOrValue (LEFT b) : FutureOrValueFuture FutB A) w r w' <->
    completes env b w r w').
  { clear. intros b w r w'. split.
    - remember (mkFutureOrValue (LEFT b)) as m eqn:Em. intros Hc. revert b Em.
      induction Hc as [f w v f' w' Hp|f w e f' w' Hp|f w f1 w1 w2 r w3 Hp He Hc IH];
        intros b ->; cbn in Hp; destruct (poll b w) as [[p b'] w''] eqn:Ep; simplify_eq;
        eauto with completion.
    - induction 1 as [f w v f' w' Hp|f w e f' w' Hp|f w f1 w1 w2 r w3 Hp He Hc IH];
        [eapply completes_value|eapply completes_exception|eapply completes_pending; [|done|exact IH]];
        cbn; rewrite Hp; done. }
  unfold completes_guarded. rewrite Hc. cbn. destruct (poll b w) as [[p b'] wb]. naive_solver.
Qed.

(** [map] applies its function exactly once to the value of the future, in
    the world the completion left, and yields the result, or the exception the
    function throws; an exception of the future passes through and the
    function is not called. *)
Theorem map_spec (a : FutA) (f : A -> eff W R) w (r : Try R) w' :
  completes env (map a f) w r w' <->
  (exists e, completes env a w (EXCEPTION e) w' /\ r = EXCEPTION e) \/
  (exists v w1, completes env a w (VALUE v) w1 /\
     match f v w1 with
     | (Ret y, w2) => r = VALUE y /\ w' = w2
     | (Throw e, w2) => is_std e = true /\ r = EXCEPTION (Some e) /\ w' = w2
     | _ => False
     end).
Proof.
  unfold map. rewrite completes_then_iff.
  assert (Hv : forall v w1, continues env (MapWrapper f (VALUE v)) w1 r w' <->
     match f v w1 with
     | (Ret y, w2) => r = VALUE y /\ w' = w2
     | (Throw e, w2) => is_std e = true /\ r = EXCEPTION (Some e) /\ w' = w2
     | _ => False
     end).
  { intros v w1. unfold continues; cbn. unfold eff_bind.
    destruct (f v w1) as [[y|e|?|] w2]; cbn; [|done..]. by rewrite guarded_unfold. }
  assert (He : forall e w1, continues env (MapWrapper f (EXCEPTION e)) w1 r w' <->
     r = EXCEPTION e /\ w' = w1).
  { intros e w1. unfold continues; cbn. rewrite guarded_unfold. done. }
  split.
  - intros ([v|e|] & w1 & Ha & Hk); [apply Hv in Hk; eauto|apply He in Hk; naive_solver|].
    by apply completes_defined in Ha.
  - intros [(e & Ha & ->)|(v & w1 & Ha & Hk)].
    + exists (EXCEPTION e), w'. by rewrite He.
    + exists (VALUE v), w1. by rewrite Hv.
Qed.

(** [orElse] passes a value through without running its callback, and on
    an exception drops it and continues with the future the callback returns. *)
Theorem orElse_spec (a : FutA) (f : eff W FutB) w (r : Try A) w' :
  completes env (orElse a f) w r w' <->
  (exists v, completes env a w (VALUE v) w' /\ r = VALUE v) \/
  (exists e w1, completes env a w (EXCEPTION e) w1 /\ continues env f w1 r w').
Proof.
  unfold orElse. rewrite completes_then_iff.
  assert (Hv : forall v w1, continues env (OrElseWrapper f (VALUE v)) w1 r w' <->
     r = VALUE v /\ w' = w1).
  { intros v w1. unfold continues; cbn. rewrite guarded_unfold. done. }
  assert (He : forall e w1, continues env (OrElseWrapper (T:=A) f (EXCEPTION e)) w1 r w' <->
     continues env f w1 r w').
  { intros e w1. unfold continues; cbn. unfold eff_bind.
    destruct (f w1) as [[b|?|?|] wb]; cbn; [by rewrite guarded_fov_left|done..]. }
  split.
  - intros ([v|e|] & w1 & Ha & Hk); [apply Hv in Hk; naive_solver|apply He in Hk; eauto|].
    by apply completes_defined in Ha.
  - intros [(v & Ha & ->)|(e & w1 & Ha & Hk)].
    + exists (VALUE v), w'. by rewrite Hv.
    + exists (EXCEPTION e), w1. by rewrite He.
Qed.
End Recovery.

(** ** Join *)
Section JoinLaws.
Context {W FutA FutB A B : Type} `{FA : Future W FutA A, FB : Future W FutB B, Movable A, Movable B}.
Context (env : W -> W -> Prop).

Lemma completes_join_second (x : A) (b : FutB) w r w' :
  completes env (mkJoin (RIGHT x) (LEFT b) : JoinFuture FutA FutB A B) w r w' <->
  (exists e, completes env b w (EXCEPTION e) w' /\ r = EXCEPTION e) \/
  (exists y, completes env b w (VALUE y) w' /\ r = VALUE (x, y)).
Proof.
  split.
  - remember (mkJoin (RIGHT x) (LEFT b)) as m eqn:Em. intros Hc. revert b Em.
    induction Hc as [f w v f' w' Hp|f w e f' w' Hp|f w f1 w1 w2 r w3 Hp He Hc IH];
      intros b ->; cbn in Hp; destruct (poll b w) as [[p b'] wb] eqn:Ep;
      destruct p as [[[y|]|y|]|?|?|]; simplify_eq/=.
    + right. eauto with completion.
    + left. eauto with completion.
    + destruct (IH b' eq_refl) as [(e & Hc' & ->)|(y & Hc' & ->)]; [left|right]; eauto with completion.
  - assert (Hgen : forall t, completes env b w t w' ->
      completes env (mkJoin (RIGHT x) (LEFT b) : JoinFuture FutA FutB A B) w
        (match t with VALUE y => VALUE (x, y) | EXCEPTION e => EXCEPTION e | NOTHING => NOTHING end) w').
    { intros t Hc.
      induction Hc as [f w v f' w' Hp|f w e f' w' Hp|f w f1 w1 w2 t w3 Hp He Hc IH];
        rewrite completes_unfold; cbn; rewrite Hp; cbn; eauto. }
    intros [(e & Hc & ->)|(y & Hc & ->)]; by apply Hgen in Hc.
Qed.

(** [join] is sequential: the second future is not polled before the first
    one has produced its value; an exception of either is the result; otherwise
    the result is the pair of the two values. *)
Theorem join_spec (a : FutA) (b : FutB) w r w' :
  completes env (join a b) w r w' <->
  (exists e, completes env a w (EXCEPTION e) w' /\ r = EXCEPTION e) \/
  (exists x w1, completes env a w (VALUE x) w1 /\
     ((exists e, completes env b w1 (EXCEPTION e) w' /\ r = EXCEPTION e) \/
      (exists y, completes env b w1 (VALUE y) w' /\ r = VALUE (x, y)))).
Proof.
  setoid_rewrite <-completes_join_second.
  assert (Hs : forall (x : A) w w', after_poll env (join_poll_b (FutA:=FutA) (RIGHT x) (LEFT b) w) r w' <->
     completes env (mkJoin (RIGHT x) (LEFT b) : JoinFuture FutA FutB A B) w r w').
  { intros. by rewrite (completes_unfold env (mkJoin _ _)). }
  split.
  - unfold join. remember (mkJoin (LEFT a) (LEFT b) : JoinFuture FutA FutB A B) as m eqn:Em.
    intros Hc. assert (Hp : after_poll env (poll m w) r w') by by rewrite <-completes_unfold.
    revert a Em Hp. induction Hc as [f w v f' w' Hq|f w e f' w' Hq|f w f1 w1 w2 r w3 Hq He Hc IH];
      intros a ->; cbn -[join_poll_b] in *; destruct (poll a w) as [[p a'] wa] eqn:Ep;
      destruct p as [[[x|]|x|]|?|?|]; try done; rewrite ?Hs;
      try (intros Hk; right; by eauto with completion);
      try (intros [? ?]; simplify_eq; left; by eauto with completion).
    simplify_eq. intros _. destruct (IH Hs a' eq_refl) as [(e & Ha & ->)|(x & w2' & Ha & Hk)];
      [by rewrite <-completes_unfold|left|right]; eauto with completion.
  - assert (Hgen : forall t w1, completes env a w t w1 ->
      match t with
      | VALUE x => completes env (mkJoin (RIGHT x) (LEFT b) : JoinFuture FutA FutB A B) w1 r w'
      | EXCEPTION e => r = EXCEPTION e /\ w1 = w' | NOTHING => False end ->
      completes env (join a b) w r w').
    { intros t w1 Hc.
      induction Hc as [f w v f' w1 Hp|f w e f' w1 Hp|f w f1 w1 w2 t w3 Hp He Hc IH]; intros Hk;
        rewrite completes_unfold; unfold join; cbn -[join_poll_b]; rewrite Hp; cbn -[join_poll_b];
        [by apply Hs|naive_solver|]. unfold join in IH. eauto. }
    intros [(e & Ha & ->)|(x & w1 & Ha & Hk)]; by eapply Hgen.
Qed.
End JoinLaws.

(** ** Loops *)
Section LoopLaws.
Context {W FutR B St : Type} `{FR : Future W FutR (Either B St), Movable St}.

(** [k] rounds in a row complete at once with [continue]; [fut'] is the future
    of the next round. *)
Inductive iterates (f : St -> eff W FutR) : FutR -> W -> nat -> FutR -> W -> Prop :=
| iterates_here fut w : iterates f fut w 0 fut w
| iterates_next fut w s fut1 w1 next w2 k fut' w' :
    poll fut w = (Ret (VALUE (Some (RIGHT s))), fut1, w1) ->
    f s w1 = (Ret next, w2) ->
    iterates f next w2 k fut' w' ->
    iterates f fut w (S k) fut' w'.

Lemma loop_iterate_skip f init fut w k fut' w' fuel :
  iterates f fut w k fut' w' ->
  loop_iterate (k + fuel) f init fut w = loop_iterate fuel f init fut' w'.
Proof.
  induction 1 as [|fut w s fut1 w1 next w2 k fut' w' Hp Hf Hi IH]; [done|].
  cbn. by rewrite Hp, Hf, IH.
Qed.

(** One poll of a loop runs every round that completes at once, in order,
    and stops with the value of the first [break], or suspends on the first
    round that is not ready, keeping that round's future for the next poll;
    any fuel above the number of rounds is enough. *)
Theorem loop_spec (f : St -> eff W FutR) (s0 : St) w0 fut w k fut' w' fuel p fut'' w'' :
  f s0 w0 = (Ret fut, w) ->
  iterates f fut w k fut' w' ->
  poll fut' w' = (Ret (VALUE p), fut'', w'') ->
  k < fuel ->
  match p with
  | Some (LEFT b) =>
      LoopFnFuture_poll fuel (makeLoop s0 f) w0 =
        (Ret (makePollReady b), mkLoop f (moved_from s0) None, w'')
  | None =>
      LoopFnFuture_poll fuel (makeLoop s0 f) w0 =
        (Ret not_ready, mkLoop f (moved_from s0) (Some fut''), w'')
  | _ => True
  end.
Proof.
  intros Hf Hi Hp Hk. unfold LoopFnFuture_poll, makeLoop; cbn. rewrite Hf.
  replace fuel with (k + S (fuel - k - 1)) by lia. rewrite (loop_iterate_skip _ _ _ _ _ _ _ _ Hi).
  destruct p as [[|b|s]|]; cbn; by rewrite ?Hp.
Qed.
End LoopLaws.

(** A loop that counts to three and then breaks with [true]. *)
Definition count_body (n : nat) : eff unit (OkFuture (Either bool nat)) :=
  eff_ret (mkOkFuture (if n <? 3 then RIGHT (S n) else LEFT true)).

#[export] Instance Movable_Either L R : Movable (Either L R) := fun e => e.

Lemma loop_spec_witness :
  (LoopFnFuture_poll 4 (makeLoop 0 count_body) tt).1.1 = Ret (makePollReady true).
Proof.
  rewrite (loop_spec count_body 0 tt (mkOkFuture (RIGHT 1)) tt 3 (mkOkFuture (LEFT true)) tt 4
            (Some (LEFT true)) (mkOkFuture (LEFT true)) tt);
    [reflexivity|reflexivity|repeat econstructor|reflexivity|lia].
Defined.

Definition add_one (z : Z) : eff unit (OkFuture Z) := eff_ret (mkOkFuture (z + 1)%Z).

Lemma andThen_assoc_witness :
  same_completions (W:=unit) eq
    (FutureBase.andThen (FutureBase.andThen (mkOkFuture 1%Z) add_one) add_one)
    (FutureBase.andThen (mkOkFuture 1%Z)
       (fun x => do! b <- add_one x; eff_ret (FutureBase.andThen b add_one))).
Proof. apply (andThen_assoc eq (mkOkFuture 1%Z) add_one add_one). Defined.

Lemma andThen_units_witness :
  completes eq (FutureBase.andThen (mkOkFuture 1%Z) add_one) tt (VALUE 2%Z) tt.
Proof.
  apply (andThen_units eq 1%Z add_one (mkOkFuture 1%Z) tt tt).
  left. eapply completes_value. reflexivity.
Defined.
