(* ===== verification/MultiFuture.v ===== *)
(** * Futures over several futures

    Models [src/include/futures/detail/SelectFuture.h], [WhenAllFuture.h] and
    [StaticMultiFuture.h]: the dynamic [makeSelect]/[makeWhenAll] over a vector
    of futures of one type, and the static [whenAny]/[whenAll] over a tuple. *)

From S2P Require Import Prelude Core Futures.
Local Open Scope cpp_scope.

(** ** makeSelect *)
Section Select.
Context {W Fut T : Type} `{FF : Future W Fut T}.

(** [src/include/futures/detail/SelectFuture.h:11-21] SelectFuture *)
Record SelectFuture := mkSelect { seq_ : list Fut }.

(** [src/include/futures/detail/SelectFuture.h:45-50] SelectFuture::remove_nth *)
Definition remove_nth (i : nat) (seq : list Fut) : list Fut :=
  let last := length seq - 1 in
  if decide (last <> i) then
    match seq !! i, seq !! last with
    | Some x, Some y => take last (<[i := y]> (<[last := x]> seq))
    | _, _ => seq
    end
  else seq.

(** [src/include/futures/detail/SelectFuture.h:26-39] SelectFuture::poll, the loop over [seq_] *)
Fixpoint select_scan (before rest : list Fut) (w : W)
  : res (Poll (Try T * list Fut)) * SelectFuture * W :=
  match rest with
  | [] => (Ret not_ready, mkSelect before, w)
  | f :: rest =>
      let '(r, f', w') := poll f w in
      let seq := before ++ f' :: rest in
      let i := length before in
      match r with
      | Ret (EXCEPTION e) => (Ret (makePollReady (EXCEPTION e, remove_nth i seq)), mkSelect [], w')
      | Ret (VALUE (Some v)) => (Ret (makePollReady (VALUE v, remove_nth i seq)), mkSelect [], w')
      | Ret (VALUE None) => select_scan (before ++ [f']) rest w'
      | Ret NOTHING => (Throw UsingUninitializedTry, mkSelect seq, w')
      | Throw e => (Throw e, mkSelect seq, w')
      | Abort s => (Abort s, mkSelect seq, w')
      | OutOfFuel => (OutOfFuel, mkSelect seq, w')
      end
  end.

(** [src/include/futures/detail/SelectFuture.h:23-40] SelectFuture::poll *)
Definition SelectFuture_poll (s : SelectFuture) (w : W)
  : res (Poll (Try T * list Fut)) * SelectFuture * W :=
  match seq_ s with
  | [] => (Throw InvalidPollStateException, s, w)
  | _ => select_scan [] (seq_ s) w
  end.
#[global] Instance SelectFuture_Future : Future W SelectFuture (Try T * list Fut) :=
  SelectFuture_poll.

(** Polling the futures of [l] in order finds each of them not ready. *)
Inductive all_pending : list Fut -> W -> list Fut -> W -> Prop :=
| all_pending_nil w : all_pending [] w [] w
| all_pending_cons f l w f' w1 l' w2 :
    poll f w = (Ret (VALUE None), f', w1) -> all_pending l w1 l' w2 ->
    all_pending (f :: l) w (f' :: l') w2.

Lemma select_scan_pending acc l w l' w' rest :
  all_pending l w l' w' ->
  select_scan acc (l ++ rest) w = select_scan (acc ++ l') rest w'.
Proof.
  intros Hp. revert acc. induction Hp as [|f l w f' w1 l' w2 Hf _ IH]; intros acc; cbn.
  - by rewrite app_nil_r.
  - rewrite Hf, IH, <-app_assoc. done.
Qed.

Lemma remove_nth_middle (before rest : list Fut) f x :
  remove_nth (length before) (before ++ f :: rest ++ [x]) = before ++ x :: rest.
Proof.
  set (l := before ++ f :: rest).
  assert (Hl : length l = length before + S (length rest)) by (subst l; by rewrite length_app).
  replace (before ++ f :: rest ++ [x]) with (l ++ [x]) by (subst l; by rewrite <-app_assoc).
  unfold remove_nth. rewrite length_app, Nat.add_sub, decide_True by lia.
  assert (Hi : (l ++ [x]) !! length before = Some f).
  { subst l. rewrite <-app_assoc. by apply list_lookup_middle. }
  assert (Hx : (l ++ [x]) !! length l = Some x) by by apply list_lookup_middle.
  rewrite Hi, Hx, (insert_app_r_alt l) by lia. rewrite Nat.sub_diag, insert_app_l by lia.
  rewrite take_app_length' by (by rewrite length_insert).
  subst l. rewrite insert_app_r_alt by lia. by rewrite Nat.sub_diag.
Qed.

Lemma remove_nth_last (before : list Fut) f :
  remove_nth (length before) (before ++ [f]) = before ++ [f].
Proof. unfold remove_nth. rewrite length_app; cbn. rewrite decide_False by lia. done. Qed.

(** [makeSelect] yields the result of the first future, in vector order,
    that is not pending; the futures before it have each been polled once, the
    futures after it not at all.  If that future is not the last one, the
    returned vector holds exactly the other futures (the last one in its
    place); if it is the last one, it is still in the returned vector. *)
Theorem select_spec (before : list Fut) (f : Fut) (rest : list Fut) w before' w1 t f' w2 :
  all_pending before w before' w1 ->
  poll f w1 = (Ret t, f', w2) ->
  t <> VALUE None -> t <> NOTHING ->
  let result := match t with VALUE (Some v) => VALUE v | EXCEPTION e => EXCEPTION e | _ => NOTHING end in
  (forall x, poll (mkSelect (before ++ f :: rest ++ [x])) w =
     (Ret (makePollReady (result, before' ++ x :: rest)), mkSelect [], w2)) /\
  poll (mkSelect (before ++ [f])) w =
     (Ret (makePollReady (result, before' ++ [f'])), mkSelect [], w2).
Proof.
  intros Hb Hf Ht1 Ht2 result.
  assert (Hl : forall rest, poll (mkSelect (before ++ f :: rest)) w =
     (Ret (makePollReady (result, remove_nth (length before') (before' ++ f' :: rest))), mkSelect [], w2)).
  { intros rest0. transitivity (select_scan [] (before ++ f :: rest0) w); [by destruct before|].
    rewrite (select_scan_pending _ _ _ _ _ _ Hb). cbn. rewrite Hf.
    destruct t as [[v|]|e|]; done. }
  split; [intros x; rewrite Hl, remove_nth_middle|rewrite Hl, remove_nth_last]; done.
Qed.
End Select.
Arguments SelectFuture Fut : clear implicits.

(** The finished future is still offered to the caller when it was the last. *)
Example select_keeps_finished_last :
  @SelectFuture_poll unit (OkFuture Z) Z _ (mkSelect [mkOkFuture 7%Z]) tt =
  (Ret (makePollReady (VALUE 7%Z, [mkOkFuture 7%Z])), mkSelect [], tt).
Proof. reflexivity. Qed.

Lemma select_spec_witness :
  poll (W:=unit) (mkSelect ([] ++ [mkOkFuture 7%Z])) tt =
  (Ret (makePollReady (VALUE 7%Z, [] ++ [mkOkFuture 7%Z])), mkSelect [], tt).
Proof.
  apply (select_spec [] (mkOkFuture 7%Z) [] tt [] tt (VALUE (Some 7%Z)) (mkOkFuture 7%Z) tt);
    [constructor|reflexivity|discriminate|discriminate].
Defined.

(** ** makeWhenAll *)
Section WhenAll.
Context {W Fut T : Type} `{FF : Future W Fut T}.

(** [src/include/futures/detail/WhenAllFuture.h:12-61] WhenAllFuture *)
Record WhenAllFuture := mkWhenAll { all_ : list (Either Fut T) }.

(** [src/include/futures/detail/WhenAllFuture.h:18-24] WhenAllFuture::WhenAllFuture *)
Definition makeWhenAll (futs : list Fut) : res WhenAllFuture :=
  match futs with
  | [] => Throw FutureEmptySetException
  | _ => Ret (mkWhenAll (map LEFT futs))
  end.

(** [src/include/futures/detail/WhenAllFuture.h:32-45] WhenAllFuture::poll, the polling loop *)
Fixpoint whenall_scan (before rest : list (Either Fut T)) (all_done : bool) (w : W)
  : res (exception_wrapper + bool) * list (Either Fut T) * W :=
  match rest with
  | [] => (Ret (inr all_done), before, w)
  | LEFT f :: rest =>
      let '(r, f', w') := poll f w in
      let all := before ++ LEFT f' :: rest in
      match r with
      | Ret (EXCEPTION e) => (Ret (inl e), [], w')
      | Ret (VALUE (Some v)) => whenall_scan (before ++ [RIGHT v]) rest all_done w'
      | Ret (VALUE None) => whenall_scan (before ++ [LEFT f']) rest false w'
      | Ret NOTHING => (Throw UsingUninitializedTry, all, w')
      | Throw e => (Throw e, all, w')
      | Abort s => (Abort s, all, w')
      | OutOfFuel => (OutOfFuel, all, w')
      end
  | e :: rest => whenall_scan (before ++ [e]) rest all_done w
  end.

(** [src/include/futures/detail/WhenAllFuture.h:47-50] WhenAllFuture::poll, collecting the
    values: [vs] is reserved but never resized, so [vs[i]] is past its end. *)
Fixpoint collect_values (all : list (Either Fut T)) (vs : list T) (i : nat) : res (list T) :=
  match all with
  | [] => Ret vs
  | e :: rest =>
      let! v := Either_.right e in
      if decide (i < length vs) then collect_values rest (<[i := v]> vs) (S i)
      else Abort "vs[i]: index past the end of the vector"
  end.

(** [src/include/futures/detail/WhenAllFuture.h:31-57] WhenAllFuture::poll *)
Definition WhenAllFuture_poll (m : WhenAllFuture) (w : W) : res (Poll (list T)) * WhenAllFuture * W :=
  match whenall_scan [] (all_ m) true w with
  | (Ret (inl e), all, w') => (Ret (EXCEPTION e), mkWhenAll all, w')
  | (Ret (inr true), all, w') =>
      match collect_values all [] 0 with
      | Ret vs => (Ret (makePollReady vs), mkWhenAll [], w')
      | Throw e => (Throw e, mkWhenAll all, w')
      | Abort s => (Abort s, mkWhenAll all, w')
      | OutOfFuel => (OutOfFuel, mkWhenAll all, w')
      end
  | (Ret (inr false), all, w') => (Ret not_ready, mkWhenAll all, w')
  | (Throw e, all, w') => (Throw e, mkWhenAll all, w')
  | (Abort s, all, w') => (Abort s, mkWhenAll all, w')
  | (OutOfFuel, all, w') => (OutOfFuel, mkWhenAll all, w')
  end.
#[global] Instance WhenAllFuture_Future : Future W WhenAllFuture (list T) := WhenAllFuture_poll.

(** Polling the futures of [l] in order finds each of them ready. *)
Inductive all_ready : list Fut -> W -> list T -> W -> Prop :=
| all_ready_nil w : all_ready [] w [] w
| all_ready_cons f l w v f' w1 vs w2 :
    poll f w = (Ret (VALUE (Some v)), f', w1) -> all_ready l w1 vs w2 ->
    all_ready (f :: l) w (v :: vs) w2.

Lemma whenall_scan_ready before futs w vs w' b :
  all_ready futs w vs w' ->
  whenall_scan before (map LEFT futs) b w = (Ret (inr b), before ++ map RIGHT vs, w').
Proof.
  intros Hr. revert before. induction Hr as [|f l w v f' w1 vs w2 Hf _ IH]; intros before; cbn.
  - by rewrite app_nil_r.
  - rewrite Hf, IH, <-app_assoc. done.
Qed.

(** A dynamic [makeWhenAll] over at least one future never delivers its
    vector: when every future is ready, the poll writes past the end of a
    vector that was only reserved, never resized. *)
Theorem whenAll_ready_is_undefined (futs : list Fut) w vs w' :
  all_ready futs w vs w' -> futs <> [] ->
  poll (mkWhenAll (map LEFT futs)) w =
    (Abort "vs[i]: index past the end of the vector", mkWhenAll (map RIGHT vs), w').
Proof.
  intros Hr Hne. unfold poll, WhenAllFuture_Future, WhenAllFuture_poll; cbn.
  rewrite (whenall_scan_ready [] futs w vs w' true Hr); cbn.
  by destruct Hr.
Qed.
End WhenAll.
Arguments WhenAllFuture Fut T : clear implicits.

Lemma whenAll_ready_is_undefined_witness :
  poll (W:=unit) (mkWhenAll (map LEFT [mkOkFuture 1%Z; mkOkFuture 2%Z])) tt =
  (Abort "vs[i]: index past the end of the vector", mkWhenAll (map RIGHT [1%Z; 2%Z]), tt).
Proof.
  apply (whenAll_ready_is_undefined [mkOkFuture 1%Z; mkOkFuture 2%Z] tt [1%Z; 2%Z] tt);
    [repeat econstructor|discriminate].
Defined.

(** ** whenAny *)
Section StaticSelect.
Context {W : Type}.

(** [src/include/futures/detail/StaticMultiFuture.h:10-37] ICase, SelectCase *)
Inductive ICase :=
| SelectCase (Fut T : Type) (inst : Future W Fut T) (fut : Fut) (func : T -> eff W unit).

(** [src/include/futures/detail/StaticMultiFuture.h:23-33] SelectCase::tryMatch *)
Definition tryMatch (c : ICase) (w : W) : res (Try bool) * ICase * W :=
  match c with
  | @SelectCase Fut T inst fut func =>
      let '(r, fut', w') := @poll W Fut T inst fut w in
      let c' := @SelectCase Fut T inst fut' func in
      match r with
      | Ret (EXCEPTION e) => (Ret (EXCEPTION e), c', w')
      | Ret (VALUE (Some v)) =>
          let '(r, w'') := func v w' in
          (let! _ := r in Ret (VALUE true), c', w'')
      | Ret (VALUE None) => (Ret (VALUE false), c', w')
      | Ret NOTHING => (Throw UsingUninitializedTry, c', w')
      | Throw e => (Throw e, c', w')
      | Abort s => (Abort s, c', w')
      | OutOfFuel => (OutOfFuel, c', w')
      end
  end.

(** [src/include/futures/detail/StaticMultiFuture.h:47-78] StaticSelectImpl *)
Record StaticSelectImpl := mkStaticSelect { cases_ : list ICase }.

(** [src/include/futures/detail/StaticMultiFuture.h:81-87] StaticSelectImpl::poll, the loop *)
Fixpoint whenany_scan (before rest : list ICase) (w : W)
  : res (Poll nat) * StaticSelectImpl * W :=
  match rest with
  | [] => (Ret not_ready, mkStaticSelect before, w)
  | c :: rest =>
      let '(r, c', w') := tryMatch c w in
      let m := mkStaticSelect (before ++ c' :: rest) in
      match r with
      | Ret (EXCEPTION e) => (Ret (EXCEPTION e), m, w')
      | Ret (VALUE true) => (Ret (makePollReady (length before)), m, w')
      | Ret (VALUE false) => whenany_scan (before ++ [c']) rest w'
      | Ret NOTHING => (Throw UsingUninitializedTry, m, w')
      | Throw e => (Throw e, m, w')
      | Abort s => (Abort s, m, w')
      | OutOfFuel => (OutOfFuel, m, w')
      end
  end.

(** [src/include/futures/detail/StaticMultiFuture.h:80-89] StaticSelectImpl::poll *)
Definition StaticSelectImpl_poll (m : StaticSelectImpl) (w : W)
  : res (Poll nat) * StaticSelectImpl * W := whenany_scan [] (cases_ m) w.
#[global] Instance StaticSelectImpl_Future : Future W StaticSelectImpl nat := StaticSelectImpl_poll.
End StaticSelect.

(** ** whenAll over a tuple *)
Section StaticWhenAll.
Context {W : Type}.

(** The tuple of results. *)
Fixpoint tuple (Ts : list Type) : Type :=
  match Ts with [] => unit | T :: Ts => (T * tuple Ts)%type end.

(** [src/include/futures/detail/StaticMultiFuture.h:124-126] StaticWhenAllImpl::state_type *)
Inductive state_type : list Type -> Type :=
| st_nil : state_type []
| st_cons (Fut T : Type) (Ts : list Type) (inst : Future W Fut T) (e : Either Fut T)
    (rest : state_type Ts) : state_type (T :: Ts).

(** [src/include/futures/detail/StaticMultiFuture.h:119-138] StaticWhenAllImpl *)
Record StaticWhenAllImpl (Ts : list Type) := mkStaticWhenAll {
  wa_cases : state_type Ts; finished_ : nat }.
Arguments mkStaticWhenAll {Ts} wa_cases finished_.
Arguments wa_cases {Ts} s.
Arguments finished_ {Ts} s.

(** [src/include/futures/detail/StaticMultiFuture.h:152-157] StaticWhenAllImpl::Unwrap *)
Fixpoint Unwrap {Ts} (s : state_type Ts) : res (tuple Ts) :=
  match s in state_type Ts return res (tuple Ts) with
  | st_nil => Ret tt
  | @st_cons _ T _ _ e rest =>
      let! v := Either_.right e in
      let! vs := Unwrap rest in Ret (v, vs)
  end.

(** [src/include/futures/detail/StaticMultiFuture.h:169-183] StaticWhenAllImpl::pollImpl, one
    element and then the following ones: what stopped the poll, if anything did *)
Fixpoint pollImpl_step {Ts} (s : state_type Ts) (finished : nat) (w : W)
  : res (option exception_wrapper) * state_type Ts * nat * W :=
  match s in state_type Ts return res (option exception_wrapper) * state_type Ts * nat * W with
  | st_nil => (Ret None, st_nil, finished, w)
  | @st_cons Fut T Ts inst e rest =>
      match e with
      | LEFT fut =>
          let '(r, fut', w') := @poll W Fut T inst fut w in
          let same := @st_cons Fut T Ts inst (LEFT fut') rest in
          match r with
          | Ret (EXCEPTION ex) => (Ret (Some ex), same, finished, w')
          | Ret (VALUE (Some v)) =>
              let '(q, rest', n, w'') := pollImpl_step rest (S finished) w' in
              (q, @st_cons Fut T Ts inst (RIGHT v) rest', n, w'')
          | Ret (VALUE None) =>
              let '(q, rest', n, w'') := pollImpl_step rest finished w' in
              (q, @st_cons Fut T Ts inst (LEFT fut') rest', n, w'')
          | Ret NOTHING => (Throw UsingUninitializedTry, same, finished, w')
          | Throw ex => (Throw ex, same, finished, w')
          | Abort s => (Abort s, same, finished, w')
          | OutOfFuel => (OutOfFuel, same, finished, w')
          end
      | _ =>
          let '(q, rest', n, w'') := pollImpl_step rest finished w in
          (q, @st_cons Fut T Ts inst e rest', n, w'')
      end
  end.

(** [src/include/futures/detail/StaticMultiFuture.h:140-167] StaticWhenAllImpl::poll *)
Definition StaticWhenAllImpl_poll {Ts} (m : StaticWhenAllImpl Ts) (w : W)
  : res (Poll (tuple Ts)) * StaticWhenAllImpl Ts * W :=
  let '(q, s, n, w') := pollImpl_step (wa_cases m) (finished_ m) w in
  let m' := mkStaticWhenAll s n in
  match q with
  | Ret (Some ex) => (Ret (EXCEPTION ex), m', w')
  | Ret None =>
      if decide (length Ts <= n) then
        (let! vs := Unwrap s in Ret (makePollReady vs), m', w')
      else (Ret not_ready, m', w')
  | Throw e => (Throw e, m', w')
  | Abort s => (Abort s, m', w')
  | OutOfFuel => (OutOfFuel, m', w')
  end.

(** How many elements have produced their value. *)
Fixpoint count_right {Ts} (s : state_type Ts) : nat :=
  match s with
  | st_nil => 0
  | st_cons _ _ _ _ e rest => (if Either_.hasRight e then 1 else 0) + count_right rest
  end.

(** The invariant: [finished_] counts the values present. *)
Definition whenall_inv {Ts} (m : StaticWhenAllImpl Ts) : Prop :=
  finished_ m = count_right (wa_cases m).

Lemma count_right_bound {Ts} (s : state_type Ts) : count_right s <= length Ts.
Proof. induction s; cbn; [lia|]. destruct (Either_.hasRight e); lia. Qed.

Lemma pollImpl_step_count {Ts} (s : state_type Ts) k n w q s' n' w' :
  pollImpl_step s n w = (q, s', n', w') -> n = k + count_right s -> n' = k + count_right s'.
Proof.
  revert k n w q s' n' w'. induction s as [|Fut T Ts inst e rest IH]; intros k n w q s' n' w' Hp Hn.
  - cbn in Hp; simplify_eq. done.
  - destruct e as [|fut|v]; cbn in Hp, Hn.
    + destruct (pollImpl_step rest n w) as [[[q1 r1] n1] w1] eqn:E. simplify_eq/=. eauto.
    + destruct (poll fut w) as [[p fut'] w1]. destruct p as [[[v|]|ex|]|?|?|]; simplify_eq/=; try done.
      * destruct (pollImpl_step rest _ w1) as [[[q1 r1] n1] w2] eqn:E. simplify_eq/=.
        specialize (IH (S k) _ _ _ _ _ _ E). lia.
      * destruct (pollImpl_step rest _ w1) as [[[q1 r1] n1] w2] eqn:E. simplify_eq/=. eauto.
    + destruct (pollImpl_step rest n w) as [[[q1 r1] n1] w1] eqn:E. simplify_eq/=.
      specialize (IH (S k) _ _ _ _ _ _ E). lia.
Qed.

Lemma Unwrap_total {Ts} (s : state_type Ts) :
  length Ts <= count_right s -> exists vs, Unwrap s = Ret vs.
Proof.
  induction s as [|Fut T Ts inst e rest IH]; cbn; [eauto|].
  pose proof (count_right_bound rest). destruct e; cbn; intros Hc; try lia.
  destruct IH as [vs ->]; [lia|]. cbn. eauto.
Qed.

(** The static [whenAll] keeps [finished_] equal to the number of values
    it holds, and delivers the tuple exactly when that number reaches the
    number of futures: collecting the tuple then never throws. *)
Theorem static_whenAll_inv {Ts} (m : StaticWhenAllImpl Ts) w p m' w' :
  whenall_inv m -> StaticWhenAllImpl_poll m w = (p, m', w') ->
  whenall_inv m' /\
  (forall q s n w1, pollImpl_step (wa_cases m) (finished_ m) w = (Ret q, s, n, w1) -> q = None ->
     (count_right s = length Ts -> exists vs, p = Ret (makePollReady vs) /\ Unwrap s = Ret vs) /\
     (count_right s < length Ts -> p = Ret not_ready)).
Proof.
  unfold whenall_inv, StaticWhenAllImpl_poll. intros Hi Hp.
  destruct (pollImpl_step (wa_cases m) (finished_ m) w) as [[[q s] n] w1] eqn:E.
  pose proof (pollImpl_step_count _ 0 _ _ _ _ _ _ E Hi) as Hn. cbn in Hn. split.
  - destruct q as [[ex|]|?|?|]; simplify_eq/=; try done. case_decide; by simplify_eq/=.
  - intros q0 s0 n0 w2 Heq ->. simplify_eq. pose proof (count_right_bound s0). split; intros Hc.
    + destruct (Unwrap_total s0) as [vs Hvs]; [lia|]. rewrite decide_True, Hvs in Hp by lia.
      simplify_eq/=. eauto.
    + rewrite decide_False in Hp by lia. by simplify_eq.
Qed.
End StaticWhenAll.
Arguments state_type W Ts : clear implicits.
Arguments StaticWhenAllImpl W Ts : clear implicits.

Definition whenAll_example : StaticWhenAllImpl unit (@cons Type Z (@cons Type bool nil)) :=
  mkStaticWhenAll _ (st_cons _ _ _ _ (LEFT (mkOkFuture 1%Z))
    (st_cons _ _ _ _ (LEFT (mkOkFuture true)) st_nil)) 0.

Lemma static_whenAll_inv_witness :
  whenall_inv (StaticWhenAllImpl_poll whenAll_example tt).1.2 /\
  (StaticWhenAllImpl_poll whenAll_example tt).1.1 = Ret (makePollReady (1%Z, (true, tt))).
Proof.
  split; [|reflexivity].
  apply (static_whenAll_inv whenAll_example tt (StaticWhenAllImpl_poll whenAll_example tt).1.1 _ tt);
    reflexivity.
Defined.
