(* ===== verification/Unpark.v ===== *)
(** * The wake-up protocol of a spawned future

    Models [src/include/futures/UnparkMutex.h], [FutureSpawnRun] of
    [src/include/futures/Future.h] and [ThreadUnpark] of
    [src/include/futures/Task.h].

    A spawned future lives in one [FutureSpawnRun] object, which is handed
    around between the executor's queue, the thread that runs it and the slot
    [data_] of the [UnparkMutex]; any number of threads may call [unpark] on
    it.  Every atomic operation of the source is one step here, and so is every
    access to the plain field [data_]; steps of different threads interleave
    freely (the source uses sequentially consistent atomics). *)

From S2P Require Import Prelude Core Futures FutureLaws.

(** [src/include/futures/UnparkMutex.h:13-18] UnparkMutex status values *)
Inductive Status := kWaiting | kPolling | kRepoll | kComplete.
#[global] Instance Status_eq_dec : EqDecision Status.
Proof. solve_decision. Defined.

(** Where a thread inside [FutureSpawnRun::run] is. *)
Inductive run_pc :=
| R_start        (** before [start_poll()] *)
| R_poll         (** before [spawn_.poll_future(inner_)] *)
| R_complete     (** the poll returned a value or an exception: before [complete()] *)
| R_wait_data    (** the poll returned NotReady: before [data_ = std::move(data)] *)
| R_wait_cas     (** before the compare-exchange of [wait] *)
| R_wait_repoll (expected : Status) (** it failed: before the assert and [status_.store(kPolling)] *)
| R_wait_take    (** before [return std::move(data_)] *)
| R_abort.       (** [assert(expected == kRepoll)] failed *)

(** Where a thread inside [Inner::unpark] is; [N_loop s] holds the local
    variable [status]. *)
Inductive notify_pc :=
| N_load
| N_loop (s : Status)
| N_take    (** won the compare-exchange from kWaiting: before the move out of [data_] *)
| N_exec.   (** before [exec_->execute(...)] *)

(** The shared state and the threads.  [polls] counts the polls started so
    far; a thread in [unpark] remembers the count at its call; [need] is the
    count that the calls already returned ask for. *)
(** [src/include/futures/Future.h:368-394] FutureSpawnRun *)
Record task_state := mkTask {
  status_ : Status;
  data_ : bool;
  queue : nat;
  runners : list run_pc;
  notifiers : list (notify_pc * nat);
  polls : nat;
  need : nat
}.

(** [src/include/futures/EventExecutor.h:53-58] a freshly spawned future *)
Definition spawned : task_state := mkTask kWaiting false 1 [] [] 0 0.

Definition set_status (s : Status) (st : task_state) : task_state :=
  mkTask s (data_ st) (queue st) (runners st) (notifiers st) (polls st) (need st).
Definition set_data (d : bool) (st : task_state) : task_state :=
  mkTask (status_ st) d (queue st) (runners st) (notifiers st) (polls st) (need st).
Definition set_runners (rs : list run_pc) (st : task_state) : task_state :=
  mkTask (status_ st) (data_ st) (queue st) rs (notifiers st) (polls st) (need st).
Definition set_notifiers (ns : list (notify_pc * nat)) (st : task_state) : task_state :=
  mkTask (status_ st) (data_ st) (queue st) (runners st) ns (polls st) (need st).
Definition set_queue (q : nat) (st : task_state) : task_state :=
  mkTask (status_ st) (data_ st) q (runners st) (notifiers st) (polls st) (need st).
Definition start_one_poll (st : task_state) : task_state :=
  mkTask (status_ st) (data_ st) (queue st) (runners st) (notifiers st) (S (polls st)) (need st).

(** [src/include/futures/UnparkMutex.h:27-29] UnparkMutex::start_poll *)
Definition start_poll (st : task_state) : task_state := set_status kPolling st.

(** [src/include/futures/UnparkMutex.h:46-48] UnparkMutex::complete *)
Definition complete (st : task_state) : task_state := set_status kComplete st.

(** The compare-exchange on [status_]: whether it succeeded, the value
    observed, the new state. *)
Definition compare_exchange (expected desired : Status) (st : task_state)
  : bool * Status * task_state :=
  if decide (status_ st = expected) then (true, expected, set_status desired st)
  else (false, status_ st, st).

(** One step of [UnparkMutex::wait] by the runner at index [i]. *)
(** [src/include/futures/UnparkMutex.h:31-44] UnparkMutex::wait *)
Definition wait_step (pc : run_pc) (i : nat) (st : task_state) : task_state :=
  let goto pc st := set_runners (<[i := pc]> (runners st)) st in
  match pc with
  | R_wait_data => goto R_wait_cas (set_data true st)
  | R_wait_cas =>
      match compare_exchange kPolling kWaiting st with
      | (true, _, st') => set_runners (delete i (runners st')) st'
      | (false, expected, st') => goto (R_wait_repoll expected) st'
      end
  | R_wait_repoll expected =>
      if decide (expected = kRepoll) then goto R_wait_take (set_status kPolling st)
      else goto R_abort st
  | R_wait_take => goto R_poll (set_data false st)
  | _ => st
  end.

(** One step of the runner at index [i].  [ready] says whether a poll, if this
    step makes one, completes the future. *)
(** [src/include/futures/Future.h:396-427] FutureSpawnRun::run *)
Definition run_step (ready : bool) (i : nat) (st : task_state) : option task_state :=
  let goto pc st := set_runners (<[i := pc]> (runners st)) st in
  match runners st !! i with
  | Some R_start => Some (goto R_poll (start_poll st))
  | Some R_poll => Some (goto (if ready then R_complete else R_wait_data) (start_one_poll st))
  | Some R_complete => Some (set_runners (delete i (runners st)) (complete st))
  | Some R_abort => None
  | Some pc => Some (wait_step pc i st)
  | None => None
  end.

(** A call of [unpark], made after [e] polls had been started, returns: it asks
    for one more poll than that. *)
Definition notify_return (e i : nat) (st : task_state) : task_state :=
  mkTask (status_ st) (data_ st) (queue st) (runners st) (delete i (notifiers st))
    (polls st) (Nat.max (need st) (S e)).

(** One step of the thread at index [i] of [notifiers]. *)
(** [src/include/futures/UnparkMutex.h:50-78] UnparkMutex::notify *)
Definition notify_step (pc : notify_pc) (e : nat) (i : nat) (st : task_state) : task_state :=
  let goto pc st := set_notifiers (<[i := (pc, e)]> (notifiers st)) st in
  match pc with
  | N_load => goto (N_loop (status_ st)) st
  | N_loop kWaiting =>
      match compare_exchange kWaiting kPolling st with
      | (true, _, st') => goto N_take st'
      | (false, expected, st') => goto (N_loop expected) st'
      end
  | N_loop kPolling =>
      match compare_exchange kPolling kRepoll st with
      | (true, _, st') => notify_return e i st'
      | (false, expected, st') => goto (N_loop expected) st'
      end
  | N_loop _ => notify_return e i st
  | N_take =>
      if data_ st then goto N_exec (set_data false st) else notify_return e i st
  | N_exec => st
  end.

(** [src/include/futures/Future.h:379-384] FutureSpawnRun::Inner::unpark *)
Definition unpark_step (i : nat) (st : task_state) : option task_state :=
  match notifiers st !! i with
  | Some (N_exec, e) => Some (notify_return e i (set_queue (S (queue st)) st))
  | Some (pc, e) => Some (notify_step pc e i st)
  | None => None
  end.

(** The interleavings: a runner or a notifier takes a step, the executor picks
    the object from its queue, or somebody who got hold of the task (which a
    poll hands out) calls [unpark]. *)
Inductive step : task_state -> task_state -> Prop :=
| step_run ready i st st' : run_step ready i st = Some st' -> step st st'
| step_notify i st st' : unpark_step i st = Some st' -> step st st'
| step_pick s d q rs ns p n :
    step (mkTask s d (S q) rs ns p n) (mkTask s d q (rs ++ [R_start]) ns p n)
| step_unpark s d q rs ns p n :
    0 < p -> step (mkTask s d q rs ns p n) (mkTask s d q rs (ns ++ [(N_load, p)]) p n).

Definition reachable (st : task_state) : Prop := rtc step spawned st.

(** ** Counting threads *)
Definition is_take (x : notify_pc * nat) : nat := match x.1 with N_take => 1 | _ => 0 end.
Definition is_exec (x : notify_pc * nat) : nat := match x.1 with N_exec => 1 | _ => 0 end.
Definition total {A} (f : A -> nat) (l : list A) : nat := sum_list_with f l.

Lemma total_app {A} (f : A -> nat) l k : total f (l ++ k) = total f l + total f k.
Proof. apply sum_list_with_app. Qed.

Lemma total_cons {A} (f : A -> nat) x l : total f (x :: l) = f x + total f l.
Proof. done. Qed.

Lemma total_insert {A} (f : A -> nat) l i x y :
  l !! i = Some x -> total f (<[i := y]> l) + f x = total f l + f y.
Proof.
  intros Hi. rewrite <-(take_drop_middle l i x Hi) at 2. apply lookup_lt_Some in Hi as Hlt.
  rewrite insert_take_drop by done. rewrite !total_app, !total_cons. lia.
Qed.

Lemma total_delete {A} (f : A -> nat) l i x :
  l !! i = Some x -> total f (delete i l) + f x = total f l.
Proof.
  intros Hi. rewrite <-(take_drop_middle l i x Hi) at 2. rewrite delete_take_drop.
  rewrite !total_app, !total_cons. lia.
Qed.

(** ** Who holds the future *)

Definition polling (s : Status) : Prop := s = kPolling \/ s = kRepoll.

(** What holds of [status_] and [data_] while a runner is at [pc]. *)
Definition run_ok (pc : run_pc) (s : Status) (d : bool) (p : nat) : Prop :=
  match pc with
  | R_start => d = false /\ ((s = kWaiting /\ p = 0) \/ polling s)
  | R_poll | R_complete | R_wait_data => d = false /\ polling s
  | R_wait_cas | R_wait_take => d = true /\ polling s
  | R_wait_repoll e => d = true /\ e = kRepoll /\ s = kRepoll
  | R_abort => False
  end.

(** The six places the future can be: in the executor's queue, with a running
    thread, in the slot of the mutex, in the slot with a notifier about to take
    it, with a notifier about to enqueue it, gone.  The arguments are [status_],
    [data_], [queue], [runners], the numbers of notifiers at [N_take] and at
    [N_exec], and [polls]. *)
Inductive phase : Status -> bool -> nat -> list run_pc -> nat -> nat -> nat -> Prop :=
| ph_queued s p : (s = kWaiting /\ p = 0) \/ polling s -> phase s false 1 [] 0 0 p
| ph_running s d pc p : run_ok pc s d p -> phase s d 0 [pc] 0 0 p
| ph_parked p : phase kWaiting true 0 [] 0 0 p
| ph_taking s p : polling s -> phase s true 0 [] 1 0 p
| ph_execing s p : polling s -> phase s false 0 [] 0 1 p
| ph_finished p : phase kComplete false 0 [] 0 0 p.

Definition phase_of (st : task_state) : Prop :=
  phase (status_ st) (data_ st) (queue st) (runners st)
    (total is_take (notifiers st)) (total is_exec (notifiers st)) (polls st).

#[local] Hint Constructors phase : cpp.
#[local] Hint Unfold polling run_ok : cpp.
#[local] Arguments total : simpl never.

Ltac use_totals :=
  repeat match goal with H : _ = total _ _ |- _ => rewrite <-H end.

Lemma phase_run_step ready i st st' :
  phase_of st -> run_step ready i st = Some st' -> phase_of st'.
Proof.
  destruct st as [s d q rs ns p n]; unfold phase_of, run_step; cbn. intros Hph Hrun.
  inversion Hph; subst; destruct i as [|i]; try done; cbn in Hrun.
  destruct pc, ready; cbn in *; unfold compare_exchange in *; cbn in *;
    repeat case_decide; destruct_and?; simplify_eq; cbn; use_totals; try done;
    constructor; unfold run_ok, polling in *; clear Hph; naive_solver.
Qed.

Lemma run_ok_repoll pc d p : run_ok pc kPolling d p -> run_ok pc kRepoll d p.
Proof. destruct pc; unfold run_ok, polling; intuition congruence. Qed.

(** Decides the goal by the possible values of the two counts. *)
Ltac solve_totals :=
  match goal with
  | |- phase _ _ _ _ (total is_take ?l) (total is_exec ?l) _ =>
      destruct (total is_take l) as [|[|]], (total is_exec l) as [|[|]]; try lia;
      constructor; unfold polling in *; eauto using run_ok_repoll; try tauto;
      solve [intuition (congruence || lia)]
  end.

Lemma waiting_parked d q rs t e p :
  0 < p -> phase kWaiting d q rs t e p -> d = true /\ q = 0 /\ rs = [] /\ t = 0 /\ e = 0.
Proof.
  intros Hp Hph. inversion Hph; subst; unfold polling in *; try (intuition (congruence || lia)).
  all: destruct pc; unfold run_ok, polling in *; intuition (congruence || lia).
Qed.

Lemma phase_unpark_step i st st' :
  0 < polls st -> phase_of st -> unpark_step i st = Some st' -> phase_of st'.
Proof.
  destruct st as [s d q rs ns p n]; unfold phase_of, unpark_step; cbn.
  intros Hpos Hph Hst.
  destruct (ns !! i) as [[pc e]|] eqn:Hi; [|done].
  pose proof (total_delete is_take ns i _ Hi) as Ht. pose proof (total_delete is_exec ns i _ Hi) as He.
  pose proof (fun y => total_insert is_take ns i _ y Hi) as Ht'.
  pose proof (fun y => total_insert is_exec ns i _ y Hi) as He'.
  destruct pc as [|[]| |]; cbn in *; unfold compare_exchange, notify_return in *; cbn in *;
    rewrite ?Hi in *; repeat case_decide; try (destruct d; [|done]); simplify_eq; cbn in *;
    try match goal with |- context [<[i := ?y]> ns] => specialize (Ht' y); specialize (He' y) end;
    cbn in *; try apply waiting_parked in Hph as (-> & -> & -> & ? & ?); try solve_totals;
    inversion Hph; subst; cbn in *; try lia; solve_totals.
Qed.

(** ** Wake-ups are not lost *)

(** A poll is certain to follow: the runner at [pc] will poll (again). *)
Definition will_poll (s : Status) (pc : run_pc) : bool :=
  match pc with
  | R_start | R_poll | R_wait_repoll _ | R_wait_take => true
  | R_wait_data | R_wait_cas => bool_decide (s = kRepoll)
  | R_complete | R_abort => false
  end.

Definition poll_pending (st : task_state) : bool :=
  (0 <? queue st + total is_take (notifiers st) + total is_exec (notifiers st))
  || existsb (will_poll (status_ st)) (runners st).

Definition completing (pc : run_pc) : bool :=
  match pc with R_complete => true | _ => false end.

(** The future has completed, or the poll that completes it has been made. *)
Definition finished (st : task_state) : bool :=
  bool_decide (status_ st = kComplete) || existsb completing (runners st).

(** The request for at least [k] polls is met, or will be. *)
Definition covered (k : nat) (st : task_state) : Prop :=
  k <= polls st \/ poll_pending st \/ finished st.

Definition notifier_ok (st : task_state) (x : notify_pc * nat) : Prop :=
  0 < x.2 <= polls st /\
  match x.1 with
  | N_loop kRepoll => covered (S x.2) st
  | N_loop kComplete => status_ st = kComplete
  | _ => True
  end.

Record inv (st : task_state) : Prop := {
  inv_phase : phase_of st;
  inv_notifiers : Forall (notifier_ok st) (notifiers st);
  inv_need : need st <= S (polls st);
  inv_covered : covered (need st) st
}.

Lemma covered_max k j st : covered k st -> covered j st -> covered (Nat.max k j) st.
Proof. unfold covered. intros [] []; auto with lia. Qed.

Lemma covered_repoll k st :
  phase_of st -> status_ st = kRepoll -> covered k st.
Proof.
  destruct st as [s d q rs ns p n]; unfold phase_of, covered, poll_pending, finished; cbn.
  intros Hph ->. inversion Hph; subst; cbn; rewrite ?orb_true_r; eauto.
  destruct pc; cbn; rewrite ?orb_true_r; eauto; done.
Qed.

Lemma covered_run_step ready i k st st' :
  phase_of st -> run_step ready i st = Some st' ->
  k <= S (polls st) -> covered k st -> covered k st'.
Proof.
  destruct st as [s d q rs ns p n]; unfold phase_of, covered, poll_pending, finished, run_step; cbn.
  intros Hph Hrun Hk. inversion Hph; subst; destruct i as [|i]; try done; cbn in Hrun.
  destruct pc, ready; cbn in *; unfold compare_exchange in *; cbn in *;
    repeat case_decide; destruct_and?; simplify_eq; cbn; use_totals; try done; auto; cbn;
    repeat case_bool_decide; subst; naive_solver.
Qed.

(** A notifier only moves the status forward and does not touch the runners. *)
Lemma unpark_step_frame i st st' :
  phase_of st -> unpark_step i st = Some st' ->
  runners st' = runners st /\ polls st' = polls st /\
  (status_ st' = status_ st \/ (status_ st = kWaiting /\ status_ st' = kPolling) \/
   (status_ st = kPolling /\ status_ st' = kRepoll)) /\
  queue st + total is_take (notifiers st) + total is_exec (notifiers st) <=
  queue st' + total is_take (notifiers st') + total is_exec (notifiers st').
Proof.
  destruct st as [s d q rs ns p n]; unfold phase_of, unpark_step; cbn. intros Hph Hst.
  destruct (ns !! i) as [[pc e]|] eqn:Hi; [|done].
  pose proof (total_delete is_take ns i _ Hi) as Ht. pose proof (total_delete is_exec ns i _ Hi) as He.
  pose proof (fun y => total_insert is_take ns i _ y Hi) as Ht'.
  pose proof (fun y => total_insert is_exec ns i _ y Hi) as He'.
  destruct pc as [|[]| |]; cbn in *; unfold compare_exchange in *; cbn in *;
    repeat case_decide; simplify_eq; cbn in *;
    try match goal with |- context [<[i := ?y]> ns] => specialize (Ht' y); specialize (He' y) end;
    cbn in *; repeat split; auto with lia; inversion Hph; subst; cbn in *; auto with lia.
Qed.

Lemma covered_unpark_step i k st st' :
  phase_of st -> unpark_step i st = Some st' -> covered k st -> covered k st'.
Proof.
  intros Hph Hst Hk. destruct (unpark_step_frame i st st' Hph Hst) as (Hr & Hp & Hs & Hq).
  unfold covered, poll_pending, finished in *. rewrite Hr, Hp.
  destruct Hk as [?|[Hk|Hk]]; [by left|right; left|right; right].
  - apply orb_True in Hk as [Hk|Hk]; apply orb_True; [left|right].
    + apply Is_true_true, Nat.ltb_lt. apply Is_true_true, Nat.ltb_lt in Hk. lia.
    + destruct Hs as [->|[[Hs ->]|[Hs ->]]]; [done| |]; rewrite Hs in Hk; revert Hk; clear;
        induction (runners st) as [|pc rs IH]; cbn; [done| |done|];
        rewrite !orb_True; intros [|]; auto; left; by destruct pc.
  - apply orb_True in Hk as [Hk|Hk]; apply orb_True; [left|by right].
    apply bool_decide_unpack in Hk. rewrite Hk in Hs. apply bool_decide_pack.
    destruct Hs as [->|[[? _]|[? _]]]; congruence.
Qed.

Lemma notifier_ok_run_step ready i st st' x :
  phase_of st -> run_step ready i st = Some st' -> notifier_ok st x -> notifier_ok st' x.
Proof.
  intros Hph Hst [He Hx].
  assert (polls st <= polls st' /\ (status_ st = kComplete -> status_ st' = kComplete)) as [Hp Hc].
  { destruct st as [s d q rs ns p n]; unfold phase_of, run_step in *; cbn in *.
    inversion Hph; subst; destruct i as [|i]; try done; cbn in Hst.
    destruct pc, ready; cbn in *; unfold compare_exchange, polling in *; cbn in *;
      repeat case_decide; simplify_eq; cbn; naive_solver lia. }
  split; [lia|]. destruct (x.1) as [|[]| |]; auto.
  eapply covered_run_step; eauto. lia.
Qed.

Lemma notifier_ok_unpark_step i st st' x :
  phase_of st -> unpark_step i st = Some st' -> notifier_ok st x -> notifier_ok st' x.
Proof.
  intros Hph Hst [He Hx]. destruct (unpark_step_frame i st st' Hph Hst) as (_ & Hp & Hs & _).
  split; [by rewrite Hp|]. destruct (x.1) as [|[]| |]; auto.
  - eapply covered_unpark_step; eauto.
  - destruct Hs as [?|[[? _]|[? _]]]; congruence.
Qed.

Lemma finished_complete k st : status_ st = kComplete -> covered k st.
Proof. intros Hs. unfold covered, finished. rewrite Hs. by right; right. Qed.

(** What the step of a notifier leaves of the notifier itself. *)
Lemma unpark_step_self i st st' pc e :
  phase_of st -> notifiers st !! i = Some (pc, e) -> notifier_ok st (pc, e) ->
  unpark_step i st = Some st' ->
  (exists pc', notifiers st' = <[i := (pc', e)]> (notifiers st) /\ need st' = need st /\
    notifier_ok st' (pc', e)) \/
  (notifiers st' = delete i (notifiers st) /\ need st' = Nat.max (need st) (S e) /\
    covered (S e) st').
Proof.
  intros Hph Hi [He Hok] Hst. cbn in He, Hok.
  assert (phase_of st') as Hph' by (eapply phase_unpark_step; eauto; lia).
  assert (forall s, status_ st = s -> status_ st' = s ->
    notifier_ok st' (N_loop s, e)) as Hloop.
  { intros s Hs Hs'. split; [cbn; by rewrite (proj1 (proj2 (unpark_step_frame _ _ _ Hph Hst)))|].
    destruct s; cbn; auto using covered_repoll. }
  pose proof (fun k => covered_unpark_step i k st st' Hph Hst) as Hcov.
  unfold unpark_step in Hst. rewrite Hi in Hst.
  destruct st as [s d q rs ns p n]; unfold phase_of in Hph; cbn in *.
  destruct pc as [|[]| |]; cbn in *; unfold compare_exchange in *; cbn in *;
    repeat case_decide; simplify_eq; cbn in *;
    try (left; eexists; split; [done|]; split; [done|]; solve [by apply Hloop | by split]).
  - right. repeat split. apply covered_repoll; done.
  - right. repeat split. by apply Hcov.
  - right. repeat split. by apply finished_complete.
  - pose proof (total_delete is_take ns i _ Hi) as Ht. cbn in Ht.
    inversion Hph; subst; cbn in *; try lia.
    left. eexists. split; [done|]. split; [done|]. by split.
  - right. repeat split. right; left. done.
Qed.

Lemma run_step_frame ready i st st' :
  run_step ready i st = Some st' ->
  notifiers st' = notifiers st /\ need st' = need st /\ polls st <= polls st'.
Proof.
  unfold run_step. intros Hst. destruct (runners st !! i) as [pc|]; [|done].
  destruct pc; cbn in *; unfold compare_exchange in *; repeat case_decide; simplify_eq; cbn; auto.
Qed.

Lemma inv_run_step ready i st st' : inv st -> run_step ready i st = Some st' -> inv st'.
Proof.
  intros [Hph Hns Hn Hc] Hst. destruct (run_step_frame _ _ _ _ Hst) as (En & Ed & Hp).
  split; rewrite ?En, ?Ed; eauto using phase_run_step, covered_run_step with lia.
  eapply Forall_impl; eauto using notifier_ok_run_step.
Qed.

Lemma inv_unpark_step i st st' : inv st -> unpark_step i st = Some st' -> inv st'.
Proof.
  intros [Hph Hns Hn Hc] Hst.
  destruct (unpark_step_frame i st st' Hph Hst) as (_ & Hp & _ & _).
  assert (exists x, notifiers st !! i = Some x) as [[pc e] Hi].
  { unfold unpark_step in Hst. destruct (notifiers st !! i); [eauto|done]. }
  assert (notifier_ok st (pc, e)) as Hok by (by eapply Forall_lookup_1 in Hns).
  assert (0 < e <= polls st) as He by apply Hok.
  assert (phase_of st') by (eapply phase_unpark_step; eauto; lia).
  assert (Forall (notifier_ok st') (notifiers st)) as Hns'
    by (eapply Forall_impl; eauto using notifier_ok_unpark_step).
  assert (covered (need st) st') by eauto using covered_unpark_step.
  destruct (unpark_step_self i st st' pc e Hph Hi Hok Hst)
    as [(pc' & En & Ed & Hok')|(En & Ed & Hok')]; split; rewrite ?En, ?Ed;
    eauto using Forall_insert, Forall_delete, covered_max with lia.
Qed.

Lemma inv_step st st' : inv st -> step st st' -> inv st'.
Proof.
  intros Hinv Hst.
  destruct Hst as [ready i st st' Hst|i st st' Hst|s d q rs ns p n|s d q rs ns p n Hp];
    eauto using inv_run_step, inv_unpark_step; destruct Hinv as [Hph Hns Hn Hc]; cbn in *.
  - assert (rs = [] /\ q = 0) as [-> ->].
    { unfold phase_of in Hph; cbn in Hph. by inversion Hph. }
    assert (forall k, covered k (mkTask s d 0 ([] ++ [R_start]) ns p n))
      by (intros k; right; left; apply orb_True; by right).
    split; cbn; auto.
    + unfold phase_of in *; cbn in *. inversion Hph; subst. by constructor.
    + eapply Forall_impl; [done|]. intros [pc e] [He Hx]. split; [done|].
      destruct pc as [|[]| |]; try exact Hx; cbn; auto.
  - assert (forall k, covered k (mkTask s d q rs ns p n) ->
      covered k (mkTask s d q rs (ns ++ [(N_load, p)]) p n)) as Hcov.
    { intros k. unfold covered, poll_pending, finished; cbn. rewrite !total_app.
      cbn. by rewrite !Nat.add_0_r. }
    split; cbn; auto.
    + unfold phase_of in *; cbn in *. rewrite !total_app. cbn. by rewrite !Nat.add_0_r.
    + apply Forall_app. split; [|repeat constructor; cbn; lia].
      eapply Forall_impl; [done|]. intros [pc e] [He Hx]. split; [done|].
      destruct pc as [|[]| |]; try exact Hx; cbn; auto.
Qed.

Lemma inv_reachable st : reachable st -> inv st.
Proof.
  intros Hst. assert (inv spawned) as Hinit.
  { split; cbn; [|constructor|lia|left; cbn; lia]. unfold phase_of; cbn. constructor. auto. }
  unfold reachable in Hst. induction Hst; eauto using inv_step.
Qed.

(** ** Wake-ups are served *)

(** The steps of the system itself: everything but a new call of [unpark]. *)
Inductive own_step : task_state -> task_state -> Prop :=
| own_run ready i st st' : run_step ready i st = Some st' -> own_step st st'
| own_notify i st st' : unpark_step i st = Some st' -> own_step st st'
| own_pick s d q rs ns p n :
    own_step (mkTask s d (S q) rs ns p n) (mkTask s d q (rs ++ [R_start]) ns p n).

Lemma own_step_step st st' : own_step st st' -> step st st'.
Proof. destruct 1; [eapply step_run|eapply step_notify|apply step_pick]; eauto. Qed.

(** The measure: notifiers that have not yet acted, how far the future is from
    rest, notifiers whose view of the status is out of date. *)
Definition is_active (x : notify_pc * nat) : nat :=
  match x.1 with N_load | N_loop _ => 1 | _ => 0 end.

Definition run_weight (pc : run_pc) : nat :=
  match pc with
  | R_start | R_wait_take => 6
  | R_poll => 5
  | R_wait_data => 2
  | R_wait_cas | R_complete => 1
  | R_wait_repoll _ | R_abort => 0
  end.

Definition is_stale (s : Status) (x : notify_pc * nat) : nat :=
  match x.1 with
  | N_load => 2
  | N_loop s' => if decide (s' = s) then 0 else 1
  | _ => 0
  end.

Definition weight (st : task_state) : nat :=
  7 * queue st + total run_weight (runners st) + 9 * total is_take (notifiers st)
  + 8 * total is_exec (notifiers st) + (if decide (status_ st = kRepoll) then 10 else 0).

Definition measure (st : task_state) : nat * (nat * nat) :=
  (total is_active (notifiers st), (weight st, total (is_stale (status_ st)) (notifiers st))).

Definition lex (x y : nat * (nat * nat)) : Prop :=
  x.1 < y.1 \/ x.1 = y.1 /\ (x.2.1 < y.2.1 \/ x.2.1 = y.2.1 /\ x.2.2 < y.2.2).

Lemma lex_wf : well_founded lex.
Proof.
  intros [a [b c]]. revert b c. induction (lt_wf a) as [a _ IHa]. intros b.
  induction (lt_wf b) as [b _ IHb]. intros c. induction (lt_wf c) as [c _ IHc].
  constructor. intros [a' [b' c']] [H|[H1 [H|[H2 H]]]]; cbn in *; subst; auto.
Qed.

Lemma measure_run_step ready i st st' :
  phase_of st -> run_step ready i st = Some st' -> lex (measure st') (measure st).
Proof.
  intros Hph Hst. destruct (run_step_frame _ _ _ _ Hst) as (En & _ & _).
  unfold measure, lex, weight; cbn. rewrite En. right. split; [done|left]. clear En.
  destruct st as [s d q rs ns p n]; unfold phase_of, run_step in *; cbn in *.
  inversion Hph; subst; destruct i as [|i]; try done; cbn in Hst.
  destruct pc, ready; cbn in *; unfold compare_exchange, polling in *; cbn in *;
    repeat case_decide; destruct_and?; simplify_eq; cbn; rewrite ?total_cons; cbn;
    repeat case_decide; try congruence; lia.
Qed.

Lemma is_stale_eq s pc e :
  is_stale s (pc, e) =
  match pc with N_load => 2 | N_loop s' => if decide (s' = s) then 0 else 1 | _ => 0 end.
Proof. done. Qed.
#[local] Arguments is_stale : simpl never.
#[local] Arguments Nat.mul : simpl never.

Lemma measure_unpark_step i st st' :
  unpark_step i st = Some st' -> lex (measure st') (measure st).
Proof.
  unfold unpark_step, measure, lex, weight. intros Hst.
  destruct (notifiers st !! i) as [[pc e]|] eqn:Hi; [|done].
  destruct st as [s d q rs ns p n]; cbn in *.
  pose proof (fun g => total_delete g ns i _ Hi) as Hd.
  pose proof (fun g y => total_insert g ns i _ y Hi) as Hin.
  pose proof (Hd is_take). pose proof (Hd is_exec). pose proof (Hd is_active).
  pose proof (Hd (is_stale s)).
  destruct pc as [|[]| |], d; cbn in *; unfold compare_exchange in *; cbn in *;
    repeat case_decide; simplify_eq; cbn in *;
    try match goal with |- context [total (is_stale ?s') (<[i := ?y]> ns)] =>
      pose proof (Hin is_take y); pose proof (Hin is_exec y); pose proof (Hin is_active y);
      pose proof (Hin (is_stale s') y) end;
    cbn in *; rewrite ?is_stale_eq in *; repeat case_decide; simplify_eq; try congruence; lia.
Qed.

Lemma own_step_sn st : inv st -> sn own_step st.
Proof.
  remember (measure st) as m eqn:Hm. revert st Hm.
  induction (lex_wf m) as [m _ IH]. intros st -> Hinv. constructor. intros st' Hst.
  eapply IH; [|done|eauto using inv_step, own_step_step].
  destruct Hst as [ready i st st' Hst|i st st' Hst|s d q rs ns p n].
  - eapply measure_run_step; eauto. apply Hinv.
  - by eapply measure_unpark_step.
  - unfold lex, measure, weight; cbn. rewrite total_app.
    change (total run_weight [R_start]) with 6. lia.
Qed.

(** A state in which no thread can move has no threads. *)
Lemma stuck_at_rest st :
  inv st -> nf own_step st -> queue st = 0 /\ runners st = [] /\ notifiers st = [].
Proof.
  intros [Hph _ _ _] Hnf.
  assert (queue st = 0) as Hq.
  { destruct st as [s d [|q] rs ns p n]; [done|]. exfalso. apply Hnf. eexists. apply own_pick. }
  assert (notifiers st = []) as Hn.
  { destruct (notifiers st) as [|[pc e] ns] eqn:Hn; [done|]. exfalso. apply Hnf.
    assert (exists st', unpark_step 0 st = Some st') as [st' Hst];
      [unfold unpark_step; rewrite Hn; destruct pc; cbn; eauto|].
    eexists. by eapply own_notify. }
  split; [done|]. split; [|done].
  destruct (runners st) as [|pc rs] eqn:Hr; [done|]. exfalso. apply Hnf.
  unfold phase_of in Hph. rewrite Hr in Hph. inversion Hph; subst.
  assert (exists st', run_step true 0 st = Some st') as [st' Hst];
    [unfold run_step; rewrite Hr; destruct pc; cbn in *; [..|done]; eauto|].
  eexists. by eapply own_run.
Qed.

Lemma own_steps_inv st st' : rtc own_step st st' -> inv st -> inv st' /\ need st <= need st'.
Proof.
  induction 1 as [|st st1 st2 Hst _ IH]; [auto|]. intros Hinv.
  destruct IH as [? IH]; [eauto using inv_step, own_step_step|]. split; [done|].
  etrans; [|exact IH]. destruct Hst as [ready i st st' Hst|i st st' Hst|]; [| |done].
  - destruct (run_step_frame _ _ _ _ Hst) as (_ & -> & _). done.
  - assert (exists x, notifiers st !! i = Some x) as [[pc e] Hi].
    { unfold unpark_step in Hst. destruct (notifiers st !! i); [eauto|done]. }
    destruct Hinv as [Hph Hns _ _].
    eapply Forall_lookup_1 in Hns as Hok; [|done].
    destruct (unpark_step_self _ _ _ _ _ Hph Hi Hok Hst) as [(? & _ & -> & _)|(_ & -> & _)]; lia.
Qed.

(** C4: In every interleaving of threads running, parking and waking one
    spawned future, its [FutureSpawnRun] object has exactly one holder until
    the future completes, and none after: the executor's queue, one thread in
    [run], one thread in [unpark], or the slot of the mutex.  At most one
    thread is about to access the unsynchronised slot [data_]; a notifier that
    has won the compare-exchange finds the slot filled; and the assertion in
    [UnparkMutex::wait] never fails. *)
Theorem unpark_exclusive st :
  reachable st ->
  queue st + length (runners st) + total is_exec (notifiers st)
    + (if decide (runners st = [] /\ data_ st = true) then 1 else 0)
  = (if decide (status_ st = kComplete) then 0 else 1) /\
  total is_take (notifiers st)
    + total (fun pc => match pc with R_wait_data | R_wait_take => 1 | _ => 0 end) (runners st) <= 1 /\
  (0 < total is_take (notifiers st) -> data_ st = true) /\
  R_abort ∉ runners st.
Proof.
  intros Hst. apply inv_reachable in Hst as [Hph _ _ _]. unfold phase_of in Hph.
  destruct st as [s d q rs ns p n]; cbn in *.
  inversion Hph; subst; try destruct pc; cbn in *; unfold polling in *;
    destruct_and?; destruct_or?; destruct_and?; simplify_eq; use_totals; cbn;
    (split; [reflexivity|split; [unfold total; cbn; lia|split; [done || lia|set_solver]]]).
Qed.

(** C3: No wake-up is lost and every wake-up is served.  From any reachable
    state, if no further call of [unpark] is made, every schedule of the
    threads comes to rest after finitely many steps; and at rest the future
    has completed, or it lies in the slot of the mutex and has been polled
    again after each call of [unpark] that was made. *)
Theorem unpark_no_lost_wakeup st :
  reachable st ->
  sn own_step st /\
  forall st', rtc own_step st st' -> nf own_step st' ->
    queue st' = 0 /\ runners st' = [] /\ notifiers st' = [] /\ need st <= need st' /\
    (status_ st' = kComplete \/
     status_ st' = kWaiting /\ data_ st' = true /\ need st' <= polls st').
Proof.
  intros Hst. apply inv_reachable in Hst. split; [by apply own_step_sn|].
  intros st' Hrun Hnf. destruct (own_steps_inv _ _ Hrun Hst) as [Hinv Hneed].
  destruct (stuck_at_rest _ Hinv Hnf) as (Hq & Hr & Hn). repeat (split; [done|]).
  destruct Hinv as [Hph _ _ Hc]. unfold phase_of, covered, poll_pending, finished in *.
  rewrite Hq, Hr, Hn in *. cbn in *. inversion Hph; subst; [|by left].
  right. repeat split. destruct Hc as [?|[[]|Hc]]; [done|].
  rewrite orb_false_r in Hc. apply bool_decide_unpack in Hc. congruence.
Qed.

(** A schedule, for running concrete interleavings. *)
Inductive action := ARun (ready : bool) (i : nat) | ANotify (i : nat) | APick | AUnpark.

Definition act (a : action) (st : task_state) : option task_state :=
  match a with
  | ARun ready i => run_step ready i st
  | ANotify i => unpark_step i st
  | APick =>
      match queue st with
      | S q => Some (set_runners (runners st ++ [R_start]) (set_queue q st))
      | 0 => None
      end
  | AUnpark =>
      if decide (0 < polls st) then Some (set_notifiers (notifiers st ++ [(N_load, polls st)]) st)
      else None
  end.

Fixpoint schedule (l : list action) (st : task_state) : option task_state :=
  match l with
  | [] => Some st
  | a :: l => match act a st with Some st' => schedule l st' | None => None end
  end.

Lemma schedule_steps l st st' : schedule l st = Some st' -> rtc step st st'.
Proof.
  revert st. induction l as [|a l IH]; intros st Hl; cbn in Hl; [by simplify_eq|].
  destruct (act a st) as [st1|] eqn:Ha; [|done]. eapply rtc_l; [|by apply IH].
  destruct a; cbn in Ha; [by eapply step_run|by eapply step_notify| |].
  - destruct st as [s d [|q] rs ns p n]; simplify_eq/=. apply step_pick.
  - case_decide; [|done]. destruct st; simplify_eq/=. by apply step_unpark.
Qed.

(** The future is polled once and parks while two wake-ups race: the first
    finds it being polled, the second finds the slot filled. *)
Definition race : list action :=
  [APick; ARun false 0; ARun false 0; AUnpark; ANotify 0; ANotify 0; ARun false 0; ARun false 0;
   ARun false 0; ARun false 0; ARun false 0; ARun false 0; ARun false 0; AUnpark; ANotify 0; ANotify 0].

Definition raced : task_state :=
  mkTask kPolling true 0 [] [(N_take, 2)] 2 2.

Lemma race_reaches : reachable raced.
Proof. apply (schedule_steps race). vm_compute. reflexivity. Defined.

Lemma unpark_exclusive_witness :
  reachable raced /\ data_ raced = true.
Proof.
  split; [exact race_reaches|].
  destruct (unpark_exclusive raced race_reaches) as (_ & _ & Hd & _). apply Hd. vm_compute. lia.
Defined.

Lemma unpark_no_lost_wakeup_witness : reachable raced /\ sn own_step raced.
Proof.
  split; [exact race_reaches|].
  exact (proj1 (unpark_no_lost_wakeup raced race_reaches)).
Defined.

(** ** Waiting for a future on the calling thread *)

(** [src/include/futures/Task.h:28-51] ThreadUnpark *)
Record ThreadUnpark := { ready_ : bool }.

(** [src/include/futures/Task.h:30-35] ThreadUnpark::unpark *)
Definition ThreadUnpark_unpark (u : ThreadUnpark) : ThreadUnpark := {| ready_ := true |}.

(** The part of [park] before the wait: [None] means that the caller goes on to
    wait for [ready_]. *)
(** [src/include/futures/Task.h:37-44] ThreadUnpark::park *)
Definition ThreadUnpark_park (u : ThreadUnpark) : option ThreadUnpark * ThreadUnpark :=
  if ready_ u then (Some u, u) else (None, {| ready_ := false |}).

Section Waiting.
Context {W Fut T : Type} `{Future W Fut T}.
Context (env : W -> W -> Prop).

Inductive wait_pc :=
| W_poll (f : Fut)
| W_park (f : Fut)
| W_waiting (f : Fut)     (** in [while (!ready_) cv_.wait(g)] *)
| W_done (r : Try T).

(** The thread that runs [wait_future], and the rest of the program: while the
    thread is not polling, the world changes by [env] steps and [unpark] may be
    called at any time. *)
(** [src/include/futures/Future.h:331-351] FutureSpawn::poll_future, wait_future *)
Inductive waits : wait_pc * ThreadUnpark * W -> wait_pc * ThreadUnpark * W -> Prop :=
| waits_value f u w v f' w' :
    poll f w = (Ret (VALUE (Some v)), f', w') -> waits (W_poll f, u, w) (W_done (VALUE v), u, w')
| waits_exception f u w e f' w' :
    poll f w = (Ret (EXCEPTION e), f', w') -> waits (W_poll f, u, w) (W_done (EXCEPTION e), u, w')
| waits_pending f u w f' w' :
    poll f w = (Ret (VALUE None), f', w') -> waits (W_poll f, u, w) (W_park f', u, w')
| waits_park_returns f u u' w :
    fst (ThreadUnpark_park u) = Some u' -> waits (W_park f, u, w) (W_poll f, u', w)
| waits_park_waits f u u' w :
    ThreadUnpark_park u = (None, u') -> waits (W_park f, u, w) (W_waiting f, u', w)
| waits_wakes f u w :
    ready_ u = true -> waits (W_waiting f, u, w) (W_poll f, u, w)
| waits_env_park f u w w' : env w w' -> waits (W_park f, u, w) (W_park f, u, w')
| waits_env_waiting f u w w' : env w w' -> waits (W_waiting f, u, w) (W_waiting f, u, w')
| waits_unpark_park f u w : waits (W_park f, u, w) (W_park f, ThreadUnpark_unpark u, w)
| waits_unpark_waiting f u w : waits (W_waiting f, u, w) (W_waiting f, ThreadUnpark_unpark u, w).

(** What is still to come from each position of the loop. *)
Definition outcome (pc : wait_pc) (w : W) (r : Try T) (w' : W) : Prop :=
  match pc with
  | W_poll f => completes env f w r w'
  | W_park f | W_waiting f => exists w1, env w w1 /\ completes env f w1 r w'
  | W_done r' => r = r' /\ w' = w
  end.

Lemma outcome_step `{!PreOrder env} pc u w pc1 u1 w1 r w' :
  waits (pc, u, w) (pc1, u1, w1) -> outcome pc1 w1 r w' -> outcome pc w r w'.
Proof.
  inversion 1; subst; cbn.
  - intros [-> ->]. eauto with completion.
  - intros [-> ->]. eauto with completion.
  - intros (w2 & ? & ?). eauto with completion.
  - intros ?. exists w1. split; [reflexivity|done].
  - done.
  - intros ?. exists w1. split; [reflexivity|done].
  - intros (w2 & ? & ?). exists w2. split; [by etrans|done].
  - intros (w2 & ? & ?). exists w2. split; [by etrans|done].
  - done.
  - done.
Qed.

Lemma waits_sound `{!PreOrder env} x y : rtc waits x y ->
  forall r w', outcome (fst (fst y)) (snd y) r w' -> outcome (fst (fst x)) (snd x) r w'.
Proof.
  induction 1 as [|[[pc u] w] [[pc1 u1] w1] y Hs _ IH]; [done|]. intros r w' Hy.
  eapply outcome_step; [exact Hs|]. by apply IH.
Qed.

(** [FutureSpawn::wait_future] returns [r] exactly when polling the future
    to completion can give [r]: a wake-up that arrives between the poll and
    [park] is not missed, and the loop needs no wake-up other than those after
    which a poll is due. *)
Theorem wait_future_spec `{!PreOrder env} f w r w' :
  (exists u, rtc waits (W_poll f, {| ready_ := false |}, w) (W_done r, u, w')) <->
  completes env f w r w'.
Proof.
  split.
  - intros [u Hr]. apply (waits_sound _ _ Hr r w'). done.
  - generalize false. intros b Hc. revert b.
    induction Hc as [f w v f' w' Hp|f w e f' w' Hp|f w f1 w1 w2 r w3 Hp He _ IH]; intros b.
    + eexists. apply rtc_once. by eapply waits_value.
    + eexists. apply rtc_once. by eapply waits_exception.
    + destruct (IH true) as [u Hu]. exists u.
      eapply rtc_l; [by apply waits_pending|]. eapply rtc_l; [by apply waits_env_park|].
      eapply rtc_l; [apply waits_unpark_park|]. eapply rtc_l; [by apply waits_park_returns|]. done.
Qed.

(** Nothing resets [ready_]: once a wake-up has been consumed, [park] never
    waits again, so [wait_future] polls in a busy loop until the future is
    done. *)
Theorem park_never_waits_again f u w y :
  ready_ u = true -> rtc waits (W_poll f, u, w) y ->
  ready_ (snd (fst y)) = true /\ forall g, fst (fst y) <> W_waiting g.
Proof.
  intros Hu Hr. remember (W_poll f, u, w) as x eqn:Hx.
  assert (ready_ (snd (fst x)) = true /\ forall g, fst (fst x) <> W_waiting g) as Hinv by by subst.
  clear Hx Hu. induction Hr as [|x x1 y Hs _ IH]; [done|]. apply IH. clear IH.
  destruct Hinv as [Hu Hpc]. inversion Hs; subst; cbn in *; try done.
  - unfold ThreadUnpark_park in *. destruct (ready_ u0) eqn:E; naive_solver.
  - unfold ThreadUnpark_park in *. by rewrite Hu in *.
Qed.
End Waiting.

(** A future that is ready at the second poll. *)
Definition second_poll : Future bool unit Z :=
  fun f w => if w then (Ret (VALUE (Some 7%Z)), f, w) else (Ret (VALUE None), f, true).

Lemma wait_future_spec_witness :
  exists u, rtc (@waits bool unit Z second_poll eq)
    (W_poll tt, {| ready_ := false |}, false) (W_done (VALUE 7%Z), u, true).
Proof.
  apply (@wait_future_spec bool unit Z second_poll eq _ tt false (VALUE 7%Z) true).
  eapply completes_pending; [reflexivity|reflexivity|]. eapply completes_value. reflexivity.
Defined.

Lemma park_never_waits_again_witness :
  rtc (@waits bool unit Z second_poll eq)
    (W_poll tt, {| ready_ := true |}, false) (W_park tt, {| ready_ := true |}, true) /\
  forall g, W_park (T:=Z) tt <> W_waiting g.
Proof.
  assert (rtc (@waits bool unit Z second_poll eq)
    (W_poll tt, {| ready_ := true |}, false) (W_park tt, {| ready_ := true |}, true)) as Hr.
  { apply rtc_once. apply waits_pending. reflexivity. }
  split; [exact Hr|].
  exact (proj2 (@park_never_waits_again bool unit Z second_poll eq tt {| ready_ := true |} false
    _ eq_refl Hr)).
Defined.
