(* ===== verification/Streams.v ===== *)
(** * Streams

    Models [src/include/futures/Stream.h], [Stream-inl.h] and
    [detail/StreamIterator.h].  A stream is polled like a future; a ready poll
    carries [Some v] for an item and [None] for the end of the stream.  The
    loops of the source that go on polling while items are ready take a bound;
    the theorems say that every large enough bound gives the result.

    What a consumer sees of a stream is the relation [runs]: items are polled
    off the stream and handed to a consumer action one at a time, the rest of
    the program takes an [env] step whenever the stream is not ready, and the
    run ends at the end of the stream, at an exception of the stream, or when
    the consumer fails. *)

From S2P Require Import Prelude Core Futures FutureLaws.
Local Open Scope cpp_scope.

(** [src/include/futures/Stream.h:11-16] IStream *)
Class Stream (W S T : Type) := spoll : S -> W -> res (Poll (option T)) * S * W.
#[global] Hint Mode Stream ! ! - : typeclass_instances.

(** [src/include/futures/Stream.h:193-201] makeStreamReady *)
Definition makeStreamReady {T} (v : option T) : Poll (option T) := VALUE (Some v).

(** What [r.exception()], [moveFromTry(r)] and the tests on the result make of
    the outcome of a poll. *)
Inductive spolled (T : Type) :=
| S_item (v : T)
| S_eof
| S_pending
| S_exception (e : exception_wrapper)
| S_other (r : res (Poll (option T))).
Arguments S_item {T} v.
Arguments S_eof {T}.
Arguments S_pending {T}.
Arguments S_exception {T} e.
Arguments S_other {T} r.

Definition spoll_case {T} (r : res (Poll (option T))) : spolled T :=
  match r with
  | Ret (VALUE (Some (Some v))) => S_item v
  | Ret (VALUE (Some None)) => S_eof
  | Ret (VALUE None) => S_pending
  | Ret (EXCEPTION e) => S_exception e
  | Ret NOTHING => S_other (Throw UsingUninitializedTry)
  | r => S_other r
  end.

(** A poll that does not return: its outcome at another result type. *)
Definition stop {T U} (r : res T) : res U :=
  match r with
  | Ret _ => Abort "unreachable"
  | Throw e => Throw e
  | Abort s => Abort s
  | OutOfFuel => OutOfFuel
  end.

Section Streams.
Context {W S0 T : Type} `{St : Stream W S0 T}.

(** [src/include/futures/Stream.h:95-103] EmptyStream *)
Definition EmptyStream_poll (s : unit) (w : W) : res (Poll (option T)) * unit * W :=
  (Ret (makeStreamReady None), s, w).

(** The boxed stream is a pointer to a stream; [clear] leaves it null. *)
(** [src/include/futures/Stream.h:105-121] BoxedStream *)
Definition BoxedStream_poll (s : option S0) (w : W) : res (Poll (option T)) * option S0 * W :=
  match s with
  | Some s => let '(r, s', w') := spoll s w in (r, Some s', w')
  | None => (Abort "null pointer dereference", None, w)
  end.

(** ** forEach *)
(** [src/include/futures/Stream-inl.h:39-42] ForEachFuture *)
Record ForEachFuture := mkForEach { fe_stream : S0; fe_func : T -> eff W unit }.

(** [src/include/futures/Stream-inl.h:16-37] ForEachFuture::poll *)
Fixpoint ForEachFuture_poll (fuel : nat) (f : ForEachFuture) (w : W)
  : res (Poll unit) * ForEachFuture * W :=
  match fuel with
  | 0 => (OutOfFuel, f, w)
  | S fuel =>
      let '(r, s', w1) := spoll (fe_stream f) w in
      let f' := mkForEach s' (fe_func f) in
      match spoll_case r with
      | S_exception e => (Ret (EXCEPTION e), f', w1)
      | S_eof => (Ret (makePollReady tt), f', w1)
      | S_pending => (Ret not_ready, f', w1)
      | S_other r => (stop r, f', w1)
      | S_item v =>
          match fe_func f v w1 with
          | (Ret _, w2) => ForEachFuture_poll fuel f' w2
          | (r, w2) => (catch_std (stop r), f', w2)
          end
      end
  end.

(** [src/include/futures/Stream-inl.h:318-322] StreamBase::forEach *)
Definition forEach (s : S0) (f : T -> eff W unit) : ForEachFuture := mkForEach s f.

(** ** collect *)
(** [src/include/futures/Stream-inl.h:91-94] CollectStreamFuture *)
Record CollectStreamFuture := mkCollect { cs_stream : option S0; cs_vals : list T }.

(** [src/include/futures/Stream-inl.h:69-89] CollectStreamFuture::poll *)
Fixpoint CollectStreamFuture_poll (fuel : nat) (f : CollectStreamFuture) (w : W)
  : res (Poll (list T)) * CollectStreamFuture * W :=
  match fuel with
  | 0 => (OutOfFuel, f, w)
  | S fuel =>
      match cs_stream f with
      | None => (Throw OptionalEmptyException, f, w)
      | Some s =>
          let '(r, s', w1) := spoll s w in
          let f' := mkCollect (Some s') (cs_vals f) in
          match spoll_case r with
          | S_exception e => (Ret (EXCEPTION e), mkCollect None (cs_vals f), w1)
          | S_item v => CollectStreamFuture_poll fuel (mkCollect (Some s') (cs_vals f ++ [v])) w1
          | S_eof => (Ret (makePollReady (cs_vals f)), mkCollect None (moved_from (cs_vals f)), w1)
          | S_pending => (Ret not_ready, f', w1)
          | S_other r => (stop r, f', w1)
          end
      end
  end.

(** [src/include/futures/Stream-inl.h:331-335] StreamBase::collect *)
Definition collect (s : S0) : CollectStreamFuture := mkCollect (Some s) [].

(** ** filter *)
(** [src/include/futures/Stream-inl.h:128-131] FilterStream *)
Record FilterStream := mkFilter { fs_stream : option S0; fs_func : T -> eff W bool }.

(** [src/include/futures/Stream-inl.h:104-126] FilterStream::poll *)
Fixpoint FilterStream_poll (fuel : nat) (f : FilterStream) (w : W)
  : res (Poll (option T)) * FilterStream * W :=
  match fuel with
  | 0 => (OutOfFuel, f, w)
  | S fuel =>
      match fs_stream f with
      | None => (Throw OptionalEmptyException, f, w)
      | Some s =>
          let '(r, s', w1) := spoll s w in
          let f' := mkFilter (Some s') (fs_func f) in
          match spoll_case r with
          | S_exception e => (Ret (EXCEPTION e), mkFilter None (fs_func f), w1)
          | S_item v =>
              match fs_func f v w1 with
              | (Ret true, w2) => (Ret (makeStreamReady (Some v)), f', w2)
              | (Ret false, w2) => FilterStream_poll fuel f' w2
              | (r, w2) => (stop r, f', w2)
              end
          | S_eof => (Ret (makeStreamReady None), mkFilter None (fs_func f), w1)
          | S_pending => (Ret not_ready, f', w1)
          | S_other r => (stop r, f', w1)
          end
      end
  end.

(** [src/include/futures/Stream-inl.h:337-342] StreamBase::filter *)
Definition filter_ (s : S0) (p : T -> eff W bool) : FilterStream := mkFilter (Some s) p.

(** ** take *)
(** [src/include/futures/Stream-inl.h:273-276] TakeStream *)
Record TakeStream := mkTake { ts_stream : option S0; ts_remain : nat }.

(** The test [v.hasValue()] of the source is on the [Async], which is always
    ready there: the end of the stream is passed on like an item. *)
(** [src/include/futures/Stream-inl.h:250-271] TakeStream::poll *)
Definition TakeStream_poll (f : TakeStream) (w : W)
  : res (Poll (option T)) * TakeStream * W :=
  match ts_remain f with
  | 0 => (Ret (makeStreamReady None), mkTake None 0, w)
  | S n =>
      match ts_stream f with
      | None => (Throw OptionalEmptyException, f, w)
      | Some s =>
          let '(r, s', w1) := spoll s w in
          let f' := mkTake (Some s') (ts_remain f) in
          match spoll_case r with
          | S_exception e => (Ret (EXCEPTION e), mkTake None (ts_remain f), w1)
          | S_item v => (Ret (makeStreamReady (Some v)), mkTake (Some s') n, w1)
          | S_eof => (Ret (makeStreamReady None), mkTake (Some s') n, w1)
          | S_pending => (Ret not_ready, f', w1)
          | S_other r => (stop r, f', w1)
          end
      end
  end.

(** [src/include/futures/Stream-inl.h:358-362] StreamBase::take *)
Definition take_ (s : S0) (n : nat) : TakeStream := mkTake (Some s) n.

(** ** drop *)
(** [src/include/futures/Stream-inl.h:287-299] DropStreamFuture::poll *)
Fixpoint DropStreamFuture_poll (fuel : nat) (s : S0) (w : W) : res (Poll unit) * S0 * W :=
  match fuel with
  | 0 => (OutOfFuel, s, w)
  | S fuel =>
      let '(r, s', w1) := spoll s w in
      match spoll_case r with
      | S_exception e => (Ret (EXCEPTION e), s', w1)
      | S_item _ => DropStreamFuture_poll fuel s' w1
      | S_eof => (Ret (makePollReady tt), s', w1)
      | S_pending => (Ret not_ready, s', w1)
      | S_other r => (stop r, s', w1)
      end
  end.

(** ** map *)
Context {U : Type}.

(** [src/include/futures/Stream-inl.h:170-173] MapStream *)
Record MapStream := mkMap { ms_stream : option S0; ms_func : T -> eff W U }.

(** Every path of the loop body returns. *)
(** [src/include/futures/Stream-inl.h:141-168] MapStream::poll *)
Definition MapStream_poll (f : MapStream) (w : W) : res (Poll (option U)) * MapStream * W :=
  match ms_stream f with
  | None => (Throw OptionalEmptyException, f, w)
  | Some s =>
      let '(r, s', w1) := spoll s w in
      let f' := mkMap (Some s') (ms_func f) in
      let cleared := mkMap None (ms_func f) in
      match spoll_case r with
      | S_exception e => (Ret (EXCEPTION e), cleared, w1)
      | S_item v =>
          match ms_func f v w1 with
          | (Ret u, w2) => (Ret (makeStreamReady (Some u)), f', w2)
          | (Throw e, w2) =>
              if is_std e then (Ret (EXCEPTION (Some e)), cleared, w2) else (Throw e, f', w2)
          | (r, w2) => (stop r, f', w2)
          end
      | S_eof => (Ret (makeStreamReady None), cleared, w1)
      | S_pending => (Ret not_ready, f', w1)
      | S_other r => (stop r, f', w1)
      end
  end.

(** [src/include/futures/Stream-inl.h:344-349] StreamBase::map *)
Definition map_ (s : S0) (f : T -> eff W U) : MapStream := mkMap (Some s) f.

(** ** andThen *)
Context {FutR : Type} `{FutureR : Future W FutR U}.

(** [src/include/futures/Stream-inl.h:229-234] AndThenStream *)
Record AndThenStream := mkAndThen {
  as_stream : option S0; as_func : T -> eff W FutR; as_fut : option FutR }.

(** [src/include/futures/Stream-inl.h:235-238] AndThenStream::clear *)
Definition AndThenStream_clear (f : AndThenStream) : AndThenStream :=
  mkAndThen None (as_func f) None.

(** The block under [if (fut_)]. *)
(** [src/include/futures/Stream-inl.h:188-201] AndThenStream::poll *)
Definition AndThenStream_poll_fut (f : AndThenStream) (g : FutR) (w : W)
  : res (Poll (option U)) * AndThenStream * W :=
  let '(r, g', w1) := poll g w in
  let f' := mkAndThen (as_stream f) (as_func f) (Some g') in
  match r with
  | Ret (EXCEPTION e) => (Ret (EXCEPTION e), AndThenStream_clear f, w1)
  | Ret (VALUE (Some u)) =>
      (Ret (makeStreamReady (Some u)), mkAndThen (as_stream f) (as_func f) None, w1)
  | Ret (VALUE None) => (Ret not_ready, f', w1)
  | Ret NOTHING => (Throw UsingUninitializedTry, f', w1)
  | r => (stop r, f', w1)
  end.

(** [src/include/futures/Stream-inl.h:186-228] AndThenStream::poll *)
Definition AndThenStream_poll (f : AndThenStream) (w : W)
  : res (Poll (option U)) * AndThenStream * W :=
  match as_fut f with
  | Some g => AndThenStream_poll_fut f g w
  | None =>
      match as_stream f with
      | None => (Throw OptionalEmptyException, f, w)
      | Some s =>
          let '(r, s', w1) := spoll s w in
          let f' := mkAndThen (Some s') (as_func f) None in
          match spoll_case r with
          | S_exception e => (Ret (EXCEPTION e), mkAndThen None (as_func f) None, w1)
          | S_item v =>
              match as_func f v w1 with
              | (Ret g, w2) => AndThenStream_poll_fut (mkAndThen (Some s') (as_func f) (Some g)) g w2
              | (Throw e, w2) =>
                  if is_std e then (Ret (EXCEPTION (Some e)), mkAndThen None (as_func f) None, w2)
                  else (Throw e, f', w2)
              | (r, w2) => (stop r, f', w2)
              end
          | S_eof => (Ret (makeStreamReady None), AndThenStream_clear f, w1)
          | S_pending => (Ret not_ready, f', w1)
          | S_other r => (stop r, f', w1)
          end
      end
  end.

(** [src/include/futures/Stream-inl.h:351-356] StreamBase::andThen *)
Definition andThen_ (s : S0) (f : T -> eff W FutR) : AndThenStream := mkAndThen (Some s) f None.
End Streams.
Arguments ForEachFuture : clear implicits.
Arguments CollectStreamFuture : clear implicits.
Arguments FilterStream : clear implicits.
Arguments TakeStream : clear implicits.
Arguments MapStream : clear implicits.
Arguments AndThenStream : clear implicits.

(** ** Streams over iterators *)
Section Iter.
Context {W Iter T : Type} `{EqDecision Iter} (deref : Iter -> T) (incr : Iter -> Iter).

(** [src/include/futures/Stream.h:140-143] IterStream *)
Record IterStream := mkIter { it_ : Iter; end_ : Iter }.

(** [src/include/futures/Stream.h:132-138] IterStream::poll *)
Definition IterStream_poll (f : IterStream) (w : W) : res (Poll (option T)) * IterStream * W :=
  if decide (it_ f = end_ f) then (Ret (makePollReady None), f, w)
  else (Ret (makePollReady (Some (deref (it_ f)))), mkIter (incr (it_ f)) (end_ f), w).

(** [src/include/futures/Stream-inl.h:371-374] makeIterStream *)
Definition makeIterStream (b e : Iter) : IterStream := mkIter b e.
End Iter.
Arguments IterStream : clear implicits.

Module IntIter.
(** [src/include/futures/Stream-inl.h:387-389] IntIter::operator++ *)
Definition incr (v : Z) : Z := i32 (v + 1).
(** [src/include/futures/Stream-inl.h:391-393] IntIter::operator* *)
Definition deref (v : Z) : Z := v.
End IntIter.

(** [src/include/futures/Stream-inl.h:404-406] nTimes *)
Definition nTimes (n : Z) : IterStream Z := makeIterStream 0%Z n.

#[global] Instance nTimes_Stream {W} : Stream W (IterStream Z) Z :=
  IterStream_poll IntIter.deref IntIter.incr.

(** ** Runs of a stream *)
Section Runs.
Context {W : Type} (env : W -> W -> Prop).

(** [K v w us w']: the consumer, given [v] in world [w], hands on [us] and
    leaves [w'].  [KF v w e w']: it fails with [e]. *)
Inductive runs {S0 T U} (sp : Stream W S0 T) (K : T -> W -> list U -> W -> Prop)
    (KF : T -> W -> exception_wrapper -> W -> Prop)
  : S0 -> W -> list U -> option exception_wrapper -> W -> Prop :=
| runs_eof s w s' w' :
    sp s w = (Ret (VALUE (Some None)), s', w') -> runs sp K KF s w [] None w'
| runs_exception s w e s' w' :
    sp s w = (Ret (EXCEPTION e), s', w') -> runs sp K KF s w [] (Some e) w'
| runs_fail s w v s' w1 e w2 :
    sp s w = (Ret (VALUE (Some (Some v))), s', w1) -> KF v w1 e w2 ->
    runs sp K KF s w [] (Some e) w2
| runs_item s w v s' w1 us w2 l r w3 :
    sp s w = (Ret (VALUE (Some (Some v))), s', w1) -> K v w1 us w2 ->
    runs sp K KF s' w2 l r w3 -> runs sp K KF s w (us ++ l) r w3
| runs_pending s w s' w1 w2 l r w3 :
    sp s w = (Ret (VALUE None), s', w1) -> env w1 w2 ->
    runs sp K KF s' w2 l r w3 -> runs sp K KF s w l r w3.

(** The consumer that only records the items. *)
Definition K_record {T} (v : T) (w : W) (us : list T) (w' : W) : Prop := us = [v] /\ w' = w.
Definition K_total {T} (v : T) (w : W) (e : exception_wrapper) (w' : W) : Prop := False.

(** The items of a stream and how it ends. *)
Definition yields {S0 T} (sp : Stream W S0 T) : S0 -> W -> list T -> option exception_wrapper -> W -> Prop :=
  runs sp K_record K_total.
End Runs.
Create HintDb streams discriminated.
#[export] Hint Constructors runs : streams.

(** ** The laws of the combinators *)
Section Laws.
Context {W S0 T : Type} {sp : Stream W S0 T} (env : W -> W -> Prop).
Implicit Types (s : S0) (w : W).

Ltac spoll_cases s w :=
  let r := fresh "r" in let s' := fresh "s'" in let w' := fresh "w'" in let E := fresh "Esp" in
  change spoll with sp in *;
  destruct (sp s w) as [[r s'] w'] eqn:E; destruct r as [[[[?|]|]|?|]|?|?|]; cbn in *.

(** [map f]: the function is applied to each item before the consumer sees it;
    an exception it throws ends the stream. *)
Definition K_map {U V} (f : T -> eff W U) (K : U -> W -> list V -> W -> Prop)
    (v : T) (w : W) (us : list V) (w' : W) : Prop :=
  exists u w1, f v w = (Ret u, w1) /\ K u w1 us w'.

Definition KF_map {U} (f : T -> eff W U) (KF : U -> W -> exception_wrapper -> W -> Prop)
    (v : T) (w : W) (e : exception_wrapper) (w' : W) : Prop :=
  (exists x, f v w = (Throw x, w') /\ is_std x = true /\ e = Some x) \/
  exists u w1, f v w = (Ret u, w1) /\ KF u w1 e w'.

Lemma runs_map {U V} (f : T -> eff W U) (K : U -> W -> list V -> W -> Prop) KF s w l r w' :
  runs env MapStream_poll K KF (map_ s f) w l r w' <->
  runs env sp (K_map f K) (KF_map f KF) s w l r w'.
Proof.
  unfold map_. split.
  - remember (mkMap (Some s) f) as m eqn:Hm. intros Hr. revert s Hm.
    induction Hr as [m w m' w' Hp|m w e m' w' Hp|m w v m' w1 e w2 Hp HK
      |m w v m' w1 us w2 l r w3 Hp HK _ IH|m w m' w1 w2 l r w3 Hp He _ IH];
      intros s ->; unfold MapStream_poll in Hp; cbn in Hp; spoll_cases s w; simplify_eq;
      try (destruct (f _ _) as [[u|x|?|] wf] eqn:Ef; cbn in Hp; try destruct (is_std x) eqn:Hx;
           simplify_eq); eauto with streams.
    + eapply runs_fail; [done|]. left. eauto.
    + eapply runs_fail; [done|]. right. eauto.
    + eapply runs_item; [done| |by apply IH]. unfold K_map. eauto.
  - induction 1 as [s w s' w' Hp|s w e s' w' Hp|s w v s' w1 e w2 Hp HK
      |s w v s' w1 us w2 l r w3 Hp HK _ IH|s w s' w1 w2 l r w3 Hp He _ IH].
    + eapply runs_eof. unfold MapStream_poll, spoll; cbn. by rewrite Hp.
    + eapply runs_exception. unfold MapStream_poll, spoll; cbn. by rewrite Hp.
    + destruct HK as [(x & Hf & Hx & ->)|(u & wf & Hf & HK)].
      * eapply runs_exception. unfold MapStream_poll, spoll; cbn. by rewrite Hp; cbn; rewrite Hf, Hx.
      * eapply runs_fail; [|done]. unfold MapStream_poll, spoll; cbn. by rewrite Hp; cbn; rewrite Hf.
    + destruct HK as (u & wf & Hf & HK). eapply runs_item; [|done|done].
      unfold MapStream_poll, spoll; cbn. by rewrite Hp; cbn; rewrite Hf.
    + eapply runs_pending; [|done|done]. unfold MapStream_poll, spoll; cbn. by rewrite Hp.
Qed.

(** A run depends on the stream only through its first poll. *)
Lemma runs_first {S1 U V} {sq : Stream W S1 U} (K : U -> W -> list V -> W -> Prop) KF
    (s s2 : S1) w w2 l r w' :
  sq s w = sq s2 w2 -> runs env sq K KF s w l r w' -> runs env sq K KF s2 w2 l r w'.
Proof. intros Hs Hr. destruct Hr; rewrite Hs in *; eauto with streams. Qed.

Lemma runs_polled {S1 U V} {sq : Stream W S1 U} (K : U -> W -> list V -> W -> Prop) KF
    (s : S1) w l r w' :
  runs env sq K KF s w l r w' -> fst (fst (sq s w)) <> OutOfFuel.
Proof.
  destruct 1 as [???? Hp|????? Hp|??????? Hp|?????????? Hp|???????? Hp]; by rewrite Hp.
Qed.

(** [filter p]: items on which the predicate is false are dropped; an exception
    of the predicate leaves [poll] (it ends no run). *)
Definition K_filter {V} (p : T -> eff W bool) (K : T -> W -> list V -> W -> Prop)
    (v : T) (w : W) (us : list V) (w' : W) : Prop :=
  exists b w1, p v w = (Ret b, w1) /\ if b then K v w1 us w' else us = [] /\ w' = w1.

Definition KF_filter (p : T -> eff W bool) (KF : T -> W -> exception_wrapper -> W -> Prop)
    (v : T) (w : W) (e : exception_wrapper) (w' : W) : Prop :=
  exists w1, p v w = (Ret true, w1) /\ KF v w1 e w'.

Lemma filter_poll_mono p n k (o : option S0) w :
  fst (fst (FilterStream_poll n (mkFilter o p) w)) <> OutOfFuel -> n <= k ->
  FilterStream_poll k (mkFilter o p) w = FilterStream_poll n (mkFilter o p) w.
Proof.
  revert k o w. induction n as [|n IH]; intros [|k] o w Hn Hk; try done; [lia|].
  cbn in *. destruct o as [s|]; [|done]. spoll_cases s w; try done.
  destruct (p _ _) as [[[]|?|?|] wp]; try done. apply IH; [done|lia].
Qed.

(** One poll of the filter makes the polls of the run underneath it. *)
Lemma filter_poll_runs {V} p (K : T -> W -> list V -> W -> Prop) KF n s w R m' w1 :
  FilterStream_poll n (filter_ s p) w = (R, m', w1) ->
  match R with
  | Ret (VALUE (Some (Some v))) =>
      exists s1, m' = filter_ s1 p /\
      (forall us w2 l r w3, K v w1 us w2 ->
        runs env sp (K_filter p K) (KF_filter p KF) s1 w2 l r w3 ->
        runs env sp (K_filter p K) (KF_filter p KF) s w (us ++ l) r w3) /\
      (forall e w2, KF v w1 e w2 ->
        runs env sp (K_filter p K) (KF_filter p KF) s w [] (Some e) w2)
  | Ret (VALUE (Some None)) => runs env sp (K_filter p K) (KF_filter p KF) s w [] None w1
  | Ret (EXCEPTION e) => runs env sp (K_filter p K) (KF_filter p KF) s w [] (Some e) w1
  | Ret (VALUE None) =>
      exists s1, m' = filter_ s1 p /\
      forall w2 l r w3, env w1 w2 ->
        runs env sp (K_filter p K) (KF_filter p KF) s1 w2 l r w3 ->
        runs env sp (K_filter p K) (KF_filter p KF) s w l r w3
  | _ => True
  end.
Proof.
  unfold filter_. revert s w. induction n as [|n IH]; intros s w Hp; cbn in Hp; [by simplify_eq|].
  spoll_cases s w; simplify_eq; cbn; try done; eauto 6 with streams.
  destruct (p _ _) as [[[]|?|?|] wp] eqn:Ep; cbn in Hp; simplify_eq; try done.
  - exists s'. split; [done|]. split; intros.
    + eapply runs_item; [done| |done]. exists true. eauto.
    + eapply runs_fail; [done|]. exists w1. eauto.
  - assert (forall l r w2, runs env sp (K_filter p K) (KF_filter p KF) s' wp l r w2 ->
      runs env sp (K_filter p K) (KF_filter p KF) s w l r w2) as Hskip.
    { intros l r w2 Hr. apply (runs_item env sp _ _ s w t s' w' [] wp l r w2); [done| |done].
      exists false, wp. eauto. }
    specialize (IH s' wp Hp). destruct R as [[[[v|]|]|e|]|?|?|]; eauto.
    + destruct IH as (s1 & -> & H1 & H2). exists s1. split; [done|]. split; eauto.
    + destruct IH as (s1 & -> & H1). exists s1. eauto.
Qed.

Lemma runs_filter_sound {V} p (K : T -> W -> list V -> W -> Prop) KF n s w l r w' :
  runs env (FilterStream_poll n) K KF (filter_ s p) w l r w' ->
  runs env sp (K_filter p K) (KF_filter p KF) s w l r w'.
Proof.
  remember (filter_ s p) as m eqn:Hm. intros Hr. revert s Hm.
  induction Hr as [m w m' w' Hp|m w e m' w' Hp|m w v m' w1 e w2 Hp HK
    |m w v m' w1 us w2 l r w3 Hp HK _ IH|m w m' w1 w2 l r w3 Hp He _ IH]; intros s ->;
    pose proof (filter_poll_runs p K KF n s w _ _ _ Hp) as Hf; cbn in Hf; try done.
  - destruct Hf as (s1 & -> & _ & Hf). by apply Hf.
  - destruct Hf as (s1 & -> & Hf & _). eauto.
  - destruct Hf as (s1 & -> & Hf). eauto.
Qed.

Lemma runs_filter_complete {V} p (K : T -> W -> list V -> W -> Prop) KF s w l r w' :
  runs env sp (K_filter p K) (KF_filter p KF) s w l r w' ->
  exists n, forall fuel, n <= fuel -> runs env (FilterStream_poll fuel) K KF (filter_ s p) w l r w'.
Proof.
  unfold filter_. induction 1 as [s w s' w' Hp|s w e s' w' Hp|s w v s' w1 e w2 Hp HK
      |s w v s' w1 us w2 l r w3 Hp HK _ [n IH]|s w s' w1 w2 l r w3 Hp He _ [n IH]].
  - exists 1. intros [|k] Hk; [lia|]. eapply runs_eof. cbn. unfold spoll. by rewrite Hp.
  - exists 1. intros [|k] Hk; [lia|]. eapply runs_exception. cbn. unfold spoll. by rewrite Hp.
  - destruct HK as (wp & Ep & HK). exists 1. intros [|k] Hk; [lia|]. eapply runs_fail; [|done].
    cbn. unfold spoll. rewrite Hp. cbn. by rewrite Ep.
  - destruct HK as ([] & wp & Ep & HK).
    + exists (S n). intros [|k] Hk; [lia|]. eapply runs_item; [|done|apply IH; lia].
      cbn. unfold spoll. rewrite Hp. cbn. by rewrite Ep.
    + destruct HK as [-> ->]. exists (S n). intros [|k] Hk; [lia|]. cbn [app].
      eapply runs_first; [|apply IH; lia].
      rewrite (filter_poll_mono p k (S k)); [|eapply runs_polled, IH; lia|lia].
      cbn. unfold spoll. rewrite Hp. cbn. by rewrite Ep.
  - exists (S n). intros [|k] Hk; [lia|]. eapply runs_pending; [|done|apply IH; lia].
    cbn. unfold spoll. by rewrite Hp.
Qed.

(** How a future over a stream ends, from how the run ended. *)
Definition finish {A} (v : A) (r : option exception_wrapper) : Try A :=
  match r with None => VALUE v | Some e => EXCEPTION e end.

Lemma collect_poll_runs n s acc w R m' w1 :
  CollectStreamFuture_poll n (mkCollect (Some s) acc) w = (R, m', w1) ->
  match R with
  | Ret (VALUE (Some vs)) => exists l, vs = acc ++ l /\ yields env sp s w l None w1
  | Ret (EXCEPTION e) => exists l, yields env sp s w l (Some e) w1
  | Ret (VALUE None) =>
      exists s1 l, m' = mkCollect (Some s1) (acc ++ l) /\
      forall w2 k r w3, env w1 w2 -> yields env sp s1 w2 k r w3 -> yields env sp s w (l ++ k) r w3
  | _ => True
  end.
Proof.
  unfold yields. revert s acc w. induction n as [|n IH]; intros s acc w Hp; cbn in Hp; [by simplify_eq|].
  spoll_cases s w; simplify_eq; cbn; try done.
  - assert (forall l r w2, runs env sp K_record K_total s' w' l r w2 ->
      runs env sp K_record K_total s w (t :: l) r w2) as Hskip.
    { intros l r w2 Hr. by apply (runs_item env sp _ _ s w t s' w' [t] w' l r w2). }
    specialize (IH _ _ _ Hp). destruct R as [[[vs|]|e|]|?|?|]; try done.
    + destruct IH as (l & -> & Hl). exists (t :: l). split; [by rewrite <-app_assoc|auto].
    + destruct IH as (s1 & l & -> & Hl). exists s1, (t :: l).
      split; [by rewrite <-app_assoc|]. cbn. eauto.
    + destruct IH as (l & Hl). eauto.
  - exists []. rewrite app_nil_r. eauto with streams.
  - exists s', []. rewrite app_nil_r. eauto with streams.
  - exists []. eauto with streams.
Qed.

Lemma collect_sound n s acc w t w' :
  @completes W env _ _ (CollectStreamFuture_poll n) (mkCollect (Some s) acc) w t w' ->
  exists l r, yields env sp s w l r w' /\ t = finish (acc ++ l) r.
Proof.
  remember (mkCollect (Some s) acc) as m eqn:Hm. intros Hc. revert s acc Hm.
  induction Hc as [m w v m' w' Hp|m w e m' w' Hp|m w m1 w1 w2 t w3 Hp He _ IH]; intros s acc ->;
    pose proof (collect_poll_runs n s acc w _ _ _ Hp) as Hr; cbn in Hr.
  - destruct Hr as (l & -> & Hl). by exists l, None.
  - destruct Hr as (l & Hl). by exists l, (Some e).
  - destruct Hr as (s1 & l & -> & Hl). destruct (IH s1 (acc ++ l) eq_refl) as (k & r & Hk & ->).
    exists (l ++ k), r. rewrite app_assoc. eauto.
Qed.

Lemma collect_complete n s acc w l r w' :
  yields env sp s w l r w' -> length l < n ->
  @completes W env _ _ (CollectStreamFuture_poll n) (mkCollect (Some s) acc) w (finish (acc ++ l) r) w'.
Proof.
  intros Hy. assert (forall k, length l < k <= n -> after_poll (H := CollectStreamFuture_poll n) env
    (CollectStreamFuture_poll k (mkCollect (Some s) acc) w) (finish (acc ++ l) r) w') as Hk;
    [|intros Hn; apply completes_unfold, Hk; lia].
  revert acc. unfold yields in Hy.
  induction Hy as [s w s' w' Hp|s w e s' w' Hp|s w v s' w1 e w2 Hp []
    |s w v s' w1 us w2 l r w3 Hp [-> ->] _ IH|s w s' w1 w2 l r w3 Hp He _ IH];
    intros acc [|k] Hk; cbn in Hk; try lia; cbn; unfold spoll; rewrite Hp; cbn.
  - by rewrite app_nil_r.
  - done.
  - specialize (IH (acc ++ [v]) k). rewrite <-app_assoc in IH. apply IH. lia.
  - exists w2. split; [done|]. apply completes_unfold, IH. lia.
Qed.

(** [forEach f]: the callback consumes every item. *)
Definition K_each (f : T -> eff W unit) (v : T) (w : W) (us : list Empty_set) (w' : W) : Prop :=
  us = [] /\ f v w = (Ret tt, w').
Definition KF_each (f : T -> eff W unit) (v : T) (w : W) (e : exception_wrapper) (w' : W) : Prop :=
  exists x, f v w = (Throw x, w') /\ is_std x = true /\ e = Some x.

(** The run of a whole stream through [f]. *)
Definition each_run (f : T -> eff W unit) s w (r : option exception_wrapper) w' : Prop :=
  runs env sp (K_each f) (KF_each f) s w [] r w'.

Lemma each_run_item f s w v s' w1 w2 r w3 :
  sp s w = (Ret (VALUE (Some (Some v))), s', w1) -> f v w1 = (Ret tt, w2) ->
  each_run f s' w2 r w3 -> each_run f s w r w3.
Proof. intros Hp Hf Hr. by apply (runs_item env sp _ _ s w v s' w1 [] w2 [] r w3). Qed.

Lemma forEach_poll_runs n f s w R m' w1 :
  ForEachFuture_poll n (forEach s f) w = (R, m', w1) ->
  match R with
  | Ret (VALUE (Some _)) => each_run f s w None w1
  | Ret (EXCEPTION e) => each_run f s w (Some e) w1
  | Ret (VALUE None) =>
      exists s1, m' = forEach s1 f /\
      forall w2 r w3, env w1 w2 -> each_run f s1 w2 r w3 -> each_run f s w r w3
  | _ => True
  end.
Proof.
  unfold forEach. revert s w. induction n as [|n IH]; intros s w Hp; cbn in Hp; [by simplify_eq|].
  spoll_cases s w; simplify_eq; cbn; try done.
  - destruct (f t w') as [[[]|x|?|] wf] eqn:Ef; cbn in Hp.
    + specialize (IH _ _ Hp). destruct R as [[[[]|]|e|]|?|?|]; eauto using each_run_item.
      destruct IH as (s1 & -> & Hl). eauto using each_run_item.
    + destruct (is_std x) eqn:Hx; simplify_eq; [|done].
      eapply runs_fail; [done|]. by exists x.
    + by simplify_eq.
    + by simplify_eq.
  - eapply runs_eof; eauto.
  - exists s'. split; [done|]. intros. eapply runs_pending; eauto.
  - eapply runs_exception; eauto.
Qed.

Lemma forEach_sound n f s w t w' :
  @completes W env _ _ (ForEachFuture_poll n) (forEach s f) w t w' ->
  exists r, each_run f s w r w' /\ t = finish tt r.
Proof.
  remember (forEach s f) as m eqn:Hm. intros Hc. revert s Hm.
  induction Hc as [m w [] m' w' Hp|m w e m' w' Hp|m w m1 w1 w2 t w3 Hp He _ IH]; intros s ->;
    pose proof (forEach_poll_runs n f s w _ _ _ Hp) as Hr; cbn in Hr.
  - by exists None.
  - by exists (Some e).
  - destruct Hr as (s1 & -> & Hl). destruct (IH s1 eq_refl) as (r & Hk & ->). eauto.
Qed.

Lemma forEach_poll_mono f n k s w :
  fst (fst (ForEachFuture_poll n (mkForEach s f) w)) <> OutOfFuel -> n <= k ->
  ForEachFuture_poll k (mkForEach s f) w = ForEachFuture_poll n (mkForEach s f) w.
Proof.
  revert k s w. induction n as [|n IH]; intros [|k] s w Hn Hk; try done; [lia|].
  cbn in *. spoll_cases s w; try done. destruct (f _ _) as [[[]|?|?|] wf]; try done.
  apply IH; [done|lia].
Qed.

Lemma forEach_complete f s w r w' :
  each_run f s w r w' ->
  exists n, forall fuel, n <= fuel ->
    @completes W env _ _ (ForEachFuture_poll fuel) (forEach s f) w (finish tt r) w'.
Proof.
  unfold each_run, forEach. remember [] as us0 eqn:Hus.
  induction 1 as [s w s' w' Hp|s w e s' w' Hp|s w v s' w1 e w2 Hp HK
      |s w v s' w1 us w2 l r w3 Hp HK _ IH|s w s' w1 w2 l r w3 Hp He _ IH].
  - exists 1. intros [|k] Hk; [lia|]. eapply completes_value. cbn. unfold poll; cbn; unfold spoll. by rewrite Hp.
  - exists 1. intros [|k] Hk; [lia|]. eapply completes_exception. unfold poll; cbn; unfold spoll. by rewrite Hp.
  - destruct HK as (x & Hf & Hx & ->). exists 1. intros [|k] Hk; [lia|].
    eapply completes_exception. unfold poll; cbn; unfold spoll. rewrite Hp; cbn. rewrite Hf; cbn. by rewrite Hx.
  - destruct HK as [-> Hf]. destruct (IH Hus) as [n Hn]. exists (S n). intros [|k] Hk; [lia|].
    assert (ForEachFuture_poll (S k) (mkForEach s f) w = ForEachFuture_poll (S k) (mkForEach s' f) w2) as E.
    { rewrite (forEach_poll_mono f k (S k) s' w2); [| |lia].
      - cbn; unfold spoll. rewrite Hp; cbn. by rewrite Hf.
      - specialize (Hn k ltac:(lia)). rewrite completes_unfold in Hn. unfold poll in Hn.
        intros E. by destruct (ForEachFuture_poll k _ _) as [[[] ?] ?]. }
    specialize (Hn (S k) ltac:(lia)). rewrite completes_unfold in *. unfold poll in *. by rewrite E.
  - destruct (IH Hus) as [n Hn]. exists (S n). intros [|k] Hk; [lia|].
    eapply completes_pending; [|done|apply Hn; lia]. unfold poll; cbn; unfold spoll. by rewrite Hp.
Qed.

(** [drop()] is [forEach] with a callback that ignores its argument. *)
Lemma drop_forEach n s w :
  DropStreamFuture_poll n s w =
  let '(r, m, w') := ForEachFuture_poll n (forEach s (fun _ => eff_ret tt)) w in (r, fe_stream m, w').
Proof.
  unfold forEach. revert s w. induction n as [|n IH]; intros s w; [done|]. cbn.
  spoll_cases s w; try done.
Qed.

(** [l] has been taken off the stream, which has not been polled since. *)
Inductive delivers : S0 -> W -> list T -> S0 -> W -> Prop :=
| delivers_nil s w : delivers s w [] s w
| delivers_item s w v s1 w1 l s2 w2 :
    sp s w = (Ret (VALUE (Some (Some v))), s1, w1) -> delivers s1 w1 l s2 w2 ->
    delivers s w (v :: l) s2 w2
| delivers_pending s w s1 w1 w2 v l s3 w3 :
    sp s w = (Ret (VALUE None), s1, w1) -> env w1 w2 -> delivers s1 w2 (v :: l) s3 w3 ->
    delivers s w (v :: l) s3 w3.
#[local] Hint Constructors delivers : streams.

Definition take_run s n w l (r : option exception_wrapper) w' : Prop :=
  (length l = n /\ r = None /\ exists s', delivers s w l s' w') \/
  (length l < n /\ yields env sp s w l r w').

Lemma take_run_item s w v s1 w1 n l r w' :
  sp s w = (Ret (VALUE (Some (Some v))), s1, w1) ->
  take_run s1 n w1 l r w' <-> take_run s (S n) w (v :: l) r w'.
Proof.
  intros Hp. unfold take_run, yields. cbn. split.
  - intros [(<- & -> & s' & Hd)|[Hn Hy]]; [left; eauto 6 with streams|right].
    split; [lia|]. by apply (runs_item env sp _ _ s w v s1 w1 [v] w1 l r w').
  - intros [(Hn & -> & s' & Hd)|[Hn Hy]]; [left|right].
    + repeat split; [lia|]. exists s'.
      inversion Hd as [|? ? ? ? ? ? ? ? Hp' Hd'|? ? ? ? ? ? ? ? ? Hp' He' Hd']; subst; congruence.
    + split; [lia|]. inversion Hy as [| | |? ? ? ? ? us ? k ? ? Hp' [-> ->] Hr|? ? ? ? ? ? ? ? Hp' ? ?];
        simplify_eq/=; congruence.
Qed.

Lemma runs_take n s w l r w' :
  yields env TakeStream_poll (take_ s n) w l r w' <-> take_run s n w l r w'.
Proof.
  unfold take_. split.
  - remember (mkTake (Some s) n) as m eqn:Hm. intros Hr. revert s n Hm.
    induction Hr as [m w m' w' Hp|m w e m' w' Hp|m w v m' w1 e w2 Hp []
      |m w v m' w1 us w2 l r w3 Hp [-> ->] _ IH|m w m' w1 w2 l r w3 Hp He _ IH];
      intros s [|n] ->; cbn in Hp; simplify_eq; try (spoll_cases s w; simplify_eq).
    + left. repeat split. eexists. apply delivers_nil.
    + right. split; [cbn; lia|]. eapply runs_eof; eauto.
    + right. split; [cbn; lia|]. eapply runs_exception; eauto.
    + apply (take_run_item _ _ _ _ _ _ _ _ _ Esp). by apply IH.
    + destruct (IH s' (S n) eq_refl) as [(Hn & -> & s1 & Hd)|[Hn Hy]]; [left|right].
      * destruct l; [done|]. repeat split; [done|]. eauto with streams.
      * split; [done|]. eapply runs_pending; eauto.
  - intros [(<- & -> & s' & Hd)|[Hn Hy]].
    + induction Hd as [s w|s w v s1 w1 l s2 w2 Hp _ IH|s w s1 w1 w2 v l s3 w3 Hp He _ IH].
      * eapply runs_eof. done.
      * eapply (runs_item _ _ _ _ _ _ v _ w1 [v]); [|done|exact IH]. cbn. unfold spoll. by rewrite Hp.
      * eapply runs_pending; [|done|exact IH]. cbn. unfold spoll. by rewrite Hp.
    + revert n Hn. induction Hy as [s w s' w' Hp|s w e s' w' Hp|s w v s' w1 e w2 Hp []
        |s w v s' w1 us w2 l r w3 Hp [-> ->] _ IH|s w s' w1 w2 l r w3 Hp He _ IH];
        intros [|n] Hn; cbn in Hn; try lia.
      * eapply runs_eof. cbn. unfold spoll. by rewrite Hp.
      * eapply runs_exception. cbn. unfold spoll. by rewrite Hp.
      * eapply (runs_item _ _ _ _ _ _ v _ w1 [v]); [|done|apply (IH n); lia]. cbn. unfold spoll. by rewrite Hp.
      * eapply runs_pending; [|done|apply (IH (S n)); lia]. cbn. unfold spoll. by rewrite Hp.
Qed.

(** [andThen f]: each item is replaced by the result of the future that [f]
    makes of it; the next item is polled when that future is done. *)
Section AndThen.
Context {FutR U V : Type} `{FR : Future W FutR U}.
Context (f : T -> eff W FutR) (K : U -> W -> list V -> W -> Prop).
Context (KF : U -> W -> exception_wrapper -> W -> Prop).

(** The pending future [g] is polled to completion and its value consumed. *)
Definition serves (g : FutR) (w : W) (us : list V) (w' : W) : Prop :=
  exists u w1, completes env g w (VALUE u) w1 /\ K u w1 us w'.
Definition fails (g : FutR) (w : W) (e : exception_wrapper) (w' : W) : Prop :=
  completes env g w (EXCEPTION e) w' \/
  exists u w1, completes env g w (VALUE u) w1 /\ KF u w1 e w'.

Definition K_andThen (v : T) (w : W) (us : list V) (w' : W) : Prop :=
  exists g w1, f v w = (Ret g, w1) /\ serves g w1 us w'.
Definition KF_andThen (v : T) (w : W) (e : exception_wrapper) (w' : W) : Prop :=
  (exists x, f v w = (Throw x, w') /\ is_std x = true /\ e = Some x) \/
  exists g w1, f v w = (Ret g, w1) /\ fails g w1 e w'.

Abbreviation inner_runs := (runs env sp K_andThen KF_andThen).
Abbreviation outer_runs := (runs env AndThenStream_poll K KF).

(** A run that starts with a pending future. *)
Definition resumes (g : FutR) s w l r w' : Prop :=
  (exists us w1 k, serves g w us w1 /\ inner_runs s w1 k r w' /\ l = us ++ k) \/
  (exists e, fails g w e w' /\ l = [] /\ r = Some e).

Definition runs_from (o : option FutR) s w l r w' : Prop :=
  match o with None => inner_runs s w l r w' | Some g => resumes g s w l r w' end.

Lemma serves_pending g w g1 w1 w2 us w' :
  poll g w = (Ret (VALUE None), g1, w1) -> env w1 w2 -> serves g1 w2 us w' -> serves g w us w'.
Proof. intros Hp He (u & w3 & Hc & HK). exists u, w3. eauto with completion. Qed.

Lemma fails_pending g w g1 w1 w2 e w' :
  poll g w = (Ret (VALUE None), g1, w1) -> env w1 w2 -> fails g1 w2 e w' -> fails g w e w'.
Proof. intros Hp He [Hc|(u & w3 & Hc & HK)]; [left|right]; eauto with completion. Qed.

Lemma resumes_pending g w g1 w1 w2 s l r w' :
  poll g w = (Ret (VALUE None), g1, w1) -> env w1 w2 -> resumes g1 s w2 l r w' ->
  resumes g s w l r w'.
Proof.
  intros Hp He [(us & w3 & k & Hs & Hr & ->)|(e & Hf & -> & ->)]; [left|right];
    eauto 8 using serves_pending, fails_pending.
Qed.

(** The first item of the run of the inner stream starts its future. *)
Lemma resumes_item v g s w s' w1 w2 l r w' :
  sp s w = (Ret (VALUE (Some (Some v))), s', w1) -> f v w1 = (Ret g, w2) ->
  resumes g s' w2 l r w' -> inner_runs s w l r w'.
Proof.
  intros Hp Hf [(us & w3 & k & Hs & Hr & ->)|(e & Hg & -> & ->)].
  - eapply runs_item; [done| |done]. exists g, w2. auto.
  - eapply runs_fail; [done|]. right. eauto.
Qed.

Lemma andThen_sound o s w l r w' :
  outer_runs (mkAndThen (Some s) f o) w l r w' -> runs_from o s w l r w'.
Proof.
  remember (mkAndThen (Some s) f o) as m eqn:Hm. intros Hr. revert s o Hm.
  induction Hr as [m w m' w' Hp|m w e m' w' Hp|m w v m' w1 e w2 Hp HK
    |m w v m' w1 us w2 l r w3 Hp HK _ IH|m w m' w1 w2 l r w3 Hp He _ IH]; intros s o ->;
    unfold AndThenStream_poll in Hp; destruct o as [g|]; cbn in Hp;
    [|spoll_cases s w; simplify_eq; try (destruct (f _ _) as [[g|x|?|] wf] eqn:Ef; cbn in Hp;
      try destruct (is_std x) eqn:Hx; simplify_eq) ..];
    try (eapply resumes_item; [done..|]);
    try (unfold AndThenStream_poll_fut in Hp; destruct (poll g _) as [[R g'] wg] eqn:Eg;
      destruct R as [[[u|]|ex|]|?|?|]; cbn in Hp; simplify_eq);
    try solve [eapply runs_eof; eauto | eapply runs_exception; eauto
      | eapply runs_pending; [done..|]; by apply (IH _ None)
      | eapply resumes_pending; [done..|]; by apply (IH _ (Some _))
      | right; eexists; split; [|done]; unfold fails; eauto 8 with completion
      | left; do 3 eexists; split; [|split; [by apply (IH _ None)|done]];
        unfold serves; eauto 8 with completion ].
  eapply runs_fail; [done|]. left. eauto.
Qed.

Lemma serves_runs g s w us w1 k r w' :
  serves g w us w1 -> outer_runs (mkAndThen (Some s) f None) w1 k r w' ->
  outer_runs (mkAndThen (Some s) f (Some g)) w (us ++ k) r w'.
Proof.
  intros (u & wu & Hc & HK) Hr. remember (VALUE u) as t eqn:Ht. revert u Ht HK.
  induction Hc as [g w v g' wv Hp|g w e g' wv Hp|g w g1 wg w2 t wv Hp He _ IH];
    intros u Ht HK; simplify_eq.
  - eapply runs_item; [|done|done]. cbn. unfold AndThenStream_poll_fut. by rewrite Hp.
  - eapply runs_pending; [|done|by eapply IH]. cbn. unfold AndThenStream_poll_fut. by rewrite Hp.
Qed.

Lemma fails_runs g s w e w' :
  fails g w e w' -> outer_runs (mkAndThen (Some s) f (Some g)) w [] (Some e) w'.
Proof.
  intros [Hc|(u & wu & Hc & HK)].
  - remember (EXCEPTION e) as t eqn:Ht. revert Ht.
    induction Hc as [g w v g' wv Hp|g w ex g' wv Hp|g w g1 wg w2 t wv Hp He _ IH];
      intros Ht; simplify_eq.
    + eapply runs_exception. cbn. unfold AndThenStream_poll_fut. by rewrite Hp.
    + eapply runs_pending; [|done|by eapply IH]. cbn. unfold AndThenStream_poll_fut. by rewrite Hp.
  - remember (VALUE u) as t eqn:Ht. revert u Ht HK.
    induction Hc as [g w v g' wv Hp|g w ex g' wv Hp|g w g1 wg w2 t wv Hp He _ IH];
      intros u Ht HK; simplify_eq.
    + eapply runs_fail; [|done]. cbn. unfold AndThenStream_poll_fut. by rewrite Hp.
    + eapply runs_pending; [|done|by eapply IH]. cbn. unfold AndThenStream_poll_fut. by rewrite Hp.
Qed.

Lemma andThen_complete s w l r w' :
  inner_runs s w l r w' -> outer_runs (andThen_ s f) w l r w'.
Proof.
  unfold andThen_. induction 1 as [s w s' w' Hp|s w e s' w' Hp|s w v s' w1 e w2 Hp HK
      |s w v s' w1 us w2 l r w3 Hp HK _ IH|s w s' w1 w2 l r w3 Hp He _ IH].
  - eapply runs_eof. cbn. unfold spoll. by rewrite Hp.
  - eapply runs_exception. cbn. unfold spoll. by rewrite Hp.
  - destruct HK as [(x & Hf & Hx & ->)|(g & wg & Hf & Hg)].
    + eapply runs_exception. cbn. unfold spoll. rewrite Hp; cbn. by rewrite Hf, Hx.
    + eapply runs_first; [|by apply (fails_runs g s')]. cbn. unfold spoll. rewrite Hp; cbn. by rewrite Hf.
  - destruct HK as (g & wg & Hf & Hg).
    eapply runs_first; [|by eapply (serves_runs g s')]. cbn. unfold spoll. rewrite Hp; cbn. by rewrite Hf.
  - eapply runs_pending; [|done|done]. cbn. unfold spoll. by rewrite Hp.
Qed.
End AndThen.

(** [s.andThen(f)] serves every item of [s] in order: for each item the
    future made by [f] is polled to completion before the next item is asked
    for, its value takes the place of the item, and an exception from [f], from
    a future or from [s] ends the stream. *)
Theorem stream_andThen_spec {FutR U} `{Future W FutR U} (f : T -> eff W FutR) s w l r w' :
  yields env AndThenStream_poll (andThen_ s f) w l r w' <->
  runs env sp (K_andThen f K_record) (KF_andThen f K_total) s w l r w'.
Proof. split; [apply (andThen_sound f K_record K_total None)|apply andThen_complete]. Qed.

(** [s.take(n)] delivers the first [n] items of [s] without polling [s]
    again after the [n]th; if [s] ends or fails before, so does the result. *)
Theorem stream_take_spec n s w l r w' :
  yields env TakeStream_poll (take_ s n) w l r w' <->
  (length l = n /\ r = None /\ exists s', delivers s w l s' w') \/
  (length l < n /\ yields env sp s w l r w').
Proof. apply runs_take. Qed.

(** [s.forEach(f)] completes exactly as the run of [s] through [f] ends:
    [f] is called on each item in order, the future is ready at the end of the
    stream and fails with the first exception of [s] or of [f].  Every large
    enough bound on the polling loop gives the result. *)
Theorem stream_forEach_spec f s w t w' :
  (exists n, forall fuel, n <= fuel ->
     @completes W env _ _ (ForEachFuture_poll fuel) (forEach s f) w t w') <->
  (exists r, runs env sp (K_each f) (KF_each f) s w [] r w' /\ t = finish tt r).
Proof.
  split.
  - intros [n Hn]. eapply forEach_sound. by apply (Hn n).
  - intros (r & Hr & ->). by apply forEach_complete.
Qed.
End Laws.

(** ** Pipelines *)
Section Pipeline.
Context {W S0 T U : Type} {sp : Stream W S0 T} (env : W -> W -> Prop).
Context (p : T -> bool) (g : T -> U).

Definition pure_fn {A B} (h : A -> B) : A -> eff W B := fun a => eff_ret (h a).

(** The consumer made of a filter and a map that neither throw nor touch the
    world. *)
Abbreviation K_pipe := (K_filter (pure_fn p) (K_map (pure_fn g) K_record)).
Abbreviation KF_pipe := (KF_filter (pure_fn p) (KF_map (pure_fn g) K_total)).

Lemma K_pipe_iff v w us w' :
  K_pipe v w us w' <-> us = (if p v then [g v] else []) /\ w' = w.
Proof.
  unfold K_filter, K_map, K_record, pure_fn, eff_ret. split.
  - intros (b & w1 & Hb & HK). simplify_eq. destruct (p v); [|naive_solver].
    destruct HK as (u & w2 & Hu & -> & ->). by simplify_eq.
  - intros [-> ->]. exists (p v), w. split; [done|]. destruct (p v); [|done]. eauto 6.
Qed.

Lemma KF_pipe_iff v w e w' : KF_pipe v w e w' <-> False.
Proof.
  unfold KF_filter, KF_map, K_total, pure_fn, eff_ret. naive_solver.
Qed.

Lemma runs_pipe s w k r w' :
  runs env sp K_pipe KF_pipe s w k r w' <->
  exists l, yields env sp s w l r w' /\ k = g <$> List.filter p l.
Proof.
  split.
  - induction 1 as [s w s' w' Hp|s w e s' w' Hp|s w v s' w1 e w2 Hp HK
      |s w v s' w1 us w2 l r w3 Hp HK _ IH|s w s' w1 w2 l r w3 Hp He _ IH].
    + exists []. split; [by eapply runs_eof|done].
    + exists []. split; [by eapply runs_exception|done].
    + by apply KF_pipe_iff in HK.
    + apply K_pipe_iff in HK as [-> ->]. destruct IH as (l' & Hy & ->). exists (v :: l').
      split; [by apply (runs_item env sp _ _ s w v s' w1 [v] w1)|]. cbn. by destruct (p v).
    + destruct IH as (l' & Hy & ->). exists l'. split; [by eapply runs_pending|done].
  - intros (l & Hy & ->). unfold yields in Hy.
    induction Hy as [s w s' w' Hp|s w e s' w' Hp|s w v s' w1 e w2 Hp []
      |s w v s' w1 us w2 l r w3 Hp [-> ->] _ IH|s w s' w1 w2 l r w3 Hp He _ IH];
      [by eapply runs_eof|by eapply runs_exception| |by eapply runs_pending].
    replace (g <$> List.filter p ([v] ++ l))
      with ((if p v then [g v] else []) ++ (g <$> List.filter p l)) by (cbn; by destruct (p v)).
    eapply runs_item; [done| |exact IH]. by apply K_pipe_iff.
Qed.

(** The instance used by [s.filter(p).map(g)], with bound [fuel] on the loop of
    the filter. *)
Definition pipe_Stream (fuel : nat) : Stream W (MapStream W (FilterStream W S0 T) T U) U :=
  MapStream_poll (St := FilterStream_poll fuel).

(** C39: [s.filter(p).map(g).collect()] completes with the images under [g] of
    the items of [s] that satisfy [p], in order, and fails with the exception
    of [s] if [s] fails.  Every large enough bound on the polling loops gives
    the result. *)
Theorem stream_pipeline_spec s w t w' :
  (exists n, forall fuel, n <= fuel ->
     @completes W env _ _ (CollectStreamFuture_poll (St := pipe_Stream fuel) fuel)
       (collect (map_ (filter_ s (pure_fn p)) (pure_fn g))) w t w') <->
  (exists l r, yields env sp s w l r w' /\ t = finish (g <$> List.filter p l) r).
Proof.
  split.
  - intros [n Hn]. specialize (Hn n (le_n n)). apply collect_sound in Hn as (k & r & Hy & ->).
    apply runs_map, runs_filter_sound, runs_pipe in Hy as (l & Hy & ->). by exists l, r.
  - intros (l & r & Hy & ->).
    assert (runs env sp K_pipe KF_pipe s w (g <$> List.filter p l) r w') as Hr
      by (apply runs_pipe; eauto).
    apply runs_filter_complete in Hr as [n Hn].
    exists (Nat.max n (S (length (g <$> List.filter p l)))). intros fuel Hfuel.
    refine (collect_complete (sp := pipe_Stream fuel) env fuel
      (map_ (filter_ s (pure_fn p)) (pure_fn g)) [] w (g <$> List.filter p l) r w' _ _); [|lia].
    apply runs_map, Hn. lia.
Qed.
End Pipeline.

(** [nTimes(n)] counts from 0 to n - 1. *)
Lemma nTimes_yields {W} (env : W -> W -> Prop) (n : Z) w :
  (0 <= n < 2 ^ 31)%Z -> yields env nTimes_Stream (nTimes n) w (seqZ 0 n) None w.
Proof.
  unfold nTimes, makeIterStream. change (2 ^ 31)%Z with 2147483648%Z. intros Hn.
  assert (forall m : nat, (Z.of_nat m <= n)%Z ->
    yields env nTimes_Stream (mkIter (n - Z.of_nat m)%Z n) w
      (seqZ (n - Z.of_nat m) (Z.of_nat m)) None w) as H.
  { induction m as [|m IH]; intros Hm.
    - eapply runs_eof. unfold nTimes_Stream, IterStream_poll; cbn.
      rewrite decide_True by lia. done.
    - rewrite seqZ_cons by lia. rewrite Nat2Z.inj_succ, Z.pred_succ.
      eapply (runs_item _ _ _ _ _ _ (n - Z.succ (Z.of_nat m))%Z _ w [_] w); [|done|].
      + unfold nTimes_Stream, IterStream_poll; cbn. by rewrite decide_False by lia.
      + replace (IntIter.incr (n - Z.succ (Z.of_nat m))) with (n - Z.of_nat m)%Z.
        2: { unfold IntIter.incr, i32. change (2 ^ 31)%Z with 2147483648%Z.
             change (2 ^ 32)%Z with 4294967296%Z. rewrite Z.mod_small; lia. }
        replace (Z.succ (n - Z.succ (Z.of_nat m)))%Z with (n - Z.of_nat m)%Z by lia. apply IH. lia. }
  specialize (H (Z.to_nat n) ltac:(lia)). rewrite Z2Nat.id in H by lia.
  by rewrite Z.sub_diag in H.
Qed.

(** ** Iterating over a stream on the calling thread *)
Section Iterator.
Context {W S0 T : Type} {sp : Stream W S0 T} (env : W -> W -> Prop).

(** Polls until the stream is ready; the thread waits in between. *)
(** [src/include/futures/Stream.h:159-172] StreamSpawn::wait_stream *)
Inductive wait_stream : S0 -> W -> Try (option T) -> S0 -> W -> Prop :=
| wait_ready s w o s' w' :
    sp s w = (Ret (VALUE (Some o)), s', w') -> wait_stream s w (VALUE o) s' w'
| wait_exception s w e s' w' :
    sp s w = (Ret (EXCEPTION e), s', w') -> wait_stream s w (EXCEPTION e) s' w'
| wait_pending s w s1 w1 w2 r s' w' :
    sp s w = (Ret (VALUE None), s1, w1) -> env w1 w2 -> wait_stream s1 w2 r s' w' ->
    wait_stream s w r s' w'.

(** [src/include/futures/detail/StreamIterator.h:15-27] StreamIterator *)
Record StreamIterator := mkStreamIterator { spawn_ : option S0; item_ : option T }.

(** The [Try] says whether [throwIfFailed] threw. *)
(** [src/include/futures/detail/StreamIterator.h:29-39] StreamIterator::loadNext, increment *)
Inductive loadNext : StreamIterator -> W -> Try StreamIterator -> W -> Prop :=
| loadNext_none i w : loadNext (mkStreamIterator None i) w (VALUE (mkStreamIterator None i)) w
| loadNext_item s i w o s' w' :
    wait_stream s w (VALUE o) s' w' ->
    loadNext (mkStreamIterator (Some s) i) w
      (VALUE (mkStreamIterator (match o with Some _ => Some s' | None => None end) o)) w'
| loadNext_throw s i w e s' w' :
    wait_stream s w (EXCEPTION e) s' w' ->
    loadNext (mkStreamIterator (Some s) i) w (EXCEPTION e) w'.

(** The loop [for (; it != end; ++it) visit( *it)], from the iterator loaded
    last: the items visited, the exception that ended it. *)
(** [src/include/futures/detail/StreamIterator.h:41-54] StreamIterator::equal, dereference *)
Inductive visits : Try StreamIterator -> W -> list T -> option exception_wrapper -> W -> Prop :=
| visits_end i w : visits (VALUE (mkStreamIterator None i)) w [] None w
| visits_throw e w : visits (EXCEPTION e) w [] (Some e) w
| visits_item s v w it' w1 l r w2 :
    loadNext (mkStreamIterator (Some s) (Some v)) w it' w1 -> visits it' w1 l r w2 ->
    visits (VALUE (mkStreamIterator (Some s) (Some v))) w (v :: l) r w2.

Lemma wait_yields s w t s1 w1 :
  wait_stream s w t s1 w1 ->
  match t with
  | VALUE (Some v) => forall l r w', yields env sp s1 w1 l r w' -> yields env sp s w (v :: l) r w'
  | VALUE None => yields env sp s w [] None w1
  | EXCEPTION e => yields env sp s w [] (Some e) w1
  | NOTHING => False
  end.
Proof.
  induction 1 as [s w [v|] s' w' Hp|s w e s' w' Hp|s w s1 w1 w2 [[v|]|e|] s' w' Hp He _ IH];
    unfold yields in *; try done; eauto with streams.
  intros l r w2 Hy. by apply (runs_item env sp _ _ s w v s' w' [v] w').
Qed.

Lemma yields_wait s w l r w' :
  yields env sp s w l r w' ->
  match l, r with
  | v :: l, _ => exists s1 w1, wait_stream s w (VALUE (Some v)) s1 w1 /\ yields env sp s1 w1 l r w'
  | [], None => exists s1, wait_stream s w (VALUE None) s1 w'
  | [], Some e => exists s1, wait_stream s w (EXCEPTION e) s1 w'
  end.
Proof.
  unfold yields. induction 1 as [s w s' w' Hp|s w e s' w' Hp|s w v s' w1 e w2 Hp []
    |s w v s' w1 us w2 l r w3 Hp [-> ->] Hy IH|s w s' w1 w2 l r w3 Hp He _ IH];
    cbn; [eauto 6 using wait_stream..|].
  destruct l as [|v' l]; [destruct r|]; destruct IH as (s1 & IH); try destruct IH as (w4 & IH & Hy);
    eauto 6 using wait_stream.
Qed.

(** Iterating from [begin()] visits the items the stream yields, in order. *)
Lemma iterator_visits s i w l r w' :
  (exists it w1, loadNext (mkStreamIterator (Some s) i) w it w1 /\ visits it w1 l r w') <->
  yields env sp s w l r w'.
Proof.
  split.
  - intros (it & w1 & Hl & Hv). revert s i w Hl.
    induction Hv as [j w'|e w'|s1 v w' it' w2 l r w3 Hl1 _ IH]; intros s i w Hl;
      inversion Hl as [|? ? ? o s' ? Hw|? ? ? ? s' ? Hw]; subst; apply wait_yields in Hw.
    + by destruct j.
    + done.
    + simplify_eq. eauto.
  - revert s i w r w'. induction l as [|v l IH]; intros s i w r w' Hy; apply yields_wait in Hy.
    + destruct r as [e|]; destruct Hy as (s1 & Hw).
      * exists (EXCEPTION e), w'. split; [by eapply loadNext_throw|constructor].
      * eexists _, w'. split; [by eapply loadNext_item|constructor].
    + destruct Hy as (s1 & w1 & Hw & Hy). apply (IH s1 (Some v)) in Hy as (it & w2 & Hl & Hv).
      eexists _, w1. split; [by eapply loadNext_item|]. by eapply visits_item.
Qed.
End Iterator.
