(* ===== verification/Channels.v ===== *)
(** * Channels and promises

    Models [src/include/futures/channel/] and [src/include/futures/Promise.h].
    Every operation of a channel runs under the channel's mutex, so it is one
    atomic function on the state of the channel; besides its result it says
    which tasks it unparks.  The interleavings of senders and receiver are the
    sequences of operations. *)

From S2P Require Import Prelude Core Futures FutureLaws Streams.
Local Open Scope cpp_scope.

(** A task, by its id ([Task::Id]). *)
Definition Task := nat.

(** The outcome of an operation, the new channel, the tasks unparked. *)
Definition out (C A : Type) : Type := res A * C * list Task.

(** [src/include/futures/Task.h:80-84] CurrentTask::park *)
Definition CurrentTask_park (cur : option Task) : res Task :=
  match cur with Some t => Ret t | None => Abort "not in task context" end.

(** What one side of a channel promises to the task that waits on the other.
    [op] are the operations of the sending side, [armed t c] says that the
    receiver, task [t], was told to wait and nothing has arrived since. *)
Class WakesReceiver (C op P : Type) (exec : op -> C -> res unit * C * list Task)
    (pollc : option Task -> C -> out C (Poll P)) := {
  armed : Task -> C -> Prop;
  poll_arms t c c' woken :
    pollc (Some t) c = (Ret not_ready, c', woken) -> armed t c';
  armed_not_ready t c :
    armed t c -> exists c' woken, pollc (Some t) c = (Ret not_ready, c', woken);
  armed_or_woken t o c r c' woken :
    armed t c -> exec o c = (r, c', woken) -> armed t c' \/ t ∈ woken
}.

Section NoLostWakeup.
Context {C op P : Type} {exec : op -> C -> res unit * C * list Task}.
Context {pollc : option Task -> C -> out C (Poll P)} `{!WakesReceiver C op P exec pollc}.

(** The operations [os] performed in order, and every task they unpark. *)
Fixpoint exec_all (os : list op) (c : C) : C * list Task :=
  match os with
  | [] => (c, [])
  | o :: os =>
      let '(_, c1, woken) := exec o c in
      let '(c2, woken') := exec_all os c1 in (c2, woken ++ woken')
  end.

(** A receiver that was told to wait is woken as soon as a poll would give it
    something. *)
Lemma no_lost_wakeup t c c1 w1 os c2 woken :
  pollc (Some t) c = (Ret not_ready, c1, w1) -> exec_all os c1 = (c2, woken) ->
  t ∈ woken \/ exists c3 w3, pollc (Some t) c2 = (Ret not_ready, c3, w3).
Proof.
  intros Hp. apply poll_arms in Hp. revert c1 woken Hp.
  induction os as [|o os IH]; intros c1 woken Ha Ho; cbn in Ho.
  - simplify_eq. right. by apply armed_not_ready.
  - destruct (exec o c1) as [[r c4] w4] eqn:Eo.
    destruct (exec_all os c4) as [c5 w5] eqn:Eos. simplify_eq.
    destruct (armed_or_woken t o c1 r c4 w4 Ha Eo) as [Ha'|Hw]; [|set_solver].
    destruct (IH _ _ Ha' Eos) as [Hw|Hn]; [set_solver|by right].
Qed.
End NoLostWakeup.

(** ** OneshotChannel *)
Module Oneshot.
Section Oneshot.
Context {T : Type} `{Movable T}.

(** [src/include/futures/channel/OneShotChannel.h:12-16] OnshotChannelImpl::Status *)
Inductive Status := NotReady | Ready | Closed.
#[global] Instance Status_eq_dec : EqDecision Status.
Proof. solve_decision. Defined.

(** [src/include/futures/channel/OneShotChannel.h:71-75] OnshotChannelImpl *)
Record OnshotChannelImpl := mkOneshot {
  s_ : Status; v_ : option T; rx_task_ : option Task }.

(** [src/include/futures/channel/OneShotChannel.h:18-20] OnshotChannelImpl::OnshotChannelImpl *)
Definition empty : OnshotChannelImpl := mkOneshot NotReady None None.

(** [src/include/futures/channel/OneShotChannel.h:77-80] OnshotChannelImpl::notify *)
Definition notify (c : OnshotChannelImpl) : OnshotChannelImpl * list Task :=
  (mkOneshot (s_ c) (v_ c) None, match rx_task_ c with Some t => [t] | None => [] end).

(** [src/include/futures/channel/OneShotChannel.h:22-31] OnshotChannelImpl::send *)
Definition send (v : T) (c : OnshotChannelImpl) : out OnshotChannelImpl bool :=
  match s_ c with
  | Closed => (Ret false, c, [])
  | Ready => (Throw InvalidChannelStateException, c, [])
  | NotReady =>
      let '(c', woken) := notify (mkOneshot Ready (Some v) (rx_task_ c)) in (Ret true, c', woken)
  end.

Definition cancelled : Poll T := EXCEPTION (Some (FutureCancelledException CR_Unknown)).

(** [src/include/futures/channel/OneShotChannel.h:33-46] OnshotChannelImpl::poll *)
Definition poll (cur : option Task) (c : OnshotChannelImpl) : out OnshotChannelImpl (Poll T) :=
  match s_ c with
  | Closed => (Ret cancelled, c, [])
  | Ready =>
      match v_ c with
      | Some v => (Ret (VALUE (Some v)), mkOneshot Ready (Some (moved_from v)) (rx_task_ c), [])
      | None => (Ret cancelled, c, [])
      end
  | NotReady =>
      match CurrentTask_park cur with
      | Ret t => (Ret not_ready, mkOneshot NotReady (v_ c) (Some t), [])
      | r => (stop r, c, [])
      end
  end.

(** [src/include/futures/channel/OneShotChannel.h:51-56] OnshotChannelImpl::cancel *)
Definition cancel (c : OnshotChannelImpl) : out OnshotChannelImpl unit :=
  match s_ c with
  | Ready => (Throw InvalidChannelStateException, c, [])
  | _ => let '(c', woken) := notify (mkOneshot Ready (v_ c) (rx_task_ c)) in (Ret tt, c', woken)
  end.

(** [src/include/futures/channel/OneShotChannel.h:58-64] OnshotChannelImpl::closeSender *)
Definition closeSender (c : OnshotChannelImpl) : out OnshotChannelImpl unit :=
  match s_ c with
  | NotReady =>
      let '(c', woken) := notify (mkOneshot Closed (v_ c) (rx_task_ c)) in (Ret tt, c', woken)
  | _ => (Ret tt, c, [])
  end.

(** [src/include/futures/channel/OneShotChannel.h:66-69] OnshotChannelImpl::closeReceiver *)
Definition closeReceiver (c : OnshotChannelImpl) : out OnshotChannelImpl unit :=
  (Ret tt, mkOneshot Closed (v_ c) (rx_task_ c), []).

(** The operations of the sending side. *)
Inductive op := Send (v : T) | Cancel | CloseSender.

Definition exec (o : op) (c : OnshotChannelImpl) : res unit * OnshotChannelImpl * list Task :=
  match o with
  | Send v => let '(r, c', woken) := send v c in ((let! _ := r in Ret tt), c', woken)
  | Cancel => cancel c
  | CloseSender => closeSender c
  end.

(** Operations of the sender and polls of the receiver, in some order. *)
Inductive event := Tx (o : op) | Rx (cur : option Task).

Definition apply_event (e : event) (c : OnshotChannelImpl) : OnshotChannelImpl :=
  match e with Tx o => snd (fst (exec o c)) | Rx cur => snd (fst (poll cur c)) end.

Definition after (l : list event) (c : OnshotChannelImpl) : OnshotChannelImpl :=
  fold_left (fun c e => apply_event e c) l c.

(** What the sender said first. *)
Fixpoint verdict (l : list event) : option op :=
  match l with
  | [] => None
  | Tx o :: _ => Some o
  | Rx _ :: l => verdict l
  end.

(** Whether the value has been polled off already. *)
Fixpoint polled_after (l : list event) : bool :=
  match l with
  | [] => false
  | Tx _ :: l => existsb (fun e => match e with Rx _ => true | Tx _ => false end) l
  | Rx _ :: l => polled_after l
  end.

#[global] Instance oneshot_wakes : WakesReceiver OnshotChannelImpl op T exec poll.
Proof.
  refine {| armed t c := s_ c = NotReady /\ rx_task_ c = Some t |}.
  - intros t [[] v r] c' woken Hp; cbn in *; try done; [by simplify_eq|by destruct v].
  - intros t [[] v r] [Hs Hr]; cbn in *; try done. eauto.
  - intros t [u| |] [[] v r] res c' woken [Hs Hr]; cbn in *; simplify_eq; intros; simplify_eq; set_solver.
Defined.

Lemma verdict_snoc l e :
  verdict (l ++ [e]) =
  match verdict l with Some o => Some o | None => match e with Tx o => Some o | Rx _ => None end end.
Proof. induction l as [|[o|cur] l IH]; cbn; auto. Qed.

Lemma polled_after_snoc l e :
  polled_after (l ++ [e]) =
  polled_after l || match verdict l, e with Some _, Rx _ => true | _, _ => false end.
Proof.
  induction l as [|[o|cur] l IH]; cbn; auto; [by destruct e|].
  rewrite existsb_app. cbn. by rewrite orb_false_r.
Qed.

(** What the channel holds, from what the sender said first. *)
Definition settled (l : list event) (c : OnshotChannelImpl) : Prop :=
  match verdict l with
  | None => s_ c = NotReady /\ v_ c = None
  | Some (Send v) => s_ c = Ready /\ exists u, v_ c = Some u /\ (polled_after l = false -> u = v)
  | Some _ => s_ c <> NotReady /\ v_ c = None
  end.

Lemma settled_after l : settled l (after l empty).
Proof.
  induction l as [|e l IH] using rev_ind; [done|].
  unfold after. rewrite fold_left_app. cbn. fold (after l empty). revert IH.
  unfold settled. rewrite verdict_snoc, polled_after_snoc.
  destruct (after l empty) as [s v r]; destruct (verdict l) as [[u| |]|] eqn:Hv; cbn.
  - intros [-> (x & -> & Hx)]. destruct e as [[]|cur]; cbn; rewrite ?orb_false_r, ?orb_true_r; eauto.
    split; [done|]. eexists. split; [done|]. done.
  - intros [Hs ->]. destruct e as [[]|cur], s; cbn; by try split.
  - intros [Hs ->]. destruct e as [[]|cur], s; cbn; by try split.
  - intros [-> ->]. destruct e as [[]|cur]; cbn; eauto. destruct cur; auto.
Qed.

(** What the first word of the sender makes the receiver see. *)
Definition answer (o : option op) : Poll T :=
  match o with
  | None => not_ready
  | Some (Send v) => makePollReady v
  | Some _ => cancelled
  end.

(** A one-shot channel delivers what its sender says first and nothing
    else.  After any interleaving of sends, cancellation, closing and polls,
    the next poll of a receiver that has not yet been given a value sees the
    value sent if the sender's first operation was a send, a cancellation if it
    was a cancel or the destruction of the sender, and [not_ready] if there was
    none.  And whoever was told to wait is unparked by the operations that
    make a later poll succeed. *)
Theorem oneshot_spec :
  (forall l t, polled_after l = false ->
     fst (fst (poll (Some t) (after l empty))) = Ret (answer (verdict l))) /\
  (forall l t c1 w1 os c2 woken,
     poll (Some t) (after l empty) = (Ret not_ready, c1, w1) ->
     exec_all (exec := exec) os c1 = (c2, woken) ->
     t ∈ woken \/ exists c3 w3, poll (Some t) c2 = (Ret not_ready, c3, w3)).
Proof.
  split; [|intros l t; apply no_lost_wakeup].
  intros l t Hl. pose proof (settled_after l) as Hs. unfold settled in Hs.
  destruct (after l empty) as [s v r]; destruct (verdict l) as [[u| |]|]; cbn in *.
  - destruct Hs as [-> (x & -> & Hx)]. cbn. by rewrite Hx.
  - destruct Hs as [Hs ->]. by destruct s.
  - destruct Hs as [Hs ->]. by destruct s.
  - by destruct Hs as [-> ->].
Qed.
End Oneshot.
Arguments OnshotChannelImpl : clear implicits.
Arguments op : clear implicits.
Arguments event : clear implicits.
End Oneshot.

(** ** Promise *)
Section Promise.
Context {T : Type} `{Movable T}.
Context (cur : option Task).
Import Oneshot.

Abbreviation Chan := (OnshotChannelImpl (Try T)).

(** The channel, and what was done to it on the sending side. *)
Definition PW : Type := Chan * list (op (Try T)).

(** [recv_] is [false] once the receiver was moved out or never set. *)
(** [src/include/futures/Promise.h:41-44] PromiseFuture *)
Record PromiseFuture := mkPromiseFuture { pf_recv : bool; pf_v : Try T }.

(** [src/include/futures/Promise.h:16-28] PromiseFuture::poll *)
Definition PromiseFuture_poll (f : PromiseFuture) (w : PW) : res (Poll T) * PromiseFuture * PW :=
  if Try_.hasException (pf_v f) || Try_.hasValue (pf_v f) then
    (makePollReady_Try (pf_v f), mkPromiseFuture (pf_recv f) (moved_from (pf_v f)), w)
  else if pf_recv f then
    let '(r, c', _) := poll cur (fst w) in
    let w' := (c', snd w) in
    match r with
    | Ret (EXCEPTION e) => (Ret (EXCEPTION e), f, w')
    | Ret (VALUE (Some t)) => (makePollReady_Try t, f, w')
    | Ret (VALUE None) => (Ret not_ready, f, w')
    | Ret NOTHING => (Throw UsingUninitializedTry, f, w')
    | r => (stop r, f, w')
    end
  else (Abort "impl_.get() != nullptr", f, w).
#[global] Instance PromiseFuture_Future : Future PW PromiseFuture T := PromiseFuture_poll.

(** [src/include/futures/Promise.h:74-77] Promise *)
Record Promise := mkPromise { r_valid : bool }.

(** [src/include/futures/Promise.h:50-54] Promise::Promise *)
Definition Promise_new : Promise * PW := (mkPromise true, (empty, [])).

(** [src/include/futures/Promise.h:56-59] Promise::getFuture *)
Definition Promise_getFuture (p : Promise) : res PromiseFuture * Promise :=
  if r_valid p then (Ret (mkPromiseFuture true NOTHING), mkPromise false)
  else (Throw PromiseException, p).

(** The sending side acts on the channel and is recorded. *)
Definition act_on (o : op (Try T)) (w : PW) : res unit * PW :=
  let '(r, c', _) := exec o (fst w) in (r, (c', snd w ++ [o])).

(** [src/include/futures/Promise.h:61-63] Promise::cancel *)
Definition Promise_cancel (w : PW) : res unit * PW := act_on Cancel w.

(** [src/include/futures/Promise.h:65-68] Promise::setValue *)
Definition Promise_setValue (v : T) (w : PW) : res unit * PW := act_on (Send (VALUE v)) w.

(** [src/include/futures/Promise.h:70-72] Promise::setException *)
Definition Promise_setException (e : exception_wrapper) (w : PW) : res unit * PW :=
  act_on (Send (EXCEPTION e)) w.

(** [src/include/futures/Promise.h:85-89] makeReadyPromiseFuture *)
Definition makeReadyPromiseFuture (v : T) : PromiseFuture := mkPromiseFuture false (VALUE v).

(** Between two polls the owner of the promise sets a value or an exception,
    cancels, or destroys the promise, any number of times. *)
Inductive promise_step : PW -> PW -> Prop :=
| promise_set_value v w : promise_step w (snd (Promise_setValue v w))
| promise_set_exception e w : promise_step w (snd (Promise_setException e w))
| promise_cancel w : promise_step w (snd (Promise_cancel w))
| promise_destroy w : promise_step w (snd (act_on CloseSender w)).

(** What the first operation of the owner resolves the promise to. *)
Definition resolved (o : op (Try T)) : Try T :=
  match o with
  | Send t => t
  | _ => EXCEPTION (Some (FutureCancelledException CR_Unknown))
  end.

(** The channel agrees with the record. *)
Definition agrees (w : PW) : Prop :=
  match snd w with
  | [] => s_ (fst w) = NotReady /\ v_ (fst w) = None
  | Send NOTHING :: _ => False
  | Send t :: _ => s_ (fst w) = Ready /\ v_ (fst w) = Some t
  | _ :: _ => s_ (fst w) <> NotReady /\ v_ (fst w) = None
  end.

Lemma act_on_agrees o w : o <> Send NOTHING -> agrees w -> agrees (snd (act_on o w)).
Proof.
  destruct w as [[s v r] l]. unfold agrees, act_on; cbn. intros Ho.
  destruct l as [|[[]| |] l]; cbn; intros Hw; try done; destruct Hw as [Hs ->];
    destruct o as [[]| |], s; cbn in *; try done; auto.
Qed.

Lemma promise_steps_agree w w' : rtc promise_step w w' -> agrees w -> agrees w'.
Proof.
  induction 1 as [|w w1 w' Hs _ IH]; [done|]. intros Hw. apply IH.
  destruct Hs; by apply act_on_agrees.
Qed.

Abbreviation waiting := (mkPromiseFuture true NOTHING).

(** One poll of a promise whose owner has acted resolves it; otherwise the
    channel still agrees with the record. *)
Lemma promise_poll w :
  agrees w ->
  match snd w with
  | o :: _ => exists w', snd w' = snd w /\
      match resolved o with
      | VALUE v => PromiseFuture_poll waiting w = (Ret (VALUE (Some v)), waiting, w')
      | EXCEPTION e => PromiseFuture_poll waiting w = (Ret (EXCEPTION e), waiting, w')
      | NOTHING => False
      end
  | [] => match PromiseFuture_poll waiting w with
          | (Ret p, f', w') => p = not_ready /\ f' = waiting /\ agrees w' /\ snd w' = []
          | _ => cur = None
          end
  end.
Proof.
  destruct w as [[s v r] l]. unfold agrees, PromiseFuture_poll; cbn.
  destruct l as [|[[x|e|]| |] l]; cbn; try done; intros [Hs ->].
  - rewrite Hs. cbn. by destruct cur.
  - rewrite Hs. cbn. eexists. by split; [|reflexivity].
  - rewrite Hs. cbn. eexists. by split; [|reflexivity].
  - destruct s; [done|cbn; eexists; by split; [|reflexivity]..].
  - destruct s; [done|cbn; eexists; by split; [|reflexivity]..].
Qed.

(** The future of a promise completes with what the owner of the promise
    did first, whatever the interleaving of the polls with the owner's
    actions: the value or the exception that was set, or cancellation if the
    promise was cancelled or destroyed before.  Once the owner has acted, the
    next poll completes. *)
Theorem promise_spec :
  (forall r c h, completes (rtc promise_step) waiting (empty, []) r (c, h) ->
     exists o h', h = o :: h' /\ r = resolved o) /\
  (forall w o h, rtc promise_step (empty, []) w -> snd w = o :: h ->
     exists w', snd w' = snd w /\ completes (rtc promise_step) waiting w (resolved o) w').
Proof.
  assert (agrees (empty, [])) as H0 by done. split.
  - intros r c h. generalize (@empty (Try T), @nil (op (Try T))) H0. clear H0.
    intros w Hw Hc. remember (c, h) as w' eqn:Hw'. remember waiting as f eqn:Hf.
    induction Hc as [f w v f' w1 Hp|f w e f' w1 Hp|f w f1 w1 w2 r w3 Hp He _ IH]; subst;
      pose proof (promise_poll w Hw) as Hpp; destruct (snd w) as [|o l] eqn:Hl;
      unfold Futures.poll, PromiseFuture_Future in Hp; try rewrite Hp in Hpp.
    + naive_solver.
    + destruct Hpp as (w' & Hh & Hr). exists o, l. destruct (resolved o); naive_solver.
    + naive_solver.
    + destruct Hpp as (w' & Hh & Hr). exists o, l. destruct (resolved o); naive_solver.
    + destruct Hpp as (_ & -> & Hw1 & _). apply IH; [|done|done].
      by eapply promise_steps_agree.
    + destruct Hpp as (w' & Hh & Hr). destruct (resolved o); naive_solver.
  - intros w o h Hr Hh. apply promise_steps_agree in Hr as Hw; [|done].
    pose proof (promise_poll w Hw) as Hpp. rewrite Hh in *.
    destruct Hpp as (w' & Hs & Hp). exists w'. split; [done|].
    destruct (resolved o); [by eapply completes_value|by eapply completes_exception|done].
Qed.
End Promise.

(** ** UnboundedMPSCChannel *)
Module MPSC.
Section MPSC.
Context {T : Type}.

(** [src/include/futures/channel/UnboundedMPSCChannel.h:70-77] UnboundedMPSCChannelImpl *)
Record UnboundedMPSCChannelImpl := mkMPSC {
  q_ : list T; rx_task_ : option Task; recv_closed_ : bool; sender_closed_ : bool; senders_ : Z }.

(** [src/include/futures/channel/UnboundedMPSCChannel.h:16-17] UnboundedMPSCChannelImpl::UnboundedMPSCChannelImpl *)
Definition empty : UnboundedMPSCChannelImpl := mkMPSC [] None false false 0.

Definition wake (c : UnboundedMPSCChannelImpl) : list Task :=
  match rx_task_ c with Some t => [t] | None => [] end.

(** [src/include/futures/channel/UnboundedMPSCChannel.h:19-29] UnboundedMPSCChannelImpl::send *)
Definition send (v : T) (c : UnboundedMPSCChannelImpl) : out UnboundedMPSCChannelImpl bool :=
  if recv_closed_ c then (Ret false, c, [])
  else (Ret true, mkMPSC (q_ c ++ [v]) (rx_task_ c) (recv_closed_ c) (sender_closed_ c) (senders_ c), wake c).

(** [src/include/futures/channel/UnboundedMPSCChannel.h:31-46] UnboundedMPSCChannelImpl::poll *)
Definition poll (cur : option Task) (c : UnboundedMPSCChannelImpl)
  : out UnboundedMPSCChannelImpl (Poll T) :=
  if recv_closed_ c then (Ret (EXCEPTION (Some InvalidPollStateException)), c, [])
  else
    match q_ c with
    | [] =>
        if sender_closed_ c then
          (Ret (EXCEPTION (Some (FutureCancelledException CR_Unknown))),
           mkMPSC [] None (recv_closed_ c) (sender_closed_ c) (senders_ c), [])
        else
          match CurrentTask_park cur with
          | Ret t => (Ret not_ready, mkMPSC [] (Some t) (recv_closed_ c) (sender_closed_ c) (senders_ c), [])
          | r => (stop r, c, [])
          end
    | v :: q => (Ret (makePollReady v), mkMPSC q (rx_task_ c) (recv_closed_ c) (sender_closed_ c) (senders_ c), [])
    end.

(** [src/include/futures/channel/UnboundedMPSCChannel.h:48-50] UnboundedMPSCChannelImpl::addSender *)
Definition addSender (c : UnboundedMPSCChannelImpl) : UnboundedMPSCChannelImpl :=
  mkMPSC (q_ c) (rx_task_ c) (recv_closed_ c) (sender_closed_ c) (u64 (senders_ c + 1)).

(** [closeSender] is not under the mutex as a whole: the decrement of the
    atomic counter, then, if it was the last one, the block under the lock. *)
(** [src/include/futures/channel/UnboundedMPSCChannel.h:54-55] UnboundedMPSCChannelImpl::closeSender *)
Definition closeSender_sub (c : UnboundedMPSCChannelImpl) : bool * UnboundedMPSCChannelImpl :=
  (bool_decide (senders_ c <= 1)%Z,
   mkMPSC (q_ c) (rx_task_ c) (recv_closed_ c) (sender_closed_ c) (u64 (senders_ c - 1))).

(** [src/include/futures/channel/UnboundedMPSCChannel.h:56-58] UnboundedMPSCChannelImpl::closeSender *)
Definition closeSender_lock (c : UnboundedMPSCChannelImpl) : out UnboundedMPSCChannelImpl unit :=
  (Ret tt, mkMPSC (q_ c) (rx_task_ c) (recv_closed_ c) true (senders_ c), wake c).

(** [src/include/futures/channel/UnboundedMPSCChannel.h:62-66] UnboundedMPSCChannelImpl::closeReceiver *)
Definition closeReceiver (c : UnboundedMPSCChannelImpl) : out UnboundedMPSCChannelImpl unit :=
  (Ret tt, mkMPSC (q_ c) None true (sender_closed_ c) (senders_ c), []).

(** [src/include/futures/channel/UnboundedMPSCChannel.h:68-68] UnboundedMPSCChannelImpl::cancel *)
Definition cancel (c : UnboundedMPSCChannelImpl) : out UnboundedMPSCChannelImpl unit :=
  (Throw InvalidChannelStateException, c, []).

(** The operations of the sending side. *)
Inductive op := Send (v : T) | Cancel | AddSender | CloseSub | CloseLock.

Definition exec (o : op) (c : UnboundedMPSCChannelImpl)
  : res unit * UnboundedMPSCChannelImpl * list Task :=
  match o with
  | Send v => let '(r, c', woken) := send v c in ((let! _ := r in Ret tt), c', woken)
  | Cancel => cancel c
  | AddSender => (Ret tt, addSender c, [])
  | CloseSub => (Ret tt, snd (closeSender_sub c), [])
  | CloseLock => closeSender_lock c
  end.

#[global] Instance mpsc_wakes : WakesReceiver UnboundedMPSCChannelImpl op T exec poll.
Proof.
  refine {| armed t c := q_ c = [] /\ recv_closed_ c = false /\ sender_closed_ c = false /\
                         rx_task_ c = Some t |}.
  - intros t [[|v q] r [] [] n] c' woken Hp; unfold poll in *; cbn in *; try done; by simplify_eq.
  - intros t [q r rc sc n] (Hq & Hrc & Hsc & Hr); cbn in *; subst. cbn. eauto.
  - intros t o [q r rc sc n] res c' woken (Hq & Hrc & Hsc & Hr) He; cbn in *; subst.
    destruct o; cbn in He; unfold cancel, closeSender_lock in He; simplify_eq; cbn;
      [right|by left..|right]; rewrite elem_of_cons; by left.
Defined.

(** *** The life of a channel *)

(** The channel, the sender handles that refer to it, the destructors of
    handles that have decremented the counter to zero and have still to take
    the lock, and the values accepted and delivered so far. *)
Record life := mkLife {
  chan : UnboundedMPSCChannelImpl; live : nat; closing : nat; accepted : list T; delivered : list T }.

(** [src/include/futures/channel/UnboundedMPSCChannel.h:102-108] makeUnboundedMPSCChannel *)
Definition makeUnboundedMPSCChannel : life := mkLife (addSender empty) 1 0 [] [].

(** What can happen: a live handle sends, is copied or destroyed; a destructor
    goes on; the receiver is polled or destroyed. *)
(** [src/include/futures/channel/ChannelBase.h:19-89] BasicSender, BasicReceiver *)
Inductive lives : life -> life -> Prop :=
| lives_send v c n k a d r c' woken :
    0 < n -> send v c = (Ret r, c', woken) ->
    lives (mkLife c n k a d) (mkLife c' n k (if r then a ++ [v] else a) d)
| lives_copy c n k a d :
    0 < n -> lives (mkLife c n k a d) (mkLife (addSender c) (S n) k a d)
| lives_destroy c n k a d :
    lives (mkLife c (S n) k a d)
      (mkLife (snd (closeSender_sub c)) n (if fst (closeSender_sub c) then S k else k) a d)
| lives_destroy_lock c n k a d :
    lives (mkLife c n (S k) a d) (mkLife (snd (fst (closeSender_lock c))) n k a d)
| lives_poll cur c n k a d p c' woken :
    poll cur c = (Ret p, c', woken) ->
    lives (mkLife c n k a d)
      (mkLife c' n k a (match p with VALUE (Some v) => d ++ [v] | _ => d end))
| lives_close_receiver c n k a d :
    lives (mkLife c n k a d) (mkLife (snd (fst (closeReceiver c))) n k a d).

Definition life_inv (x : life) : Prop :=
  accepted x = delivered x ++ q_ (chan x) /\
  senders_ (chan x) = (Z.of_nat (live x)) /\
  (sender_closed_ (chan x) = true \/ 0 < closing x <-> live x = 0).

Lemma life_inv_step x y :
  (Z.of_nat (live y) < 2 ^ 64)%Z -> life_inv x -> lives x y -> life_inv y.
Proof.
  intros Hb (Hq & Hn & Hc) Hs. destruct Hs; cbn in *; unfold life_inv; cbn.
  - unfold send in *. destruct (recv_closed_ c); simplify_eq; cbn; auto.
    by rewrite <-app_assoc.
  - repeat split; auto; [|intros H'; apply Hc in H'; lia|lia]. unfold u64.
    change (2 ^ 64)%Z with 18446744073709551616%Z in *. rewrite Z.mod_small; lia.
  - rewrite Hn. repeat split; auto.
    + unfold u64. change (2 ^ 64)%Z with 18446744073709551616%Z in *. rewrite Z.mod_small; lia.
    + case_bool_decide; [lia|]. intros H'. apply Hc in H'. lia.
    + intros ->. rewrite bool_decide_true by lia. lia.
  - repeat split; auto. intros _. apply Hc. right. lia.
  - unfold poll in *. destruct (recv_closed_ c); [by simplify_eq|].
    destruct (q_ c) as [|v q] eqn:Eq.
    + destruct (sender_closed_ c) eqn:Es; [by simplify_eq/=|]. by destruct cur; simplify_eq/=.
    + simplify_eq/=. by rewrite <-app_assoc.
  - auto.
Qed.

(** Fewer than 2^64 handles exist at any time. *)
Definition lives_bounded (x y : life) : Prop := lives x y /\ (Z.of_nat (live y) < 2 ^ 64)%Z.

Lemma life_inv_reachable x : rtc lives_bounded makeUnboundedMPSCChannel x -> life_inv x.
Proof.
  intros Hr. assert (life_inv makeUnboundedMPSCChannel) as H0.
  { unfold life_inv; cbn. repeat split; [|done]. intros [?|?]; [done|lia]. }
  revert H0. induction Hr as [|x y z [Hs Hb] _ IH]; [done|]. intros Hx.
  apply IH. by eapply life_inv_step.
Qed.

(** C5: An unbounded channel is a FIFO queue from any number of senders to one
    receiver.  After any interleaving of sends, copies and destructions of
    sender handles and polls: the values delivered, followed by those still
    queued, are the values whose send returned true, in order; a poll delivers
    the oldest of the undelivered values, and reports cancellation only when
    there are none and the last sender handle is gone; and a receiver told to
    wait is unparked by any operation that makes a later poll succeed. *)
Theorem mpsc_spec x :
  rtc lives_bounded makeUnboundedMPSCChannel x ->
  accepted x = delivered x ++ q_ (chan x) /\
  (forall t, recv_closed_ (chan x) = false ->
     fst (fst (poll (Some t) (chan x))) =
     Ret (match drop (length (delivered x)) (accepted x) with
          | v :: _ => makePollReady v
          | [] => if sender_closed_ (chan x) then EXCEPTION (Some (FutureCancelledException CR_Unknown))
                  else not_ready
          end)) /\
  (sender_closed_ (chan x) = true -> live x = 0) /\
  (live x = 0 -> closing x = 0 -> sender_closed_ (chan x) = true) /\
  (forall t c1 w1 os c2 woken,
     poll (Some t) (chan x) = (Ret not_ready, c1, w1) ->
     exec_all (exec := exec) os c1 = (c2, woken) ->
     t ∈ woken \/ exists c3 w3, poll (Some t) c2 = (Ret not_ready, c3, w3)).
Proof.
  intros Hr. apply life_inv_reachable in Hr as (Hq & Hn & Hc). split; [done|].
  split; [|split; [|split; [|intros t; apply no_lost_wakeup]]].
  - intros t Hrc. rewrite Hq, drop_app_length. unfold poll. rewrite Hrc.
    destruct (q_ (chan x)); [|done]. by destruct (sender_closed_ (chan x)).
  - intros Hs. apply Hc. by left.
  - intros Hl Hk. apply Hc in Hl as [?|?]; [done|lia].
Qed.

(** Copy assignment makes one more handle refer to the channel without counting
    it. *)
(** [src/include/futures/channel/UnboundedMPSCChannel.h:97-99] UnboundedMPSCChannelSender::operator= *)
Definition sender_assign (x : life) : life :=
  mkLife (chan x) (S (live x)) (closing x) (accepted x) (delivered x).

(** Then destroying one of the two handles closes the channel under the other. *)
Lemma assign_closes_early :
  exists z, rtc lives (sender_assign makeUnboundedMPSCChannel) z /\
    live z = 1 /\ sender_closed_ (chan z) = true.
Proof.
  eexists. split; [|split; [|]].
  - eapply rtc_l; [apply lives_destroy|]. cbn. rewrite bool_decide_true by done.
    eapply rtc_l; [apply lives_destroy_lock|]. apply rtc_refl.
  - done.
  - done.
Qed.
End MPSC.
Arguments UnboundedMPSCChannelImpl : clear implicits.
Arguments life : clear implicits.
End MPSC.

(** ** A receiver as a stream *)
Section ReceiverStream.
Context {C T : Type} (pollc : option Task -> C -> out C (Poll T)) (cur : option Task).

(** [src/include/futures/channel/ChannelStream.h:17-30] ReceiverStream::poll *)
Definition ReceiverStream_poll (s : unit) (c : C) : res (Poll (option T)) * unit * C :=
  let '(r, c', _) := pollc cur c in
  match r with
  | Ret (EXCEPTION (Some (FutureCancelledException _))) => (Ret (makePollReady None), s, c')
  | Ret (EXCEPTION e) => (Ret (EXCEPTION e), s, c')
  | Ret (VALUE (Some v)) => (Ret (makePollReady (Some v)), s, c')
  | Ret (VALUE None) => (Ret not_ready, s, c')
  | Ret NOTHING => (Throw UsingUninitializedTry, s, c')
  | r => (stop r, s, c')
  end.
End ReceiverStream.

(** A channel that is filled and closed before it is read yields its queue. *)
Lemma receiver_stream_drains {T} (env : MPSC.UnboundedMPSCChannelImpl T -> MPSC.UnboundedMPSCChannelImpl T -> Prop)
    cur (c : MPSC.UnboundedMPSCChannelImpl T) :
  MPSC.recv_closed_ c = false -> MPSC.sender_closed_ c = true ->
  exists c', yields env (ReceiverStream_poll MPSC.poll cur) tt c (MPSC.q_ c) None c' /\ MPSC.q_ c' = [].
Proof.
  destruct c as [q r rc sc n]; cbn. intros -> ->. revert r.
  induction q as [|v q IH]; intros r.
  - eexists. split; [eapply runs_eof; unfold ReceiverStream_poll; reflexivity|done].
  - destruct (IH r) as (c' & Hy & Hq). exists c'. split; [|done].
    eapply (runs_item _ _ _ _ _ _ v tt (MPSC.mkMPSC q r false true n) [v]); [done|done|exact Hy].
Qed.

(** Two sends and a poll on a fresh channel. *)
Definition sent_two : MPSC.life Z :=
  MPSC.mkLife (MPSC.mkMPSC [8%Z] None false false 1) 1 0 [7%Z; 8%Z] [7%Z].

Lemma mpsc_spec_witness :
  rtc MPSC.lives_bounded MPSC.makeUnboundedMPSCChannel sent_two /\
  fst (fst (MPSC.poll (Some 5) (MPSC.chan sent_two))) = Ret (makePollReady 8%Z).
Proof.
  assert (rtc MPSC.lives_bounded MPSC.makeUnboundedMPSCChannel sent_two) as Hr.
  { set (ch := fun q : list Z => MPSC.mkMPSC q None false false 1%Z).
    apply (rtc_l _ _ (MPSC.mkLife (ch [7%Z]) 1 0 [7%Z] []));
      [split; [apply (MPSC.lives_send 7%Z (ch []) 1 0 [] [] true (ch [7%Z]) []); [lia|done]|done]|].
    apply (rtc_l _ _ (MPSC.mkLife (ch [7%Z; 8%Z]) 1 0 [7%Z; 8%Z] []));
      [split; [apply (MPSC.lives_send 8%Z (ch [7%Z]) 1 0 [7%Z] [] true (ch [7%Z; 8%Z]) []); [lia|done]|done]|].
    apply (rtc_l _ _ sent_two);
      [split; [apply (MPSC.lives_poll (Some 5) (ch [7%Z; 8%Z]) 1 0 [7%Z; 8%Z] [] (makePollReady 7%Z) (ch [8%Z]) []); done|done]|].
    apply rtc_refl. }
  split; [exact Hr|].
  exact (proj1 (proj2 (MPSC.mpsc_spec sent_two Hr)) 5 eq_refl).
Defined.
