(* ===== verification/Buffered.v ===== *)
(** * BufferedChannel

    Models [src/include/futures/channel/BufferedChannel.h].  The waiters are
    heap objects that live as long as the futures that own them and are linked
    into the wait lists of the channel; they are kept in two stores indexed by
    address, and the intrusive lists are lists of addresses.  All operations
    run under the channel's mutex.  Using a waiter whose channel pointer was
    reset locks a mutex through a null pointer: [Abort]. *)

From S2P Require Import Prelude Core Futures FutureLaws Streams Channels.
Local Open Scope cpp_scope.

Section Buffered.
Context {T : Type} `{Movable T}.

Definition addr := nat.

(** [src/include/futures/channel/BufferedChannel.h:52-54] ReadWaiter *)
Record ReadWaiter := mkReadWaiter { rw_ptr : bool; rw_v : Either Task T }.

(** [src/include/futures/channel/BufferedChannel.h:94-96] WriteWaiter *)
Record WriteWaiter := mkWriteWaiter { ww_ptr : bool; ww_v : option (Task * T) }.

(** [src/include/futures/channel/BufferedChannel.h:171-178] BufferedChannel *)
Record BufferedChannel := mkBuffered {
  max_size_ : nat;
  q_ : list T;
  writers_ : list addr;
  readers_ : list addr;
  rheap : gmap addr ReadWaiter;
  wheap : gmap addr WriteWaiter
}.

(** [src/include/futures/channel/BufferedChannel.h:113-114] BufferedChannel::BufferedChannel *)
Definition makeBuffered (n : nat) : BufferedChannel := mkBuffered n [] [] [] ∅ ∅.

Definition set_q (q : list T) (c : BufferedChannel) : BufferedChannel :=
  mkBuffered (max_size_ c) q (writers_ c) (readers_ c) (rheap c) (wheap c).
Definition set_readers (l : list addr) (c : BufferedChannel) : BufferedChannel :=
  mkBuffered (max_size_ c) (q_ c) (writers_ c) l (rheap c) (wheap c).
Definition set_writers (l : list addr) (c : BufferedChannel) : BufferedChannel :=
  mkBuffered (max_size_ c) (q_ c) l (readers_ c) (rheap c) (wheap c).
Definition set_rheap (h : gmap addr ReadWaiter) (c : BufferedChannel) : BufferedChannel :=
  mkBuffered (max_size_ c) (q_ c) (writers_ c) (readers_ c) h (wheap c).
Definition set_wheap (h : gmap addr WriteWaiter) (c : BufferedChannel) : BufferedChannel :=
  mkBuffered (max_size_ c) (q_ c) (writers_ c) (readers_ c) (rheap c) h.

(** ** ReadWaiter *)

(** [src/include/futures/channel/BufferedChannel.h:35-40] ReadWaiter::setValue *)
Definition ReadWaiter_setValue (a : addr) (v : T) (c : BufferedChannel) : out BufferedChannel unit :=
  match rheap c !! a with
  | None => (Abort "dangling waiter", c, [])
  | Some r =>
      if rw_ptr r then
        match Either_.left (rw_v r) with
        | Ret t => (Ret tt, set_rheap (<[a := mkReadWaiter true (RIGHT v)]> (rheap c)) c, [t])
        | x => (stop x, c, [])
        end
      else (Abort "assert(ptr_)", c, [])
  end.

(** [src/include/futures/channel/BufferedChannel.h:46-51] ReadWaiter::value *)
Definition ReadWaiter_value (a : addr) (c : BufferedChannel) : out BufferedChannel (option T) :=
  match rheap c !! a with
  | None => (Abort "dangling waiter", c, [])
  | Some r =>
      if rw_ptr r then
        match rw_v r with
        | RIGHT v =>
            (Ret (Some v), set_rheap (<[a := mkReadWaiter true (RIGHT (moved_from v))]> (rheap c)) c, [])
        | _ => (Ret None, c, [])
        end
      else (Abort "null pointer dereference", c, [])
  end.

(** The destructor runs [detach]; then the object is gone. *)
(** [src/include/futures/channel/BufferedChannel.h:56-62] ReadWaiter::detach *)
Definition ReadWaiter_destroy (a : addr) (c : BufferedChannel) : out BufferedChannel unit :=
  match rheap c !! a with
  | None => (Abort "dangling waiter", c, [])
  | Some r =>
      if rw_ptr r then
        (Ret tt, set_rheap (delete a (rheap c)) (set_readers (filter (fun b => b <> a) (readers_ c)) c), [])
      else (Abort "null pointer dereference", c, [])
  end.

(** ** WriteWaiter *)

(** [src/include/futures/channel/BufferedChannel.h:78-84] WriteWaiter::moveValue *)
Definition WriteWaiter_moveValue (a : addr) (c : BufferedChannel) : out BufferedChannel T :=
  match wheap c !! a with
  | None => (Abort "dangling waiter", c, [])
  | Some w =>
      match ww_v w with
      | None => (Throw OptionalEmptyException, c, [])
      | Some (t, v) => (Ret v, set_wheap (<[a := mkWriteWaiter false None]> (wheap c)) c, [t])
      end
  end.

(** [src/include/futures/channel/BufferedChannel.h:86-89] WriteWaiter::isReady *)
Definition WriteWaiter_isReady (a : addr) (c : BufferedChannel) : out BufferedChannel bool :=
  match wheap c !! a with
  | None => (Abort "dangling waiter", c, [])
  | Some w =>
      if ww_ptr w then (Ret (negb (Optional.hasValue (ww_v w))), c, [])
      else (Abort "null pointer dereference", c, [])
  end.

(** [src/include/futures/channel/BufferedChannel.h:98-104] WriteWaiter::detach *)
Definition WriteWaiter_destroy (a : addr) (c : BufferedChannel) : out BufferedChannel unit :=
  match wheap c !! a with
  | None => (Abort "dangling waiter", c, [])
  | Some w =>
      if ww_ptr w then
        (Ret tt, set_wheap (delete a (wheap c)) (set_writers (filter (fun b => b <> a) (writers_ c)) c), [])
      else (Abort "null pointer dereference", c, [])
  end.

(** ** The channel *)

(** The loop of [notifyReader], over the waiting readers. *)
(** [src/include/futures/channel/BufferedChannel.h:180-186] BufferedChannel::notifyReader *)
Fixpoint notifyReader_loop (rs : list addr) (c : BufferedChannel) : out BufferedChannel unit :=
  match rs, q_ c with
  | a :: rs, v :: q =>
      match ReadWaiter_setValue a v c with
      | (Ret _, c1, woken) =>
          let '(r, c2, woken') := notifyReader_loop rs (set_readers rs (set_q q c1)) in
          (r, c2, woken ++ woken')
      | (x, c1, woken) => (x, c1, woken)
      end
  | _, _ => (Ret tt, c, [])
  end.
Definition notifyReader (c : BufferedChannel) : out BufferedChannel unit :=
  notifyReader_loop (readers_ c) c.

(** [src/include/futures/channel/BufferedChannel.h:188-193] BufferedChannel::notifyWriter *)
Fixpoint notifyWriter_loop (ws : list addr) (c : BufferedChannel) : out BufferedChannel unit :=
  match ws with
  | [] => (Ret tt, c, [])
  | a :: ws =>
      if decide (length (q_ c) < max_size_ c) then
        match WriteWaiter_moveValue a c with
        | (Ret v, c1, woken) =>
            let '(r, c2, woken') := notifyWriter_loop ws (set_writers ws (set_q (q_ c1 ++ [v]) c1)) in
            (r, c2, woken ++ woken')
        | (x, c1, woken) => (stop x, c1, woken)
        end
      else (Ret tt, c, [])
  end.
Definition notifyWriter (c : BufferedChannel) : out BufferedChannel unit :=
  notifyWriter_loop (writers_ c) c.

Definition fresh_r (c : BufferedChannel) : addr := fresh (dom (rheap c) : gset addr).
Definition fresh_w (c : BufferedChannel) : addr := fresh (dom (wheap c) : gset addr).

(** [src/include/futures/channel/BufferedChannel.h:116-125] BufferedChannel::doSend *)
Definition doSend (cur : option Task) (v : T) (c : BufferedChannel) : out BufferedChannel addr :=
  let a := fresh_w c in
  if decide (length (q_ c) < max_size_ c) then
    match notifyReader (set_q (q_ c ++ [v]) c) with
    | (Ret _, c', woken) =>
        (Ret a, set_wheap (<[a := mkWriteWaiter true None]> (wheap c')) c', woken)
    | (x, c', woken) => (stop x, c', woken)
    end
  else
    match CurrentTask_park cur with
    | Ret t =>
        (Ret a, set_wheap (<[a := mkWriteWaiter true (Some (t, v))]> (wheap c))
                  (set_writers (writers_ c ++ [a]) c), [])
    | x => (stop x, c, [])
    end.

(** [src/include/futures/channel/BufferedChannel.h:127-136] BufferedChannel::trySend *)
Definition trySend (v : T) (c : BufferedChannel) : out BufferedChannel bool :=
  if decide (length (q_ c) < max_size_ c) then
    match notifyReader (set_q (q_ c ++ [v]) c) with
    | (Ret _, c', woken) => (Ret true, c', woken)
    | (x, c', woken) => (stop x, c', woken)
    end
  else (Ret false, c, []).

(** [src/include/futures/channel/BufferedChannel.h:138-147] BufferedChannel::doRecv *)
Definition doRecv (cur : option Task) (c : BufferedChannel) : out BufferedChannel addr :=
  let a := fresh_r c in
  match q_ c with
  | v :: q =>
      match notifyWriter (set_rheap (<[a := mkReadWaiter true (RIGHT v)]> (rheap c)) (set_q q c)) with
      | (Ret _, c', woken) => (Ret a, c', woken)
      | (x, c', woken) => (stop x, c', woken)
      end
  | [] =>
      match CurrentTask_park cur with
      | Ret t =>
          (Ret a, set_rheap (<[a := mkReadWaiter true (LEFT t)]> (rheap c))
                    (set_readers (readers_ c ++ [a]) c), [])
      | x => (stop x, c, [])
      end
  end.

(** [src/include/futures/channel/BufferedChannel.h:149-158] BufferedChannel::tryRecv *)
Definition tryRecv (c : BufferedChannel) : out BufferedChannel (option T) :=
  match q_ c with
  | v :: q =>
      match notifyWriter (set_q q c) with
      | (Ret _, c', woken) => (Ret (Some v), c', woken)
      | (x, c', woken) => (stop x, c', woken)
      end
  | [] => (Ret None, c, [])
  end.

(** [src/include/futures/channel/BufferedChannel.h:160-163] BufferedChannel::size *)
Definition size_ (c : BufferedChannel) : nat := length (q_ c).

(** ** The futures *)

(** [src/include/futures/channel/BufferedChannel.h:223-230] RecvFuture::poll *)
Definition RecvFuture_poll (cur : option Task) (w : option addr) (c : BufferedChannel)
  : res (Poll T) * option addr * BufferedChannel * list Task :=
  let '(ra, c1, woken) := match w with Some a => (Ret a, c, []) | None => doRecv cur c end in
  match ra with
  | Ret a =>
      match ReadWaiter_value a c1 with
      | (Ret (Some v), c2, _) => (Ret (makePollReady v), Some a, c2, woken)
      | (Ret None, c2, _) => (Ret not_ready, Some a, c2, woken)
      | (x, c2, _) => (stop x, Some a, c2, woken)
      end
  | x => (stop x, w, c1, woken)
  end.

(** [src/include/futures/channel/BufferedChannel.h:249-253] SendFuture::poll *)
Definition SendFuture_poll (a : addr) (c : BufferedChannel) : out BufferedChannel (Poll unit) :=
  match WriteWaiter_isReady a c with
  | (Ret true, c', woken) => (Ret (makePollReady tt), c', woken)
  | (Ret false, c', woken) => (Ret not_ready, c', woken)
  | (x, c', woken) => (stop x, c', woken)
  end.

(** ** Invariant *)

(** The values of the blocked writers, oldest first. *)
Definition pending_value (h : gmap addr WriteWaiter) (a : addr) : option T :=
  w ← h !! a; snd <$> ww_v w.
Definition pending (c : BufferedChannel) : list T := omap (pending_value (wheap c)) (writers_ c).

Record binv (c : BufferedChannel) : Prop := {
  inv_size : length (q_ c) <= max_size_ c;
  inv_readers : readers_ c <> [] -> q_ c = [];
  inv_writers : writers_ c <> [] -> length (q_ c) = max_size_ c;
  inv_readers_nodup : NoDup (readers_ c);
  inv_writers_nodup : NoDup (writers_ c);
  inv_rheap a : a ∈ readers_ c -> exists t, rheap c !! a = Some (mkReadWaiter true (LEFT t));
  inv_wheap a : a ∈ writers_ c -> exists t v, wheap c !! a = Some (mkWriteWaiter true (Some (t, v)))
}.

Lemma binv_empty n : binv (makeBuffered n).
Proof. split; cbn; try done; try lia; try constructor; set_solver. Qed.

Lemma fresh_r_spec c : rheap c !! fresh_r c = None.
Proof. apply not_elem_of_dom. unfold fresh_r. apply is_fresh. Qed.
Lemma fresh_w_spec c : wheap c !! fresh_w c = None.
Proof. apply not_elem_of_dom. unfold fresh_w. apply is_fresh. Qed.

Lemma fresh_r_not_reader c : binv c -> fresh_r c ∉ readers_ c.
Proof. intros Hc Ha. destruct (inv_rheap c Hc _ Ha) as [t Ht]. by rewrite fresh_r_spec in Ht. Qed.
Lemma fresh_w_not_writer c : binv c -> fresh_w c ∉ writers_ c.
Proof. intros Hc Ha. destruct (inv_wheap c Hc _ Ha) as (t & v & Ht). by rewrite fresh_w_spec in Ht. Qed.

Lemma pending_insert h a w (l : list addr) :
  a ∉ l -> omap (pending_value (<[a := w]> h)) l = omap (pending_value h) l.
Proof.
  induction l as [|b l IH]; intros Ha; [done|]. apply not_elem_of_cons in Ha as [Hab Ha].
  cbn. rewrite IH by done. replace (pending_value (<[a := w]> h) b) with (pending_value h b); [done|].
  unfold pending_value. by rewrite lookup_insert_ne.
Qed.

(** A waiting reader is handed the one value in the queue. *)
Lemma notifyReader_one c v a rs t :
  q_ c = [v] -> readers_ c = a :: rs -> rheap c !! a = Some (mkReadWaiter true (LEFT t)) ->
  notifyReader c =
  (Ret tt, set_readers rs (set_q [] (set_rheap (<[a := mkReadWaiter true (RIGHT v)]> (rheap c)) c)), [t]).
Proof.
  destruct c as [n q ws rl rh wh]; cbn. intros -> -> Ha. unfold notifyReader; cbn.
  unfold ReadWaiter_setValue; cbn. rewrite Ha; cbn. by destruct rs.
Qed.

Lemma notifyReader_none c : readers_ c = [] -> notifyReader c = (Ret tt, c, []).
Proof. intros E. unfold notifyReader. by rewrite E. Qed.

(** When one place is free, the oldest blocked writer takes it. *)
Lemma notifyWriter_one c a ws t v :
  S (length (q_ c)) = max_size_ c -> writers_ c = a :: ws ->
  wheap c !! a = Some (mkWriteWaiter true (Some (t, v))) ->
  notifyWriter c =
  (Ret tt, set_writers ws (set_q (q_ c ++ [v]) (set_wheap (<[a := mkWriteWaiter false None]> (wheap c)) c)), [t]).
Proof.
  destruct c as [n q wl rl rh wh]; cbn. intros Hn -> Ha. unfold notifyWriter; cbn.
  rewrite decide_True by lia. unfold WriteWaiter_moveValue; cbn. rewrite Ha; cbn.
  destruct ws as [|b ws]; [done|]. cbn. rewrite length_app; cbn. by rewrite decide_False by lia.
Qed.

Lemma notifyWriter_none c : writers_ c = [] -> notifyWriter c = (Ret tt, c, []).
Proof. intros E. unfold notifyWriter. by rewrite E. Qed.

(** ** What a channel promises

    A buffer of values, oldest first, and the readers that wait because it is
    empty, oldest first.  [given] is what the readers hold. *)
Record spec := mkSpec { buf : list T; waiting : list addr; given : addr -> option T }.

Definition view (c : BufferedChannel) : spec :=
  mkSpec (q_ c ++ pending c) (readers_ c)
    (fun a => match rheap c !! a with Some (mkReadWaiter _ (RIGHT v)) => Some v | _ => None end).

Definition give (a : addr) (v : T) (g : addr -> option T) : addr -> option T :=
  fun b => if decide (b = a) then Some v else g b.

(** Sending hands the value to the reader that waits longest, else appends it. *)
Definition spec_send (v : T) (x : spec) : spec :=
  match waiting x with
  | r :: rs => mkSpec (buf x) rs (give r v (given x))
  | [] => mkSpec (buf x ++ [v]) [] (given x)
  end.

(** Receiving takes the oldest value, else queues the new reader [a]. *)
Definition spec_recv (a : addr) (x : spec) : spec :=
  match buf x with
  | v :: b => mkSpec b (waiting x) (give a v (given x))
  | [] => mkSpec [] (waiting x ++ [a]) (given x)
  end.

Definition spec_eq (x y : spec) : Prop :=
  buf x = buf y /\ waiting x = waiting y /\ forall a, given x a = given y a.

(** While a reader waits there is no value anywhere. *)
Lemma waiting_empty c : 0 < max_size_ c -> binv c -> readers_ c <> [] -> q_ c = [] /\ writers_ c = [].
Proof.
  intros Hn Hc Hr. pose proof (inv_readers c Hc Hr) as Hq. split; [done|].
  destruct (writers_ c) eqn:E; [done|]. exfalso.
  assert (length (q_ c) = max_size_ c) by (apply (inv_writers c Hc); by rewrite E).
  rewrite Hq in *. cbn in *. lia.
Qed.

Lemma reader_task c a rs :
  binv c -> readers_ c = a :: rs -> exists t, rheap c !! a = Some (mkReadWaiter true (LEFT t)).
Proof. intros Hc Hr. apply (inv_rheap c Hc). rewrite Hr. apply elem_of_cons. by left. Qed.

(** The common part of [doSend] and [trySend]: the queue has room. *)
Lemma send_room c v :
  0 < max_size_ c -> binv c -> length (q_ c) < max_size_ c ->
  exists c' woken, notifyReader (set_q (q_ c ++ [v]) c) = (Ret tt, c', woken) /\ binv c' /\
    wheap c' = wheap c /\ writers_ c' = writers_ c /\ spec_eq (view c') (spec_send v (view c)).
Proof.
  intros Hn Hc Hroom. assert (writers_ c = []) as Hw.
  { destruct (writers_ c) eqn:E; [done|].
    pose proof (inv_writers c Hc) as Hl. rewrite E in Hl. specialize (Hl ltac:(done)). lia. }
  destruct (readers_ c) as [|a rs] eqn:Hr.
  - eexists _, []. split; [by apply notifyReader_none|].
    destruct c as [n q ws rl rh wh]; cbn in *; subst. unfold view, pending, spec_send, spec_eq; cbn.
    rewrite !app_nil_r. destruct Hc; split; cbn in *; auto; split; cbn; auto; try done.
    rewrite length_app; cbn; lia.
  - destruct (waiting_empty c Hn Hc ltac:(by rewrite Hr)) as [Hq _].
    destruct (reader_task c a rs Hc Hr) as [t Ht].
    eexists _, [t]. split; [apply (notifyReader_one _ v a rs t); cbn; by rewrite ?Hq|].
    destruct c as [n q ws rl rh wh]; cbn in *; subst.
    unfold view, pending, spec_send, spec_eq; cbn.
    destruct Hc as [Hs _ _ Hnd _ Hrh _]; cbn in *. apply NoDup_cons in Hnd as [Ha Hnd].
    split; [split; cbn; auto; try done; [constructor| |intros b Hb; by apply not_elem_of_nil in Hb]|].
    + intros b Hb. destruct (Hrh b) as [t' Ht']; [apply elem_of_cons; by right|].
      exists t'. rewrite lookup_insert_ne; [done|]. by intros ->.
    + repeat split. intros b. unfold give. case_decide; subst.
      * by rewrite lookup_insert_eq.
      * by rewrite lookup_insert_ne.
Qed.

(** Sending into a full channel. *)
Lemma send_blocked c t v :
  0 < max_size_ c -> binv c -> ~ length (q_ c) < max_size_ c ->
  let a := fresh_w c in
  let c' := set_wheap (<[a := mkWriteWaiter true (Some (t, v))]> (wheap c))
              (set_writers (writers_ c ++ [a]) c) in
  binv c' /\ spec_eq (view c') (spec_send v (view c)).
Proof.
  intros Hn Hc Hfull a c'. assert (readers_ c = []) as Hr.
  { destruct (readers_ c) eqn:E; [done|].
    destruct (waiting_empty c Hn Hc) as [Hq _]; [by rewrite E|]. rewrite Hq in Hfull. cbn in *. lia. }
  pose proof (fresh_w_not_writer c Hc) as Hfr. fold a in Hfr. clearbody a. subst c'.
  destruct c as [n q ws rl rh wh]; cbn in *; subst. destruct Hc as [Hs _ Hw _ Hnd _ Hwh]; cbn in *. split.
  - split; cbn; try done; [lia|constructor| |intros b Hb; by apply not_elem_of_nil in Hb|].
    + apply NoDup_app. repeat split; [done|set_solver|apply NoDup_singleton].
    + intros b Hb. destruct (decide (b = a)) as [->|Hb']; [rewrite lookup_insert_eq; eauto|].
      rewrite lookup_insert_ne by done. apply Hwh. set_solver.
  - unfold spec_eq, view, spec_send, pending; cbn. repeat split.
    rewrite omap_app, pending_insert by done. cbn. unfold pending_value at 2. rewrite lookup_insert_eq.
    cbn. by rewrite app_assoc.
Qed.

(** Taking the oldest value lets the oldest blocked writer in. *)
Lemma recv_room c v q :
  binv c -> q_ c = v :: q ->
  exists c' woken, notifyWriter (set_q q c) = (Ret tt, c', woken) /\ binv c' /\
    rheap c' = rheap c /\ readers_ c' = [] /\ q_ c' ++ pending c' = q ++ pending c.
Proof.
  intros Hc Hq. assert (readers_ c = []) as Hr.
  { destruct (readers_ c) eqn:E; [done|].
    pose proof (inv_readers c Hc) as Hl. rewrite E, Hq in Hl. by specialize (Hl ltac:(done)). }
  destruct (writers_ c) as [|a ws] eqn:Hw.
  - eexists _, []. split; [by apply notifyWriter_none|].
    destruct c as [n q0 wl rl rh wh]; cbn in *; subst. destruct Hc; cbn in *.
    split; [split; cbn; auto; try done; lia|]. done.
  - destruct (inv_wheap c Hc a) as (t & u & Ht); [rewrite Hw; apply elem_of_cons; by left|].
    pose proof (inv_writers c Hc) as Hl. rewrite Hw, Hq in Hl. specialize (Hl ltac:(done)). cbn in Hl.
    eexists _, [t]. split; [by apply (notifyWriter_one _ a ws t u)|].
    destruct c as [n q0 wl rl rh wh]; cbn in *; subst.
    destruct Hc as [Hs _ _ _ Hnd _ Hwh]; cbn in *. apply NoDup_cons in Hnd as [Ha Hnd].
    split; [split; cbn; auto; try done|].
    + rewrite length_app; cbn; lia.
    + intros _. rewrite length_app; cbn; lia.
    + constructor.
    + intros b Hb. by apply not_elem_of_nil in Hb.
    + intros b Hb. destruct (Hwh b) as (t' & v' & Hb'); [apply elem_of_cons; by right|].
      exists t', v'. rewrite lookup_insert_ne; [done|]. by intros ->.
    + repeat split. unfold pending; cbn. rewrite pending_insert by done.
      unfold pending_value at 2. rewrite Ht. cbn. by rewrite <-app_assoc.
Qed.

Lemma buf_empty c : 0 < max_size_ c -> binv c -> q_ c = [] -> buf (view c) = [].
Proof.
  intros Hn Hc Hq. unfold view, pending; cbn. rewrite Hq.
  destruct (writers_ c) eqn:E; [done|]. pose proof (inv_writers c Hc) as Hl.
  rewrite E, Hq in Hl. specialize (Hl ltac:(done)). cbn in Hl. lia.
Qed.

Lemma doRecv_spec c t :
  0 < max_size_ c -> binv c ->
  exists a c' woken, doRecv (Some t) c = (Ret a, c', woken) /\ rheap c !! a = None /\
    binv c' /\ spec_eq (view c') (spec_recv a (view c)).
Proof.
  intros Hn Hc. exists (fresh_r c). pose proof (fresh_r_spec c) as Hfr.
  pose proof (fresh_r_not_reader c Hc) as Hnr. unfold doRecv. destruct (q_ c) as [|v q] eqn:Hq.
  - cbn. do 2 eexists. split; [reflexivity|]. split; [done|].
    pose proof (buf_empty c Hn Hc Hq) as Hb. unfold spec_recv. rewrite Hb.
    revert Hfr Hnr Hb. generalize (fresh_r c). intros a Hfr Hnr Hb.
    destruct c as [n q0 wl rl rh wh]; cbn in *; subst. destruct Hc as [Hs _ Hw Hnd Hwd Hrh Hwh]; cbn in *.
    split; [split; cbn; auto|].
    + apply NoDup_app. repeat split; [done|set_solver|apply NoDup_singleton].
    + intros b Hb'. destruct (decide (b = a)) as [->|Hba]; [rewrite lookup_insert_eq; eauto|].
      rewrite lookup_insert_ne by done. apply Hrh. set_solver.
    + unfold spec_eq, view; cbn. repeat split; [done|]. intros b.
      destruct (decide (b = a)) as [->|Hba]; [by rewrite lookup_insert_eq, Hfr|by rewrite lookup_insert_ne].
  - assert (readers_ c = []) as Hr.
    { destruct (readers_ c) eqn:E; [done|].
      pose proof (inv_readers c Hc) as Hl. rewrite E, Hq in Hl. by specialize (Hl ltac:(done)). }
    set (c0 := set_rheap (<[fresh_r c := mkReadWaiter true (RIGHT v)]> (rheap c)) c).
    assert (binv c0) as Hc0.
    { subst c0. destruct c as [n q0 wl rl rh wh]; cbn in *; subst.
      destruct Hc; split; cbn in *; auto. intros b Hb. by apply not_elem_of_nil in Hb. }
    destruct (recv_room c0 v q Hc0 Hq) as (c' & woken & Hnw & Hc' & Hrh & Hr' & Hqp).
    change (set_rheap _ (set_q q c)) with (set_q q c0). rewrite Hnw.
    exists c', woken. split; [done|]. split; [done|]. split; [done|].
    unfold spec_eq, spec_recv, view; cbn. rewrite Hq, Hqp, Hr', Hrh, Hr. cbn. repeat split.
    intros b. subst c0; cbn. unfold give. case_decide; subst; [by rewrite lookup_insert_eq|by rewrite lookup_insert_ne].
Qed.


(** A sender that had to wait crashes.  [moveValue] resets the waiter's
    channel pointer; once a receiver has let the blocked sender in, the next
    poll of its [SendFuture], and the destruction of that future, lock a mutex
    through the null pointer. *)
Theorem buffered_blocked_sender_crashes c t a ws :
  0 < max_size_ c -> binv c -> writers_ c = a :: ws ->
  exists b c' woken, doRecv (Some t) c = (Ret b, c', woken) /\
    SendFuture_poll a c' = (Abort "null pointer dereference", c', []) /\
    WriteWaiter_destroy a c' = (Abort "null pointer dereference", c', []).
Proof.
  intros Hn Hc Hw. pose proof (inv_writers c Hc) as Hl. rewrite Hw in Hl. specialize (Hl ltac:(done)).
  destruct (inv_wheap c Hc a) as (tw & u & Ht); [rewrite Hw; apply elem_of_cons; by left|].
  unfold doRecv. destruct (q_ c) as [|v q] eqn:Hq; [cbn in Hl; lia|]. cbn in Hl.
  rewrite (notifyWriter_one _ a ws tw u); [|cbn; lia|done|done].
  do 3 eexists. split; [reflexivity|].
  unfold SendFuture_poll, WriteWaiter_isReady, WriteWaiter_destroy; cbn.
  by rewrite lookup_insert_eq.
Qed.

(** A channel of capacity zero transfers nothing: senders and readers all wait. *)
Lemma buffered_zero_never_transfers c t v :
  max_size_ c = 0 -> q_ c = [] ->
  trySend v c = (Ret false, c, []) /\ tryRecv c = (Ret None, c, []) /\
  (exists c', doSend (Some t) v c = (Ret (fresh_w c), c', []) /\ q_ c' = [] /\ readers_ c' = readers_ c /\ rheap c' = rheap c) /\
  (exists c', doRecv (Some t) c = (Ret (fresh_r c), c', []) /\ q_ c' = [] /\ writers_ c' = writers_ c /\ wheap c' = wheap c).
Proof.
  destruct c as [n q wl rl rh wh]; cbn. intros -> ->. repeat split; unfold doSend, doRecv; cbn; eauto.
Qed.
End Buffered.
Arguments BufferedChannel : clear implicits.
Arguments ReadWaiter : clear implicits.
Arguments WriteWaiter : clear implicits.

(** A channel of capacity one with a value queued and one sender blocked. *)
Definition full_channel : BufferedChannel Z :=
  snd (fst (doSend (Some 7) 2%Z (snd (fst (doSend (Some 6) 1%Z (makeBuffered 1)))))).

Lemma full_channel_inv : binv full_channel.
Proof.
  split.
  - vm_compute. lia.
  - by vm_compute.
  - by vm_compute.
  - vm_compute. constructor.
  - vm_compute. apply NoDup_singleton.
  - intros a Ha. by apply not_elem_of_nil in Ha.
  - intros a Ha. replace (writers_ full_channel) with [fresh_w (snd (fst (doSend (Some 6) 1%Z (makeBuffered (T:=Z) 1))))] in Ha by done.
    apply list_elem_of_singleton in Ha as ->. exists 7, 2%Z. by vm_compute.
Defined.


Lemma buffered_blocked_sender_crashes_witness :
  exists b c' woken a, doRecv (Some 8) full_channel = (Ret b, c', woken) /\
    SendFuture_poll a c' = (Abort "null pointer dereference", c', []).
Proof.
  destruct (buffered_blocked_sender_crashes full_channel 8 (hd 0 (writers_ full_channel)) [])
    as (b & c' & woken & E & Hp & _); [vm_compute; lia|exact full_channel_inv|by vm_compute|].
  exists b, c', woken, (hd 0 (writers_ full_channel)). split; [exact E|exact Hp].
Defined.
