(* ===== verification/WsParser.v ===== *)
(** * The websocket frame parser

    Models [src/src/http/ws_parser.c] and [src/include/futures/http/ws_parser.h].
    Bytes are integers between 0 and 255.  The parser calls back into user code
    as it meets the parts of a frame; the callbacks are a record of functions on
    the user's data that return a status and the new data. *)

From S2P Require Import Prelude.
Local Open Scope Z_scope.

(** [src/include/futures/http/ws_parser.h:7-14] ws_frame_type_t *)
Definition WS_FRAME_TEXT := 1.
Definition WS_FRAME_BINARY := 2.
Definition WS_FRAME_CLOSE := 8.
Definition WS_FRAME_PING := 9.
Definition WS_FRAME_PONG := 10.

(** [src/include/futures/http/ws_parser.h:44-57] WS_PARSER_ERROR_CODES *)
Definition WS_OK := 0.
Definition WS_RESERVED_BITS_SET := -1.
Definition WS_INVALID_OPCODE := -2.
Definition WS_INVALID_CONTINUATION := -3.
Definition WS_CONTROL_TOO_LONG := -4.
Definition WS_NON_CANONICAL_LENGTH := -5.
Definition WS_FRAGMENTED_CONTROL := -6.

(** [src/src/http/ws_parser.c:7-25] parser states *)
Inductive ws_state :=
| S_OPCODE | S_LENGTH | S_LENGTH_16_0 | S_LENGTH_16_1
| S_LENGTH_64_0 | S_LENGTH_64_1 | S_LENGTH_64_2 | S_LENGTH_64_3
| S_LENGTH_64_4 | S_LENGTH_64_5 | S_LENGTH_64_6 | S_LENGTH_64_7
| S_MASK_0 | S_MASK_1 | S_MASK_2 | S_MASK_3 | S_PAYLOAD.
#[global] Instance ws_state_eq_dec : EqDecision ws_state.
Proof. solve_decision. Defined.

(** [src/include/futures/http/ws_parser.h:26-39] ws_parser_t *)
Record ws_parser := mkWs {
  bytes_remaining : Z;
  mask0 : Z; mask1 : Z; mask2 : Z; mask3 : Z;
  fragment : bool; fin : bool; control : bool; mask_flag : bool;
  mask_pos : Z;
  state : ws_state
}.

(** [src/include/futures/http/ws_parser.h:16-24] ws_parser_callbacks_t *)
Record ws_callbacks (U : Type) := mkCallbacks {
  on_data_begin : U -> Z -> Z * U;
  on_data_payload : U -> list Z -> Z * U;
  on_data_end : U -> Z * U;
  on_control_begin : U -> Z -> Z * U;
  on_control_payload : U -> list Z -> Z * U;
  on_control_end : U -> Z * U
}.
Arguments on_data_begin {U} _.
Arguments on_data_payload {U} _.
Arguments on_data_end {U} _.
Arguments on_control_begin {U} _.
Arguments on_control_payload {U} _.
Arguments on_control_end {U} _.

(** The fields [ws_parser_init] leaves alone keep their values. *)
(** [src/src/http/ws_parser.c:27-34] ws_parser_init *)
Definition ws_parser_init (p : ws_parser) : ws_parser :=
  mkWs (bytes_remaining p) (mask0 p) (mask1 p) (mask2 p) (mask3 p)
    false (fin p) (control p) (mask_flag p) (mask_pos p) S_OPCODE.

Definition set_state (s : ws_state) (p : ws_parser) : ws_parser :=
  mkWs (bytes_remaining p) (mask0 p) (mask1 p) (mask2 p) (mask3 p)
    (fragment p) (fin p) (control p) (mask_flag p) (mask_pos p) s.
Definition set_remaining (n : Z) (p : ws_parser) : ws_parser :=
  mkWs n (mask0 p) (mask1 p) (mask2 p) (mask3 p)
    (fragment p) (fin p) (control p) (mask_flag p) (mask_pos p) (state p).
Definition set_fin (b : bool) (p : ws_parser) : ws_parser :=
  mkWs (bytes_remaining p) (mask0 p) (mask1 p) (mask2 p) (mask3 p)
    (fragment p) b (control p) (mask_flag p) (mask_pos p) (state p).
Definition set_control (b : bool) (p : ws_parser) : ws_parser :=
  mkWs (bytes_remaining p) (mask0 p) (mask1 p) (mask2 p) (mask3 p)
    (fragment p) (fin p) b (mask_flag p) (mask_pos p) (state p).
Definition set_fragment (b : bool) (p : ws_parser) : ws_parser :=
  mkWs (bytes_remaining p) (mask0 p) (mask1 p) (mask2 p) (mask3 p)
    b (fin p) (control p) (mask_flag p) (mask_pos p) (state p).
Definition set_mask_flag (b : bool) (p : ws_parser) : ws_parser :=
  mkWs (bytes_remaining p) (mask0 p) (mask1 p) (mask2 p) (mask3 p)
    (fragment p) (fin p) (control p) b 0 (state p).
Definition set_mask (i : Z) (m : Z) (p : ws_parser) : ws_parser :=
  mkWs (bytes_remaining p) (if i =? 0 then m else mask0 p) (if i =? 1 then m else mask1 p)
    (if i =? 2 then m else mask2 p) (if i =? 3 then m else mask3 p)
    (fragment p) (fin p) (control p) (mask_flag p) (mask_pos p) (state p).
Definition set_mask_pos (n : Z) (p : ws_parser) : ws_parser :=
  mkWs (bytes_remaining p) (mask0 p) (mask1 p) (mask2 p) (mask3 p)
    (fragment p) (fin p) (control p) (mask_flag p) n (state p).

Definition nth_mask (i : Z) (p : ws_parser) : Z :=
  if i =? 0 then mask0 p else if i =? 1 then mask1 p else if i =? 2 then mask2 p else mask3 p.

Section Execute.
Context {U : Type} (cb : ws_callbacks U).

(** How one trip through the loop ends: [return rc], or the buffer that is
    left. *)
Definition iteration : Type := (Z + list Z) * ws_parser * U.

(** Run a callback; a nonzero status is returned from the parser. *)
Definition call (r : Z * U) (p : ws_parser) (k : U -> iteration) : iteration :=
  if fst r =? 0 then k (snd r) else (inl (fst r), p, snd r).

(** [src/src/http/ws_parser.c:60-108] ws_parser_execute, S_OPCODE *)
Definition do_opcode (p : ws_parser) (u : U) (cur_byte : Z) (rest : list Z) : iteration :=
  let opcode := Z.land cur_byte 15 in
  if negb (Z.land cur_byte 112 =? 0) then (inl WS_RESERVED_BITS_SET, p, u)
  else
    let p := set_fin (negb (Z.land cur_byte 128 =? 0)) p in
    if opcode =? 0 then
      if fragment p then (inr rest, set_state S_LENGTH (set_control false p), u)
      else (inl WS_INVALID_CONTINUATION, p, u)
    else if negb (Z.land opcode 8 =? 0) then
      if negb (opcode =? WS_FRAME_PING) && negb (opcode =? WS_FRAME_PONG) && negb (opcode =? WS_FRAME_CLOSE)
      then (inl WS_INVALID_OPCODE, p, u)
      else if negb (fin p) then (inl WS_FRAGMENTED_CONTROL, p, u)
      else
        let p := set_control true p in
        call (on_control_begin cb u opcode) p (fun u => (inr rest, set_state S_LENGTH p, u))
    else if negb (opcode =? WS_FRAME_TEXT) && negb (opcode =? WS_FRAME_BINARY)
    then (inl WS_INVALID_OPCODE, p, u)
    else
      let p := set_fragment (negb (fin p)) (set_control false p) in
      call (on_data_begin cb u opcode) p (fun u => (inr rest, set_state S_LENGTH p, u)).

(** [src/src/http/ws_parser.c:275-293] ws_parser_execute, end_of_payload *)
Definition end_of_payload (p : ws_parser) (u : U) (rest : list Z) : iteration :=
  if control p || fin p then
    call (if control p then on_control_end cb u else on_data_end cb u) p
      (fun u => (inr rest, set_state S_OPCODE p, u))
  else (inr rest, set_state S_OPCODE p, u).

Definition mask_or_payload (p : ws_parser) : ws_state :=
  if mask_flag p then S_MASK_0 else S_PAYLOAD.

(** [src/src/http/ws_parser.c:109-140] ws_parser_execute, S_LENGTH *)
Definition do_length (p : ws_parser) (u : U) (cur_byte : Z) (rest : list Z) : iteration :=
  let length := Z.land cur_byte 127 in
  let p := set_mask_flag (negb (Z.land cur_byte 128 =? 0)) p in
  let finish p :=
    if bool_decide (state p = S_PAYLOAD) && (bytes_remaining p =? 0) then end_of_payload p u rest
    else (inr rest, p, u) in
  if control p then
    if 125 <? length then (inl WS_CONTROL_TOO_LONG, p, u)
    else finish (set_state (mask_or_payload p) (set_remaining length p))
  else if length <? 126 then finish (set_state (mask_or_payload p) (set_remaining length p))
  else if length =? 126 then finish (set_state S_LENGTH_16_0 p)
  else finish (set_state S_LENGTH_64_0 p).

(** The states that read one byte of an extended length: assign or [|=]. *)
(** [src/src/http/ws_parser.c:141-208] ws_parser_execute, S_LENGTH_16_0 to S_LENGTH_64_7 *)
Definition do_extended_length (p : ws_parser) (u : U) (cur_byte : Z) (rest : list Z) : iteration :=
  let first k s := (inr rest, set_state s (set_remaining (Z.shiftl cur_byte k) p), u) in
  let more k s :=
    (inr rest, set_state s (set_remaining (Z.lor (bytes_remaining p) (Z.shiftl cur_byte k)) p), u) in
  let last bound :=
    let p := set_state (mask_or_payload p) (set_remaining (Z.lor (bytes_remaining p) cur_byte) p) in
    if bytes_remaining p <? bound then (inl WS_NON_CANONICAL_LENGTH, p, u) else (inr rest, p, u) in
  match state p with
  | S_LENGTH_16_0 => first 8 S_LENGTH_16_1
  | S_LENGTH_16_1 => last 126
  | S_LENGTH_64_0 => first 56 S_LENGTH_64_1
  | S_LENGTH_64_1 => more 48 S_LENGTH_64_2
  | S_LENGTH_64_2 => more 40 S_LENGTH_64_3
  | S_LENGTH_64_3 => more 32 S_LENGTH_64_4
  | S_LENGTH_64_4 => more 24 S_LENGTH_64_5
  | S_LENGTH_64_5 => more 16 S_LENGTH_64_6
  | S_LENGTH_64_6 => more 8 S_LENGTH_64_7
  | _ => last 65536
  end.

(** [src/src/http/ws_parser.c:209-238] ws_parser_execute, S_MASK_0 to S_MASK_3 *)
Definition do_mask (p : ws_parser) (u : U) (cur_byte : Z) (rest : list Z) : iteration :=
  match state p with
  | S_MASK_0 => (inr rest, set_state S_MASK_1 (set_mask 0 cur_byte p), u)
  | S_MASK_1 => (inr rest, set_state S_MASK_2 (set_mask 1 cur_byte p), u)
  | S_MASK_2 => (inr rest, set_state S_MASK_3 (set_mask 2 cur_byte p), u)
  | _ =>
      let p := set_state S_PAYLOAD (set_mask 3 cur_byte p) in
      if bytes_remaining p =? 0 then end_of_payload p u rest else (inr rest, p, u)
  end.

(** The loop that unmasks a chunk in place; [mask_pos] is a two-bit field. *)
(** [src/src/http/ws_parser.c:248-250] ws_parser_execute, unmasking *)
Fixpoint unmask (l : list Z) (p : ws_parser) : list Z * ws_parser :=
  match l with
  | [] => ([], p)
  | b :: l =>
      let '(l', p') := unmask l (set_mask_pos ((mask_pos p + 1) mod 4) p) in
      (Z.lxor b (nth_mask (mask_pos p) p) :: l', p')
  end.

(** [src/src/http/ws_parser.c:239-274] ws_parser_execute, S_PAYLOAD *)
Definition do_payload (p : ws_parser) (u : U) (buff : list Z) : iteration :=
  let chunk_length := Z.to_nat (Z.min (Z.of_nat (length buff)) (bytes_remaining p)) in
  let chunk := take chunk_length buff in
  let rest := drop chunk_length buff in
  let '(chunk, p) := if mask_flag p then unmask chunk p else (chunk, p) in
  call (if control p then on_control_payload cb u chunk else on_data_payload cb u chunk) p
    (fun u =>
       let p := set_remaining (bytes_remaining p - Z.of_nat chunk_length) p in
       if bytes_remaining p =? 0 then end_of_payload p u rest else (inr rest, p, u)).

(** [src/src/http/ws_parser.c:59-294] ws_parser_execute, the switch *)
Definition ws_iter (p : ws_parser) (u : U) (cur_byte : Z) (rest : list Z) : iteration :=
  match state p with
  | S_OPCODE => do_opcode p u cur_byte rest
  | S_LENGTH => do_length p u cur_byte rest
  | S_MASK_0 | S_MASK_1 | S_MASK_2 | S_MASK_3 => do_mask p u cur_byte rest
  | S_PAYLOAD => do_payload p u (cur_byte :: rest)
  | _ => do_extended_length p u cur_byte rest
  end.

(** [src/src/http/ws_parser.c:39-43] ws_parser_execute *)
Fixpoint ws_loop (fuel : nat) (p : ws_parser) (u : U) (buff : list Z) : option (Z * ws_parser * U) :=
  match buff with
  | [] => Some (WS_OK, p, u)
  | cur_byte :: rest =>
      match fuel with
      | O => None
      | S fuel =>
          match ws_iter p u cur_byte rest with
          | (inl rc, p, u) => Some (rc, p, u)
          | (inr rest, p, u) => ws_loop fuel p u rest
          end
      end
  end.

(** [src/src/http/ws_parser.c:39-298] ws_parser_execute *)
Definition ws_parser_execute (p : ws_parser) (u : U) (buff : list Z) : option (Z * ws_parser * U) :=
  ws_loop (length buff) p u buff.

(** ** Termination *)

(** In the payload state something is left to read. *)
Definition wf (p : ws_parser) : Prop :=
  0 <= bytes_remaining p /\ (state p = S_PAYLOAD -> 0 < bytes_remaining p).

(** Except for payload, an iteration reads one byte and does not look further. *)
Lemma iter_local p u c :
  state p <> S_PAYLOAD ->
  exists (r : Z + unit) p' u', forall rest,
    ws_iter p u c rest = (match r with inl rc => inl rc | inr _ => inr rest end, p', u').
Proof.
  assert (forall r p, exists (x : Z + unit) p' u', forall rest,
    call r p (fun u => (inr rest, set_state S_LENGTH p, u)) =
    (match x with inl rc => inl rc | inr _ => inr rest end, p', u')) as Hc.
  { intros [rc v] q. unfold call; cbn. destruct (rc =? 0); [by exists (inr tt), (set_state S_LENGTH q), v|].
    by exists (inl rc), q, v. }
  assert (forall q v, exists (x : Z + unit) p' u', forall rest, end_of_payload q v rest =
    (match x with inl rc => inl rc | inr _ => inr rest end, p', u')) as He.
  { intros q v. unfold end_of_payload, call. destruct (control q || fin q).
    - destruct (if control q then _ else _) as [rc v']; cbn. destruct (rc =? 0); [by eexists (inr tt), _, _|].
      by eexists (inl rc), _, _.
    - by eexists (inr tt), _, _. }
  intros Hs. unfold ws_iter, do_opcode, do_length, do_extended_length, do_mask.
  destruct (state p) eqn:Est; try done;
    repeat match goal with
    | |- context [if ?b then _ else _] => destruct b eqn:?
    | |- exists _ _ _, forall rest, (_, ?q, ?v) = _ => solve [by eexists (inl _), q, v | by eexists (inr tt), q, v]
    end; first [apply Hc | apply He | done].
Qed.

Lemma wf_end q v rest r p' u' :
  0 <= bytes_remaining q -> end_of_payload q v rest = (r, p', u') ->
  match r with inl _ => True | inr rest' => wf p' /\ rest' = rest end.
Proof.
  intros Hq He. unfold end_of_payload, call in He.
  destruct (control q || fin q); [destruct (_ =? 0)|]; simplify_eq; try done; split; try done; cbn; done.
Qed.

Lemma unmask_frame l p :
  bytes_remaining (snd (unmask l p)) = bytes_remaining p /\ state (snd (unmask l p)) = state p /\
  control (snd (unmask l p)) = control p /\ fin (snd (unmask l p)) = fin p /\
  mask_flag (snd (unmask l p)) = mask_flag p /\ length (fst (unmask l p)) = length l.
Proof.
  revert p. induction l as [|b l IH]; intros p; [done|]. cbn.
  specialize (IH (set_mask_pos ((mask_pos p + 1) mod 4) p)).
  destruct (unmask l _) as [l' p'] eqn:E; cbn in *. naive_solver.
Qed.

Lemma iter_wf p u c rest r p' u' :
  wf p -> is_byte c -> ws_iter p u c rest = (r, p', u') ->
  match r with inl _ => True | inr rest' => wf p' /\ exists k, rest' = drop k rest end.
Proof.
  intros [Hr Hp] Hc Hi. unfold is_byte in Hc.
  assert (forall k, 0 <= Z.shiftl c k) by (intros; apply Z.shiftl_nonneg; lia).
  assert (forall m, 0 <= Z.land c m) by (intros; apply Z.land_nonneg; lia).
  assert (forall m, 0 <= m -> 0 <= Z.lor (bytes_remaining p) m) by (intros; apply Z.lor_nonneg; lia).
  destruct (decide (state p = S_PAYLOAD)) as [Hs|Hs].
  - unfold ws_iter in Hi. rewrite Hs in Hi. unfold do_payload in Hi. specialize (Hp Hs).
    set (n := Z.to_nat _) in Hi.
    assert (exists k, n = S k /\ Z.of_nat n <= bytes_remaining p) as (k & Hn & Hle).
    { exists (pred n). subst n. cbn [length]. lia. }
    rewrite Hn in Hi. cbn [take drop] in Hi.
    destruct (if mask_flag p then _ else _) as [ch q] eqn:Eq.
    assert (bytes_remaining q = bytes_remaining p /\ state q = state p) as [Hqr Hqs].
    { destruct (mask_flag p); [|by simplify_eq].
      destruct (unmask_frame (c :: take k rest) p) as (? & ? & _). by rewrite Eq in *. }
    unfold call in Hi. destruct (_ =? 0); [|by simplify_eq]. cbn [bytes_remaining set_remaining] in Hi.
    destruct (bytes_remaining q - Z.of_nat (S k) =? 0) eqn:Ez.
    + apply wf_end in Hi; [|cbn; lia]. destruct r as [|rest']; [done|]. destruct Hi as [? ->]. eauto.
    + rewrite Hn in Hle. apply Z.eqb_neq in Ez. simplify_eq. split; [|eauto].
      unfold wf. cbn [bytes_remaining set_remaining]. lia.
  - assert (match r with inl _ => True | inr rest' => wf p' /\ rest' = rest end) as Hgoal;
      [|destruct r; [done|]; destruct Hgoal as [? ->]; split; [done|]; by exists 0%nat].
    unfold ws_iter, do_opcode, do_length, do_extended_length, do_mask, call, mask_or_payload in Hi.
    destruct (state p) eqn:Est; try done;
      repeat match type of Hi with
      | context [if ?b then _ else _] => destruct b eqn:?; cbn in Hi
      end; try (eapply wf_end; [|exact Hi]; cbn; auto); simplify_eq; try done;
      (split; [split; cbn; auto|done]); cbn in *; try done; intros; try lia.
    all: rewrite bool_decide_true in * by done; specialize (H0 127); cbn in *; lia.
Qed.

(** The bound of [ws_parser_execute] is enough: from a well-formed parser the
    loop returns, whatever the buffer. *)
Lemma loop_enough n p u buff :
  wf p -> Forall is_byte buff -> (length buff <= n)%nat ->
  ws_loop n p u buff = ws_parser_execute p u buff /\ is_Some (ws_parser_execute p u buff).
Proof.
  unfold ws_parser_execute.
  revert p u buff. induction n as [n IH] using (well_founded_induction lt_wf). intros p u buff Hp Hb Hn.
  destruct buff as [|c rest]; [by destruct n; eauto|]. destruct n as [|n]; [cbn in Hn; lia|]. cbn in *.
  apply Forall_cons in Hb as [Hc Hb].
  destruct (ws_iter p u c rest) as [[[rc|rest'] p'] u'] eqn:Hi; [eauto|].
  destruct (iter_wf _ _ _ _ _ _ _ Hp Hc Hi) as [Hp' [k ->]].
  assert (length (drop k rest) <= length rest)%nat by (rewrite length_drop; lia).
  assert (Forall is_byte (drop k rest)) by by apply Forall_drop.
  destruct (IH n ltac:(lia) p' u' (drop k rest)) as [E1 Hs]; [done|done|lia|].
  destruct (IH (length rest) ltac:(lia) p' u' (drop k rest)) as [E2 _]; [done|done|lia|].
  rewrite E1, E2. auto.
Qed.

Lemma execute_cons p u c rest :
  wf p -> is_byte c -> Forall is_byte rest ->
  ws_parser_execute p u (c :: rest) =
  match ws_iter p u c rest with
  | (inl rc, p', u') => Some (rc, p', u')
  | (inr rest', p', u') => ws_parser_execute p' u' rest'
  end.
Proof.
  intros Hp Hc Hb. unfold ws_parser_execute at 1. cbn.
  destruct (ws_iter p u c rest) as [[[rc|rest'] p'] u'] eqn:Hi; [done|].
  destruct (iter_wf _ _ _ _ _ _ _ Hp Hc Hi) as [Hp' [k ->]].
  apply loop_enough; [done|by apply Forall_drop|rewrite length_drop; lia].
Qed.

(** ** Independence of how the input is cut *)

(** A payload callback that may be given its input in pieces: the status is the
    same, and so is the data unless the status reports an error. *)
Definition additive (f : U -> list Z -> Z * U) : Prop :=
  forall u a b,
    if fst (f u a) =? 0 then
      fst (f u (a ++ b)) = fst (f (snd (f u a)) b) /\
      (fst (f u (a ++ b)) = 0 -> snd (f u (a ++ b)) = snd (f (snd (f u a)) b))
    else fst (f u (a ++ b)) = fst (f u a).

(** Same status; same parser and data unless the status is an error. *)
Definition agree (x y : option (Z * ws_parser * U)) : Prop :=
  match x, y with
  | Some (rc, p, u), Some (rc', p', u') => rc = rc' /\ (rc = 0 -> p = p' /\ u = u')
  | _, _ => False
  end.

Definition execute_then (p : ws_parser) (u : U) (a b : list Z) : option (Z * ws_parser * U) :=
  match ws_parser_execute p u a with
  | Some (rc, p1, u1) => if rc =? 0 then ws_parser_execute p1 u1 b else Some (rc, p1, u1)
  | None => None
  end.

Lemma agree_refl x : is_Some x -> agree x x.
Proof. intros [[[rc p] u] ->]. cbn. auto. Qed.

Lemma unmask_app a b p :
  unmask (a ++ b) p =
  let '(a', p1) := unmask a p in let '(b', p2) := unmask b p1 in (a' ++ b', p2).
Proof.
  revert p. induction a as [|x a IH]; intros p; cbn; [by destruct (unmask b p)|].
  rewrite IH. destruct (unmask a _) as [a' p1]. by destruct (unmask b p1).
Qed.

Lemma end_nonzero q v rest rc p' u' : end_of_payload q v rest = (inl rc, p', u') -> rc <> 0.
Proof.
  unfold end_of_payload, call. destruct (control q || fin q); [|done].
  destruct (_ =? 0) eqn:E; [done|]. intros. simplify_eq. lia.
Qed.

(** An iteration that returns from the parser returns an error. *)
Lemma iter_nonzero p u c rest rc p' u' : ws_iter p u c rest = (inl rc, p', u') -> rc <> 0.
Proof.
  unfold ws_iter, do_opcode, do_length, do_extended_length, do_mask, do_payload, call.
  intros Hi.
  destruct (state p); repeat match type of Hi with
    | context [if ?b then _ else _] => destruct b eqn:?; cbn in Hi
    | context [let '(_, _) := ?x in _] => destruct x; cbn in Hi
    end; try (by apply end_nonzero in Hi); simplify_eq; try done; lia.
Qed.

(** The payload callback in use. *)
Definition payload_cb (p : ws_parser) : U -> list Z -> Z * U :=
  if control p then on_control_payload cb else on_data_payload cb.

Definition maybe_unmask (l : list Z) (p : ws_parser) : list Z * ws_parser :=
  if mask_flag p then unmask l p else (l, p).

(** What is done with a chunk of payload. *)
Definition take_chunk (p : ws_parser) (u : U) (chunk rest : list Z) : iteration :=
  let '(ch, q) := maybe_unmask chunk p in
  call (payload_cb p u ch) q (fun u =>
    let q := set_remaining (bytes_remaining q - Z.of_nat (length chunk)) q in
    if bytes_remaining q =? 0 then end_of_payload q u rest else (inr rest, q, u)).

Lemma payload_take_chunk p u chunk rest :
  (Z.of_nat (length chunk) = bytes_remaining p \/
   rest = [] /\ Z.of_nat (length chunk) <= bytes_remaining p) ->
  do_payload p u (chunk ++ rest) = take_chunk p u chunk rest.
Proof.
  intros Hl. unfold do_payload, take_chunk, maybe_unmask, payload_cb.
  replace (Z.to_nat _) with (length chunk).
  2: { rewrite length_app. destruct Hl as [Hl|[-> Hl]]; cbn; lia. }
  rewrite take_app_length, drop_app_length.
  destruct (mask_flag p) eqn:Em; [|by destruct (control p)].
  destruct (unmask_frame chunk p) as (_ & _ & Hc & _). destruct (unmask chunk p) as [ch q]; cbn in *.
  rewrite Hc. by destruct (control p).
Qed.

Lemma maybe_unmask_app a b p :
  maybe_unmask (a ++ b) p =
  let '(a', p1) := maybe_unmask a p in let '(b', p2) := maybe_unmask b p1 in (a' ++ b', p2).
Proof.
  unfold maybe_unmask. destruct (mask_flag p) eqn:Em; [|by rewrite Em].
  rewrite unmask_app. destruct (unmask_frame a p) as (_ & _ & _ & _ & Hf & _).
  destruct (unmask a p) as [a' p1]; cbn in *. by rewrite Hf, Em.
Qed.

Lemma maybe_unmask_frame l p :
  bytes_remaining (snd (maybe_unmask l p)) = bytes_remaining p /\ state (snd (maybe_unmask l p)) = state p /\
  control (snd (maybe_unmask l p)) = control p /\ fin (snd (maybe_unmask l p)) = fin p.
Proof.
  unfold maybe_unmask. destruct (mask_flag p); [|done]. destruct (unmask_frame l p) as (? & ? & ? & ? & _). auto.
Qed.

Lemma maybe_unmask_remaining l n p :
  maybe_unmask l (set_remaining n p) =
  let '(l', p') := maybe_unmask l p in (l', set_remaining n p').
Proof.
  unfold maybe_unmask; cbn. destruct (mask_flag p); [|done].
  revert p. induction l as [|b l IH]; intros p; [done|]. cbn.
  change (set_mask_pos ((mask_pos p + 1) mod 4) (set_remaining n p))
    with (set_remaining n (set_mask_pos ((mask_pos p + 1) mod 4) p)).
  rewrite IH. by destruct (unmask l _).
Qed.

(** A chunk taken in two pieces. *)
Lemma take_chunk_app p u a b rest :
  additive (payload_cb p) -> Z.of_nat (length a) < bytes_remaining p ->
  match take_chunk p u a [] with
  | (inr _, p1, u1) =>
      state p1 = state p /\ bytes_remaining p1 = bytes_remaining p - Z.of_nat (length a) /\
      match take_chunk p u (a ++ b) rest, take_chunk p1 u1 b rest with
      | (inl rc, _, _), (inl rc', _, _) => rc = rc'
      | (inr x, q, v), (inr y, q', v') => x = y /\ q = q' /\ v = v'
      | _, _ => False
      end
  | (inl rc, _, _) => exists q v, take_chunk p u (a ++ b) rest = (inl rc, q, v)
  end.
Proof.
  intros Hadd Hlt. pose proof (maybe_unmask_app a b p) as Eab. unfold take_chunk at 1.
  destruct (maybe_unmask_frame a p) as (Hr & Hs & Hc & Hf).
  destruct (maybe_unmask a p) as [a' p1] eqn:Ea; cbn [fst snd] in *.
  destruct (maybe_unmask_frame b p1) as (Hr2 & _ & _ & _).
  destruct (maybe_unmask b p1) as [b' p2] eqn:Eb; cbn [fst snd] in *.
  specialize (Hadd u a' b'). unfold call at 1.
  destruct (payload_cb p u a') as [rc v] eqn:Ef; cbn [fst snd] in *. destruct (rc =? 0) eqn:Erc.
  - cbn [bytes_remaining set_remaining]. rewrite Hr.
    replace (bytes_remaining p - Z.of_nat (length a) =? 0) with false by lia.
    split; [done|]. split; [done|]. unfold take_chunk. rewrite Eab.
    rewrite maybe_unmask_remaining, Eb. unfold call.
    replace (payload_cb (set_remaining _ p1)) with (payload_cb p) by (unfold payload_cb; cbn; by rewrite Hc).
    destruct (payload_cb p u (a' ++ b')) as [rc1 v1], (payload_cb p v b') as [rc2 v2]; cbn [fst snd] in *.
    destruct Hadd as [Hrc Hv]. subst rc2. destruct (rc1 =? 0) eqn:E1; [|done].
    rewrite Hv by lia. cbn [bytes_remaining set_remaining].
    rewrite Hr2, Hr, length_app, Nat2Z.inj_add, Z.sub_add_distr.
    assert (forall x y z, set_remaining x (set_remaining y z) = set_remaining x z) as Hss by done.
    rewrite Hss.
    by destruct (if bytes_remaining p - Z.of_nat (length a) - Z.of_nat (length b) =? 0 then _ else _) as [[[]]].
  - unfold take_chunk. rewrite Eab. unfold call.
    destruct (payload_cb p u (a' ++ b')) as [rc1 v1]; cbn [fst snd] in *. rewrite Hadd, Erc. eauto.
Qed.

Lemma take_chunk_local p u chunk :
  exists (r : Z + unit) p' u', forall rest,
    take_chunk p u chunk rest = (match r with inl rc => inl rc | inr _ => inr rest end, p', u').
Proof.
  unfold take_chunk, end_of_payload, call. destruct (maybe_unmask chunk p) as [ch q].
  repeat match goal with
  | |- context [if ?b then _ else _] => destruct b
  | |- exists _ _ _, forall rest, (_, ?q, ?v) = _ => solve [by eexists (inl _), q, v | by eexists (inr tt), q, v]
  end.
Qed.

Lemma iter_payload p u c a rest :
  state p = S_PAYLOAD -> ws_iter p u c (a ++ rest) = do_payload p u ((c :: a) ++ rest).
Proof. intros Hs. unfold ws_iter. by rewrite Hs. Qed.

Lemma execute_nonempty p u a :
  wf p -> Forall is_byte a -> a <> [] -> state p = S_PAYLOAD ->
  ws_parser_execute p u a =
  match do_payload p u a with
  | (inl rc, p', u') => Some (rc, p', u')
  | (inr rest', p', u') => ws_parser_execute p' u' rest'
  end.
Proof.
  intros Hp Hb Ha Hs. destruct a as [|c a]; [done|]. apply Forall_cons in Hb as [Hc Hb].
  rewrite execute_cons by done. unfold ws_iter. by rewrite Hs.
Qed.

Lemma payload_nonzero p u a rc p' u' :
  a <> [] -> state p = S_PAYLOAD -> do_payload p u a = (inl rc, p', u') -> rc <> 0.
Proof.
  intros Ha Hs Hd. destruct a as [|c a]; [done|]. apply (iter_nonzero p u c a rc p' u').
  unfold ws_iter. by rewrite Hs.
Qed.

Lemma payload_wf p u a rest' p' u' :
  wf p -> Forall is_byte a -> a <> [] -> state p = S_PAYLOAD ->
  do_payload p u a = (inr rest', p', u') -> wf p' /\ Forall is_byte rest'.
Proof.
  intros Hp Hb Ha Hs Hd. destruct a as [|c a]; [done|]. apply Forall_cons in Hb as [Hc Hb].
  assert (ws_iter p u c a = (inr rest', p', u')) as Hi by (unfold ws_iter; by rewrite Hs).
  apply iter_wf in Hi as [? [k ->]]; [|done..]. split; [done|by apply Forall_drop].
Qed.

(** The remaining payload exceeds the first buffer. *)
Lemma chunk_short p u a b :
  additive (payload_cb p) -> wf p -> Forall is_byte a -> Forall is_byte b ->
  a <> [] -> state p = S_PAYLOAD -> Z.of_nat (length a) < bytes_remaining p ->
  agree (ws_parser_execute p u (a ++ b)) (execute_then p u a b).
Proof.
  intros Hadd Hp Ha Hb Hne Hs Hlt. unfold execute_then.
  rewrite (execute_nonempty p u a) by done.
  replace (do_payload p u a) with (take_chunk p u a [])
    by (rewrite <-(app_nil_r a) at 2; rewrite payload_take_chunk; [done|right; split; [done|lia]]).
  set (n := Z.to_nat (Z.min (Z.of_nat (length b)) (bytes_remaining p - Z.of_nat (length a)))).
  rewrite <-(take_drop n b) at 1. rewrite app_assoc.
  assert (length (take n b) = n) as Hn by (rewrite length_take; subst n; lia).
  assert (do_payload p u ((a ++ take n b) ++ drop n b) = take_chunk p u (a ++ take n b) (drop n b)) as E1.
  { apply payload_take_chunk. rewrite length_app, Hn.
    destruct (decide (Z.of_nat (length b) <= bytes_remaining p - Z.of_nat (length a))) as [Hle|Hgt];
      [right|left; subst n; lia].
    split; [apply drop_ge; subst n; lia|subst n; lia]. }
  assert (Forall is_byte ((a ++ take n b) ++ drop n b)) as Hab.
  { rewrite <-app_assoc, take_drop. by apply Forall_app. }
  rewrite (execute_nonempty p u) by (done || (by destruct a)). rewrite E1.
  pose proof (take_chunk_app p u a (take n b) (drop n b) Hadd Hlt) as Happ.
  assert (forall rc q v, take_chunk p u a [] = (inl rc, q, v) -> rc <> 0) as Hnz.
  { intros rc q v Ht. apply (payload_nonzero p u a rc q v Hne Hs).
    rewrite <-(app_nil_r a). rewrite payload_take_chunk; [done|right; split; [done|lia]]. }
  destruct (take_chunk p u a []) as [[[rc|x] p1] u1] eqn:Et.
  - destruct Happ as (q & v & ->). specialize (Hnz rc p1 u1 eq_refl).
    cbn. destruct (rc =? 0) eqn:E; [lia|]. cbn. by split.
  - destruct Happ as (Hs1 & Hr1 & Happ).
    assert (x = []) as -> by (destruct (take_chunk_local p u a) as ([] & ? & ? & Hloc);
      specialize (Hloc []); rewrite Et in Hloc; by simplify_eq).
    cbn. destruct (decide (b = [])) as [->|Hbne].
    { rewrite take_nil, drop_nil, app_nil_r, Et. cbn. by split. }
    rewrite (execute_nonempty p1 u1 b); [|split; [lia|intros; lia]|done|done|by rewrite Hs1].
    rewrite <-(take_drop n b) at 3. rewrite (payload_take_chunk p1 u1).
    2: { rewrite Hn, Hr1. destruct (decide (Z.of_nat (length b) <= bytes_remaining p - Z.of_nat (length a)));
         [right|left; subst n; lia]. split; [apply drop_ge; subst n; lia|subst n; lia]. }
    destruct (take_chunk p u (a ++ take n b) (drop n b)) as [[[rc1|r1] q1] v1] eqn:Eab,
      (take_chunk p1 u1 (take n b) (drop n b)) as [[[rc2|r2] q2] v2]; try done.
    + subst rc2. split; [done|]. intros ->. exfalso. eapply payload_nonzero; [|exact Hs|by rewrite E1|done].
      by destruct a.
    + destruct Happ as (-> & -> & ->). apply agree_refl.
      destruct (payload_wf p u _ r2 q2 v2 Hp Hab) as [Hq Hr]; [by destruct a|done|by rewrite E1|].
      by apply (loop_enough (length r2)).
Qed.

Lemma chunk_independent p u a b :
  additive (on_data_payload cb) -> additive (on_control_payload cb) ->
  wf p -> Forall is_byte a -> Forall is_byte b ->
  agree (ws_parser_execute p u (a ++ b)) (execute_then p u a b).
Proof.
  intros Hd Hc. assert (forall q, additive (payload_cb q)) as Hadd
    by (intros q; unfold payload_cb; by destruct (control q)).
  remember (length a) as n eqn:Hn. revert p u a Hn.
  induction n as [n IH] using (well_founded_induction lt_wf). intros p u a -> Hp Ha Hb.
  destruct a as [|c a]; [by apply agree_refl, (loop_enough (length b))|].
  apply Forall_cons in Ha as Hca. destruct Hca as [Hcb Hab].
  assert (Forall is_byte (a ++ b)) by (by apply Forall_app).
  destruct (decide (state p = S_PAYLOAD)) as [Hs|Hs].
  - destruct (decide (Z.of_nat (length (c :: a)) < bytes_remaining p)) as [Hlt|Hge];
      [by apply chunk_short|].
    destruct Hp as [Hr Hpos]. specialize (Hpos Hs). set (k := Z.to_nat (bytes_remaining p)).
    assert (length (take k (c :: a)) = k) as Hk by (rewrite length_take; subst k; lia).
    assert (exists j, k = S j) as [j Hj] by (exists (pred k); lia).
    assert (forall rest, do_payload p u (take k (c :: a) ++ rest) = take_chunk p u (take k (c :: a)) rest) as Et.
    { intros rest. apply payload_take_chunk. left. rewrite Hk. subst k. lia. }
    destruct (take_chunk_local p u (take k (c :: a))) as (r & p1 & u1 & Hloc).
    unfold execute_then. cbn [app]. rewrite !execute_cons by (done || split; done).
    unfold ws_iter; rewrite Hs.
    replace (c :: a ++ b) with (take k (c :: a) ++ (drop k (c :: a) ++ b))
      by (by rewrite app_assoc, take_drop).
    replace (do_payload p u (c :: a)) with (do_payload p u (take k (c :: a) ++ drop k (c :: a)))
      by (by rewrite take_drop).
    rewrite !Et, !Hloc. destruct r as [rc|[]].
    + assert (rc <> 0) as Hrc.
      { eapply (payload_nonzero p u (c :: a)); [done|done|]. rewrite <-(take_drop k (c :: a)). by rewrite Et, Hloc. }
      destruct (rc =? 0) eqn:E; [lia|]. cbn. by split.
    + apply (IH (length (drop k (c :: a)))); [rewrite length_drop; cbn; lia|done| |by apply Forall_drop|done].
      eapply (payload_wf p u (c :: a)); [by split|done|done|done|].
      rewrite <-(take_drop k (c :: a)). by rewrite Et, Hloc.
  - destruct (iter_local p u c Hs) as (r & p1 & u1 & Hloc).
    unfold execute_then. cbn [app]. rewrite !execute_cons by done. rewrite !Hloc. destruct r as [rc|[]].
    + pose proof (iter_nonzero p u c a rc p1 u1 (Hloc a)). destruct (rc =? 0) eqn:E; [lia|]. cbn. by split.
    + apply (IH (length a)); [cbn; lia|done| |done|done]. exact (proj1 (iter_wf p u c a _ _ _ Hp Hcb (Hloc a))).
Qed.
End Execute.
