(* ===== verification/WsCodec.v ===== *)
(** * The websocket codec

    Models [src/src/http/WsCodec.cpp] and [src/include/futures/http/WsCodec.h]:
    the frame assembler on top of the parser of [WsParser] and the frame
    encoder.  Strings are lists of bytes. *)

From S2P Require Import Prelude WsParser.
Local Open Scope Z_scope.
Local Open Scope cpp_scope.

(** ** The frame assembler *)

(** [src/src/http/WsCodec.cpp:107-118] Parser *)
Record Parser := mkParser {
  cur_data_ : list Z;
  cur_data_type_ : Z;
  cur_control_ : list Z;
  cur_control_type_ : Z;
  q_ : list (Z * list Z)
}.

(** [src/src/http/WsCodec.cpp:18-24] Parser::data_begin_cb *)
Definition data_begin_cb (s : Parser) (type : Z) : Z * Parser :=
  (0, mkParser [] type (cur_control_ s) (cur_control_type_ s) (q_ s)).

(** [src/src/http/WsCodec.cpp:26-33] Parser::data_payload_cb *)
Definition data_payload_cb (s : Parser) (at_ : list Z) : Z * Parser :=
  if 1024 * 1024 <? Z.of_nat (length (cur_data_ s) + length at_) then (WS_CONTROL_TOO_LONG, s)
  else (0, mkParser (cur_data_ s ++ at_) (cur_data_type_ s) (cur_control_ s) (cur_control_type_ s) (q_ s)).

(** [src/src/http/WsCodec.cpp:35-39] Parser::data_end_cb *)
Definition data_end_cb (s : Parser) : Z * Parser :=
  (0, mkParser (cur_data_ s) (cur_data_type_ s) (cur_control_ s) (cur_control_type_ s)
        (q_ s ++ [(cur_data_type_ s, cur_data_ s)])).

(** [src/src/http/WsCodec.cpp:41-47] Parser::control_begin_cb *)
Definition control_begin_cb (s : Parser) (type : Z) : Z * Parser :=
  (0, mkParser (cur_data_ s) (cur_data_type_ s) [] type (q_ s)).

(** [src/src/http/WsCodec.cpp:49-54] Parser::control_payload_cb *)
Definition control_payload_cb (s : Parser) (at_ : list Z) : Z * Parser :=
  (0, mkParser (cur_data_ s) (cur_data_type_ s) (cur_control_ s ++ at_) (cur_control_type_ s) (q_ s)).

(** [src/src/http/WsCodec.cpp:56-60] Parser::control_end_cb *)
Definition control_end_cb (s : Parser) : Z * Parser :=
  (0, mkParser (cur_data_ s) (cur_data_type_ s) (cur_control_ s) (cur_control_type_ s)
        (q_ s ++ [(cur_control_type_ s, cur_control_ s)])).

(** [src/src/http/WsCodec.cpp:62-71] Parser::Parser *)
Definition cbs_ : ws_callbacks Parser :=
  {| on_data_begin := data_begin_cb; on_data_payload := data_payload_cb; on_data_end := data_end_cb;
     on_control_begin := control_begin_cb; on_control_payload := control_payload_cb;
     on_control_end := control_end_cb |}.

(** [src/src/http/WsCodec.cpp:73-76] Parser::execute *)
Definition execute (p : ws_parser) (s : Parser) (buf : list Z) : option (Z * ws_parser * Parser) :=
  ws_parser_execute cbs_ p s buf.

(** [src/include/futures/http/WsCodec.h:13-21] DataFrame::type_t *)
Inductive type_t := HANDSHAKE | HANDSHAKE_RESPONSE | TEXT | BINARY | CLOSE | PING | PONG.
#[global] Instance type_t_eq_dec : EqDecision type_t.
Proof. solve_decision. Defined.

Definition type_code (t : type_t) : Z :=
  match t with
  | HANDSHAKE => 1 | HANDSHAKE_RESPONSE => 2 | TEXT => 3 | BINARY => 4
  | CLOSE => 5 | PING => 6 | PONG => 7
  end.

(** [src/src/http/WsCodec.cpp:78-78] Parser::hasData *)
Definition hasData (s : Parser) : bool := match q_ s with [] => false | _ => true end.

(** [src/src/http/WsCodec.cpp:80-105] Parser::pollFrame *)
Definition pollFrame (s : Parser) : res (option (type_t * list Z)) * Parser :=
  match q_ s with
  | [] => (Ret None, s)
  | (ty, data) :: q =>
      let s' := mkParser (cur_data_ s) (cur_data_type_ s) (cur_control_ s) (cur_control_type_ s) q in
      if ty =? WS_FRAME_TEXT then (Ret (Some (TEXT, data)), s')
      else if ty =? WS_FRAME_BINARY then (Ret (Some (BINARY, data)), s')
      else if ty =? WS_FRAME_CLOSE then (Ret (Some (CLOSE, data)), s')
      else if ty =? WS_FRAME_PING then (Ret (Some (PING, data)), s')
      else if ty =? WS_FRAME_PONG then (Ret (Some (PONG, data)), s')
      else (Throw (std_runtime_error "Invalid frame type"), s')
  end.

(** ** The frame encoder *)

(** The loop that writes the [n] low bytes of [length], most significant first. *)
(** [src/src/http/WsCodec.cpp:235-237] RFC6455Encoder::encodeLength *)
Fixpoint length_bytes (n : nat) (length : Z) : list Z :=
  match n with
  | O => []
  | S c => (Z.shiftr length (8 * Z.of_nat c)) mod 256 :: length_bytes c length
  end.

(** [src/src/http/WsCodec.cpp:223-242] RFC6455Encoder::encodeLength *)
Definition encodeLength (length : Z) : list Z :=
  if 126 <=? length then
    if 65535 <? length then 127 :: length_bytes 8 length else 126 :: length_bytes 2 length
  else [u8 length].

(** The branches after the first compare the byte [fsv], which is 0x80, with the
    frame types. *)
(** [src/src/http/WsCodec.cpp:202-215] RFC6455Encoder::encode, first byte *)
Definition first_byte (ty : type_t) : res Z :=
  let fsv := 128 in
  if decide (ty = TEXT) then Ret (Z.lor fsv WS_FRAME_TEXT)
  else if fsv =? type_code CLOSE then Ret (Z.lor fsv WS_FRAME_CLOSE)
  else if fsv =? type_code BINARY then Ret (Z.lor fsv WS_FRAME_BINARY)
  else if fsv =? type_code PING then Ret (Z.lor fsv WS_FRAME_PING)
  else if fsv =? type_code PONG then Ret (Z.lor fsv WS_FRAME_PONG)
  else Throw (IOError "unimpl").

(** The bytes of a frame. *)
(** [src/src/http/WsCodec.cpp:216-219] RFC6455Encoder::encode *)
Definition encode_frame (ty : type_t) (data : list Z) : res (list Z) :=
  let! fsv := first_byte ty in
  Ret (fsv :: encodeLength (Z.of_nat (length data)) ++ data).

(** ** Frames on the wire

    The format of RFC 6455, section 5.2, as the specification to parse
    against: an unfragmented frame with opcode [op], masked if [mask] is given. *)
Definition masked (m : option (Z * Z * Z * Z)) (l : list Z) : list Z :=
  match m with
  | None => l
  | Some (a, b, c, d) =>
      imap (fun i x => Z.lxor x (match (i mod 4)%nat with 0%nat => a | 1%nat => b | 2%nat => c | _ => d end)) l
  end.

Definition wire_length (flag : bool) (n : Z) : list Z :=
  match encodeLength n with
  | [] => []
  | b :: l => (if flag then Z.lor b 128 else b) :: l
  end.

Definition wire (op : Z) (m : option (Z * Z * Z * Z)) (data : list Z) : list Z :=
  Z.lor 128 op :: wire_length (bool_decide (is_Some m)) (Z.of_nat (length data)) ++
  match m with Some (a, b, c, d) => [a; b; c; d] | None => [] end ++ masked m data.

(** ** Bit arithmetic of the frame header *)

(** A fact about one byte is checked on all 256 of them. *)
Lemma byte_all (P : Z -> bool) :
  forallb (fun n => P (Z.of_nat n)) (seq 0 256) = true -> forall b, is_byte b -> P b = true.
Proof.
  intros Hall b Hb. unfold is_byte in Hb. rewrite forallb_forall in Hall.
  specialize (Hall (Z.to_nat b)). rewrite Z2Nat.id in Hall by lia. apply Hall, in_seq. lia.
Qed.

Lemma length_byte b :
  0 <= b < 128 ->
  Z.land b 127 = b /\ Z.land b 128 = 0 /\ Z.land (Z.lor b 128) 127 = b /\ Z.land (Z.lor b 128) 128 = 128 /\
  is_byte (Z.lor b 128).
Proof.
  intros Hb.
  pose proof (byte_all (fun b => negb (b <? 128) || ((Z.land b 127 =? b) && (Z.land b 128 =? 0)
    && (Z.land (Z.lor b 128) 127 =? b) && (Z.land (Z.lor b 128) 128 =? 128)
    && (0 <=? Z.lor b 128) && (Z.lor b 128 <? 256))) ltac:(by vm_compute) b ltac:(unfold is_byte; lia)) as H.
  cbn beta in H.
  unfold is_byte. lia.
Qed.

Lemma lor_low a b k : 0 <= k -> 0 <= b < 2 ^ k -> Z.lor (Z.shiftl a k) b = a * 2 ^ k + b.
Proof.
  intros Hk Hb. rewrite <-Z.shiftl_mul_pow2 by done. symmetry. apply Z.add_nocarry_lor.
  apply Z.bits_inj'. intros n Hn. rewrite Z.land_spec, Z.bits_0.
  destruct (decide (n < k)) as [Hlt|Hge].
  - by rewrite Z.shiftl_spec_low.
  - rewrite (Z.testbit_eqb b n) by lia. rewrite Z.div_small, andb_comm; [done|].
    split; [lia|]. eapply Z.lt_le_trans; [apply Hb|]. apply Z.pow_le_mono_r; lia.
Qed.

(** One more byte of a big-endian number. *)
Lemma length_step n k :
  0 <= k -> 0 <= n ->
  Z.lor (Z.shiftl (Z.shiftr n (k + 8)) (k + 8)) (Z.shiftl ((Z.shiftr n k) mod 256) k) =
  Z.shiftl (Z.shiftr n k) k.
Proof.
  intros Hk Hn. rewrite (Z.add_comm k 8) at 2. rewrite <-Z.shiftl_shiftl by lia.
  rewrite <-Z.shiftl_lor. f_equal. rewrite lor_low; [|lia|apply Z.mod_pos_bound; lia].
  rewrite <-Z.shiftr_shiftr by lia. rewrite (Z.shiftr_div_pow2 _ 8) by lia.
  change (2 ^ 8) with 256. rewrite Z.mul_comm. symmetry. apply Z.div_mod. lia.
Qed.

Lemma shift_top n k : 0 <= k -> 0 <= n < 2 ^ (k + 8) -> (Z.shiftr n k) mod 256 = Z.shiftr n k.
Proof.
  intros Hk Hn. apply Z.mod_small. rewrite Z.shiftr_div_pow2 by lia. split; [apply Z.div_pos; lia|].
  apply Z.div_lt_upper_bound; [lia|]. rewrite Z.pow_add_r in Hn by lia. lia.
Qed.

Lemma length_bytes_byte n k : Forall is_byte (length_bytes k n).
Proof.
  induction k as [|k IH]; constructor; [|done]. unfold is_byte. apply Z.mod_pos_bound. lia.
Qed.

Lemma encodeLength_cases n :
  0 <= n < 2 ^ 64 ->
  (n < 126 /\ encodeLength n = [n]) \/
  (126 <= n < 65536 /\ encodeLength n = 126 :: length_bytes 2 n) \/
  (65536 <= n /\ encodeLength n = 127 :: length_bytes 8 n).
Proof.
  intros Hn. unfold encodeLength, u8.
  destruct (126 <=? n) eqn:E1; [destruct (65535 <? n) eqn:E2|]; [right; right|right; left|left]; split; try lia; try done.
  rewrite Z.mod_small; [done|]. change (2 ^ 8) with 256. lia.
Qed.

(** ** Parsing a frame from the wire *)
Section Wire.
Context {U : Type} (cb : ws_callbacks U).
Abbreviation exec := (ws_parser_execute cb).

(** One iteration that consumes one byte. *)
Lemma exec_byte p u c rest p' u' :
  wf p -> is_byte c -> Forall is_byte rest ->
  ws_iter cb p u c rest = (inr rest, p', u') -> exec p u (c :: rest) = exec p' u' rest.
Proof. intros Hp Hc Hr Hi. rewrite execute_cons by done. by rewrite Hi. Qed.

(** The parser after the length of a frame. *)
Definition after_length (p : ws_parser) (flag : bool) (n : Z) : ws_parser :=
  set_state (if flag then S_MASK_0 else S_PAYLOAD) (set_remaining n (set_mask_flag flag p)).

Lemma wf_set_state p s : 0 <= bytes_remaining p -> s <> S_PAYLOAD -> wf (set_state s p).
Proof. intros Hp Hs. by split. Qed.

(** The bytes of [n] above bit [k] have been read. *)
Definition upper (k n : Z) : Z := Z.shiftl (Z.shiftr n k) k.

Lemma upper_nonneg k n : 0 <= n -> 0 <= upper k n.
Proof. intros Hn. by apply Z.shiftl_nonneg, Z.shiftr_nonneg. Qed.

Lemma shifted_byte n k : is_byte ((Z.shiftr n k) mod 256).
Proof. apply Z.mod_pos_bound. lia. Qed.

Lemma parse_more st st' k p u n rest :
  (forall q c l, ws_iter cb (set_state st q) u c l =
     (inr l, set_state st' (set_remaining (Z.lor (bytes_remaining q) (Z.shiftl c k)) q), u)) ->
  st <> S_PAYLOAD -> 0 <= k -> 0 <= n -> Forall is_byte rest ->
  exec (set_state st (set_remaining (upper (k + 8) n) p)) u ((Z.shiftr n k) mod 256 :: rest) =
  exec (set_state st' (set_remaining (upper k n) p)) u rest.
Proof.
  intros Hst Hnp Hk Hn Hr. apply exec_byte; [|apply shifted_byte|done|].
  - apply wf_set_state; [by apply upper_nonneg|done].
  - rewrite Hst. cbn [bytes_remaining set_remaining]. unfold upper. by rewrite length_step.
Qed.

(** The eight bytes of a long length. *)
Lemma parse_length_64 p u n rest :
  65536 <= n < 2 ^ 64 -> 0 <= bytes_remaining p -> Forall is_byte rest ->
  exec (set_state S_LENGTH_64_0 p) u (length_bytes 8 n ++ rest) =
  exec (set_state (mask_or_payload p) (set_remaining n p)) u rest.
Proof.
  intros Hn Hp Hr. unfold length_bytes. cbn [app].
  change (8 * Z.of_nat 7) with 56. change (8 * Z.of_nat 6) with 48. change (8 * Z.of_nat 5) with 40.
  change (8 * Z.of_nat 4) with 32. change (8 * Z.of_nat 3) with 24. change (8 * Z.of_nat 2) with 16.
  change (8 * Z.of_nat 1) with 8.
  assert (forall k l, Forall is_byte l -> Forall is_byte (Z.shiftr n k mod 256 :: l)) as Hb
    by (intros; constructor; [apply shifted_byte|done]).
  rewrite (exec_byte _ _ _ _ (set_state S_LENGTH_64_1 (set_remaining (upper 56 n) p)) u);
    [|by apply wf_set_state|apply shifted_byte|by repeat apply Hb|].
  2: { unfold upper. rewrite (shift_top n 56) by lia. done. }
  rewrite (parse_more S_LENGTH_64_1 S_LENGTH_64_2 48) by (done || lia || by repeat apply Hb).
  rewrite (parse_more S_LENGTH_64_2 S_LENGTH_64_3 40) by (done || lia || by repeat apply Hb).
  rewrite (parse_more S_LENGTH_64_3 S_LENGTH_64_4 32) by (done || lia || by repeat apply Hb).
  rewrite (parse_more S_LENGTH_64_4 S_LENGTH_64_5 24) by (done || lia || by repeat apply Hb).
  rewrite (parse_more S_LENGTH_64_5 S_LENGTH_64_6 16) by (done || lia || by repeat apply Hb).
  rewrite (parse_more S_LENGTH_64_6 S_LENGTH_64_7 8) by (done || lia || by repeat apply Hb).
  apply exec_byte; [apply wf_set_state; [apply upper_nonneg; lia|done]|apply shifted_byte|done|].
  pose proof (length_step n 0 ltac:(lia) ltac:(lia)) as Hs. rewrite !Z.shiftl_0_r, !Z.shiftr_0_r in Hs.
  unfold ws_iter, do_extended_length; cbn [state set_state bytes_remaining set_remaining].
  change (8 * Z.of_nat 0) with 0. rewrite Z.shiftr_0_r. unfold upper. change (0 + 8) with 8 in Hs. rewrite Hs.
  destruct (n <? 65536) eqn:E; [lia|]. done.
Qed.

(** The two bytes of a medium length. *)
Lemma parse_length_16 p u n rest :
  126 <= n < 65536 -> 0 <= bytes_remaining p -> Forall is_byte rest ->
  exec (set_state S_LENGTH_16_0 p) u (length_bytes 2 n ++ rest) =
  exec (set_state (mask_or_payload p) (set_remaining n p)) u rest.
Proof.
  intros Hn Hp Hr. unfold length_bytes. cbn [app].
  rewrite (exec_byte _ _ _ _ (set_state S_LENGTH_16_1 (set_remaining (upper 8 n) p)) u);
    [|by apply wf_set_state|apply shifted_byte|constructor; [apply shifted_byte|done]|].
  2: { unfold upper. change (8 * Z.of_nat 1) with 8. rewrite (shift_top n 8) by lia. done. }
  apply exec_byte; [apply wf_set_state; [apply upper_nonneg; lia|done]|apply shifted_byte|done|].
  pose proof (length_step n 0 ltac:(lia) ltac:(lia)) as Hs. rewrite !Z.shiftl_0_r, !Z.shiftr_0_r in Hs.
  unfold ws_iter, do_extended_length; cbn [state set_state bytes_remaining set_remaining].
  change (8 * Z.of_nat 0) with 0. rewrite Z.shiftr_0_r. unfold upper. change (0 + 8) with 8 in Hs. rewrite Hs.
  destruct (n <? 126) eqn:E; [lia|]. done.
Qed.

Lemma wire_length_byte flag n : 0 <= n < 2 ^ 64 -> Forall is_byte (wire_length flag n).
Proof.
  intros Hn. unfold wire_length.
  destruct (encodeLength_cases n Hn) as [[Hlt ->]|[[Hlt ->]|[Hlt ->]]];
    (constructor; [|try apply length_bytes_byte; constructor]);
    [pose proof (length_byte n ltac:(lia)) as Hb| |]; destruct flag; try (unfold is_byte; cbn; lia);
    [apply Hb|by vm_compute..].
Qed.

(** The length field of a frame with a payload or a mask. *)
Lemma parse_length p u flag n rest :
  state p = S_LENGTH -> 0 <= bytes_remaining p -> 0 <= n < 2 ^ 64 -> (control p = true -> n <= 125) ->
  0 < n \/ flag = true -> Forall is_byte rest ->
  exec p u (wire_length flag n ++ rest) = exec (after_length p flag n) u rest.
Proof.
  intros Hs Hr Hn Hc Hpos Hrest. unfold wire_length, after_length.
  assert (wf p) as Hwf by (split; [done|]; by rewrite Hs).
  assert (forall b, 0 <= b < 128 -> negb (Z.land (if flag then Z.lor b 128 else b) 128 =? 0) = flag /\
    Z.land (if flag then Z.lor b 128 else b) 127 = b /\ is_byte (if flag then Z.lor b 128 else b)) as Hb.
  { intros b Hb. destruct (length_byte b Hb) as (E0 & E & E' & E2 & ?).
    destruct flag; rewrite ?E0, ?E, ?E', ?E2; (split; [done|split; [done|]]); [done|unfold is_byte; lia]. }
  destruct (encodeLength_cases n Hn) as [[Hlt ->]|[[Hlt ->]|[Hlt ->]]]; cbn [app].
  - destruct (Hb n ltac:(lia)) as (Hf & Hl & Hby).
    apply exec_byte; [done|done|done|]. unfold ws_iter. rewrite Hs. unfold do_length. rewrite Hf, Hl.
    cbn [control set_mask_flag]. replace (125 <? n) with false by lia. replace (n <? 126) with true by lia.
    cbn [state set_state bytes_remaining set_remaining mask_or_payload mask_flag set_mask_flag].
    unfold mask_or_payload; cbn [mask_flag set_mask_flag set_remaining].
    destruct (control p), flag; cbn [andb]; try done;
      (rewrite bool_decide_true by done; destruct (n =? 0) eqn:E; [destruct Hpos; [lia|done]|done]).
  - destruct (control p) eqn:Ec; [specialize (Hc eq_refl); lia|].
    destruct (Hb 126 ltac:(lia)) as (Hf & Hl & Hby).
    erewrite exec_byte; [apply (parse_length_16 (set_mask_flag flag p) u n rest); [lia|done|done]
      |done|done|apply Forall_app; split; [apply length_bytes_byte|done]|].
    unfold ws_iter. rewrite Hs. unfold do_length. rewrite Hf, Hl. cbn [control set_mask_flag]. by rewrite Ec.
  - destruct (control p) eqn:Ec; [specialize (Hc eq_refl); lia|].
    destruct (Hb 127 ltac:(lia)) as (Hf & Hl & Hby).
    erewrite exec_byte; [apply (parse_length_64 (set_mask_flag flag p) u n rest); [lia|done|done]
      |done|done|apply Forall_app; split; [apply length_bytes_byte|done]|].
    unfold ws_iter. rewrite Hs. unfold do_length. rewrite Hf, Hl. cbn [control set_mask_flag]. by rewrite Ec.
Qed.

Definition with_mask (p : ws_parser) (a b c d : Z) : ws_parser :=
  mkWs (bytes_remaining p) a b c d (fragment p) (fin p) (control p) (mask_flag p) (mask_pos p) S_PAYLOAD.

Lemma parse_mask p u a b c d rest :
  state p = S_MASK_0 -> 0 < bytes_remaining p ->
  is_byte a -> is_byte b -> is_byte c -> is_byte d -> Forall is_byte rest ->
  exec p u (a :: b :: c :: d :: rest) = exec (with_mask p a b c d) u rest.
Proof.
  intros Hs Hr Ha Hb Hc Hd Hrest. destruct p as [n m0 m1 m2 m3 fr fi co mf mp st]; cbn in Hs, Hr; subst.
  do 3 (erewrite exec_byte; [|split; cbn; [lia|done]|done|by repeat (apply Forall_cons; split)|reflexivity]).
  apply exec_byte; [split; cbn; [lia|done]|done|done|].
  unfold ws_iter, do_mask; cbn. by replace (n =? 0) with false by lia.
Qed.

(** What is left to do when a frame ends. *)
Definition exec_from (i : (Z + list Z) * ws_parser * U) : option (Z * ws_parser * U) :=
  match i with
  | (inl rc, p, u) => Some (rc, p, u)
  | (inr rest, p, u) => exec p u rest
  end.

Lemma parse_mask_empty p u a b c d rest :
  state p = S_MASK_0 -> bytes_remaining p = 0 ->
  is_byte a -> is_byte b -> is_byte c -> is_byte d -> Forall is_byte rest ->
  exec p u (a :: b :: c :: d :: rest) = exec_from (end_of_payload cb (with_mask p a b c d) u rest).
Proof.
  intros Hs Hr Ha Hb Hc Hd Hrest. destruct p as [n m0 m1 m2 m3 fr fi co mf mp st]; cbn in Hs, Hr; subst.
  do 3 (erewrite exec_byte; [|split; cbn; [lia|done]|done|by repeat (apply Forall_cons; split)|reflexivity]).
  rewrite execute_cons; [|split; cbn; [lia|done]|done|done]. reflexivity.
Qed.

Lemma parse_length_empty p u rest :
  state p = S_LENGTH -> 0 <= bytes_remaining p -> Forall is_byte rest ->
  exec p u (0 :: rest) =
  exec_from (end_of_payload cb (set_state S_PAYLOAD (set_remaining 0 (set_mask_flag false p))) u rest).
Proof.
  intros Hs Hr Hrest. rewrite execute_cons; [|by split; [|rewrite Hs]|unfold is_byte; lia|done].
  unfold ws_iter. rewrite Hs. unfold do_length. cbn [Z.land Z.eqb negb control set_mask_flag].
  destruct (control p) eqn:Ec; cbn; rewrite bool_decide_true by done; reflexivity.
Qed.

#[local] Arguments Nat.modulo : simpl never.
(** Unmasking undoes masking. *)
Lemma unmask_masked l p i a b c d :
  mask0 p = a -> mask1 p = b -> mask2 p = c -> mask3 p = d -> mask_pos p = Z.of_nat (i mod 4) ->
  fst (unmask (imap (fun j x => Z.lxor x (match ((i + j) mod 4)%nat with
                                 0%nat => a | 1%nat => b | 2%nat => c | _ => d end)) l) p) = l.
Proof.
  revert p i. induction l as [|x l IH]; intros p i Ha Hb Hc Hd Hpos; [done|].
  rewrite imap_cons. cbn.
  specialize (IH (set_mask_pos ((mask_pos p + 1) mod 4) p) (S i) Ha Hb Hc Hd).
  assert (mask_pos (set_mask_pos ((mask_pos p + 1) mod 4) p) = Z.of_nat (S i mod 4)) as Hpos'.
  { cbn [mask_pos set_mask_pos]. rewrite Hpos, !Nat2Z.inj_mod. change (Z.of_nat 4) with 4.
    by rewrite Zplus_mod_idemp_l, Nat2Z.inj_succ. }
  specialize (IH Hpos').
  erewrite (imap_ext _ _ l) in IH; [|intros j y _; replace (S i + j)%nat with (i + S j)%nat by lia; reflexivity].
  cbn in IH. unfold compose in *.
  destruct (unmask _ _) as [l' q] eqn:Eu in IH. cbn in IH. subst l'.
  match goal with |- context [unmask ?x ?y] => replace (unmask x y) with (l, q) by (symmetry; exact Eu) end.
  cbn. f_equal. rewrite Z.lxor_assoc. rewrite Nat.add_0_r, Hpos. unfold nth_mask.
  pose proof (Nat.mod_upper_bound i 4 ltac:(lia)) as Hm. subst.
  destruct (i mod 4)%nat as [|[|[|[|?]]]]; cbn; rewrite ?Z.lxor_nilpotent, ?Z.lxor_0_r; try done; lia.
Qed.
End Wire.

(** ** Frames through the assembler *)
#[local] Arguments ws_parser_execute : simpl never.

Definition is_control (op : Z) : bool := (op =? WS_FRAME_CLOSE) || (op =? WS_FRAME_PING) || (op =? WS_FRAME_PONG).
Definition is_data (op : Z) : bool := (op =? WS_FRAME_TEXT) || (op =? WS_FRAME_BINARY).

(** The sizes the assembler accepts. *)
Definition fits (op : Z) (data : list Z) : Prop :=
  (is_data op = true /\ Z.of_nat (length data) <= 1024 * 1024) \/
  (is_control op = true /\ Z.of_nat (length data) <= 125).

Definition mask_bytes (m : option (Z * Z * Z * Z)) : list Z :=
  match m with Some (a, b, c, d) => [a; b; c; d] | None => [] end.

(** The assembler after a whole frame. *)
Definition deliver (op : Z) (data : list Z) (s : Parser) : Parser :=
  if is_control op then
    mkParser (cur_data_ s) (cur_data_type_ s) data op (q_ s ++ [(op, data)])
  else mkParser data op (cur_control_ s) (cur_control_type_ s) (q_ s ++ [(op, data)]).

(** The parser between two frames. *)
Definition between (p : ws_parser) : Prop := state p = S_OPCODE /\ 0 <= bytes_remaining p.

Lemma between_wf p : between p -> wf p.
Proof. intros [Hs Hr]. split; [done|]. by rewrite Hs. Qed.

Lemma masked_length m l : length (masked m l) = length l.
Proof. destruct m as [[[[a b] c] d]|]; [|done]. apply length_imap. Qed.

Lemma lxor_byte a b : is_byte a -> is_byte b -> is_byte (Z.lxor a b).
Proof.
  unfold is_byte. intros Ha Hb. assert (0 <= Z.lxor a b) by (apply Z.lxor_nonneg; lia). split; [done|].
  change 256 with (2 ^ 8). destruct (decide (Z.lxor a b = 0)) as [->|Hne]; [lia|].
  apply Z.log2_lt_pow2; [lia|]. eapply Z.le_lt_trans; [apply Z.log2_lxor; lia|].
  apply Z.max_lub_lt; [destruct (decide (a = 0)) as [->|]|destruct (decide (b = 0)) as [->|]];
    try (cbn; lia); apply Z.log2_lt_pow2; lia.
Qed.

Lemma masked_bytes m l :
  Forall is_byte (mask_bytes m) -> Forall is_byte l -> Forall is_byte (masked m l).
Proof.
  destruct m as [[[[a b] c] d]|]; [|done]. cbn. intros Hm Hl.
  repeat match goal with H : Forall is_byte (_ :: _) |- _ => apply Forall_cons in H as [? H] end.
  apply Forall_lookup. intros i x Hx. apply list_lookup_imap_Some in Hx as (y & Hy & ->).
  apply lxor_byte; [by eapply Forall_lookup_1 in Hl|]. by case_match; [|case_match; [|case_match]].
Qed.

(** The opcode byte of an unfragmented frame. *)
Definition begun (op : Z) (s : Parser) : Parser :=
  if is_control op then mkParser (cur_data_ s) (cur_data_type_ s) [] op (q_ s)
  else mkParser [] op (cur_control_ s) (cur_control_type_ s) (q_ s).

Definition after_opcode (op : Z) (p : ws_parser) : ws_parser :=
  mkWs (bytes_remaining p) (mask0 p) (mask1 p) (mask2 p) (mask3 p)
    (if is_control op then fragment p else false) true (is_control op) (mask_flag p) (mask_pos p) S_LENGTH.

Lemma parse_opcode p s op rest :
  between p -> is_data op = true \/ is_control op = true -> Forall is_byte rest ->
  execute p s (Z.lor 128 op :: rest) = execute (after_opcode op p) (begun op s) rest.
Proof.
  intros Hp Hop Hr. unfold execute. pose proof (between_wf p Hp) as Hwf. destruct Hp as [Hs _].
  assert (op = 1 \/ op = 2 \/ op = 8 \/ op = 9 \/ op = 10) as Hcases.
  { unfold is_data, is_control, WS_FRAME_TEXT, WS_FRAME_BINARY, WS_FRAME_CLOSE, WS_FRAME_PING, WS_FRAME_PONG in Hop. lia. }
  destruct p as [n m0 m1 m2 m3 fr fi co mf mp st]; cbn in Hs; subst.
  apply exec_byte; [done| |done|]; destruct Hcases as [->|[->|[->|[->| ->]]]]; try reflexivity; by vm_compute.
Qed.

(** The payload, masked or not, is handed to the assembler and ends the frame. *)
Lemma parse_payload p s op m data rest :
  state p = S_PAYLOAD -> bytes_remaining p = Z.of_nat (length data) -> data <> [] ->
  fin p = true -> control p = is_control op -> fits op data ->
  fst (maybe_unmask (masked m data) p) = data ->
  Forall is_byte (masked m data) -> Forall is_byte rest ->
  exists p', between p' /\ execute p (begun op s) (masked m data ++ rest) = execute p' (deliver op data s) rest.
Proof.
  intros Hs Hr Hne Hf Hc Hfits Hun Hb Hrest. unfold execute.
  assert (masked m data <> []) as Hne' by (intros E; apply (f_equal length) in E; rewrite masked_length in E; by destruct data).
  assert (wf p) as Hwf by (split; [lia|intros; rewrite Hr; destruct data; cbn; [done|lia]]).
  rewrite execute_nonempty; [|done|by apply Forall_app|by destruct (masked m data)|done].
  rewrite payload_take_chunk by (left; by rewrite masked_length).
  unfold take_chunk. destruct (maybe_unmask_frame (masked m data) p) as (Hq & Hqs & Hqc & Hqf).
  destruct (maybe_unmask (masked m data) p) as [ch q]; cbn [fst snd] in *. subst ch.
  assert (fst (payload_cb cbs_ p (begun op s) data) = 0 /\
    fst (if control p then on_control_end cbs_ (snd (payload_cb cbs_ p (begun op s) data))
         else on_data_end cbs_ (snd (payload_cb cbs_ p (begun op s) data))) = 0 /\
    snd (if control p then on_control_end cbs_ (snd (payload_cb cbs_ p (begun op s) data))
         else on_data_end cbs_ (snd (payload_cb cbs_ p (begun op s) data))) = deliver op data s) as (E1 & E2 & E3).
  { unfold payload_cb, begun, deliver. rewrite Hc. destruct (is_control op) eqn:Eo; [done|]. cbn.
    unfold data_payload_cb; cbn.
    destruct Hfits as [[Hd Hl]|[Hd Hl]]; [|congruence]. by destruct (_ <? _) eqn:E; [lia|]. }
  unfold call at 1. rewrite E1. cbn [Z.eqb bytes_remaining set_remaining].
  rewrite Hq, Hr, masked_length, Z.sub_diag. cbn [Z.eqb].
  unfold end_of_payload. cbn [control set_remaining fin]. rewrite Hqc, Hqf, Hf, orb_true_r.
  unfold call. rewrite E2, E3. cbn [Z.eqb].
  eexists. split; [|reflexivity]. by split.
Qed.

Lemma fits_op op data : fits op data -> is_data op = true \/ is_control op = true.
Proof. intros [[? _]|[? _]]; auto. Qed.

Lemma fits_length op data : fits op data -> 0 <= Z.of_nat (length data) < 2 ^ 64.
Proof. change (2 ^ 64) with 18446744073709551616. intros [[_ ?]|[_ ?]]; lia. Qed.

(** A frame without payload. *)
Lemma end_empty p s op rest :
  fin p = true -> control p = is_control op -> 0 <= bytes_remaining p ->
  exists p', between p' /\
    exec_from cbs_ (end_of_payload cbs_ p (begun op s) rest) = execute p' (deliver op [] s) rest.
Proof.
  intros Hf Hc Hr. unfold end_of_payload. rewrite Hf, orb_true_r, Hc. unfold begun, deliver, call.
  exists (set_state S_OPCODE p). split; [by split|]. by destruct (is_control op).
Qed.

Lemma parse_empty p s op m rest :
  between p -> is_data op = true \/ is_control op = true ->
  Forall is_byte (mask_bytes m) -> Forall is_byte rest ->
  exists p', between p' /\ execute p s (wire op m [] ++ rest) = execute p' (deliver op [] s) rest.
Proof.
  intros Hp Hop Hm Hr. unfold wire. cbn [app length]. destruct Hp as [Hps Hpr].
  destruct m as [[[[a b] c] d]|]; cbn [mask_bytes] in Hm; cbn [masked imap].
  - repeat match goal with H : Forall is_byte (_ :: _) |- _ => apply Forall_cons in H as [? H] end.
    rewrite bool_decide_true by eauto. rewrite <-app_assoc. cbn [app].
    rewrite parse_opcode; [|by split|done|apply Forall_app; split;
      [apply wire_length_byte; lia|by repeat (apply Forall_cons; split)]].
    unfold execute at 1. rewrite parse_length; [|done|done|lia|cbn; lia|by right|by repeat (apply Forall_cons; split)].
    rewrite parse_mask_empty by done. by apply end_empty.
  - rewrite bool_decide_false by (intros [? ?]; done).
    change (wire_length false (Z.of_nat 0)) with [0]. cbn [app].
    rewrite parse_opcode; [|by split|done|apply Forall_cons; split; [unfold is_byte; lia|done]].
    unfold execute at 1. rewrite parse_length_empty by done. by apply end_empty.
Qed.

Lemma parse_frame p s op m data rest :
  between p -> fits op data -> Forall is_byte (mask_bytes m) -> Forall is_byte data -> Forall is_byte rest ->
  exists p', between p' /\ execute p s (wire op m data ++ rest) = execute p' (deliver op data s) rest.
Proof.
  intros Hp Hfits Hm Hd Hr. destruct (decide (data = [])) as [->|Hne].
  { apply parse_empty; auto. by eapply fits_op. }
  pose proof (fits_length op data Hfits) as Hn. pose proof (masked_bytes m data Hm Hd) as Hmd.
  assert (0 < Z.of_nat (length data)) as Hpos by (destruct data; [done|cbn; lia]).
  unfold wire. cbn [app]. rewrite <-!app_assoc.
  rewrite parse_opcode; [|done|by eapply fits_op|].
  2: { apply Forall_app; split; [by apply wire_length_byte|]. apply Forall_app; split; [done|by apply Forall_app]. }
  unfold execute at 1. rewrite parse_length; [|done|by destruct Hp|done| |by left|].
  2: { cbn. intros Hc. destruct Hfits as [[Hd' ?]|[? ?]]; [|done]. exfalso.
       unfold is_data, is_control in *. unfold WS_FRAME_TEXT, WS_FRAME_BINARY, WS_FRAME_CLOSE, WS_FRAME_PING, WS_FRAME_PONG in *. lia. }
  2: { apply Forall_app; split; [done|by apply Forall_app]. }
  destruct m as [[[[a b] c] d]|]; cbn [mask_bytes app] in *.
  - rewrite bool_decide_true by eauto.
    repeat match goal with H : Forall is_byte (_ :: _) |- _ => apply Forall_cons in H as [? H] end.
    rewrite parse_mask; [|done|done|done..|by apply Forall_app].
    apply (parse_payload _ s op (Some (a, b, c, d)) data rest); try done.
    apply (unmask_masked data _ 0 a b c d); done.
  - rewrite bool_decide_false by (intros [? ?]; done).
    by apply (parse_payload _ s op None data rest).
Qed.

(** ** Any way of cutting the input *)

Lemma data_payload_additive : additive data_payload_cb.
Proof.
  intros u a b. unfold data_payload_cb. generalize (1024 * 1024). intros limit. rewrite length_app.
  destruct (limit <? Z.of_nat (length (cur_data_ u) + length a)) eqn:E1; cbn [fst snd cur_data_].
  - change (WS_CONTROL_TOO_LONG =? 0) with false. cbv iota.
    destruct (limit <? Z.of_nat (length (cur_data_ u) + (length a + length b))) eqn:E2; [done|].
    exfalso. apply Z.ltb_lt in E1. apply Z.ltb_ge in E2. lia.
  - change (0 =? 0) with true. cbv iota. rewrite length_app, <-Nat.add_assoc.
    destruct (limit <? Z.of_nat (length (cur_data_ u) + (length a + length b))); [done|].
    cbn. by rewrite app_assoc.
Qed.

Lemma control_payload_additive : additive control_payload_cb.
Proof. intros u a b. cbn. by rewrite app_assoc. Qed.

Lemma execute_wf p s l p' s' :
  wf p -> Forall is_byte l -> execute p s l = Some (0, p', s') -> wf p'.
Proof.
  unfold execute, ws_parser_execute. generalize (length l). intros n. revert p s l.
  induction n as [|n IH]; intros p s l Hp Hl; destruct l as [|c l]; cbn; try (intros; by simplify_eq).
  apply Forall_cons in Hl as [Hc Hl].
  destruct (ws_iter cbs_ p s c l) as [[[rc|rest] q] v] eqn:Hi.
  - intros ?. simplify_eq. by apply iter_nonzero in Hi.
  - apply iter_wf in Hi as [Hq [k ->]]; [|done..]. apply IH; [done|by apply Forall_drop].
Qed.

(** The buffers are handed to the parser one after the other, as
    [RFC6455Decoder::decode] does, until one is refused. *)
Fixpoint feed (p : ws_parser) (s : Parser) (bufs : list (list Z)) : option (Z * ws_parser * Parser) :=
  match bufs with
  | [] => Some (WS_OK, p, s)
  | b :: bufs =>
      match execute p s b with
      | Some (rc, p', s') => if rc =? WS_OK then feed p' s' bufs else Some (rc, p', s')
      | None => None
      end
  end.

Lemma feed_concat p s bufs p' s' :
  wf p -> Forall is_byte (concat bufs) ->
  execute p s (concat bufs) = Some (0, p', s') -> feed p s bufs = Some (0, p', s').
Proof.
  revert p s. induction bufs as [|b bufs IH]; intros p s Hp Hb He; [done|]. cbn in *.
  apply Forall_app in Hb as [Hb Hr].
  pose proof (chunk_independent cbs_ p s b (concat bufs) data_payload_additive control_payload_additive
    Hp Hb Hr) as Ha.
  unfold agree, execute_then in Ha. unfold execute in He. rewrite He in Ha.
  change (ws_parser_execute cbs_) with execute in *.
  destruct (execute p s b) as [[[rc p1] s1]|] eqn:E1; [|done].
  change (rc =? WS_OK) with (rc =? 0). destruct (rc =? 0) eqn:Erc.
  - apply Z.eqb_eq in Erc as ->. apply IH; [exact (execute_wf p s b p1 s1 Hp Hb E1)|done|].
    destruct (execute p1 s1 (concat bufs)) as [[[rc2 p2] s2]|]; [|done].
    destruct Ha as [<- Ha]. by destruct (Ha eq_refl) as [-> ->].
  - destruct Ha as [<- _]. done.
Qed.

(** ** What the assembler has queued does not matter to the parser *)

Definition queued (l : list (Z * list Z)) (s : Parser) : Parser :=
  mkParser (cur_data_ s) (cur_data_type_ s) (cur_control_ s) (cur_control_type_ s) (l ++ q_ s).

Definition with_queue {A} (l : list (Z * list Z)) (r : A * Parser) : A * Parser := (fst r, queued l (snd r)).

Lemma call_queued l r r' p k : r' = with_queue l r -> (forall s, k (queued l s) = with_queue l (k s)) ->
  call r' p k = with_queue l (call r p k).
Proof. intros -> Hk. unfold call, with_queue at 1 2 3. cbn [fst snd]. by destruct (fst r =? 0). Qed.

Lemma end_queued l p s rest : end_of_payload cbs_ p (queued l s) rest = with_queue l (end_of_payload cbs_ p s rest).
Proof.
  unfold end_of_payload. case_match; [|done]. apply call_queued; [|done]. destruct (control p); cbn; unfold control_end_cb, data_end_cb, with_queue, queued; cbn;
    by rewrite <- app_assoc.
Qed.

Lemma payload_queued l p s rest : do_payload cbs_ p (queued l s) rest = with_queue l (do_payload cbs_ p s rest).
Proof.
  unfold do_payload. destruct (if mask_flag p then _ else _) as [ch q]. apply call_queued.
  - destruct (control q); [done|]. cbn. unfold data_payload_cb. cbn [cur_data_ queued]. by case_match.
  - intros s'. case_match; [|done]. apply end_queued.
Qed.

Lemma iter_queued l p s c rest : ws_iter cbs_ p (queued l s) c rest = with_queue l (ws_iter cbs_ p s c rest).
Proof.
  unfold ws_iter, do_opcode, do_length, do_extended_length, do_mask.
  destruct (state p); try apply payload_queued; repeat (case_match; try done); try done; try apply end_queued; by apply call_queued.
Qed.

Lemma execute_queued l p s buf : execute p (queued l s) buf = with_queue l <$> execute p s buf.
Proof.
  unfold execute, ws_parser_execute. generalize (length buf). intros n. revert p s buf.
  induction n as [|n IH]; intros p s [|c buf]; cbn [ws_loop]; try done. rewrite iter_queued.
  destruct (ws_iter cbs_ p s c buf) as [[[rc|rest] q] s']; [done|]. cbn [with_queue fst snd]. apply IH.
Qed.

Lemma feed_queued l p s bufs : feed p (queued l s) bufs = with_queue l <$> feed p s bufs.
Proof.
  revert p s. induction bufs as [|b bufs IH]; intros p s; cbn [feed]; [done|]. rewrite execute_queued.
  destruct (execute p s b) as [[[rc q] s']|]; [|done]. cbn. case_match; [apply IH|done].
Qed.

(** ** What a running parser keeps *)

Definition known (op : Z) : bool := is_data op || is_control op.

(** Every queued frame, and the frame that is being read, has a known type. *)
Record types_known (p : ws_parser) (s : Parser) : Prop := {
  tk_queue : Forall (fun f => known (fst f) = true) (q_ s);
  tk_fragment : fragment p = true -> is_data (cur_data_type_ s) = true;
  tk_current : state p <> S_OPCODE ->
    (if control p then is_control (cur_control_type_ s) else is_data (cur_data_type_ s)) = true }.

Definition error_code (rc : Z) : Prop := -6 <= rc <= -1.

(** How an iteration may end. *)
Definition iter_ok (i : (Z + list Z) * ws_parser * Parser) : Prop :=
  match i with (inl rc, _, _) => error_code rc | (inr _, p, s) => types_known p s end.

Ltac code := cbv [iter_ok]; unfold error_code, WS_RESERVED_BITS_SET, WS_INVALID_OPCODE, WS_INVALID_CONTINUATION, WS_CONTROL_TOO_LONG, WS_NON_CANONICAL_LENGTH, WS_FRAGMENTED_CONTROL; lia.

Lemma unmask_pos l p : exists k, snd (unmask l p) = set_mask_pos k p.
Proof.
  revert p. induction l as [|b l IH]; intros p; [exists (mask_pos p); by destruct p|]. cbn.
  destruct (IH (set_mask_pos ((mask_pos p + 1) mod 4) p)) as [k Hk]. destruct (unmask l _) as [l' p']. cbn in *. subst. by exists k.
Qed.

Lemma end_types p s rest : types_known p s -> state p <> S_OPCODE -> iter_ok (end_of_payload cbs_ p s rest).
Proof.
  intros [Hq Hf Hc] Hs. specialize (Hc Hs). unfold end_of_payload, call.
  destruct (control p) eqn:Ec; [|destruct (fin p)]; cbn; split; cbn; rewrite ?Ec; try done;
    (apply Forall_app; split; [done|]; constructor; [|constructor]; cbn; unfold known; rewrite Hc, ?orb_true_r; done).
Qed.

Lemma payload_types p s buff : types_known p s -> state p = S_PAYLOAD -> iter_ok (do_payload cbs_ p s buff).
Proof.
  intros Ht Hs. unfold do_payload.
  assert (exists k ch, (if mask_flag p then unmask (take (Z.to_nat (Z.min (Z.of_nat (length buff)) (bytes_remaining p))) buff) p
    else (take (Z.to_nat (Z.min (Z.of_nat (length buff)) (bytes_remaining p))) buff, p)) = (ch, set_mask_pos k p)) as (k & ch & E).
  { destruct (mask_flag p); [|exists (mask_pos p); eexists; by destruct p].
    destruct (unmask_pos (take (Z.to_nat (Z.min (Z.of_nat (length buff)) (bytes_remaining p))) buff) p) as [k Hk].
    destruct (unmask _ p) as [ch q]. cbn in Hk. subst. by exists k, ch. }
  rewrite E. clear E. set (q := set_mask_pos k p). set (n := Z.of_nat _). unfold call.
  assert (forall s', types_known q s' -> iter_ok (if bytes_remaining (set_remaining (bytes_remaining q - n) q) =? 0
    then end_of_payload cbs_ (set_remaining (bytes_remaining q - n) q) s' (drop (Z.to_nat (Z.min (Z.of_nat (length buff)) (bytes_remaining p))) buff)
    else (inr (drop (Z.to_nat (Z.min (Z.of_nat (length buff)) (bytes_remaining p))) buff), set_remaining (bytes_remaining q - n) q, s'))) as Hk.
  { intros s' [? ? ?]. destruct (_ =? 0); [apply end_types; [by split|by cbn; rewrite Hs]|by split]. }
  destruct Ht as [Hq Hf Hc]. destruct (control q) eqn:Ec; cbn [on_control_payload on_data_payload cbs_].
  - by apply Hk.
  - unfold data_payload_cb. destruct (_ <? _); cbn [fst snd Z.eqb]; [change (WS_CONTROL_TOO_LONG =? 0) with false; cbv iota; code|]. by apply Hk.
Qed.

Lemma opcode_types p s c rest : types_known p s -> is_byte c -> state p = S_OPCODE -> iter_ok (do_opcode cbs_ p s c rest).
Proof.
  intros [Hq Hf Hc] Hb Hs. unfold do_opcode.
  repeat (match goal with |- context [if ?b then _ else _] => destruct b eqn:? end); unfold call; cbn; try code;
    (split; cbn; try done).
  - intros _. by apply Hf.
  - intros _. unfold is_control. unfold WS_FRAME_CLOSE, WS_FRAME_PING, WS_FRAME_PONG in *. lia.
  - intros _. unfold is_data. unfold WS_FRAME_TEXT, WS_FRAME_BINARY in *. lia.
  - intros _. unfold is_data. unfold WS_FRAME_TEXT, WS_FRAME_BINARY in *. lia.
Qed.

Lemma iter_types p s c rest : types_known p s -> is_byte c -> iter_ok (ws_iter cbs_ p s c rest).
Proof.
  intros Ht Hb. unfold ws_iter. destruct (state p) eqn:Es; try (by apply opcode_types); try (by apply payload_types);
    destruct Ht as [Hq Hf Hc]; specialize (Hc ltac:(by rewrite Es)); unfold do_length, do_extended_length, do_mask; rewrite ?Es;
    repeat (match goal with |- context [if ?b then _ else _] => destruct b eqn:? end); try (apply end_types; [|by cbn; unfold mask_or_payload; repeat case_match]);
    first [code | by split].
Qed.

Lemma execute_types p s buf : wf p -> types_known p s -> Forall is_byte buf ->
  exists rc p' s', execute p s buf = Some (rc, p', s') /\
    ((rc = WS_OK /\ wf p' /\ types_known p' s') \/ error_code rc).
Proof.
  intros Hw Ht Hb. destruct (loop_enough cbs_ (length buf) p s buf Hw Hb (le_n _)) as [_ [r Hr]].
  unfold execute. rewrite Hr. destruct r as [[rc p'] s']. exists rc, p', s'. split; [done|].
  revert Hr Hw Ht Hb. unfold ws_parser_execute. generalize (length buf). intros n. revert p s buf.
  induction n as [|n IH]; intros p s [|c buf] Hr Hw Ht Hb; cbn [ws_loop] in Hr; try done; [simplify_eq; by left..|].
  apply Forall_cons in Hb as [Hc Hb]. pose proof (iter_types p s c buf Ht Hc) as Hi.
  destruct (ws_iter cbs_ p s c buf) as [[[rc'|rest] q] s1] eqn:E; cbn in Hi; [simplify_eq; by right|].
  destruct (iter_wf _ _ _ _ _ _ _ _ Hw Hc E) as [Hq [k ->]]. apply (IH q s1 (drop k buf)); try done. by apply Forall_drop.
Qed.

(** A frame to be sent: opcode, mask, payload. *)
Definition frame : Type := Z * option (Z * Z * Z * Z) * list Z.
Definition frame_ok (f : frame) : Prop :=
  let '(op, m, data) := f in fits op data /\ Forall is_byte (mask_bytes m) /\ Forall is_byte data.
Definition frame_wire (f : frame) : list Z := let '(op, m, data) := f in wire op m data.
Definition frame_content (f : frame) : Z * list Z := let '(op, _, data) := f in (op, data).

Lemma wire_bytes f : frame_ok f -> Forall is_byte (frame_wire f).
Proof.
  destruct f as [[op m] data]. intros (Hf & Hm & Hd). cbn. unfold wire. constructor.
  - pose proof (fits_op _ _ Hf) as Hop. assert (op = 1 \/ op = 2 \/ op = 8 \/ op = 9 \/ op = 10) as Hcases.
    { unfold is_data, is_control, WS_FRAME_TEXT, WS_FRAME_BINARY, WS_FRAME_CLOSE, WS_FRAME_PING, WS_FRAME_PONG in Hop. lia. }
    destruct Hcases as [->|[->|[->|[->| ->]]]]; by vm_compute.
  - apply Forall_app; split; [apply wire_length_byte; by eapply fits_length|].
    apply Forall_app; split; [done|by apply masked_bytes].
Qed.

Lemma parse_frames p s fs :
  between p -> Forall frame_ok fs ->
  exists p' s', between p' /\ execute p s (concat (frame_wire <$> fs)) = Some (0, p', s') /\
    q_ s' = q_ s ++ (frame_content <$> fs).
Proof.
  revert p s. induction fs as [|[[op m] data] fs IH]; intros p s Hp Hfs.
  - exists p, s. split; [done|]. split; [done|]. cbn. by rewrite app_nil_r.
  - apply Forall_cons in Hfs as [(Hf & Hm & Hd) Hfs].
    change (concat (frame_wire <$> (op, m, data) :: fs)) with (wire op m data ++ concat (frame_wire <$> fs)).
    destruct (parse_frame p s op m data (concat (frame_wire <$> fs)) Hp Hf Hm Hd) as (p1 & Hp1 & ->).
    { apply Forall_concat, Forall_fmap. eapply Forall_impl; [done|]. apply wire_bytes. }
    destruct (IH p1 (deliver op data s) Hp1 Hfs) as (p' & s' & Hp' & -> & Hq).
    exists p', s'. split; [done|]. split; [done|]. rewrite Hq. unfold deliver.
    destruct (is_control op); cbn; by rewrite <-app_assoc.
Qed.

(** Websocket frames survive the wire.  Take any sequence of unfragmented
    frames (text, binary, close, ping, pong), masked or not, data frames of at
    most 1 MiB and control frames of at most 125 bytes, and cut their encoding
    into buffers at arbitrary places: the parser accepts every buffer, is
    between two frames at the end, and the assembler has queued exactly those
    frames, unmasked, in order. *)
Theorem ws_frames_any_cut p s fs bufs :
  between p -> Forall frame_ok fs -> concat bufs = concat (frame_wire <$> fs) ->
  exists p' s', feed p s bufs = Some (WS_OK, p', s') /\ between p' /\
    q_ s' = q_ s ++ (frame_content <$> fs).
Proof.
  intros Hp Hfs Hcut. destruct (parse_frames p s fs Hp Hfs) as (p' & s' & Hp' & He & Hq).
  exists p', s'. split; [|by split]. apply feed_concat; [by apply between_wf| |by rewrite Hcut].
  rewrite Hcut. apply Forall_concat, Forall_fmap. eapply Forall_impl; [done|]. apply wire_bytes.
Qed.

Lemma encode_wire data : encode_frame TEXT data = Ret (wire WS_FRAME_TEXT None data).
Proof.
  unfold encode_frame, first_byte. rewrite decide_True by done. unfold wire, wire_length.
  rewrite bool_decide_false by (intros [? ?]; done). cbn. by destruct (encodeLength _).
Qed.

(** What the encoder sends is what the peer's assembler queues: a text of at
    most 1 MiB is encoded as one frame, which any cut of the bytes delivers,
    and [pollFrame] returns it.  Every other kind of data frame is refused by
    the encoder. *)
Theorem ws_encode_roundtrip :
  (forall data bufs p s, Forall is_byte data -> Z.of_nat (length data) <= 1024 * 1024 ->
     between p -> q_ s = [] -> encode_frame TEXT data = Ret (concat bufs) ->
     exists p' s', feed p s bufs = Some (WS_OK, p', s') /\ fst (pollFrame s') = Ret (Some (TEXT, data))) /\
  (forall data, exists b, encode_frame TEXT data = Ret b) /\
  (forall ty data, ty <> TEXT -> encode_frame ty data = Throw (IOError "unimpl")).
Proof.
  split; [|split].
  - intros data bufs p s Hd Hl Hp Hq He.
    destruct (parse_frames p s [(WS_FRAME_TEXT, None, data)] Hp) as (p' & s' & _ & Hx & Hq').
    { constructor; [|constructor]. repeat split; [by left|constructor|done]. }
    exists p', s'. split.
    + rewrite encode_wire in He. simplify_eq. cbn in Hx. rewrite app_nil_r in Hx.
      apply feed_concat; [by apply between_wf| |]; rewrite <-He; [|exact Hx].
      apply (wire_bytes (WS_FRAME_TEXT, None, data)). repeat split; [by left|constructor|done].
    + unfold pollFrame. rewrite Hq', Hq. done.
  - intros data. rewrite encode_wire. eauto.
  - intros ty data Hty. unfold encode_frame, first_byte. by rewrite decide_False.
Qed.

(** The parser forgets to leave the fragmented state.  After a complete
    fragmented message ("a", then "b" with the final bit), a lone continuation
    frame is accepted instead of being refused as an invalid continuation, and
    delivers a second message that repeats the first. *)
Theorem ws_stray_continuation_accepted :
  let p := ws_parser_init (mkWs 0 0 0 0 0 false false false false 0 S_OPCODE) in
  let s := mkParser [] 0 [] 0 [] in
  exists p' s', feed p s [[1; 1; 97]; [128; 1; 98]; [128; 1; 99]] = Some (WS_OK, p', s') /\
    q_ s' = [(WS_FRAME_TEXT, [97; 98]); (WS_FRAME_TEXT, [97; 98; 99])].
Proof. eexists _, _. split; [vm_compute; reflexivity|reflexivity]. Qed.

Lemma ws_frames_any_cut_witness :
  exists p' s',
    feed (mkWs 0 0 0 0 0 false false false false 0 S_OPCODE) (mkParser [] 0 [] 0 [])
      [[129; 130; 1]; [2; 3; 4; 105]; [107; 137]; [1; 7]] = Some (WS_OK, p', s') /\
    q_ s' = [(WS_FRAME_TEXT, [104; 105]); (WS_FRAME_PING, [7])].
Proof.
  destruct (ws_frames_any_cut (mkWs 0 0 0 0 0 false false false false 0 S_OPCODE) (mkParser [] 0 [] 0 [])
    [(WS_FRAME_TEXT, Some (1, 2, 3, 4), [104; 105]); (WS_FRAME_PING, None, [7])]
    [[129; 130; 1]; [2; 3; 4; 105]; [107; 137]; [1; 7]]) as (p' & s' & Hf & _ & Hq).
  - split; [reflexivity|cbn; lia].
  - assert (forall b, (0 <=? b) && (b <? 256) = true -> is_byte b) as Hb by (unfold is_byte; lia).
    assert (forall l, forallb (fun b => (0 <=? b) && (b <? 256)) l = true -> Forall is_byte l) as Hl.
    { intros l Hl. apply Forall_forall. intros x Hx. apply Hb. rewrite forallb_forall in Hl.
      apply Hl. by apply list_elem_of_In. }
    apply Forall_cons; split; [|apply Forall_cons; split; [|constructor]];
      (split; [|split; apply Hl; reflexivity]).
    + left. split; [reflexivity|cbn; lia].
    + right. split; [reflexivity|cbn; lia].
  - reflexivity.
  - exists p', s'. split; [exact Hf|exact Hq].
Defined.
