(* ===== verification/IOBufQueue.v ===== *)
(** * IOBufQueue

    Models [src/src/folly/IOBufQueue.cpp] and
    [src/include/futures/core/IOBufQueue.h]: a queue of bytes kept as a chain
    of buffers.  A buffer has its headroom, its data, its tailroom and whether it
    is shared (a shared buffer is not extended in place).  The queue caches the length of the
    chain.  Every operation is shown to act on the concatenation of the chain
    as on a plain list of bytes. *)

From S2P Require Import Prelude.
Local Open Scope cpp_scope.

(** [src/include/futures/core/IOBuf.h:1288-1300] IOBuf: [data_ - buf_], the
    [length_] bytes at [data_], [capacity_ - length_ - headroom] and
    [isSharedOne()] *)
Record IOBuf := mkBuf { headroom : nat; data : list Z; tailroom : nat; shared : bool }.

(** [src/include/futures/core/IOBufQueue.h:286-293] IOBufQueue *)
Record IOBufQueue := mkQueue { chainLength_ : Z; chain : list IOBuf }.

Definition bytes_of (l : list IOBuf) : list Z := concat (data <$> l).
Definition contents (q : IOBufQueue) : list Z := bytes_of (chain q).

(** The cached length is the length. *)
Definition queue_ok (q : IOBufQueue) : Prop := chainLength_ q = Z.of_nat (length (contents q)).

(** [src/src/folly/IOBufQueue.cpp:69-72] IOBufQueue::IOBufQueue *)
Definition empty_queue : IOBufQueue := mkQueue 0 [].

(** [pack] copies the first buffers of [src] into the tailroom of the last
    buffer of [dst] as long as they fit. *)
(** [src/src/folly/IOBufQueue.cpp:50-57] appendToChain, packing loop *)
Fixpoint pack_loop (copyRemaining : nat) (tail : IOBuf) (src : list IOBuf) : IOBuf * list IOBuf :=
  match src with
  | [] => (tail, [])
  | b :: src' =>
      let n := length (data b) in
      if decide (n < copyRemaining /\ n < tailroom tail) then
        pack_loop (copyRemaining - n) (mkBuf (headroom tail) (data tail ++ data b) (tailroom tail - n) (shared tail)) src'
      else (tail, src)
  end.

Definition MIN_ALLOC_SIZE : nat := N.to_nat 2000.
Definition MAX_ALLOC_SIZE : nat := N.to_nat 8000.
Definition MAX_PACK_COPY : nat := N.to_nat 4096.

(** [src/src/folly/IOBufQueue.cpp:38-63] appendToChain *)
Definition appendToChain (dst src : list IOBuf) (pack : bool) : list IOBuf :=
  match last dst with
  | None => src
  | Some tail =>
      if pack then
        let '(tail', src') := pack_loop MAX_PACK_COPY tail src in
        removelast dst ++ tail' :: src'
      else dst ++ src
  end.

(** [src/include/futures/core/IOBuf.h:656-659] IOBuf::append, after the caller
    has written [l] to the tailroom *)
Definition extend (b : IOBuf) (l : list Z) : IOBuf :=
  mkBuf (headroom b) (data b ++ l) (tailroom b - length l) (shared b).

Section Queue.
(** The tailroom of a fresh buffer, [IOBuf::create(n)->tailroom()]: the
    allocator rounds the size up. *)
Context (create_room : nat -> nat).

Definition create (n : nat) : IOBuf := mkBuf 0 [] (create_room n) false.

(** [src/src/folly/IOBufQueue.cpp:120-129] IOBufQueue::append *)
Definition append_buf (buf : list IOBuf) (pack : bool) (q : IOBufQueue) : IOBufQueue :=
  match buf with
  | [] => q
  | _ => mkQueue (chainLength_ q + Z.of_nat (length (bytes_of buf))) (appendToChain (chain q) buf pack)
  end.

(** [src/src/folly/IOBufQueue.cpp:131-145] IOBufQueue::append *)
Definition append_queue (other : IOBufQueue) (pack : bool) (q : IOBufQueue) : IOBufQueue * IOBufQueue :=
  match chain other with
  | [] => (q, other)
  | _ => (mkQueue (chainLength_ q + chainLength_ other) (appendToChain (chain q) (chain other) pack),
          mkQueue 0 [])
  end.

(** The test at the head of the loop of [append]: a fresh buffer is needed. *)
Definition full (l : list IOBuf) : bool :=
  match last l with
  | None => true
  | Some b => shared b || (tailroom b =? 0)
  end.

(** [src/src/folly/IOBufQueue.cpp:147-166] IOBufQueue::append *)
Fixpoint append_bytes_loop (fuel : nat) (src : list Z) (q : IOBufQueue) : res IOBufQueue :=
  match src with
  | [] => Ret q
  | _ =>
      match fuel with
      | 0 => OutOfFuel
      | S fuel =>
          let len := length src in
          let l :=
            if full (chain q) then
              appendToChain (chain q) [create (Nat.max MIN_ALLOC_SIZE (Nat.min len MAX_ALLOC_SIZE))] false
            else chain q in
          match last l with
          | None => Abort "unreachable"
          | Some b =>
              let copyLen := Nat.min len (tailroom b) in
              append_bytes_loop fuel (drop copyLen src)
                (mkQueue (chainLength_ q + Z.of_nat copyLen)
                   (removelast l ++ [extend b (take copyLen src)]))
          end
      end
  end.
Definition append_bytes (src : list Z) (q : IOBufQueue) : res IOBufQueue :=
  append_bytes_loop (length src) src q.

(** The chain split off, and the queue; when the queue is too short the bytes
    removed so far are lost. *)
(** [src/src/folly/IOBufQueue.cpp:190-213] IOBufQueue::split *)
Fixpoint split_loop (n : nat) (len : Z) (l result : list IOBuf) : res (list IOBuf) * IOBufQueue :=
  match n with
  | 0 => (Ret result, mkQueue len l)
  | _ =>
      match l with
      | [] => (Throw std_underflow_error, mkQueue len [])
      | b :: l' =>
          let m := length (data b) in
          if decide (m <= n) then
            split_loop (n - m) (len - Z.of_nat m) l' (appendToChain result [b] false)
          else
            (Ret (appendToChain result [mkBuf (headroom b) (take n (data b)) (tailroom b + (m - n)) true] false),
             mkQueue (len - Z.of_nat n) (mkBuf (headroom b + n) (drop n (data b)) (tailroom b) true :: l'))
      end
  end.
Definition split (n : nat) (q : IOBufQueue) : res (list IOBuf) * IOBufQueue :=
  split_loop n (chainLength_ q) (chain q) [].

(** [src/src/folly/IOBufQueue.cpp:215-230] IOBufQueue::trimStart *)
Fixpoint trimStart_loop (amount : nat) (len : Z) (l : list IOBuf) : res unit * IOBufQueue :=
  match amount with
  | 0 => (Ret tt, mkQueue len l)
  | _ =>
      match l with
      | [] => (Throw std_underflow_error, mkQueue len [])
      | b :: l' =>
          let m := length (data b) in
          if decide (amount < m) then
            (Ret tt, mkQueue (len - Z.of_nat amount) (mkBuf (headroom b + amount) (drop amount (data b)) (tailroom b) (shared b) :: l'))
          else trimStart_loop (amount - m) (len - Z.of_nat m) l'
      end
  end.
Definition trimStart (amount : nat) (q : IOBufQueue) : res unit * IOBufQueue :=
  trimStart_loop amount (chainLength_ q) (chain q).

(** [rl] is the chain from its last buffer to its first. *)
(** [src/src/folly/IOBufQueue.cpp:232-252] IOBufQueue::trimEnd *)
Fixpoint trimEnd_loop (amount : nat) (len : Z) (rl : list IOBuf) : res unit * IOBufQueue :=
  match amount with
  | 0 => (Ret tt, mkQueue len (rev rl))
  | _ =>
      match rl with
      | [] => (Throw std_underflow_error, mkQueue len [])
      | b :: rl' =>
          let m := length (data b) in
          if decide (amount < m) then
            (Ret tt, mkQueue (len - Z.of_nat amount)
                       (rev (mkBuf (headroom b) (take (m - amount) (data b)) (tailroom b + amount) (shared b) :: rl')))
          else trimEnd_loop (amount - m) (len - Z.of_nat m) rl'
      end
  end.
Definition trimEnd (amount : nat) (q : IOBufQueue) : res unit * IOBufQueue :=
  trimEnd_loop amount (chainLength_ q) (rev (chain q)).

(** [src/src/folly/IOBufQueue.cpp:254-262] IOBufQueue::pop_front *)
Definition pop_front (q : IOBufQueue) : option IOBuf * IOBufQueue :=
  match chain q with
  | [] => (None, q)
  | b :: l => (Some b, mkQueue (chainLength_ q - Z.of_nat (length (data b))) l)
  end.

(** [src/src/folly/IOBufQueue.cpp:264-274] IOBufQueue::clear *)
Definition clear (q : IOBufQueue) : IOBufQueue :=
  match chain q with
  | [] => q
  | l => mkQueue 0 ((fun b => mkBuf 0 [] (headroom b + length (data b) + tailroom b) (shared b)) <$> l)
  end.

(** [src/src/folly/IOBufQueue.cpp:168-177] IOBufQueue::wrapBuffer; a wrapped
    buffer has no spare room and counts as shared *)
Fixpoint wrapBuffer (fuel : nat) (blockSize : nat) (src : list Z) (q : IOBufQueue) : res IOBufQueue :=
  match src with
  | [] => Ret q
  | _ =>
      match fuel with
      | 0 => OutOfFuel
      | S fuel =>
          let n := Nat.min (length src) blockSize in
          wrapBuffer fuel blockSize (drop n src) (append_buf [mkBuf 0 (take n src) 0 true] false q)
      end
  end.

(** [src/include/futures/core/IOBufQueue.h:273-277] IOBufQueue::tailBuf *)
Definition tailBuf (q : IOBufQueue) : option IOBuf :=
  match last (chain q) with
  | Some b => if shared b then None else Some b
  | None => None
  end.

(** [src/src/folly/IOBufQueue.cpp:179-188] IOBufQueue::preallocateSlow *)
Definition preallocateSlow (min newAllocationSize : nat) (q : IOBufQueue) : IOBufQueue :=
  mkQueue (chainLength_ q) (appendToChain (chain q) [create (Nat.max min newAllocationSize)] false).

(** The queue after reserving, whose last buffer has the reserved room; [max]
    only caps the reported length. *)
(** [src/include/futures/core/IOBufQueue.h:139-149] IOBufQueue::preallocate *)
Definition preallocate (min newAllocationSize : nat) (q : IOBufQueue) : IOBufQueue :=
  match tailBuf q with
  | Some b => if decide (min <= tailroom b) then q else preallocateSlow min newAllocationSize q
  | None => preallocateSlow min newAllocationSize q
  end.

(** [written]: the bytes the caller wrote to the reserved room. *)
(** [src/include/futures/core/IOBufQueue.h:161-164] IOBufQueue::postallocate *)
Definition postallocate (written : list Z) (q : IOBufQueue) : res IOBufQueue :=
  match last (chain q) with
  | None => Abort "null dereference"
  | Some b =>
      if decide (length written <= tailroom b) then
        Ret (mkQueue (chainLength_ q + Z.of_nat (length written)) (removelast (chain q) ++ [extend b written]))
      else Abort "assert"
  end.

(** [src/src/folly/IOBufQueue.cpp:89-118] IOBufQueue::headroom, markPrepended, prepend *)
Definition prepend (src : list Z) (q : IOBufQueue) : res unit * IOBufQueue :=
  let room := match chain q with [] => 0 | b :: _ => headroom b end in
  let n := length src in
  if decide (room < n) then (Throw std_overflow_error, q)
  else if decide (n = 0) then (Ret tt, q)
  else match chain q with
       | [] => (Abort "assert", q)
       | b :: l =>
           (Ret tt, mkQueue (chainLength_ q + Z.of_nat n)
                      (mkBuf (headroom b - n) (src ++ data b) (tailroom b) (shared b) :: l))
       end.

(** [src/include/futures/core/IOBufQueue.h:215-218] IOBufQueue::move *)
Definition move (q : IOBufQueue) : list IOBuf * IOBufQueue := (chain q, mkQueue 0 []).

(** [src/include/futures/core/IOBufQueue.h:248-250] IOBufQueue::empty *)
Definition empty (q : IOBufQueue) : bool := forallb (fun b => match data b with [] => true | _ => false end) (chain q).

(** [src/src/folly/IOBufQueue.cpp:276-287] IOBufQueue::appendToString *)
Definition appendToString (out : list Z) (q : IOBufQueue) : list Z := fold_left (fun o b => o ++ data b) (chain q) out.
End Queue.

(** ** The queue as a list of bytes *)

(** The operations a client calls. *)
Inductive qop :=
| QAppendBuf (buf : list IOBuf) (pack : bool)
| QAppendQueue (other : IOBufQueue) (pack : bool)
| QAppendBytes (src : list Z)
| QWrap (blockSize : nat) (src : list Z)
| QReserve (min newAllocationSize : nat) (written : list Z)
| QPrepend (src : list Z)
| QSplit (n : nat)
| QTrimStart (n : nat)
| QTrimEnd (n : nat)
| QPopFront
| QClear
| QMove.

Definition res_map {A B} (f : A -> B) (r : res A) : res B :=
  match r with Ret a => Ret (f a) | Throw e => Throw e | Abort s => Abort s | OutOfFuel => OutOfFuel end.
Definition unit_out (r : res unit) : res (list Z) := res_map (fun _ => []) r.
Definition queue_out (q : IOBufQueue) (r : res IOBufQueue) : res (list Z) * IOBufQueue :=
  match r with
  | Ret q' => (Ret [], q')
  | Throw e => (Throw e, q)
  | Abort s => (Abort s, q)
  | OutOfFuel => (OutOfFuel, q)
  end.

(** One operation: the bytes it hands to the client and the new queue. *)
Definition qexec (create_room : nat -> nat) (o : qop) (q : IOBufQueue) : res (list Z) * IOBufQueue :=
  match o with
  | QAppendBuf buf pack => (Ret [], append_buf buf pack q)
  | QAppendQueue other pack => (Ret [], fst (append_queue other pack q))
  | QAppendBytes src => queue_out q (append_bytes create_room src q)
  | QWrap blockSize src => queue_out q (wrapBuffer (length src) blockSize src q)
  | QReserve min newAllocationSize written =>
      queue_out q (postallocate written (preallocate create_room min newAllocationSize q))
  | QPrepend src => let '(r, q') := prepend src q in (unit_out r, q')
  | QSplit n => let '(r, q') := split n q in (res_map bytes_of r, q')
  | QTrimStart n => let '(r, q') := trimStart n q in (unit_out r, q')
  | QTrimEnd n => let '(r, q') := trimEnd n q in (unit_out r, q')
  | QPopFront =>
      let '(b, q') := pop_front q in (Ret (match b with Some b => data b | None => [] end), q')
  | QClear => (Ret [], clear q)
  | QMove => let '(l, q') := move q in (Ret (bytes_of l), q')
  end.

(** What the caller must respect: a queue handed over is well formed, the
    block size of [wrapBuffer] is not zero, and no more is written than was
    reserved. *)
Definition qop_ok (o : qop) : Prop :=
  match o with
  | QAppendQueue other _ => queue_ok other
  | QWrap blockSize _ => 0 < blockSize
  | QReserve min _ written => length written <= min
  | _ => True
  end.

(** The specification: what an operation does to a list of bytes. *)
Inductive fspec : qop -> list Z -> res (list Z) -> list Z -> Prop :=
| F_AppendBuf buf pack s : fspec (QAppendBuf buf pack) s (Ret []) (s ++ bytes_of buf)
| F_AppendQueue other pack s : fspec (QAppendQueue other pack) s (Ret []) (s ++ contents other)
| F_AppendBytes l s : fspec (QAppendBytes l) s (Ret []) (s ++ l)
| F_Wrap n l s : fspec (QWrap n l) s (Ret []) (s ++ l)
| F_Reserve m n l s : fspec (QReserve m n l) s (Ret []) (s ++ l)
| F_Prepend l s : fspec (QPrepend l) s (Ret []) (l ++ s)
| F_Prepend_full l s : fspec (QPrepend l) s (Throw std_overflow_error) s
| F_Split n s : n <= length s -> fspec (QSplit n) s (Ret (take n s)) (drop n s)
| F_Split_short n s : length s < n -> fspec (QSplit n) s (Throw std_underflow_error) []
| F_TrimStart n s : n <= length s -> fspec (QTrimStart n) s (Ret []) (drop n s)
| F_TrimStart_short n s : length s < n -> fspec (QTrimStart n) s (Throw std_underflow_error) []
| F_TrimEnd n s : n <= length s -> fspec (QTrimEnd n) s (Ret []) (take (length s - n) s)
| F_TrimEnd_short n s : length s < n -> fspec (QTrimEnd n) s (Throw std_underflow_error) []
| F_PopFront s1 s2 : fspec QPopFront (s1 ++ s2) (Ret s1) s2
| F_Clear s : fspec QClear s (Ret []) []
| F_Move s : fspec QMove s (Ret s) [].

(** A run of operations, with the outputs collected. *)
Fixpoint qrun (create_room : nat -> nat) (os : list qop) (q : IOBufQueue) : list (res (list Z)) * IOBufQueue :=
  match os with
  | [] => ([], q)
  | o :: os =>
      let '(r, q1) := qexec create_room o q in
      let '(rs, q2) := qrun create_room os q1 in
      (r :: rs, q2)
  end.

Inductive fruns : list qop -> list Z -> list (res (list Z)) -> list Z -> Prop :=
| FR_nil s : fruns [] s [] s
| FR_cons o os s r s1 rs s2 : fspec o s r s1 -> fruns os s1 rs s2 -> fruns (o :: os) s (r :: rs) s2.

(** ** Lemmas *)

Lemma bytes_of_app l1 l2 : bytes_of (l1 ++ l2) = bytes_of l1 ++ bytes_of l2.
Proof. unfold bytes_of. by rewrite fmap_app, concat_app. Qed.

Lemma bytes_of_cons b l : bytes_of (b :: l) = data b ++ bytes_of l.
Proof. done. Qed.

Lemma removelast_last {A} (l : list A) x : last l = Some x -> l = removelast l ++ [x].
Proof.
  induction l as [|a l IH]; [done|]. destruct l as [|b l]; cbn.
  - by intros [= ->].
  - intros H. by rewrite <- (IH H) at 1.
Qed.

Lemma pack_loop_bytes n t src t' src' :
  pack_loop n t src = (t', src') -> data t' ++ bytes_of src' = data t ++ bytes_of src.
Proof.
  revert n t. induction src as [|b src IH]; cbn [pack_loop]; intros n t H; [by simplify_eq|].
  case_decide; [|by simplify_eq].
  apply IH in H. rewrite H. cbn [data]. by rewrite bytes_of_cons, app_assoc.
Qed.

Lemma appendToChain_bytes dst src pack : bytes_of (appendToChain dst src pack) = bytes_of dst ++ bytes_of src.
Proof.
  unfold appendToChain. destruct (last dst) as [t|] eqn:E.
  - destruct pack; [|apply bytes_of_app].
    destruct (pack_loop _ t src) as [t' src'] eqn:P. apply pack_loop_bytes in P.
    rewrite (removelast_last _ _ E) at 2. rewrite !bytes_of_app, <- app_assoc.
    rewrite !bytes_of_cons, P. cbn. by rewrite <- ?app_assoc.
  - apply last_None in E. by subst.
Qed.

Lemma extend_last_bytes l b s :
  last l = Some b -> bytes_of (removelast l ++ [extend b s]) = bytes_of l ++ s.
Proof.
  intros E. rewrite (removelast_last _ _ E) at 2. rewrite !bytes_of_app, <- app_assoc.
  cbn. by rewrite !app_nil_r.
Qed.

Lemma append_buf_ok buf pack q :
  queue_ok q -> queue_ok (append_buf buf pack q) /\ contents (append_buf buf pack q) = contents q ++ bytes_of buf.
Proof.
  intros H. destruct buf as [|b buf]; cbn [append_buf]; [by rewrite app_nil_r|].
  unfold queue_ok, contents in *; cbn [chain chainLength_].
  rewrite appendToChain_bytes, length_app. split; [lia|done].
Qed.

Lemma create_min_tailroom create_room n :
  (forall n, n <= create_room n) -> tailroom (create create_room (Nat.max MIN_ALLOC_SIZE n)) <> 0.
Proof.
  intros H. specialize (H (Nat.max MIN_ALLOC_SIZE n)). cbn [create tailroom].
  assert (0 < MIN_ALLOC_SIZE) by (unfold MIN_ALLOC_SIZE; lia). lia.
Qed.

Lemma append_bytes_loop_ok create_room fuel src q :
  (forall n, n <= create_room n) ->
  queue_ok q -> length src <= fuel ->
  exists q', append_bytes_loop create_room fuel src q = Ret q' /\ queue_ok q' /\ contents q' = contents q ++ src.
Proof.
  intros Hroom. revert src q. induction fuel as [|fuel IH]; intros [|x src] q Hq Hlen;
    try (exists q; by rewrite app_nil_r); [cbn in Hlen; lia|].
  cbn [append_bytes_loop].
  set (l := if full (chain q) then _ else _).
  assert (Hl : bytes_of l = bytes_of (chain q) /\ exists b, last l = Some b /\ tailroom b <> 0).
  { unfold l, full. destruct (last (chain q)) as [b|] eqn:E.
    - destruct (shared b || (tailroom b =? 0)) eqn:F.
      + rewrite appendToChain_bytes; cbn. rewrite app_nil_r. split; [done|].
        unfold appendToChain. rewrite E, last_snoc. eexists. split; [done|]. by apply create_min_tailroom.
      + apply orb_false_iff in F as [_ F]. apply Nat.eqb_neq in F. eauto.
    - rewrite appendToChain_bytes; cbn. rewrite app_nil_r. split; [done|].
      unfold appendToChain. rewrite E. eexists. split; [done|]. by apply create_min_tailroom. }
  destruct Hl as [Hb (b & E & Hne)]. rewrite E.
  set (k := Nat.min _ _). assert (0 < k <= S (length src)) by (subst k; cbn [length]; lia).
  set (q1 := mkQueue _ _).
  assert (Hc : contents q1 = contents q ++ take k (x :: src)).
  { unfold contents, q1; cbn [chain]. by rewrite extend_last_bytes, Hb. }
  destruct (IH (drop k (x :: src)) q1) as (q' & -> & Hok & E').
  - unfold queue_ok in *. rewrite Hc, length_app, length_take. cbn [length q1 chainLength_]. lia.
  - rewrite length_drop. cbn [length] in *. lia.
  - exists q'. split; [done|]. split; [done|]. by rewrite E', Hc, <- app_assoc, take_drop.
Qed.

Lemma wrapBuffer_ok fuel n src q :
  0 < n -> queue_ok q -> length src <= fuel ->
  exists q', wrapBuffer fuel n src q = Ret q' /\ queue_ok q' /\ contents q' = contents q ++ src.
Proof.
  intros Hn. revert src q. induction fuel as [|fuel IH]; intros [|x src] q Hq Hlen;
    try (exists q; by rewrite app_nil_r); [cbn in Hlen; lia|].
  cbn [wrapBuffer]. set (k := Nat.min _ _).
  destruct (append_buf_ok [mkBuf 0 (take k (x :: src)) 0 true] false q Hq) as [Hq1 E1].
  destruct (IH (drop k (x :: src)) _ Hq1) as (q' & -> & Hok & E').
  { rewrite length_drop. subst k. cbn [length] in *. lia. }
  exists q'. split; [done|]. split; [done|]. rewrite E', E1. unfold bytes_of. cbn [fmap list_fmap concat data].
  by rewrite app_nil_r, <- app_assoc, take_drop.
Qed.

(** Reserving leaves the bytes alone and makes room for [min] more. *)
Lemma preallocate_ok create_room min n q :
  (forall n, n <= create_room n) -> queue_ok q ->
  let q' := preallocate create_room min n q in
  queue_ok q' /\ contents q' = contents q /\ exists b, last (chain q') = Some b /\ min <= tailroom b.
Proof.
  intros Hroom Hq. cbn zeta.
  assert (Hslow : let q' := preallocateSlow create_room min n q in
    queue_ok q' /\ contents q' = contents q /\ exists b, last (chain q') = Some b /\ min <= tailroom b).
  { unfold preallocateSlow, queue_ok, contents in *; cbn [chain chainLength_].
    rewrite appendToChain_bytes; cbn. rewrite app_nil_r. split; [done|]. split; [done|].
    exists (create create_room (Nat.max min n)). specialize (Hroom (Nat.max min n)).
    split; [|cbn; lia]. unfold appendToChain. destruct (last (chain q)); [apply last_snoc|done]. }
  unfold preallocate, tailBuf. destruct (last (chain q)) as [b|] eqn:E; [|done].
  destruct (shared b); [done|]. case_decide; [|done]. eauto.
Qed.

Lemma postallocate_ok written q b :
  queue_ok q -> last (chain q) = Some b -> length written <= tailroom b ->
  exists q', postallocate written q = Ret q' /\ queue_ok q' /\ contents q' = contents q ++ written.
Proof.
  intros Hq E Hle. unfold postallocate. rewrite E, decide_True by done.
  eexists; split; [done|]. unfold queue_ok, contents in *; cbn [chain chainLength_].
  rewrite extend_last_bytes, length_app by done. split; [lia|done].
Qed.

Lemma split_loop_ok n l res0 r q' :
  split_loop n (Z.of_nat (length (bytes_of l))) l res0 = (r, q') ->
  queue_ok q' /\
  if decide (n <= length (bytes_of l)) then
    exists c, r = Ret c /\ bytes_of c = bytes_of res0 ++ take n (bytes_of l) /\ contents q' = drop n (bytes_of l)
  else r = Throw std_underflow_error /\ contents q' = [].
Proof.
  revert n res0. induction l as [|b l IH]; intros n res0 H.
  - destruct n; cbn in H; simplify_eq; cbn.
    + split; [done|]. exists res0. by rewrite app_nil_r.
    + done.
  - rewrite bytes_of_cons, length_app in *. destruct n as [|n].
    + cbn in H; simplify_eq. split; [unfold queue_ok, contents; cbn [chain chainLength_]; by rewrite bytes_of_cons, length_app|].
      rewrite decide_True by lia. exists res0. by rewrite take_0, app_nil_r, drop_0.
    + cbn [split_loop] in H. destruct (decide (length (data b) <= S n)) as [Hle|Hgt].
      * replace (_ - _)%Z with (Z.of_nat (length (bytes_of l))) in H by lia.
        apply IH in H as [Hok H]. split; [done|].
        destruct (decide (S n - _ <= _)) as [Hd|Hd].
        -- rewrite decide_True by lia. destruct H as (c & -> & Hc & ->). exists c. split; [done|].
           rewrite Hc, appendToChain_bytes, bytes_of_cons. cbn. rewrite app_nil_r, <- app_assoc.
           by rewrite take_app_ge, drop_app_ge by lia.
        -- by rewrite decide_False by lia.
      * simplify_eq. rewrite decide_True by lia. split.
        -- unfold queue_ok, contents; cbn [chain chainLength_]. rewrite bytes_of_cons, length_app. cbn [data].
           rewrite length_drop. lia.
        -- eexists. split; [done|]. rewrite appendToChain_bytes. unfold bytes_of at 2. cbn [fmap list_fmap concat data].
           by rewrite app_nil_r, take_app_le, drop_app_le by lia.
Qed.

Lemma trimStart_loop_ok n l r q' :
  trimStart_loop n (Z.of_nat (length (bytes_of l))) l = (r, q') ->
  queue_ok q' /\
  if decide (n <= length (bytes_of l)) then r = Ret tt /\ contents q' = drop n (bytes_of l)
  else r = Throw std_underflow_error /\ contents q' = [].
Proof.
  revert n. induction l as [|b l IH]; intros n H.
  - destruct n; cbn in H; by simplify_eq.
  - rewrite bytes_of_cons, length_app in *. destruct n as [|n].
    + cbn in H; simplify_eq. split; [|done].
      unfold queue_ok, contents; cbn [chain chainLength_]. by rewrite bytes_of_cons, length_app.
    + cbn [trimStart_loop] in H. destruct (decide (S n < length (data b))) as [Hlt|Hge].
      * simplify_eq. rewrite decide_True by lia. split.
        -- unfold queue_ok, contents; cbn [chain chainLength_]. rewrite bytes_of_cons, length_app. cbn [data].
           rewrite length_drop. lia.
        -- split; [done|]. unfold contents; cbn [chain]. by rewrite bytes_of_cons, drop_app_le by lia.
      * replace (_ - _)%Z with (Z.of_nat (length (bytes_of l))) in H by lia.
        apply IH in H as [Hok H]. split; [done|]. destruct (decide (S n - _ <= _)) as [Hd|Hd].
        -- rewrite decide_True by lia. by rewrite drop_app_ge by lia.
        -- by rewrite decide_False by lia.
Qed.

Lemma trimEnd_loop_ok n rl r q' :
  trimEnd_loop n (Z.of_nat (length (bytes_of (rev rl)))) rl = (r, q') ->
  queue_ok q' /\
  let s := bytes_of (rev rl) in
  if decide (n <= length s) then r = Ret tt /\ contents q' = take (length s - n) s
  else r = Throw std_underflow_error /\ contents q' = [].
Proof.
  revert n. induction rl as [|b l IH]; intros n H.
  - destruct n; cbn in H; by simplify_eq.
  - cbn [rev] in *. rewrite bytes_of_app, length_app in *. cbn zeta in *.
    replace (bytes_of [b]) with (data b) in * by (cbn; by rewrite app_nil_r).
    destruct n as [|n].
    + cbn in H; simplify_eq. unfold queue_ok, contents; cbn [chain chainLength_].
      rewrite bytes_of_app, length_app. cbn. rewrite app_nil_r. split; [done|]. split; [done|].
      rewrite take_ge; [done|]. rewrite length_app. lia.
    + cbn [trimEnd_loop] in H. destruct (decide (S n < length (data b))) as [Hlt|Hge].
      * simplify_eq. rewrite decide_True by lia. unfold queue_ok, contents; cbn [chain chainLength_ rev].
        rewrite bytes_of_app, length_app. cbn. rewrite app_nil_r, length_take. split; [lia|]. split; [done|].
        rewrite take_app_ge by lia. do 2 f_equal. lia.
      * replace (_ - _)%Z with (Z.of_nat (length (bytes_of (rev l)))) in H by lia.
        apply IH in H as [Hok H]. split; [done|]. destruct (decide (S n - _ <= _)) as [Hd|Hd].
        -- rewrite decide_True by lia. rewrite take_app_le by lia. destruct H as [-> ->]. split; [done|]. f_equal. lia.
        -- by rewrite decide_False by lia.
Qed.

Lemma clear_ok q : queue_ok q -> queue_ok (clear q) /\ contents (clear q) = [].
Proof.
  destruct q as [len l]. unfold clear; cbn [chain]. intros Hq.
  assert (H : forall l, bytes_of ((fun b => mkBuf 0 [] (headroom b + length (data b) + tailroom b) (shared b)) <$> l) = []).
  { intros k. unfold bytes_of. rewrite <- list_fmap_compose. by induction k. }
  destruct l as [|b l]; [done|]. unfold queue_ok, contents; cbn [chain chainLength_]. by rewrite H.
Qed.

Lemma qexec_ok create_room o q r q' :
  (forall n, n <= create_room n) -> queue_ok q -> qop_ok o -> qexec create_room o q = (r, q') ->
  queue_ok q' /\ fspec o (contents q) r (contents q').
Proof.
  intros Hroom Hq Ho H. destruct o; cbn [qexec qop_ok] in *.
  - simplify_eq. destruct (append_buf_ok buf pack q Hq) as [? ->]. split; [done|constructor].
  - unfold append_queue in H. destruct other as [len [|b l]]; cbn [chain chainLength_ fst] in H; simplify_eq.
    + split; [done|]. rewrite <- (app_nil_r (contents q')) at 2. apply F_AppendQueue.
    + unfold queue_ok, contents in *; cbn [chain chainLength_] in *. rewrite appendToChain_bytes, length_app.
      split; [lia|apply F_AppendQueue].
  - destruct (append_bytes_loop_ok create_room (length src) src q) as (q1 & E & Hok & Hc); [done..|].
    unfold append_bytes in H. rewrite E in H. cbn in H; simplify_eq. rewrite Hc. split; [done|constructor].
  - destruct (wrapBuffer_ok (length src) blockSize src q) as (q1 & E & Hok & Hc); [done..|].
    rewrite E in H. cbn in H; simplify_eq. rewrite Hc. split; [done|constructor].
  - destruct (preallocate_ok create_room min newAllocationSize q) as (Hq1 & Hc1 & b & Hb & Hle); [done..|].
    destruct (postallocate_ok written _ b Hq1 Hb) as (q2 & E & Hok & Hc); [lia|].
    rewrite E in H. cbn in H; simplify_eq. rewrite Hc, Hc1. split; [done|constructor].
  - unfold prepend in H. destruct q as [len [|b l]]; cbn [chain chainLength_] in H; repeat case_decide; simplify_eq/=;
      try (split; [done|]; constructor); try lia.
    + destruct src; [|cbn in *; lia]. split; [done|constructor].
    + destruct src; [|cbn in *; lia]. split; [done|constructor].
    + unfold queue_ok, contents in *; cbn [chain chainLength_] in *. rewrite !bytes_of_cons in *. cbn [data].
      rewrite <- app_assoc, !length_app in *. split; [lia|constructor].
  - destruct (split n q) as [r1 q1] eqn:E. simplify_eq. unfold split in E. rewrite Hq in E.
    apply split_loop_ok in E as [Hok E]. split; [done|]. fold (contents q) in E.
    case_decide; [destruct E as (c & -> & Hc & ->)|destruct E as [-> ->]]; cbn.
    + rewrite Hc. by constructor.
    + constructor. lia.
  - destruct (trimStart n q) as [r1 q1] eqn:E. simplify_eq. unfold trimStart in E. rewrite Hq in E.
    apply trimStart_loop_ok in E as [Hok E]. split; [done|]. fold (contents q) in E.
    case_decide; destruct E as [-> ->]; constructor; lia.
  - destruct (trimEnd n q) as [r1 q1] eqn:E. simplify_eq. unfold trimEnd in E. rewrite Hq in E.
    unfold contents in E. rewrite <- (rev_involutive (chain q)) in E at 1.
    apply trimEnd_loop_ok in E as [Hok E]. split; [done|]. rewrite rev_involutive in E. fold (contents q) in E.
    cbn zeta in E. case_decide; destruct E as [-> ->]; constructor; lia.
  - unfold pop_front in H. destruct q as [len [|b l]]; cbn [chain chainLength_] in H; simplify_eq.
    + split; [done|]. apply (F_PopFront [] []).
    + unfold queue_ok, contents in *; cbn [chain chainLength_] in *. rewrite bytes_of_cons, length_app in *.
      split; [lia|constructor].
  - simplify_eq. destruct (clear_ok q Hq) as [? ->]. split; [done|constructor].
  - unfold move in H. simplify_eq. split; [done|constructor].
Qed.

Lemma qrun_ok create_room os q rs q' :
  (forall n, n <= create_room n) -> queue_ok q -> Forall qop_ok os -> qrun create_room os q = (rs, q') ->
  queue_ok q' /\ fruns os (contents q) rs (contents q').
Proof.
  intros Hroom. revert q rs. induction os as [|o os IH]; cbn [qrun]; intros q rs Hq Ho H.
  - simplify_eq. split; [done|constructor].
  - apply Forall_cons in Ho as [Ho Hos].
    destruct (qexec create_room o q) as [r q1] eqn:E1. destruct (qrun create_room os q1) as [rs2 q2] eqn:E2. simplify_eq.
    destruct (qexec_ok _ _ _ _ _ Hroom Hq Ho E1) as [Hq1 Hs]. destruct (IH _ _ Hq1 Hos E2). split; [done|].
    by econstructor.
Qed.

Lemma empty_spec q : empty q = true <-> contents q = [].
Proof.
  destruct q as [len l]. unfold empty, contents; cbn [chain]. induction l as [|b l IH]; [done|].
  rewrite bytes_of_cons. cbn [forallb]. destruct (data b); cbn; [done|]. done.
Qed.

Lemma appendToString_spec q out : appendToString out q = out ++ contents q.
Proof.
  destruct q as [len l]. unfold appendToString, contents; cbn [chain]. revert out. induction l as [|b l IH]; intros out.
  - by rewrite app_nil_r.
  - cbn [fold_left]. by rewrite IH, bytes_of_cons, app_assoc.
Qed.


Definition witness_ops : list qop :=
  [QAppendBytes [1; 2; 3]%Z; QWrap 2 [4; 5; 6]%Z; QSplit 4; QTrimEnd 1; QPrepend [9]%Z; QReserve 4 8 [7; 7]%Z;
   QTrimStart 1; QPopFront; QSplit 5].

