(* ===== verification/StreamAdapter.v ===== *)
(** * Streams over a buffer queue

    Models [src/include/futures/io/StreamAdapter.h]: a [std::streambuf] whose put
    area is the free room of the last buffer of an [IOBufQueue] and whose get
    area is one buffer of the chain after the other.  Of the standard library it
    uses that an [ostream] hands its characters to [sputc] one by one and calls
    [sync] to flush, and that an [istream] takes them with [sbumpc].  Also the
    [QueueAppender] of [src/include/futures/core/Cursor.h], which writes to the
    room at the end of a queue. *)

From S2P Require Import Prelude IOBufQueue.
Local Open Scope cpp_scope.

Section Adapter.
Context (create_room : nat -> nat).

(** The put area: what has been written to it, and its size.  The get area:
    what is left of it, and the buffers after the current one. *)
(** [src/include/futures/io/StreamAdapter.h:70-71] BasicIOBufStreambuf *)
Record Streambuf := mkSb { q_ : IOBufQueue; put : list Z; put_size : nat; get : list Z; nexts : option (list IOBuf) }.

(** [src/include/futures/core/IOBufQueue.h:181-184] IOBufQueue::tailroom *)
Definition queue_tailroom (q : IOBufQueue) : nat := match tailBuf q with Some b => tailroom b | None => 0 end.

(** [src/include/futures/io/StreamAdapter.h:16-28] BasicIOBufStreambuf::BasicIOBufStreambuf *)
Definition open (q : IOBufQueue) : Streambuf :=
  match chain q with
  | [] => mkSb q [] (queue_tailroom q) [] None
  | b :: l => mkSb q [] (queue_tailroom q) (data b) (Some l)
  end.

(** [src/include/futures/io/StreamAdapter.h:45-54] BasicIOBufStreambuf::sync *)
Definition sync (s : Streambuf) : res Streambuf :=
  match put s with
  | [] => Ret s
  | n => let! q := postallocate n (q_ s) in Ret (mkSb q [] (queue_tailroom q) (get s) (nexts s))
  end.

(** A character is never [eof]. *)
(** [src/include/futures/io/StreamAdapter.h:31-43] BasicIOBufStreambuf::overflow *)
Definition overflow (ch : Z) (s : Streambuf) : res Streambuf :=
  let! s := sync s in
  let q := preallocate create_room (N.to_nat 2000) (N.to_nat 4000) (q_ s) in
  let second := match last (chain q) with Some b => tailroom b | None => 0 end in
  if decide (0 < second) then Ret (mkSb q [ch] second (get s) (nexts s)) else Abort "write past the end of a buffer".

(** [std::basic_streambuf::sputc] *)
Definition sputc (ch : Z) (s : Streambuf) : res Streambuf :=
  if decide (length (put s) < put_size s) then Ret (mkSb (q_ s) (put s ++ [ch]) (put_size s) (get s) (nexts s)) else overflow ch s.

Fixpoint sputn (l : list Z) (s : Streambuf) : res Streambuf :=
  match l with
  | [] => Ret s
  | ch :: l => let! s := sputc ch s in sputn l s
  end.

(** What follows the current buffer is the chain when the adapter was made. *)
(** [src/include/futures/io/StreamAdapter.h:56-68] BasicIOBufStreambuf::underflow *)
Definition underflow (s : Streambuf) : res (option Z * Streambuf) :=
  match get s with
  | c :: _ => Ret (Some c, s)
  | [] =>
      match nexts s with
      | None | Some [] => Ret (None, s)
      | Some (b :: l) =>
          let s := mkSb (q_ s) (put s) (put_size s) (data b) (Some l) in
          match data b with c :: _ => Ret (Some c, s) | [] => Abort "read of an empty buffer" end
      end
  end.

(** [std::basic_streambuf::sbumpc] *)
Definition sbumpc (s : Streambuf) : res (option Z * Streambuf) :=
  let! r := underflow s in
  match r with
  | (Some c, s) => Ret (Some c, mkSb (q_ s) (put s) (put_size s) (tail (get s)) (nexts s))
  | r => Ret r
  end.

(** Reading to the end of the input. *)
Fixpoint drain (fuel : nat) (s : Streambuf) : res (list Z) :=
  match fuel with
  | O => OutOfFuel
  | S fuel =>
      let! r := sbumpc s in
      match r with
      | (None, _) => Ret []
      | (Some c, s) => let! l := drain fuel s in Ret (c :: l)
      end
  end.

(** ** Writing *)

(** The put area is the free room of the last buffer. *)
Record put_ok (s : Streambuf) : Prop := {
  po_queue : queue_ok (q_ s);
  po_room : length (put s) <= put_size s;
  po_tail : put_size s = 0 \/ exists b, last (chain (q_ s)) = Some b /\ put_size s = tailroom b }.

Definition written (s : Streambuf) : list Z := contents (q_ s) ++ put s.

Lemma queue_tailroom_ok q : queue_tailroom q = 0 \/ exists b, last (chain q) = Some b /\ queue_tailroom q = tailroom b.
Proof. unfold queue_tailroom, tailBuf. destruct (last (chain q)) as [b|]; [|by left]. destruct (shared b); [by left|right; by exists b]. Qed.

Lemma open_ok q : queue_ok q -> put_ok (open q) /\ written (open q) = contents q.
Proof.
  intros Hq. unfold written, open.
  destruct (chain q); (split; [split; cbn; [done|lia|apply queue_tailroom_ok]|apply app_nil_r]).
Qed.

Lemma sync_ok s : put_ok s -> exists s', sync s = Ret s' /\ put_ok s' /\ put s' = [] /\ written s' = written s.
Proof.
  intros Hs. unfold sync, written. destruct (put s) as [|c l] eqn:E; [exists s; by rewrite E|]. rewrite <- E. destruct Hs as [Hq Hr Ht].
  destruct Ht as [Ht|(b & Eb & Ht)]; [by rewrite E, Ht in Hr; inversion Hr|].
  destruct (postallocate_ok (put s) (q_ s) b Hq Eb) as (q & Eq & Hq' & Ec); [lia|]. rewrite Eq. eexists. split; [done|].
  split; [split; cbn; [done|lia|apply queue_tailroom_ok]|]. split; [done|]. cbn. by rewrite app_nil_r.
Qed.

Context (Hroom : forall n, n <= create_room n).

Lemma overflow_ok ch s : put_ok s -> exists s', overflow ch s = Ret s' /\ put_ok s' /\ written s' = written s ++ [ch].
Proof.
  intros Hs. destruct (sync_ok s Hs) as (s1 & E & H1 & Hp & Hw). unfold overflow. rewrite E. cbn [res_bind].
  destruct (preallocate_ok create_room (N.to_nat 2000) (N.to_nat 4000) (q_ s1) Hroom (po_queue _ H1)) as (Hq & Hc & b & Eb & Hb).
  rewrite Eb, decide_True by lia. eexists. split; [done|]. split.
  - split; cbn; [done|lia|]. right. by exists b.
  - unfold written in *. cbn. by rewrite Hc, <- Hw, Hp, app_nil_r.
Qed.

Lemma sputc_ok ch s : put_ok s -> exists s', sputc ch s = Ret s' /\ put_ok s' /\ written s' = written s ++ [ch].
Proof.
  intros Hs. unfold sputc. case_decide; [|by apply overflow_ok]. destruct Hs as [Hq Hr Ht]. eexists. split; [done|].
  split; [split; cbn; [done|rewrite length_app; cbn; lia|done]|]. unfold written. cbn. apply app_assoc.
Qed.

Lemma sputn_ok l s : put_ok s -> exists s', sputn l s = Ret s' /\ put_ok s' /\ written s' = written s ++ l.
Proof.
  revert s. induction l as [|ch l IH]; intros s Hs; cbn; [exists s; by rewrite app_nil_r|].
  destruct (sputc_ok ch s Hs) as (s1 & -> & H1 & E1). destruct (IH s1 H1) as (s2 & E2 & H2 & Ew). exists s2. cbn.
  rewrite E2, Ew, E1, <- app_assoc. done.
Qed.

(** ** Reading *)

Definition unread (s : Streambuf) : list Z := get s ++ bytes_of (default [] (nexts s)).
Definition get_ok (s : Streambuf) : Prop := Forall (fun b => data b <> []) (default [] (nexts s)).

Lemma sbumpc_ok s : get_ok s -> exists s', sbumpc s = Ret (head (unread s), s') /\ unread s' = tail (unread s) /\ get_ok s'.
Proof.
  unfold get_ok, sbumpc, underflow, unread. destruct s as [q pu n [|c g] nx]; cbn; [|intros Hs; by eexists].
  destruct nx as [[|b l]|]; cbn; intros Hs; [by eexists| |by eexists]. inversion Hs as [|? ? Hb Hl]; subst.
  destruct (data b) as [|c r]; [done|]. by eexists.
Qed.

Lemma drain_ok s fuel : get_ok s -> length (unread s) < fuel -> drain fuel s = Ret (unread s).
Proof.
  revert s. induction fuel as [|fuel IH]; intros s Hs Hf; [lia|]. cbn. destruct (sbumpc_ok s Hs) as (s' & -> & E & H'). cbn.
  destruct (unread s) as [|c l]; [done|]. cbn in *. rewrite IH by (done || (rewrite E; cbn; lia)). by rewrite E.
Qed.

(** ** Appenders *)

(** [src/include/futures/core/Cursor.h:893-900] QueueAppender::write *)
Definition appender_write (growth : nat) (b : Z) (q : IOBufQueue) : res IOBufQueue :=
  postallocate [b] (preallocate create_room 1 growth q).

Fixpoint appender_writes (growth : nat) (l : list Z) (q : IOBufQueue) : res IOBufQueue :=
  match l with
  | [] => Ret q
  | b :: l => let! q := appender_write growth b q in appender_writes growth l q
  end.

(** [src/include/futures/core/Cursor.h:903-916] QueueAppender::pushAtMost *)
Fixpoint push_loop (fuel growth : nat) (l : list Z) (q : IOBufQueue) : res IOBufQueue :=
  match l with
  | [] => Ret q
  | _ =>
      match fuel with
      | O => OutOfFuel
      | S fuel =>
          let remaining := length l in
          let q := preallocate create_room (Nat.min remaining growth) growth q in
          let second := Nat.min remaining (match last (chain q) with Some b => tailroom b | None => 0 end) in
          let! q := postallocate (take second l) q in
          push_loop fuel growth (drop second l) q
      end
  end.
Definition appender_push (growth : nat) (l : list Z) (q : IOBufQueue) : res IOBufQueue := push_loop (length l) growth l q.

Lemma appender_write_ok growth b q : queue_ok q ->
  exists q', appender_write growth b q = Ret q' /\ queue_ok q' /\ contents q' = contents q ++ [b].
Proof.
  intros Hq. unfold appender_write. destruct (preallocate_ok create_room 1 growth q Hroom Hq) as (Hq1 & Ec & t & Et & Ht).
  destruct (postallocate_ok [b] _ t Hq1 Et) as (q' & E & Hq' & Ec'); [done|]. exists q'. by rewrite E, Ec', Ec.
Qed.
Lemma appender_writes_ok growth l q : queue_ok q ->
  exists q', appender_writes growth l q = Ret q' /\ queue_ok q' /\ contents q' = contents q ++ l.
Proof.
  revert q. induction l as [|b l IH]; intros q Hq; cbn; [exists q; by rewrite app_nil_r|].
  destruct (appender_write_ok growth b q Hq) as (q1 & -> & Hq1 & E1). destruct (IH q1 Hq1) as (q2 & E2 & Hq2 & Ec). exists q2. cbn.
  rewrite E2, Ec, E1, <- app_assoc. done.
Qed.
Lemma appender_push_ok growth l q : 0 < growth -> queue_ok q ->
  exists q', appender_push growth l q = Ret q' /\ queue_ok q' /\ contents q' = contents q ++ l.
Proof.
  intros Hg. unfold appender_push. generalize (le_n (length l)). generalize (length l) at 2 3. intros fuel. revert l q.
  induction fuel as [|fuel IH]; intros l q Hl Hq.
  { destruct l; [|cbn in Hl; lia]. exists q. by rewrite app_nil_r. }
  destruct l as [|b l]; [exists q; by rewrite app_nil_r|]. cbn [push_loop]. set (l' := b :: l) in *. assert (Hl' : 0 < length l') by (cbn; lia).
  destruct (preallocate_ok create_room (Nat.min (length l') growth) growth q Hroom Hq) as (Hq1 & Ec & t & Et & Ht). rewrite Et.
  set (n := Nat.min (length l') (tailroom t)). assert (Hn : 0 < n <= tailroom t) by (unfold n; lia).
  destruct (postallocate_ok (take n l') _ t Hq1 Et) as (q1 & -> & Hq2 & E2); [rewrite length_take; lia|]. cbn [res_bind].
  destruct (IH (drop n l') q1) as (q' & E & Hq' & E'); [rewrite length_drop; lia|done|]. exists q'. rewrite E. split; [done|]. split; [done|].
  by rewrite E', E2, Ec, <- app_assoc, take_drop.
Qed.
End Adapter.
