(* ===== verification/Codec.v ===== *)
(** * Codecs

    Models the decoder interface and the codecs over the buffer queue:
    [src/include/futures/codec/Codec.h], [StringEncoder.h],
    [LineBasedDecoder.h], [LengthFieldBasedFrameDecoder.h],
    [src/src/LineBasedDecoder.cpp] and
    [src/src/LengthFieldBasedFrameDecoder.cpp].  The queue is the list of its
    bytes, which is what [IOBufQueue.v] shows it to be; a [Cursor] reads the
    same list. *)

From S2P Require Import Prelude Core IOBufQueue.
Local Open Scope cpp_scope.
Local Open Scope Z_scope.

Definition len {A} (l : list A) : Z := Z.of_nat (length l).

(** ** The queue, as the codecs use it *)

Definition buf_split (n : Z) : eff (list Z) (list Z) := fun s =>
  if n <=? len s then (Ret (take (Z.to_nat n) s), drop (Z.to_nat n) s) else (Throw std_underflow_error, []).
Definition buf_trimStart (n : Z) : eff (list Z) unit := fun s =>
  if n <=? len s then (Ret tt, drop (Z.to_nat n) s) else (Throw std_underflow_error, []).

Lemma len_app {A} (l k : list A) : len (l ++ k) = len l + len k.
Proof. unfold len. rewrite length_app. lia. Qed.
Lemma len_nonneg {A} (l : list A) : 0 <= len l.
Proof. unfold len. lia. Qed.


Lemma buf_split_app l k : buf_split (len l) (l ++ k) = (Ret l, k).
Proof.
  unfold buf_split. rewrite len_app. pose proof (len_nonneg k).
  replace (_ <=? _) with true by (symmetry; apply Z.leb_le; lia).
  unfold len. by rewrite Nat2Z.id, take_app_length, drop_app_length.
Qed.
Lemma buf_trimStart_app l k : buf_trimStart (len l) (l ++ k) = (Ret tt, k).
Proof.
  unfold buf_trimStart. rewrite len_app. pose proof (len_nonneg k).
  replace (_ <=? _) with true by (symmetry; apply Z.leb_le; lia).
  unfold len. by rewrite Nat2Z.id, drop_app_length.
Qed.

(** ** The decoder interface *)

(** A decoder of [T] with its own state [D], over the bytes of the queue. *)
(** [src/include/futures/codec/Codec.h:12-15] DecoderBase::decode *)
Class Decoder (D T : Type) := decode : D -> list Z -> res (option T) * D * list Z.

(** [src/include/futures/codec/Codec.h:17-24] DecoderBase::decodeEof *)
Definition decodeEof {D T} `{Decoder D T} (d : D) (s : list Z) : res T * D * list Z :=
  match decode d s with
  | (Ret (Some v), d', s') => (Ret v, d', s')
  | (Ret None, d', s') => (Throw (IOError "decoder eof"), d', s')
  | (Throw e, d', s') => (Throw e, d', s')
  | (Abort a, d', s') => (Abort a, d', s')
  | (OutOfFuel, d', s') => (OutOfFuel, d', s')
  end.

(** What a client of a decoder relies on: [f] is the encoding of one item [t]
    for the decoder in state [d].  Whatever follows, decoding takes exactly
    [f] off the queue, and as long as [f] has not arrived in full it takes
    nothing. *)
Definition is_frame {D T} `{Decoder D T} (d : D) (f : list Z) (t : T) : Prop :=
  f <> [] /\
  (forall rest, decode d (f ++ rest) = (Ret (Some t), d, rest)) /\
  (forall p x q, f = p ++ x :: q -> decode d p = (Ret None, d, p)).

(** [src/include/futures/codec/StringEncoder.h:12-15] StringEncoder::encode *)
Definition StringEncoder_encode (out : list Z) (s : list Z) : list Z := s ++ out.

(** ** LineBasedDecoder *)
Module LineBased.

(** [src/include/futures/codec/LineBasedDecoder.h:15-19] TerminatorType *)
Inductive TerminatorType := BOTH | NEWLINE | CARRIAGENEWLINE.
#[global] Instance TerminatorType_eq_dec : EqDecision TerminatorType.
Proof. solve_decision. Defined.

(** [src/include/futures/codec/LineBasedDecoder.h:32-38] LineBasedDecoder *)
Record LineBasedDecoder := mkLine {
  maxLength_ : Z; stripDelimiter_ : bool; discarding_ : bool; discardedBytes_ : Z;
  terminatorType_ : TerminatorType }.

(** [src/src/LineBasedDecoder.cpp:10-15] LineBasedDecoder::LineBasedDecoder *)
Definition new (maxLength : Z) (stripDelimiter : bool) (t : TerminatorType) : LineBasedDecoder :=
  mkLine maxLength stripDelimiter false 0 t.

Abbreviation LF := 10.
Abbreviation CR := 13.

(** [c] is what the cursor has left, [n] the length of the queue.  A carriage
    return makes the loop read one more character, which is not counted in
    [i]; reading at the end of the queue throws. *)
(** [src/src/LineBasedDecoder.cpp:68-81] LineBasedDecoder::findEndOfLine *)
Fixpoint findEndOfLine (maxLength : Z) (t : TerminatorType) (n i : Z) (c : list Z) {struct c} : res Z :=
  if (i <? maxLength) && (i <? n) then
    match c with
    | [] => Throw std_out_of_range
    | b :: c1 =>
        if (b =? LF) && negb (bool_decide (t = CARRIAGENEWLINE)) then Ret i
        else if negb (bool_decide (t = NEWLINE)) && (b =? CR) then
          match c1 with
          | [] => findEndOfLine maxLength t n (i + 1) c1
          | x :: c2 => if x =? LF then Ret i else findEndOfLine maxLength t n (i + 1) c2
          end
        else findEndOfLine maxLength t n (i + 1) c1
    end
  else Ret (-1).

(** [Cursor c(buf.front()); c += eol; c.read<char>() == '\r' ? 2 : 1] *)
Definition delimLength (eol : Z) (s : list Z) : res Z :=
  match drop (Z.to_nat eol) s with
  | [] => Throw std_out_of_range
  | b :: _ => Ret (if b =? CR then 2 else 1)
  end.

(** [src/src/LineBasedDecoder.cpp:17-66] LineBasedDecoder::decode *)
Definition LineBasedDecoder_decode (d : LineBasedDecoder) (s : list Z)
  : res (option (list Z)) * LineBasedDecoder * list Z :=
  let fail {A} (r : res A) (s : list Z) := (res_bind r (fun _ => Ret None), d, s) in
  match findEndOfLine (maxLength_ d) (terminatorType_ d) (len s) 0 s with
  | Ret eol =>
      if negb (discarding_ d) then
        if 0 <=? eol then
          match delimLength eol s with
          | Ret dl =>
              if maxLength_ d <? eol then
                match buf_split (eol + dl) s with
                | (Ret _, s1) => (Throw (IOError "line too long"), d, s1)
                | (r, s1) => fail r s1
                end
              else if stripDelimiter_ d then
                match buf_split eol s with
                | (Ret frame, s1) =>
                    match buf_trimStart dl s1 with
                    | (Ret _, s2) => (Ret (Some frame), d, s2)
                    | (r, s2) => fail r s2
                    end
                | (r, s1) => fail r s1
                end
              else
                match buf_split (eol + dl) s with
                | (Ret frame, s1) => (Ret (Some frame), d, s1)
                | (r, s1) => fail r s1
                end
          | r => fail r s
          end
        else if maxLength_ d <? len s then
          (Throw (IOError "line too long"),
           mkLine (maxLength_ d) (stripDelimiter_ d) true (u32 (len s)) (terminatorType_ d), [])
        else (Ret None, d, s)
      else
        if 0 <=? eol then
          match delimLength eol s with
          | Ret dl =>
              match buf_trimStart (eol + dl) s with
              | (Ret _, s1) => (Ret None, mkLine (maxLength_ d) (stripDelimiter_ d) false 0 (terminatorType_ d), s1)
              | (r, s1) => fail r s1
              end
          | r => fail r s
          end
        else (Ret None, mkLine (maxLength_ d) (stripDelimiter_ d) true (u32 (len s)) (terminatorType_ d), [])
  | r => fail r s
  end.

#[global] Instance LineBased_Decoder : Decoder LineBasedDecoder (list Z) := LineBasedDecoder_decode.

(** The characters a line may have, and how it may end, for each terminator
    type. *)
Definition plain (t : TerminatorType) (l : list Z) : Prop :=
  Forall (fun b => (t = CARRIAGENEWLINE \/ b <> LF) /\ (t = NEWLINE \/ b <> CR)) l.
Definition is_term (t : TerminatorType) (e : list Z) : Prop :=
  match t with
  | BOTH => e = [LF] \/ e = [CR; LF]
  | NEWLINE => e = [LF]
  | CARRIAGENEWLINE => e = [CR; LF]
  end.

Ltac plain_chars :=
  unfold plain; repeat (apply Forall_cons_2; [split; first [left; reflexivity | right; discriminate]|]); apply Forall_nil_2.

Lemma find_plain max t n i b c :
  (t = CARRIAGENEWLINE \/ b <> LF) /\ (t = NEWLINE \/ b <> CR) ->
  findEndOfLine max t n i (b :: c) =
    if (i <? max) && (i <? n) then findEndOfLine max t n (i + 1) c else Ret (-1).
Proof.
  intros [Hlf Hcr]. cbn [findEndOfLine]. destruct (_ && _); [|done].
  replace ((b =? LF) && _) with false.
  2:{ symmetry. destruct Hlf as [->|Hlf]; [by rewrite andb_false_r|].
      by rewrite (proj2 (Z.eqb_neq _ _) Hlf). }
  replace (negb _ && (b =? CR)) with false; [done|].
  symmetry. destruct Hcr as [->|Hcr]; [done|]. by rewrite (proj2 (Z.eqb_neq _ _) Hcr), andb_false_r.
Qed.

Lemma find_skip max t n i l c :
  plain t l -> i + len l <= max -> i + len l <= n ->
  findEndOfLine max t n i (l ++ c) = findEndOfLine max t n (i + len l) c.
Proof.
  revert i. induction l as [|b l IH]; intros i Hp H1 H2.
  - unfold len; cbn. by rewrite Z.add_0_r.
  - apply Forall_cons in Hp as [Hb Hp]. unfold len in *; cbn [length app] in *.
    rewrite find_plain by done.
    replace ((i <? max) && (i <? n)) with true by (symmetry; apply andb_true_iff; lia).
    rewrite IH by (done || lia). f_equal. lia.
Qed.

(** No end is found before the end of the queue, also where the queue ends
    in a carriage return. *)
Lemma find_none max t n i l c :
  plain t l -> c = [] \/ c = [CR] -> i + len l + len c = n -> findEndOfLine max t n i (l ++ c) = Ret (-1).
Proof.
  revert i. induction l as [|b l IH]; intros i Hp Hc Hn; unfold len in *; cbn [length app] in *.
  - destruct Hc as [-> | ->]; cbn [findEndOfLine length] in *.
    + replace (i <? n) with false by (symmetry; apply Z.ltb_ge; lia). by rewrite andb_false_r.
    + replace (i + 1 <? n) with false by (symmetry; apply Z.ltb_ge; lia). rewrite andb_false_r.
      by repeat case_match.
  - apply Forall_cons in Hp as [Hb Hp]. rewrite find_plain by done.
    destruct (_ && _); [|done]. apply IH; [done..|lia].
Qed.

(** The end of a terminated line is where its terminator starts. *)
Lemma find_line max t l e rest :
  plain t l -> is_term t e -> len l < max ->
  findEndOfLine max t (len (l ++ e ++ rest)) 0 (l ++ e ++ rest) = Ret (len l) /\
  delimLength (len l) (l ++ e ++ rest) = Ret (len e).
Proof.
  intros Hp He Hm. split.
  - assert (0 < len e) by (destruct t, e as [|? [|? []]]; cbn in He; destruct_or?; simplify_eq; unfold len; cbn; lia).
    pose proof (len_nonneg rest). pose proof (len_nonneg l).
    rewrite find_skip by (rewrite ?len_app; done || lia). rewrite Z.add_0_l.
    assert (Hg : (len l <? max) && (len l <? len (l ++ e ++ rest)) = true)
      by (rewrite !len_app; apply andb_true_iff; lia).
    destruct t; cbn in He; destruct_or?; subst e; cbn [app findEndOfLine]; cbn [app] in Hg; by rewrite Hg.
  - unfold delimLength, len. rewrite Nat2Z.id, drop_app_length.
    destruct t; cbn in He; destruct_or?; subst e; reflexivity.
Qed.

(** A line that is cut before its last character has no end yet. *)
Lemma find_cut max t l e p x q :
  plain t l -> is_term t e -> l ++ e = p ++ x :: q -> findEndOfLine max t (len p) 0 p = Ret (-1).
Proof.
  intros Hp He E. destruct (decide (length p <= length l)%nat) as [Hle|Hgt].
  - rewrite <- (app_nil_r p) at 2. apply find_none; [|by left|unfold len; cbn; lia].
    assert (Hpre : p = take (length p) l).
    { rewrite <- (take_app_le l e) by done. by rewrite E, take_app_length. }
    rewrite Hpre. by apply Forall_take.
  - assert (Hlen : (length l + length e = length p + S (length q))%nat)
      by (apply (f_equal length) in E; rewrite !length_app in E; done).
    assert (He2 : e = [CR; LF] /\ length p = S (length l))
      by (destruct t; cbn in He; destruct_or?; subst e; cbn [length] in *; repeat split; (lia || done)).
    destruct He2 as (-> & Hl).
    assert (p = l ++ [CR]) as ->.
    { apply (f_equal (take (length p))) in E. rewrite take_app_length in E. rewrite <- E, Hl.
      rewrite take_app_ge by lia. by replace (S (length l) - length l)%nat with 1%nat by lia. }
    apply find_none; [done|by right|]. rewrite len_app. lia.
Qed.

Lemma line_is_frame d l e :
  discarding_ d = false -> plain (terminatorType_ d) l -> is_term (terminatorType_ d) e -> len l < maxLength_ d ->
  is_frame d (l ++ e) (if stripDelimiter_ d then l else l ++ e).
Proof.
  intros Hd Hp He Hm.
  assert (Hne : 0 < len e <= 2)
    by (destruct (terminatorType_ d); cbn in He; destruct_or?; subst e; unfold len; cbn; lia).
  pose proof (len_nonneg l).
  split; [destruct l; [destruct e; [unfold len in Hne; cbn in Hne; lia|done]|done]|]. split.
  - intros rest. rewrite <- app_assoc. unfold decode, LineBased_Decoder, LineBasedDecoder_decode.
    destruct (find_line (maxLength_ d) _ l e rest Hp He Hm) as [-> ->]. rewrite Hd. cbn [negb].
    replace (0 <=? len l) with true by (symmetry; apply Z.leb_le; lia).
    replace (maxLength_ d <? len l) with false by (symmetry; apply Z.ltb_ge; lia).
    destruct (stripDelimiter_ d).
    + by rewrite buf_split_app, buf_trimStart_app.
    + by rewrite app_assoc, <- len_app, buf_split_app.
  - intros p x q E. unfold decode, LineBased_Decoder, LineBasedDecoder_decode.
    rewrite (find_cut _ _ l e p x q) by done. rewrite Hd. cbn [negb].
    replace (0 <=? -1) with false by done.
    assert (len p <= maxLength_ d).
    { apply (f_equal len) in E. rewrite !len_app in E. unfold len in *. cbn [length] in E. lia. }
    by replace (maxLength_ d <? len p) with false by (symmetry; apply Z.ltb_ge; lia).
Qed.

(** A line is recovered as it was sent.  A line that has no terminator
    character in it, is shorter than the limit and ends as the decoder is
    configured ([\n], [\r\n], or either) is one frame: whatever bytes follow,
    the decoder returns the line (with its terminator when it does not strip
    it) and removes exactly the line and its terminator; and when only a part
    of it has arrived, also when the cut is between [\r] and [\n], it returns
    nothing and removes nothing. *)
Theorem line_decode_spec d l e :
  discarding_ d = false -> plain (terminatorType_ d) l -> is_term (terminatorType_ d) e -> len l < maxLength_ d ->
  is_frame d (l ++ e) (if stripDelimiter_ d then l else l ++ e).
Proof. apply line_is_frame. Qed.

Definition witness_decoder : LineBasedDecoder := new 10 true BOTH.

Lemma line_decode_spec_witness : is_frame witness_decoder [104; 105; 13; 10] [104; 105].
Proof.
  apply (line_decode_spec witness_decoder [104; 105] [13; 10]); [done| |by right|done].
  plain_chars.
Defined.

(** An over-long line. *)
Lemma find_overlong max t l c n : plain t l -> 0 <= max <= len l -> findEndOfLine max t n 0 (l ++ c) = Ret (-1).
Proof.
  intros Hp Hm. set (k := Z.to_nat max).
  assert (Hk : forall m i l, plain t l -> (m <= length l)%nat -> i + Z.of_nat m = max ->
    findEndOfLine max t n i (l ++ c) = Ret (-1)).
  { clear. induction m as [|m IH]; intros i l Hp Hm Hi.
    - replace max with i by lia. destruct (l ++ c); cbn [findEndOfLine]; by rewrite Z.ltb_irrefl.
    - destruct l as [|b l]; [cbn in Hm; lia|]. apply Forall_cons in Hp as [Hb Hp].
      cbn [app]. rewrite find_plain by done. destruct (_ && _); [|done].
      apply IH; [done|cbn in Hm; lia|lia]. }
  apply (Hk k); [done|unfold k, len in *; lia..].
Qed.

Definition set_discarding (b : bool) (n : Z) (d : LineBasedDecoder) : LineBasedDecoder :=
  mkLine (maxLength_ d) (stripDelimiter_ d) b n (terminatorType_ d).

(** While discarding, the rest of a line is dropped with its terminator. *)
Lemma discard_line d l e rest :
  discarding_ d = true -> plain (terminatorType_ d) l -> is_term (terminatorType_ d) e -> len l < maxLength_ d ->
  decode d (l ++ e ++ rest) = (Ret None, set_discarding false 0 d, rest).
Proof.
  intros Hd Hp He Hm. unfold decode, LineBased_Decoder, LineBasedDecoder_decode.
  destruct (find_line (maxLength_ d) _ l e rest Hp He Hm) as [-> ->]. rewrite Hd. cbn [negb].
  pose proof (len_nonneg l). replace (0 <=? len l) with true by (symmetry; apply Z.leb_le; lia).
  by rewrite app_assoc, <- len_app, buf_trimStart_app.
Qed.

(** What happens to a line that reaches the limit.  The decoder reports
    it as too long, drops everything that is buffered and starts discarding.
    If the end of the long line was still to come, the next call drops the
    rest of it and decoding goes on with the following line.  If the long
    line had arrived together with its terminator, the terminator is gone,
    and it is the NEXT line -- complete and short enough -- that is dropped
    without a report. *)
Theorem line_overlong d l e rest l2 e2 rest2 :
  let t := terminatorType_ d in
  discarding_ d = false -> 0 <= maxLength_ d ->
  plain t l -> maxLength_ d <= len l -> is_term t e ->
  plain t l2 -> len l2 < maxLength_ d -> is_term t e2 ->
  let d1 n := set_discarding true n d in
  decode d (l ++ e ++ rest) = (Throw (IOError "line too long"), d1 (u32 (len (l ++ e ++ rest))), []) /\
  (maxLength_ d < len l ->
   decode d l = (Throw (IOError "line too long"), d1 (u32 (len l)), [])) /\
  forall n, decode (d1 n) (l2 ++ e2 ++ rest2) = (Ret None, set_discarding false 0 d, rest2).
Proof.
  intros t Hd H0 Hp Hm He Hp2 Hm2 He2 d1. split; [|split].
  - unfold decode, LineBased_Decoder, LineBasedDecoder_decode. fold t. rewrite find_overlong by done.
    rewrite Hd. cbn [negb]. replace (0 <=? -1) with false by done.
    assert (0 < len e) by (destruct t; cbn in He; destruct_or?; subst e; unfold len; cbn; lia).
    pose proof (len_nonneg rest).
    by replace (maxLength_ d <? _) with true by (symmetry; apply Z.ltb_lt; rewrite !len_app; lia).
  - intros Hlt. unfold decode, LineBased_Decoder, LineBasedDecoder_decode. fold t.
    rewrite <- (app_nil_r l) at 2. rewrite find_overlong by done.
    rewrite Hd. cbn [negb]. replace (0 <=? -1) with false by done.
    by replace (maxLength_ d <? _) with true by (symmetry; apply Z.ltb_lt; lia).
  - intros n. by rewrite discard_line.
Qed.

Lemma line_overlong_witness :
  decode (new 3 true NEWLINE) [97; 98; 99; 100; 10] =
    (Throw (IOError "line too long"), mkLine 3 true true 5 NEWLINE, []) /\
  decode (mkLine 3 true true 5 NEWLINE) [111; 107; 10] = (Ret None, new 3 true NEWLINE, []).
Proof.
  assert (H1 : plain NEWLINE [97; 98; 99; 100]) by plain_chars.
  assert (H2 : plain NEWLINE [111; 107]) by plain_chars.
  pose proof (line_overlong (new 3 true NEWLINE) [97; 98; 99; 100] [10] [] [111; 107] [10] [] eq_refl
    ltac:(cbn; lia) H1 ltac:(unfold len; cbn; lia) eq_refl H2 ltac:(unfold len; cbn; lia) eq_refl) as (E1 & _ & E3).
  split; [exact E1|exact (E3 5)].
Defined.

Lemma find_cr max n i x c : x <> LF -> i < max -> i < n ->
  findEndOfLine max BOTH n i (CR :: x :: c) = findEndOfLine max BOTH n (i + 1) c.
Proof.
  intros Hx H1 H2. cbn [findEndOfLine]. apply Z.ltb_lt in H1, H2. rewrite H1, H2. cbn [andb].
  by rewrite (proj2 (Z.eqb_neq _ _) Hx).
Qed.
Lemma find_lf max n i c : i < max -> i < n -> findEndOfLine max BOTH n i (LF :: c) = Ret i.
Proof. intros H1 H2. cbn [findEndOfLine]. apply Z.ltb_lt in H1, H2. by rewrite H1, H2. Qed.

(** A carriage return inside a line is not handled.  When carriage
    returns are looked for and one is followed by some other character [x],
    the search consumes [x] without counting it.  Of the line [l \r x \n] the
    decoder returns [l \r], drops [x] for a terminator and leaves the [\n],
    which is then an empty line of its own; and if the queue ends after [x]
    the decoder throws [std::out_of_range] instead of waiting for more. *)
Theorem line_lone_cr d l x rest :
  discarding_ d = false -> terminatorType_ d = BOTH -> stripDelimiter_ d = true ->
  plain BOTH l -> x <> LF -> x <> CR -> len l + 1 < maxLength_ d ->
  decode d (l ++ CR :: x :: LF :: rest) = (Ret (Some (l ++ [CR])), d, LF :: rest) /\
  decode d (LF :: rest) = (Ret (Some []), d, rest) /\
  decode d (l ++ [CR; x]) = (Throw std_out_of_range, d, l ++ [CR; x]).
Proof.
  intros Hd Ht Hs Hp Hlf Hcr Hm. pose proof (len_nonneg l) as H0. split; [|split].
  - unfold decode, LineBased_Decoder, LineBasedDecoder_decode. rewrite Ht, Hd, Hs.
    assert (Hlen : len (l ++ CR :: x :: LF :: rest) = len l + 3 + len rest)
      by (rewrite len_app; unfold len; cbn [length]; lia).
    pose proof (len_nonneg rest).
    rewrite find_skip by (done || lia). rewrite Z.add_0_l, Hlen. rewrite find_cr, find_lf by (done || lia). cbn [negb].
    replace (0 <=? len l + 1) with true by (symmetry; apply Z.leb_le; lia).
    replace (len l + 1) with (len (l ++ [CR])) by (by rewrite len_app).
    replace (l ++ CR :: x :: LF :: rest) with ((l ++ [CR]) ++ x :: LF :: rest) by (by rewrite <- app_assoc).
    unfold delimLength. unfold len at 1. rewrite Nat2Z.id, drop_app_length.
    rewrite (proj2 (Z.eqb_neq _ _) Hcr).
    replace (maxLength_ d <? _) with false by (symmetry; apply Z.ltb_ge; rewrite len_app; unfold len in *; cbn; lia).
    rewrite buf_split_app. by rewrite (buf_trimStart_app [x] (LF :: rest) : buf_trimStart 1 (x :: LF :: rest) = _).
  - unfold decode, LineBased_Decoder, LineBasedDecoder_decode. rewrite Ht, Hd, Hs.
    rewrite find_lf by (unfold len in *; cbn [length]; lia). cbn -[buf_split buf_trimStart].
    replace (maxLength_ d <? 0) with false by (symmetry; apply Z.ltb_ge; lia).
    rewrite (buf_split_app [] (LF :: rest) : buf_split 0 (LF :: rest) = _).
    change (delimLength 0 (LF :: rest)) with (Ret 1 : res Z). cbn beta iota.
    by rewrite (buf_trimStart_app [LF] rest : buf_trimStart 1 (LF :: rest) = _).
  - unfold decode, LineBased_Decoder, LineBasedDecoder_decode. rewrite Ht.
    assert (Hlen : len (l ++ [CR; x]) = len l + 2) by (rewrite len_app; unfold len; cbn [length]; lia).
    rewrite find_skip by (done || lia). rewrite Z.add_0_l, Hlen. rewrite find_cr by (done || lia). cbn [findEndOfLine].
    by replace (_ && _) with true by (symmetry; apply andb_true_iff; lia).
Qed.

Lemma line_lone_cr_witness : decode witness_decoder [97; 13; 98; 10] = (Ret (Some [97; 13]), witness_decoder, [10]).
Proof.
  assert (H1 : plain BOTH [97]) by plain_chars.
  exact (proj1 (line_lone_cr witness_decoder [97] 98 [] eq_refl eq_refl eq_refl H1 ltac:(discriminate)
    ltac:(discriminate) ltac:(unfold len; cbn; lia))).
Defined.

End LineBased.

(** ** LengthFieldBasedFrameDecoder *)
Module LengthField.

(** [src/include/futures/codec/LengthFieldBasedFrameDecoder.h:199-206] LengthFieldBasedFrameDecoder *)
Record LengthFieldBasedFrameDecoder := mkLFD {
  lengthFieldLength_ : Z; maxFrameLength_ : Z; lengthFieldOffset_ : Z; lengthAdjustment_ : Z;
  initialBytesToStrip_ : Z; networkByteOrder_ : bool; lengthFieldEndOffset_ : Z }.

(** [src/src/LengthFieldBasedFrameDecoder.cpp:20-36] LengthFieldBasedFrameDecoder::LengthFieldBasedFrameDecoder *)
Definition new (lengthFieldLength maxFrameLength lengthFieldOffset lengthAdjustment initialBytesToStrip : Z)
  (networkByteOrder : bool) : res LengthFieldBasedFrameDecoder :=
  if (0 <? maxFrameLength) && (lengthFieldOffset <=? u32 (maxFrameLength - lengthFieldLength)) then
    Ret (mkLFD lengthFieldLength maxFrameLength lengthFieldOffset lengthAdjustment initialBytesToStrip
           networkByteOrder (u32 (lengthFieldOffset + lengthFieldLength)))
  else Abort "CHECK".

Definition fromBE (l : list Z) : Z := fold_left (fun a b => a * 256 + b) l 0.
Definition fromLE (l : list Z) : Z := fromBE (rev l).

(** [offset] and [length] are [int]s; [skip] and [readBE], [readLE] throw at
    the end of the queue.  A length other than 1, 2, 4 or 8 leaves the local
    [frameLength] uninitialised. *)
(** [src/src/LengthFieldBasedFrameDecoder.cpp:73-116] LengthFieldBasedFrameDecoder::getUnadjustedFrameLength *)
Definition getUnadjustedFrameLength (s : list Z) (offset length : Z) (networkByteOrder : bool) : res Z :=
  if len s <? u64 offset then Throw std_out_of_range
  else
    let c := drop (Z.to_nat (u64 offset)) s in
    let read (n : nat) :=
      if (Nat.ltb (List.length c) n) then Throw std_out_of_range
      else Ret (if networkByteOrder then fromBE (take n c) else fromLE (take n c)) in
    if length =? 1 then read 1%nat
    else if length =? 2 then read 2%nat
    else if length =? 4 then read 4%nat
    else if length =? 8 then read 8%nat
    else Abort "uninitialised".

(** [src/src/LengthFieldBasedFrameDecoder.cpp:38-71] LengthFieldBasedFrameDecoder::decode *)
Definition LengthField_decode (d : LengthFieldBasedFrameDecoder) (s : list Z)
  : res (option (list Z)) * LengthFieldBasedFrameDecoder * list Z :=
  let fail {A} (r : res A) (s : list Z) := (res_bind r (fun _ => Ret None), d, s) in
  (* [buf.trimStart(n); throw e;] *)
  let trim_throw (n : Z) (e : exn) :=
    match buf_trimStart n s with
    | (Ret _, s1) => (Throw e, d, s1)
    | (r, s1) => fail r s1
    end in
  if len s <? lengthFieldEndOffset_ d then (Ret None, d, s)
  else
    match getUnadjustedFrameLength s (i32 (lengthFieldOffset_ d)) (i32 (lengthFieldLength_ d)) (networkByteOrder_ d) with
    | Ret n =>
        let frameLength := u64 (n + u32 (lengthAdjustment_ d + lengthFieldEndOffset_ d)) in
        if frameLength <? lengthFieldEndOffset_ d then
          trim_throw (lengthFieldEndOffset_ d) (std_runtime_error "Frame too small")
        else if maxFrameLength_ d <? frameLength then
          trim_throw frameLength (std_runtime_error "Frame larger than max")
        else if len s <? frameLength then (Ret None, d, s)
        else if frameLength <? initialBytesToStrip_ d then
          trim_throw frameLength (std_runtime_error "InitialBytesToSkip larger than frame")
        else
          match buf_trimStart (initialBytesToStrip_ d) s with
          | (Ret _, s1) =>
              let actualFrameLength := i32 (frameLength - initialBytesToStrip_ d) in
              match buf_split (u64 actualFrameLength) s1 with
              | (Ret f, s2) => (Ret (Some f), d, s2)
              | (r, s2) => fail r s2
              end
          | (r, s1) => fail r s1
          end
    | r => fail r s
    end.

#[global] Instance LengthField_Decoder : Decoder LengthFieldBasedFrameDecoder (list Z) := LengthField_decode.

(** The wire format the decoder is configured for: a header, the length field
    and the rest of the frame, whose length less the adjustment the field
    holds. *)
Fixpoint toBE (k : nat) (v : Z) : list Z :=
  match k with
  | O => []
  | S k => toBE k (v / 256) ++ [v mod 256]
  end.
Definition field (k : nat) (networkByteOrder : bool) (v : Z) : list Z :=
  if networkByteOrder then toBE k v else rev (toBE k v).
Definition frame (k : nat) (networkByteOrder : bool) (adj : Z) (hdr tail : list Z) : list Z :=
  hdr ++ field k networkByteOrder (len tail - adj) ++ tail.

Lemma toBE_length k v : length (toBE k v) = k.
Proof. revert v. induction k as [|k IH]; intros v; cbn; [done|]. rewrite length_app, IH. cbn. lia. Qed.

Lemma field_length k nbo v : length (field k nbo v) = k.
Proof. destruct nbo; cbn; rewrite ?length_rev; apply toBE_length. Qed.

Lemma fromBE_snoc l b : fromBE (l ++ [b]) = fromBE l * 256 + b.
Proof. unfold fromBE. by rewrite fold_left_app. Qed.

Lemma fromBE_toBE k v : 0 <= v < 256 ^ Z.of_nat k -> fromBE (toBE k v) = v.
Proof.
  revert v. induction k as [|k IH]; intros v Hv; [cbn in *; unfold fromBE; cbn; lia|].
  rewrite Nat2Z.inj_succ, Z.pow_succ_r in Hv by lia. cbn [toBE]. rewrite fromBE_snoc, IH.
  - pose proof (Z.div_mod v 256). lia.
  - split; [apply Z.div_pos; lia|]. apply Z.div_lt_upper_bound; lia.
Qed.

Lemma field_read k (nbo : bool) v rest : 0 <= v < 256 ^ Z.of_nat k ->
  (if nbo then fromBE (take k (field k nbo v ++ rest)) else fromLE (take k (field k nbo v ++ rest))) = v.
Proof.
  intros Hv. replace (take k (field k nbo v ++ rest)) with (field k nbo v)
    by (by rewrite take_app_le, take_ge by (by rewrite field_length)).
  destruct nbo; cbn [field]; unfold fromLE; rewrite ?rev_involutive; by apply fromBE_toBE.
Qed.

Lemma u64_id x : 0 <= x < 2 ^ 64 -> u64 x = x.
Proof. apply Z.mod_small. Qed.
Lemma u32_id x : 0 <= x < 2 ^ 32 -> u32 x = x.
Proof. apply Z.mod_small. Qed.
Lemma i32_id x : 0 <= x < 2 ^ 31 -> i32 x = x.
Proof. intros H. unfold i32. rewrite Z.mod_small; lia. Qed.

(** A configuration the decoder supports. *)
Record supported (k : nat) (max off adj strip : Z) : Prop := {
  sup_k : k = 1%nat \/ k = 2%nat \/ k = 4%nat \/ k = 8%nat;
  sup_off : 0 <= off;
  sup_max : off + Z.of_nat k <= max < 2 ^ 31;
  sup_adj : 0 <= adj + off + Z.of_nat k < 2 ^ 32;
  sup_strip : 0 <= strip }.

Section Frames.
Context (k : nat) (max off adj strip : Z) (nbo : bool) (d : LengthFieldBasedFrameDecoder).
Context (Hsup : supported k max off adj strip).
Context (Hnew : new (Z.of_nat k) max off adj strip nbo = Ret d).

Lemma new_fields : d = mkLFD (Z.of_nat k) max off adj strip nbo (off + Z.of_nat k).
Proof using Hsup Hnew.
  destruct Hsup. unfold new in Hnew. case_match; simplify_eq. f_equal. apply u32_id. lia.
Qed.

Lemma read_field hdr v rest : len hdr = off -> 0 <= v < 256 ^ Z.of_nat k ->
  getUnadjustedFrameLength (hdr ++ field k nbo v ++ rest) (i32 off) (i32 (Z.of_nat k)) nbo = Ret v.
Proof using Hsup.
  destruct Hsup as [Hk ? ? ? ?]. intros Hh Hv. unfold getUnadjustedFrameLength.
  rewrite !i32_id by lia. rewrite u64_id by lia. rewrite !len_app.
  pose proof (len_nonneg (field k nbo v)). pose proof (len_nonneg rest).
  replace (_ <? off) with false by (symmetry; apply Z.ltb_ge; lia).
  replace (Z.to_nat off) with (length hdr) by (unfold len in Hh; lia). rewrite drop_app_length.
  assert (Hlen : forall n, (n <= k)%nat -> Nat.ltb (length (field k nbo v ++ rest)) n = false)
    by (intros n Hn; apply Nat.ltb_ge; rewrite length_app, field_length; lia).
  pose proof (field_read k nbo v rest Hv) as Hr.
  clear Hnew. destruct Hk as [-> | [-> | [-> | ->]]];
    repeat (match goal with |- context [Z.of_nat ?a =? ?b] =>
              let r := eval cbv in (Z.of_nat a =? b) in change (Z.of_nat a =? b) with r end; cbn match);
    rewrite Hlen by lia; f_equal; exact Hr.
Qed.

Context (hdr tail : list Z).
Context (Hhdr : len hdr = off) (Hv : 0 <= len tail - adj < 256 ^ Z.of_nat k).
Context (Hmax : off + Z.of_nat k + len tail <= max) (Hstrip : strip <= off + Z.of_nat k + len tail).

Let fr := frame k nbo adj hdr tail.
Let L := off + Z.of_nat k + len tail.

Lemma frame_len : len fr = L.
Proof using Hhdr. unfold fr, frame, L. rewrite !len_app. unfold len at 2. rewrite field_length. lia. Qed.

(** The length the decoder computes for a queue that starts with the header
    and the length field. *)
Lemma frameLength_eq : u64 (len tail - adj + u32 (adj + (off + Z.of_nat k))) = L.
Proof using Hsup Hmax Hhdr.
  destruct Hsup. pose proof (len_nonneg tail). rewrite u32_id by lia. unfold L. rewrite u64_id; lia.
Qed.

Lemma decode_frame rest : decode d (fr ++ rest) = (Ret (Some (drop (Z.to_nat strip) fr)), d, rest).
Proof using Hsup Hnew Hhdr Hv Hmax Hstrip.
  pose proof frame_len as HL. pose proof (len_nonneg tail). pose proof (len_nonneg rest).
  rewrite new_fields. destruct Hsup. unfold decode, LengthField_Decoder, LengthField_decode.
  cbn [lengthFieldLength_ maxFrameLength_ lengthFieldOffset_ lengthAdjustment_ initialBytesToStrip_
       networkByteOrder_ lengthFieldEndOffset_].
  rewrite len_app, HL. replace (_ <? _) with false by (symmetry; apply Z.ltb_ge; unfold L; lia).
  replace (getUnadjustedFrameLength _ _ _ _) with (Ret (len tail - adj) : res Z).
  2:{ unfold fr, frame. rewrite <- !app_assoc. by rewrite read_field. }
  rewrite frameLength_eq.
  replace (L <? _) with false by (symmetry; apply Z.ltb_ge; unfold L; lia).
  replace (max <? L) with false by (symmetry; apply Z.ltb_ge; unfold L; lia).
  replace (L + len rest <? L) with false by (symmetry; apply Z.ltb_ge; lia).
  replace (L <? strip) with false by (symmetry; apply Z.ltb_ge; unfold L; lia).
  unfold buf_trimStart. rewrite len_app, HL.
  replace (strip <=? _) with true by (symmetry; apply Z.leb_le; unfold L; lia).
  rewrite i32_id, u64_id by (unfold L; lia).
  assert (Hle : (Z.to_nat strip <= length fr)%nat) by (unfold len in HL; unfold L in HL; lia).
  rewrite drop_app_le by done.
  replace (L - strip) with (len (drop (Z.to_nat strip) fr)).
  - by rewrite buf_split_app.
  - unfold len. rewrite length_drop. unfold len in HL. lia.
Qed.

Lemma decode_cut p x q : fr = p ++ x :: q -> decode d p = (Ret None, d, p).
Proof using Hsup Hnew Hhdr Hv Hmax.
  intros E. pose proof frame_len as HL. pose proof (len_nonneg tail).
  rewrite new_fields. destruct Hsup. unfold decode, LengthField_Decoder, LengthField_decode.
  cbn [lengthFieldLength_ maxFrameLength_ lengthFieldOffset_ lengthAdjustment_ initialBytesToStrip_
       networkByteOrder_ lengthFieldEndOffset_].
  destruct (len p <? off + Z.of_nat k) eqn:Hc; [done|]. apply Z.ltb_ge in Hc.
  assert (Hp : len p < L) by (rewrite <- HL, E, len_app; unfold len; cbn [length]; lia).
  replace (getUnadjustedFrameLength _ _ _ _) with (Ret (len tail - adj) : res Z).
  2:{ replace p with (hdr ++ field k nbo (len tail - adj) ++ drop (length hdr + k) p); [by rewrite read_field|].
      assert (Ht : hdr ++ field k nbo (len tail - adj) = take (length hdr + k) p).
      { rewrite <- (take_app_le p (x :: q)), <- E by (unfold len in *; lia).
        unfold fr, frame. rewrite app_assoc.
        replace (length hdr + k)%nat with (length (hdr ++ field k nbo (len tail - adj)))
          by (rewrite length_app, field_length; done). by rewrite take_app_length. }
      by rewrite app_assoc, Ht, take_drop. }
  rewrite frameLength_eq.
  replace (L <? _) with false by (symmetry; apply Z.ltb_ge; unfold L; lia).
  replace (max <? L) with false by (symmetry; apply Z.ltb_ge; unfold L; lia).
  by replace (len p <? L) with true by (symmetry; apply Z.ltb_lt; lia).
Qed.

Lemma frame_is_frame : is_frame d fr (drop (Z.to_nat strip) fr).
Proof using All.
  split; [|split; [apply decode_frame|apply decode_cut]].
  intros E. pose proof frame_len as HL. rewrite E in HL. destruct Hsup. pose proof (len_nonneg tail).
  unfold L, len in HL. cbn in HL. lia.
Qed.
End Frames.


(** The last configuration of the class comment: the field counts the whole
    message. *)
Definition HELLO : list Z := [72; 69; 76; 76; 79; 44; 32; 87; 79; 82; 76; 68].


(** The class comment shows a configuration with a length field of 3 bytes;
    with it the decoder uses an uninitialised length. *)
Lemma length_field_3_undefined max adj strip nbo d s :
  3 <= max < 2 ^ 31 -> new 3 max 0 adj strip nbo = Ret d -> 3 <= len s ->
  fst (fst (decode d s)) = Abort "uninitialised".
Proof.
  intros Hm Hn Hs. unfold new in Hn. case_match; simplify_eq.
  unfold decode, LengthField_Decoder, LengthField_decode.
  cbn [lengthFieldLength_ lengthFieldOffset_ networkByteOrder_ lengthFieldEndOffset_].
  change (u32 (0 + 3)) with 3. change (i32 0) with 0. change (i32 3) with 3.
  replace (len s <? 3) with false by (symmetry; apply Z.ltb_ge; lia).
  unfold getUnadjustedFrameLength. change (u64 0) with 0.
  by replace (len s <? 0) with false by (symmetry; apply Z.ltb_ge; lia).
Qed.

(** A frame that is too large and has not arrived in full is not skipped: the
    attempt to trim it throws an underflow error, what has arrived is
    dropped, and the rest of it will be taken for new frames. *)
Lemma length_field_oversized k max off adj strip nbo d hdr v s :
  supported k max off adj strip -> new (Z.of_nat k) max off adj strip nbo = Ret d ->
  len hdr = off -> 0 <= v < 256 ^ Z.of_nat k -> v + adj + off + Z.of_nat k < 2 ^ 64 ->
  max < v + adj + off + Z.of_nat k -> off + Z.of_nat k + len s < v + adj + off + Z.of_nat k ->
  decode d (hdr ++ field k nbo v ++ s) = (Throw std_underflow_error, d, []).
Proof.
  intros Hsup Hnew Hh Hv Hb Hmax Hs. rewrite (new_fields _ _ _ _ _ _ _ Hsup Hnew). pose proof (len_nonneg s).
  unfold decode, LengthField_Decoder, LengthField_decode.
  cbn [lengthFieldLength_ maxFrameLength_ lengthFieldOffset_ lengthAdjustment_ initialBytesToStrip_
       networkByteOrder_ lengthFieldEndOffset_].
  rewrite (read_field _ _ _ _ _ nbo Hsup) by done. destruct Hsup.
  assert (Hl : len (hdr ++ field k nbo v ++ s) = off + Z.of_nat k + len s)
    by (rewrite !len_app; unfold len at 2; rewrite field_length; lia).
  unfold buf_trimStart. rewrite Hl, u32_id, u64_id by lia.
  replace (_ <? off + Z.of_nat k) with false by (symmetry; apply Z.ltb_ge; lia).
  replace (_ <? off + Z.of_nat k) with false by (symmetry; apply Z.ltb_ge; lia).
  replace (max <? _) with true by (symmetry; apply Z.ltb_lt; lia).
  by replace (_ <=? _) with false by (symmetry; apply Z.leb_gt; lia).
Qed.

End LengthField.
