(* ===== verification/IoObject.v ===== *)
(** * I/O objects and completion tokens

    Models [src/include/futures/io/WaitHandleBase.h]: an [IOObject] (a socket,
    a timer wheel) keeps the completion tokens of the operations in progress
    in one intrusive list per operation, and is itself linked in the executor's
    list of watchers exactly while it has any.  Tokens live in a store indexed
    by an identity; [data] is what the token classes derived from
    [CompletionToken] add.  Linking an object that is linked, or unlinking one
    that is not, corrupts an intrusive list and is an [Abort]. *)

From S2P Require Import Prelude Core Channels.
Local Open Scope cpp_scope.

(** [src/include/futures/io/WaitHandleBase.h:13-18] IOObject::Operation *)
Inductive Operation := OpConnect | OpRead | OpWrite.
#[global] Instance Operation_eq_dec : EqDecision Operation.
Proof. solve_decision. Defined.

(** [src/include/futures/io/WaitHandleBase.h:58-62] CompletionToken::State *)
Inductive State := STARTED | DONE | CANCELLED.
#[global] Instance State_eq_dec : EqDecision State.
Proof. solve_decision. Defined.

(** [parent_] is a flag: there is one object. *)
(** [src/include/futures/io/WaitHandleBase.h:141-146] CompletionToken *)
Record CompletionToken (P : Type) := mkToken {
  parent_ : bool; task_ : option Task; s_ : State; op_ : Operation; data : P }.
Arguments mkToken {P}. Arguments parent_ {P}. Arguments task_ {P}. Arguments s_ {P}. Arguments op_ {P}. Arguments data {P}.

(** [woken] records the tasks that have been unparked, in order. *)
(** [src/include/futures/io/WaitHandleBase.h:44-46] IOObject *)
Record IOObject (P : Type) := mkIO {
  toks : gmap nat (CompletionToken P);
  pConnect : list nat; pRead : list nat; pWrite : list nat;
  linked : bool;
  woken : list Task }.
Arguments mkIO {P}. Arguments toks {P}. Arguments pConnect {P}. Arguments pRead {P}. Arguments pWrite {P}.
Arguments linked {P}. Arguments woken {P}.

Section IOObject.
Context {P : Type}.
Implicit Types (o : IOObject P) (t : CompletionToken P).

Definition empty_io : IOObject P := mkIO ∅ [] [] [] false [].

(** [src/include/futures/io/WaitHandleBase.h:37-39] IOObject::getPending *)
Definition getPending (op : Operation) (o : IOObject P) : list nat :=
  match op with OpConnect => pConnect o | OpRead => pRead o | OpWrite => pWrite o end.

Definition setPending (op : Operation) (l : list nat) (o : IOObject P) : IOObject P :=
  match op with
  | OpConnect => mkIO (toks o) l (pRead o) (pWrite o) (linked o) (woken o)
  | OpRead => mkIO (toks o) (pConnect o) l (pWrite o) (linked o) (woken o)
  | OpWrite => mkIO (toks o) (pConnect o) (pRead o) l (linked o) (woken o)
  end.
Definition setTok (i : nat) (t : CompletionToken P) (o : IOObject P) : IOObject P :=
  mkIO (<[i := t]> (toks o)) (pConnect o) (pRead o) (pWrite o) (linked o) (woken o).
Definition setLinked (b : bool) (o : IOObject P) : IOObject P :=
  mkIO (toks o) (pConnect o) (pRead o) (pWrite o) b (woken o).
Definition addWoken (l : list Task) (o : IOObject P) : IOObject P :=
  mkIO (toks o) (pConnect o) (pRead o) (pWrite o) (linked o) (woken o ++ l).

(** [src/include/futures/io/WaitHandleBase.h:48-53] IOObject::hasPending *)
Definition hasPending (o : IOObject P) : bool :=
  match pConnect o, pRead o, pWrite o with [], [], [] => false | _, _, _ => true end.

(** [src/include/futures/EventExecutor.h:105-107] EventExecutor::linkWatcher *)
Definition linkWatcher (o : IOObject P) : res (IOObject P) :=
  if linked o then Abort "already linked" else Ret (setLinked true o).
(** [src/include/futures/EventExecutor.h:109-111] EventExecutor::unlinkWatcher *)
Definition unlinkWatcher (o : IOObject P) : res (IOObject P) :=
  if linked o then Ret (setLinked false o) else Abort "not linked".

(** [src/include/futures/io/WaitHandleBase.h:214-218] IOObject::attachChild *)
Definition attachChild (i : nat) (t : CompletionToken P) (o : IOObject P) : res (IOObject P) :=
  let! o1 := (if hasPending o then Ret o else linkWatcher o) in
  Ret (setPending (op_ t) (getPending (op_ t) o1 ++ [i]) o1).

(** [src/include/futures/io/WaitHandleBase.h:220-224] IOObject::dettachChild *)
Definition dettachChild (i : nat) (t : CompletionToken P) (o : IOObject P) : res (IOObject P) :=
  if decide (i ∈ getPending (op_ t) o) then
    let o1 := setPending (op_ t) (filter (.≠ i) (getPending (op_ t) o)) o in
    if hasPending o1 then Ret o1 else unlinkWatcher o1
  else Abort "not in the list".

(** A method of the token [i]; there is no such token otherwise. *)
Definition with_tok {A} (i : nat) (o : IOObject P) (k : CompletionToken P -> res A) : res A :=
  match toks o !! i with Some t => k t | None => Abort "no such token" end.

(** [src/include/futures/io/WaitHandleBase.h:70-75] CompletionToken::attach *)
Definition attach (i : nat) (o : IOObject P) : res (IOObject P) :=
  with_tok i o (fun t =>
    if parent_ t then Abort "assert"
    else
      let! o1 := attachChild i t o in
      Ret (setTok i (mkToken true (task_ t) STARTED (op_ t) (data t)) o1)).

(** [src/include/futures/io/WaitHandleBase.h:77-81] CompletionToken::dettach *)
Definition dettach (i : nat) (o : IOObject P) : res (IOObject P) :=
  with_tok i o (fun t =>
    if parent_ t then
      let! o1 := dettachChild i t o in
      Ret (setTok i (mkToken false (task_ t) (s_ t) (op_ t) (data t)) o1)
    else Ret o).

(** [src/include/futures/io/WaitHandleBase.h:115-118] CompletionToken::notify *)
Definition notify (i : nat) (o : IOObject P) : res (IOObject P) :=
  with_tok i o (fun t =>
    Ret (addWoken (match task_ t with Some k => [k] | None => [] end)
           (setTok i (mkToken (parent_ t) None (s_ t) (op_ t) (data t)) o))).

Definition setState (s : State) (i : nat) (o : IOObject P) : res (IOObject P) :=
  with_tok i o (fun t => Ret (setTok i (mkToken (parent_ t) (task_ t) s (op_ t) (data t)) o)).
Definition setData (d : P) (i : nat) (o : IOObject P) : res (IOObject P) :=
  with_tok i o (fun t => Ret (setTok i (mkToken (parent_ t) (task_ t) (s_ t) (op_ t) d) o)).

(** [dettach(); s_ = s; notify();] *)
Definition finish (s : State) (i : nat) (o : IOObject P) : res (IOObject P) :=
  let! o1 := dettach i o in
  let! o2 := setState s i o1 in
  notify i o2.

(** The [onCancel] of every token class modelled here does nothing. *)
(** [src/include/futures/io/WaitHandleBase.h:87-93] CompletionToken::cleanup *)
Definition tok_cleanup (i : nat) (o : IOObject P) : res (IOObject P) :=
  with_tok i o (fun t => if decide (s_ t = STARTED) then finish CANCELLED i o else Ret o).

(** [src/include/futures/io/WaitHandleBase.h:95-100] CompletionToken::notifyDone *)
Definition notifyDone (i : nat) (o : IOObject P) : res (IOObject P) :=
  with_tok i o (fun t => if decide (s_ t = STARTED) then finish DONE i o else Ret o).

(** [src/include/futures/io/WaitHandleBase.h:106-109] CompletionToken::park *)
Definition park (cur : option Task) (i : nat) (o : IOObject P) : res (IOObject P) :=
  with_tok i o (fun t =>
    if decide (s_ t = STARTED) then
      let! k := CurrentTask_park cur in
      Ret (setTok i (mkToken (parent_ t) (Some k) (s_ t) (op_ t) (data t)) o)
    else Abort "assert").

(** The inner loop of [IOObject::cleanup]. *)
(** [src/include/futures/io/WaitHandleBase.h:22-28] IOObject::cleanup *)
Fixpoint cleanup_op (fuel : nat) (op : Operation) (o : IOObject P) : res (IOObject P) :=
  match getPending op o with
  | [] => Ret o
  | i :: _ =>
      match fuel with
      | 0 => OutOfFuel
      | S fuel => let! o1 := tok_cleanup i o in cleanup_op fuel op o1
      end
  end.
Definition cleanup_all (o : IOObject P) : res (IOObject P) :=
  let! o1 := cleanup_op (length (pConnect o)) OpConnect o in
  let! o2 := cleanup_op (length (pRead o1)) OpRead o1 in
  cleanup_op (length (pWrite o2)) OpWrite o2.

(** A new token, not attached. *)
Definition newTok (i : nat) (op : Operation) (d : P) (o : IOObject P) : IOObject P :=
  setTok i (mkToken false None STARTED op d) o.

(** The destructor of the derived token class, then the base's asserts. *)
(** [src/include/futures/io/WaitHandleBase.h:124-139] CompletionToken::decRef, ~CompletionToken *)
Definition destroy (i : nat) (o : IOObject P) : res (IOObject P) :=
  let! o1 := tok_cleanup i o in
  with_tok i o1 (fun t =>
    if bool_decide (task_ t = None) && bool_decide (s_ t <> STARTED) then
      Ret (mkIO (delete i (toks o1)) (pConnect o1) (pRead o1) (pWrite o1) (linked o1) (woken o1))
    else Abort "assert").
End IOObject.

(** ** The invariant *)
Section Invariant.
Context {P : Type}.
Implicit Types (o : IOObject P) (t : CompletionToken P).

(** The lists hold exactly the attached tokens, each once; an attached token
    is in progress; a finished token has no task waiting; and the object is
    linked in the executor iff some token is attached. *)
Record io_ok o : Prop := {
  ok_nodup : forall op, NoDup (getPending op o);
  ok_pending : forall op i, i ∈ getPending op o <-> exists t, toks o !! i = Some t /\ parent_ t = true /\ op_ t = op;
  ok_started : forall i t, toks o !! i = Some t -> parent_ t = true -> s_ t = STARTED;
  ok_task : forall i t, toks o !! i = Some t -> s_ t <> STARTED -> task_ t = None;
  ok_linked : linked o = hasPending o }.

Lemma getPending_setPending op op' l o :
  getPending op (setPending op' l o) = if decide (op = op') then l else getPending op o.
Proof. by destruct op, op'. Qed.

Lemma hasPending_false o : hasPending o = false <-> forall op, getPending op o = [].
Proof.
  unfold hasPending. split.
  - intros H op. destruct op; cbn; by destruct (pConnect o), (pRead o), (pWrite o).
  - intros H. by rewrite (H OpConnect : pConnect o = _), (H OpRead : pRead o = _), (H OpWrite : pWrite o = _).
Qed.

Lemma hasPending_elem o op i : i ∈ getPending op o -> hasPending o = true.
Proof.
  intros H. destruct (hasPending o) eqn:E; [done|]. rewrite hasPending_false in E.
  rewrite (E op) in H. by apply elem_of_nil in H.
Qed.

Lemma filter_ne_notin (l : list nat) i : i ∉ l -> filter (.≠ i) l = l.
Proof.
  induction l as [|x l IH]; [done|]. intros H. apply not_elem_of_cons in H as [H1 H2].
  rewrite filter_cons_True by done. by rewrite IH.
Qed.

(** What [notifyDone] and [cleanup] do to a token in progress. *)
Definition finished (s : State) (i : nat) t o o' : Prop :=
  toks o' = <[i := mkToken false None s (op_ t) (data t)]> (toks o) /\
  (forall op, getPending op o' = filter (.≠ i) (getPending op o)) /\
  woken o' = woken o ++ (match task_ t with Some k => [k] | None => [] end).

Lemma finished_ok s i t o o' :
  io_ok o -> toks o !! i = Some t -> s <> STARTED -> finished s i t o o' -> linked o' = hasPending o' -> io_ok o'.
Proof.
  intros [Hn Hp Hs Ht Hl] Hi Hne (Htok & Hpend & _) Hlk. split.
  - intros op. rewrite Hpend. by apply NoDup_filter.
  - intros op j. rewrite Hpend, Htok, list_elem_of_filter, Hp.
    split.
    + intros [Hj (t' & Hj' & Hpar & Hop)]. exists t'. by rewrite lookup_insert_ne.
    + intros (t' & Hj & Hpar & Hop). apply lookup_insert_Some in Hj as [[-> <-]|[Hj Hj']]; [done|].
      split; [congruence|]. eauto.
  - intros j t'. rewrite Htok. intros Hj. apply lookup_insert_Some in Hj as [[-> <-]|[Hj Hj']]; [done|]. eauto.
  - intros j t'. rewrite Htok. intros Hj. apply lookup_insert_Some in Hj as [[-> <-]|[Hj Hj']]; [done|]. eauto.
  - done.
Qed.

Lemma dettach_ok i t o :
  io_ok o -> toks o !! i = Some t ->
  exists o', dettach i o = Ret o' /\
    toks o' = <[i := mkToken false (task_ t) (s_ t) (op_ t) (data t)]> (toks o) /\
    (forall op, getPending op o' = filter (.≠ i) (getPending op o)) /\
    woken o' = woken o /\ linked o' = hasPending o'.
Proof.
  intros Hok Hi. unfold dettach, with_tok. rewrite Hi. destruct (parent_ t) eqn:Hpar.
  - unfold dettachChild. assert (Hin : i ∈ getPending (op_ t) o) by (apply (ok_pending o Hok); eauto).
    rewrite decide_True by done. set (o1 := setPending _ _ o).
    assert (Hpend : forall op, getPending op o1 = filter (.≠ i) (getPending op o)).
    { intros op. unfold o1. rewrite getPending_setPending. case_decide; [by subst|].
      rewrite filter_ne_notin; [done|]. rewrite (ok_pending o Hok). intros (t' & Hi' & _ & Hop). by simplify_eq. }
    assert (Hl1 : linked o1 = true).
    { transitivity (linked o); [by unfold o1; destruct (op_ t)|]. rewrite (ok_linked o Hok).
      by eapply hasPending_elem. }
    assert (Ht1 : toks o1 = toks o) by (by unfold o1; destruct (op_ t)).
    assert (Hw1 : woken o1 = woken o) by (by unfold o1; destruct (op_ t)).
    destruct (hasPending o1) eqn:Hh; [|unfold unlinkWatcher; rewrite Hl1]; cbn;
      eexists; (split; [done|]); cbn; rewrite Ht1, Hw1; (split; [done|]); (split; [|split; [done|]]).
    + intros op. by destruct op; rewrite <- Hpend.
    + change (linked o1 = hasPending o1). by rewrite Hl1, Hh.
    + intros op. by destruct op; rewrite <- Hpend.
    + symmetry. change (hasPending o1 = false). done.
  - exists o. split; [done|]. split.
    + rewrite insert_id; [done|]. rewrite Hi. destruct t; cbn in *. by rewrite Hpar.
    + split; [|split; [done|apply (ok_linked o Hok)]]. intros op. rewrite filter_ne_notin; [done|].
      rewrite (ok_pending o Hok). intros (t' & Hi' & Hp' & _). simplify_eq. congruence.
Qed.

Lemma finish_ok s i t o :
  io_ok o -> toks o !! i = Some t -> s <> STARTED ->
  exists o', finish s i o = Ret o' /\ io_ok o' /\ finished s i t o o'.
Proof.
  intros Hok Hi Hs. destruct (dettach_ok i t o Hok Hi) as (o1 & E & Ht1 & Hp1 & Hw1 & Hl1).
  unfold finish. rewrite E. cbn [res_bind]. unfold setState, with_tok. rewrite Ht1, lookup_insert_eq. cbn [res_bind].
  unfold notify, with_tok. cbn [toks setTok]. rewrite lookup_insert_eq. cbn [parent_ task_ s_ op_ data].
  eexists. split; [done|].
  assert (Hf : finished s i t o
    (addWoken match task_ t with Some k => [k] | None => [] end
       (setTok i (mkToken false None s (op_ t) (data t))
          (setTok i (mkToken false (task_ t) s (op_ t) (data t)) o1)))).
  { split; [|split]; cbn.
    - by rewrite Ht1, !insert_insert_eq.
    - intros op. rewrite <- Hp1. by destruct op.
    - by rewrite Hw1. }
  split; [|done]. by eapply finished_ok.
Qed.
(** Replacing a token by one that is attached in the same way keeps the
    lists right. *)
Lemma setTok_ok i t t' o :
  io_ok o -> toks o !! i = Some t -> parent_ t' = parent_ t -> op_ t' = op_ t -> s_ t' = s_ t ->
  (s_ t' <> STARTED -> task_ t' = None) -> io_ok (setTok i t' o).
Proof.
  intros [Hn Hp Hs Ht Hl] Hi Hpar Hop Hst Htask. split.
  - intros op. specialize (Hn op). by destruct op.
  - intros op j. transitivity (j ∈ getPending op o); [by destruct op|]. rewrite Hp. cbn [toks setTok].
    destruct (decide (j = i)) as [->|Hne].
    + rewrite lookup_insert_eq. split; intros (x & Hx & ? & ?); simplify_eq; eexists; (split; [done|]); split; congruence.
    + by rewrite lookup_insert_ne.
  - intros j x Hj Hx. cbn [toks setTok] in Hj. apply lookup_insert_Some in Hj as [[-> <-]|[? Hj]]; [|by eapply Hs].
    rewrite Hst. apply (Hs _ _ Hi). congruence.
  - intros j x Hj Hx. cbn [toks setTok] in Hj. apply lookup_insert_Some in Hj as [[-> <-]|[? Hj]]; [by apply Htask|by eapply Ht].
  - done.
Qed.

Lemma setData_ok d i t o :
  io_ok o -> toks o !! i = Some t ->
  setData d i o = Ret (setTok i (mkToken (parent_ t) (task_ t) (s_ t) (op_ t) d) o) /\
  io_ok (setTok i (mkToken (parent_ t) (task_ t) (s_ t) (op_ t) d) o).
Proof.
  intros Hok Hi. unfold setData, with_tok. rewrite Hi. split; [done|].
  eapply setTok_ok; try done. cbn. by apply (ok_task o Hok i).
Qed.

Lemma addWoken_ok l o : io_ok o -> io_ok (addWoken l o).
Proof.
  intros [Hn Hp Hs Ht Hl]. split; [|exact (fun op => match op with OpConnect => Hp OpConnect | OpRead => Hp OpRead | OpWrite => Hp OpWrite end)|done..].
  intros op. specialize (Hn op). by destruct op.
Qed.

Lemma notify_ok i t o :
  io_ok o -> toks o !! i = Some t ->
  exists o', notify i o = Ret o' /\ io_ok o' /\
    toks o' = <[i := mkToken (parent_ t) None (s_ t) (op_ t) (data t)]> (toks o) /\
    (forall op, getPending op o' = getPending op o) /\
    woken o' = woken o ++ (match task_ t with Some k => [k] | None => [] end).
Proof.
  intros Hok Hi. unfold notify, with_tok. rewrite Hi. eexists. split; [done|]. split.
  - apply addWoken_ok. by eapply setTok_ok.
  - split; [done|]. split; [|done]. intros op. by destruct op.
Qed.

Lemma park_ok k i t o :
  io_ok o -> toks o !! i = Some t -> s_ t = STARTED ->
  exists o', park (Some k) i o = Ret o' /\ io_ok o' /\
    toks o' = <[i := mkToken (parent_ t) (Some k) STARTED (op_ t) (data t)]> (toks o) /\
    (forall op, getPending op o' = getPending op o) /\ woken o' = woken o.
Proof.
  intros Hok Hi Hs. unfold park, with_tok. rewrite Hi, decide_True by done. cbn. eexists. split; [done|]. split.
  - eapply setTok_ok; try done.
  - cbn. rewrite Hs. split; [done|]. split; [|done]. intros op. by destruct op.
Qed.

Lemma newTok_ok i op d o : io_ok o -> toks o !! i = None -> io_ok (newTok i op d o).
Proof.
  intros [Hn Hp Hs Ht Hl] Hi. split.
  - intros op'. specialize (Hn op'). by destruct op'.
  - intros op' j. transitivity (j ∈ getPending op' o); [by destruct op'|]. rewrite Hp. cbn [toks newTok setTok].
    destruct (decide (j = i)) as [->|Hne].
    + rewrite lookup_insert_eq, Hi. split; intros (x & Hx & ? & ?); by simplify_eq.
    + by rewrite lookup_insert_ne.
  - intros j x Hj Hx. cbn [toks newTok setTok] in Hj. apply lookup_insert_Some in Hj as [[-> <-]|[? Hj]]; [done|by eapply Hs].
  - intros j x Hj Hx. cbn [toks newTok setTok] in Hj. apply lookup_insert_Some in Hj as [[-> <-]|[? Hj]]; [done|by eapply Ht].
  - done.
Qed.

(** Attaching appends the token to the list of its operation. *)
Lemma attach_ok i t o :
  io_ok o -> toks o !! i = Some t -> parent_ t = false ->
  exists o', attach i o = Ret o' /\
    toks o' = <[i := mkToken true (task_ t) STARTED (op_ t) (data t)]> (toks o) /\
    (forall op, getPending op o' = if decide (op = op_ t) then getPending op o ++ [i] else getPending op o) /\
    woken o' = woken o /\ io_ok o'.
Proof.
  intros Hok Hi Hpar. unfold attach, with_tok. rewrite Hi, Hpar. unfold attachChild.
  set (m := if hasPending o then Ret o else linkWatcher o).
  assert (exists o1, m = Ret o1 /\ toks o1 = toks o /\ linked o1 = true /\ woken o1 = woken o /\
    forall op, getPending op o1 = getPending op o) as (o1 & -> & Ht1 & Hl1 & Hw1 & Hp1).
  { unfold m, linkWatcher. pose proof (ok_linked o Hok) as Hl. destruct (hasPending o).
    - by exists o.
    - rewrite Hl. eexists. split; [done|]. repeat split; by intros []. }
  cbn [res_bind]. eexists. split; [done|].
  set (o2 := setPending _ _ o1).
  assert (Ht2 : toks o2 = toks o) by (by unfold o2; destruct (op_ t)).
  assert (Hp2 : forall op, getPending op o2 = if decide (op = op_ t) then getPending op o ++ [i] else getPending op o).
  { intros op. unfold o2. rewrite getPending_setPending, !Hp1. case_decide; by subst. }
  assert (Hl2 : linked o2 = true) by (by unfold o2; destruct (op_ t)).
  assert (Hw2 : woken o2 = woken o) by (by unfold o2; destruct (op_ t)).
  cbn [toks setTok woken]. rewrite Ht2.
  assert (Hnot : forall op, i ∉ getPending op o).
  { intros op. rewrite (ok_pending o Hok). intros (x & Hx & ? & _). simplify_eq. congruence. }
  assert (Hp3 : forall x op, getPending op (setTok i x o2) = getPending op o2) by (by intros x []).
  split; [done|]. split; [intros op; by rewrite Hp3|]. split; [done|].
  destruct Hok as [Hn Hp Hs Ht Hl]. split.
  - intros op. rewrite Hp3, Hp2. case_decide; [|done]. apply NoDup_app. split; [done|]. split; [|apply NoDup_singleton].
    intros j Hj Hj'. apply list_elem_of_singleton in Hj' as ->. by apply (Hnot op).
  - intros op j. rewrite Hp3, Hp2. cbn [toks setTok]. rewrite Ht2. destruct (decide (j = i)) as [->|Hne].
    + rewrite lookup_insert_eq. case_decide.
      * split; [|intros _; by apply elem_of_app; right; apply list_elem_of_singleton].
        intros _. eexists. split; [done|]. by subst.
      * split; [by intros ?%Hnot|]. intros (x & Hx & _ & Hop). by simplify_eq.
    + rewrite lookup_insert_ne by done. rewrite <- Hp. case_decide; [|done].
      rewrite elem_of_app, list_elem_of_singleton. naive_solver.
  - intros j x Hj Hx. cbn [toks setTok] in Hj. rewrite Ht2 in Hj. apply lookup_insert_Some in Hj as [[-> <-]|[? Hj]]; [done|by eapply Hs].
  - intros j x Hj Hx. cbn [toks setTok] in Hj. rewrite Ht2 in Hj. apply lookup_insert_Some in Hj as [[-> <-]|[? Hj]]; [done|by eapply Ht].
  - change (linked o2 = hasPending (setTok i (mkToken true (task_ t) STARTED (op_ t) (data t)) o2)). rewrite Hl2. symmetry. eapply (hasPending_elem _ (op_ t) i). rewrite Hp3, Hp2, decide_True by done.
    apply elem_of_app. right. by apply list_elem_of_singleton.
Qed.

Definition ended (s : State) t : CompletionToken P := mkToken false None s (op_ t) (data t).

Lemma notifyDone_ok i t o :
  io_ok o -> toks o !! i = Some t -> s_ t = STARTED ->
  exists o', notifyDone i o = Ret o' /\ io_ok o' /\ finished DONE i t o o'.
Proof.
  intros Hok Hi Hs. unfold notifyDone, with_tok. rewrite Hi, decide_True by done. by apply finish_ok.
Qed.

Lemma tok_cleanup_ok i t o :
  io_ok o -> toks o !! i = Some t -> s_ t = STARTED ->
  exists o', tok_cleanup i o = Ret o' /\ io_ok o' /\ finished CANCELLED i t o o'.
Proof.
  intros Hok Hi Hs. unfold tok_cleanup, with_tok. rewrite Hi, decide_True by done. by apply finish_ok.
Qed.

(** Destroying a token never trips an assertion, and detaches it. *)
Lemma destroy_ok i t o :
  io_ok o -> toks o !! i = Some t ->
  exists o', destroy i o = Ret o' /\ io_ok o' /\ toks o' = delete i (toks o) /\
    (forall op, getPending op o' = filter (.≠ i) (getPending op o)).
Proof.
  intros Hok Hi. unfold destroy.
  assert (exists o1, tok_cleanup i o = Ret o1 /\ io_ok o1 /\
    (exists t', toks o1 = <[i := t']> (toks o) /\ parent_ t' = false /\ s_ t' <> STARTED) /\
    forall op, getPending op o1 = filter (.≠ i) (getPending op o)) as (o1 & -> & Hok1 & (t' & Ht' & Hpar & Hs') & Hp1).
  { destruct (decide (s_ t = STARTED)) as [Hs|Hs].
    - destruct (tok_cleanup_ok i t o Hok Hi Hs) as (o1 & E & Hok1 & Ht & Hp & _). exists o1. split; [done|].
      split; [done|]. split; [|done]. by eexists.
    - exists o. unfold tok_cleanup, with_tok. rewrite Hi, decide_False by done. split; [done|]. split; [done|].
      assert (Hpar : parent_ t = false)
        by (destruct (parent_ t) eqn:E; [destruct Hs; by apply (ok_started o Hok i t)|done]).
      split; [exists t; by rewrite insert_id|]. intros op. rewrite filter_ne_notin; [done|].
      rewrite (ok_pending o Hok). intros (x & Hx & ? & _). simplify_eq. congruence. }
  cbn [res_bind]. unfold with_tok. assert (Hi1 : toks o1 !! i = Some t') by (by rewrite Ht', lookup_insert_eq).
  rewrite Hi1, !bool_decide_eq_true_2 by (done || by eapply (ok_task o1 Hok1)). cbn [andb].
  eexists. split; [done|]. set (o' := mkIO _ _ _ _ _ _).
  assert (Hp' : forall op, getPending op o' = getPending op o1) by (by intros []).
  split; [|split; [cbn; by rewrite Ht', delete_insert_eq|intros op; by rewrite Hp', Hp1]].
  destruct Hok1 as [Hn Hp Hs Ht Hl]. split.
  - intros op. by rewrite Hp'.
  - intros op j. rewrite Hp', Hp. cbn [toks o']. destruct (decide (j = i)) as [->|Hne].
    + rewrite lookup_delete_eq. split; intros (x & Hx & ? & ?); simplify_eq. congruence.
    + by rewrite lookup_delete_ne.
  - intros j x Hj. cbn [toks o'] in Hj. apply lookup_delete_Some in Hj as [_ Hj]. by eapply Hs.
  - intros j x Hj. cbn [toks o'] in Hj. apply lookup_delete_Some in Hj as [_ Hj]. by eapply Ht.
  - done.
Qed.

(** The token at the head of a list. *)
Lemma head_pending op i l o :
  io_ok o -> getPending op o = i :: l ->
  exists t, toks o !! i = Some t /\ s_ t = STARTED /\ op_ t = op /\ parent_ t = true /\
    filter (.≠ i) (getPending op o) = l /\
    forall op', op' <> op -> filter (.≠ i) (getPending op' o) = getPending op' o.
Proof.
  intros Hok E. assert (Hin : i ∈ getPending op o) by (rewrite E; apply elem_of_cons; by left).
  pose proof (proj1 (ok_pending o Hok op i) Hin) as (t & Hi & Hpar & Hop). exists t.
  split; [done|]. split; [by apply (ok_started o Hok i)|]. split; [done|]. split; [done|]. split.
  - pose proof (ok_nodup o Hok op) as Hnd. rewrite E in *. apply NoDup_cons in Hnd as [Hil _].
    rewrite filter_cons_False by naive_solver. by apply filter_ne_notin.
  - intros op' Hne. apply filter_ne_notin. rewrite (ok_pending o Hok). intros (x & Hx & _ & ?). by simplify_eq.
Qed.

(** The effect of cancelling every token of a list. *)
Definition cancelled_in (l : list nat) o o' : Prop :=
  forall j, toks o' !! j =
    match toks o !! j with
    | Some t => Some (if decide (j ∈ l) then ended CANCELLED t else t)
    | None => None
    end.

Lemma cleanup_op_ok fuel op o :
  io_ok o -> length (getPending op o) <= fuel ->
  exists o', cleanup_op fuel op o = Ret o' /\ io_ok o' /\ getPending op o' = [] /\
    (forall op', op' <> op -> getPending op' o' = getPending op' o) /\
    cancelled_in (getPending op o) o o'.
Proof.
  revert o. induction fuel as [|fuel IH]; intros o Hok Hf.
  - destruct (getPending op o) as [|i l] eqn:E; [|cbn in Hf; lia].
    exists o. cbn. rewrite E. split; [done|]. split; [done|]. split; [done|]. split; [done|].
    intros j. destruct (toks o !! j); [|done]. by rewrite decide_False by apply not_elem_of_nil.
  - destruct (getPending op o) as [|i l] eqn:E; cbn [cleanup_op]; rewrite E.
    + exists o. split; [done|]. split; [done|]. split; [done|]. split; [done|].
      intros j. destruct (toks o !! j); [|done]. by rewrite decide_False by apply not_elem_of_nil.
    + assert (Hin : i ∈ getPending op o) by (rewrite E; apply elem_of_cons; by left).
      pose proof (proj1 (ok_pending o Hok op i) Hin) as (t & Hi & Hpar & Hop).
      destruct (tok_cleanup_ok i t o Hok Hi) as (o1 & -> & Hok1 & Ht1 & Hp1 & _); [by apply (ok_started o Hok i)|].
      cbn [res_bind].
      pose proof (ok_nodup o Hok op) as Hnd. rewrite E in Hnd. apply NoDup_cons in Hnd as [Hil Hnd].
      assert (El : getPending op o1 = l).
      { rewrite Hp1, E, filter_cons_False by naive_solver. by apply filter_ne_notin. }
      destruct (IH o1 Hok1) as (o' & -> & Hok' & He & Hoth & Hc); [rewrite El; cbn in Hf; lia|].
      exists o'. split; [done|]. split; [done|]. split; [done|]. split.
      * intros op' Hne. rewrite Hoth by done. rewrite Hp1. apply filter_ne_notin.
        rewrite (ok_pending o Hok). intros (x & Hx & _ & ?). by simplify_eq.
      * intros j. rewrite (Hc j), Ht1, El. destruct (decide (j = i)) as [->|Hne].
        -- rewrite lookup_insert_eq, Hi, (decide_False (P := i ∈ l)) by done.
           by rewrite decide_True by (apply elem_of_cons; by left).
        -- rewrite lookup_insert_ne by done. destruct (toks o !! j); [|done]. f_equal.
           destruct (decide (j ∈ l)); [rewrite decide_True|rewrite decide_False]; [done| |done|];
             rewrite elem_of_cons; naive_solver.
Qed.

(** Cleaning up an object ends every operation in progress. *)
Lemma cleanup_all_ok o :
  io_ok o ->
  exists o', cleanup_all o = Ret o' /\ io_ok o' /\ (forall op, getPending op o' = []) /\
    forall j, toks o' !! j =
      match toks o !! j with
      | Some t => Some (if parent_ t then ended CANCELLED t else t)
      | None => None
      end.
Proof.
  intros Hok. unfold cleanup_all.
  destruct (cleanup_op_ok (length (pConnect o)) OpConnect o Hok) as (o1 & -> & Hok1 & He1 & Ho1 & Hc1); [done|].
  cbn [res_bind].
  destruct (cleanup_op_ok (length (pRead o1)) OpRead o1 Hok1) as (o2 & -> & Hok2 & He2 & Ho2 & Hc2); [done|].
  cbn [res_bind].
  destruct (cleanup_op_ok (length (pWrite o2)) OpWrite o2 Hok2) as (o3 & -> & Hok3 & He3 & Ho3 & Hc3); [done|].
  exists o3. split; [done|]. split; [done|].
  assert (Hr : getPending OpRead o1 = getPending OpRead o) by (by apply Ho1).
  assert (Hw : getPending OpWrite o2 = getPending OpWrite o) by (rewrite Ho2, Ho1; done).
  split.
  - intros []; [rewrite Ho3, Ho2; done|rewrite Ho3; done|done].
  - intros j. rewrite (Hc3 j), (Hc2 j), (Hc1 j), Hr, Hw. destruct (toks o !! j) as [t|] eqn:Ej; [|done]. f_equal.
    assert (Hmem : forall op, j ∈ getPending op o <-> parent_ t = true /\ op_ t = op).
    { intros op. rewrite (ok_pending o Hok), Ej. naive_solver. }
    repeat case_decide; rewrite Hmem in *; destruct (parent_ t); destruct (op_ t) eqn:?; naive_solver.
Qed.

End Invariant.
