(* ===== verification/Socket.v ===== *)
(** * SocketChannel

    Models [src/src/AsyncSocket.cpp], [src/include/futures/io/AsyncSocket.h],
    the reader and writer tokens of [src/include/futures/io/Channel.h] and the
    write and read futures of [src/include/futures/io/ChannelFutures.h].  What
    the system calls of one event return is an argument of the event: the
    results of the successive [recv] and [sendmsg] calls and of the
    [SO_ERROR] query.  [sent] records the bytes the kernel has accepted. *)

From S2P Require Import Prelude Core Channels IoObject.
Local Open Scope cpp_scope.

(** An [std::error_code] that may be clear. *)
Definition error_code := option Z.
Definition connection_aborted : error_code := Some 103%Z.

(** What the token classes add to [CompletionToken]: the error code, and for
    a reader the bytes received and not taken yet, for a writer the count
    written, the part of the iovec array left and the chain. *)
(** [src/include/futures/io/Channel.h:105-115] ReaderCompletionToken, WriterCompletionToken *)
Inductive payload :=
| PConn (ec : error_code)
| PRead (ec : error_code) (inbox : list Z)
| PWrite (ec : error_code) (written_ : Z) (iov : list (list Z)) (buf_ : list (list Z)).

(** [src/include/futures/io/AsyncSocket.h:18-23] SocketChannel::State *)
Inductive SState := INITED | CLOSED | CONNECTING | CONNECTED.
#[global] Instance SState_eq_dec : EqDecision SState.
Proof. solve_decision. Defined.

(** [src/include/futures/io/AsyncSocket.h:25-29] SocketChannel::ReadResult *)
Inductive ReadResult := READ_EOF | READ_WOULDBLOCK | READ_ERROR | READ_N (n : nat).

(** [recv] returning data, an orderly end, [EAGAIN] or an error. *)
Inductive recvret := RData (l : list Z) | REof | RAgain | RErr (e : Z).
(** [sendmsg] accepting some bytes ([EAGAIN] accepts none) or failing. *)
Inductive sendret := WSent (n : nat) | WErr (e : Z).

(** [src/include/futures/io/AsyncSocket.h:195-200] SocketChannel; the three
    [shutdown_flags_], the two watchers, and whether the descriptor is open *)
Record SocketChannel := mkSock {
  io : IOObject payload;
  st : SState;
  shut_write_pending : bool; shut_write : bool; shut_read : bool;
  rio_ : bool; wio_ : bool;
  fd_ : bool;
  sent : list Z;
  recvs : list recvret; sends : list sendret }.

Definition M := eff SocketChannel.

Definition upd_io (o : IOObject payload) (s : SocketChannel) : SocketChannel :=
  mkSock o (st s) (shut_write_pending s) (shut_write s) (shut_read s) (rio_ s) (wio_ s) (fd_ s) (sent s) (recvs s) (sends s).
Definition upd_st (x : SState) (s : SocketChannel) : SocketChannel :=
  mkSock (io s) x (shut_write_pending s) (shut_write s) (shut_read s) (rio_ s) (wio_ s) (fd_ s) (sent s) (recvs s) (sends s).
Definition upd_flags (p w r : bool) (s : SocketChannel) : SocketChannel :=
  mkSock (io s) (st s) p w r (rio_ s) (wio_ s) (fd_ s) (sent s) (recvs s) (sends s).
Definition upd_watch (r w : bool) (s : SocketChannel) : SocketChannel :=
  mkSock (io s) (st s) (shut_write_pending s) (shut_write s) (shut_read s) r w (fd_ s) (sent s) (recvs s) (sends s).
Definition upd_fd (b : bool) (s : SocketChannel) : SocketChannel :=
  mkSock (io s) (st s) (shut_write_pending s) (shut_write s) (shut_read s) (rio_ s) (wio_ s) b (sent s) (recvs s) (sends s).
Definition upd_sent (l : list Z) (s : SocketChannel) : SocketChannel :=
  mkSock (io s) (st s) (shut_write_pending s) (shut_write s) (shut_read s) (rio_ s) (wio_ s) (fd_ s) l (recvs s) (sends s).
Definition upd_sys (r : list recvret) (w : list sendret) (s : SocketChannel) : SocketChannel :=
  mkSock (io s) (st s) (shut_write_pending s) (shut_write s) (shut_read s) (rio_ s) (wio_ s) (fd_ s) (sent s) r w.

Definition get : M SocketChannel := fun s => (Ret s, s).
Definition modify (f : SocketChannel -> SocketChannel) : M unit := fun s => (Ret tt, f s).
Definition abort {A} (why : string) : M A := fun s => (Abort why, s).
Definition no_fuel {A} : M A := fun s => (OutOfFuel, s).
(** A token operation. *)
Definition on_io (f : IOObject payload -> res (IOObject payload)) : M unit := fun s =>
  match f (io s) with
  | Ret o => (Ret tt, upd_io o s)
  | Throw e => (Throw e, s)
  | Abort a => (Abort a, s)
  | OutOfFuel => (OutOfFuel, s)
  end.
Definition get_data (i : nat) : M payload := fun s =>
  match toks (io s) !! i with Some t => (Ret (data t), s) | None => (Abort "no such token", s) end.

Definition rio (b : bool) : M unit := modify (fun s => upd_watch b (wio_ s) s).
Definition wio (b : bool) : M unit := modify (fun s => upd_watch (rio_ s) b s).

Definition set_ec (ec : error_code) (p : payload) : payload :=
  match p with
  | PConn _ => PConn ec
  | PRead _ l => PRead ec l
  | PWrite _ w v b => PWrite ec w v b
  end.

(** [ec_ = ec; notifyDone();], for a reader and for a writer. *)
(** [src/include/futures/io/Channel.h:59-62] WriterCompletionToken::writeError *)
Definition tokError (ec : error_code) (i : nat) : M unit :=
  do! p <- get_data i;
  do! _ <- on_io (setData (set_ec ec p) i);
  on_io (notifyDone i).

(** [src/include/futures/io/AsyncSocket.h:220-226] SocketChannel::forceClose *)
Definition forceClose : M unit :=
  do! _ <- wio false; do! _ <- rio false;
  do! _ <- modify (upd_fd false);
  do! _ <- modify (upd_st CLOSED);
  modify (fun s => upd_flags (shut_write_pending s) true true s).

(** [src/include/futures/io/AsyncSocket.h:144-147] SocketChannel::onCancel *)
Definition onCancel : M unit :=
  do! s <- get;
  if decide (st s <> CLOSED) then forceClose else eff_ret tt.

(** [IOObject::cleanup], with the [onCancel] of the socket. *)
Definition cleanup : M unit := do! _ <- on_io cleanup_all; onCancel.

(** [src/include/futures/io/AsyncSocket.h:214-218] SocketChannel::closeRead *)
Definition closeRead : M unit :=
  do! _ <- rio false; modify (fun s => upd_flags (shut_write_pending s) (shut_write s) true s).

(** [src/include/futures/io/AsyncSocket.h:228-234] SocketChannel::failAllWrites *)
Fixpoint failAllWrites (fuel : nat) : M unit :=
  do! s <- get;
  match pWrite (io s) with
  | [] => eff_ret tt
  | i :: _ =>
      match fuel with
      | 0 => no_fuel
      | S fuel => do! _ <- tokError connection_aborted i; failAllWrites fuel
      end
  end.

(** [src/include/futures/io/AsyncSocket.h:157-183] SocketChannel::shutdownWriteNow *)
Definition shutdownWriteNow : M unit :=
  do! s <- get;
  if shut_write s then eff_ret tt
  else if shut_read s then cleanup
  else
    match st s with
    | CONNECTED =>
        do! _ <- modify (fun s => upd_flags (shut_write_pending s) true (shut_read s) s);
        do! _ <- wio false;
        failAllWrites (length (pWrite (io s)))
    | CONNECTING =>
        do! _ <- modify (fun s => upd_flags true (shut_write s) (shut_read s) s);
        failAllWrites (length (pWrite (io s)))
    | INITED => modify (fun s => upd_flags true (shut_write s) (shut_read s) s)
    | CLOSED => eff_ret tt
    end.

(** [src/include/futures/io/AsyncSocket.h:149-155] SocketChannel::shutdownWrite *)
Definition shutdownWrite : M unit :=
  do! s <- get;
  match pWrite (io s) with
  | [] => shutdownWriteNow
  | _ => modify (fun s => upd_flags true (shut_write s) (shut_read s) s)
  end.

(** [connect]: what [Socket::connect] returns and the error it sets. *)
(** [src/src/AsyncSocket.cpp:6-17] SocketChannel::startConnect *)
Definition startConnect (connect : bool * error_code) : M bool :=
  let '(r, ec) := connect in
  match ec with
  | Some _ => eff_ret false
  | None =>
      do! _ <- modify (upd_fd true);
      do! _ <- modify (upd_st CONNECTING);
      do! _ <- wio true;
      eff_ret r
  end.

(** [src/include/futures/io/AsyncSocket.h:92-103] SocketChannel::doConnect *)
Definition doConnect (i : nat) (connect : bool * error_code) : M unit :=
  do! s <- get;
  if decide (st s <> INITED) then eff_throw (IOError "Already connecting")
  else
    do! _ <- on_io (fun o => Ret (newTok i OpConnect (PConn None) o));
    do! r <- startConnect connect;
    do! _ <- on_io (setData (PConn (snd connect)) i);
    if r then on_io (notifyDone i) else on_io (attach i).

(** [src/include/futures/io/AsyncSocket.h:105-118] SocketChannel::doRead *)
Definition doRead (i : nat) : M unit :=
  do! s <- get;
  match pRead (io s) with
  | _ :: _ => eff_throw (IOError "Already reading")
  | [] =>
      if decide (st s = INITED) then eff_throw (IOError "Not connecting")
      else
        do! _ <- on_io (fun o => Ret (newTok i OpRead (PRead None []) o));
        if bool_decide (st s = CLOSED) || shut_read s then tokError connection_aborted i
        else do! _ <- on_io (attach i); rio true
  end.

(** [src/src/folly/IOBuf.cpp:937-971] IOBuf::getIov, appendToIov, fillIov: empty
    buffers are skipped *)
Definition iov_of (buf : list (list Z)) : list (list Z) := filter (.≠ []) buf.

(** [src/include/futures/io/Channel.h:44-57] WriterCompletionToken::WriterCompletionToken *)
Definition newWriter (i : nat) (buf : list (list Z)) : M unit :=
  match buf with
  | [] => abort "null chain"
  | _ => on_io (fun o => Ret (newTok i OpWrite (PWrite None 0 (iov_of buf) buf) o))
  end.

(** [src/include/futures/io/AsyncSocket.h:120-134] SocketChannel::doWrite *)
Definition doWrite (i : nat) (buf : list (list Z)) : M unit :=
  do! s <- get;
  if decide (st s = INITED) then eff_throw (IOError "Not connecting")
  else
    do! _ <- newWriter i buf;
    if bool_decide (st s = CLOSED) || shut_write_pending s || shut_write s then tokError connection_aborted i
    else if decide (st s = CONNECTED) then do! _ <- on_io (attach i); wio true
    else eff_ret tt.

(** [iov] after [Socket::writev] has accepted [n] bytes, as [n] whole elements
    and a part of the next. *)
(** [src/src/AsyncSocket.cpp:28-45] SocketChannel::performWrite, counting loop *)
Fixpoint count_iov (iov : list (list Z)) (bytesWritten n : nat) : res (nat * nat) :=
  match iov with
  | [] => if decide (bytesWritten = 0) then Ret (n, 0) else Abort "assert"
  | v :: iov =>
      if decide (bytesWritten < length v) then Ret (n, bytesWritten)
      else count_iov iov (bytesWritten - length v) (S n)
  end.

(** The kernel accepts at most what it is given. *)
(** [src/src/TcpStream.cpp:119-150] Socket::writev *)
Definition sock_writev (iov : list (list Z)) : M (nat * error_code) := fun s =>
  if fd_ s then
    match sends s with
    | WSent n :: k =>
        let m := Nat.min n (length (concat iov)) in
        (Ret (m, None), upd_sent (sent s ++ take m (concat iov)) (upd_sys (recvs s) k s))
    | WErr e :: k => (Ret (0, Some e), upd_sys (recvs s) k s)
    | [] => (Ret (0, None), s)
    end
  else (Abort "assert", s).

Inductive wres := WDone (total count partial : nat) | WFail (e : Z).

(** [src/src/AsyncSocket.cpp:19-46] SocketChannel::performWrite *)
Definition performWrite (iov : list (list Z)) : M wres :=
  do! te <- sock_writev iov;
  let total := fst te in
  match snd te with
  | Some e => eff_ret (WFail e)
  | None =>
      match count_iov iov total 0 with
      | Ret (count, partial) => eff_ret (WDone total count partial)
      | Abort a => abort a
      | _ => no_fuel
      end
  end.

(** [src/include/futures/io/Channel.h:69-77] WriterCompletionToken::updateIov *)
Definition updateIov (total count partial : nat) (p : payload) : payload :=
  match p with
  | PWrite ec w iov b =>
      PWrite ec (w + Z.of_nat total)
        (match drop count iov with
         | v :: l => drop partial v :: l
         | [] => []
         end) b
  | _ => p
  end.

Definition iov_left (p : payload) : list (list Z) :=
  match p with PWrite _ _ iov _ => iov | _ => [] end.

(** The loop over the writers. *)
(** [src/src/AsyncSocket.cpp:146-178] SocketChannel::onEvent, writing *)
Fixpoint write_loop (fuel : nat) : M unit :=
  do! s <- get;
  match pWrite (io s) with
  | [] => eff_ret tt
  | p :: _ =>
      match fuel with
      | 0 => no_fuel
      | S fuel =>
          do! d <- get_data p;
          match iov_left d with
          | [] => do! _ <- on_io (notifyDone p); write_loop fuel
          | vec =>
              do! r <- performWrite vec;
              match r with
              | WDone total count partial =>
                  do! _ <- on_io (setData (updateIov total count partial d) p);
                  if decide (count = length vec) then
                    do! _ <- on_io (notifyDone p);
                    do! s1 <- get;
                    if shut_write_pending s1 then shutdownWriteNow else write_loop fuel
                  else eff_ret tt
              | WFail e => do! _ <- tokError (Some e) p; cleanup
              end
          end
      end
  end.

(** [prepareBuffer] of the reader: how many bytes it offers to receive. *)
Section Event.
Context (prepareBuffer : list Z -> nat).

(** [src/src/TcpStream.cpp:152-169] Socket::recv *)
Definition sock_recv (bufLen : nat) : M recvret := fun s =>
  if fd_ s then
    match recvs s with
    | RData l :: k =>
        match drop bufLen l with
        | [] => (Ret (RData l), upd_sys k (sends s) s)
        | rest => (Ret (RData (take bufLen l)), upd_sys (RData rest :: k) (sends s) s)
        end
    | REof :: k => (Ret REof, upd_sys k (sends s) s)
    | RAgain :: k => (Ret RAgain, upd_sys k (sends s) s)
    | RErr e :: k => (Ret (RErr e), upd_sys k (sends s) s)
    | [] => (Ret RAgain, s)
    end
  else (Abort "assert", s).

(** The bytes are added to the token's buffer and its task is woken. *)
(** [src/include/futures/io/ChannelFutures.h:71-74] StreamCompletionToken::dataReady *)
Definition dataReady (l : list Z) (i : nat) : M unit :=
  do! p <- get_data i;
  do! _ <- on_io (setData (match p with PRead ec inbox => PRead ec (inbox ++ l) | _ => p end) i);
  on_io (IoObject.notify i).

Definition inbox_of (p : payload) : list Z :=
  match p with PRead _ l => l | _ => [] end.

(** [n] is how many more reads the event may do; a [recv] of no bytes is the
    end of the stream ([performRead]). *)
(** [src/src/AsyncSocket.cpp:48-90] SocketChannel::performRead, handleRead *)
Fixpoint handleRead (n : nat) (i : nat) : M ReadResult :=
  match n with
  | 0 => eff_ret READ_WOULDBLOCK
  | S n =>
      do! p <- get_data i;
      let bufLen := prepareBuffer (inbox_of p) in
      if decide (bufLen = 0) then abort "assert"
      else
        do! r <- sock_recv bufLen;
        match r with
        | RErr e => do! _ <- tokError (Some e) i; eff_ret READ_ERROR
        | RAgain => do! _ <- dataReady [] i; eff_ret READ_WOULDBLOCK
        | REof | RData [] => do! _ <- on_io (notifyDone i); eff_ret READ_EOF
        | RData l =>
            do! _ <- dataReady l i;
            if decide (length l < bufLen) then eff_ret (READ_N (length l)) else handleRead n i
        end
  end.

Definition kMaxReadPerEvent := 12.

(** [src/src/AsyncSocket.cpp:92-102] SocketChannel::handleInitialReadWrite *)
Definition handleInitialReadWrite : M unit :=
  do! s <- get;
  do! _ <- rio (match pRead (io s) with [] => false | _ => true end);
  wio (match pWrite (io s) with [] => false | _ => true end).

(** [src/src/AsyncSocket.cpp:107-126] SocketChannel::onEvent, reading *)
Definition onRead : M unit :=
  do! s <- get;
  if decide (st s = CONNECTED) then
    match pRead (io s) with
    | i :: _ =>
        do! r <- handleRead kMaxReadPerEvent i;
        match r with
        | READ_EOF => closeRead
        | READ_ERROR => cleanup
        | _ => eff_ret tt
        end
    | [] => rio false
    end
  else eff_ret tt.

(** [while (!connect.empty()) { p->ec = ec; p->notifyDone(); }] *)
Fixpoint connect_loop (fuel : nat) (ec : error_code) : M unit :=
  do! s <- get;
  match pConnect (io s) with
  | [] => eff_ret tt
  | i :: _ =>
      match fuel with
      | 0 => no_fuel
      | S fuel => do! _ <- tokError ec i; connect_loop fuel ec
      end
  end.

(** [conn]: what [Socket::is_connected] returns and sets.  The result says
    whether the handler returns early. *)
(** [src/src/AsyncSocket.cpp:127-145] SocketChannel::onEvent, connecting *)
Definition onConnect (conn : bool * error_code) : M bool :=
  do! s <- get;
  if decide (st s = CONNECTING) then
    do! _ <- connect_loop (length (pConnect (io s))) (snd conn);
    if fst conn then
      do! _ <- modify (upd_st CONNECTED); do! _ <- handleInitialReadWrite; eff_ret false
    else do! _ <- cleanup; eff_ret true
  else eff_ret false.

(** [src/src/AsyncSocket.cpp:146-184] SocketChannel::onEvent, writing *)
Definition onWrite : M unit :=
  do! s <- get;
  if decide (st s = CONNECTED) then
    do! _ <- write_loop (length (pWrite (io s)));
    do! s1 <- get;
    match pWrite (io s1) with
    | [] =>
        do! _ <- wio false;
        if shut_write_pending s1 then shutdownWriteNow else eff_ret tt
    | _ => eff_ret tt
    end
  else eff_ret tt.

(** [src/src/AsyncSocket.cpp:104-187] SocketChannel::onEvent *)
Definition onEvent (error read write : bool) (conn : bool * error_code) : M unit :=
  if error then eff_throw (std_runtime_error "syscall error")
  else
    do! _ <- (if read then onRead else eff_ret tt);
    if write then
      do! r <- onConnect conn;
      if r then eff_ret tt else onWrite
    else eff_ret tt.
End Event.

Definition tok_state (i : nat) (s : SocketChannel) : option (State * payload) :=
  (fun t => (s_ t, data t)) <$> toks (io s) !! i.

Definition cancelled {T} : Poll T := EXCEPTION (Some (FutureCancelledException CR_Unknown)).

(** [src/include/futures/io/Channel.h:82-95] WriterCompletionToken::poll *)
Definition writer_poll (cur : option Task) (i : nat) : M (Poll Z) := fun s =>
  match tok_state i s with
  | Some (STARTED, _) => (do! _ <- on_io (park cur i); eff_ret not_ready) s
  | Some (DONE, PWrite (Some e) _ _ _) => (Ret (EXCEPTION (Some (IOError "writev"))), s)
  | Some (DONE, PWrite None w _ _) => (Ret (makePollReady w), s)
  | Some (CANCELLED, _) => (Ret cancelled, s)
  | _ => (Abort "no such token", s)
  end.

(** [src/include/futures/io/AsyncSocket.h:72-85] ConnectCompletionToken::poll *)
Definition connect_poll (cur : option Task) (i : nat) : M (Poll unit) := fun s =>
  match tok_state i s with
  | Some (STARTED, _) => (do! _ <- on_io (park cur i); eff_ret not_ready) s
  | Some (DONE, PConn (Some e)) => (Ret (EXCEPTION (Some (IOError "connect"))), s)
  | Some (DONE, PConn None) => (Ret (makePollReady tt), s)
  | Some (CANCELLED, _) => (Ret cancelled, s)
  | _ => (Abort "no such token", s)
  end.

(** The whole buffered input is one item. *)
(** [src/include/futures/io/ChannelFutures.h:36-57] StreamCompletionToken::pollStream *)
Definition reader_poll (cur : option Task) (i : nat) : M (Poll (option (list Z))) := fun s =>
  match tok_state i s with
  | Some (STARTED, PRead ec []) => (do! _ <- on_io (park cur i); eff_ret not_ready) s
  | Some (STARTED, PRead ec l) | Some (DONE, PRead ec ((_ :: _) as l)) =>
      (do! _ <- on_io (setData (PRead ec []) i); eff_ret (VALUE (Some (Some l)))) s
  | Some (DONE, PRead (Some e) []) => (Ret (EXCEPTION (Some (IOError "recv"))), s)
  | Some (DONE, PRead None []) => (Ret (VALUE (Some None)), s)
  | Some (CANCELLED, _) => (Ret cancelled, s)
  | _ => (Abort "no such token", s)
  end.
