(* ===== verification/SocketLaws.v ===== *)
(** * Laws of SocketChannel

    The invariant of the socket's state machine, that every call and every
    event keeps it without tripping an assertion, and the integrity of the
    written byte stream. *)

From S2P Require Import Prelude Core Channels IoObject Socket.
Local Open Scope cpp_scope.

(** ** Weakest preconditions: the call returns, in a state that satisfies [Q]. *)
Definition wp {A} (m : M A) (Q : A -> SocketChannel -> Prop) (s : SocketChannel) : Prop :=
  exists a s', m s = (Ret a, s') /\ Q a s'.

Lemma wp_ret {A} (a : A) (Q : A -> SocketChannel -> Prop) s : Q a s -> wp (eff_ret a) Q s.
Proof. intros H. by exists a, s. Qed.
Lemma wp_bind {A B} (m : M A) (k : A -> M B) Q s :
  wp m (fun a s' => wp (k a) Q s') s -> wp (eff_bind m k) Q s.
Proof.
  intros (a & s1 & E1 & b & s2 & E2 & H). exists b, s2. unfold eff_bind. by rewrite E1.
Qed.
Lemma wp_get (Q : SocketChannel -> SocketChannel -> Prop) s : Q s s -> wp get Q s.
Proof. intros H. by exists s, s. Qed.
Lemma wp_modify f (Q : unit -> SocketChannel -> Prop) s : Q tt (f s) -> wp (modify f) Q s.
Proof. intros H. by exists tt, (f s). Qed.
Lemma wp_on_io f o (Q : unit -> SocketChannel -> Prop) s : f (io s) = Ret o -> Q tt (upd_io o s) -> wp (on_io f) Q s.
Proof. intros E H. exists tt, (upd_io o s). unfold on_io. by rewrite E. Qed.
Lemma wp_get_data i t (Q : payload -> SocketChannel -> Prop) s :
  toks (io s) !! i = Some t -> Q (data t) s -> wp (get_data i) Q s.
Proof. intros E H. exists (data t), s. unfold get_data. by rewrite E. Qed.
Lemma wp_mono {A} (m : M A) (Q Q' : A -> SocketChannel -> Prop) s :
  wp m Q s -> (forall a s', Q a s' -> Q' a s') -> wp m Q' s.
Proof. intros (a & s' & E & H) HQ. exists a, s'. auto. Qed.

(** ** The invariant *)

(** A writer has sent a prefix of its chain, the iovec array is the rest, and
    it is done without an error only when nothing is left. *)
Definition writer_ok (x : State) (ec : error_code) (w : Z) (iov buf : list (list Z)) : Prop :=
  (0 <= w <= Z.of_nat (length (concat buf)))%Z /\
  concat iov = drop (Z.to_nat w) (concat buf) /\
  Forall (.≠ []) iov /\
  (x = STARTED -> ec = None) /\
  (x = DONE -> ec = None -> w = Z.of_nat (length (concat buf))).

Definition kind_ok (t : CompletionToken payload) : Prop :=
  match op_ t, data t with
  | OpConnect, PConn _ | OpRead, PRead _ _ => True
  | OpWrite, PWrite ec w iov buf => writer_ok (s_ t) ec w iov buf
  | _, _ => False
  end.
Definition kinds (o : IOObject payload) : Prop := forall i t, toks o !! i = Some t -> kind_ok t.

Record sock_ok (s : SocketChannel) : Prop := {
  so_io : io_ok (io s);
  so_kind : kinds (io s);
  so_closed : st s = CLOSED ->
    (forall op, getPending op (io s) = []) /\ rio_ s = false /\ wio_ s = false /\ shut_write s = true /\ shut_read s = true;
  so_reader : length (pRead (io s)) <= 1;
  so_fd : st s = CONNECTED \/ st s = CONNECTING -> fd_ s = true;
  so_inited : st s = INITED -> pRead (io s) = [] /\ pWrite (io s) = [] /\ shut_read s = false;
  so_connecting : st s = CONNECTING -> pWrite (io s) = [] /\ wio_ s = true /\ shut_read s = false;
  so_connected : st s = CONNECTED -> pConnect (io s) = [] /\
    (pWrite (io s) <> [] -> wio_ s = true /\ shut_write s = false) /\
    (pRead (io s) <> [] -> rio_ s = true /\ shut_read s = false) }.

(** The socket is not closed and its writing side not shut down. *)
Definition writable (s : SocketChannel) : Prop :=
  st s <> CLOSED /\ shut_write s = false /\ shut_write_pending s = false.

Ltac not_good := let H1 := fresh in intros (H1 & ? & ?); cbn in *; congruence.

(** The bytes queued and not sent, in the order of the writers. *)
Definition left_of (o : IOObject payload) (i : nat) : list Z :=
  match toks o !! i with Some t => concat (iov_left (data t)) | None => [] end.
Definition outstanding (o : IOObject payload) : list Z := concat (left_of o <$> pWrite o).

Lemma kinds_insert o o' i t :
  kinds o -> toks o' = <[i := t]> (toks o) -> kind_ok t -> kinds o'.
Proof.
  intros Hk E Ht j x. rewrite E. intros Hj. apply lookup_insert_Some in Hj as [[-> <-]|[_ Hj]]; [done|by eapply Hk].
Qed.

(** Cancelling a token and failing it keep the kinds. *)
Lemma kind_cancelled t : kind_ok t -> kind_ok (mkToken false None CANCELLED (op_ t) (data t)).
Proof.
  unfold kind_ok. cbn [op_ data s_]. destruct (op_ t), (data t); try done. unfold writer_ok. naive_solver.
Qed.
Lemma kind_error t ec :
  kind_ok t -> op_ t <> OpWrite \/ ec <> None -> kind_ok (mkToken false None DONE (op_ t) (set_ec ec (data t))).
Proof.
  unfold kind_ok. cbn [op_ data s_]. intros H Hc. destruct (op_ t), (data t); try done. cbn. unfold writer_ok in *.
  naive_solver.
Qed.

(** ** Token operations on the socket *)

Lemma tokError_ok ec i t s :
  io_ok (io s) -> toks (io s) !! i = Some t -> s_ t = STARTED ->
  exists o', tokError ec i s = (Ret tt, upd_io o' s) /\ io_ok o' /\
    toks o' = <[i := mkToken false None DONE (op_ t) (set_ec ec (data t))]> (toks (io s)) /\
    (forall op, getPending op o' = filter (.≠ i) (getPending op (io s))).
Proof.
  intros Hok Hi Hs. unfold tokError, eff_bind, get_data. rewrite Hi. unfold on_io at 1.
  destruct (setData_ok (set_ec ec (data t)) i t (io s) Hok Hi) as [-> Hok1].
  set (o1 := setTok i _ (io s)) in *. unfold on_io. cbn [io upd_io].
  destruct (notifyDone_ok i (mkToken (parent_ t) (task_ t) (s_ t) (op_ t) (set_ec ec (data t))) o1 Hok1)
    as (o2 & -> & Hok2 & Ht & Hp & _); [by unfold o1; cbn; rewrite lookup_insert_eq|done|].
  exists o2. split; [done|]. split; [done|]. cbn [op_ data] in Ht. split.
  - rewrite Ht. unfold o1. cbn. by rewrite insert_insert_eq.
  - intros op. rewrite Hp. by destruct op.
Qed.

Lemma failAllWrites_ok fuel s :
  io_ok (io s) -> kinds (io s) -> length (pWrite (io s)) <= fuel ->
  exists o', failAllWrites fuel s = (Ret tt, upd_io o' s) /\ io_ok o' /\ kinds o' /\
    pWrite o' = [] /\ pRead o' = pRead (io s) /\ pConnect o' = pConnect (io s).
Proof.
  revert s. induction fuel as [|fuel IH]; intros s Hok Hk Hf.
  - destruct (pWrite (io s)) as [|i l] eqn:E; [|cbn in Hf; lia].
    exists (io s). cbn. unfold eff_bind, get. rewrite E. by destruct s.
  - cbn [failAllWrites]. unfold eff_bind at 1, get. destruct (pWrite (io s)) as [|i l] eqn:E.
    { exists (io s). by destruct s. }
    destruct (head_pending OpWrite i l (io s) Hok E) as (t & Hi & Hs & Hop & _ & Hl & Hoth).
    destruct (tokError_ok connection_aborted i t s Hok Hi Hs) as (o1 & E1 & Hok1 & Ht1 & Hp1).
    unfold eff_bind. rewrite E1.
    destruct (IH (upd_io o1 s)) as (o' & E2 & Hok2 & Hk2 & Hw & Hr & Hc); [done| | |].
    + eapply kinds_insert; [done|done|]. apply kind_error; [by eapply Hk|by right].
    + cbn [io upd_io]. rewrite (Hp1 OpWrite : pWrite o1 = _), Hl. cbn in Hf. lia.
    + exists o'. rewrite E2. split; [by destruct s|]. cbn [io upd_io] in *.
      split; [done|]. split; [done|]. split; [done|]. split.
      * rewrite Hr, (Hp1 OpRead : pRead o1 = _). by apply Hoth.
      * rewrite Hc, (Hp1 OpConnect : pConnect o1 = _). by apply Hoth.
Qed.

Lemma closed_ok s :
  io_ok (io s) -> kinds (io s) -> (forall op, getPending op (io s) = []) -> st s = CLOSED ->
  rio_ s = false -> wio_ s = false -> shut_write s = true -> shut_read s = true -> sock_ok s.
Proof.
  intros Hok Hk Hp Hst Hr Hw Hsw Hsr. split; try done.
  - rewrite (Hp OpRead : pRead (io s) = _). cbn. lia.
  - intros [? | ?]; congruence.
  - congruence.
  - congruence.
  - congruence.
Qed.

Lemma cleanup_ok s :
  io_ok (io s) -> kinds (io s) ->
  (st s = CLOSED -> rio_ s = false /\ wio_ s = false /\ shut_write s = true /\ shut_read s = true) ->
  wp cleanup (fun _ s' => sock_ok s' /\ st s' = CLOSED) s.
Proof.
  intros Hok Hk Hcl. destruct (cleanup_all_ok (io s) Hok) as (o & E & Hok' & Hp & Ht).
  assert (Hk' : kinds o).
  { intros j x. rewrite Ht. destruct (toks (io s) !! j) as [t|] eqn:Ej; [|done]. intros [= <-].
    destruct (parent_ t); [apply kind_cancelled|]; by eapply Hk. }
  unfold cleanup. apply wp_bind. eapply wp_on_io; [exact E|]. unfold onCancel. apply wp_bind, wp_get.
  case_decide as Hst.
  - unfold forceClose, wio, rio. repeat first [apply wp_bind | apply wp_modify]. split; [|done]. by apply closed_ok.
  - destruct (decide (st s = CLOSED)) as [Hc|]; [|done]. apply wp_ret. split; [|done].
    destruct (Hcl Hc) as (? & ? & ? & ?). by apply closed_ok.
Qed.

(** Writing stops, and if reading had stopped too the socket is closed. *)
Lemma shutdownWriteNow_ok s :
  sock_ok s -> wp shutdownWriteNow (fun _ s' => sock_ok s' /\ ~ writable s' /\ (st s' = st s \/ st s' = CLOSED)) s.
Proof.
  intros Hs. unfold shutdownWriteNow. apply wp_bind, wp_get.
  destruct (shut_write s) eqn:Hw; [apply wp_ret; split; [done|]; split; [not_good|by left]|].
  destruct (shut_read s) eqn:Hr.
  { eapply wp_mono; [apply cleanup_ok; [apply Hs|apply Hs|]|].
    - intros Hc. by destruct (so_closed s Hs Hc) as (_ & ? & ? & ? & ?).
    - cbn. intros _ s' [? Hc]. split; [done|]. split; [not_good|by right]. }
  destruct Hs as [Hio Hk Hcl Hrd Hfd Hin Hcing Hced]. destruct (st s) eqn:Hst.
  - apply wp_modify. split; [|split; [not_good|left; done]].
    split; cbn; rewrite ?Hst; try done.
  - destruct (Hcl eq_refl) as (_ & _ & _ & ? & _). congruence.
  - apply wp_bind, wp_modify. set (s1 := upd_flags _ _ _ s).
    destruct (failAllWrites_ok (length (pWrite (io s))) s1) as (o & E & Hok & Hk' & Hpw & Hpr & Hpc); [done..|].
    exists tt, (upd_io o s1). split; [done|]. cbn in *.
    split; [|split; [not_good|by left]].
    split; cbn; rewrite ?Hpr, ?Hpw, ?Hst; try done.
    intros _. split; [done|]. by apply Hcing.
  - apply wp_bind, wp_modify. apply wp_bind, wp_modify. set (s1 := upd_watch _ _ _).
    destruct (failAllWrites_ok (length (pWrite (io s))) s1) as (o & E & Hok & Hk' & Hpw & Hpr & Hpc); [done..|].
    exists tt, (upd_io o s1). split; [done|]. cbn in *.
    split; [|split; [not_good|by left]].
    split; cbn; rewrite ?Hpr, ?Hpw, ?Hpc, ?Hst; try done.
    intros _. destruct (Hced eq_refl) as (? & _ & Hpr'). by rewrite Hr in *.
Qed.

(** ** Writing *)

(** The position the counting loop finds is the number of bytes written. *)
Lemma count_iov_ok iov n k :
  Forall (.≠ []) iov -> n <= length (concat iov) ->
  exists c p, count_iov iov n k = Ret (k + c, p) /\ c <= length iov /\
    let rest := match drop c iov with v :: l => drop p v :: l | [] => [] end in
    concat rest = drop n (concat iov) /\ Forall (.≠ []) rest /\
    (c = length iov <-> rest = []).
Proof.
  revert n k. induction iov as [|v iov IH]; intros n k Hne Hn.
  - cbn in Hn. exists 0, 0. cbn. rewrite decide_True by lia. rewrite Nat.add_0_r, drop_nil. done.
  - apply Forall_cons in Hne as [Hv Hne]. cbn [count_iov]. case_decide as Hlt.
    + exists 0, n. rewrite Nat.add_0_r. split; [done|]. cbn [length drop concat].
      split; [lia|]. split; [by rewrite drop_app_le by lia|]. split; [|done].
      apply Forall_cons. split; [|done]. intros E. apply (f_equal length) in E. rewrite length_drop in E. cbn in E. lia.
    + cbn [concat] in Hn. rewrite length_app in Hn.
      destruct (IH (n - length v) (S k) Hne ltac:(lia)) as (c & p & E & Hc & Hrest & Hne' & Hiff).
      exists (S c), p. rewrite E. split; [do 2 f_equal; lia|]. cbn [length drop concat].
      split; [lia|]. split; [by rewrite Hrest, drop_app_ge by lia|]. split; [done|].
      rewrite <- Hiff. split; congruence.
Qed.

Lemma left_of_insert o o' i t j :
  toks o' = <[i := t]> (toks o) ->
  left_of o' j = if decide (j = i) then concat (iov_left (data t)) else left_of o j.
Proof.
  intros E. unfold left_of. rewrite E. case_decide as Hj.
  - by rewrite Hj, lookup_insert_eq.
  - by rewrite lookup_insert_ne.
Qed.

Lemma left_of_list o o' i t l :
  toks o' = <[i := t]> (toks o) -> i ∉ l -> concat (left_of o' <$> l) = concat (left_of o <$> l).
Proof.
  intros E. induction l as [|j l IH]; [done|]. intros Hi. apply not_elem_of_cons in Hi as [H1 H2].
  rewrite !fmap_cons. cbn [concat]. by rewrite (left_of_insert _ _ _ _ _ E), decide_False, IH.
Qed.

(** The head writer, with its iovec array replaced. *)
Lemma outstanding_head o o' i l t t' :
  io_ok o -> pWrite o = i :: l -> toks o !! i = Some t -> toks o' = <[i := t']> (toks o) ->
  outstanding o = concat (iov_left (data t)) ++ concat (left_of o' <$> l) /\
  (pWrite o' = i :: l -> outstanding o' = concat (iov_left (data t')) ++ concat (left_of o' <$> l)) /\
  (pWrite o' = l -> outstanding o' = concat (left_of o' <$> l)).
Proof.
  intros Hok Hp Hi Ht. pose proof (ok_nodup o Hok OpWrite) as Hnd. cbn in Hnd. rewrite Hp in Hnd.
  apply NoDup_cons in Hnd as [Hil _]. split; [|split].
  - unfold outstanding. rewrite Hp, fmap_cons. cbn [concat]. rewrite (left_of_list o o' i t' l Ht Hil). unfold left_of at 1. by rewrite Hi.
  - intros Hp'. unfold outstanding. rewrite Hp', fmap_cons. cbn [concat]. by rewrite (left_of_insert _ _ _ _ _ Ht), decide_True.
  - intros Hp'. unfold outstanding. by rewrite Hp'.
Qed.

(** One write of the head of the iovec array. *)
Lemma performWrite_ok iov s :
  fd_ s = true -> Forall (.≠ []) iov -> iov <> [] ->
  wp (performWrite iov) (fun r s' =>
    exists snt k, s' = upd_sent snt (upd_sys (recvs s) k s) /\
    match r with
    | WFail _ => snt = sent s
    | WDone total c p =>
        total <= length (concat iov) /\ snt = sent s ++ take total (concat iov) /\
        let rest := match drop c iov with v :: l => drop p v :: l | [] => [] end in
        concat rest = drop total (concat iov) /\ Forall (.≠ []) rest /\ (c = length iov <-> rest = [])
    end) s.
Proof.
  intros Hfd Hne Hnil. unfold performWrite, wp, eff_bind, sock_writev. rewrite Hfd.
  assert (Hcount : forall m, m <= length (concat iov) -> exists c p, count_iov iov m 0 = Ret (c, p) /\
    let rest := match drop c iov with v :: l => drop p v :: l | [] => [] end in
    concat rest = drop m (concat iov) /\ Forall (.≠ []) rest /\ (c = length iov <-> rest = [])).
  { intros m Hm. destruct (count_iov_ok iov m 0 Hne Hm) as (c & p & E & _ & H). by exists c, p. }
  destruct (sends s) as [|[n|e] k] eqn:Es; cbn [fst snd].
  - destruct (Hcount 0 ltac:(lia)) as (c & p & -> & H). eexists _, _. split; [done|]. exists (sent s), (sends s).
    rewrite app_nil_r. split; [|split; [lia|done]]. destruct s; cbn in *. by subst.
  - set (m := Nat.min n _). destruct (Hcount m ltac:(lia)) as (c & p & -> & H). eexists _, _. split; [done|].
    eexists _, k. split; [done|]. split; [lia|done].
  - eexists _, _. split; [done|]. exists (sent s), k. split; [by destruct s|done].
Qed.

(** A connected socket whose tokens changed, but not the readers. *)
Definition same_watch (s s' : SocketChannel) : Prop :=
  st s' = st s /\ shut_write s' = shut_write s /\ shut_write_pending s' = shut_write_pending s /\
  shut_read s' = shut_read s /\ rio_ s' = rio_ s /\ wio_ s' = wio_ s /\ fd_ s' = fd_ s.

Lemma sock_ok_io s s' :
  sock_ok s -> st s = CONNECTED -> same_watch s s' ->
  io_ok (io s') -> kinds (io s') -> pConnect (io s') = [] ->
  (pRead (io s') = [] \/ pRead (io s') = pRead (io s)) ->
  (pWrite (io s') <> [] -> pWrite (io s) <> []) -> sock_ok s'.
Proof.
  intros Hs Hst (E1 & E2 & E3 & E4 & E5 & E6 & E7) Hok Hk Hpc Hpr Hpw.
  destruct (so_connected s Hs Hst) as (_ & Hw & Hr). split; try done; rewrite ?E1, ?Hst; try done.
  - destruct Hpr as [-> | ->]; [cbn; lia|apply Hs].
  - intros _. rewrite E7. apply Hs. by left.
  - intros _. split; [done|]. rewrite E2, E4, E5, E6. split; [by intros ?%Hpw%Hw|].
    destruct Hpr as [-> | ->]; done.
Qed.

(** What a step of writing does, seen from outside. *)
Definition wrote (s s' : SocketChannel) : Prop :=
  sock_ok s' /\ (st s' = CONNECTED \/ st s' = CLOSED) /\
  (writable s' -> writable s /\ sent s' ++ outstanding (io s') = sent s ++ outstanding (io s)).

Lemma wrote_bad s s' : sock_ok s' -> (st s' = CONNECTED \/ st s' = CLOSED) -> ~ writable s' -> wrote s s'.
Proof. by intros. Qed.

Lemma wrote_trans s s1 s' :
  (writable s1 -> writable s /\ sent s1 ++ outstanding (io s1) = sent s ++ outstanding (io s)) -> wrote s1 s' -> wrote s s'.
Proof.
  intros H1 (H & Hst & Hg). split; [done|]. split; [done|]. intros Hg'. destruct (Hg Hg') as [Hg1 ->]. by apply H1.
Qed.

(** The writer at the head, done after its last bytes. *)
Lemma writer_done s s1 i l t t1 o2 :
  sock_ok s -> st s = CONNECTED -> pWrite (io s) = i :: l -> toks (io s) !! i = Some t -> op_ t = OpWrite ->
  same_watch s s1 -> toks (io s1) = <[i := t1]> (toks (io s)) -> op_ t1 = OpWrite ->
  (forall op, getPending op (io s1) = getPending op (io s)) ->
  (forall op', op' <> OpWrite -> filter (.≠ i) (getPending op' (io s)) = getPending op' (io s)) ->
  filter (.≠ i) (pWrite (io s)) = l ->
  iov_left (data t1) = [] -> sent s1 = sent s ++ concat (iov_left (data t)) ->
  kind_ok (mkToken false None DONE OpWrite (data t1)) ->
  io_ok o2 -> finished DONE i t1 (io s1) o2 ->
  let s2 := upd_io o2 s1 in
  sock_ok s2 /\ st s2 = CONNECTED /\ length (pWrite (io s2)) = length l /\
  (writable s2 -> writable s /\ sent s2 ++ outstanding (io s2) = sent s ++ outstanding (io s)).
Proof.
  intros Hs Hst Hpw Hi Hop Hsame Ht1 Hop1 Hp1 Hoth Hl Hiov Hsent Hkd Hok2 (Ht2 & Hp2 & _) s2.
  destruct Hsame as (E1 & E2 & E3 & E4 & E5 & E6 & E7).
  assert (Hw2 : pWrite o2 = l) by (by rewrite (Hp2 OpWrite : pWrite o2 = _), Hp1).
  assert (Ht : toks o2 = <[i := mkToken false None DONE OpWrite (data t1)]> (toks (io s)))
    by (by rewrite Ht2, Ht1, insert_insert_eq, Hop1).
  split; [|split; [by cbn; rewrite E1|split; [cbn; by rewrite Hw2|]]].
  - eapply (sock_ok_io s); try done.
    + eapply kinds_insert; [apply Hs|exact Ht|done].
    + cbn. rewrite (Hp2 OpConnect : pConnect o2 = _), Hp1, Hoth by done. by apply (so_connected s Hs Hst).
    + right. cbn. by rewrite (Hp2 OpRead : pRead o2 = _), Hp1, Hoth.
    + intros _. by rewrite Hpw.
  - intros (_ & Hg1 & Hg2). cbn in Hg1, Hg2. split; [split; [congruence|]; split; congruence|].
    destruct (outstanding_head (io s) o2 i l t _ (so_io s Hs) Hpw Hi Ht) as (-> & _ & Ho).
    cbn. rewrite (Ho Hw2), Hsent. by rewrite app_assoc.
Qed.

Lemma upd_io_same o s : same_watch s (upd_io o s).
Proof. done. Qed.

Lemma getPending_setTok op i t (o : IOObject payload) : getPending op (setTok i t o) = getPending op o.
Proof. by destruct op. Qed.

(** What one successful [writev] leaves of a writer. *)
Lemma writer_progress ec w iov buf total rest :
  writer_ok STARTED ec w iov buf -> total <= length (concat iov) ->
  concat rest = drop total (concat iov) -> Forall (.≠ []) rest ->
  writer_ok STARTED ec (w + Z.of_nat total) rest buf /\ (rest = [] -> writer_ok DONE ec (w + Z.of_nat total) rest buf).
Proof.
  intros (Hw & Hc & _ & Hec & _) Ht Hr Hne.
  assert (Hlen : length (concat iov) = length (concat buf) - Z.to_nat w) by (by rewrite Hc, length_drop).
  assert (Hd : concat rest = drop (Z.to_nat (w + Z.of_nat total)) (concat buf)).
  { rewrite Hr, Hc, drop_drop. f_equal. lia. }
  split; [split; [lia|done]|]. intros ->. split; [lia|]. split; [done|]. split; [done|]. split; [done|].
  intros _ _. apply (f_equal length) in Hd. rewrite length_drop in Hd. cbn in Hd. lia.
Qed.

Lemma write_loop_ok fuel s :
  sock_ok s -> st s = CONNECTED -> length (pWrite (io s)) <= fuel -> wp (write_loop fuel) (fun _ s' => wrote s s') s.
Proof.
  revert s. induction fuel as [|fuel IH]; intros s Hs Hst Hf; cbn [write_loop]; apply wp_bind, wp_get;
    (destruct (pWrite (io s)) as [|i l] eqn:Hpw; [apply wp_ret; split; [done|]; split; [by left|done]|]);
    [cbn in Hf; lia|].
  destruct (head_pending OpWrite i l (io s) (so_io s Hs) Hpw) as (t & Hi & Hst_t & Hop & Hpar & Hl & Hoth).
  apply wp_bind. eapply wp_get_data; [done|].
  pose proof (so_kind s Hs i t Hi) as Hk. unfold kind_ok in Hk. rewrite Hop, Hst_t in Hk.
  destruct (data t) as [| |ec w iov buf] eqn:Hd; try done. cbn [iov_left].
  destruct iov as [|v iov'].
  { apply wp_bind. destruct (notifyDone_ok i t (io s) (so_io s Hs) Hi Hst_t) as (o2 & E & Hok2 & Hfin).
    eapply wp_on_io; [exact E|].
    assert (Hkd : kind_ok (mkToken false None DONE OpWrite (data t))).
    { rewrite Hd. cbn. destruct Hk as (Hw & Hc & Hf' & Hec & _). split; [done|]. split; [done|]. split; [done|].
      split; [done|]. intros _ _. apply (f_equal length) in Hc. rewrite length_drop in Hc. cbn in Hc. lia. }
    destruct (writer_done s s i l t t o2) as (Hs2 & Hst2 & Hlen & Hg); try done.
    - by rewrite insert_id.
    - by rewrite Hd.
    - by rewrite Hd, app_nil_r.
    - eapply wp_mono; [apply IH; [done|done|cbn in Hf; lia]|]. cbn. intros _ s'. by apply wrote_trans. }
  set (vec := v :: iov') in *. cbn match. apply wp_bind.
  destruct Hk as (Hw & Hc & Hne & Hec & Hdn). set (Hk := conj Hw (conj Hc (conj Hne (conj Hec Hdn)))).
  eapply wp_mono; [apply performWrite_ok; [apply Hs; by left|exact Hne|done]|].
  intros r s1 (snt & k & -> & Hr). destruct r as [total c p|e].
  - destruct Hr as (Htot & Hsnt & Hrest & Hne' & Hiff). set (rest := match drop c vec with [] => [] | _ => _ end) in *.
    set (s1 := upd_sent snt (upd_sys (recvs s) k s)).
    set (t1 := mkToken (parent_ t) (task_ t) (s_ t) (op_ t) (PWrite ec (w + Z.of_nat total) rest buf)).
    destruct (writer_progress ec w vec buf total rest Hk Htot Hrest Hne') as [Hws Hwd].
    destruct (setData_ok (updateIov total c p (PWrite ec w vec buf)) i t (io s1) (so_io s Hs) Hi) as [E1 Hok1].
    apply wp_bind. eapply wp_on_io; [exact E1|]. change (updateIov _ _ _ _) with (data t1) in *.
    set (o1 := setTok i _ (io s1)) in *.
    case_decide as Hcv.
    + apply wp_bind. destruct (notifyDone_ok i t1 o1 Hok1) as (o2 & E2 & Hok2 & Hfin);
        [by unfold o1; cbn; rewrite lookup_insert_eq|done|].
      eapply wp_on_io; [exact E2|]. assert (Hrn : rest = []) by (by apply Hiff).
      destruct (writer_done s (upd_io o1 s1) i l t t1 o2) as (Hs2 & Hst2 & Hlen & Hg); try done.
      * cbn. rewrite Hd. cbn [iov_left]. rewrite Hsnt. f_equal.
        assert (drop total (concat vec) = []) as Hz by (by rewrite <- Hrest, Hrn).
        rewrite take_ge; [done|]. apply (f_equal length) in Hz. rewrite length_drop in Hz.
        change (length (@nil Z)) with 0 in Hz. lia.
      * by apply Hwd.
      * apply wp_bind, wp_get. destruct (shut_write_pending _).
        -- eapply wp_mono; [by apply shutdownWriteNow_ok|]. cbn beta. intros _ s' (Hs' & Hng & Hst'). apply wrote_bad; try done.
           rewrite Hst2 in Hst'. done.
        -- eapply wp_mono; [apply IH; [done|done|cbn in Hf; lia]|]. cbn beta. intros _ s'. by apply wrote_trans.
    + apply wp_ret. split; [|split; [by left|]].
      * eapply (sock_ok_io s); try done.
        -- eapply (kinds_insert (io s)); [apply Hs|done|]. unfold kind_ok. cbn [op_ data s_]. by rewrite Hop, Hst_t.
        -- by apply (so_connected s Hs Hst).
        -- by right.
      * intros Hg. split; [done|].
        destruct (outstanding_head (io s) o1 i l t t1 (so_io s Hs) Hpw Hi eq_refl) as (-> & Ho & _).
        change (snt ++ outstanding o1 = sent s ++ concat (iov_left (data t)) ++ concat (left_of o1 <$> l)).
        rewrite (Ho Hpw), Hsnt, Hd. cbn [iov_left data t1]. rewrite Hrest, <- !app_assoc.
        by rewrite (app_assoc (take total _)), take_drop.
  - set (s1 := upd_sent snt (upd_sys (recvs s) k s)).
    destruct (tokError_ok (Some e) i t s1 (so_io s Hs) Hi Hst_t) as (o1 & E1 & Hok1 & Ht1 & Hp1).
    apply wp_bind. exists tt, (upd_io o1 s1). split; [done|].
    eapply wp_mono; [apply cleanup_ok; [done| |]|].
    + eapply kinds_insert; [apply Hs|exact Ht1|]. apply kind_error; [by eapply (so_kind s Hs)|by right].
    + cbn. rewrite Hst. done.
    + cbn. intros _ s' [Hs' Hc']. apply wrote_bad; [done|by right|not_good].
Qed.

(** ** Events *)

(** What any call or event does, seen from outside: the invariant is kept,
    and as long as the writing side is open the bytes sent followed by the
    bytes queued only grow by [extra]. *)
Definition stepped (extra : list Z) (s s' : SocketChannel) : Prop :=
  sock_ok s' /\
  (writable s' -> writable s /\ sent s' ++ outstanding (io s') = (sent s ++ outstanding (io s)) ++ extra).

Lemma stepped_refl s : sock_ok s -> stepped [] s s.
Proof. intros H. split; [done|]. intros. by rewrite app_nil_r. Qed.

Lemma stepped_trans s s1 s2 l : stepped [] s s1 -> stepped l s1 s2 -> stepped l s s2.
Proof.
  intros [_ H1] [H2 Hw]. split; [done|]. intros Hw2. destruct (Hw Hw2) as [Hw1 ->].
  destruct (H1 Hw1) as [? ->]. by rewrite app_nil_r.
Qed.

Lemma stepped_bad l s s' : sock_ok s' -> ~ writable s' -> stepped l s s'.
Proof. by intros. Qed.

Lemma wrote_stepped s s' : wrote s s' -> stepped [] s s'.
Proof. intros (H & _ & Hw). split; [done|]. rewrite app_nil_r. done. Qed.

Lemma cleanup_stepped l s0 s : sock_ok s -> wp cleanup (fun _ s' => stepped l s0 s') s.
Proof.
  intros Hs. eapply wp_mono; [apply cleanup_ok; [apply Hs|apply Hs|]|].
  - intros Hc. by destruct (so_closed s Hs Hc) as (_ & ? & ? & ? & ?).
  - cbn. intros _ s' [? ?]. apply stepped_bad; [done|not_good].
Qed.

Lemma onWrite_ok s : sock_ok s -> wp onWrite (fun _ s' => stepped [] s s') s.
Proof.
  intros Hs. unfold onWrite. apply wp_bind, wp_get. case_decide as Hst; [|by apply wp_ret, stepped_refl].
  apply wp_bind. eapply wp_mono; [by apply write_loop_ok|]. cbn beta. intros _ s1 Hw. apply wp_bind, wp_get.
  pose proof (wrote_stepped _ _ Hw) as Hstep. destruct Hw as (Hs1 & Hst1 & _).
  destruct (pWrite (io s1)) eqn:Hpw; [|by apply wp_ret].
  apply wp_bind, wp_modify. set (s2 := upd_watch _ _ _).
  assert (Hs2 : sock_ok s2).
  { destruct Hst1 as [E|E].
    - destruct Hs1 as [H1 H2 H3 H4 H5 H6 H7 H8]. split; try done; cbn; rewrite ?E; try done.
      intros _. destruct (H8 E) as (? & _ & ?). by rewrite Hpw.
    - destruct (so_closed s1 Hs1 E) as (? & ? & ? & ? & ?). apply closed_ok; try done; apply Hs1. }
  assert (Hstep2 : stepped [] s s2) by (split; [done|]; apply Hstep).
  destruct (shut_write_pending s1); [|by apply wp_ret].
  eapply wp_mono; [by apply shutdownWriteNow_ok|]. cbn beta. intros _ s' (? & ? & _). by apply stepped_bad.
Qed.

(** *** Reading *)

Definition rbytes (l : list recvret) : list Z := concat ((fun r => match r with RData l => l | _ => [] end) <$> l).
Definition inbox_at (i : nat) (s : SocketChannel) : list Z :=
  match toks (io s) !! i with Some t => inbox_of (data t) | None => [] end.

#[local] Arguments rbytes : simpl never.

(** Reading for the token [i] touches nothing but that token, and the bytes
    that leave the kernel are appended to its buffer. *)
Record reading (i : nat) (s s' : SocketChannel) : Prop := {
  rd_watch : same_watch s s';
  rd_io : io_ok (io s');
  rd_kinds : kinds (io s');
  rd_sent : sent s' = sent s;
  rd_write : pWrite (io s') = pWrite (io s);
  rd_connect : pConnect (io s') = pConnect (io s);
  rd_tok : exists t', toks (io s') = <[i := t']> (toks (io s)) /\ op_ t' = OpRead;
  rd_bytes : inbox_at i s' ++ rbytes (recvs s') = inbox_at i s ++ rbytes (recvs s) }.

Lemma reading_trans i s s1 s2 : reading i s s1 -> reading i s1 s2 -> reading i s s2.
Proof.
  intros [(?&?&?&?&?&?&?) J2 J3 J4 J5 J6 (t1 & Ht1 & _) J8] [(?&?&?&?&?&?&?) K2 K3 K4 K5 K6 (t2 & Ht2 & K7) K8].
  split; try done; try congruence.
  - unfold same_watch. repeat split; congruence.
  - exists t2. by rewrite Ht2, Ht1, insert_insert_eq.
Qed.

(** The reader's token before and after one system call. *)
Lemma reading_intro i t t' s s' :
  sock_ok s -> toks (io s) !! i = Some t -> op_ t = OpRead -> op_ t' = OpRead ->
  same_watch s s' -> sent s' = sent s -> io_ok (io s') ->
  toks (io s') = <[i := t']> (toks (io s)) ->
  pWrite (io s') = pWrite (io s) -> pConnect (io s') = pConnect (io s) ->
  (exists ec l, data t' = PRead ec l) ->
  inbox_of (data t') ++ rbytes (recvs s') = inbox_of (data t) ++ rbytes (recvs s) ->
  reading i s s'.
Proof.
  intros Hs Hi Hop Hop' Hsame Hsent Hok Ht Hpw Hpc (ec & l & Hd) Hb. split; try done.
  - eapply kinds_insert; [apply Hs|exact Ht|]. unfold kind_ok. by rewrite Hop', Hd.
  - by exists t'.
  - unfold inbox_at. by rewrite Ht, lookup_insert_eq, Hi.
Qed.

Lemma reading_outstanding i s s' :
  sock_ok s -> i ∈ pRead (io s) -> reading i s s' -> outstanding (io s') = outstanding (io s).
Proof.
  intros Hs Hin [_ _ _ _ Hpw _ (t' & Ht & _) _]. unfold outstanding. rewrite Hpw. apply (left_of_list _ _ i t'); [done|].
  intros Hw. pose proof (proj1 (ok_pending _ (so_io s Hs) OpWrite i) Hw) as (x & Hx & _ & Hx1).
  pose proof (proj1 (ok_pending _ (so_io s Hs) OpRead i) Hin) as (y & Hy & _ & Hy1). simplify_eq. congruence.
Qed.

Section Reading.
Context (prepareBuffer : list Z -> nat).
Context (prepare_pos : forall l, 0 < prepareBuffer l).

Lemma dataReady_ok i t ec inbox l s :
  sock_ok s -> toks (io s) !! i = Some t -> op_ t = OpRead -> data t = PRead ec inbox ->
  exists o', dataReady l i s = (Ret tt, upd_io o' s) /\ io_ok o' /\
    toks o' = <[i := mkToken (parent_ t) None (s_ t) OpRead (PRead ec (inbox ++ l))]> (toks (io s)) /\
    (forall op, getPending op o' = getPending op (io s)).
Proof.
  intros Hs Hi Hop Hd. unfold dataReady, eff_bind, get_data. rewrite Hi, Hd. unfold on_io at 1.
  destruct (setData_ok (PRead ec (inbox ++ l)) i t (io s) (so_io s Hs) Hi) as [-> Hok1].
  set (o1 := setTok i _ (io s)) in *. unfold on_io. cbn [io upd_io].
  destruct (notify_ok i (mkToken (parent_ t) (task_ t) (s_ t) (op_ t) (PRead ec (inbox ++ l))) o1 Hok1)
    as (o2 & -> & Hok2 & Ht & Hp & _); [by unfold o1; cbn; rewrite lookup_insert_eq|].
  exists o2. split; [done|]. split; [done|]. cbn [op_ data parent_ s_] in Ht. split.
  - rewrite Ht. unfold o1. cbn. by rewrite insert_insert_eq, Hop.
  - intros op. rewrite Hp. by destruct op.
Qed.
Lemma reading_ok i s s' :
  sock_ok s -> st s = CONNECTED -> reading i s s' ->
  (pRead (io s') = [] \/ pRead (io s') = pRead (io s)) -> sock_ok s'.
Proof.
  intros Hs Hst [H1 H2 H3 H4 H5 H6 _ _] Hp. eapply (sock_ok_io s); try done.
  - rewrite H6. by apply (so_connected s Hs Hst).
  - by rewrite H5.
Qed.

(** The reader is finished, with or without an error. *)
Lemma reader_ended i t ec inbox s o' t' r :
  sock_ok s -> pRead (io s) = [i] -> toks (io s) !! i = Some t -> op_ t = OpRead -> data t = PRead ec inbox ->
  rbytes r = rbytes (recvs s) -> io_ok o' ->
  toks o' = <[i := t']> (toks (io s)) -> op_ t' = OpRead -> (exists ec', data t' = PRead ec' inbox) ->
  (forall op, getPending op o' = filter (.≠ i) (getPending op (io s))) ->
  let s' := upd_io o' (upd_sys r (sends s) s) in reading i s s' /\ pRead (io s') = [].
Proof.
  intros Hs Hpr Hi Hop Hd Hr Hok Ht Hop' (ec' & Hd') Hp s'.
  destruct (head_pending OpRead i [] (io s) (so_io s Hs) Hpr) as (t0 & Hi0 & _ & _ & _ & Hl & Hoth). simplify_eq.
  split.
  - eapply (reading_intro i t t'); try done.
    + cbn. rewrite (Hp OpWrite : pWrite o' = _). by apply Hoth.
    + cbn. rewrite (Hp OpConnect : pConnect o' = _). by apply Hoth.
    + eauto.
    + rewrite Hd', Hd. cbn. by rewrite Hr.
  - cbn. by rewrite (Hp OpRead : pRead o' = _).
Qed.

Definition read_post (i : nat) (s : SocketChannel) (r : ReadResult) (s' : SocketChannel) : Prop :=
  reading i s s' /\
  match r with READ_EOF | READ_ERROR => pRead (io s') = [] | _ => pRead (io s') = [i] end.

(** The bytes of one [recv] reach the token. *)
Lemma data_step i t ec inbox l k s :
  sock_ok s -> st s = CONNECTED -> pRead (io s) = [i] ->
  toks (io s) !! i = Some t -> op_ t = OpRead -> data t = PRead ec inbox ->
  rbytes (recvs s) = l ++ rbytes k ->
  wp (dataReady l i) (fun _ s' => read_post i s (READ_N 0) s' /\ sock_ok s' /\ st s' = CONNECTED) (upd_sys k (sends s) s).
Proof.
  intros Hs Hst Hpr Hi Hop Hd Hrb. set (s1 := upd_sys _ _ _). assert (Hs1 : sock_ok s1) by (by destruct Hs; split).
  destruct (dataReady_ok i t ec inbox l s1 Hs1 Hi Hop Hd) as (o' & E & Hok' & Ht' & Hp').
  exists tt, (upd_io o' s1). split; [done|].
  assert (Hpr' : pRead o' = [i]) by (by rewrite (Hp' OpRead : pRead o' = _)).
  assert (Hrd : reading i s (upd_io o' s1)).
  { eapply (reading_intro i t); [done|done|done| |done|done|done|exact Ht'| | | |]; try done.
    - exact (Hp' OpWrite).
    - exact (Hp' OpConnect).
    - cbn. eauto.
    - rewrite Hd. cbn. by rewrite Hrb, app_assoc. }
  split; [done|]. split; [|done]. eapply (reading_ok i s); [done..|]. right. by rewrite Hpr.
Qed.

Lemma handleRead_ok n i s :
  sock_ok s -> st s = CONNECTED -> pRead (io s) = [i] -> wp (handleRead prepareBuffer n i) (read_post i s) s.
Proof using prepare_pos.
  revert s. induction n as [|n IH]; intros s Hs Hst Hpr;
    destruct (head_pending OpRead i [] (io s) (so_io s Hs) Hpr) as (t & Hi & Hst_t & Hop & Hpar & Hl & Hoth);
    pose proof (so_kind s Hs i t Hi) as Hk; unfold kind_ok in Hk; rewrite Hop in Hk;
    destruct (data t) as [|ec inbox|] eqn:Hd; try done.
  { apply wp_ret. split; [|done]. eapply (reading_intro i t t); try done; [apply Hs|by rewrite insert_id|eauto]. }
  cbn [handleRead]. apply wp_bind. eapply wp_get_data; [done|]. rewrite Hd. cbn [inbox_of].
  pose proof (prepare_pos inbox) as Hpos. rewrite decide_False by lia. set (bl := prepareBuffer inbox) in *.
  assert (Hfd : fd_ s = true) by (apply Hs; by left).
  assert (Hmore : forall l k, rbytes (recvs s) = l ++ rbytes k ->
    wp (do! _ <- dataReady l i; if decide (length l < bl) then eff_ret (READ_N (length l)) else handleRead prepareBuffer n i)
      (read_post i s) (upd_sys k (sends s) s)).
  { intros l k Hrb. apply wp_bind. eapply wp_mono; [by eapply data_step|]. cbn beta. intros _ s' ([Hr Hp] & Hs' & Hst').
    case_decide; [by apply wp_ret|].
    eapply wp_mono; [by apply IH|]. intros r s2 [Hrd2 Hm]. split; [|done]. by eapply reading_trans. }
  assert (Hend : forall k, rbytes k = rbytes (recvs s) ->
    wp (do! _ <- on_io (notifyDone i); eff_ret READ_EOF) (read_post i s) (upd_sys k (sends s) s)).
  { intros k Hrb. destruct (notifyDone_ok i t (io s) (so_io s Hs) Hi Hst_t) as (o' & E & Hok' & Ht' & Hp' & _).
    apply wp_bind. eapply wp_on_io; [exact E|]. apply wp_ret. eapply reader_ended; try done. cbn. eauto. }
  assert (Hagain : forall k, rbytes k = rbytes (recvs s) ->
    wp (do! _ <- dataReady [] i; eff_ret READ_WOULDBLOCK) (read_post i s) (upd_sys k (sends s) s)).
  { intros k Hrb. apply wp_bind. eapply wp_mono; [by eapply data_step|]. cbn beta. intros _ s' ([Hr Hp] & _). by apply wp_ret. }
  unfold eff_bind at 1, wp, sock_recv. rewrite Hfd.
  destruct (recvs s) as [|[l| | |e] k] eqn:Er; cbn match beta iota.
  - pose proof (Hagain [] eq_refl) as H.
    replace (upd_sys [] (sends s) s) with s in H by (rewrite <- Er; by destruct s). exact H.
  - destruct l as [|x l]; [rewrite drop_nil; by apply Hend|].
    destruct (drop bl (x :: l)) as [|y rest] eqn:Edrop; cbn match beta iota.
    + by apply Hmore.
    + rewrite <- Edrop. destruct (take bl (x :: l)) as [|z tk] eqn:Etake.
      { destruct bl; [lia|]. done. }
      rewrite <- Etake. apply Hmore. unfold rbytes. cbn. by rewrite app_assoc, take_drop.
  - by apply Hend.
  - by apply Hagain.
  - set (s1 := upd_sys k (sends s) s). assert (Hs1 : sock_ok s1) by (by destruct Hs; split).
    destruct (tokError_ok (Some e) i t s1 (so_io s Hs) Hi Hst_t) as (o' & E & Hok' & Ht' & Hp').
    eapply (wp_bind _ _ (read_post i s)). exists tt, (upd_io o' s1). split; [done|]. apply wp_ret.
    eapply reader_ended; try done; [by rewrite Er|]. cbn. rewrite Hd. cbn. eauto.
Qed.
Lemma onRead_ok s : sock_ok s -> wp (onRead prepareBuffer) (fun _ s' => stepped [] s s') s.
Proof using prepare_pos.
  intros Hs. unfold onRead. apply wp_bind, wp_get. case_decide as Hst; [|by apply wp_ret, stepped_refl].
  destruct (pRead (io s)) as [|i l] eqn:Hpr.
  - apply wp_modify. split.
    + destruct Hs as [H1 H2 H3 H4 H5 H6 H7 H8]. split; try done; cbn; rewrite ?Hst; try done.
      intros _. destruct (H8 Hst) as (? & ? & _). by rewrite Hpr.
    + intros ?. by rewrite app_nil_r.
  - pose proof (so_reader s Hs) as Hlen. rewrite Hpr in Hlen. destruct l; [|cbn in Hlen; lia].
    apply wp_bind. eapply wp_mono; [by apply handleRead_ok|]. intros r s1 [Hrd Hp].
    assert (Hs1 : sock_ok s1).
    { eapply (reading_ok i s); try done. rewrite Hpr. destruct r; (by left) || (by right). }
    assert (Hout : outstanding (io s1) = outstanding (io s)).
    { eapply (reading_outstanding i); try done. rewrite Hpr. by apply list_elem_of_singleton. }
    pose proof (rd_watch _ _ _ Hrd) as (E1 & E2 & E3 & E4 & E5 & E6 & E7).
    assert (Hstep : stepped [] s s1).
    { split; [done|]. intros (W1 & W2 & W3). rewrite (rd_sent _ _ _ Hrd), Hout, app_nil_r. split; [|done].
      split; [|split]; congruence. }
    destruct r; [| by apply wp_ret | by apply cleanup_stepped | by apply wp_ret].
    unfold closeRead. apply wp_bind, wp_modify, wp_modify. split; [|apply Hstep].
    destruct Hs1 as [H1 H2 H3 H4 H5 H6 H7 H8]. split; try done; cbn; rewrite ?E1, ?Hst; try done.
    intros _. destruct (H8 ltac:(congruence)) as (? & ? & _). split; [done|]. split; [done|]. by rewrite Hp.
Qed.

Lemma connect_loop_ok fuel ec s :
  io_ok (io s) -> kinds (io s) -> length (pConnect (io s)) <= fuel ->
  exists o', connect_loop fuel ec s = (Ret tt, upd_io o' s) /\ io_ok o' /\ kinds o' /\
    pConnect o' = [] /\ pRead o' = pRead (io s) /\ pWrite o' = pWrite (io s).
Proof.
  revert s. induction fuel as [|fuel IH]; intros s Hok Hk Hf.
  - destruct (pConnect (io s)) as [|i l] eqn:E; [|cbn in Hf; lia].
    exists (io s). cbn. unfold eff_bind, get. rewrite E. by destruct s.
  - cbn [connect_loop]. unfold eff_bind at 1, get. destruct (pConnect (io s)) as [|i l] eqn:E.
    { exists (io s). by destruct s. }
    destruct (head_pending OpConnect i l (io s) Hok E) as (t & Hi & Hs & Hop & _ & Hl & Hoth).
    destruct (tokError_ok ec i t s Hok Hi Hs) as (o1 & E1 & Hok1 & Ht1 & Hp1).
    unfold eff_bind. rewrite E1.
    destruct (IH (upd_io o1 s)) as (o' & E2 & Hok2 & Hk2 & Hc & Hr & Hw); [done| | |].
    + eapply kinds_insert; [done|done|]. apply kind_error; [by eapply Hk|left; congruence].
    + cbn [io upd_io]. rewrite (Hp1 OpConnect : pConnect o1 = _), Hl. cbn in Hf. lia.
    + exists o'. rewrite E2. split; [by destruct s|]. cbn [io upd_io] in *.
      split; [done|]. split; [done|]. split; [done|]. split.
      * rewrite Hr, (Hp1 OpRead : pRead o1 = _). by apply Hoth.
      * rewrite Hw, (Hp1 OpWrite : pWrite o1 = _). by apply Hoth.
Qed.

Lemma onConnect_ok conn s : sock_ok s -> wp (onConnect conn) (fun _ s' => stepped [] s s') s.
Proof.
  intros Hs. unfold onConnect. apply wp_bind, wp_get. case_decide as Hst; [|by apply wp_ret, stepped_refl].
  destruct (connect_loop_ok (length (pConnect (io s))) (snd conn) s) as (o & E & Hok & Hk & Hpc & Hpr & Hpw);
    [apply Hs|apply Hs|done|].
  apply wp_bind. exists tt, (upd_io o s). split; [done|].
  destruct (so_connecting s Hs Hst) as (Hw0 & _).
  destruct (fst conn).
  - apply wp_bind, wp_modify, wp_bind. unfold handleInitialReadWrite.
    apply wp_bind, wp_get, wp_bind, wp_modify, wp_modify, wp_ret. cbn [io upd_st upd_io].
    rewrite Hpr, Hpw, Hw0. split.
    + destruct Hs as [H1 H2 H3 H4 H5 H6 H7 H8]. split; try done; cbn; rewrite ?Hpr, ?Hpw, ?Hw0; try done.
      { intros _. apply H5. by right. }
      intros _. split; [done|]. split; [done|]. intros Hne. split; [by destruct (pRead (io s))|].
      by apply H7.
    + intros (W1 & W2 & W3). cbn in *. rewrite app_nil_r. split; [split; [congruence|done]|].
      unfold outstanding. cbn. by rewrite Hpw, Hw0.
  - apply wp_bind. eapply wp_mono; [apply cleanup_ok; [done|done|cbn; congruence]|]. cbn beta.
    intros _ s' [? ?]. apply wp_ret, stepped_bad; [done|not_good].
Qed.

Lemma onEvent_ok error read write conn s :
  sock_ok s -> error = false -> wp (onEvent prepareBuffer error read write conn) (fun _ s' => stepped [] s s') s.
Proof using prepare_pos.
  intros Hs ->. unfold onEvent. apply wp_bind.
  assert (Hr : wp (if read then onRead prepareBuffer else eff_ret tt) (fun _ s' => stepped [] s s') s).
  { destruct read; [by apply onRead_ok|by apply wp_ret, stepped_refl]. }
  eapply wp_mono; [exact Hr|]. cbn beta. intros _ s1 H1. destruct write; [|by apply wp_ret].
  apply wp_bind. eapply wp_mono; [apply onConnect_ok, H1|]. cbn beta. intros r s2 H2.
  pose proof (stepped_trans _ _ _ _ H1 H2) as H12. destruct r; [by apply wp_ret|].
  eapply wp_mono; [apply onWrite_ok, H2|]. cbn beta. intros _ s3 H3. by eapply stepped_trans.
Qed.
End Reading.

(** ** Calls *)

Lemma concat_iov_of buf : concat (iov_of buf) = concat buf.
Proof.
  unfold iov_of. induction buf as [|v buf IH]; [done|]. rewrite filter_cons. case_decide as H; cbn [concat]; rewrite IH; [done|].
  by destruct v.
Qed.

(** Making a token that is not there yet does not disturb the others. *)
Lemma newTok_spec i op d (o : IOObject payload) :
  io_ok o -> kinds o -> toks o !! i = None -> kind_ok (mkToken false None STARTED op d) ->
  io_ok (newTok i op d o) /\ kinds (newTok i op d o) /\
  toks (newTok i op d o) !! i = Some (mkToken false None STARTED op d) /\
  (forall op', getPending op' (newTok i op d o) = getPending op' o) /\
  (forall l, i ∉ l -> concat (left_of (newTok i op d o) <$> l) = concat (left_of o <$> l)).
Proof.
  intros Hok Hk Hi Hd. split; [by apply newTok_ok|]. split; [by eapply kinds_insert|].
  split; [apply lookup_insert_eq|]. split; [by intros []|]. intros l Hl. by eapply left_of_list.
Qed.

Lemma fresh_not_pending op i (o : IOObject payload) : io_ok o -> toks o !! i = None -> i ∉ getPending op o.
Proof. intros Hok Hi. rewrite (ok_pending o Hok). intros (t & Ht & _). congruence. Qed.

(** Tokens of a socket that changed without touching the writers' list. *)
Lemma outstanding_same (o o' : IOObject payload) i t :
  io_ok o -> toks o !! i = None \/ (exists x, toks o !! i = Some x /\ op_ x <> OpWrite) ->
  toks o' = <[i := t]> (toks o) -> pWrite o' = pWrite o -> outstanding o' = outstanding o.
Proof.
  intros Hok Hi Ht Hp. unfold outstanding. rewrite Hp. apply (left_of_list o o' i t); [done|].
  destruct Hi as [Hi|(x & Hi & Hx)]; [by apply (fresh_not_pending OpWrite)|].
  intros Hin. pose proof (proj1 (ok_pending o Hok OpWrite i) Hin) as (y & Hy & _ & ?). simplify_eq.
Qed.

(** The new connect token is completed at once, or attached. *)
Lemma connect_end i ec (b : bool) s s2 :
  sock_ok s -> toks (io s) !! i = None -> st s = INITED ->
  io_ok (io s2) -> kinds (io s2) ->
  toks (io s2) = <[i := mkToken false None STARTED OpConnect (PConn ec)]> (toks (io s)) ->
  (forall op, getPending op (io s2) = getPending op (io s)) -> sent s2 = sent s ->
  shut_write s2 = shut_write s -> shut_write_pending s2 = shut_write_pending s -> shut_read s2 = false ->
  (st s2 = INITED \/ st s2 = CONNECTING /\ wio_ s2 = true /\ fd_ s2 = true) ->
  wp (if b then on_io (notifyDone i) else on_io (attach i)) (fun _ s' => stepped [] s s') s2.
Proof.
  intros Hs Hi Hst Hok2 Hk2 Ht2 Hp2 Hsent E2 E3 E4 Hst2. destruct (so_inited s Hs Hst) as (Hr0 & Hw0 & Hsr).
  assert (Hi2 : toks (io s2) !! i = Some (mkToken false None STARTED OpConnect (PConn ec))) by (by rewrite Ht2, lookup_insert_eq).
  assert (exists o3, (if b then on_io (notifyDone i) else on_io (attach i)) s2 = (Ret tt, upd_io o3 s2) /\ io_ok o3 /\
    (exists t, toks o3 = <[i := t]> (toks (io s)) /\ kind_ok t) /\ pRead o3 = [] /\ pWrite o3 = [])
    as (o3 & E & Hok3 & (t & Ht3 & Hkt) & Hr3 & Hw3).
  { destruct b; unfold on_io.
    - destruct (notifyDone_ok i _ _ Hok2 Hi2 eq_refl) as (o3 & -> & Hok3 & Ht3 & Hp3 & _). exists o3. split; [done|].
      split; [done|]. split; [eexists; split; [by rewrite Ht3, Ht2, insert_insert_eq|done]|].
      rewrite (Hp3 OpRead : pRead o3 = _), (Hp3 OpWrite : pWrite o3 = _), !Hp2. cbn. by rewrite Hr0, Hw0.
    - destruct (attach_ok i _ _ Hok2 Hi2 eq_refl) as (o3 & -> & Ht3 & Hp3 & _ & Hok3). exists o3. split; [done|].
      split; [done|]. split; [eexists; split; [by rewrite Ht3, Ht2, insert_insert_eq|done]|].
      rewrite (Hp3 OpRead : pRead o3 = getPending OpRead (io s2)), (Hp3 OpWrite : pWrite o3 = getPending OpWrite (io s2)).
      rewrite !Hp2. cbn. by rewrite Hr0, Hw0. }
  exists tt, (upd_io o3 s2). split; [done|]. split.
  - assert (kinds o3) by (by eapply kinds_insert; [apply Hs|done|done]).
    destruct Hst2 as [Hx|(Hx & Hx2 & Hx3)]; split; cbn; rewrite ?Hx, ?Hr3, ?Hw3; cbn; try done; try lia.
    by intros [|].
  - intros (W1 & W2 & W3). cbn in *. rewrite app_nil_r, Hsent. split; [split; [|split]; congruence|].
    f_equal. eapply outstanding_same; [apply Hs|by left|done|]. by rewrite Hw3, Hw0.
Qed.

Lemma doConnect_ok i conn s :
  sock_ok s -> toks (io s) !! i = None -> st s = INITED -> wp (doConnect i conn) (fun _ s' => stepped [] s s') s.
Proof.
  intros Hs Hi Hst. unfold doConnect. apply wp_bind, wp_get. rewrite decide_False by naive_solver.
  destruct (newTok_spec i OpConnect (PConn None) (io s)) as (Hok1 & Hk1 & Hi1 & Hp1 & _); [apply Hs..|done|done|].
  apply wp_bind. eapply wp_on_io; [done|]. set (o1 := newTok _ _ _ _) in *.
  destruct (so_inited s Hs Hst) as (Hr0 & Hw0 & Hsr). destruct conn as [r ec]. cbn [snd].
  set (s1 := upd_io o1 s).
  assert (Hset : forall s', io s' = o1 -> exists o2, setData (PConn ec) i (io s') = Ret o2 /\ io_ok o2 /\ kinds o2 /\
    toks o2 = <[i := mkToken false None STARTED OpConnect (PConn ec)]> (toks (io s)) /\
    (forall op, getPending op o2 = getPending op (io s))).
  { intros s' ->. destruct (setData_ok (PConn ec) i _ o1 Hok1 Hi1) as [E Hok2]. eexists. split; [exact E|].
    split; [done|]. split; [by eapply kinds_insert|]. split; [cbn; by rewrite insert_insert_eq|].
    intros op. rewrite getPending_setTok. apply Hp1. }
  apply wp_bind. destruct ec as [e|]; cbn [startConnect].
  - apply wp_ret, wp_bind. destruct (Hset s1 eq_refl) as (o2 & E & Hok2 & Hk2 & Ht2 & Hp2).
    eapply wp_on_io; [exact E|]. eapply (connect_end _ _ false); try done. by left.
  - apply wp_bind, wp_modify, wp_bind, wp_modify, wp_bind, wp_modify, wp_ret, wp_bind.
    set (s2 := upd_watch _ _ _). destruct (Hset s2 eq_refl) as (o2 & E & Hok2 & Hk2 & Ht2 & Hp2).
    eapply wp_on_io; [exact E|]. eapply (connect_end _ _ r); try done. by right.
Qed.

(** A token made and failed at once: the lists are as before. *)
Lemma fail_new i op d s :
  sock_ok s -> toks (io s) !! i = None -> kind_ok (mkToken false None STARTED op d) ->
  wp (tokError connection_aborted i)
    (fun _ s' => sock_ok s' /\ same_watch s s' /\ sent s' = sent s /\ outstanding (io s') = outstanding (io s))
    (upd_io (newTok i op d (io s)) s).
Proof.
  intros Hs Hi Hd. destruct (newTok_spec i op d (io s)) as (Hok1 & Hk1 & Hi1 & Hp1 & _); [apply Hs..|done|done|].
  set (o1 := newTok _ _ _ _) in *.
  destruct (tokError_ok connection_aborted i _ (upd_io o1 s) Hok1 Hi1 eq_refl) as (o2 & E & Hok2 & Ht2 & Hp2).
  exists tt, (upd_io o2 s). split; [exact E|]. cbn [op_ data io upd_io] in Ht2.
  assert (Hp : forall op', getPending op' o2 = getPending op' (io s)).
  { intros op'. rewrite Hp2. cbn [io upd_io]. rewrite Hp1. apply filter_ne_notin. by apply fresh_not_pending, Hi; apply Hs. }
  assert (Ht : toks o2 = <[i := mkToken false None DONE op (set_ec connection_aborted d)]> (toks (io s)))
    by (by rewrite Ht2; cbn; rewrite insert_insert_eq).
  split; [|split; [done|]; split; [done|]].
  - destruct Hs as [H1 H2 H3 H4 H5 H6 H7 H8].
    split; cbn; rewrite ?(Hp OpConnect : pConnect o2 = _), ?(Hp OpRead : pRead o2 = _), ?(Hp OpWrite : pWrite o2 = _); try done.
    + eapply kinds_insert; [exact H2|exact Ht|]. by apply (kind_error _ connection_aborted Hd); right.
    + intros Hc. destruct (H3 Hc) as (Hn & ?). split; [|done]. intros op'. by rewrite Hp.
  - eapply outstanding_same; [apply Hs|by left|exact Ht|exact (Hp OpWrite)].
Qed.

Lemma stepped_same s s' :
  sock_ok s' -> same_watch s s' -> sent s' = sent s -> outstanding (io s') = outstanding (io s) -> stepped [] s s'.
Proof.
  intros Hs (E1 & E2 & E3 & _) Hse Ho. split; [done|]. rewrite app_nil_r, Hse, Ho. intros (W1 & W2 & W3).
  split; [|done]. split; [|split]; congruence.
Qed.

Lemma doRead_ok i s :
  sock_ok s -> toks (io s) !! i = None -> st s <> INITED -> pRead (io s) = [] ->
  wp (doRead i) (fun _ s' => stepped [] s s') s.
Proof.
  intros Hs Hi Hst Hpr. unfold doRead. apply wp_bind, wp_get. rewrite Hpr, decide_False by done.
  apply wp_bind. eapply wp_on_io; [done|].
  destruct (bool_decide (st s = CLOSED) || shut_read s) eqn:Hc.
  { eapply wp_mono; [by apply fail_new|]. cbn beta. intros _ s' (? & ? & ? & ?). by apply stepped_same. }
  apply orb_false_iff in Hc as [Hcl Hsr]. apply bool_decide_eq_false in Hcl.
  destruct (newTok_spec i OpRead (PRead None []) (io s)) as (Hok1 & Hk1 & Hi1 & Hp1 & _); [apply Hs..|done|done|].
  set (o1 := newTok _ _ _ _) in *. apply wp_bind.
  destruct (attach_ok i _ o1 Hok1 Hi1 eq_refl) as (o2 & E & Ht2 & Hp2 & _ & Hok2).
  eapply wp_on_io; [exact E|]. apply wp_modify.
  assert (Ht : toks o2 = <[i := mkToken true None STARTED OpRead (PRead None [])]> (toks (io s)))
    by (by rewrite Ht2; cbn; rewrite insert_insert_eq).
  pose proof (Hp2 OpRead : pRead o2 = getPending OpRead o1 ++ [i]) as Hr. rewrite Hp1 in Hr. cbn in Hr. rewrite Hpr in Hr.
  pose proof (Hp2 OpWrite : pWrite o2 = getPending OpWrite o1) as Hw. rewrite Hp1 in Hw. cbn in Hw.
  pose proof (Hp2 OpConnect : pConnect o2 = getPending OpConnect o1) as Hcn. rewrite Hp1 in Hcn. cbn in Hcn.
  split.
  - destruct Hs as [H1 H2 H3 H4 H5 H6 H7 H8]. split; cbn; rewrite ?Hr, ?Hw, ?Hcn; cbn; try done.
    + by eapply kinds_insert; [exact H2|exact Ht|].
    + intros Hx. destruct (H8 Hx) as (? & ? & _). done.
  - intros (W1 & W2 & W3). cbn in *. rewrite app_nil_r. split; [done|]. f_equal.
    eapply outstanding_same; [apply Hs|by left|exact Ht|exact Hw].
Qed.

(** The bytes a write adds to the queue. *)
Definition accepted (buf : list (list Z)) (s : SocketChannel) : list Z :=
  if decide (st s = CONNECTED) then concat buf else [].

Lemma new_writer_kind buf : kind_ok (mkToken false None STARTED OpWrite (PWrite None 0 (iov_of buf) buf)).
Proof.
  split; [lia|]. split; [apply concat_iov_of|]. split; [|done]. apply Forall_forall. intros v Hv.
  by apply list_elem_of_filter in Hv as [? _].
Qed.

Lemma doWrite_ok i buf s :
  sock_ok s -> toks (io s) !! i = None -> st s <> INITED -> buf <> [] ->
  wp (doWrite i buf) (fun _ s' => stepped (accepted buf s) s s') s.
Proof.
  intros Hs Hi Hst Hb. unfold doWrite. apply wp_bind, wp_get. rewrite decide_False by done.
  apply wp_bind. unfold newWriter. destruct buf as [|v buf']; [done|]. set (buf := v :: buf') in *.
  eapply wp_on_io; [done|]. pose proof (new_writer_kind buf) as Hkind.
  destruct (bool_decide (st s = CLOSED) || shut_write_pending s || shut_write s) eqn:Hc.
  { eapply wp_mono; [by apply fail_new|]. cbn beta. intros _ s' (? & (E1 & E2 & E3 & _) & ? & ?). apply stepped_bad; [done|].
    intros (W1 & W2 & W3). rewrite E1, E2, E3 in *. rewrite W2, W3 in Hc.
    by rewrite bool_decide_eq_false_2 in Hc. }
  apply orb_false_iff in Hc as [Hc Hsw]. apply orb_false_iff in Hc as [Hcl Hsp]. apply bool_decide_eq_false in Hcl.
  destruct (newTok_spec i OpWrite (PWrite None 0 (iov_of buf) buf) (io s)) as (Hok1 & Hk1 & Hi1 & Hp1 & Hl1); [apply Hs..|done|done|].
  set (o1 := newTok _ _ _ _) in *. unfold accepted. case_decide as Hcd.
  - apply wp_bind. destruct (attach_ok i _ o1 Hok1 Hi1 eq_refl) as (o2 & E & Ht2 & Hp2 & _ & Hok2).
    eapply wp_on_io; [exact E|]. apply wp_modify.
    assert (Ht : toks o2 = <[i := mkToken true None STARTED OpWrite (PWrite None 0 (iov_of buf) buf)]> (toks (io s)))
      by (by rewrite Ht2; cbn; rewrite insert_insert_eq).
    pose proof (Hp2 OpRead : pRead o2 = getPending OpRead o1) as Hr. rewrite Hp1 in Hr. cbn in Hr.
    pose proof (Hp2 OpWrite : pWrite o2 = getPending OpWrite o1 ++ [i]) as Hw. rewrite Hp1 in Hw. cbn in Hw.
    pose proof (Hp2 OpConnect : pConnect o2 = getPending OpConnect o1) as Hcn. rewrite Hp1 in Hcn. cbn in Hcn.
    split.
    + destruct Hs as [H1 H2 H3 H4 H5 H6 H7 H8]. split; cbn; rewrite ?Hr, ?Hw, ?Hcn, ?Hcd; cbn; try done.
      * by eapply kinds_insert; [exact H2|exact Ht|].
      * intros _. apply H5. by left.
      * intros _. destruct (H8 Hcd) as (? & _ & ?). done.
    + intros (W1 & W2 & W3). cbn [sent io upd_watch upd_io] in *. split; [done|]. unfold outstanding. rewrite Hw, fmap_app, concat_app, <- app_assoc.
      f_equal. f_equal.
      * apply (left_of_list _ _ _ _ _ Ht). by apply (fresh_not_pending OpWrite), Hi; apply Hs.
      * rewrite fmap_cons. cbn [concat fmap list_fmap]. rewrite (left_of_insert _ _ _ _ _ Ht), decide_True by done.
        cbn [data iov_left]. by rewrite concat_iov_of, app_nil_r.
  - apply wp_ret. assert (Hp : forall op', getPending op' o1 = getPending op' (io s)) by apply Hp1.
    apply stepped_same; [|done|done|].
    + destruct Hs as [H1 H2 H3 H4 H5 H6 H7 H8].
      split; cbn; rewrite ?(Hp OpConnect : pConnect o1 = _), ?(Hp OpRead : pRead o1 = _), ?(Hp OpWrite : pWrite o1 = _); done.
    + eapply outstanding_same; [apply Hs|by left|done|exact (Hp OpWrite)].
Qed.

(** Tokens changed, and at most taken off the lists. *)
Lemma sock_ok_shrink o' s :
  sock_ok s -> io_ok o' -> kinds o' ->
  (forall op, getPending op (io s) = [] -> getPending op o' = []) ->
  length (pRead o') <= length (pRead (io s)) -> sock_ok (upd_io o' s).
Proof.
  intros [H1 H2 H3 H4 H5 H6 H7 H8] Hok Hk Hp Hl.
  assert (Hr := Hp OpRead). assert (Hw := Hp OpWrite). assert (Hc := Hp OpConnect). cbn in Hr, Hw, Hc.
  split; cbn; try done.
  - intros Hx. destruct (H3 Hx) as (Hn & ?). split; [|done]. intros op. by apply Hp.
  - lia.
  - intros Hx. destruct (H6 Hx) as (? & ? & ?). auto.
  - intros Hx. destruct (H7 Hx) as (? & ? & ?). auto.
  - intros Hx. destruct (H8 Hx) as (? & HW & HR). split; [auto|]. split; intros Hne.
    + apply HW. intros E. by apply Hne, Hw.
    + apply HR. intros E. by apply Hne, Hr.
Qed.

(** A token replaced by one in the same state. *)
Lemma tok_update i t t' s :
  sock_ok s -> toks (io s) !! i = Some t -> parent_ t' = parent_ t -> op_ t' = op_ t -> s_ t' = s_ t ->
  (s_ t' <> STARTED -> task_ t' = None) -> kind_ok t' -> iov_left (data t') = iov_left (data t) ->
  stepped [] s (upd_io (setTok i t' (io s)) s).
Proof.
  intros Hs Hi E1 E2 E3 Htask Hk Hiov. apply stepped_same; try done.
  - apply sock_ok_shrink; try done.
    + by eapply setTok_ok; [apply Hs|..].
    + eapply kinds_insert; [apply Hs|done|done].
  - unfold outstanding. cbn. f_equal. apply list_fmap_ext. intros _ j _.
    rewrite (left_of_insert (io s) (setTok i t' (io s)) i t' j eq_refl). case_decide as Hj; [|done]. subst.
    unfold left_of. by rewrite Hi, Hiov.
Qed.

Lemma park_stepped k i t s :
  sock_ok s -> toks (io s) !! i = Some t -> s_ t = STARTED ->
  exists s', on_io (park (Some k) i) s = (Ret tt, s') /\ stepped [] s s'.
Proof.
  intros Hs Hi Hst. unfold on_io, park, with_tok. rewrite Hi, decide_True by done. cbn. eexists. split; [done|].
  eapply tok_update; try done. cbn. pose proof (so_kind s Hs i t Hi) as Hk. unfold kind_ok in *. by cbn; rewrite Hst in *.
Qed.

Definition has_tok (i : nat) (op : Operation) (s : SocketChannel) : Prop :=
  exists t, toks (io s) !! i = Some t /\ op_ t = op.

Lemma writer_poll_ok k i s :
  sock_ok s -> has_tok i OpWrite s -> wp (writer_poll (Some k) i) (fun _ s' => stepped [] s s') s.
Proof.
  intros Hs (t & Hi & Hop). pose proof (so_kind s Hs i t Hi) as Hk. unfold kind_ok in Hk. rewrite Hop in Hk.
  destruct (data t) as [| |ec w iov buf] eqn:Hd; try done.
  unfold wp, writer_poll, tok_state. rewrite Hi. cbn. rewrite Hd. destruct (s_ t) eqn:Hst.
  - destruct (park_stepped k i t s Hs Hi Hst) as (s' & E & Hstep). unfold eff_bind. rewrite E. by eexists _, s'.
  - pose proof (stepped_refl s Hs). destruct ec; by eexists _, s.
  - pose proof (stepped_refl s Hs). by eexists _, s.
Qed.

Lemma connect_poll_ok k i s :
  sock_ok s -> has_tok i OpConnect s -> wp (connect_poll (Some k) i) (fun _ s' => stepped [] s s') s.
Proof.
  intros Hs (t & Hi & Hop). pose proof (so_kind s Hs i t Hi) as Hk. unfold kind_ok in Hk. rewrite Hop in Hk.
  destruct (data t) as [ec| |] eqn:Hd; try done.
  unfold wp, connect_poll, tok_state. rewrite Hi. cbn. rewrite Hd. destruct (s_ t) eqn:Hst.
  - destruct (park_stepped k i t s Hs Hi Hst) as (s' & E & Hstep). unfold eff_bind. rewrite E. by eexists _, s'.
  - pose proof (stepped_refl s Hs). destruct ec; by eexists _, s.
  - pose proof (stepped_refl s Hs). by eexists _, s.
Qed.

Lemma reader_poll_ok k i s :
  sock_ok s -> has_tok i OpRead s -> wp (reader_poll (Some k) i) (fun _ s' => stepped [] s s') s.
Proof.
  intros Hs (t & Hi & Hop). pose proof (so_kind s Hs i t Hi) as Hk. unfold kind_ok in Hk. rewrite Hop in Hk.
  destruct (data t) as [|ec l|] eqn:Hd; try done.
  assert (Htake : exists s', on_io (setData (PRead ec []) i) s = (Ret tt, s') /\ stepped [] s s').
  { unfold on_io, setData, with_tok. rewrite Hi. eexists. split; [done|].
    eapply tok_update; try done; [apply (ok_task _ (so_io s Hs) i t Hi)| |by rewrite Hd].
    unfold kind_ok. cbn. by rewrite Hop. }
  destruct Htake as (s1 & E1 & Hst1). pose proof (stepped_refl s Hs).
  unfold wp, reader_poll, tok_state. rewrite Hi. cbn. rewrite Hd. destruct (s_ t) eqn:Hst.
  - destruct l; [|unfold eff_bind; rewrite E1; by eexists _, s1].
    destruct (park_stepped k i t s Hs Hi Hst) as (s' & E & Hstep). unfold eff_bind. rewrite E. by eexists _, s'.
  - destruct l, ec; try (by eexists _, s); unfold eff_bind; rewrite E1; by eexists _, s1.
  - by eexists _, s.
Qed.

Lemma destroy_sock_ok i s :
  sock_ok s -> is_Some (toks (io s) !! i) ->
  wp (on_io (destroy i)) (fun _ s' => sock_ok s' /\ (i ∉ pWrite (io s) -> stepped [] s s')) s.
Proof.
  intros Hs (t & Hi). destruct (destroy_ok i t (io s) (so_io s Hs) Hi) as (o' & E & Hok' & Ht & Hp).
  eapply wp_on_io; [exact E|]. assert (Hs' : sock_ok (upd_io o' s)).
  { apply sock_ok_shrink; try done.
    - intros j x. rewrite Ht. intros Hj. apply lookup_delete_Some in Hj as [_ Hj]. by eapply (so_kind s Hs).
    - intros op Hn. by rewrite Hp, Hn.
    - rewrite (Hp OpRead : pRead o' = _). apply length_filter. }
  split; [done|]. intros Hni. apply stepped_same; try done. unfold outstanding. cbn.
  rewrite (Hp OpWrite : pWrite o' = _). cbn. rewrite filter_ne_notin by done. f_equal. apply list_fmap_ext. intros n j Hj.
  unfold left_of. rewrite Ht, lookup_delete_ne; [done|]. intros ->. by apply list_elem_of_lookup_2 in Hj.
Qed.

Lemma shutdownWrite_ok s : sock_ok s -> wp shutdownWrite (fun _ s' => stepped [] s s') s.
Proof.
  intros Hs. unfold shutdownWrite. apply wp_bind, wp_get. destruct (pWrite (io s)) eqn:Hpw.
  - eapply wp_mono; [by apply shutdownWriteNow_ok|]. cbn beta. intros _ s' (? & ? & _). by apply stepped_bad.
  - apply wp_modify, stepped_bad; [|not_good]. by destruct Hs; split.
Qed.

(** ** Runs *)

(** What a client and the event loop can do with a socket.  [i] names the
    token the call makes, polls or destroys. *)
Inductive sop :=
| SConnect (i : nat) (connect : bool * error_code)
| SRead (i : nat)
| SWrite (i : nat) (buf : list (list Z))
| SShutdownWrite
| SShutdownWriteNow
| SCleanup
| SEvent (error read write : bool) (r : list recvret) (w : list sendret) (conn : bool * error_code)
| SPollConnect (k : Task) (i : nat)
| SPollRead (k : Task) (i : nat)
| SPollWrite (k : Task) (i : nat)
| SDestroy (i : nat).

Section Runs.
Context (prepareBuffer : list Z -> nat).

Definition ignore {A} (m : M A) : M unit := do! _ <- m; eff_ret tt.

Definition sexec (o : sop) : M unit :=
  match o with
  | SConnect i c => doConnect i c
  | SRead i => doRead i
  | SWrite i buf => doWrite i buf
  | SShutdownWrite => shutdownWrite
  | SShutdownWriteNow => shutdownWriteNow
  | SCleanup => cleanup
  | SEvent e r w rs ws c => fun s => onEvent prepareBuffer e r w c (upd_sys rs ws s)
  | SPollConnect k i => ignore (connect_poll (Some k) i)
  | SPollRead k i => ignore (reader_poll (Some k) i)
  | SPollWrite k i => ignore (writer_poll (Some k) i)
  | SDestroy i => on_io (destroy i)
  end.

(** A call makes a new token, with a chain that is not null; a poll and a
    destruction are of a token that exists. *)
Definition sop_ok (o : sop) (s : SocketChannel) : Prop :=
  match o with
  | SConnect i _ | SRead i => toks (io s) !! i = None
  | SWrite i buf => toks (io s) !! i = None /\ buf <> []
  | SPollConnect _ i => has_tok i OpConnect s
  | SPollRead _ i => has_tok i OpRead s
  | SPollWrite _ i => has_tok i OpWrite s
  | SDestroy i => is_Some (toks (io s) !! i)
  | _ => True
  end.

(** The bytes the operation queues. *)
Definition queued (o : sop) (s : SocketChannel) : list Z :=
  match o with SWrite _ buf => accepted buf s | _ => [] end.

(** No write is abandoned half way. *)
Definition keeps_writes (o : sop) (s : SocketChannel) : Prop :=
  match o with SDestroy i => i ∉ pWrite (io s) | _ => True end.

Fixpoint srun (os : list sop) (s : SocketChannel) : list (res unit) * SocketChannel :=
  match os with
  | [] => ([], s)
  | o :: os =>
      let '(r, s1) := sexec o s in
      let '(rs, s2) := srun os s1 in (r :: rs, s2)
  end.

(** The run is one a client can make, and [l] is all it queued. *)
Fixpoint client_run (os : list sop) (s : SocketChannel) (l : list Z) : Prop :=
  match os with
  | [] => l = []
  | o :: os => sop_ok o s /\ exists l', l = queued o s ++ l' /\ client_run os (snd (sexec o s)) l'
  end.
Fixpoint keeps_all (os : list sop) (s : SocketChannel) : Prop :=
  match os with
  | [] => True
  | o :: os => keeps_writes o s /\ keeps_all os (snd (sexec o s))
  end.

(** A call that returned or threw, as opposed to one that hit an assertion,
    undefined behaviour or a loop without end. *)
Definition proper (r : res unit) : Prop :=
  match r with Ret _ | Throw _ => True | _ => False end.

Context (prepare_pos : forall l, 0 < prepareBuffer l).

Lemma wp_ignore {A} (m : M A) (P : SocketChannel -> Prop) s : wp m (fun _ s' => P s') s -> wp (ignore m) (fun _ s' => P s') s.
Proof. intros H. apply wp_bind. eapply wp_mono; [exact H|]. cbn beta. intros a s' Hp. by apply wp_ret. Qed.

Lemma sexec_ok o s r s' :
  sock_ok s -> sop_ok o s -> sexec o s = (r, s') ->
  proper r /\ sock_ok s' /\ (keeps_writes o s -> stepped (queued o s) s s').
Proof using prepare_pos.
  intros Hs Ho E.
  assert (Hwp : forall P : SocketChannel -> Prop, wp (sexec o) (fun _ s' => P s') s -> proper r /\ P s').
  { intros P (a & s2 & E2 & HP). rewrite E in E2. by simplify_eq. }
  assert (Hstep : wp (sexec o) (fun _ s' => stepped (queued o s) s s') s -> proper r /\ sock_ok s' /\ (keeps_writes o s -> stepped (queued o s) s s')).
  { intros H. destruct (Hwp _ H) as [? [? ?]]. done. }
  assert (Hthrow : forall e, queued o s = [] -> sexec o s = (Throw e, s) -> proper r /\ sock_ok s' /\ (keeps_writes o s -> stepped (queued o s) s s')).
  { intros e Hq E2. rewrite E in E2. simplify_eq. rewrite Hq. split; [done|]. split; [done|]. intros _. by apply stepped_refl. }
  destruct o; cbn [sop_ok queued] in *.
  - destruct (decide (st s = INITED)) as [Hi|Hi]; [by apply Hstep, doConnect_ok|].
    eapply Hthrow; [done|]. cbn. unfold doConnect, eff_bind, get. by rewrite decide_True.
  - destruct (pRead (io s)) eqn:Hp.
    + destruct (decide (st s = INITED)) as [Hi|Hi]; [|by apply Hstep, doRead_ok].
      eapply Hthrow; [done|]. cbn. unfold doRead, eff_bind, get. by rewrite Hp, decide_True.
    + eapply Hthrow; [done|]. cbn. unfold doRead, eff_bind, get. by rewrite Hp.
  - destruct Ho as [Hi Hb]. destruct (decide (st s = INITED)) as [Hst|Hst]; [|by apply Hstep, doWrite_ok].
    eapply Hthrow; [unfold accepted; by rewrite Hst|]. cbn. unfold doWrite, eff_bind, get. by rewrite decide_True.
  - by apply Hstep, shutdownWrite_ok.
  - apply Hstep. eapply wp_mono; [by apply shutdownWriteNow_ok|]. cbn beta. intros _ x (? & ? & _). by apply stepped_bad.
  - by apply Hstep, cleanup_stepped.
  - assert (Hs0 : sock_ok (upd_sys r0 w s)) by (by destruct Hs; split).
    destruct error.
    + injection E as <- <-. split; [done|]. split; [exact Hs0|]. intros _. by apply (stepped_same s (upd_sys r0 w s)).
    + apply Hstep. cbn [sexec]. destruct (onEvent_ok prepareBuffer prepare_pos false read write conn _ Hs0 eq_refl) as (a & s2 & E2 & H2).
      exists a, s2. split; [done|]. destruct H2 as [? H2]. split; [done|]. intros Hw. by destruct (H2 Hw).
  - by apply Hstep, wp_ignore, connect_poll_ok.
  - by apply Hstep, wp_ignore, reader_poll_ok.
  - by apply Hstep, wp_ignore, writer_poll_ok.
  - destruct (Hwp (fun s' => sock_ok s' /\ (i ∉ pWrite (io s) -> stepped [] s s')) (destroy_sock_ok i s Hs Ho)) as (? & ? & ?). done.
Qed.

Lemma srun_ok os s l rs s' :
  sock_ok s -> client_run os s l -> srun os s = (rs, s') ->
  Forall proper rs /\ sock_ok s' /\
  (keeps_all os s -> writable s' -> writable s /\ sent s' ++ outstanding (io s') = (sent s ++ outstanding (io s)) ++ l).
Proof using prepare_pos.
  revert s l rs. induction os as [|o os IH]; intros s l rs Hs Hc E; cbn in *.
  - simplify_eq. split; [done|]. split; [done|]. intros _ ?. by rewrite app_nil_r.
  - destruct Hc as (Ho & l' & -> & Hc). destruct (sexec o s) as [r s1] eqn:E1. destruct (srun os s1) as [rs2 s2] eqn:E2.
    simplify_eq. destruct (sexec_ok o s r s1 Hs Ho E1) as (Hp & Hs1 & Hstep).
    destruct (IH s1 l' rs2 Hs1 Hc E2) as (Hps & Hs' & Hw). split; [by constructor|]. split; [done|].
    intros [Hk Hks] Hwr. destruct (Hw Hks Hwr) as [Hw1 ->]. destruct (Hstep Hk) as [_ H1]. destruct (H1 Hw1) as [? ->].
    by rewrite <- app_assoc.
Qed.
End Runs.

(** ** The theorems *)

(** [src/include/futures/io/AsyncSocket.h:39-44] SocketChannel::SocketChannel *)
Definition new_socket : SocketChannel :=
  mkSock empty_io INITED false false false false false false [] [] [].
(** [src/include/futures/io/AsyncSocket.h:46-58] SocketChannel::SocketChannel, for an accepted connection *)
Definition accepted_socket : SocketChannel :=
  mkSock empty_io CONNECTED false false false false false true [] [] [].

Lemma empty_io_ok : io_ok (@empty_io payload) /\ kinds empty_io.
Proof.
  split; [|by intros i t]. split.
  - intros []; constructor.
  - intros [] i; cbn; split; (by intros ?%not_elem_of_nil) || (by intros (t & ? & _)).
  - by intros i t.
  - by intros i t.
  - done.
Qed.

Lemma initial_ok s : s = new_socket \/ s = accepted_socket -> sock_ok s.
Proof. destruct empty_io_ok. intros [-> | ->]; split; cbn; try done; try lia; by intros [|]. Qed.

(** C13: the socket's state machine is safe.  Whatever a client does with a
    socket -- connecting, reading, writing, polling and dropping the futures,
    shutting down -- and whatever the event loop and the kernel answer, no
    call hits an assertion, corrupts an intrusive list or loops forever; and
    the invariant holds: the pending lists contain exactly the attached
    tokens, a finished token has no task left waiting, the socket is linked
    in the executor iff an operation is pending, there is at most one reader,
    a closed socket has no operation pending and both its watchers stopped, a
    connected one with pending writers (a pending reader) watches for
    writability (readability), and a writer that is done without an error has
    written all of its chain. *)
Theorem socket_run_safe prepareBuffer os s l rs s' :
  (forall inbox, 0 < prepareBuffer inbox) ->
  s = new_socket \/ s = accepted_socket ->
  client_run prepareBuffer os s l -> srun prepareBuffer os s = (rs, s') ->
  Forall proper rs /\ sock_ok s'.
Proof.
  intros Hpos Hini Hc E. destruct (srun_ok prepareBuffer Hpos os s l rs s' (initial_ok s Hini) Hc E) as (? & ? & _). done.
Qed.

(** C14: written data is neither lost, duplicated nor reordered.  At any time
    in the life of a socket whose writing side is open, and provided no write
    was dropped while it was queued, the bytes the kernel has accepted
    followed by the bytes still queued are exactly the bytes of all the
    writes made while it was connected, in the order of the calls -- however
    the kernel splits them. *)
Theorem socket_stream_integrity prepareBuffer os s l rs s' :
  (forall inbox, 0 < prepareBuffer inbox) ->
  s = new_socket \/ s = accepted_socket ->
  client_run prepareBuffer os s l -> keeps_all prepareBuffer os s -> srun prepareBuffer os s = (rs, s') ->
  writable s' -> sent s' ++ outstanding (io s') = l.
Proof.
  intros Hpos Hini Hc Hk E Hw. destruct (srun_ok prepareBuffer Hpos os s l rs s' (initial_ok s Hini) Hc E) as (_ & _ & H).
  destruct (H Hk Hw) as [_ ->]. by destruct Hini as [-> | ->].
Qed.

Definition witness_run : list sop :=
  [SWrite 0 [[1; 2]; []; [3; 4]]%Z; SWrite 1 [[5]]%Z; SPollWrite 7 0;
   SEvent false false true [] [WSent 3] (true, None); SEvent false false true [] [WSent 1; WSent 0] (true, None);
   SPollWrite 7 0].

Ltac client_run_tac :=
  repeat (split; [first [vm_compute; reflexivity | vm_compute; exact I
                        | vm_compute; split; [reflexivity|discriminate]
                        | eexists; split; [vm_compute; reflexivity|reflexivity]]
                 | eexists; split; [vm_compute; reflexivity|]]);
  vm_compute; reflexivity.

Lemma socket_run_safe_witness : sock_ok (snd (srun (fun _ => 1) witness_run accepted_socket)).
Proof.
  assert (Hc : exists l, client_run (fun _ => 1) witness_run accepted_socket l).
  { eexists. unfold witness_run. cbn [client_run]. client_run_tac. }
  destruct Hc as (l & Hc).
  exact (proj2 (socket_run_safe (fun _ => 1) witness_run accepted_socket l
    (fst (srun (fun _ => 1) witness_run accepted_socket)) _ (fun _ => le_n 1) (or_intror eq_refl) Hc (surjective_pairing _))).
Defined.

Lemma socket_stream_integrity_witness :
  let s' := snd (srun (fun _ => 1) witness_run accepted_socket) in
  sent s' = [1; 2; 3; 4]%Z /\ sent s' ++ outstanding (io s') = [1; 2; 3; 4; 5]%Z.
Proof.
  split; [vm_compute; reflexivity|].
  apply (socket_stream_integrity (fun _ => 1) witness_run accepted_socket [1; 2; 3; 4; 5]%Z
    (fst (srun (fun _ => 1) witness_run accepted_socket)) _ (fun _ => le_n 1) (or_intror eq_refl)).
  - unfold witness_run. cbn [client_run]. client_run_tac.
  - vm_compute. tauto.
  - apply surjective_pairing.
  - vm_compute. split; [discriminate|]. split; reflexivity.
Defined.

(** A write made while the connection is being established is accepted, but
    its token is attached to nothing: when the connection is up the socket
    has no writer and stops watching for writability; nothing is sent and
    the future stays pending. *)
Lemma write_while_connecting_lost :
  let s := snd (srun (fun _ => 1)
    [SConnect 0 (false, None); SWrite 1 [[1; 2]]%Z; SPollWrite 7 1;
     SEvent false false true [] [WSent 2; WSent 2] (true, None)] new_socket) in
  st s = CONNECTED /\ sent s = [] /\ pWrite (io s) = [] /\ wio_ s = false /\ woken (io s) = [] /\
  fst (writer_poll (Some 7) 1 s) = Ret not_ready.
Proof. vm_compute. repeat split; reflexivity. Qed.

(** A connection attempt that fails at once leaves the connect token pending:
    the error is stored in it, but it is attached as if the attempt were in
    progress, and no watcher is started. *)
Lemma connect_error_never_reported :
  let s := snd (srun (fun _ => 1) [SConnect 0 (false, Some 13%Z); SPollConnect 7 0] new_socket) in
  st s = INITED /\ pConnect (io s) = [0] /\ wio_ s = false /\
  tok_state 0 s = Some (STARTED, PConn (Some 13%Z)) /\ fst (connect_poll (Some 7) 0 s) = Ret not_ready.
Proof. vm_compute. repeat split; reflexivity. Qed.

(** A graceful shutdown with two writes queued flushes only the first: as
    soon as it is done the socket is shut down and the second write fails,
    although the kernel would have taken it. *)
Lemma shutdown_drops_queued_writes :
  let s := snd (srun (fun _ => 1)
    [SWrite 0 [[1; 2]]%Z; SWrite 1 [[3]]%Z; SShutdownWrite;
     SEvent false false true [] [WSent 2; WSent 1] (true, None)] accepted_socket) in
  sent s = [1; 2]%Z /\
  tok_state 0 s = Some (DONE, PWrite None 2 [] [[1; 2]]%Z) /\
  tok_state 1 s = Some (DONE, PWrite connection_aborted 0 [[3]]%Z [[3]]%Z).
Proof. vm_compute. repeat split; reflexivity. Qed.
