(* ===== verification/Framed.v ===== *)
(** * Framed streams and sinks

    Models [src/include/futures/io/IoFuture.h]: [FramedStream], which decodes
    the bytes a channel receives into a stream of items, and [FramedSink],
    which encodes items and writes them to a channel; and the flush future of
    [src/include/futures/AsyncSink.h].  The decoder is any instance of
    [Decoder]; the theorem about the stream is proved against the interface
    [is_frame] that the decoders of [Codec.v] are shown to meet. *)

From S2P Require Import Prelude Core Channels IOBufQueue Codec IoObject Socket SocketLaws.
Local Open Scope cpp_scope.

(** ** FramedStream *)
Section FramedStream.
Context {D T : Type} `{!Decoder D T}.

(** The token's fields and those of [CompletionToken] it uses; [q_] is the
    bytes of the queue. *)
(** [src/include/futures/io/IoFuture.h:22-26] FramedStreamReader *)
Record FramedStreamReader := mkReader {
  q_ : list Z; codec_ : D; eof_ : bool; readable_ : bool;
  r_state : State; r_ec : error_code; r_task : option Task }.

Definition new_reader (d : D) : FramedStreamReader := mkReader [] d false false STARTED None None.

(** [CompletionToken::notify] *)
Definition r_notify (r : FramedStreamReader) : FramedStreamReader * list Task :=
  (mkReader (q_ r) (codec_ r) (eof_ r) (readable_ r) (r_state r) (r_ec r) None,
   match r_task r with Some k => [k] | None => [] end).
(** [CompletionToken::notifyDone], and [cleanup], of the token. *)
Definition r_finish (x : State) (r : FramedStreamReader) : FramedStreamReader * list Task :=
  if decide (r_state r = STARTED) then
    r_notify (mkReader (q_ r) (codec_ r) (eof_ r) (readable_ r) x (r_ec r) (r_task r))
  else (r, []).

(** [l]: the bytes received in the space [prepareBuffer] reserved. *)
(** [src/include/futures/io/IoFuture.h:32-42] FramedStreamReader::prepareBuffer, dataReady *)
Definition r_dataReady (l : list Z) (r : FramedStreamReader) : FramedStreamReader * list Task :=
  r_notify (mkReader (q_ r ++ l) (codec_ r) (eof_ r)
              (match l with [] => readable_ r | _ => true end) (r_state r) (r_ec r) (r_task r)).

(** [src/include/futures/io/IoFuture.h:28-30] FramedStreamReader::readEof *)
Definition r_readEof : FramedStreamReader -> FramedStreamReader * list Task := r_finish DONE.

(** [src/include/futures/io/Channel.h:22-25] ReaderCompletionToken::readError *)
Definition r_readError (ec : error_code) (r : FramedStreamReader) : FramedStreamReader * list Task :=
  r_finish DONE (mkReader (q_ r) (codec_ r) (eof_ r) (readable_ r) (r_state r) ec (r_task r)).

Definition with_q (d : D) (s : list Z) (r : FramedStreamReader) : FramedStreamReader :=
  mkReader s d (eof_ r) (readable_ r) (r_state r) (r_ec r) (r_task r).
Definition with_flags (e b : bool) (r : FramedStreamReader) : FramedStreamReader :=
  mkReader (q_ r) (codec_ r) e b (r_state r) (r_ec r) (r_task r).

(** [catch (std::exception &e)] around a decoder call. *)
Definition caught {A} (e : exn) (r : FramedStreamReader) : res (Poll A) * FramedStreamReader :=
  if is_std e then (Ret (EXCEPTION (Some e)), r) else (Throw e, r).

(** [src/include/futures/io/IoFuture.h:90-101] FramedStreamReader::pollOneItem, end of the loop body *)
Definition park_or_eof (cur : option Task) (r : FramedStreamReader)
  (again : FramedStreamReader -> res (Poll (option T)) * FramedStreamReader) : res (Poll (option T)) * FramedStreamReader :=
  if eof_ r || readable_ r then (Abort "assert", r)
  else if decide (r_state r = STARTED) then
    match CurrentTask_park cur with
    | Ret k => (Ret not_ready, mkReader (q_ r) (codec_ r) (eof_ r) (readable_ r) (r_state r) (r_ec r) (Some k))
    | Throw e => (Throw e, r)
    | Abort a => (Abort a, r)
    | OutOfFuel => (OutOfFuel, r)
    end
  else again (with_flags true true r).

(** [src/include/futures/io/IoFuture.h:60-102] FramedStreamReader::pollOneItem *)
Fixpoint pollOneItem_loop (fuel : nat) (cur : option Task) (r : FramedStreamReader)
  : res (Poll (option T)) * FramedStreamReader :=
  match fuel with
  | 0 => (OutOfFuel, r)
  | S fuel =>
      if readable_ r then
        if eof_ r then
          match q_ r with
          | [] => (Ret (VALUE (Some None)), r)
          | _ =>
              match decodeEof (codec_ r) (q_ r) with
              | (Ret v, d, s) => (Ret (VALUE (Some (Some v))), with_q d s r)
              | (Throw e, d, s) => caught e (with_q d s r)
              | (Abort a, d, s) => (Abort a, with_q d s r)
              | (OutOfFuel, d, s) => (OutOfFuel, with_q d s r)
              end
          end
        else
          match q_ r with
          | [] => park_or_eof cur (with_flags (eof_ r) false r) (pollOneItem_loop fuel cur)
          | _ =>
              match decode (codec_ r) (q_ r) with
              | (Ret (Some v), d, s) => (Ret (VALUE (Some (Some v))), with_q d s r)
              | (Ret None, d, s) =>
                  park_or_eof cur (with_flags (eof_ r) false (with_q d s r)) (pollOneItem_loop fuel cur)
              | (Throw e, d, s) => caught e (with_q d s r)
              | (Abort a, d, s) => (Abort a, with_q d s r)
              | (OutOfFuel, d, s) => (OutOfFuel, with_q d s r)
              end
          end
      else park_or_eof cur r (pollOneItem_loop fuel cur)
  end.

(** The second round always returns. *)
(** [src/include/futures/io/IoFuture.h:44-52] FramedStreamReader::pollStream *)
Definition pollStream (cur : option Task) (r : FramedStreamReader) : res (Poll (option T)) * FramedStreamReader :=
  match r_state r with
  | CANCELLED => (Ret cancelled, r)
  | _ =>
      match r_ec r with
      | Some _ => (Ret (EXCEPTION (Some (IOError "read"))), r)
      | None => pollOneItem_loop 2 cur r
      end
  end.

(** *** Driving a reader *)
Inductive fevent := FData (l : list Z) | FEof | FPoll (k : Task).

Definition fstep (e : fevent) (r : FramedStreamReader)
  : list (res (Poll (option T))) * FramedStreamReader * list Task :=
  match e with
  | FData l => let '(r', w) := r_dataReady l r in ([], r', w)
  | FEof => let '(r', w) := r_readEof r in ([], r', w)
  | FPoll k => let '(o, r') := pollStream (Some k) r in ([o], r', [])
  end.

Fixpoint frun (es : list fevent) (r : FramedStreamReader) : list (res (Poll (option T))) * FramedStreamReader :=
  match es with
  | [] => ([], r)
  | e :: es =>
      let '(o, r1, _) := fstep e r in
      let '(os, r2) := frun es r1 in (o ++ os, r2)
  end.

Definition fdata (es : list fevent) : list Z :=
  concat ((fun e => match e with FData l => l | _ => [] end) <$> es).
Definition no_eof (es : list fevent) : Prop := Forall (fun e => match e with FEof => False | _ => True end) es.

Definition item (t : T) : res (Poll (option T)) := Ret (VALUE (Some (Some t))).
Definition fitems (os : list (res (Poll (option T)))) : list T :=
  omap (fun o => match o with Ret (Try_.VALUE (Some (Some t))) => Some t | _ => None end) os.
Definition calm (o : res (Poll (option T))) : Prop := o = Ret not_ready \/ exists t, o = item t.
End FramedStream.
Arguments FramedStreamReader : clear implicits.

(** ** FramedSink *)
Section FramedSink.
Context {T : Type}.
(** [EncoderBase::encode]: appends to the queue, or throws. *)
Context (encode : T -> list Z -> res unit * list Z).

(** [src/include/futures/io/IoFuture.h:154-160] FramedSink *)
Record FramedSink := mkSink { sq_ : list Z; write_req_ : option nat }.

(** [src/include/futures/io/IoFuture.h:130-137] FramedSink::startSend *)
Definition startSend (item : T) (k : FramedSink) : res (Try unit) * FramedSink :=
  match encode item (sq_ k) with
  | (Ret _, s) => (Ret (VALUE tt), mkSink s (write_req_ k))
  | (Throw e, s) => (if is_std e then Ret (EXCEPTION (Some e)) else Throw e, mkSink s (write_req_ k))
  | (Abort a, s) => (Abort a, mkSink s (write_req_ k))
  | (OutOfFuel, s) => (OutOfFuel, mkSink s (write_req_ k))
  end.

(** [i] is the identity of the token, should one be made; the queue's chain
    is taken as one buffer. *)
(** [src/include/futures/io/IoFuture.h:139-152] FramedSink::pollComplete *)
Definition pollComplete (cur : option Task) (i : nat) (k : FramedSink) : M (Poll unit * FramedSink) :=
  let poll_req (j : nat) (k : FramedSink) : M (Poll unit * FramedSink) :=
    do! r <- writer_poll cur j;
    match r with
    | Try_.EXCEPTION e => eff_ret (EXCEPTION e, k)
    | Try_.VALUE (Some _) =>
        do! _ <- on_io (destroy j);
        eff_ret (makePollReady tt, mkSink (sq_ k) None)
    | Try_.VALUE None => eff_ret (not_ready, k)
    | Try_.NOTHING => eff_throw UsingUninitializedTry
    end in
  match write_req_ k with
  | Some j => poll_req j k
  | None =>
      match sq_ k with
      | [] => eff_ret (makePollReady tt, k)
      | l => do! _ <- doWrite i [l]; poll_req i (mkSink [] (Some i))
      end
  end.

(** [src/include/futures/AsyncSink.h:38-48] FlushSinkFuture; [sink_] may be null *)
Definition FlushSinkFuture_poll (cur : option Task) (i : nat) (k : option FramedSink) : M (Poll unit * option FramedSink) :=
  match k with
  | None => eff_throw (FutureCancelledException CR_Unknown)
  | Some k => do! pk <- pollComplete cur i k; eff_ret (fst pk, Some (snd pk))
  end.
End FramedSink.

(** ** The stream yields the frames *)
Section StreamLaws.
Context {D T : Type} `{!Decoder D T}.
Implicit Types (r : FramedStreamReader D).

(** The bytes in the queue and to come are the frames of the items to come. *)
Definition framed (d : D) (bytes : list Z) (ts : list T) : Prop :=
  exists fs, Forall2 (is_frame d) fs ts /\ bytes = concat fs.

Lemma framed_head d q fut ts :
  framed d (q ++ fut) ts -> q <> [] ->
  exists t ts', ts = t :: ts' /\
    ((exists q', decode d q = (Ret (Some t), d, q') /\ framed d (q' ++ fut) ts') \/
     (decode d q = (Ret None, d, q) /\ fut <> [])).
Proof.
  intros (fs & HF & E) Hq. destruct HF as [|f t fs ts Hf HF].
  { cbn in E. by apply app_nil in E as [-> _]. }
  exists t, ts. split; [done|]. destruct Hf as (Hne & Hdec & Hcut). cbn in E.
  destruct (decide (length f <= length q)) as [Hle|Hgt].
  - left. assert (Hqf : q = f ++ drop (length f) q).
    { rewrite <- (take_drop (length f) q) at 1. f_equal.
      rewrite <- (take_app_le q fut), E, take_app_le by lia. by rewrite take_ge by lia. }
    exists (drop (length f) q). split; [rewrite Hqf at 1; apply Hdec|]. exists fs. split; [done|].
    rewrite Hqf, <- app_assoc in E. by apply app_inv_head in E.
  - right. assert (Hfq : f = q ++ drop (length q) f).
    { rewrite <- (take_drop (length q) f) at 1. f_equal.
      rewrite <- (take_app_le f (concat fs)), <- E, take_app_le by lia. by rewrite take_ge by lia. }
    destruct (drop (length q) f) as [|x y] eqn:Ed; [rewrite app_nil_r in Hfq; subst; lia|].
    split; [by eapply Hcut|]. intros ->. rewrite app_nil_r in E. apply (f_equal length) in E.
    rewrite length_app in E. lia.
Qed.

Lemma framed_nil d bytes ts : framed d bytes ts -> bytes = [] <-> ts = [].
Proof.
  intros (fs & HF & ->). destruct HF as [|f t fs ts (Hne & _) HF]; [done|]. cbn. split; [|done].
  by intros [? _]%app_nil.
Qed.

(** While the connection is open. *)
Record open_inv (d : D) (fut : list Z) (ts : list T) r : Prop := {
  oi_state : r_state r = STARTED; oi_ec : r_ec r = None; oi_eof : eof_ r = false; oi_codec : codec_ r = d;
  oi_framed : framed d (q_ r ++ fut) ts;
  oi_stuck : readable_ r = false -> q_ r = [] \/ decode d (q_ r) = (Ret None, d, q_ r) }.

Lemma open_poll d fut ts r k :
  open_inv d fut ts r ->
  exists o r', pollStream (Some k) r = (o, r') /\
    ((o = Ret not_ready /\ open_inv d fut ts r' /\ r_task r' = Some k) \/
     (exists t ts', o = item t /\ ts = t :: ts' /\ open_inv d fut ts' r')).
Proof.
  destruct r as [q c e b x ec tk]. intros [Hst Hec He Hc Hf Hs]. cbn in *. subst. unfold pollStream. cbn.
  destruct b; cbn.
  - destruct q as [|z q].
    + cbn. eexists _, _. split; [done|]. left. split; [done|]. split; [|done]. split; cbn; auto.
    + destruct (framed_head d (z :: q) fut ts Hf ltac:(done)) as (t & ts' & -> & [(q' & E & Hf')|[E Hne]]); rewrite E; cbn.
      * eexists _, _. split; [done|]. right. exists t, ts'. split; [done|]. split; [done|]. split; cbn; auto. done.
      * eexists _, _. split; [done|]. left. split; [done|]. split; [|done]. split; cbn; auto.
  - eexists _, _. split; [done|]. left. split; [done|]. split; [|done]. split; cbn; auto.
Qed.

Lemma open_data d l fut ts r :
  open_inv d (l ++ fut) ts r -> open_inv d fut ts (fst (r_dataReady l r)).
Proof.
  destruct r as [q c e b x ec tk]. intros [Hst Hec He Hc Hf Hs]. cbn in *. subst.
  split; cbn; auto; [by rewrite <- app_assoc|]. destruct l; [by rewrite app_nil_r|done].
Qed.

Lemma open_run d es fut ts r :
  open_inv d (fdata es ++ fut) ts r -> no_eof es ->
  let '(os, r') := frun es r in
  Forall calm os /\ exists rest, ts = fitems os ++ rest /\ open_inv d fut rest r'.
Proof.
  revert ts r. induction es as [|e es IH]; intros ts r Hinv He; cbn [frun].
  - split; [done|]. by exists ts.
  - apply Forall_cons in He as [He Hes]. destruct e as [l| |k]; [|done|]; cbn [fstep].
    + destruct (r_dataReady l r) as [r1 w] eqn:E1. specialize (IH ts r1).
      destruct (frun es r1) as [os r2]. apply IH; [|done].
      replace r1 with (fst (r_dataReady l r)) by (by rewrite E1). apply open_data. unfold fdata in Hinv.
      rewrite fmap_cons in Hinv. cbn in Hinv. by rewrite <- app_assoc in Hinv.
    + destruct (open_poll d _ ts r k Hinv) as (o & r1 & -> & H).
      destruct H as [(-> & Hinv1 & _)|(t & ts' & -> & -> & Hinv1)].
      * specialize (IH ts r1 Hinv1 Hes). destruct (frun es r1) as [os r2]. destruct IH as [Hc (rest & -> & H)].
        split; [constructor; [by left|done]|]. by exists rest.
      * specialize (IH ts' r1 Hinv1 Hes). destruct (frun es r1) as [os r2]. destruct IH as [Hc (rest & -> & H)].
        split; [constructor; [right; by exists t|done]|]. by exists rest.
Qed.

(** After the end of the input. *)
Record done_inv (d : D) (ts : list T) r : Prop := {
  di_state : r_state r = DONE; di_ec : r_ec r = None; di_codec : codec_ r = d;
  di_framed : framed d (q_ r) ts;
  di_flags : (eof_ r = false /\ (readable_ r = false -> q_ r = [])) \/ (eof_ r = true /\ readable_ r = true /\ q_ r = []) }.

Lemma done_eof d ts r : open_inv d [] ts r -> done_inv d ts (fst (r_readEof r)).
Proof.
  destruct r as [q c e b x ec tk]. intros [Hst Hec He Hc Hf Hs]. cbn in *. subst. rewrite app_nil_r in Hf.
  unfold r_readEof, r_finish. rewrite decide_True by done. split; cbn; auto. left. split; [done|]. intros ->.
  destruct (Hs eq_refl) as [|E]; [done|]. destruct q as [|z q]; [done|].
  rewrite <- (app_nil_r (z :: q)) in Hf.
  destruct (framed_head d (z :: q) [] ts Hf ltac:(done)) as (t & ts' & _ & [(q' & E' & _)|[_ Hne]]); congruence.
Qed.

Lemma done_poll d ts r k :
  done_inv d ts r ->
  exists r', done_inv d (tail ts) r' /\
    pollStream (Some k) r = (match ts with t :: _ => item t | [] => Ret (VALUE (Some None)) end, r').
Proof.
  destruct r as [q c e b x ec tk]. intros [Hst Hec Hc Hf Hs]. cbn in *. subst. unfold pollStream. cbn.
  pose proof (framed_nil _ _ _ Hf) as Hn. destruct q as [|z q].
  - assert (ts = []) as -> by (by apply Hn).
    destruct Hs as [[-> _]|(-> & -> & _)]; [destruct b|]; cbn; (eexists; split; [|done]); split; cbn; auto.
  - destruct Hs as [[-> Hr]|(_ & _ & ?)]; [|done]. destruct b; [|by specialize (Hr eq_refl)].
    rewrite <- (app_nil_r (z :: q)) in Hf. cbn.
    destruct (framed_head d (z :: q) [] ts Hf ltac:(done)) as (t & ts' & -> & [(q' & E & Hf')|[_ Hne]]); [|done].
    rewrite app_nil_r in Hf'. rewrite E. eexists. split; [|done]. split; cbn; auto. left. done.
Qed.

Lemma done_run d ts r k :
  done_inv d ts r ->
  fst (frun (replicate (S (length ts)) (FPoll k)) r) = (item <$> ts) ++ [Ret (VALUE (Some None))].
Proof.
  revert r. induction ts as [|t ts IH]; intros r Hr; cbn [length replicate frun fstep].
  - destruct (done_poll d [] r k Hr) as (r' & Hr' & ->). done.
  - destruct (done_poll d (t :: ts) r k Hr) as (r' & Hr' & ->). specialize (IH r' Hr'). cbn [length replicate frun fstep] in IH.
    destruct (pollStream (Some k) r') as [o r1]. destruct (frun (replicate (length ts) (FPoll k)) r1) as [os r2].
    cbn in *. by rewrite IH.
Qed.
End StreamLaws.


(** Two lines, cut in the middle of a terminator, polled in between. *)
Definition witness_events : list fevent :=
  [FPoll 1; FData [104; 105; 13]%Z; FPoll 1; FData [10; 97]%Z; FPoll 1; FPoll 1; FData [10]%Z].


(** A sink reports that it is flushed although an item is still queued: an
    item sent while a write is in progress is not part of that write, and when
    that write is done [pollComplete] is ready without starting another. *)
Lemma sink_flushed_with_items_left :
  let enc (x : Z) (s : list Z) := (Ret tt, s ++ [x]) in
  let k1 := snd (startSend enc 1%Z (mkSink [] None)) in
  match pollComplete (Some 7) 0 k1 accepted_socket with
  | (Ret (p1, k2), s1) =>
      let k3 := snd (startSend enc 2%Z k2) in
      let s2 := snd (sexec (fun _ => 1) (SEvent false false true [] [WSent 1] (true, None)) s1) in
      match pollComplete (Some 7) 1 k3 s2 with
      | (Ret (p2, k4), s3) => p1 = not_ready /\ p2 = makePollReady tt /\ sq_ k4 = [2%Z] /\ sent s3 = [1%Z]
      | _ => False
      end
  | _ => False
  end.
Proof. vm_compute. repeat split; reflexivity. Qed.
