(* ===== verification/Executors.v ===== *)
(** * Executors

    Models [src/include/futures/CpuPoolExecutor.h] and
    [src/include/futures/EventExecutor.h] (with [Executor.h] and
    [EventThreadPool.h]) as step relations: a step is what one thread does
    between two points where the other threads can interfere, that is one
    critical section of the executor's mutex or one action outside of it. *)

From S2P Require Import Prelude.
Local Open Scope cpp_scope.

(** ** CpuPoolExecutor *)
Module CpuPool.

(** [src/include/futures/Executor.h:12-15] Runnable::Type *)
Inductive Runnable := NORMAL (job : nat) | SHUTDOWN.
#[global] Instance Runnable_eq_dec : EqDecision Runnable.
Proof. solve_decision. Defined.

(** A worker is about to take the mutex, waits on the condition variable,
    runs a job, or has returned. *)
Inductive wstate := Ready | Waiting | Running (job : nat) | Exited.
#[global] Instance wstate_eq_dec : EqDecision wstate.
Proof. solve_decision. Defined.

(** [accepted], [started] and [finished] record jobs in order. *)
(** [src/include/futures/CpuPoolExecutor.h:116-122] CpuPoolExecutor *)
Record Pool := mkPool {
  q_ : list Runnable; is_running_ : bool; workers : list wstate;
  accepted : list nat; started : list nat; finished : list nat }.

(** [src/include/futures/CpuPoolExecutor.h:74-81] CpuPoolExecutor::CpuPoolExecutor *)
Definition new_pool (num_threads : nat) : Pool := mkPool [] true (replicate num_threads Ready) [] [] [].

Definition wake (w : wstate) : wstate := match w with Waiting => Ready | _ => w end.

(** [notify_one] wakes one of the waiting workers, if there is one. *)
Definition notify_one (ws ws' : list wstate) : Prop :=
  ((Waiting ∉ ws) /\ ws' = ws) \/ (exists i, (ws !! i = Some Waiting) /\ ws' = <[i := Ready]> ws).

(** [src/include/futures/CpuPoolExecutor.h:87-93] CpuPoolExecutor::execute *)
Definition execute (job : nat) (p p' : Pool) : Prop :=
  if is_running_ p then
    exists ws, notify_one (workers p) ws /\
      p' = mkPool (q_ p ++ [NORMAL job]) true ws (accepted p ++ [job]) (started p) (finished p)
  else p' = p.

(** Up to the point where the caller joins the threads. *)
(** [src/include/futures/CpuPoolExecutor.h:124-133] CpuPoolExecutor::shutdown *)
Definition shutdown (p : Pool) : Pool :=
  if is_running_ p then
    mkPool (q_ p ++ replicate (length (workers p)) SHUTDOWN) false (wake <$> workers p)
      (accepted p) (started p) (finished p)
  else p.

Definition set_worker (i : nat) (w : wstate) (p : Pool) : Pool :=
  mkPool (q_ p) (is_running_ p) (<[i := w]> (workers p)) (accepted p) (started p) (finished p).

(** The critical section of a worker: take a job, take a shutdown marker and
    return, or wait. *)
(** [src/include/futures/CpuPoolExecutor.h:141-155] CpuPoolExecutor::worker, under the lock *)
Definition worker_lock (i : nat) (p : Pool) : Pool :=
  match q_ p with
  | [] => set_worker i Waiting p
  | NORMAL j :: q =>
      mkPool q (is_running_ p) (<[i := Running j]> (workers p)) (accepted p) (started p ++ [j]) (finished p)
  | SHUTDOWN :: q => mkPool q (is_running_ p) (<[i := Exited]> (workers p)) (accepted p) (started p) (finished p)
  end.

(** [src/include/futures/CpuPoolExecutor.h:157-158] CpuPoolExecutor::worker, running the job *)
Definition worker_run (i j : nat) (p : Pool) : Pool :=
  mkPool (q_ p) (is_running_ p) (<[i := Ready]> (workers p)) (accepted p) (started p) (finished p ++ [j]).

(** [src/include/futures/CpuPoolExecutor.h:139-160] CpuPoolExecutor::worker *)
Inductive step : Pool -> Pool -> Prop :=
| S_execute job p p' : execute job p p' -> step p p'
| S_shutdown p : step p (shutdown p)
| S_lock i p : workers p !! i = Some Ready -> step p (worker_lock i p)
| S_run i j p : workers p !! i = Some (Running j) -> step p (worker_run i j p)
| S_spurious i p : workers p !! i = Some Waiting -> step p (set_worker i Ready p).

Definition jobs (l : list Runnable) : list nat := omap (fun r => match r with NORMAL j => Some j | SHUTDOWN => None end) l.
Definition markers (l : list Runnable) : nat := length (filter (fun r => r = SHUTDOWN) l).
Definition current (ws : list wstate) : list nat := omap (fun w => match w with Running j => Some j | _ => None end) ws.
Definition alive (ws : list wstate) : nat := length (filter (.≠ Exited) ws).

(** *** The invariant *)

(** The queue holds the accepted jobs that have not been started, in order,
    and after a shutdown one marker per worker that is left, behind the
    jobs. *)
Record inv (p : Pool) : Prop := {
  inv_fifo : accepted p = started p ++ jobs (q_ p);
  inv_done : started p ≡ₚ finished p ++ current (workers p);
  inv_open : is_running_ p = true ->
    q_ p = NORMAL <$> jobs (q_ p) /\ (Exited ∉ workers p) /\
    (q_ p <> [] -> workers p <> [] -> exists w, (w ∈ workers p) /\ w <> Waiting);
  inv_closed : is_running_ p = false ->
    q_ p = (NORMAL <$> jobs (q_ p)) ++ replicate (alive (workers p)) SHUTDOWN /\ (Waiting ∉ workers p) /\
    (Exited ∈ workers p -> jobs (q_ p) = []) }.

Lemma jobs_app l k : jobs (l ++ k) = jobs l ++ jobs k.
Proof. apply omap_app. Qed.
Lemma jobs_normal l : jobs (NORMAL <$> l) = l.
Proof. induction l as [|x l IH]; [done|]. cbn. by f_equal. Qed.
Lemma jobs_markers n : jobs (replicate n SHUTDOWN) = [].
Proof. by induction n. Qed.

(** Replacing one worker's state. *)
Lemma current_insert ws i w w' :
  ws !! i = Some w -> current (<[i := w']> ws) ++ current [w] ≡ₚ current ws ++ current [w'].
Proof.
  intros Hi. assert (Hlen := lookup_lt_Some _ _ _ Hi).
  rewrite insert_take_drop by done. rewrite <- (take_drop_middle ws i w Hi) at 3.
  unfold current. change (w' :: drop (S i) ws) with ([w'] ++ drop (S i) ws). change (w :: drop (S i) ws) with ([w] ++ drop (S i) ws).
  rewrite !omap_app, <- !(assoc_L (++)). apply Permutation_app_head.
  rewrite (Permutation_app_comm (omap _ [w'])), (assoc_L (++) (omap _ [w])). apply Permutation_app_tail, Permutation_app_comm.
Qed.

Lemma elem_insert (ws : list wstate) (i : nat) (w w' x : wstate) : ws !! i = Some w -> x ∈ <[i := w']> ws -> x = w' \/ x ∈ ws.
Proof.
  intros Hi Hx. apply list_elem_of_lookup in Hx as [j Hj]. apply list_lookup_insert_Some in Hj as [(-> & -> & _)|[_ Hj]].
  - by left.
  - right. by eapply list_elem_of_lookup_2.
Qed.

Lemma elem_inserted (ws : list wstate) (i : nat) (w w' : wstate) : ws !! i = Some w -> w' ∈ <[i := w']> ws.
Proof.
  intros Hi. eapply (list_elem_of_lookup_2 _ i). apply list_lookup_insert_eq. by eapply lookup_lt_Some.
Qed.

Lemma alive_insert ws i w w' :
  ws !! i = Some w -> alive (<[i := w']> ws) + (if decide (w = Exited) then 0 else 1) = alive ws + (if decide (w' = Exited) then 0 else 1).
Proof.
  intros Hi. assert (Hlen := lookup_lt_Some _ _ _ Hi). rewrite insert_take_drop by done.
  rewrite <- (take_drop_middle ws i w Hi) at 3. unfold alive. rewrite !filter_app, !filter_cons, !length_app.
  repeat case_decide; cbn; try done; lia.
Qed.

Lemma current_same (ws : list wstate) i w w' :
  ws !! i = Some w -> current [w] = [] -> current [w'] = [] -> current (<[i := w']> ws) ≡ₚ current ws.
Proof. intros Hi H1 H2. pose proof (current_insert ws i w w' Hi) as H. by rewrite H1, H2, !app_nil_r in H. Qed.

Lemma current_wake ws : current (wake <$> ws) = current ws.
Proof. unfold current. induction ws as [|w ws IH]; [done|]. destruct w; cbn; by rewrite ?IH. Qed.
Lemma alive_full ws : Exited ∉ ws -> alive ws = length ws.
Proof.
  unfold alive. induction ws as [|w ws IH]; [done|]. intros H. apply not_elem_of_cons in H as [H1 H2].
  rewrite filter_cons_True by congruence. cbn. by rewrite IH.
Qed.
Lemma alive_wake ws : alive (wake <$> ws) = alive ws.
Proof.
  unfold alive. induction ws as [|w ws IH]; [done|]. rewrite fmap_cons, !filter_cons.
  destruct w; cbn; repeat case_decide; cbn; rewrite ?IH; done.
Qed.
Lemma wake_not_waiting (ws : list wstate) : Waiting ∉ wake <$> ws.
Proof. intros H. apply list_elem_of_fmap in H as ([] & ? & _); done. Qed.

Lemma inv_execute job p p' : inv p -> execute job p p' -> inv p'.
Proof.
  intros Hinv He. unfold execute in He. destruct (is_running_ p) eqn:Hr; [|by subst].
  destruct He as (ws & Hn & ->). destruct Hinv as [H1 H2 H3 H4]. destruct (H3 Hr) as (Hq & Hex & Hp).
  assert (Hex' : Exited ∉ ws).
  { destruct Hn as [[_ ->]|(i & Hi & ->)]; [done|]. intros Hx. by destruct (elem_insert _ _ _ _ _ Hi Hx). }
  split; cbn [q_ is_running_ workers accepted started finished]; try done.
  - by rewrite H1, jobs_app, <- app_assoc.
  - rewrite H2. apply Permutation_app_head. destruct Hn as [[_ ->]|(i & Hi & ->)]; [done|]. symmetry. by eapply current_same.
  - intros _. rewrite jobs_app, fmap_app, <- Hq. split; [done|]. split; [done|]. intros _ Hne.
    destruct Hn as [[Hw ->]|(i & Hi & ->)].
    + destruct (workers p) as [|w ws'] eqn:E; [done|]. exists w. split; [apply elem_of_cons; by left|].
      intros ->. apply Hw, elem_of_cons. by left.
    + exists Ready. split; [by eapply elem_inserted|done].
Qed.

Lemma inv_shutdown p : inv p -> inv (shutdown p).
Proof.
  intros Hinv. unfold shutdown. destruct (is_running_ p) eqn:Hr; [|done].
  destruct Hinv as [H1 H2 H3 H4]. destruct (H3 Hr) as (Hq & Hex & _). split; cbn [q_ is_running_ workers accepted started finished]; try done.
  - by rewrite jobs_app, jobs_markers, app_nil_r.
  - by rewrite current_wake.
  - intros _. rewrite jobs_app, jobs_markers, app_nil_r, <- Hq, alive_wake, alive_full by done. split; [done|].
    split; [apply wake_not_waiting|]. intros Hx. apply list_elem_of_fmap in Hx as (w & Hw & Hin).
    destruct w; try done.
Qed.

Lemma inv_lock i p : inv p -> workers p !! i = Some Ready -> inv (worker_lock i p).
Proof.
  intros [H1 H2 H3 H4] Hi. unfold worker_lock. destruct (q_ p) as [|[j|] q] eqn:Hq.
  - assert (Hc : current (<[i := Waiting]> (workers p)) ≡ₚ current (workers p)) by (by eapply current_same).
    split; cbn [q_ is_running_ workers accepted started finished set_worker]; rewrite ?Hq; try done.
    + by rewrite Hc.
    + intros Hr. destruct (H3 Hr) as (_ & Hex & _). split; [done|]. split; [|done].
      intros Hx. by destruct (elem_insert _ _ _ _ _ Hi Hx).
    + intros Hr. destruct (H4 Hr) as (Hm & _ & _). cbn in Hm.
      exfalso. pose proof (alive_insert _ _ _ Exited Hi) as Ha. rewrite decide_False, decide_True in Ha by done.
      destruct (alive (workers p)); [lia|done].
  - cbn in H1; split; cbn [q_ is_running_ workers accepted started finished]; try done.
    + by rewrite H1, <- app_assoc.
    + pose proof (current_insert _ _ _ (Running j) Hi) as Hc. cbn in Hc. rewrite app_nil_r in Hc.
      by rewrite Hc, H2, app_assoc.
    + intros Hr. destruct (H3 Hr) as (E & Hex & _). cbn in E. injection E as E. split; [done|]. split.
      * intros Hx. by destruct (elem_insert _ _ _ _ _ Hi Hx).
      * intros _ _. exists (Running j). split; [by eapply elem_inserted|done].
    + intros Hr. destruct (H4 Hr) as (E & Hw & Hx). cbn in E, Hx. injection E as E.
      pose proof (alive_insert _ _ _ (Running j) Hi) as Ha. rewrite !decide_False in Ha by done.
      replace (alive (<[i := Running j]> (workers p))) with (alive (workers p)) by lia. split; [done|]. split.
      * intros Hz. by destruct (elem_insert _ _ _ _ _ Hi Hz).
      * intros Hz. destruct (elem_insert _ _ _ _ _ Hi Hz) as [|Hz']; [done|]. by specialize (Hx Hz').
  - cbn in H1; split; cbn [q_ is_running_ workers accepted started finished]; try done.
    + assert (Hc : current (<[i := Exited]> (workers p)) ≡ₚ current (workers p)) by (by eapply current_same). by rewrite Hc.
    + intros Hr. destruct (H3 Hr) as (E & _). change (jobs (SHUTDOWN :: q)) with (jobs q) in E. by destruct (jobs q).
    + intros Hr. destruct (H4 Hr) as (E & Hw & Hx). change (jobs (SHUTDOWN :: q)) with (jobs q) in *.
      pose proof (alive_insert _ _ _ Exited Hi) as Ha. rewrite decide_False, decide_True in Ha by done. destruct (jobs q) eqn:Ej; [|done]. cbn in E.
      replace (alive (workers p)) with (S (alive (<[i := Exited]> (workers p)))) in E by lia. cbn in E. injection E as E.
      split; [done|]. split; [|done]. intros Hz. by destruct (elem_insert _ _ _ _ _ Hi Hz).
Qed.

Lemma inv_worker i w p fin :
  inv p -> workers p !! i = Some w -> w <> Exited ->
  finished p ++ current [w] ≡ₚ fin ->
  inv (mkPool (q_ p) (is_running_ p) (<[i := Ready]> (workers p)) (accepted p) (started p) fin).
Proof.
  intros [H1 H2 H3 H4] Hi Hw Hf. pose proof (current_insert _ _ _ Ready Hi) as Hc.
  change (current [Ready]) with (@nil nat) in Hc. rewrite (app_nil_r (current (workers p))) in Hc.
  split; cbn [q_ is_running_ workers accepted started finished]; try done.
  - rewrite H2, <- Hc, <- Hf, <- app_assoc. by rewrite (Permutation_app_comm (current [w])).
  - intros Hr. destruct (H3 Hr) as (Hq & Hex & _). split; [done|]. split.
    + intros Hx. by destruct (elem_insert _ _ _ _ _ Hi Hx).
    + intros _ _. exists Ready. split; [by eapply elem_inserted|done].
  - intros Hr. destruct (H4 Hr) as (Hq & Hwt & Hx).
    pose proof (alive_insert _ _ _ Ready Hi) as Ha. rewrite !decide_False in Ha by done.
    replace (alive (<[i := Ready]> (workers p))) with (alive (workers p)) by lia. split; [done|]. split.
    + intros Hz. by destruct (elem_insert _ _ _ _ _ Hi Hz).
    + intros Hz. destruct (elem_insert _ _ _ _ _ Hi Hz) as [|Hz']; [done|]. by specialize (Hx Hz').
Qed.

Lemma pool_inv_step p p' : inv p -> step p p' -> inv p'.
Proof.
  intros Hinv Hs. destruct Hs as [job p p' He|p|i p Hi|i j p Hi|i p Hi].
  - by eapply inv_execute.
  - by apply inv_shutdown.
  - by apply inv_lock.
  - by eapply (inv_worker i (Running j)).
  - eapply (inv_worker i Waiting); try done. by rewrite app_nil_r.
Qed.

Lemma pool_inv_new n : inv (new_pool n).
Proof.
  assert (Hc : current (replicate n Ready) = []) by (by induction n).
  split; try done.
  - cbn. change (@nil nat ≡ₚ current (replicate n Ready)). by rewrite Hc.
  - intros _. split; [done|]. split; [|done]. cbn. intros Hx. by apply elem_of_replicate in Hx as [? _].
Qed.

Lemma pool_inv_reachable n p : rtc step (new_pool n) p -> inv p.
Proof. intros H. apply (rtc_ind_r (R := step) inv (new_pool n)); [apply pool_inv_new|intros; by eapply pool_inv_step|done]. Qed.

Lemma workers_step p p' : step p p' -> length (workers p') = length (workers p).
Proof.
  intros [job q q' He|q|i q Hi|i j q Hi|i q Hi].
  - unfold execute in He. destruct (is_running_ q); [|by subst]. destruct He as (ws & [[_ ->]|(i & _ & ->)] & ->); cbn; [done|].
    apply length_insert.
  - unfold shutdown. destruct (is_running_ q); [|done]. cbn. apply length_fmap.
  - unfold worker_lock. destruct (q_ q) as [|[]]; cbn; apply length_insert.
  - apply length_insert.
  - apply length_insert.
Qed.

Lemma workers_reachable n p : rtc step (new_pool n) p -> length (workers p) = n.
Proof.
  intros H. apply (rtc_ind_r (R := step) (fun p => length (workers p) = n) (new_pool n)); [apply length_replicate| |done].
  intros x y _ Hs <-. by apply workers_step.
Qed.

(** C36: the CPU pool runs every job it accepts, once and in order, and
    stopping it loses none.  In every state that the callers and the worker
    threads can reach, the jobs accepted are the jobs started followed by the
    jobs queued, in the order of the calls; the jobs started are the finished
    ones and the ones being run; as long as anything is queued some worker is
    not asleep, so it is going to be taken (no wake-up is lost); and when all
    workers have returned after a shutdown, which is when [stop] returns,
    every job that was ever accepted has been run to its end. *)
Theorem cpu_pool_spec n p :
  rtc step (new_pool n) p ->
  accepted p = started p ++ jobs (q_ p) /\
  started p ≡ₚ finished p ++ current (workers p) /\
  (q_ p <> [] -> 0 < n -> exists i w, workers p !! i = Some w /\ (w = Ready \/ exists j, w = Running j)) /\
  (0 < n -> (forall w, w ∈ workers p -> w = Exited) -> accepted p ≡ₚ finished p).
Proof.
  intros H. pose proof (pool_inv_reachable n p H) as Hinv. pose proof (workers_reachable n p H) as Hlen.
  destruct Hinv as [H1 H2 H3 H4]. split; [done|]. split; [done|]. split.
  - intros Hq Hn. assert (exists w, (w ∈ workers p) /\ w <> Waiting /\ w <> Exited) as (w & Hw & Hw1 & Hw2).
    { destruct (is_running_ p).
      - destruct (H3 eq_refl) as (_ & Hex & Hp). destruct (Hp Hq) as (w & Hw & ?); [destruct (workers p); done || (cbn in Hlen; lia)|].
        exists w. split; [done|]. split; [done|]. by intros ->.
      - destruct (H4 eq_refl) as (E & Hwt & Hx). destruct (alive (workers p)) eqn:Ha.
        + exfalso. apply Hq. rewrite E, Hx; [done|]. destruct (workers p) as [|w ws] eqn:Ew; [cbn in Hlen; lia|].
          apply elem_of_cons. left. unfold alive in Ha. rewrite filter_cons in Ha. case_decide as Hc; [done|].
          destruct (decide (w = Exited)); [done|]. by destruct Hc.
        + unfold alive in Ha. destruct (filter (.≠ Exited) (workers p)) as [|w ws] eqn:Ef; [done|].
          assert (Hin : w ∈ filter (.≠ Exited) (workers p)) by (rewrite Ef; apply elem_of_cons; by left).
          apply list_elem_of_filter in Hin as [Hne Hin]. exists w. split; [done|]. split; [|done]. by intros ->. }
    apply list_elem_of_lookup in Hw as [i Hi]. exists i, w. split; [done|]. destruct w; try done; eauto.
  - intros Hn Hall. destruct (workers p) as [|w ws] eqn:Ew; [cbn in Hlen; lia|].
    assert (Hw : w = Exited) by (apply Hall, elem_of_cons; by left).
    destruct (is_running_ p).
    + destruct (H3 eq_refl) as (_ & Hex & _). destruct Hex. apply elem_of_cons. by left.
    + destruct (H4 eq_refl) as (_ & _ & Hx). rewrite H1, Hx, app_nil_r, H2 by (apply elem_of_cons; by left).
      assert (Hc : current (w :: ws) = []).
      { clear -Hall. unfold current. induction (w :: ws) as [|x l IH]; [done|]. cbn.
        rewrite (Hall x) by (apply elem_of_cons; by left). apply IH. intros y Hy. apply Hall, elem_of_cons. by right. }
      by rewrite Hc, app_nil_r.
Qed.

(** One worker: a job is run, then the pool is stopped. *)
Definition witness_pool : Pool := mkPool [] false [Exited] [5] [5] [5].

Lemma cpu_pool_spec_witness :
  rtc step (new_pool 1) witness_pool /\ accepted witness_pool ≡ₚ finished witness_pool.
Proof.
  assert (H : rtc step (new_pool 1) witness_pool).
  { apply (rtc_l _ _ (mkPool [] true [Waiting] [] [] [])); [exact (S_lock 0 (new_pool 1) eq_refl)|].
    apply (rtc_l _ _ (mkPool [NORMAL 5] true [Ready] [5] [] [])).
    { apply (S_execute 5). exists [Ready]. split; [right; exists 0; split; reflexivity|reflexivity]. }
    apply (rtc_l _ _ (mkPool [] true [Running 5] [5] [5] [])); [exact (S_lock 0 (mkPool [NORMAL 5] true [Ready] [5] [] []) eq_refl)|].
    apply (rtc_l _ _ (mkPool [SHUTDOWN] false [Running 5] [5] [5] [])); [exact (S_shutdown (mkPool [] true [Running 5] [5] [5] []))|].
    apply (rtc_l _ _ (mkPool [SHUTDOWN] false [Ready] [5] [5] [5])); [exact (S_run 0 5 (mkPool [SHUTDOWN] false [Running 5] [5] [5] []) eq_refl)|].
    apply (rtc_l _ _ witness_pool); [exact (S_lock 0 (mkPool [SHUTDOWN] false [Ready] [5] [5] [5]) eq_refl)|]. apply rtc_refl. }
  split; [exact H|]. destruct (cpu_pool_spec 1 witness_pool H) as (_ & _ & _ & Hend). apply Hend; [lia|].
  intros w Hw. apply list_elem_of_singleton in Hw. exact Hw.
Defined.
End CpuPool.

(** ** EventExecutor *)
Module EventLoop.

(** Where the thread in [run] is: about to merge the queues, running jobs,
    past the inner loop, in [ev_run], or not in [run]. *)
Inductive pc_t := Merge | Drain | Check | Poll | Ended.
#[global] Instance pc_eq_dec : EqDecision pc_t.
Proof. solve_decision. Defined.

(** A job is a spawned future ([FutureSpawnRun]).  [watched] are the futures
    parked on a registered watcher of the loop, [others] those parked on
    something else (a channel, say); [running_tasks_] counts the living
    futures.  [signaled]: the [ev::async] is pending; [entered] and [ran]
    record the jobs that reached [q_] and those taken from it. *)
(** [src/include/futures/EventExecutor.h:116-124] EventExecutor *)
Record EventExecutor := mkEv {
  q_ : list nat; foreign_q_ : list nat; watched : list nat; others : list nat;
  running_tasks_ : nat; wait_stop_ : bool; signaled : bool;
  pc : pc_t; entered : list nat; ran : list nat }.

Section Loop.
Context (always_blocks : bool).

Definition new_loop : EventExecutor := mkEv [] [] [] [] 0 false false Merge [] [].

(** [execute] on the loop's own thread, or on a thread that runs no executor. *)
(** [src/include/futures/EventExecutor.h:27-29] EventExecutor::execute, own queue *)
Definition execute_own (j : nat) (e : EventExecutor) : EventExecutor :=
  mkEv (q_ e ++ [j]) (foreign_q_ e) (watched e) (others e) (running_tasks_ e) (wait_stop_ e) (signaled e)
    (pc e) (entered e ++ [j]) (ran e).
(** On a thread that runs another executor; [None]: the job is dropped. *)
(** [src/include/futures/EventExecutor.h:21-26] EventExecutor::execute, foreign queue *)
Definition execute_foreign (j : nat) (e : EventExecutor) : option EventExecutor :=
  if wait_stop_ e then None
  else Some (mkEv (q_ e) (foreign_q_ e ++ [j]) (watched e) (others e) (running_tasks_ e) (wait_stop_ e) true
               (pc e) (entered e) (ran e)).

(** [addRunning] and [decRunning], by the constructor and the destructor of
    [FutureSpawnRun::Inner]. *)
(** [src/include/futures/Executor.h:41-43] Executor::addRunning, decRunning, getRunning *)
Definition addRunning (e : EventExecutor) : EventExecutor :=
  mkEv (q_ e) (foreign_q_ e) (watched e) (others e) (S (running_tasks_ e)) (wait_stop_ e) (signaled e) (pc e) (entered e) (ran e).
Definition decRunning (e : EventExecutor) : EventExecutor :=
  mkEv (q_ e) (foreign_q_ e) (watched e) (others e) (pred (running_tasks_ e)) (wait_stop_ e) (signaled e) (pc e) (entered e) (ran e).

Definition set_parked (w o : list nat) (e : EventExecutor) : EventExecutor :=
  mkEv (q_ e) (foreign_q_ e) w o (running_tasks_ e) (wait_stop_ e) (signaled e) (pc e) (entered e) (ran e).
Definition goto (p : pc_t) (e : EventExecutor) : EventExecutor :=
  mkEv (q_ e) (foreign_q_ e) (watched e) (others e) (running_tasks_ e) (wait_stop_ e) (signaled e) p (entered e) (ran e).

(** [j] is taken from the futures parked on a watcher, or from the others. *)
Definition unparked (io : bool) (j : nat) (e e1 : EventExecutor) : Prop :=
  exists l1 l2,
    if io then watched e = l1 ++ j :: l2 /\ e1 = set_parked (l1 ++ l2) (others e) e
    else others e = l1 ++ j :: l2 /\ e1 = set_parked (watched e) (l1 ++ l2) e.

(** [src/include/futures/EventExecutor.h:50-55] EventExecutor::spawn, by the loop's thread or one without an executor *)
Definition spawn_own (j : nat) (e : EventExecutor) : EventExecutor := execute_own j (addRunning e).
Definition spawn_foreign (j : nat) (e : EventExecutor) : EventExecutor :=
  match execute_foreign j (addRunning e) with Some e' => e' | None => e end.

(** Waking a future from another executor's thread; when the executor is
    stopping this destroys the future. *)
Definition wake_foreign (j : nat) (e1 : EventExecutor) : EventExecutor :=
  match execute_foreign j e1 with Some e' => e' | None => decRunning e1 end.

(** [src/include/futures/EventExecutor.h:40-48] EventExecutor::stop, signal_loop *)
Definition stop (e : EventExecutor) : EventExecutor :=
  mkEv (q_ e) (foreign_q_ e) (watched e) (others e) (running_tasks_ e) true true (pc e) (entered e) (ran e).

(** [src/include/futures/EventExecutor.h:126-133] EventExecutor::merge_queue *)
Definition merge_queue (e : EventExecutor) : EventExecutor :=
  mkEv (q_ e ++ foreign_q_ e) [] (watched e) (others e) (running_tasks_ e) (wait_stop_ e) (signaled e)
    (pc e) (entered e ++ foreign_q_ e) (ran e).

(** [run->run()]: the future completes, or parks on a watcher or on something
    else. *)
Inductive outcome := Completes | ParksOnWatcher | ParksElsewhere.

(** [src/include/futures/EventExecutor.h:67-74] EventExecutor::run, inner loop *)
Definition run_front (o : outcome) (e : EventExecutor) : EventExecutor :=
  match q_ e with
  | [] => e
  | j :: q =>
      let e1 := mkEv q (foreign_q_ e) (watched e) (others e) (running_tasks_ e) (wait_stop_ e) (signaled e)
                  (pc e) (entered e) (ran e ++ [j]) in
      match o with
      | Completes => decRunning e1
      | ParksOnWatcher => set_parked (watched e ++ [j]) (others e) e1
      | ParksElsewhere => set_parked (watched e) (others e ++ [j]) e1
      end
  end.

(** Cancelling the registered watchers wakes the futures that wait for them. *)
(** [src/include/futures/EventExecutor.h:81-83] EventExecutor::run, aborting the watchers *)
Definition abort_watchers (e : EventExecutor) : EventExecutor :=
  mkEv (q_ e ++ watched e) (foreign_q_ e) [] (others e) (running_tasks_ e) (wait_stop_ e) (signaled e)
    (pc e) (entered e ++ watched e) (ran e).

Definition finish_run (e : EventExecutor) : EventExecutor :=
  mkEv (q_ e) (foreign_q_ e) (watched e) (others e) (running_tasks_ e) false (signaled e) Ended (entered e) (ran e).

(** [src/include/futures/EventExecutor.h:75-91] EventExecutor::run, end of the loop body *)
Definition check (e : EventExecutor) : EventExecutor :=
  if (running_tasks_ e =? 0) && (negb always_blocks || wait_stop_ e) then finish_run e
  else if wait_stop_ e then
    let e1 := abort_watchers e in
    if running_tasks_ e1 =? 0 then finish_run e1 else goto Merge e1
  else goto Poll e.

(** [src/include/futures/EventExecutor.h:62-99] EventExecutor::run *)
Inductive loop_step : EventExecutor -> EventExecutor -> Prop :=
| L_merge e : pc e = Merge -> loop_step e (goto Drain (merge_queue e))
| L_run e o : pc e = Drain -> q_ e <> [] -> loop_step e (run_front o e)
| L_drained e : pc e = Drain -> q_ e = [] -> loop_step e (goto Check e)
| L_check e : pc e = Check -> loop_step e (check e)
| L_signal e : pc e = Poll -> signaled e = true ->
    loop_step e (mkEv (q_ e) (foreign_q_ e) (watched e) (others e) (running_tasks_ e) (wait_stop_ e) false
                   Merge (entered e) (ran e)).

(** What the rest of the program can do: futures spawned and woken from the
    loop's thread while it runs jobs, from other executors at any time, an
    event of the loop that wakes a future in [ev_run], and [stop]. *)
Inductive env_step : EventExecutor -> EventExecutor -> Prop :=
| E_spawn j e : pc e = Drain \/ pc e = Ended -> env_step e (spawn_own j e)
| E_wake io j e e1 : pc e = Drain -> unparked io j e e1 -> env_step e (execute_own j e1)
| E_event j e e1 : pc e = Poll -> unparked true j e e1 -> env_step e (goto Merge (execute_own j e1))
| E_spawn_foreign j e : env_step e (spawn_foreign j e)
| E_wake_foreign io j e e1 : unparked io j e e1 -> env_step e (wake_foreign j e1)
| E_stop e : env_step e (stop e)
| E_restart e : pc e = Ended -> env_step e (goto Merge e).

Definition step (e e' : EventExecutor) : Prop := loop_step e e' \/ env_step e e'.

(** *** The invariant *)
Record inv (e : EventExecutor) : Prop := {
  inv_count : running_tasks_ e = length (q_ e) + length (foreign_q_ e) + length (watched e) + length (others e);
  inv_order : entered e = ran e ++ q_ e;
  inv_signal : foreign_q_ e <> [] -> signaled e = true \/ pc e = Merge \/ pc e = Ended;
  inv_check : pc e = Check \/ pc e = Poll -> q_ e = [] }.

Lemma inv_loop e e' : inv e -> loop_step e e' -> inv e'.
Proof.
  intros Hinv Hstep. destruct Hstep as [x Hp|x o Hp Hq|x Hp Hq|x Hp|x Hp Hs]; destruct Hinv as [H1 H2 H3 H4].
  - split; cbn; rewrite ?length_app; try done; try lia; [by rewrite H2, app_assoc|naive_solver].
  - unfold run_front. destruct (q_ x) as [|j q] eqn:Eq; [done|]. cbn in H1.
    destruct o; split; cbn; rewrite ?length_app; cbn; try done; try lia; try (by rewrite H2, <- app_assoc); rewrite Hp in *; naive_solver.
  - split; cbn; try done. intros Hf. destruct (H3 Hf) as [|[|]]; [by left|congruence..].
  - assert (Eq : q_ x = []) by (apply H4; by left). unfold check.
    destruct ((running_tasks_ x =? 0) && (negb always_blocks || wait_stop_ x)).
    { split; cbn; try done; naive_solver. }
    destruct (wait_stop_ x).
    + cbn. destruct (running_tasks_ x =? 0); split; cbn; rewrite ?length_app; cbn; try lia; try done;
        try (by rewrite H2, app_assoc); try naive_solver; by intros [|].
    + split; cbn; try done. intros Hf. destruct (H3 Hf) as [|[|]]; [by left|congruence..].
  - split; cbn; try done; naive_solver.
Qed.

Lemma unparked_count io j e e1 : unparked io j e e1 ->
  length (watched e) + length (others e) = S (length (watched e1) + length (others e1)) /\
  e1 = set_parked (watched e1) (others e1) e.
Proof. intros (l1 & l2 & H). destruct io, H as [E ->]; cbn; rewrite E, !length_app; cbn; split; (lia || done). Qed.

Lemma inv_env e e' : inv e -> env_step e e' -> inv e'.
Proof.
  intros Hinv Hstep. destruct Hstep as [j x Hp|io j x e1 Hp Hu|j x e1 Hp Hu|j x|io j x e1 Hu|x|x Hp]; destruct Hinv as [H1 H2 H3 H4].
  - split; cbn; rewrite ?length_app; cbn; try lia; try done; [by rewrite H2, app_assoc|].
    intros Hc. destruct Hp as [Hp|Hp]; rewrite Hp in Hc; by destruct Hc.
  - destruct (unparked_count _ _ _ _ Hu) as [Hn ->]. split; cbn in *; rewrite ?length_app; cbn; try lia; try done;
      [by rewrite H2, app_assoc|]. intros Hc. rewrite Hp in Hc; by destruct Hc.
  - destruct (unparked_count _ _ _ _ Hu) as [Hn ->]. split; cbn in *; rewrite ?length_app; cbn; try lia; try done;
      try (by rewrite H2, app_assoc); naive_solver.
  - unfold spawn_foreign, execute_foreign. cbn. destruct (wait_stop_ x); [by split|].
    split; cbn; rewrite ?length_app; cbn; try lia; try done; by left.
  - destruct (unparked_count _ _ _ _ Hu) as [Hn ->]. unfold wake_foreign, execute_foreign. cbn in *. destruct (wait_stop_ x).
    + split; cbn; try lia; done.
    + split; cbn; rewrite ?length_app; cbn; try lia; try done; by left.
  - split; cbn; try done; by left.
  - split; cbn; try done; naive_solver.
Qed.

Lemma inv_all e : rtc step new_loop e -> inv e.
Proof.
  intros H. apply (rtc_ind_r (R := step) inv new_loop); [| |done].
  - by split; cbn.
  - intros x y _ [Hs|Hs] Hx; [by eapply inv_loop|by eapply inv_env].
Qed.


(** A future spawned by a thread that runs no executor goes to the loop's own
    queue without the lock and without the signal: a loop blocked in [ev_run]
    does not notice it. *)
Lemma outside_spawn_unnoticed e j :
  pc e = Poll -> signaled e = false -> forall e', ~ loop_step (spawn_own j e) e'.
Proof. intros Hp Hs e' Hl. inversion Hl; subst; cbn in *; congruence. Qed.

(** A loop that is asked to stop while a future is parked on something that
    is not one of its watchers goes round and round: it neither blocks nor
    ends. *)
Lemma stop_spins e :
  pc e = Merge -> wait_stop_ e = true -> q_ e = [] -> foreign_q_ e = [] -> watched e = [] ->
  0 < running_tasks_ e ->
  rtc loop_step e (goto Merge e) /\ forall e', rtc loop_step e e' -> pc e' <> Ended /\ pc e' <> Poll.
Proof.
  destruct e as [q f w o r ws sg p en ra]. cbn. intros -> -> -> -> -> Hr.
  assert (Hr0 : (r =? 0) = false) by (apply Nat.eqb_neq; lia). split.
  - eapply rtc_l; [by apply L_merge|]. eapply rtc_l; [by apply L_drained|]. eapply rtc_l; [by apply L_check|].
    unfold check. cbn. rewrite Hr0. unfold goto, abort_watchers, merge_queue. cbn. rewrite !app_nil_r. apply rtc_refl.
  - intros e' H.
    set (I := fun e' => (pc e' = Merge \/ pc e' = Drain \/ pc e' = Check) /\ wait_stop_ e' = true /\ q_ e' = [] /\
      foreign_q_ e' = [] /\ watched e' = [] /\ running_tasks_ e' = r).
    assert (Hst : I e'); [|destruct Hst as [[E|[E|E]] _]; rewrite E; done].
    apply (rtc_ind_r (R := loop_step) I) in H; [done|by repeat split; left|]. clear H.
    intros x y _ Hs (Hpp & H1 & H2 & H3 & H4 & H5).
    destruct Hs as [x Hp'|x oc Hp' Hq|x Hp' Hq|x Hp'|x Hp' Hsg]; try congruence.
    + repeat split; cbn; rewrite ?H2, ?H3; auto.
    + repeat split; cbn; auto.
    + unfold check. cbn. rewrite H5, Hr0, H1. cbn. repeat split; cbn; rewrite ?H2, ?H4; auto.
    + rewrite Hp' in Hpp. naive_solver.
Qed.
End Loop.

End EventLoop.
