(* ===== verification/Timers.v ===== *)
(** * Timers

    Models [src/include/futures/TimerKeeper.h] (a list of timeouts of one fixed
    length served by one timer of the event loop), [Timer.h] (a timer of its
    own per future) and [Timeout.h].  Points in time are integers: the
    floating-point seconds of the code are taken as exact.  A timer of the
    event loop, once started, fires at the first iteration of the loop whose
    time is not before its expiry, and is then stopped. *)

From S2P Require Import Prelude Core Futures FutureLaws Channels IoObject.
Local Open Scope cpp_scope.

(** ** TimerKeeper *)
Module Keeper.

(** A token's [deadline_]; the tokens are on the list of [OpRead]. *)
(** [src/include/futures/TimerKeeper.h:89-91] TimerKeeper *)
Record TimerKeeper := mkKeeper {
  io : IOObject Z;
  timeout_ : Z;
  timer_ : option Z;   (* when it expires, if it is started *)
  now : Z }.

Definition upd_io (o : IOObject Z) (k : TimerKeeper) : TimerKeeper := mkKeeper o (timeout_ k) (timer_ k) (now k).
Definition upd_timer (t : option Z) (k : TimerKeeper) : TimerKeeper := mkKeeper (io k) (timeout_ k) t (now k).

(** [src/include/futures/TimerKeeper.h:19-25] TimerKeeper::TimerKeeper *)
Definition new_keeper (timeout start : Z) : res TimerKeeper :=
  if decide (0 < timeout)%Z then Ret (mkKeeper empty_io timeout None start) else Abort "assert".

Definition deadline (i : nat) (o : IOObject Z) : res Z := with_tok i o (fun t => Ret (data t)).

(** [src/include/futures/TimerKeeper.h:93-101] TimerKeeper::addTimer *)
Definition addTimer (i : nat) (k : TimerKeeper) : res TimerKeeper :=
  let! o := attach i (io k) in
  let k1 := upd_io o k in
  match pRead o with
  | p :: _ =>
      if decide (p = i) then
        let! d := deadline i o in
        Ret (upd_timer (Some (now k + (d - now k)))%Z k1)
      else Ret k1
  | [] => Abort "front of an empty list"
  end.

(** [src/include/futures/TimerKeeper.h:72-76] TimerKeeper::doTimeout *)
Definition doTimeout (i : nat) (k : TimerKeeper) : res TimerKeeper :=
  addTimer i (upd_io (newTok i OpRead (now k + timeout_ k)%Z (io k)) k).

(** [while (!list.empty()) ...]: complete the tokens that are due. *)
(** [src/include/futures/TimerKeeper.h:111-120] TimerKeeper::onTimer, loop *)
Fixpoint expire (fuel : nat) (t : Z) (o : IOObject Z) : res (IOObject Z) :=
  match pRead o with
  | [] => Ret o
  | p :: _ =>
      match fuel with
      | 0 => OutOfFuel
      | S fuel =>
          let! d := deadline p o in
          if decide (d <= t)%Z then let! o1 := notifyDone p o in expire fuel t o1 else Ret o
      end
  end.

(** [src/include/futures/TimerKeeper.h:107-129] TimerKeeper::onTimer *)
Definition onTimer (ev_ERROR ev_TIMER : bool) (k : TimerKeeper) : res TimerKeeper :=
  if ev_ERROR then Throw (std_runtime_error "syscall error") else
  if negb ev_TIMER then Ret k else
  let! o := expire (length (pRead (io k))) (now k) (io k) in
  let k1 := upd_io o k in
  match pRead o with
  | [] => Ret (upd_timer None k1)
  | p :: _ =>
      let! d := deadline p o in
      if decide (now k <= d)%Z then Ret (upd_timer (Some (now k + (d - now k)))%Z k1) else Abort "assert"
  end.

(** [src/include/futures/TimerKeeper.h:27-29] TimerKeeper::onCancel, called at the end of [IOObject::cleanup] *)
Definition cleanup (k : TimerKeeper) : res TimerKeeper :=
  let! o := cleanup_all (io k) in Ret (upd_timer None (upd_io o k)).

(** [src/include/futures/TimerKeeper.h:52-62] TimerKeeper::CompletionToken::poll *)
Definition tok_poll (cur : option Task) (i : nat) (k : TimerKeeper) : res (Poll unit) * TimerKeeper :=
  match toks (io k) !! i with
  | None => (Abort "no such token", k)
  | Some t =>
      match s_ t with
      | STARTED =>
          match park cur i (io k) with
          | Ret o => (Ret not_ready, upd_io o k)
          | Throw e => (Throw e, k)
          | Abort a => (Abort a, k)
          | OutOfFuel => (OutOfFuel, k)
          end
      | DONE => (Ret (makePollReady tt), k)
      | CANCELLED => (Ret (EXCEPTION (Some (FutureCancelledException CR_Unknown))), k)
      end
  end.

(** [src/include/futures/TimerKeeper.h:78-82] TimerKeeper::doTimeout, with a token of the caller *)
Definition doTimeout_tok (i : nat) (k : TimerKeeper) : res TimerKeeper := addTimer i k.

(** The token a [TimerKeeperFuture] holds, once it has been polled. *)
(** [src/include/futures/TimerKeeper.h:151-154] TimerKeeperFuture *)
Definition TimerKeeperFuture := option nat.

(** [i] is the address of the token the first poll allocates. *)
(** [src/include/futures/TimerKeeper.h:145-149] TimerKeeperFuture::poll *)
Definition TimerKeeperFuture_poll (cur : option Task) (i : nat) (f : TimerKeeperFuture) (k : TimerKeeper)
  : res (Poll unit) * TimerKeeperFuture * TimerKeeper :=
  match f with
  | Some j => let '(r, k') := tok_poll cur j k in (r, Some j, k')
  | None =>
      match doTimeout i k with
      | Ret k1 => let '(r, k') := tok_poll cur i k1 in (r, Some i, k')
      | Throw e => (Throw e, None, k)
      | Abort a => (Abort a, None, k)
      | OutOfFuel => (OutOfFuel, None, k)
      end
  end.

(** What can happen to a keeper: a new timeout, the time advances, the loop
    fires the timer when it has expired, a future is polled or dropped, and
    the executor shuts down. *)
Inductive step : TimerKeeper -> TimerKeeper -> Prop :=
| K_timeout i k k' : toks (io k) !! i = None -> doTimeout i k = Ret k' -> step k k'
| K_tick t k : (now k <= t)%Z -> step k (mkKeeper (io k) (timeout_ k) (timer_ k) t)
| K_fire e k k' : timer_ k = Some e -> (e <= now k)%Z -> onTimer false true (upd_timer None k) = Ret k' -> step k k'
| K_poll c i k r k' : is_Some (toks (io k) !! i) -> tok_poll (Some c) i k = (Ret r, k') -> step k k'
| K_drop i k o : is_Some (toks (io k) !! i) -> destroy i (io k) = Ret o -> step k (upd_io o k)
| K_cleanup k k' : cleanup k = Ret k' -> step k k'.
End Keeper.

(** ** Timer *)
Module OneTimer.

(** [src/include/futures/Timer.h:11-16] Timer::State *)
Inductive State := INIT | WAITING | DONE | CANCELLED.
#[global] Instance State_eq_dec : EqDecision State.
Proof. solve_decision. Defined.

(** [timer_]: started; [t_linked]: in the executor's list of watchers. *)
(** [src/include/futures/Timer.h:62-64] Timer *)
Record Timer := mkTimer { timer_ : bool; task_ : option Task; s_ : State; t_linked : bool }.

(** [src/include/futures/Timer.h:18-24] Timer::Timer *)
Definition new_timer : Timer := mkTimer false None INIT false.

(** [src/include/futures/Timer.h:75-78] Timer::notify *)
Definition notify (t : Timer) : Timer * list Task :=
  (mkTimer (timer_ t) None (s_ t) (t_linked t), match task_ t with Some k => [k] | None => [] end).

(** [src/include/futures/Timer.h:26-34] Timer::start *)
Definition start (t : Timer) : res Timer :=
  match s_ t with
  | INIT | CANCELLED => if t_linked t then Abort "already linked" else Ret (mkTimer true (task_ t) WAITING true)
  | _ => Throw InvalidPollStateException
  end.

(** [src/include/futures/Timer.h:40-47] Timer::onCancel *)
Definition onCancel (t : Timer) : res (Timer * list Task) :=
  match s_ t with
  | WAITING => if t_linked t then Ret (notify (mkTimer false (task_ t) CANCELLED false)) else Abort "not linked"
  | _ => Ret (notify t)
  end.

(** [src/include/futures/Timer.h:66-73] Timer::onEvent *)
Definition onEvent (ev_TIMER : bool) (t : Timer) : res (Timer * list Task) :=
  if negb ev_TIMER then Ret (notify t) else
  if t_linked t then Ret (notify (mkTimer false (task_ t) DONE false)) else Abort "not linked".

(** [src/include/futures/Timer.h:110-114] TimerFuture *)
Definition TimerFuture := option Timer.

(** [src/include/futures/Timer.h:88-107] TimerFuture::poll *)
Definition TimerFuture_poll (cur : option Task) (f : TimerFuture) : res (Poll unit) * TimerFuture :=
  let go (t : Timer) : res (Poll unit) * TimerFuture :=
    match s_ t with
    | WAITING =>
        match CurrentTask_park cur with
        | Ret k => (Ret not_ready, Some (mkTimer (timer_ t) (Some k) (s_ t) (t_linked t)))
        | Throw e => (Throw e, Some t)
        | Abort a => (Abort a, Some t)
        | OutOfFuel => (OutOfFuel, Some t)
        end
    | CANCELLED => (Ret (EXCEPTION (Some (FutureCancelledException CR_Unknown))), Some t)
    | DONE => (Ret (makePollReady tt), Some t)
    | INIT => (Throw InvalidPollStateException, Some t)
    end in
  match f with
  | Some t => go t
  | None =>
      match start new_timer with
      | Ret t => go t
      | Throw e => (Throw e, Some new_timer)
      | Abort a => (Abort a, Some new_timer)
      | OutOfFuel => (OutOfFuel, Some new_timer)
      end
  end.
End OneTimer.

(** ** TimeoutFuture *)
Section Timeout.
Context {W Fut TimerFut T : Type} `{FF : Future W Fut T, FT : Future W TimerFut unit}.

(** [src/include/futures/Timeout.h:51-55] TimeoutFuture *)
Record TimeoutFuture := mkTimeout { f_ : option Fut; tm_ : option TimerFut; desc_ : string }.

(** [src/include/futures/Timeout.h:62-76] timeout *)
Definition timeout (f : Fut) (timer : TimerFut) (desc : string) : TimeoutFuture :=
  mkTimeout (Some f) (Some timer) desc.

(** [src/include/futures/Timeout.h:8-15] TimeoutException; the message *)
Definition timeout_exn (desc : string) : exn :=
  TimeoutException (if decide (desc = EmptyString) then "Timeout" else "Timeout from " ++ desc).

(** [src/include/futures/Timeout.h:29-49] TimeoutFuture::poll *)
Definition TimeoutFuture_poll (m : TimeoutFuture) (w : W) : res (Poll T) * TimeoutFuture * W :=
  match tm_ m with
  | None => (Throw OptionalEmptyException, m, w)
  | Some tm =>
      let '(ra, tm', w1) := poll tm w in
      let m1 := mkTimeout (f_ m) (Some tm') (desc_ m) in
      let cleared := mkTimeout None None (desc_ m) in
      match ra with
      | Ret (EXCEPTION e) => (Ret (EXCEPTION e), cleared, w1)
      | Ret NOTHING => (Throw UsingUninitializedTry, m1, w1)
      | Ret (VALUE (Some _)) => (Ret (EXCEPTION (Some (timeout_exn (desc_ m)))), cleared, w1)
      | Ret (VALUE None) =>
          match f_ m with
          | None => (Throw OptionalEmptyException, m1, w1)
          | Some f =>
              let '(rb, f', w2) := poll f w1 in
              match rb with
              | Ret (EXCEPTION e) => (Ret (EXCEPTION e), cleared, w2)
              | Ret NOTHING => (Throw UsingUninitializedTry, mkTimeout (Some f') (Some tm') (desc_ m), w2)
              | Ret (VALUE (Some v)) => (Ret (VALUE (Some v)), mkTimeout (Some f') None (desc_ m), w2)
              | Ret (VALUE None) => (Ret (VALUE None), mkTimeout (Some f') (Some tm') (desc_ m), w2)
              | Throw e => (Throw e, mkTimeout (Some f') (Some tm') (desc_ m), w2)
              | Abort s => (Abort s, mkTimeout (Some f') (Some tm') (desc_ m), w2)
              | OutOfFuel => (OutOfFuel, mkTimeout (Some f') (Some tm') (desc_ m), w2)
              end
          end
      | Throw e => (Throw e, m1, w1)
      | Abort s => (Abort s, m1, w1)
      | OutOfFuel => (OutOfFuel, m1, w1)
      end
  end.
#[global] Instance TimeoutFuture_Future : Future W TimeoutFuture T := TimeoutFuture_poll.

(** The race of a future against a timer: at each round the timer is looked
    at first. *)
Context (env : W -> W -> Prop).
Inductive races (desc : string) : Fut -> TimerFut -> W -> Try T -> W -> Prop :=
| R_timeout f tm w u tm' w' :
    poll tm w = (Ret (VALUE (Some u)), tm', w') -> races desc f tm w (EXCEPTION (Some (timeout_exn desc))) w'
| R_timer_fails f tm w e tm' w' :
    poll tm w = (Ret (EXCEPTION e), tm', w') -> races desc f tm w (EXCEPTION e) w'
| R_value f tm w tm' w1 v f' w' :
    poll tm w = (Ret (VALUE None), tm', w1) -> poll f w1 = (Ret (VALUE (Some v)), f', w') -> races desc f tm w (VALUE v) w'
| R_fails f tm w tm' w1 e f' w' :
    poll tm w = (Ret (VALUE None), tm', w1) -> poll f w1 = (Ret (EXCEPTION e), f', w') -> races desc f tm w (EXCEPTION e) w'
| R_wait f tm w tm' w1 f' w2 w3 r w' :
    poll tm w = (Ret (VALUE None), tm', w1) -> poll f w1 = (Ret (VALUE None), f', w2) -> env w2 w3 ->
    races desc f' tm' w3 r w' -> races desc f tm w r w'.
End Timeout.
Arguments TimeoutFuture Fut TimerFut : clear implicits.

(** ** Laws of TimerKeeper *)
Module KeeperLaws.
Import Keeper.

Definition dl (o : IOObject Z) (i : nat) : Z := match toks o !! i with Some t => data t | None => 0%Z end.

(** The pending tokens are in the order of their deadlines, none further
    away than the timeout; the timer is started for the first of them or
    earlier; and what is done is due. *)
Record kinv (k : TimerKeeper) : Prop := {
  ki_io : io_ok (io k);
  ki_ops : forall i t, toks (io k) !! i = Some t -> op_ t = OpRead;
  ki_sorted : StronglySorted (fun i j => dl (io k) i <= dl (io k) j)%Z (pRead (io k));
  ki_bound : forall i, i ∈ pRead (io k) -> (dl (io k) i <= now k + timeout_ k)%Z;
  ki_timer : forall i l, pRead (io k) = i :: l -> exists e, timer_ k = Some e /\ (e <= dl (io k) i)%Z;
  ki_due : forall i t, toks (io k) !! i = Some t -> s_ t = DONE -> (data t <= now k)%Z }.

Lemma sorted_ext (f g : nat -> Z) l :
  (forall i, i ∈ l -> f i = g i) -> StronglySorted (fun i j => f i <= f j)%Z l -> StronglySorted (fun i j => g i <= g j)%Z l.
Proof.
  induction l as [|i l IH]; intros He Hs; [constructor|]. apply StronglySorted_inv in Hs as [Hs Hf]. constructor.
  - apply IH; [|done]. intros j Hj. apply He, elem_of_cons. by right.
  - rewrite Forall_forall in *. intros j Hj. rewrite <- !He by (apply elem_of_cons; auto). by apply Hf.
Qed.

Lemma sorted_filter (R : nat -> nat -> Prop) (P : nat -> Prop) `{!forall x, Decision (P x)} l :
  StronglySorted R l -> StronglySorted R (filter P l).
Proof.
  induction l as [|i l IH]; intros Hs; [constructor|]. apply StronglySorted_inv in Hs as [Hs Hf]. rewrite filter_cons.
  case_decide; [|by apply IH]. constructor; [by apply IH|]. rewrite Forall_forall in *. intros j Hj.
  apply list_elem_of_filter in Hj as [_ Hj]. by apply Hf.
Qed.

Lemma filter_id (P : nat -> Prop) `{!forall x, Decision (P x)} (l : list nat) : (forall i, i ∈ l -> P i) -> filter P l = l.
Proof.
  induction l as [|i l IH]; [done|]. intros Hl. rewrite filter_cons_True by (apply Hl, elem_of_cons; by left).
  f_equal. apply IH. intros j Hj. apply Hl, elem_of_cons. by right.
Qed.

Lemma sorted_snoc (R : nat -> nat -> Prop) l x : StronglySorted R l -> Forall (fun i => R i x) l -> StronglySorted R (l ++ [x]).
Proof.
  induction l as [|i l IH]; intros Hs Hf; cbn; [repeat constructor|]. apply StronglySorted_inv in Hs as [Hs Hi].
  apply Forall_cons in Hf as [Hx Hf]. constructor; [by apply IH|]. apply Forall_app. split; [done|]. by repeat constructor.
Qed.

(** Tokens were finished or removed; those left on the list are as before. *)
Lemma shrink_ok k o' (P : nat -> Prop) `{!forall x, Decision (P x)} :
  kinv k -> io_ok o' -> pRead o' = filter P (pRead (io k)) ->
  (forall i t, toks o' !! i = Some t -> exists t0, toks (io k) !! i = Some t0 /\ op_ t = op_ t0 /\ data t = data t0 /\
     (s_ t = DONE -> s_ t0 = DONE \/ (data t <= now k)%Z)) ->
  (forall i, i ∈ pRead o' -> dl o' i = dl (io k) i) ->
  kinv (upd_io o' k).
Proof.
  intros [H1 H2 H3 H4 H5 H6] Hok Hp Ht Hd. split; cbn; try done.
  - intros i t Hi. destruct (Ht i t Hi) as (t0 & E & -> & _). by eapply H2.
  - apply (sorted_ext (dl (io k))); [intros i Hi; symmetry; by apply Hd|]. rewrite Hp. by apply sorted_filter.
  - intros i Hi. rewrite Hd by done. apply H4. rewrite Hp in Hi. by apply list_elem_of_filter in Hi as [_ ?].
  - intros i l E. assert (Hin : i ∈ pRead o') by (rewrite E; apply elem_of_cons; by left). rewrite Hd by done.
    rewrite Hp in Hin. apply list_elem_of_filter in Hin as [_ Hin].
    destruct (pRead (io k)) as [|j l'] eqn:Ek; [by apply elem_of_nil in Hin|].
    destruct (H5 j l' eq_refl) as (e & He & Hle). exists e. split; [done|].
    apply elem_of_cons in Hin as [->|Hin]; [done|]. apply StronglySorted_inv in H3 as [_ Hf].
    rewrite Forall_forall in Hf. specialize (Hf i Hin). cbn in Hf. lia.
  - intros i t Hi Hs. destruct (Ht i t Hi) as (t0 & E & _ & Hda & Hx). destruct (Hx Hs) as [Hx'|]; [|done].
    rewrite Hda. by eapply H6.
Qed.

Lemma addTimer_ok i k :
  kinv k -> toks (io k) !! i = None -> (0 < timeout_ k)%Z ->
  exists k', doTimeout i k = Ret k' /\ kinv k' /\ now k' = now k /\ timeout_ k' = timeout_ k /\
    toks (io k') !! i = Some (mkToken true None STARTED OpRead (now k + timeout_ k)%Z).
Proof.
  intros Hk Hi Ht. destruct Hk as [H1 H2 H3 H4 H5 H6]. unfold doTimeout, addTimer. cbn [io upd_io].
  set (d := (now k + timeout_ k)%Z). set (o1 := newTok i OpRead d (io k)).
  assert (Hi1 : toks o1 !! i = Some (mkToken false None STARTED OpRead d)) by apply lookup_insert_eq.
  destruct (attach_ok i _ o1 (newTok_ok i OpRead d (io k) H1 Hi) Hi1 eq_refl) as (o2 & -> & Ht2 & Hp2 & _ & Hok2). cbn [res_bind].
  pose proof (Hp2 OpRead : pRead o2 = pRead (io k) ++ [i]) as Hr.
  assert (Htoks : toks o2 = <[i := mkToken true None STARTED OpRead d]> (toks (io k)))
    by (by rewrite Ht2; cbn; rewrite insert_insert_eq).
  assert (Hnot : i ∉ pRead (io k)).
  { intros Hin. apply (ok_pending _ H1 OpRead i) in Hin as (t & Ht' & _). congruence. }
  assert (Hdl : forall j, j ∈ pRead (io k) -> dl o2 j = dl (io k) j).
  { intros j Hj. unfold dl. rewrite Htoks, lookup_insert_ne; [done|]. by intros ->. }
  assert (Hdi : dl o2 i = d) by (unfold dl; by rewrite Htoks, lookup_insert_eq).
  assert (Hdead : deadline i o2 = Ret d) by (unfold deadline, with_tok; by rewrite Htoks, lookup_insert_eq).
  assert (Hall : forall tm, (forall j l, pRead o2 = j :: l -> exists e, tm = Some e /\ (e <= dl o2 j)%Z) ->
    kinv (mkKeeper o2 (timeout_ k) tm (now k))).
  { intros tm Htm. split; cbn; try done.
    - intros j t. rewrite Htoks. intros Hj. apply lookup_insert_Some in Hj as [[_ <-]|[_ Hj]]; [done|by eapply H2].
    - rewrite Hr. apply sorted_snoc.
      + apply (sorted_ext (dl (io k))); [|done]. intros j Hj. symmetry. by apply Hdl.
      + apply Forall_forall. intros j Hj. rewrite Hdi, Hdl by done. by apply H4.
    - intros j. rewrite Hr, elem_of_app, list_elem_of_singleton. intros [Hj| ->]; [rewrite Hdl by done; by apply H4|].
      rewrite Hdi. unfold d. lia.
    - intros j t. rewrite Htoks. intros Hj. apply lookup_insert_Some in Hj as [[_ <-]|[_ Hj]]; [done|by eapply H6]. }
  destruct (pRead o2) as [|p l] eqn:Ep; [by destruct (pRead (io k))|]. case_decide as Hpi.
  - rewrite Hdead. cbn [res_bind]. eexists. split; [done|]. split; [|cbn; by rewrite Htoks, lookup_insert_eq].
    apply Hall. intros j l' [= <- <-]. subst p. eexists. split; [done|]. rewrite Hdi. lia.
  - eexists. split; [done|]. split; [|cbn; by rewrite Htoks, lookup_insert_eq]. apply Hall. intros j l' [= <- <-].
    destruct (pRead (io k)) as [|j0 l0] eqn:Ek; [cbn in Hr; congruence|]. cbn in Hr. injection Hr as -> ->.
    destruct (H5 j0 l0 eq_refl) as (e & He & Hle). exists e. split; [done|]. rewrite Hdl by (apply elem_of_cons; by left). done.
Qed.

(** Exactly the tokens that are due are completed. *)
Lemma expire_ok fuel t o :
  io_ok o -> StronglySorted (fun i j => dl o i <= dl o j)%Z (pRead o) -> length (pRead o) <= fuel ->
  exists o', expire fuel t o = Ret o' /\ io_ok o' /\
    pRead o' = filter (fun i => t < dl o i)%Z (pRead o) /\
    forall j, toks o' !! j =
      match toks o !! j with
      | Some x => Some (if decide (j ∈ pRead o /\ (dl o j <= t)%Z) then ended DONE x else x)
      | None => None
      end.
Proof.
  revert o. induction fuel as [|fuel IH]; intros o Hok Hs Hf.
  { destruct (pRead o) eqn:E; [|cbn in Hf; lia]. exists o. cbn. rewrite E. split; [done|]. split; [done|]. split; [done|].
    intros j. destruct (toks o !! j); [|done]. rewrite decide_False; [done|]. by intros [?%elem_of_nil _]. }
  cbn [expire]. destruct (pRead o) as [|p l] eqn:E.
  { exists o. split; [done|]. split; [done|]. split; [done|].
    intros j. destruct (toks o !! j); [|done]. rewrite decide_False; [done|]. by intros [?%elem_of_nil _]. }
  destruct (head_pending OpRead p l o Hok E) as (x & Hx & Hst & Hop & _ & Hl & _).
  assert (Hdp : dl o p = data x) by (unfold dl; by rewrite Hx).
  unfold deadline at 1, with_tok. rewrite Hx. cbn [res_bind].
  pose proof (StronglySorted_inv Hs) as [Hs' Hf']. rewrite Forall_forall in Hf'.
  case_decide as Hd.
  - destruct (notifyDone_ok p x o Hok Hx Hst) as (o1 & -> & Hok1 & Ht1 & Hp1 & _). cbn [res_bind].
    assert (E1 : pRead o1 = l) by (by rewrite (Hp1 OpRead : pRead o1 = _)).
    assert (Hnl : p ∉ l).
    { pose proof (ok_nodup o Hok OpRead) as Hnd. cbn in Hnd. rewrite E in Hnd. by apply NoDup_cons in Hnd as [? _]. }
    assert (Hdl : forall j, dl o1 j = dl o j).
    { intros j. unfold dl. rewrite Ht1. destruct (decide (j = p)) as [->|Hne]; [by rewrite lookup_insert_eq, Hx|by rewrite lookup_insert_ne]. }
    destruct (IH o1 Hok1) as (o' & -> & Hok' & Hp' & Ht').
    { rewrite E1. apply (sorted_ext (dl o)); [by intros|done]. }
    { rewrite E1. cbn in Hf. lia. }
    exists o'. split; [done|]. split; [done|]. split.
    + rewrite Hp', E1, filter_cons_False by (rewrite Hdp; lia). apply list_filter_iff. intros j. by rewrite Hdl.
    + intros j. rewrite Ht', Ht1, E1, Hdl. destruct (decide (j = p)) as [->|Hne].
      * rewrite lookup_insert_eq, Hx. f_equal. rewrite decide_False by (by intros [? _]). rewrite decide_True; [done|].
        split; [apply elem_of_cons; by left|lia].
      * rewrite lookup_insert_ne by done. destruct (toks o !! j); [|done]. f_equal.
        apply decide_ext. rewrite elem_of_cons. naive_solver.
  - exists o. split; [done|]. split; [done|]. split.
    + rewrite E. rewrite filter_cons_True by (rewrite Hdp; lia). f_equal. symmetry. apply filter_id. intros j Hj. specialize (Hf' j Hj). cbn in Hf'. lia.
    + intros j. destruct (toks o !! j); [|done]. rewrite decide_False; [done|]. intros [Hj Hle].
      apply elem_of_cons in Hj as [->|Hj]; [lia|]. specialize (Hf' j Hj). cbn in Hf'. lia.
Qed.

(** The timer fires: every pending token that is due is completed, and the
    timer is started for the first of the others. *)
Lemma onTimer_ok k :
  kinv k ->
  exists k', onTimer false true (upd_timer None k) = Ret k' /\ kinv k' /\ now k' = now k /\ timeout_ k' = timeout_ k /\
    (forall i t, toks (io k) !! i = Some t -> i ∈ pRead (io k) -> (data t <= now k)%Z ->
       toks (io k') !! i = Some (ended DONE t)) /\
    (forall i, i ∈ pRead (io k') -> (now k < dl (io k') i)%Z).
Proof.
  intros Hk. destruct (expire_ok (length (pRead (io k))) (now k) (io k) (ki_io k Hk) (ki_sorted k Hk) (le_n _))
    as (o & E & Hok & Hp & Ht).
  unfold onTimer. cbn [negb io now upd_timer]. rewrite E. cbn [res_bind].
  assert (Hdl : forall i, i ∈ pRead o -> dl o i = dl (io k) i).
  { intros i _. unfold dl. rewrite Ht. destruct (toks (io k) !! i); [|done]. by case_decide. }
  assert (Hk' : kinv (upd_io o k)).
  { apply (shrink_ok k o (fun i => now k < dl (io k) i)%Z); try done. intros i t. rewrite Ht.
    destruct (toks (io k) !! i) as [x|] eqn:Ex; [|done]. intros [= <-]. exists x. split; [done|].
    case_decide as Hd; [|by auto]. split; [done|]. split; [done|]. intros _. right. destruct Hd as [_ Hd].
    unfold dl in Hd. by rewrite Ex in Hd. }
  assert (Hdone : forall i t, toks (io k) !! i = Some t -> i ∈ pRead (io k) -> (data t <= now k)%Z -> toks o !! i = Some (ended DONE t)).
  { intros i t Hi Hin Hle. rewrite Ht, Hi, decide_True; [done|]. split; [done|]. unfold dl. by rewrite Hi. }
  assert (Hlate : forall i, i ∈ pRead o -> (now k < dl o i)%Z).
  { intros i Hin. rewrite Hdl by done. rewrite Hp in Hin. by apply list_elem_of_filter in Hin as [? _]. }
  destruct (pRead o) as [|p l] eqn:Eo.
  - eexists. split; [done|]. split; [|cbn; rewrite Eo; done]. destruct Hk' as [K1 K2 K3 K4 K5 K6]. cbn in *. split; cbn; try done.
    rewrite Eo. done.
  - assert (Hin : p ∈ p :: l) by (apply elem_of_cons; by left).
    assert (exists x, toks o !! p = Some x) as (x & Hx).
    { assert (Hin' : p ∈ getPending OpRead o) by (cbn; by rewrite Eo). apply (ok_pending o Hok) in Hin' as (x & Hx & _). eauto. }
    assert (Hdp : dl o p = data x) by (unfold dl; by rewrite Hx).
    unfold deadline, with_tok. rewrite Hx. cbn [res_bind]. specialize (Hlate p Hin) as Hlp. rewrite decide_True by lia.
    eexists. split; [done|]. split; [|cbn; rewrite Eo; done].
    destruct Hk' as [K1 K2 K3 K4 K5 K6]. cbn in *. split; cbn; try done.
    rewrite Eo. intros j l' [= <- <-]. eexists. split; [done|]. lia.
Qed.

Lemma kinv_step k k' : kinv k /\ (0 < timeout_ k)%Z -> step k k' -> kinv k' /\ (0 < timeout_ k')%Z.
Proof.
  intros [Hk Hpos] Hs. destruct Hs as [i k k' Hi E|t k Ht|e k k' He Hle E|c i k r k' [x Hx] E|i k o [x Hx] E|k k' E].
  - destruct (addTimer_ok i k Hk Hi Hpos) as (k1 & E1 & Hk1 & _ & Hto & _). rewrite E in E1. simplify_eq. by rewrite Hto.
  - destruct Hk as [H1 H2 H3 H4 H5 H6]. split; [|done]. split; cbn; try done.
    + intros i Hi. specialize (H4 i Hi). lia.
    + intros i x Hi Hx. specialize (H6 i x Hi Hx). lia.
  - destruct (onTimer_ok k Hk) as (k1 & E1 & Hk1 & _ & Hto & _). rewrite E in E1. simplify_eq. by rewrite Hto.
  - unfold tok_poll in E. rewrite Hx in E. destruct (s_ x) eqn:Hst; [|by simplify_eq..].
    destruct (park_ok c i x (io k) (ki_io k Hk) Hx Hst) as (o & Eo & Hok & Ht & Hp & _). rewrite Eo in E. simplify_eq.
    split; [|done]. apply (shrink_ok k o (fun _ => True)); try done.
    + rewrite (Hp OpRead : pRead o = _). symmetry. by apply filter_id.
    + intros j y. rewrite Ht. intros Hj. apply lookup_insert_Some in Hj as [[-> <-]|[_ Hj]]; [|by eauto 10]. exists x. done.
    + intros j _. unfold dl. rewrite Ht. destruct (decide (j = i)) as [->|Hne]; [by rewrite lookup_insert_eq, Hx|by rewrite lookup_insert_ne].
  - destruct (destroy_ok i x (io k) (ki_io k Hk) Hx) as (o1 & E1 & Hok & Ht & Hp). rewrite E in E1. simplify_eq.
    split; [|done]. apply (shrink_ok k o1 (fun j => j <> i)); try done.
    + exact (Hp OpRead).
    + intros j y. rewrite Ht. intros Hj. apply lookup_delete_Some in Hj as [_ Hj]. eauto 10.
    + intros j Hj. rewrite (Hp OpRead : pRead o1 = _) in Hj. apply list_elem_of_filter in Hj as [Hne _].
      unfold dl. by rewrite Ht, lookup_delete_ne.
  - destruct (cleanup_all_ok (io k) (ki_io k Hk)) as (o & Eo & Hok & Hp & Ht). unfold cleanup in E. rewrite Eo in E.
    cbn in E. simplify_eq. split; [|done]. pose proof (Hp OpRead : pRead o = []) as Hr.
    split; cbn; rewrite ?Hr; try done.
    + intros j y. rewrite Ht. destruct (toks (io k) !! j) as [z|] eqn:Ez; [|done]. intros [= <-].
      destruct (parent_ z); cbn; by eapply (ki_ops k Hk).
    + constructor.
    + by intros j Hj%elem_of_nil.
    + intros j y. rewrite Ht. destruct (toks (io k) !! j) as [z|] eqn:Ez; [|done]. intros [= <-].
      destruct (parent_ z); [done|]. by eapply (ki_due k Hk).
Qed.

Lemma empty_keeper_inv t n : kinv (mkKeeper empty_io t None n).
Proof.
  split; cbn; try done.
  - split.
    + intros []; constructor.
    + intros [] i; cbn; split; (by intros ?%not_elem_of_nil) || (by intros (x & ? & _)).
    + by intros i x.
    + by intros i x.
    + done.
  - constructor.
  - by intros i Hi%elem_of_nil.
Qed.

(** C38: the timer keeper fires every timeout, and none early.  In every state
    reachable from a new keeper: a timeout that has completed is due; if any
    timeout is pending the loop's timer is started, for the deadline of the
    first one or earlier, although timeouts may have been dropped meanwhile;
    starting one more timeout succeeds, due after the keeper's delay; and when
    the timer fires, no assertion fails, every pending timeout that is due is
    completed and every one still pending is not due yet. *)
Theorem timer_keeper_spec delay start k0 k :
  new_keeper delay start = Ret k0 -> rtc step k0 k ->
  (forall i t, toks (io k) !! i = Some t -> s_ t = DONE -> data t <= now k)%Z /\
  (forall i l, pRead (io k) = i :: l -> exists e, timer_ k = Some e /\ forall j, j ∈ pRead (io k) -> e <= dl (io k) j)%Z /\
  (forall i, toks (io k) !! i = None -> exists k', doTimeout i k = Ret k' /\
     toks (io k') !! i = Some (mkToken true None STARTED OpRead (now k + delay)%Z)) /\
  exists k', onTimer false true (upd_timer None k) = Ret k' /\
    (forall i t, toks (io k) !! i = Some t -> i ∈ pRead (io k) -> (data t <= now k)%Z ->
       toks (io k') !! i = Some (ended DONE t)) /\
    (forall i, i ∈ pRead (io k') -> (now k < dl (io k') i)%Z).
Proof.
  intros Hn Hr. unfold new_keeper in Hn. case_decide as Hd; simplify_eq.
  assert (Hinv : (kinv k /\ (0 < timeout_ k)%Z) /\ timeout_ k = delay).
  { apply (rtc_ind_r (R := step) (fun k => (kinv k /\ (0 < timeout_ k)%Z) /\ timeout_ k = delay) (mkKeeper empty_io delay None start)); [| |done].
    - split; [split; [apply empty_keeper_inv|done]|done].
    - intros x y _ Hs [Hx Hto]. split; [by eapply kinv_step|]. rewrite <- Hto. clear -Hs Hx. destruct Hx as [Hk Hpos].
      destruct Hs as [i k k' Hi E|t k Ht|e k k' He Hle E|c i k r k' [x Hx] E|i k o [x Hx] E|k k' E]; try done.
      + destruct (addTimer_ok i k Hk Hi Hpos) as (k1 & E1 & _ & _ & Hto & _). rewrite E in E1. by simplify_eq.
      + destruct (onTimer_ok k Hk) as (k1 & E1 & _ & _ & Hto & _). rewrite E in E1. by simplify_eq.
      + unfold tok_poll in E. rewrite Hx in E. destruct (s_ x); [destruct (park (Some c) i (io k))|..]; by simplify_eq.
      + unfold cleanup in E. destruct (cleanup_all (io k)); cbn in E; by simplify_eq. }
  destruct Hinv as [[Hk Hpos] Hto]. split; [apply (ki_due k Hk)|]. split; [|split].
  - intros i l E. destruct (ki_timer k Hk i l E) as (e & He & Hle). exists e. split; [done|]. intros j Hj. rewrite E in Hj.
    apply elem_of_cons in Hj as [->|Hj]; [done|]. pose proof (ki_sorted k Hk) as Hs. rewrite E in Hs.
    apply StronglySorted_inv in Hs as [_ Hf]. rewrite Forall_forall in Hf. specialize (Hf j Hj). cbn in Hf. lia.
  - intros i Hi. destruct (addTimer_ok i k Hk Hi Hpos) as (k' & E & _ & _ & _ & Ht). exists k'. by rewrite <- Hto.
  - destruct (onTimer_ok k Hk) as (k' & E & _ & _ & _ & H1 & H2). by exists k'.
Qed.

(** A timeout of 10 started at time 0 is completed when the timer fires at
    time 10. *)
Lemma timer_keeper_spec_witness :
  exists k0 k1 k', new_keeper 10 0 = Ret k0 /\ doTimeout 1 k0 = Ret k1 /\
    onTimer false true (upd_timer None (mkKeeper (io k1) 10 (timer_ k1) 10)) = Ret k' /\
    toks (io k') !! 1 = Some (mkToken false None DONE OpRead 10%Z).
Proof.
  set (k0 := mkKeeper empty_io 10 None 0).
  assert (E1 : exists k1, doTimeout 1 k0 = Ret k1) by (eexists; vm_compute; reflexivity). destruct E1 as (k1 & E1).
  set (k2 := mkKeeper (io k1) (timeout_ k1) (timer_ k1) 10).
  assert (Hr : rtc step k0 k2).
  { apply (rtc_l _ _ k1); [exact (K_timeout 1 k0 k1 eq_refl E1)|]. apply (rtc_l _ _ k2); [|apply rtc_refl].
    apply (K_tick 10 k1). vm_compute in E1. injection E1 as <-. vm_compute. discriminate. }
  destruct (timer_keeper_spec 10 0 k0 k2 eq_refl Hr) as (_ & _ & _ & k' & E & Hdone & _).
  exists k0, k1, k'. split; [reflexivity|]. split; [exact E1|]. vm_compute in E1. injection E1 as <-. split; [exact E|].
  apply (Hdone 1 (mkToken true None STARTED OpRead 10%Z)); [reflexivity|apply list_elem_of_singleton; reflexivity|cbn; lia].
Defined.
End KeeperLaws.

(** ** Laws of TimeoutFuture *)
Section TimeoutLaws.
Context {W Fut TimerFut T : Type} `{FF : Future W Fut T, FT : Future W TimerFut unit}.
Context (env : W -> W -> Prop).

Lemma timeout_completes desc (f : Fut) (tm : TimerFut) w (r : Try T) w' :
  completes env (mkTimeout (Some f) (Some tm) desc) w r w' -> races env desc f tm w r w'.
Proof.
  intros H. remember (mkTimeout (Some f) (Some tm) desc) as m eqn:Em. revert f tm Em.
  induction H as [m w v m' w' Hp|m w e m' w' Hp|m w m1 w1 w2 r w3 Hp He Hc IH]; intros f tm ->;
    unfold poll, TimeoutFuture_Future, TimeoutFuture_poll in Hp; cbn in Hp;
    destruct (poll tm w) as [[ra tm'] wa] eqn:Ea; destruct ra as [[[u|]|e'|]| | |]; try done;
    try (simplify_eq; by econstructor);
    destruct (poll f wa) as [[rb f'] wb] eqn:Eb; destruct rb as [[[v'|]|e'|]| | |]; simplify_eq; try (by econstructor).
  eapply R_wait; [done|done|done|]. by apply IH.
Qed.

Lemma races_completes desc (f : Fut) (tm : TimerFut) w (r : Try T) w' :
  races env desc f tm w r w' -> completes env (mkTimeout (Some f) (Some tm) desc) w r w'.
Proof.
  induction 1 as [f tm w u tm' w' Ea|f tm w e tm' w' Ea|f tm w tm' w1 v f' w' Ea Eb|f tm w tm' w1 e f' w' Ea Eb
                 |f tm w tm' w1 f' w2 w3 r w' Ea Eb He Hr IH].
  - eapply completes_exception. unfold poll at 1, TimeoutFuture_Future, TimeoutFuture_poll. cbn. by rewrite Ea.
  - eapply completes_exception. unfold poll at 1, TimeoutFuture_Future, TimeoutFuture_poll. cbn. by rewrite Ea.
  - eapply completes_value. unfold poll at 1, TimeoutFuture_Future, TimeoutFuture_poll. cbn. by rewrite Ea, Eb.
  - eapply completes_exception. unfold poll at 1, TimeoutFuture_Future, TimeoutFuture_poll. cbn. by rewrite Ea, Eb.
  - eapply completes_pending; [|done|exact IH]. unfold poll at 1, TimeoutFuture_Future, TimeoutFuture_poll. cbn. by rewrite Ea, Eb.
Qed.
End TimeoutLaws.

(** A timeout is a race between the future and the timer.  [timeout]
    completes with the value or the error of the future if it completes in a
    round in which the timer has not fired, with a timeout error (or with the
    timer's own error) if the timer is ready first, the timer being looked at
    first in each round, and in no other way. *)
Theorem timeout_spec {W Fut TimerFut T} `{FF : !Future W Fut T, FT : !Future W TimerFut unit}
  (env : W -> W -> Prop) (f : Fut) (tm : TimerFut) desc w r w' :
  completes env (timeout f tm desc) w r w' <-> races env desc f tm w r w'.
Proof. split; [apply timeout_completes|apply races_completes]. Qed.
