(* ===== verification/Crypto.v ===== *)
(** * Base64

    Models [src/src/http/cryptlite/base64.h], with which the handshake of
    [src/src/http/WsCodec.cpp] prints its accept key.  Bytes are integers;
    arrays are lists. *)

From S2P Require Import Prelude.
Local Open Scope cpp_scope.
Local Open Scope Z_scope.

(** ** Base64 *)
Module Base64.

(** [src/src/http/cryptlite/base64.h:197-197] base64::enctable *)
Definition enctable : list Z := Eval vm_compute in
  bytes "ABCDEFGHIJKLMNOPQRSTUVWXYZabcdefghijklmnopqrstuvwxyz0123456789+/".

(** [src/src/http/cryptlite/base64.h:198-207] base64::dectable *)
Definition dectable : list Z :=
  [-1; -1; -1; -1; -1; -1; -1; -1; -1; -1; -1; -1; -1; -1; -1; -1;
   -1; -1; -1; -1; -1; -1; -1; -1; -1; -1; -1; -1; -1; -1; -1; -1;
   -1; -1; -1; -1; -1; -1; -1; -1; -1; -1; -1; 62; -1; -1; -1; 63;
   52; 53; 54; 55; 56; 57; 58; 59; 60; 61; -1; -1; -1; -1; -1; -1;
   -1;  0;  1;  2;  3;  4;  5;  6;  7;  8;  9; 10; 11; 12; 13; 14;
   15; 16; 17; 18; 19; 20; 21; 22; 23; 24; 25; -1; -1; -1; -1; -1;
   -1; 26; 27; 28; 29; 30; 31; 32; 33; 34; 35; 36; 37; 38; 39; 40;
   41; 42; 43; 44; 45; 46; 47; 48; 49; 50; 51; -1; -1; -1; -1; -1].

Definition enc (i : Z) : Z := enctable !!! Z.to_nat i.

(** The padding character. *)
Abbreviation PAD := 61%Z.

(** [src/src/http/cryptlite/base64.h:44-74] base64::encode_from_array *)
Fixpoint encode_from_array (s : list Z) : list Z :=
  match s with
  | [] => []
  | [c1] =>
      [enc (Z.shiftr c1 2); enc (Z.shiftl (Z.land c1 3) 4); PAD; PAD]
  | [c1; c2] =>
      [enc (Z.shiftr c1 2);
       enc (Z.lor (Z.shiftl (Z.land c1 3) 4) (Z.shiftr (Z.land c2 240) 4));
       enc (Z.shiftl (Z.land c2 15) 2); PAD]
  | c1 :: c2 :: c3 :: s =>
      enc (Z.shiftr c1 2)
      :: enc (Z.lor (Z.shiftl (Z.land c1 3) 4) (Z.shiftr (Z.land c2 240) 4))
      :: enc (Z.lor (Z.shiftl (Z.land c2 15) 2) (Z.shiftr (Z.land c3 192) 6))
      :: enc (Z.land c3 63)
      :: encode_from_array s
  end.

(** [src/src/http/cryptlite/base64.h:38-42] base64::encode_from_string *)
Definition encode_from_string (s : list Z) : list Z := encode_from_array s.

(** [dectable[c]]: the table has 128 entries. *)
Definition dec (c : Z) : res Z :=
  match dectable !! Z.to_nat c with Some v => Ret v | None => Abort "dectable out of bounds" end.

(** The first two loops [do c = dectable[s[i++] & 0xff] while (...)]: the next
    character of the alphabet.  At the end of the string the terminating null
    is read, which is not of the alphabet. *)
(** [src/src/http/cryptlite/base64.h:153-163] base64::decode, first two loops *)
Fixpoint next_char (s : list Z) : res (Z * list Z) :=
  match s with
  | [] => Ret (-1, [])
  | b :: s =>
      let! c := dec b in
      match s with
      | [] => Ret (c, [])
      | _ => if decide (c = -1) then next_char s else Ret (c, s)
      end
  end.

(** The last two loops, which stop at a padding character ([None]). *)
(** [src/src/http/cryptlite/base64.h:167-172] base64::decode, last two loops *)
Fixpoint next_or_pad (s : list Z) : res (option (Z * list Z)) :=
  match s with
  | [] => Ret (Some (-1, []))
  | b :: s =>
      if decide (b = PAD) then Ret None else
      let! c := dec b in
      match s with
      | [] => Ret (Some (c, []))
      | _ => if decide (c = -1) then next_or_pad s else Ret (Some (c, s))
      end
  end.

(** [src/src/http/cryptlite/base64.h:152-188] base64::decode *)
Fixpoint decode_loop (fuel : nat) (s dest : list Z) : res (list Z) :=
  match s with
  | [] => Ret dest
  | _ =>
      match fuel with
      | O => OutOfFuel
      | S fuel =>
          let! x1 := next_char s in
          if decide (fst x1 = -1) then Ret dest else
          let! x2 := next_char (snd x1) in
          if decide (fst x2 = -1) then Ret dest else
          let dest := dest ++ [u8 (Z.lor (Z.shiftl (fst x1) 2) (Z.land (Z.shiftr (Z.land (fst x2) 48) 4) 255))] in
          let! o3 := next_or_pad (snd x2) in
          match o3 with
          | None => Ret dest
          | Some x3 =>
              if decide (fst x3 = -1) then Ret dest else
              let dest := dest ++ [u8 (Z.lor (Z.shiftl (Z.land (fst x2) 15) 4) (Z.land (Z.shiftr (Z.land (fst x3) 60) 2) 255))] in
              let! o4 := next_or_pad (snd x3) in
              match o4 with
              | None => Ret dest
              | Some x4 =>
                  if decide (fst x4 = -1) then Ret dest else
                  decode_loop fuel (snd x4) (dest ++ [u8 (Z.land (Z.lor (Z.shiftl (Z.land (fst x3) 3) 6) (fst x4)) 255)])
              end
          end
      end
  end.

(** [src/src/http/cryptlite/base64.h:131-189] base64::decode *)
Definition decode (s : list Z) : res (list Z) := decode_loop (length s) s [].

(** ** Laws of base64 *)

(** The six-bit values the encoder looks up. *)
Definition hi (c1 : Z) : Z := Z.shiftr c1 2.
Definition mid (c1 c2 : Z) : Z := Z.lor (Z.shiftl (Z.land c1 3) 4) (Z.shiftr (Z.land c2 240) 4).
Definition mid2 (c2 c3 : Z) : Z := Z.lor (Z.shiftl (Z.land c2 15) 2) (Z.shiftr (Z.land c3 192) 6).
Definition lo (c3 : Z) : Z := Z.land c3 63.

(** Checking a decidable fact about small numbers case by case. *)
Lemma on_range (f : Z -> bool) n b : forallb f (seqZ 0 n) = true -> 0 <= b < n -> f b = true.
Proof. intros Hf Hb. rewrite forallb_forall in Hf. apply Hf, list_elem_of_In, elem_of_seqZ. lia. Qed.

Lemma on_ranges (f : Z -> Z -> bool) n m b c :
  forallb (fun b => forallb (f b) (seqZ 0 m)) (seqZ 0 n) = true -> 0 <= b < n -> 0 <= c < m -> f b c = true.
Proof.
  intros Hf Hb Hc. apply (on_range (f b) m); [|done]. by apply (on_range (fun b => forallb (f b) (seqZ 0 m)) n).
Qed.

(** What is left of a byte: its low and its high bits. *)
Lemma bits_range b : is_byte b ->
  0 <= Z.shiftr (Z.land b 240) 4 < 16 /\ 0 <= Z.shiftr (Z.land b 192) 6 < 4 /\ 0 <= Z.land b 3 < 4 /\ 0 <= Z.land b 15 < 16.
Proof.
  intros Hb. set (f := fun b => let r x n := (0 <=? x) && (x <? n) in
    r (Z.shiftr (Z.land b 240) 4) 16 && r (Z.shiftr (Z.land b 192) 6) 4 && r (Z.land b 3) 4 && r (Z.land b 15) 16).
  assert (H : f b = true) by (apply (on_range f 256); [by vm_compute|done]). unfold f in H. lia.
Qed.

Definition sextet (v : Z) : bool := (0 <=? v) && (v <? 64).

Lemma hi_sextet b : is_byte b -> sextet (hi b) = true.
Proof. apply (on_range (fun b => sextet (hi b)) 256). by vm_compute. Qed.
Lemma lo_sextet b : is_byte b -> sextet (lo b) = true.
Proof. apply (on_range (fun b => sextet (lo b)) 256). by vm_compute. Qed.
Lemma mid_sextet b c : is_byte b -> is_byte c -> sextet (mid b c) = true.
Proof.
  intros Hb%bits_range Hc%bits_range. unfold mid.
  apply (on_ranges (fun x y => sextet (Z.lor (Z.shiftl x 4) y)) 4 16); [by vm_compute|tauto..].
Qed.
Lemma mid2_sextet b c : is_byte b -> is_byte c -> sextet (mid2 b c) = true.
Proof.
  intros Hb%bits_range Hc%bits_range. unfold mid2.
  apply (on_ranges (fun x y => sextet (Z.lor (Z.shiftl x 2) y)) 16 4); [by vm_compute|tauto..].
Qed.

(** Each character of the alphabet decodes to its place in it. *)
Lemma dec_enc v : sextet v = true -> dec (enc v) = Ret v /\ enc v <> PAD /\ 0 <= v.
Proof.
  intros Hv. assert (H : forallb (fun v => match dec (enc v) with Ret w => (v =? w) && negb (enc v =? PAD) | _ => false end)
    (seqZ 0 64) = true) by (vm_compute; reflexivity).
  apply andb_prop in Hv as [H0 H1]. apply Z.leb_le in H0. apply Z.ltb_lt in H1.
  rewrite forallb_forall in H. specialize (H v ltac:(apply list_elem_of_In, elem_of_seqZ; lia)).
  destruct (dec (enc v)) as [w| | |]; try done. apply andb_prop in H as [->%Z.eqb_eq H].
  split; [done|]. split; [|done]. by apply negb_true_iff, Z.eqb_neq in H.
Qed.

Lemma next_char_enc v s : sextet v = true -> next_char (enc v :: s) = Ret (v, s).
Proof.
  intros Hv. destruct (dec_enc v Hv) as (Hd & _ & Hv0). cbn [next_char]. rewrite Hd. cbn [res_bind].
  destruct s; [done|]. by rewrite decide_False by lia.
Qed.

Lemma next_or_pad_enc v s : sextet v = true -> next_or_pad (enc v :: s) = Ret (Some (v, s)).
Proof.
  intros Hv. destruct (dec_enc v Hv) as (Hd & Hp & Hv0). cbn [next_or_pad]. rewrite decide_False by done. rewrite Hd.
  cbn [res_bind]. destruct s; [done|]. by rewrite decide_False by lia.
Qed.

(** The bytes are put together again. *)
Lemma join1 b c : is_byte b -> is_byte c ->
  u8 (Z.lor (Z.shiftl (hi b) 2) (Z.land (Z.shiftr (Z.land (mid b c) 48) 4) 255)) = b.
Proof.
  intros Hb Hc%bits_range. apply Z.eqb_eq. unfold mid.
  apply (on_ranges (fun b y => u8 (Z.lor (Z.shiftl (hi b) 2)
    (Z.land (Z.shiftr (Z.land (Z.lor (Z.shiftl (Z.land b 3) 4) y) 48) 4) 255)) =? b) 256 16); [by vm_compute|done|tauto].
Qed.

Lemma join2 a b c : is_byte a -> is_byte b -> is_byte c ->
  u8 (Z.lor (Z.shiftl (Z.land (mid a b) 15) 4) (Z.land (Z.shiftr (Z.land (mid2 b c) 60) 2) 255)) = b.
Proof.
  intros Ha%bits_range Hb Hc%bits_range.
  assert (E1 : Z.shiftl (Z.land (mid a b) 15) 4 = Z.land b 240).
  { apply Z.eqb_eq. apply (on_ranges (fun x b => Z.shiftl (Z.land (Z.lor (Z.shiftl x 4) (Z.shiftr (Z.land b 240) 4)) 15) 4
      =? Z.land b 240) 4 256); [by vm_compute|tauto|done]. }
  assert (E2 : Z.shiftr (Z.land (mid2 b c) 60) 2 = Z.land b 15).
  { apply Z.eqb_eq. apply (on_ranges (fun b y => Z.shiftr (Z.land (Z.lor (Z.shiftl (Z.land b 15) 2) y) 60) 2
      =? Z.land b 15) 256 4); [by vm_compute|done|tauto]. }
  rewrite E1, E2. apply Z.eqb_eq.
  apply (on_range (fun b => u8 (Z.lor (Z.land b 240) (Z.land (Z.land b 15) 255)) =? b) 256); [by vm_compute|done].
Qed.

Lemma join3 b c : is_byte b -> is_byte c ->
  u8 (Z.land (Z.lor (Z.shiftl (Z.land (mid2 b c) 3) 6) (lo c)) 255) = c.
Proof.
  intros Hb%bits_range Hc. apply Z.eqb_eq.
  apply (on_ranges (fun x c => u8 (Z.land (Z.lor (Z.shiftl (Z.land (Z.lor (Z.shiftl x 2) (Z.shiftr (Z.land c 192) 6)) 3) 6)
    (lo c)) 255) =? c) 16 256); [by vm_compute|tauto|done].
Qed.

#[local] Hint Resolve hi_sextet lo_sextet mid_sextet mid2_sextet : cpp.
#[local] Arguments next_char : simpl never.
#[local] Arguments next_or_pad : simpl never.
#[local] Arguments enc : simpl never.

Ltac dec_char :=
  first [rewrite next_char_enc by auto with cpp | rewrite next_or_pad_enc by auto with cpp];
  cbn [res_bind fst snd];
  rewrite decide_False by (match goal with |- ?v <> _ => pose proof (dec_enc v ltac:(auto with cpp)); lia end).

Lemma decode_quad fuel c1 c2 c3 s dest : is_byte c1 -> is_byte c2 -> is_byte c3 ->
  decode_loop (S fuel) (enc (hi c1) :: enc (mid c1 c2) :: enc (mid2 c2 c3) :: enc (lo c3) :: s) dest
  = decode_loop fuel s (dest ++ [c1; c2; c3]).
Proof.
  intros H1 H2 H3. cbn [decode_loop]. do 4 dec_char. rewrite join1, join2, join3 by done. by rewrite <- !app_assoc.
Qed.

Lemma decode_one fuel c1 dest : is_byte c1 ->
  decode_loop (S fuel) [enc (hi c1); enc (mid c1 0); PAD; PAD] dest = Ret (dest ++ [c1]).
Proof.
  intros H1. assert (H0 : is_byte 0) by (unfold is_byte; lia). cbn [decode_loop]. do 2 dec_char. by rewrite join1.
Qed.

Lemma decode_two fuel c1 c2 dest : is_byte c1 -> is_byte c2 ->
  decode_loop (S fuel) [enc (hi c1); enc (mid c1 c2); enc (mid2 c2 0); PAD] dest = Ret (dest ++ [c1; c2]).
Proof.
  intros H1 H2. assert (H0 : is_byte 0) by (unfold is_byte; lia). cbn [decode_loop]. do 3 dec_char.
  rewrite join1, join2 by done. cbn. by rewrite <- app_assoc.
Qed.

Lemma encode_length s : (length s <= length (encode_from_array s))%nat.
Proof.
  induction s as [s IH] using (induction_ltof1 _ (@length Z)). unfold ltof in IH.
  destruct s as [|c1 [|c2 [|c3 s]]]; cbn; try lia. specialize (IH s ltac:(cbn; lia)). lia.
Qed.

Lemma decode_encode s fuel dest : Forall is_byte s -> (length s <= fuel)%nat ->
  decode_loop fuel (encode_from_array s) dest = Ret (dest ++ s).
Proof.
  revert fuel dest. induction s as [s IH] using (induction_ltof1 _ (@length Z)). unfold ltof in IH.
  intros fuel dest Hs Hf. rewrite !Forall_forall in Hs.
  destruct s as [|c1 [|c2 [|c3 s]]], fuel as [|fuel]; cbn [length] in Hf; try lia; try (cbn; by rewrite app_nil_r).
  - replace (encode_from_array [c1]) with [enc (hi c1); enc (mid c1 0); PAD; PAD]
      by (unfold mid; cbn; by rewrite Z.lor_0_r). apply decode_one, Hs. set_solver.
  - replace (encode_from_array [c1; c2]) with [enc (hi c1); enc (mid c1 c2); enc (mid2 c2 0); PAD]
      by (unfold mid2; cbn; by rewrite Z.lor_0_r). apply decode_two; apply Hs; set_solver.
  - change (encode_from_array (c1 :: c2 :: c3 :: s)) with
      (enc (hi c1) :: enc (mid c1 c2) :: enc (mid2 c2 c3) :: enc (lo c3) :: encode_from_array s).
    rewrite decode_quad by (apply Hs; set_solver). rewrite IH; [by rewrite <- app_assoc|cbn; lia| |lia].
    apply Forall_forall. intros x Hx. apply Hs. set_solver.
Qed.

(** Base64 decoding inverts encoding: for every byte string [s] the
    decoder, run on the encoder's output, ends and returns [s]. *)
Theorem base64_roundtrip s : Forall is_byte s -> decode (encode_from_string s) = Ret s.
Proof. intros Hs. unfold decode, encode_from_string. rewrite decode_encode; [done|done|apply encode_length]. Qed.

Lemma base64_roundtrip_witness : decode (encode_from_string [0; 255; 16; 7]) = Ret [0; 255; 16; 7].
Proof. apply base64_roundtrip. repeat constructor; lia. Defined.

(** A byte above 127 is looked up past the end of the table. *)
Lemma base64_decode_overruns c s : 128 <= c < 256 -> decode (c :: s) = Abort "dectable out of bounds".
Proof.
  intros Hc. assert (E : dec c = Abort "dectable out of bounds").
  { unfold dec. rewrite lookup_ge_None_2; [done|]. change (length dectable) with 128%nat. lia. }
  unfold decode. cbn [length decode_loop]. unfold next_char. by rewrite E.
Qed.
End Base64.
