(* ===== verification/Sha1.v ===== *)
(** * SHA-1

    Models [src/src/http/cryptlite/sha1.h], and [acceptKey] of
    [src/src/http/WsCodec.cpp].  The reference is the algorithm of FIPS 180-4,
    written in the standard's own terms: pad the message, cut it into blocks of
    64 bytes, and compress them one after the other. *)

From S2P Require Import Prelude Crypto.
Local Open Scope cpp_scope.
Local Open Scope Z_scope.

(** ** The code *)
Module Sha1.

(** [src/src/http/cryptlite/sha1.h:34-35] SHA1_ROTL *)
Definition SHA1_ROTL (bits word : Z) : Z := Z.lor (u32 (Z.shiftl word bits)) (Z.shiftr word (32 - bits)).

(** [src/src/http/cryptlite/sha1.h:42-42] SHA1_CH *)
Definition SHA1_CH (x y z : Z) : Z := Z.lxor (Z.land x (Z.lxor y z)) z.
(** [src/src/http/cryptlite/sha1.h:43-43] SHA1_MAJ *)
Definition SHA1_MAJ (x y z : Z) : Z := Z.lor (Z.land x (Z.lor y z)) (Z.land y z).
(** [src/src/http/cryptlite/sha1.h:44-44] SHA1_PARITY *)
Definition SHA1_PARITY (x y z : Z) : Z := Z.lxor (Z.lxor x y) z.

(** The five words of a hash, and the variables [A] to [E]. *)
Record words := mkWords { A : Z; B : Z; C : Z; D : Z; E : Z }.

(** The block is an array of 64 bytes, not initialised by the constructor. *)
(** [src/src/http/cryptlite/sha1.h:194-200] sha1 *)
Record sha1 := mkSha1 {
  intermediate_hash_ : words;
  length_low_ : Z;
  length_high_ : Z;
  message_block_index_ : nat;
  message_block_ : list Z;
  computed_ : bool;
  corrupted_ : bool }.

Definition set_block (i : nat) (b : list Z) (c : sha1) : sha1 :=
  mkSha1 (intermediate_hash_ c) (length_low_ c) (length_high_ c) i b (computed_ c) (corrupted_ c).

(** [src/src/http/cryptlite/sha1.h:94-98] sha1::sha1, initial hash *)
Definition initial_hash : words := mkWords 0x67452301 0xEFCDAB89 0x98BADCFE 0x10325476 0xC3D2E1F0.

(** [mem] is what the memory of the block holds. *)
(** [src/src/http/cryptlite/sha1.h:87-99] sha1::sha1 *)
Definition new (mem : list Z) : sha1 := mkSha1 initial_hash 0 0 0 mem false false.

(** [src/src/http/cryptlite/sha1.h:103-116] sha1::reset *)
Definition reset (c : sha1) : sha1 := mkSha1 initial_hash 0 0 0 (message_block_ c) false false.

(** [message_block_[message_block_index_++] = b] *)
Definition put (b : Z) (c : sha1) : res sha1 :=
  if decide (message_block_index_ c < length (message_block_ c))%nat
  then Ret (set_block (S (message_block_index_ c)) (<[message_block_index_ c := b]> (message_block_ c)) c)
  else Abort "message_block_ out of bounds".

Definition byte_at (b : list Z) (i : nat) : Z := b !!! i.

(** [W[i] = message_block_[4 i] << 24 | ...] *)
Definition block_word (b : list Z) (i : nat) : Z :=
  Z.lor (Z.lor (Z.lor (u32 (Z.shiftl (byte_at b (4 * i)) 24)) (u32 (Z.shiftl (byte_at b (4 * i + 1)) 16)))
               (u32 (Z.shiftl (byte_at b (4 * i + 2)) 8))) (byte_at b (4 * i + 3)).

(** [src/src/http/cryptlite/sha1.h:248-311] sha1::process_message_block, W[0] to W[15] *)
Definition load_block (b : list Z) : list Z := block_word b <$> seq 0 16.

(** [W] holds the words computed so far, [W[0]] first; the next one is [W[t]]. *)
Definition extend_step (W : list Z) : list Z :=
  let t := length W in
  W ++ [SHA1_ROTL 1 (Z.lxor (Z.lxor (Z.lxor (W !!! (t - 3)%nat) (W !!! (t - 8)%nat)) (W !!! (t - 14)%nat)) (W !!! (t - 16)%nat))].

(** [src/src/http/cryptlite/sha1.h:313-376] sha1::process_message_block, W[16] to W[79] *)
Definition extend_block (W : list Z) : list Z := Nat.iter 64 extend_step W.

(** One round: [temp = ...; E = D; D = C; C = ROTL(30, B); B = A; A = temp]. *)
Definition round (f : Z -> Z -> Z -> Z) (K : Z) (s : words) (w : Z) : words :=
  let temp := u32 (SHA1_ROTL 5 (A s) + f (B s) (C s) (D s) + E s + w + K) in
  mkWords temp (A s) (SHA1_ROTL 30 (B s)) (C s) (D s).

(** [src/src/http/cryptlite/sha1.h:384-522] sha1::process_message_block, rounds 0 to 19 *)
Definition rounds_0_19 (W : list Z) (s : words) : words := fold_left (round SHA1_CH 0x5A827999) (take 20 W) s.
(** [src/src/http/cryptlite/sha1.h:524-662] sha1::process_message_block, rounds 20 to 39 *)
Definition rounds_20_39 (W : list Z) (s : words) : words := fold_left (round SHA1_PARITY 0x6ED9EBA1) (take 20 (drop 20 W)) s.
(** [src/src/http/cryptlite/sha1.h:664-802] sha1::process_message_block, rounds 40 to 59 *)
Definition rounds_40_59 (W : list Z) (s : words) : words := fold_left (round SHA1_MAJ 0x8F1BBCDC) (take 20 (drop 40 W)) s.
(** [src/src/http/cryptlite/sha1.h:804-942] sha1::process_message_block, rounds 60 to 79 *)
Definition rounds_60_79 (W : list Z) (s : words) : words := fold_left (round SHA1_PARITY 0xCA62C1D6) (take 20 (drop 60 W)) s.

(** [src/src/http/cryptlite/sha1.h:944-948] sha1::process_message_block, sum *)
Definition add_words (h s : words) : words :=
  mkWords (u32 (A h + A s)) (u32 (B h + B s)) (u32 (C h + C s)) (u32 (D h + D s)) (u32 (E h + E s)).

Definition compress (h : words) (block : list Z) : words :=
  let W := extend_block (load_block block) in
  add_words h (rounds_60_79 W (rounds_40_59 W (rounds_20_39 W (rounds_0_19 W h)))).

(** [src/src/http/cryptlite/sha1.h:239-247] sha1::process_message_block *)
Definition process_message_block (c : sha1) : sha1 :=
  mkSha1 (compress (intermediate_hash_ c) (message_block_ c)) (length_low_ c) (length_high_ c) 0
    (message_block_ c) (computed_ c) (corrupted_ c).

(** [src/src/http/cryptlite/sha1.h:37-40] SHA1_ADD_LENGTH *)
Definition SHA1_ADD_LENGTH (len : Z) (c : sha1) : sha1 :=
  let low := u32 (length_low_ c + len) in
  let carry := bool_decide (low < length_low_ c) in
  let high := if carry then u32 (length_high_ c + 1) else length_high_ c in
  mkSha1 (intermediate_hash_ c) low high (message_block_index_ c) (message_block_ c) (computed_ c)
    (carry && bool_decide (high = 0)).

(** [src/src/http/cryptlite/sha1.h:124-129] sha1::input, loop *)
Fixpoint input_loop (l : list Z) (c : sha1) : res sha1 :=
  match l with
  | [] => Ret c
  | b :: l =>
      if corrupted_ c then Ret c else
      let! c1 := put (Z.land b 255) c in
      let c2 := SHA1_ADD_LENGTH 8 c1 in
      input_loop l
        (if negb (corrupted_ c2) && bool_decide (message_block_index_ c2 = 64%nat) then process_message_block c2 else c2)
  end.

(** The length is passed as an [unsigned int]. *)
(** [src/src/http/cryptlite/sha1.h:118-130] sha1::input *)
Definition input (message_array : list Z) (c : sha1) : res sha1 :=
  let len := u32 (Z.of_nat (length message_array)) in
  if computed_ c || corrupted_ c || bool_decide (len = 0) then Ret c
  else input_loop (take (Z.to_nat len) message_array) c.

(** [while (message_block_index_ < n) message_block_[message_block_index_++] = 0] *)
Fixpoint fill (fuel n : nat) (c : sha1) : res sha1 :=
  if decide (message_block_index_ c < n)%nat then
    match fuel with
    | O => OutOfFuel
    | S fuel => let! c1 := put 0 c in fill fuel n c1
    end
  else Ret c.

(** [src/src/http/cryptlite/sha1.h:216-223] sha1::pad_message, length *)
Definition put_length (c : sha1) : sha1 :=
  let h := length_high_ c in
  let l := length_low_ c in
  let b := message_block_ c in
  set_block (message_block_index_ c)
    (<[63%nat := u8 l]> (<[62%nat := u8 (Z.shiftr l 8)]> (<[61%nat := u8 (Z.shiftr l 16)]> (<[60%nat := u8 (Z.shiftr l 24)]>
    (<[59%nat := u8 h]> (<[58%nat := u8 (Z.shiftr h 8)]> (<[57%nat := u8 (Z.shiftr h 16)]> (<[56%nat := u8 (Z.shiftr h 24)]> b)))))))) c.

(** [src/src/http/cryptlite/sha1.h:202-226] sha1::pad_message *)
Definition pad_message (pad_byte : Z) (c : sha1) : res sha1 :=
  let! c1 :=
    (if decide (56 <= message_block_index_ c)%nat then
       let! c1 := put pad_byte c in
       let! c2 := fill 64 64 c1 in
       Ret (process_message_block c2)
     else put pad_byte c) in
  let! c2 := fill 64 56 c1 in
  Ret (process_message_block (put_length c2)).

(** [src/src/http/cryptlite/sha1.h:228-237] sha1::finalize *)
Definition finalize (pad_byte : Z) (c : sha1) : res sha1 :=
  let! c1 := pad_message pad_byte c in
  Ret (mkSha1 (intermediate_hash_ c1) 0 0 (message_block_index_ c1) (replicate 64 0) true (corrupted_ c1)).

(** [src/src/http/cryptlite/sha1.h:134-145] sha1::final_bits, tables *)
Definition masks : list Z := [0x00; 0x80; 0xC0; 0xE0; 0xF0; 0xF8; 0xFC; 0xFE].
Definition markbit : list Z := [0x80; 0x40; 0x20; 0x10; 0x08; 0x04; 0x02; 0x01].

(** [src/src/http/cryptlite/sha1.h:132-159] sha1::final_bits *)
Definition final_bits (message_bits : Z) (len : nat) (c : sha1) : res sha1 :=
  if decide (len = 0)%nat then Ret c else
  let bad := corrupted_ c || computed_ c || bool_decide (8 <= len)%nat in
  if bad then
    Ret (mkSha1 (intermediate_hash_ c) (length_low_ c) (length_high_ c) (message_block_index_ c) (message_block_ c)
           (computed_ c) true)
  else finalize (Z.lor (Z.land message_bits (masks !!! len)) (markbit !!! len)) (SHA1_ADD_LENGTH (Z.of_nat len) c).

Definition word_bytes (h : Z) : list Z := [u8 (Z.shiftr h 24); u8 (Z.shiftr h 16); u8 (Z.shiftr h 8); u8 h].

(** The digest, or [None] if nothing is written to it. *)
(** [src/src/http/cryptlite/sha1.h:161-190] sha1::result *)
Definition result (c : sha1) : res (option (list Z) * sha1) :=
  if corrupted_ c then Ret (None, c) else
  let! c1 := (if computed_ c then Ret c else finalize 0x80 c) in
  let h := intermediate_hash_ c1 in
  Ret (Some (word_bytes (A h) ++ word_bytes (B h) ++ word_bytes (C h) ++ word_bytes (D h) ++ word_bytes (E h)), c1).

(** Reading a digest that was not written is undefined. *)
Definition digest_of (c : sha1) : res (list Z) :=
  let! r := result c in
  match fst r with Some d => Ret d | None => Abort "uninitialised digest" end.

(** [src/src/http/cryptlite/sha1.h:57-62] sha1::hash *)
Definition hash (mem s : list Z) : res (list Z) := let! c := input s (new mem) in digest_of c.

Definition hex_digit (d : Z) : Z := if decide (d < 10) then 48 + d else 87 + d.

(** [src/src/http/cryptlite/sha1.h:64-77] sha1::hash_hex *)
Definition hash_hex (mem s : list Z) : res (list Z) :=
  let! c := input s (new mem) in
  let! d := digest_of c in
  Ret (concat ((fun b => [hex_digit (Z.land b 255 / 16); hex_digit (Z.land b 255 mod 16)]) <$> d)).

(** [src/src/http/cryptlite/sha1.h:79-85] sha1::hash_base64 *)
Definition hash_base64 (mem s : list Z) : res (list Z) :=
  let! c := input s (new mem) in
  let! d := digest_of c in
  Ret (Base64.encode_from_array d).
End Sha1.

(** ** The standard *)
Module Fips.
Import Sha1 (words, mkWords, A, B, C, D, E).

Definition ROTL (n x : Z) : Z := (x * 2 ^ n) mod 2 ^ 32 + x / 2 ^ (32 - n).
Definition Ch (x y z : Z) : Z := Z.lxor (Z.land x y) (Z.land (Z.lnot x) z).
Definition Parity (x y z : Z) : Z := Z.lxor (Z.lxor x y) z.
Definition Maj (x y z : Z) : Z := Z.lxor (Z.lxor (Z.land x y) (Z.land x z)) (Z.land y z).

Definition f (t : nat) : Z -> Z -> Z -> Z :=
  if decide (t < 20)%nat then Ch else if decide (t < 40)%nat then Parity
  else if decide (t < 60)%nat then Maj else Parity.
Definition K (t : nat) : Z :=
  if decide (t < 20)%nat then 0x5A827999 else if decide (t < 40)%nat then 0x6ED9EBA1
  else if decide (t < 60)%nat then 0x8F1BBCDC else 0xCA62C1D6.

(** The number a list of bytes denotes, most significant byte first, and the
    [n] bytes that denote a number. *)
Definition of_bytes (l : list Z) : Z := fold_left (fun a b => 256 * a + b) l 0.
Fixpoint to_bytes (n : nat) (x : Z) : list Z :=
  match n with
  | O => []
  | S n => (x / 256 ^ Z.of_nat n) mod 256 :: to_bytes n x
  end.

Definition schedule_step (W : list Z) : list Z :=
  let w i := W !!! (length W - i)%nat in
  W ++ [ROTL 1 (Z.lxor (Z.lxor (Z.lxor (w 3%nat) (w 8%nat)) (w 14%nat)) (w 16%nat))].
Definition schedule (M : list Z) : list Z :=
  Nat.iter 64 schedule_step ((fun i => of_bytes (take 4 (drop (4 * i) M))) <$> seq 0 16).

Definition round (W : list Z) (s : words) (t : nat) : words :=
  mkWords ((ROTL 5 (A s) + f t (B s) (C s) (D s) + E s + K t + W !!! t) mod 2 ^ 32) (A s) (ROTL 30 (B s)) (C s) (D s).

Definition compress (H : words) (M : list Z) : words :=
  let s := fold_left (round (schedule M)) (seq 0 80) H in
  mkWords ((A H + A s) mod 2 ^ 32) ((B H + B s) mod 2 ^ 32) ((C H + C s) mod 2 ^ 32)
          ((D H + D s) mod 2 ^ 32) ((E H + E s) mod 2 ^ 32).

(** A one bit, the least number of zero bits, and the length in bits as a
    64-bit number, so that the whole is a multiple of 512 bits. *)
Definition pad (m : list Z) : list Z :=
  m ++ 0x80 :: replicate (Z.to_nat ((55 - Z.of_nat (length m)) mod 64)) 0 ++ to_bytes 8 (8 * Z.of_nat (length m)).

(** The blocks of 64 bytes of a message. *)
Fixpoint blocks_ (fuel : nat) (l : list Z) : list (list Z) :=
  match fuel, l with
  | S fuel, _ :: _ => take 64 l :: blocks_ fuel (drop 64 l)
  | _, _ => []
  end.
Definition blocks (l : list Z) : list (list Z) := blocks_ (length l) l.

Definition sha1 (m : list Z) : list Z :=
  let H := fold_left compress (blocks (pad m)) Sha1.initial_hash in
  to_bytes 4 (A H) ++ to_bytes 4 (B H) ++ to_bytes 4 (C H) ++ to_bytes 4 (D H) ++ to_bytes 4 (E H).
End Fips.

(** ** Laws *)
Module Sha1Laws.
Import Sha1.

Definition is_word (x : Z) : Prop := 0 <= x < 2 ^ 32.
Definition wf (s : words) : Prop := is_word (A s) /\ is_word (B s) /\ is_word (C s) /\ is_word (D s) /\ is_word (E s).

Lemma u32_word x : is_word (u32 x).
Proof. apply Z.mod_pos_bound. lia. Qed.

(** A sum of numbers that share no bit is their disjunction. *)
Lemma lor_add a b n : 0 <= n -> 0 <= b < 2 ^ n -> a mod 2 ^ n = 0 -> Z.lor a b = a + b.
Proof.
  intros Hn Hb Ha. assert (H0 : Z.land a b = 0).
  { apply Z.bits_inj'. intros i Hi. rewrite Z.land_spec, Z.bits_0. destruct (Z_lt_ge_dec i n) as [Hlt|Hge].
    - rewrite <- (Z.mod_pow2_bits_low a n i) by lia. by rewrite Ha, Z.bits_0.
    - destruct (decide (b = 0)) as [->|]; [by rewrite Z.bits_0, andb_false_r|].
      rewrite (Z.bits_above_log2 b i); [by rewrite andb_false_r|lia|].
      apply Z.log2_lt_pow2; [lia|]. pose proof (Z.pow_le_mono_r 2 n i). lia. }
  rewrite Z.add_nocarry_lxor by done. symmetry. by apply Z.lxor_lor.
Qed.

Lemma rotl_eq n x : 0 < n < 32 -> is_word x -> SHA1_ROTL n x = Fips.ROTL n x.
Proof.
  intros Hn Hx. unfold SHA1_ROTL, Fips.ROTL, u32. rewrite Z.shiftl_mul_pow2, Z.shiftr_div_pow2 by lia.
  apply (lor_add _ _ n); [lia| |].
  - split; [apply Z.div_pos; unfold is_word in *; lia|]. apply Z.div_lt_upper_bound; [lia|].
    rewrite <- Z.pow_add_r by lia. replace (32 - n + n) with 32 by lia. apply Hx.
  - rewrite Z.mod_mod_divide; [by apply Z_mod_mult|].
    exists (2 ^ (32 - n)). rewrite <- Z.pow_add_r by lia. f_equal. lia.
Qed.

Lemma word_ones x : is_word x <-> Z.land x (Z.ones 32) = x.
Proof.
  rewrite Z.land_ones by lia. unfold is_word. split; [apply Z.mod_small|].
  intros <-. apply Z.mod_pos_bound. lia.
Qed.

Lemma lor_word x y : is_word x -> is_word y -> is_word (Z.lor x y).
Proof. rewrite !word_ones. intros Hx Hy. by rewrite Z.land_lor_distr_l, Hx, Hy. Qed.

Lemma lxor_word x y : is_word x -> is_word y -> is_word (Z.lxor x y).
Proof. rewrite !word_ones. intros Hx Hy. rewrite <- Hx, <- Hy at 2. bitwise n. Qed.

Lemma rotl_word n x : 0 < n < 32 -> is_word x -> is_word (SHA1_ROTL n x).
Proof.
  intros Hn Hx. apply lor_word; [apply u32_word|]. unfold is_word in *. rewrite Z.shiftr_div_pow2 by lia.
  split; [apply Z.div_pos; lia|]. apply Z.div_lt_upper_bound; [lia|]. pose proof (Z.pow_pos_nonneg 2 (32 - n)). nia.
Qed.

(** *** The rounds *)
Lemma ch_eq x y z : SHA1_CH x y z = Fips.Ch x y z.
Proof. unfold SHA1_CH, Fips.Ch. bitwise n. Qed.
Lemma maj_eq x y z : SHA1_MAJ x y z = Fips.Maj x y z.
Proof. unfold SHA1_MAJ, Fips.Maj. bitwise n. Qed.

Lemma round_wf f K s w : wf s -> wf (round f K s w).
Proof. intros (H1 & H2 & H3 & H4 & H5). repeat split; try apply u32_word; try apply rotl_word; try apply H1; try apply H2; try apply H3; try apply H4; lia. Qed.

Lemma round_eq f W s t :
  wf s -> (forall x y z, f x y z = Fips.f t x y z) -> round f (Fips.K t) s (W !!! t) = Fips.round W s t.
Proof.
  intros (H1 & H2 & _) Hf. unfold round, Fips.round. rewrite Hf, !rotl_eq by (done || lia). f_equal. unfold u32. f_equal. lia.
Qed.

(** A group of rounds with one function and one constant. *)
Lemma rounds_eq f W k n s :
  wf s -> (k + n <= length W)%nat ->
  (forall t, (k <= t < k + n)%nat -> Fips.K t = Fips.K k /\ forall x y z, f x y z = Fips.f t x y z) ->
  fold_left (round f (Fips.K k)) (take n (drop k W)) s = fold_left (Fips.round W) (seq k n) s /\
  wf (fold_left (round f (Fips.K k)) (take n (drop k W)) s).
Proof.
  intros Hs Hl Hk. assert (Hgen : forall j s, wf s -> (j <= n)%nat ->
    fold_left (round f (Fips.K k)) (take j (drop (k + n - j) W)) s = fold_left (Fips.round W) (seq (k + n - j) j) s /\
    wf (fold_left (round f (Fips.K k)) (take j (drop (k + n - j) W)) s)).
  { clear s Hs. intros j. induction j as [|j IH]; intros s Hs Hj; [done|].
    destruct (lookup_lt_is_Some_2 W (k + n - S j)) as [w Hw]; [lia|].
    rewrite (drop_S W w) by done. cbn [take fold_left seq].
    destruct (Hk (k + n - S j)%nat) as [HK Hf]; [lia|]. replace (S (k + n - S j)) with (k + n - j)%nat by lia.
    assert (E : round f (Fips.K k) s w = Fips.round W s (k + n - S j)).
    { rewrite <- (round_eq f W s) by done. rewrite HK. f_equal. symmetry. by apply list_lookup_total_correct. }
    rewrite <- E. apply IH; [by apply round_wf|lia]. }
  specialize (Hgen n s Hs (Nat.le_refl _)). by replace (k + n - n)%nat with k in Hgen by lia.
Qed.

(** *** The words of a block *)
Lemma take4 (l : list Z) k : (k + 4 <= length l)%nat ->
  take 4 (drop k l) = [l !!! k; l !!! (k + 1)%nat; l !!! (k + 2)%nat; l !!! (k + 3)%nat].
Proof.
  intros Hl. apply list_eq. intros i. destruct (decide (i < 4)%nat) as [Hi|Hi].
  - rewrite lookup_take_lt, lookup_drop by lia.
    rewrite (list_lookup_lookup_total_lt l) by lia.
    destruct i as [|[|[|[|]]]]; cbn; try lia; do 2 f_equal; lia.
  - rewrite !lookup_ge_None_2; [done|cbn; lia|rewrite length_take; lia].
Qed.

Lemma lor_bytes a b c d : is_byte a -> is_byte b -> is_byte c -> is_byte d ->
  Z.lor (Z.lor (Z.lor (u32 (Z.shiftl a 24)) (u32 (Z.shiftl b 16))) (u32 (Z.shiftl c 8))) d = Fips.of_bytes [a; b; c; d].
Proof.
  unfold is_byte, u32. intros Ha Hb Hc Hd. rewrite !Z.shiftl_mul_pow2 by lia. rewrite !Z.mod_small by lia.
  rewrite (lor_add (a * 2 ^ 24) _ 24) by (lia || apply Z_mod_mult).
  replace (a * 2 ^ 24 + b * 2 ^ 16) with ((a * 2 ^ 8 + b) * 2 ^ 16) by lia.
  rewrite (lor_add _ (c * 2 ^ 8) 16) by (lia || apply Z_mod_mult).
  replace ((a * 2 ^ 8 + b) * 2 ^ 16 + c * 2 ^ 8) with ((a * 2 ^ 16 + b * 2 ^ 8 + c) * 2 ^ 8) by lia.
  rewrite (lor_add _ d 8) by (lia || apply Z_mod_mult). unfold Fips.of_bytes. cbn. lia.
Qed.

Lemma of_bytes_word a b c d : is_byte a -> is_byte b -> is_byte c -> is_byte d -> is_word (Fips.of_bytes [a; b; c; d]).
Proof. unfold is_byte, is_word, Fips.of_bytes. cbn. lia. Qed.

Lemma byte_lookup (l : list Z) i : Forall is_byte l -> (i < length l)%nat -> is_byte (l !!! i).
Proof. intros Hl Hi. rewrite Forall_lookup in Hl. apply (Hl i). by apply list_lookup_lookup_total_lt. Qed.

Lemma block_word_eq b i : length b = 64%nat -> Forall is_byte b -> (i < 16)%nat ->
  block_word b i = Fips.of_bytes (take 4 (drop (4 * i) b)) /\ is_word (block_word b i).
Proof.
  intros Hl Hb Hi. unfold block_word, byte_at.
  assert (H : forall j, (j < 64)%nat -> is_byte (b !!! j)) by (intros j Hj; apply byte_lookup; [done|by rewrite Hl]).
  rewrite lor_bytes by (apply H; lia). rewrite take4 by lia. split; [reflexivity|]. apply of_bytes_word; apply H; lia.
Qed.

Lemma load_block_eq b : length b = 64%nat -> Forall is_byte b ->
  load_block b = (fun i => Fips.of_bytes (take 4 (drop (4 * i) b))) <$> seq 0 16 /\ Forall is_word (load_block b).
Proof.
  intros Hl Hb. unfold load_block. split.
  - apply list_fmap_ext. intros k i Hi. apply list_elem_of_lookup_2, elem_of_seq in Hi.
    exact (proj1 (block_word_eq b i Hl Hb ltac:(lia))).
  - apply Forall_fmap, Forall_forall. intros i Hi%elem_of_seq. exact (proj2 (block_word_eq b i Hl Hb ltac:(lia))).
Qed.

Lemma extend_step_eq W : (16 <= length W)%nat -> Forall is_word W ->
  extend_step W = Fips.schedule_step W /\ Forall is_word (extend_step W).
Proof.
  intros Hl HW. unfold extend_step, Fips.schedule_step. cbv zeta.
  assert (HX : forall i, (0 < i <= 16)%nat -> is_word (W !!! (length W - i)%nat)).
  { intros i Hi. rewrite Forall_lookup in HW. apply (HW (length W - i)%nat). apply list_lookup_lookup_total_lt. lia. }
  assert (Hx : is_word (Z.lxor (Z.lxor (Z.lxor (W !!! (length W - 3)%nat) (W !!! (length W - 8)%nat))
    (W !!! (length W - 14)%nat)) (W !!! (length W - 16)%nat))) by (repeat apply lxor_word; apply HX; lia).
  split; [by rewrite rotl_eq by (done || lia)|].
  apply Forall_app. split; [done|]. constructor; [|constructor]. apply rotl_word; [lia|done].
Qed.

Lemma extend_eq n W : length W = 16%nat -> Forall is_word W ->
  Nat.iter n extend_step W = Nat.iter n Fips.schedule_step W /\
  length (Nat.iter n extend_step W) = (16 + n)%nat /\ Forall is_word (Nat.iter n extend_step W).
Proof.
  intros Hl HW. induction n as [|n (IH & Hlen & Hw)]; [done|]. rewrite !Nat.iter_succ, <- IH.
  destruct (extend_step_eq (Nat.iter n extend_step W)) as [E Hw']; [lia|done|].
  split; [done|]. split; [|done]. unfold extend_step at 1. rewrite length_app, Hlen. cbn. lia.
Qed.

Lemma schedule_eq b : length b = 64%nat -> Forall is_byte b ->
  extend_block (load_block b) = Fips.schedule b /\ length (extend_block (load_block b)) = 80%nat.
Proof.
  intros Hl Hb. destruct (load_block_eq b Hl Hb) as [El Hw]. unfold extend_block, Fips.schedule. rewrite <- El.
  destruct (extend_eq 64 (load_block b)) as (Ee & Hlen & _); [apply length_fmap|exact Hw|]. split; [exact Ee|exact Hlen].
Qed.

#[local] Opaque extend_block Fips.schedule.

Lemma compress_eq h b : wf h -> length b = 64%nat -> Forall is_byte b -> compress h b = Fips.compress h b /\ wf (compress h b).
Proof.
  intros Hh Hl Hb. destruct (schedule_eq b Hl Hb) as [E Hlen]. unfold compress, Fips.compress. rewrite E in Hlen |- *.
  set (W := Fips.schedule b) in *. clearbody W. clear E. split; [|repeat split; apply u32_word || apply Z.mod_pos_bound; lia].
  change (seq 0 80) with (seq 0 (20 + (20 + (20 + 20)))). rewrite !seq_app, !fold_left_app.
  destruct (rounds_eq SHA1_CH W 0 20 h) as [E1 W1]; [done|lia| |].
  { intros t Ht. unfold Fips.K, Fips.f. rewrite !decide_True by lia. split; [done|]. apply ch_eq. }
  destruct (rounds_eq SHA1_PARITY W 20 20 _ W1) as [E2 W2]; [lia| |].
  { intros t Ht. unfold Fips.K, Fips.f. rewrite !(decide_False (P := (t < 20)%nat)), !(decide_True (P := (t < 40)%nat)) by lia. done. }
  destruct (rounds_eq SHA1_MAJ W 40 20 _ W2) as [E3 W3]; [lia| |].
  { intros t Ht. unfold Fips.K, Fips.f. rewrite !(decide_False (P := (t < 20)%nat)), !(decide_False (P := (t < 40)%nat)), !(decide_True (P := (t < 60)%nat)) by lia.
    split; [done|]. apply maj_eq. }
  destruct (rounds_eq SHA1_PARITY W 60 20 _ W3) as [E4 _]; [lia| |].
  { intros t Ht. unfold Fips.K, Fips.f. rewrite !(decide_False (P := (t < 20)%nat)), !(decide_False (P := (t < 40)%nat)), !(decide_False (P := (t < 60)%nat)) by lia. done. }
  cbn [Nat.add]. rewrite <- E1, <- E2, <- E3, <- E4. done.
Qed.

#[local] Opaque compress Fips.compress.

(** *** Taking in the message *)

Definition is_block (b : list Z) : Prop := length b = 64%nat /\ Forall is_byte b.

(** The message so far is some whole blocks, which have been compressed, and a
    rest, which is at the start of the block in memory. *)
Record absorbed (bs : list (list Z)) (t : list Z) (c : sha1) : Prop := {
  ab_blocks : Forall is_block bs;
  ab_bytes : Forall is_byte t;
  ab_index : message_block_index_ c = length t;
  ab_mem : length (message_block_ c) = 64%nat;
  ab_rest : take (length t) (message_block_ c) = t;
  ab_hash : intermediate_hash_ c = fold_left Fips.compress bs initial_hash;
  ab_wf : wf (intermediate_hash_ c) }.

(** The length counter holds [n] bits. *)
Record counts (n : Z) (c : sha1) : Prop := {
  co_low : is_word (length_low_ c);
  co_high : is_word (length_high_ c);
  co_total : length_high_ c * 2 ^ 32 + length_low_ c = n;
  co_computed : computed_ c = false;
  co_corrupted : corrupted_ c = false }.

Lemma add_length_ok k n c : counts n c -> 0 <= k < 2 ^ 32 -> n + k < 2 ^ 64 -> counts (n + k) (SHA1_ADD_LENGTH k c).
Proof.
  intros [Hl Hh Ht Hc _] Hk Hn. unfold is_word in *. unfold SHA1_ADD_LENGTH.
  destruct (decide (length_low_ c + k < 2 ^ 32)) as [Hs|Hs].
  - assert (E : u32 (length_low_ c + k) = length_low_ c + k) by (apply Z.mod_small; lia).
    rewrite E, bool_decide_eq_false_2 by lia. split; unfold is_word; cbn; (done || lia).
  - assert (E : u32 (length_low_ c + k) = length_low_ c + k - 2 ^ 32).
    { unfold u32. rewrite <- (Z.mod_add _ (-1)) by lia. rewrite Z.mod_small; lia. }
    assert (E' : u32 (length_high_ c + 1) = length_high_ c + 1) by (apply Z.mod_small; lia).
    rewrite E, bool_decide_eq_true_2, E' by lia. split; unfold is_word; cbn; try (done || lia).
    apply bool_decide_eq_false_2. lia.
Qed.

Lemma put_ok bs t b c : absorbed bs t c -> (length t < 64)%nat -> is_byte b ->
  exists c', put b c = Ret c' /\ absorbed bs (t ++ [b]) c' /\
    length_low_ c' = length_low_ c /\ length_high_ c' = length_high_ c /\ computed_ c' = computed_ c /\ corrupted_ c' = corrupted_ c.
Proof.
  intros [H1 H2 H3 H4 H5 H6 H7] Ht Hb. unfold put. rewrite decide_True by lia. eexists. split; [done|]. split; [|done].
  split; cbn; try done.
  - apply Forall_app. split; [done|]. by constructor.
  - rewrite length_app, H3. cbn. lia.
  - by rewrite length_insert.
  - rewrite length_app, Nat.add_1_r, H3, take_S_insert by lia. by rewrite H5.
Qed.

Lemma process_ok bs t c : absorbed bs t c -> length t = 64%nat -> absorbed (bs ++ [t]) [] (process_message_block c).
Proof.
  intros [H1 H2 H3 H4 H5 H6 H7] Ht. assert (E : message_block_ c = t) by (rewrite <- H5, Ht, take_ge; [done|lia]).
  destruct (compress_eq (intermediate_hash_ c) t H7 Ht H2) as [E1 W1]. unfold process_message_block. rewrite E, E1 in *.
  split; cbn [intermediate_hash_ message_block_index_ message_block_].
  - apply Forall_app. split; [exact H1|]. by constructor.
  - constructor.
  - reflexivity.
  - exact Ht.
  - reflexivity.
  - rewrite fold_left_app, H6. reflexivity.
  - exact W1.
Qed.

Lemma counts_same n c c' : length_low_ c' = length_low_ c -> length_high_ c' = length_high_ c ->
  computed_ c' = computed_ c -> corrupted_ c' = corrupted_ c -> counts n c -> counts n c'.
Proof. intros E1 E2 E3 E4 [H1 H2 H3 H4 H5]. split; congruence. Qed.

Lemma absorbed_add_length k bs t c : absorbed bs t c -> absorbed bs t (SHA1_ADD_LENGTH k c).
Proof. intros [H1 H2 H3 H4 H5 H6 H7]. by split. Qed.

Lemma byte_land b : is_byte b -> Z.land b 255 = b.
Proof. intros Hb. change 255 with (Z.ones 8). rewrite Z.land_ones by lia. apply Z.mod_small, Hb. Qed.

(** One byte. *)
Lemma input_step bs t b n l c : absorbed bs t c -> (length t < 64)%nat -> counts n c -> is_byte b -> n + 8 < 2 ^ 64 ->
  exists bs' t' c', input_loop (b :: l) c = input_loop l c' /\ absorbed bs' t' c' /\ counts (n + 8) c' /\
    (length t' < 64)%nat /\ concat bs' ++ t' = concat bs ++ t ++ [b].
Proof.
  intros Ha Ht Hn Hb Hlt. cbn [input_loop]. rewrite (co_corrupted _ _ Hn), byte_land by done.
  destruct (put_ok bs t b c Ha Ht Hb) as (c1 & -> & Ha1 & E1 & E2 & E3 & E4). cbn [res_bind].
  assert (Hn1 : counts (n + 8) (SHA1_ADD_LENGTH 8 c1)) by (apply add_length_ok; [by eapply counts_same|lia|lia]).
  apply (absorbed_add_length 8) in Ha1. rewrite (co_corrupted _ _ Hn1), (ab_index _ _ _ Ha1). cbn [negb andb].
  set (c2 := SHA1_ADD_LENGTH 8 c1) in *. destruct (decide (length (t ++ [b]) = 64%nat)) as [E|E].
  - rewrite bool_decide_eq_true_2 by done. exists (bs ++ [t ++ [b]]), [], (process_message_block c2).
    split; [done|]. split; [by apply process_ok|]. split; [by apply (counts_same _ c2)|]. cbn. split; [lia|].
    by rewrite concat_app, app_nil_r; cbn; rewrite app_nil_r.
  - rewrite bool_decide_eq_false_2 by done. exists bs, (t ++ [b]), c2. split; [done|]. split; [done|]. split; [done|].
    rewrite length_app in *. cbn in *. split; [lia|done].
Qed.

Lemma input_loop_ok l : forall bs t n c, absorbed bs t c -> (length t < 64)%nat -> counts n c -> Forall is_byte l ->
  n + 8 * Z.of_nat (length l) < 2 ^ 64 ->
  exists bs' t' c', input_loop l c = Ret c' /\ absorbed bs' t' c' /\ counts (n + 8 * Z.of_nat (length l)) c' /\
    (length t' < 64)%nat /\ concat bs' ++ t' = (concat bs ++ t) ++ l.
Proof.
  induction l as [|b l IH]; intros bs t n c Ha Ht Hn Hl Hlt.
  - exists bs, t, c. rewrite app_nil_r, Z.add_0_r. done.
  - apply Forall_cons in Hl as [Hb Hl]. cbn [length] in Hlt.
    destruct (input_step bs t b n l c Ha Ht Hn Hb ltac:(lia)) as (bs1 & t1 & c1 & -> & Ha1 & Hn1 & Ht1 & E1).
    destruct (IH bs1 t1 (n + 8) c1 Ha1 Ht1 Hn1 Hl ltac:(lia)) as (bs2 & t2 & c2 & -> & Ha2 & Hn2 & Ht2 & E2).
    exists bs2, t2, c2. split; [done|]. split; [done|]. split; [|split; [done|]].
    + replace (n + 8 * Z.of_nat (length (b :: l))) with (n + 8 + 8 * Z.of_nat (length l)) by (cbn [length]; lia). done.
    + rewrite E2, E1. by rewrite <- !app_assoc.
Qed.

(** *** Padding *)
Lemma fill_ok fuel n bs t c : absorbed bs t c -> (length t <= n <= 64)%nat -> (n - length t <= fuel)%nat ->
  exists c', fill fuel n c = Ret c' /\ absorbed bs (t ++ replicate (n - length t) 0) c' /\
    length_low_ c' = length_low_ c /\ length_high_ c' = length_high_ c /\ computed_ c' = computed_ c /\ corrupted_ c' = corrupted_ c.
Proof.
  revert t c. induction fuel as [|fuel IH]; intros t c Ha Hn Hf; cbn [fill]; rewrite (ab_index _ _ _ Ha).
  - rewrite decide_False by lia. exists c. replace (n - length t)%nat with O by lia. cbn. by rewrite app_nil_r.
  - case_decide as Hlt.
    + destruct (put_ok bs t 0 c Ha ltac:(lia) ltac:(unfold is_byte; lia)) as (c1 & -> & Ha1 & E1 & E2 & E3 & E4). cbn [res_bind].
      destruct (IH (t ++ [0]) c1 Ha1) as (c2 & -> & Ha2 & F1 & F2 & F3 & F4); [rewrite length_app; cbn; lia..|].
      exists c2. split; [done|]. split; [|repeat split; congruence].
      rewrite length_app in Ha2. cbn in Ha2. rewrite <- app_assoc in Ha2.
      replace (n - length t)%nat with (S (n - (length t + 1))) by lia. done.
    + exists c. replace (n - length t)%nat with O by lia. cbn. by rewrite app_nil_r.
Qed.

Lemma div_high h l k : is_word l -> 0 <= k -> (h * 2 ^ 32 + l) / 2 ^ (32 + k) = h / 2 ^ k.
Proof.
  unfold is_word. intros Hl Hk. rewrite Z.pow_add_r, <- Z.div_div by lia. by rewrite Z.div_add_l, (Z.div_small l), Z.add_0_r by lia.
Qed.

Lemma div_low h l k : 0 <= k <= 24 -> ((h * 2 ^ 32 + l) / 2 ^ k) mod 2 ^ 8 = (l / 2 ^ k) mod 2 ^ 8.
Proof.
  intros Hk. replace (h * 2 ^ 32) with (h * 2 ^ (24 - k) * 2 ^ 8 * 2 ^ k).
  - rewrite Z.div_add_l by lia. by rewrite Z.add_comm, Z.mod_add.
  - rewrite <- !Z.mul_assoc, <- !Z.pow_add_r by lia. do 2 f_equal. lia.
Qed.

Lemma to_bytes_8 h l : is_word h -> is_word l ->
  Fips.to_bytes 8 (h * 2 ^ 32 + l) =
  [u8 (Z.shiftr h 24); u8 (Z.shiftr h 16); u8 (Z.shiftr h 8); u8 h;
   u8 (Z.shiftr l 24); u8 (Z.shiftr l 16); u8 (Z.shiftr l 8); u8 l].
Proof.
  unfold is_word, u8. intros Hh Hl. rewrite !Z.shiftr_div_pow2 by lia. cbn [Fips.to_bytes].
  change (256 ^ Z.of_nat 7) with (2 ^ (32 + 24)). change (256 ^ Z.of_nat 6) with (2 ^ (32 + 16)).
  change (256 ^ Z.of_nat 5) with (2 ^ (32 + 8)). change (256 ^ Z.of_nat 4) with (2 ^ (32 + 0)).
  change (256 ^ Z.of_nat 3) with (2 ^ 24). change (256 ^ Z.of_nat 2) with (2 ^ 16). change (256 ^ Z.of_nat 1) with (2 ^ 8).
  change (256 ^ Z.of_nat 0) with (2 ^ 0). change 256 with (2 ^ 8).
  rewrite !div_high, !div_low by done. by rewrite !Z.div_1_r.
Qed.

Lemma word_bytes_eq h : word_bytes h = Fips.to_bytes 4 h.
Proof.
  unfold word_bytes, u8. rewrite !Z.shiftr_div_pow2 by lia. cbn [Fips.to_bytes]. by rewrite Z.div_1_r.
Qed.

Lemma put_length_ok bs t n c : absorbed bs t c -> length t = 56%nat -> counts n c ->
  exists c', process_message_block (put_length c) = process_message_block c' /\
    absorbed bs (t ++ Fips.to_bytes 8 n) c' /\ corrupted_ c' = false.
Proof.
  intros [H1 H2 H3 H4 H5 H6 H7] Ht [L1 L2 L3 _ L5]. rewrite Ht in H5.
  assert (Hd : exists y, message_block_ c = t ++ y /\ length y = 8%nat).
  { exists (drop 56 (message_block_ c)). split; [rewrite <- H5 at 1; by rewrite take_drop|]. rewrite length_drop. lia. }
  destruct Hd as (y & Ey & Hy).
  exists (set_block 64 (t ++ Fips.to_bytes 8 n) c). rewrite <- L3, to_bytes_8 by done.
  assert (E : message_block_ (put_length c) = t ++ Fips.to_bytes 8 n).
  { rewrite <- L3, to_bytes_8 by done. unfold put_length. cbn [message_block_ set_block]. rewrite Ey.
    do 8 (destruct y as [|? y]; [done|]). destruct y; [|done]. rewrite !insert_app_r_alt by lia. by rewrite Ht. }
  rewrite <- L3, to_bytes_8 in E by done. split; [|split; [|done]].
  - unfold process_message_block. cbn [message_block_ set_block]. by rewrite E.
  - split; cbn; try done.
    + apply Forall_app. split; [done|]. repeat constructor; apply Z.mod_pos_bound; lia.
    + rewrite length_app, Ht. done.
    + rewrite length_app, Ht. done.
    + rewrite take_ge; [done|]. done.
Qed.

(** The blocks that padding makes of the rest of a message of [n] bits. *)
Lemma pad_message_ok bs t n c : absorbed bs t c -> (length t < 64)%nat -> counts n c ->
  exists ps c', pad_message 0x80 c = Ret c' /\ absorbed (bs ++ ps) [] c' /\ corrupted_ c' = false /\
    concat ps = t ++ 0x80 :: replicate (if decide (length t < 56)%nat then 55 - length t else 119 - length t) 0 ++ Fips.to_bytes 8 n.
Proof.
  intros Ha Ht Hn. unfold pad_message.
  destruct (put_ok bs t 0x80 c Ha Ht ltac:(unfold is_byte; lia)) as (c1 & Ep & Ha1 & E1 & E2 & E3 & E4).
  assert (Hn1 : counts n c1) by (by apply (counts_same n c)). rewrite (ab_index _ _ _ Ha).
  destruct (decide (56 <= length t)%nat) as [Hge|Hge].
  - rewrite Ep. cbn [res_bind].
    destruct (fill_ok 64 64 bs _ c1 Ha1) as (c2 & -> & Ha2 & F1 & F2 & F3 & F4); [rewrite length_app; cbn; lia..|]. cbn [res_bind].
    assert (Hn2 : counts n (process_message_block c2)) by (apply (counts_same n c1); done).
    apply process_ok in Ha2; [|rewrite !length_app, length_replicate; cbn; lia].
    destruct (fill_ok 64 56 _ _ _ Ha2) as (c3 & -> & Ha3 & G1 & G2 & G3 & G4); [cbn; lia..|]. cbn [res_bind app length] in *.
    destruct (put_length_ok _ _ n c3 Ha3) as (c4 & -> & Ha4 & Hc4);
      [rewrite length_replicate; lia|by apply (counts_same n (process_message_block c2))|].
    apply process_ok in Ha4; [|by rewrite length_app, length_replicate]. rewrite <- app_assoc in Ha4.
    eexists _, _. split; [done|]. split; [exact Ha4|]. split; [done|].
    cbn [concat app]. rewrite decide_False by lia. rewrite app_nil_r, length_app, <- !app_assoc. cbn [app length]. do 2 f_equal.
    rewrite app_assoc, <- replicate_add. do 2 f_equal. lia.
  - rewrite Ep. cbn [res_bind].
    destruct (fill_ok 64 56 bs _ c1 Ha1) as (c2 & -> & Ha2 & F1 & F2 & F3 & F4); [rewrite length_app; cbn; lia..|]. cbn [res_bind].
    destruct (put_length_ok _ _ n c2 Ha2) as (c3 & -> & Ha3 & Hc3);
      [rewrite !length_app, length_replicate; cbn; lia|by apply (counts_same n c1)|].
    eexists _, _. split; [done|]. split; [|split; [done|]].
    { apply process_ok; [done|]. rewrite !length_app, length_replicate. cbn. lia. }
    cbn [concat app]. rewrite decide_True by lia. rewrite app_nil_r, length_app, <- !app_assoc. cbn [app length]. do 2 f_equal.
    do 2 f_equal. lia.
Qed.

(** *** The digest *)

Lemma blocks_concat bs fuel : Forall is_block bs -> (length bs <= fuel)%nat -> Fips.blocks_ fuel (concat bs) = bs.
Proof.
  revert fuel. induction bs as [|b bs IH]; intros fuel Hb Hf; [by destruct fuel|].
  apply Forall_cons in Hb as [[Hl Hb] Hbs]. cbn [length] in Hf. destruct fuel as [|fuel]; [lia|].
  destruct b as [|x b]; [done|]. cbn [concat]. cbn [Fips.blocks_ app]. change (x :: b ++ concat bs) with ((x :: b) ++ concat bs).
  destruct (take_drop_app (x :: b) (concat bs) 64 (eq_sym Hl)) as [-> ->]. f_equal. apply IH; [done|lia].
Qed.

Lemma concat_length bs : Forall is_block bs -> length (concat bs) = (64 * length bs)%nat.
Proof.
  induction bs as [|b bs IH]; [done|]. intros Hb. apply Forall_cons in Hb as [[Hl _] Hb]. cbn [concat length].
  rewrite length_app, IH by done. lia.
Qed.

Lemma result_ok bs t c : absorbed bs t c -> (length t < 64)%nat ->
  counts (8 * Z.of_nat (length (concat bs ++ t))) c ->
  exists c', result c = Ret (Some (Fips.sha1 (concat bs ++ t)), c') /\
             result c' = Ret (Some (Fips.sha1 (concat bs ++ t)), c').
Proof.
  intros Ha Ht Hn. unfold result at 1. rewrite (co_corrupted _ _ Hn), (co_computed _ _ Hn). unfold finalize.
  destruct (pad_message_ok _ _ _ _ Ha Ht Hn) as (ps & c1 & -> & Ha1 & Hc1 & Eps). cbn [res_bind intermediate_hash_].
  assert (Hpad : Fips.pad (concat bs ++ t) = concat (bs ++ ps)).
  { unfold Fips.pad. rewrite concat_app, Eps, <- app_assoc. do 5 f_equal.
    rewrite length_app, concat_length by apply (ab_blocks _ _ _ Ha).
    replace (55 - Z.of_nat (64 * length bs + length t)) with (55 - Z.of_nat (length t) + (- Z.of_nat (length bs)) * 64) by lia.
    rewrite Z.mod_add by lia. case_decide; [rewrite Z.mod_small; lia|].
    rewrite <- (Z.mod_add _ 1), Z.mod_small by lia. lia. }
  assert (Hd : word_bytes (A (intermediate_hash_ c1)) ++ word_bytes (B (intermediate_hash_ c1)) ++
    word_bytes (C (intermediate_hash_ c1)) ++ word_bytes (D (intermediate_hash_ c1)) ++ word_bytes (E (intermediate_hash_ c1)) =
    Fips.sha1 (concat bs ++ t)).
  { unfold Fips.sha1, Fips.blocks. rewrite Hpad, blocks_concat.
    - by rewrite <- (ab_hash _ _ _ Ha1), !word_bytes_eq.
    - apply (ab_blocks _ _ _ Ha1).
    - rewrite concat_length by apply (ab_blocks _ _ _ Ha1). lia. }
  rewrite Hd. eexists. split; [done|]. unfold result. cbn [corrupted_ computed_ intermediate_hash_]. rewrite Hc1.
  cbn [res_bind intermediate_hash_]. by rewrite Hd.
Qed.

(** Calls of [input], one after the other. *)
Fixpoint feed (chunks : list (list Z)) (c : sha1) : res sha1 :=
  match chunks with
  | [] => Ret c
  | l :: chunks => let! c1 := input l c in feed chunks c1
  end.

Lemma feed_ok chunks : forall bs t c, absorbed bs t c -> (length t < 64)%nat ->
  counts (8 * Z.of_nat (length (concat bs ++ t))) c ->
  Forall (fun l => Forall is_byte l /\ Z.of_nat (length l) < 2 ^ 32) chunks ->
  8 * Z.of_nat (length (concat bs ++ t ++ concat chunks)) < 2 ^ 64 ->
  exists bs' t' c', feed chunks c = Ret c' /\ absorbed bs' t' c' /\ (length t' < 64)%nat /\
    counts (8 * Z.of_nat (length (concat bs' ++ t'))) c' /\ concat bs' ++ t' = concat bs ++ t ++ concat chunks.
Proof.
  induction chunks as [|l chunks IH]; intros bs t c Ha Ht Hn Hl Hlt.
  - exists bs, t, c. cbn. by rewrite app_nil_r.
  - apply Forall_cons in Hl as [[Hb Hsz] Hl]. cbn [feed concat] in *.
    assert (Hin : exists bs1 t1 c1, input l c = Ret c1 /\ absorbed bs1 t1 c1 /\ (length t1 < 64)%nat /\
      counts (8 * Z.of_nat (length (concat bs1 ++ t1))) c1 /\ concat bs1 ++ t1 = (concat bs ++ t) ++ l).
    { unfold input. rewrite (co_corrupted _ _ Hn), (co_computed _ _ Hn).
      assert (Eu : u32 (Z.of_nat (length l)) = Z.of_nat (length l)) by (apply Z.mod_small; lia). rewrite Eu. cbn [orb].
      case_bool_decide as E0.
      - exists bs, t, c. destruct l; [|done]. by rewrite app_nil_r.
      - rewrite Nat2Z.id, take_ge by lia.
        destruct (input_loop_ok l bs t _ c Ha Ht Hn Hb) as (bs1 & t1 & c1 & Ei & Ha1 & Hn1 & Ht1 & E1).
        { rewrite !length_app in *. lia. }
        exists bs1, t1, c1. split; [done|]. split; [done|]. split; [done|]. split; [|done]. rewrite E1.
        by replace (8 * Z.of_nat (length ((concat bs ++ t) ++ l))) with (8 * Z.of_nat (length (concat bs ++ t)) + 8 * Z.of_nat (length l))
          by (rewrite !length_app; lia). }
    destruct Hin as (bs1 & t1 & c1 & -> & Ha1 & Ht1 & Hn1 & E1). cbn [res_bind].
    assert (E2 : concat bs1 ++ t1 ++ concat chunks = concat bs ++ t ++ l ++ concat chunks)
      by (by rewrite app_assoc, E1, <- !app_assoc).
    rewrite <- E2 in Hlt |- *. by apply IH.
Qed.

Lemma new_absorbed mem : length mem = 64%nat -> absorbed [] [] (new mem) /\ counts 0 (new mem).
Proof.
  intros Hm. split; [|by split]. by split; cbn; try constructor.
Qed.

Lemma feed_result mem chunks : length mem = 64%nat ->
  Forall (fun l => Forall is_byte l /\ Z.of_nat (length l) < 2 ^ 32) chunks ->
  8 * Z.of_nat (length (concat chunks)) < 2 ^ 64 ->
  exists c c', feed chunks (new mem) = Ret c /\ result c = Ret (Some (Fips.sha1 (concat chunks)), c') /\
    result c' = Ret (Some (Fips.sha1 (concat chunks)), c').
Proof.
  intros Hm Hc Hl. destruct (new_absorbed mem Hm) as [Ha Hn].
  destruct (feed_ok chunks [] [] (new mem) Ha) as (bs & t & c & E & Ha1 & Ht1 & Hn1 & Et); [cbn; lia|done|done|done|].
  destruct (result_ok bs t c Ha1 Ht1 Hn1) as (c' & E1 & E2). rewrite Et in E1, E2. cbn [concat app] in E1, E2. eauto.
Qed.

(** C35: the SHA-1 of the code is the SHA-1 of the standard.  However the
    message is cut into calls of [input], and whatever the memory of the
    context held before, [result] yields the digest FIPS 180-4 defines for the
    whole message, and yields it again when asked again, for every message of
    less than 2^64 bits given in pieces whose length fits an unsigned int. *)
Theorem sha1_spec mem chunks : length mem = 64%nat ->
  Forall (fun l => Forall is_byte l /\ Z.of_nat (length l) < 2 ^ 32) chunks ->
  8 * Z.of_nat (length (concat chunks)) < 2 ^ 64 ->
  exists c c', feed chunks (new mem) = Ret c /\ result c = Ret (Some (Fips.sha1 (concat chunks)), c') /\
    result c' = Ret (Some (Fips.sha1 (concat chunks)), c').
Proof. apply feed_result. Qed.

(** The digest of "abc" (FIPS 180, appendix A), given as "a" and "bc". *)
Definition abc_digest : list Z :=
  [0xa9; 0x99; 0x3e; 0x36; 0x47; 0x06; 0x81; 0x6a; 0xba; 0x3e; 0x25; 0x71; 0x78; 0x50; 0xc2; 0x6c; 0x9c; 0xd0; 0xd8; 0x9d].

Lemma sha1_spec_witness :
  Fips.sha1 (bytes "abc") = abc_digest /\
  exists c c', feed [bytes "a"; bytes "bc"] (new (replicate 64 170)) = Ret c /\ result c = Ret (Some abc_digest, c').
Proof.
  assert (E : Fips.sha1 (bytes "abc") = abc_digest) by (vm_compute; reflexivity). split; [exact E|].
  destruct (sha1_spec (replicate 64 170) [bytes "a"; bytes "bc"]) as (c & c' & E1 & E2 & _).
  - reflexivity.
  - apply Forall_cons; split; [|apply Forall_cons; split; [|apply Forall_nil; exact I]];
      (split; [repeat constructor; vm_compute; congruence|vm_compute; reflexivity]).
  - vm_compute. reflexivity.
  - exists c, c'. split; [exact E1|]. rewrite E2. change (concat [bytes "a"; bytes "bc"]) with (bytes "abc"). rewrite E. reflexivity.
Defined.
End Sha1Laws.

(** ** The accept key of the websocket handshake *)

(** [kGUID] *)
Definition kGUID : list Z := Eval vm_compute in bytes "258EAFA5-E914-47DA-95CA-C5AB0DC85B11".

(** [src/src/http/WsCodec.cpp:166-175] acceptKey *)
Definition acceptKey (mem str : list Z) : res (list Z) :=
  let! s := Sha1.input str (Sha1.new mem) in
  let! s := Sha1.input kGUID s in
  let! digest := Sha1.digest_of s in
  Ret (Base64.encode_from_array digest).

(** The key is what RFC 6455 asks for. *)
Lemma acceptKey_ok mem str : length mem = 64%nat -> Forall is_byte str -> Z.of_nat (length str) < 2 ^ 31 ->
  acceptKey mem str = Ret (Base64.encode_from_array (Fips.sha1 (str ++ kGUID))).
Proof.
  intros Hm Hs Hl. destruct (Sha1Laws.feed_result mem [str; kGUID] Hm) as (c & c' & E1 & E2 & _).
  - repeat constructor; (done || lia || (cbn; lia)).
  - cbn [concat]. rewrite !length_app. cbn. lia.
  - cbn [concat] in E2. rewrite app_nil_r in E2. unfold acceptKey, Sha1.digest_of. cbn [Sha1Laws.feed] in E1.
    destruct (Sha1.input str (Sha1.new mem)) as [c1| | |]; try done. cbn [res_bind] in *.
    destruct (Sha1.input kGUID c1) as [c2| | |]; try done. cbn [res_bind] in *. simplify_eq. by rewrite E2.
Qed.

(** The example of RFC 6455, section 1.3. *)
Lemma acceptKey_rfc : acceptKey (replicate 64 0) (bytes "dGhlIHNhbXBsZSBub25jZQ==") = Ret (bytes "s3pPLMBiTxaQ9kYGzzhZRbK+xOo=").
Proof. vm_compute. reflexivity. Qed.
