(* ===== verification/HttpSyntax.v ===== *)
(** * HTTP parser: data and character classes

    Models the types of [src/include/futures/http/http_parser.h] and the tables,
    character classes and states of [src/src/http/http_parser.c], which is
    compiled with [HTTP_PARSER_STRICT = 1].  A [char] is its unsigned value. *)

From S2P Require Import Prelude.
Local Open Scope Z_scope.

(** ** Enumerations *)

(** [src/src/http/http_parser.c:279-357] enum state *)
Inductive state :=
| s_dead
| s_start_req_or_res | s_res_or_resp_H | s_start_res | s_res_H | s_res_HT | s_res_HTT | s_res_HTTP
| s_res_first_http_major | s_res_http_major | s_res_first_http_minor | s_res_http_minor
| s_res_first_status_code | s_res_status_code | s_res_status_start | s_res_status | s_res_line_almost_done
| s_start_req
| s_req_method | s_req_spaces_before_url | s_req_schema | s_req_schema_slash | s_req_schema_slash_slash
| s_req_server_start | s_req_server | s_req_server_with_at | s_req_path
| s_req_query_string_start | s_req_query_string | s_req_fragment_start | s_req_fragment
| s_req_http_start | s_req_http_H | s_req_http_HT | s_req_http_HTT | s_req_http_HTTP
| s_req_first_http_major | s_req_http_major | s_req_first_http_minor | s_req_http_minor | s_req_line_almost_done
| s_header_field_start | s_header_field | s_header_value_discard_ws | s_header_value_discard_ws_almost_done
| s_header_value_discard_lws | s_header_value_start | s_header_value | s_header_value_lws
| s_header_almost_done
| s_chunk_size_start | s_chunk_size | s_chunk_parameters | s_chunk_size_almost_done
| s_headers_almost_done | s_headers_done
| s_chunk_data | s_chunk_data_almost_done | s_chunk_data_done
| s_body_identity | s_body_identity_eof
| s_message_done.
#[global] Instance state_eq_dec : EqDecision state.
Proof. solve_decision. Defined.

(** The states up to [s_headers_done]. *)
(** [src/src/http/http_parser.c:360-360] PARSING_HEADER *)
Definition PARSING_HEADER (s : state) : bool :=
  match s with
  | s_chunk_data | s_chunk_data_almost_done | s_chunk_data_done
  | s_body_identity | s_body_identity_eof | s_message_done => false
  | _ => true
  end.

(** [src/src/http/http_parser.c:363-391] enum header_states *)
Inductive header_states :=
| h_general | h_C | h_CO | h_CON
| h_matching_connection | h_matching_proxy_connection | h_matching_content_length
| h_matching_transfer_encoding | h_matching_upgrade
| h_connection | h_content_length | h_transfer_encoding | h_upgrade
| h_matching_transfer_encoding_chunked
| h_matching_connection_token_start | h_matching_connection_keep_alive | h_matching_connection_close
| h_matching_connection_upgrade | h_matching_connection_token
| h_transfer_encoding_chunked | h_connection_keep_alive | h_connection_close | h_connection_upgrade.
#[global] Instance header_states_eq_dec : EqDecision header_states.
Proof. solve_decision. Defined.

(** [src/src/http/http_parser.c:393-407] enum http_host_state *)
Inductive http_host_state :=
| s_http_host_dead | s_http_userinfo_start | s_http_userinfo | s_http_host_start | s_http_host_v6_start
| s_http_host | s_http_host_v6 | s_http_host_v6_end | s_http_host_v6_zone_start | s_http_host_v6_zone
| s_http_host_port_start | s_http_host_port.
#[global] Instance http_host_state_eq_dec : EqDecision http_host_state.
Proof. solve_decision. Defined.

(** [src/include/futures/http/http_parser.h:214-214] enum http_parser_type *)
Inductive http_parser_type := HTTP_REQUEST | HTTP_RESPONSE | HTTP_BOTH.
#[global] Instance http_parser_type_eq_dec : EqDecision http_parser_type.
Proof. solve_decision. Defined.

(** [src/include/futures/http/http_parser.h:164-211] enum http_method *)
Inductive http_method :=
| HTTP_DELETE | HTTP_GET | HTTP_HEAD | HTTP_POST | HTTP_PUT | HTTP_CONNECT | HTTP_OPTIONS | HTTP_TRACE
| HTTP_COPY | HTTP_LOCK | HTTP_MKCOL | HTTP_MOVE | HTTP_PROPFIND | HTTP_PROPPATCH | HTTP_SEARCH | HTTP_UNLOCK
| HTTP_BIND | HTTP_REBIND | HTTP_UNBIND | HTTP_ACL | HTTP_REPORT | HTTP_MKACTIVITY | HTTP_CHECKOUT | HTTP_MERGE
| HTTP_MSEARCH | HTTP_NOTIFY | HTTP_SUBSCRIBE | HTTP_UNSUBSCRIBE | HTTP_PATCH | HTTP_PURGE | HTTP_MKCALENDAR
| HTTP_LINK | HTTP_UNLINK.
#[global] Instance http_method_eq_dec : EqDecision http_method.
Proof. solve_decision. Defined.

(** [src/src/http/http_parser.c:174-179] method_strings *)
Definition method_string (m : http_method) : string :=
  match m with
  | HTTP_DELETE => "DELETE" | HTTP_GET => "GET" | HTTP_HEAD => "HEAD" | HTTP_POST => "POST" | HTTP_PUT => "PUT"
  | HTTP_CONNECT => "CONNECT" | HTTP_OPTIONS => "OPTIONS" | HTTP_TRACE => "TRACE" | HTTP_COPY => "COPY"
  | HTTP_LOCK => "LOCK" | HTTP_MKCOL => "MKCOL" | HTTP_MOVE => "MOVE" | HTTP_PROPFIND => "PROPFIND"
  | HTTP_PROPPATCH => "PROPPATCH" | HTTP_SEARCH => "SEARCH" | HTTP_UNLOCK => "UNLOCK" | HTTP_BIND => "BIND"
  | HTTP_REBIND => "REBIND" | HTTP_UNBIND => "UNBIND" | HTTP_ACL => "ACL" | HTTP_REPORT => "REPORT"
  | HTTP_MKACTIVITY => "MKACTIVITY" | HTTP_CHECKOUT => "CHECKOUT" | HTTP_MERGE => "MERGE"
  | HTTP_MSEARCH => "M-SEARCH" | HTTP_NOTIFY => "NOTIFY" | HTTP_SUBSCRIBE => "SUBSCRIBE"
  | HTTP_UNSUBSCRIBE => "UNSUBSCRIBE" | HTTP_PATCH => "PATCH" | HTTP_PURGE => "PURGE"
  | HTTP_MKCALENDAR => "MKCALENDAR" | HTTP_LINK => "LINK" | HTTP_UNLINK => "UNLINK"
  end%string.

(** [src/include/futures/http/http_parser.h:234-284] enum http_errno *)
Inductive http_errno_t :=
| HPE_OK
| HPE_CB_message_begin | HPE_CB_url | HPE_CB_header_field | HPE_CB_header_value | HPE_CB_headers_complete
| HPE_CB_body | HPE_CB_message_complete | HPE_CB_status | HPE_CB_chunk_header | HPE_CB_chunk_complete
| HPE_INVALID_EOF_STATE | HPE_HEADER_OVERFLOW | HPE_CLOSED_CONNECTION | HPE_INVALID_VERSION | HPE_INVALID_STATUS
| HPE_INVALID_METHOD | HPE_INVALID_URL | HPE_INVALID_HOST | HPE_INVALID_PORT | HPE_INVALID_PATH
| HPE_INVALID_QUERY_STRING | HPE_INVALID_FRAGMENT | HPE_LF_EXPECTED | HPE_INVALID_HEADER_TOKEN
| HPE_INVALID_CONTENT_LENGTH | HPE_UNEXPECTED_CONTENT_LENGTH | HPE_INVALID_CHUNK_SIZE | HPE_INVALID_CONSTANT
| HPE_INVALID_INTERNAL_STATE | HPE_STRICT | HPE_PAUSED | HPE_UNKNOWN.
#[global] Instance http_errno_t_eq_dec : EqDecision http_errno_t.
Proof. solve_decision. Defined.

(** [src/include/futures/http/http_parser.h:218-227] enum flags *)
Definition F_CHUNKED : Z := 1.
Definition F_CONNECTION_KEEP_ALIVE : Z := 2.
Definition F_CONNECTION_CLOSE : Z := 4.
Definition F_CONNECTION_UPGRADE : Z := 8.
Definition F_TRAILING : Z := 16.
Definition F_UPGRADE : Z := 32.
Definition F_SKIPBODY : Z := 64.
Definition F_CONTENTLENGTH : Z := 128.

(** [src/include/futures/http/http_parser.h:63-65] HTTP_MAX_HEADER_SIZE *)
Definition HTTP_MAX_HEADER_SIZE : Z := 80 * 1024.

(** [src/src/http/http_parser.c:32-34] ULLONG_MAX *)
Definition ULLONG_MAX : Z := 2 ^ 64 - 1.

(** ** The parser *)

(** [state], which the code copies into the local [p_state] and back, is one
    field here.  [upgrade] and [lenient_http_headers] are one bit. *)
(** [src/include/futures/http/http_parser.h:292-320] struct http_parser *)
Record http_parser := mkParser {
  type_ : http_parser_type;
  flags : Z;
  state_ : state;
  header_state : header_states;
  index : nat;
  lenient_http_headers : bool;
  nread : Z;
  content_length : Z;
  http_major : Z;
  http_minor : Z;
  status_code : Z;
  method : http_method;
  http_errno : http_errno_t;
  upgrade : bool }.

Definition set_type (v : http_parser_type) (p : http_parser) : http_parser :=
  mkParser v (flags p) (state_ p) (header_state p) (index p) (lenient_http_headers p) (nread p) (content_length p) (http_major p) (http_minor p) (status_code p) (method p) (http_errno p) (upgrade p).
Definition set_flags (v : Z) (p : http_parser) : http_parser :=
  mkParser (type_ p) v (state_ p) (header_state p) (index p) (lenient_http_headers p) (nread p) (content_length p) (http_major p) (http_minor p) (status_code p) (method p) (http_errno p) (upgrade p).
Definition set_state (v : state) (p : http_parser) : http_parser :=
  mkParser (type_ p) (flags p) v (header_state p) (index p) (lenient_http_headers p) (nread p) (content_length p) (http_major p) (http_minor p) (status_code p) (method p) (http_errno p) (upgrade p).
Definition set_header_state (v : header_states) (p : http_parser) : http_parser :=
  mkParser (type_ p) (flags p) (state_ p) v (index p) (lenient_http_headers p) (nread p) (content_length p) (http_major p) (http_minor p) (status_code p) (method p) (http_errno p) (upgrade p).
Definition set_index (v : nat) (p : http_parser) : http_parser :=
  mkParser (type_ p) (flags p) (state_ p) (header_state p) v (lenient_http_headers p) (nread p) (content_length p) (http_major p) (http_minor p) (status_code p) (method p) (http_errno p) (upgrade p).
Definition set_nread (v : Z) (p : http_parser) : http_parser :=
  mkParser (type_ p) (flags p) (state_ p) (header_state p) (index p) (lenient_http_headers p) v (content_length p) (http_major p) (http_minor p) (status_code p) (method p) (http_errno p) (upgrade p).
Definition set_content_length (v : Z) (p : http_parser) : http_parser :=
  mkParser (type_ p) (flags p) (state_ p) (header_state p) (index p) (lenient_http_headers p) (nread p) v (http_major p) (http_minor p) (status_code p) (method p) (http_errno p) (upgrade p).
Definition set_http_major (v : Z) (p : http_parser) : http_parser :=
  mkParser (type_ p) (flags p) (state_ p) (header_state p) (index p) (lenient_http_headers p) (nread p) (content_length p) v (http_minor p) (status_code p) (method p) (http_errno p) (upgrade p).
Definition set_http_minor (v : Z) (p : http_parser) : http_parser :=
  mkParser (type_ p) (flags p) (state_ p) (header_state p) (index p) (lenient_http_headers p) (nread p) (content_length p) (http_major p) v (status_code p) (method p) (http_errno p) (upgrade p).
Definition set_status_code (v : Z) (p : http_parser) : http_parser :=
  mkParser (type_ p) (flags p) (state_ p) (header_state p) (index p) (lenient_http_headers p) (nread p) (content_length p) (http_major p) (http_minor p) v (method p) (http_errno p) (upgrade p).
Definition set_method (v : http_method) (p : http_parser) : http_parser :=
  mkParser (type_ p) (flags p) (state_ p) (header_state p) (index p) (lenient_http_headers p) (nread p) (content_length p) (http_major p) (http_minor p) (status_code p) v (http_errno p) (upgrade p).
Definition SET_ERRNO (v : http_errno_t) (p : http_parser) : http_parser :=
  mkParser (type_ p) (flags p) (state_ p) (header_state p) (index p) (lenient_http_headers p) (nread p) (content_length p) (http_major p) (http_minor p) (status_code p) (method p) v (upgrade p).
Definition set_upgrade (v : bool) (p : http_parser) : http_parser :=
  mkParser (type_ p) (flags p) (state_ p) (header_state p) (index p) (lenient_http_headers p) (nread p) (content_length p) (http_major p) (http_minor p) (status_code p) (method p) (http_errno p) v.

(** [parser->flags & f] and [parser->flags |= f] *)
Definition has_flag (f : Z) (p : http_parser) : bool := negb (Z.land (flags p) f =? 0).
Definition add_flag (f : Z) (p : http_parser) : http_parser := set_flags (Z.lor (flags p) f) p.

(** [++parser->index]: the field has 7 bits. *)
Definition incr_index (p : http_parser) : http_parser := set_index (S (index p) mod 128) p.

(** [src/src/http/http_parser.c:2144-2153] http_parser_init *)
Definition http_parser_init (t : http_parser_type) : http_parser :=
  mkParser t 0 (match t with HTTP_REQUEST => s_start_req | HTTP_RESPONSE => s_start_res | HTTP_BOTH => s_start_req_or_res end)
    h_general 0 false 0 0 0 0 0 HTTP_DELETE HPE_OK false.

(** ** Characters *)

Abbreviation CR := 13%Z.
Abbreviation LF := 10%Z.
Abbreviation TAB := 9%Z.
Abbreviation SP := 32%Z.
Abbreviation HASH := 35%Z.
Abbreviation PERCENT := 37%Z.
Abbreviation STAR := 42%Z.
Abbreviation COMMA := 44%Z.
Abbreviation MINUS := 45%Z.
Abbreviation DOT := 46%Z.
Abbreviation SLASH := 47%Z.
Abbreviation COLON := 58%Z.
Abbreviation SEMICOLON := 59%Z.
Abbreviation QUESTION := 63%Z.
Abbreviation AT := 64%Z.
Abbreviation LBRACKET := 91%Z.
Abbreviation RBRACKET := 93%Z.
Abbreviation TILDE := 126%Z.

(** The static arrays have 256 entries, of which the initialisers give the
    first 128; the others are zero. *)
(** [src/src/http/http_parser.c:189-221] tokens *)
Definition tokens : list Z :=
  [0; 0; 0; 0; 0; 0; 0; 0; 0; 0; 0; 0; 0; 0; 0; 0;
   0; 0; 0; 0; 0; 0; 0; 0; 0; 0; 0; 0; 0; 0; 0; 0;
   0; 33; 0; 35; 36; 37; 38; 39; 0; 0; 42; 43; 0; 45; 46; 0;
   48; 49; 50; 51; 52; 53; 54; 55; 56; 57; 0; 0; 0; 0; 0; 0;
   0; 97; 98; 99; 100; 101; 102; 103; 104; 105; 106; 107; 108; 109; 110; 111;
   112; 113; 114; 115; 116; 117; 118; 119; 120; 121; 122; 0; 0; 0; 94; 95;
   96; 97; 98; 99; 100; 101; 102; 103; 104; 105; 106; 107; 108; 109; 110; 111;
   112; 113; 114; 115; 116; 117; 118; 119; 120; 121; 122; 0; 124; 0; 126; 0].

(** [src/src/http/http_parser.c:224-233] unhex *)
Definition unhex_table : list Z :=
  [-1; -1; -1; -1; -1; -1; -1; -1; -1; -1; -1; -1; -1; -1; -1; -1;
   -1; -1; -1; -1; -1; -1; -1; -1; -1; -1; -1; -1; -1; -1; -1; -1;
   -1; -1; -1; -1; -1; -1; -1; -1; -1; -1; -1; -1; -1; -1; -1; -1;
   0; 1; 2; 3; 4; 5; 6; 7; 8; 9; -1; -1; -1; -1; -1; -1;
   -1; 10; 11; 12; 13; 14; 15; -1; -1; -1; -1; -1; -1; -1; -1; -1;
   -1; -1; -1; -1; -1; -1; -1; -1; -1; -1; -1; -1; -1; -1; -1; -1;
   -1; 10; 11; 12; 13; 14; 15; -1; -1; -1; -1; -1; -1; -1; -1; -1;
   -1; -1; -1; -1; -1; -1; -1; -1; -1; -1; -1; -1; -1; -1; -1; -1].

(** [src/src/http/http_parser.c:243-275] normal_url_char *)
Definition normal_url_char : list Z := [0; 0; 0; 0; 246; 255; 255; 127; 255; 255; 255; 255; 255; 255; 255; 127].

Definition table (t : list Z) (i : Z) : Z := match t !! Z.to_nat i with Some v => v | None => 0 end.

(** [src/src/http/http_parser.c:45-47] BIT_AT *)
Definition BIT_AT (a : list Z) (i : Z) : bool := negb (Z.land (table a (Z.shiftr i 3)) (Z.shiftl 1 (Z.land i 7)) =? 0).

(** [src/src/http/http_parser.c:412-412] LOWER *)
Definition LOWER (c : Z) : Z := Z.lor c 32.
(** [src/src/http/http_parser.c:413-413] IS_ALPHA *)
Definition IS_ALPHA (c : Z) : bool := (97 <=? LOWER c) && (LOWER c <=? 122).
(** [src/src/http/http_parser.c:414-414] IS_NUM *)
Definition IS_NUM (c : Z) : bool := (48 <=? c) && (c <=? 57).
(** [src/src/http/http_parser.c:415-415] IS_ALPHANUM *)
Definition IS_ALPHANUM (c : Z) : bool := IS_ALPHA c || IS_NUM c.
(** [src/src/http/http_parser.c:416-416] IS_HEX *)
Definition IS_HEX (c : Z) : bool := IS_NUM c || ((97 <=? LOWER c) && (LOWER c <=? 102)).
(** [src/src/http/http_parser.c:417-419] IS_MARK *)
Definition IS_MARK (c : Z) : bool :=
  (c =? MINUS) || (c =? 95) || (c =? DOT) || (c =? 33) || (c =? TILDE) || (c =? STAR) || (c =? 39) || (c =? 40) || (c =? 41).
(** [src/src/http/http_parser.c:420-422] IS_USERINFO_CHAR *)
Definition IS_USERINFO_CHAR (c : Z) : bool :=
  IS_ALPHANUM c || IS_MARK c || (c =? PERCENT) || (c =? SEMICOLON) || (c =? COLON) || (c =? 38) || (c =? 61) || (c =? 43)
  || (c =? 36) || (c =? COMMA).
(** [src/src/http/http_parser.c:427-427] TOKEN *)
Definition TOKEN (c : Z) : Z := table tokens c.
(** [src/src/http/http_parser.c:428-428] IS_URL_CHAR *)
Definition IS_URL_CHAR (c : Z) : bool := BIT_AT normal_url_char c.
(** [src/src/http/http_parser.c:429-429] IS_HOST_CHAR *)
Definition IS_HOST_CHAR (c : Z) : bool := IS_ALPHANUM c || (c =? DOT) || (c =? MINUS).
(** [src/src/http/http_parser.c:442-443] IS_HEADER_CHAR *)
Definition IS_HEADER_CHAR (c : Z) : bool := (c =? CR) || (c =? LF) || (c =? 9) || ((31 <? c) && negb (c =? 127)).
Definition unhex (c : Z) : Z := table unhex_table c.

(** ** The URL automaton *)
(** [src/src/http/http_parser.c:486-632] parse_url_char *)
Definition parse_url_char (s : state) (ch : Z) : state :=
  if (ch =? SP) || (ch =? CR) || (ch =? LF) then s_dead else
  if (ch =? TAB) || (ch =? 12) then s_dead else
  let server (_ : unit) :=
    if ch =? SLASH then s_req_path else
    if ch =? QUESTION then s_req_query_string_start else
    if ch =? AT then s_req_server_with_at else
    if IS_USERINFO_CHAR ch || (ch =? LBRACKET) || (ch =? RBRACKET) then s_req_server else s_dead in
  match s with
  | s_req_spaces_before_url =>
      if (ch =? SLASH) || (ch =? STAR) then s_req_path else if IS_ALPHA ch then s_req_schema else s_dead
  | s_req_schema => if IS_ALPHA ch then s else if ch =? COLON then s_req_schema_slash else s_dead
  | s_req_schema_slash => if ch =? SLASH then s_req_schema_slash_slash else s_dead
  | s_req_schema_slash_slash => if ch =? SLASH then s_req_server_start else s_dead
  | s_req_server_with_at => if ch =? AT then s_dead else server tt
  | s_req_server_start | s_req_server => server tt
  | s_req_path =>
      if IS_URL_CHAR ch then s else if ch =? QUESTION then s_req_query_string_start else
      if ch =? HASH then s_req_fragment_start else s_dead
  | s_req_query_string_start | s_req_query_string =>
      if IS_URL_CHAR ch then s_req_query_string else if ch =? QUESTION then s_req_query_string else
      if ch =? HASH then s_req_fragment_start else s_dead
  | s_req_fragment_start =>
      if IS_URL_CHAR ch then s_req_fragment else if ch =? QUESTION then s_req_fragment else
      if ch =? HASH then s else s_dead
  | s_req_fragment => if IS_URL_CHAR ch then s else if (ch =? QUESTION) || (ch =? HASH) then s else s_dead
  | _ => s_dead
  end.

(** ** Questions about a message *)

(** [src/src/http/http_parser.c:2095-2115] http_message_needs_eof *)
Definition http_message_needs_eof (p : http_parser) : bool :=
  match type_ p with
  | HTTP_REQUEST => false
  | _ =>
      if (status_code p / 100 =? 1) || (status_code p =? 204) || (status_code p =? 304) || has_flag F_SKIPBODY p then false
      else if has_flag F_CHUNKED p || negb (content_length p =? ULLONG_MAX) then false else true
  end.

(** [src/src/http/http_parser.c:2118-2134] http_should_keep_alive *)
Definition http_should_keep_alive (p : http_parser) : bool :=
  if (0 <? http_major p) && (0 <? http_minor p) then
    if has_flag F_CONNECTION_CLOSE p then false else negb (http_message_needs_eof p)
  else if negb (has_flag F_CONNECTION_KEEP_ALIVE p) then false else negb (http_message_needs_eof p).

(** [src/src/http/http_parser.c:445-445] start_state *)
Definition start_state (p : http_parser) : state :=
  match type_ p with HTTP_REQUEST => s_start_req | _ => s_start_res end.

(** [src/src/http/http_parser.c:456-456] NEW_MESSAGE *)
Definition NEW_MESSAGE (p : http_parser) : state :=
  if http_should_keep_alive p then start_state p else s_dead.
