(* ===== verification/HttpExec.v ===== *)
(** * HTTP parser: http_parser_execute

    Models [http_parser_execute] of [src/src/http/http_parser.c], one definition
    per group of cases of its switch.  A pointer into the input is an index,
    the callbacks work on a user state [U] and do not change the parser, and
    the control flow inside one turn of the loop is a value of [flow]. *)

From S2P Require Import Prelude HttpSyntax.
Local Open Scope cpp_scope.
Local Open Scope Z_scope.

(** The five strings the parser hands out piecewise. *)
Inductive datum := D_header_field | D_header_value | D_url | D_body | D_status.
#[global] Instance datum_eq_dec : EqDecision datum.
Proof. solve_decision. Defined.

Section Exec.
Context {U : Type}.

(** A callback may fail an assertion of its own, and returns an [int]. *)
(** [src/include/futures/http/http_parser.h:90-90] http_cb *)
Definition http_cb : Type := U -> http_parser -> res (Z * U).
(** [src/include/futures/http/http_parser.h:89-89] http_data_cb *)
Definition http_data_cb : Type := U -> http_parser -> list Z -> res (Z * U).

(** [src/include/futures/http/http_parser.h:323-337] struct http_parser_settings *)
Record http_parser_settings := mkSettings {
  on_message_begin : option http_cb;
  on_data : datum -> option http_data_cb;
  on_headers_complete : option http_cb;
  on_message_complete : option http_cb;
  on_chunk_header : option http_cb;
  on_chunk_complete : option http_cb }.

(** The variables of [http_parser_execute]: [p] and the marks, [None] for a
    null pointer. *)
(** [src/src/http/http_parser.c:639-647] http_parser_execute, locals *)
Record locals := mkLocals {
  par : http_parser;
  usr : U;
  p : nat;
  header_field_mark : option nat;
  header_value_mark : option nat;
  url_mark : option nat;
  body_mark : option nat;
  status_mark : option nat }.

Definition set_par (q : http_parser) (l : locals) : locals :=
  mkLocals q (usr l) (p l) (header_field_mark l) (header_value_mark l) (url_mark l) (body_mark l) (status_mark l).
Definition set_usr (u : U) (l : locals) : locals :=
  mkLocals (par l) u (p l) (header_field_mark l) (header_value_mark l) (url_mark l) (body_mark l) (status_mark l).
Definition set_p (n : nat) (l : locals) : locals :=
  mkLocals (par l) (usr l) n (header_field_mark l) (header_value_mark l) (url_mark l) (body_mark l) (status_mark l).
Definition mark (d : datum) (l : locals) : option nat :=
  match d with
  | D_header_field => header_field_mark l | D_header_value => header_value_mark l | D_url => url_mark l
  | D_body => body_mark l | D_status => status_mark l
  end.
Definition set_mark (d : datum) (m : option nat) (l : locals) : locals :=
  match d with
  | D_header_field => mkLocals (par l) (usr l) (p l) m (header_value_mark l) (url_mark l) (body_mark l) (status_mark l)
  | D_header_value => mkLocals (par l) (usr l) (p l) (header_field_mark l) m (url_mark l) (body_mark l) (status_mark l)
  | D_url => mkLocals (par l) (usr l) (p l) (header_field_mark l) (header_value_mark l) m (body_mark l) (status_mark l)
  | D_body => mkLocals (par l) (usr l) (p l) (header_field_mark l) (header_value_mark l) (url_mark l) m (status_mark l)
  | D_status => mkLocals (par l) (usr l) (p l) (header_field_mark l) (header_value_mark l) (url_mark l) (body_mark l) m
  end.
Definition upd (f : http_parser -> http_parser) (l : locals) : locals := set_par (f (par l)) l.
Definition CURRENT_STATE (l : locals) : state := state_ (par l).
Definition UPDATE_STATE (s : state) : locals -> locals := upd (set_state s).

(** How a turn of the switch ends: [break], [goto reexecute] with the current
    [ch], [goto error], or a return. *)
Inductive flow :=
| Break (l : locals)
| Reexecute (ch : Z) (l : locals)
| Error (l : locals)
| Return (n : nat) (l : locals).

Definition fail (e : http_errno_t) (l : locals) : res flow := Ret (Error (upd (SET_ERRNO e) l)).

Context (settings : http_parser_settings) (data : list Z).

Definition data_errno (d : datum) : http_errno_t :=
  match d with
  | D_header_field => HPE_CB_header_field | D_header_value => HPE_CB_header_value | D_url => HPE_CB_url
  | D_body => HPE_CB_body | D_status => HPE_CB_status
  end.

(** ** Macros *)

(** [src/src/http/http_parser.c:80-96] CALLBACK_NOTIFY_ *)
Definition CALLBACK_NOTIFY_ (cb : option http_cb) (e : http_errno_t) (er : nat) (l : locals) (k : locals -> res flow) : res flow :=
  if decide (http_errno (par l) = HPE_OK) then
    match cb with
    | None => k l
    | Some f =>
        let! r := f (usr l) (par l) in
        let l := set_usr (snd r) l in
        if fst r =? 0 then k l else Ret (Return er (upd (SET_ERRNO e) l))
    end
  else Abort "assert".
(** [src/src/http/http_parser.c:99-99] CALLBACK_NOTIFY *)
Definition CALLBACK_NOTIFY cb e (l : locals) k : res flow := CALLBACK_NOTIFY_ cb e (S (p l)) l k.
(** [src/src/http/http_parser.c:102-102] CALLBACK_NOTIFY_NOADVANCE *)
Definition CALLBACK_NOTIFY_NOADVANCE cb e (l : locals) k : res flow := CALLBACK_NOTIFY_ cb e (p l) l k.

(** [stop] is the end of the string, which starts at the mark. *)
(** [src/src/http/http_parser.c:105-125] CALLBACK_DATA_ *)
Definition CALLBACK_DATA_ (d : datum) (stop er : nat) (l : locals) (k : locals -> res flow) : res flow :=
  if decide (http_errno (par l) = HPE_OK) then
    match mark d l with
    | None => k l
    | Some m =>
        match on_data settings d with
        | None => k (set_mark d None l)
        | Some f =>
            let! r := f (usr l) (par l) (take (stop - m) (drop m data)) in
            let l := set_usr (snd r) l in
            if fst r =? 0 then k (set_mark d None l) else Ret (Return er (upd (SET_ERRNO (data_errno d)) l))
        end
    end
  else Abort "assert".
(** [src/src/http/http_parser.c:128-129] CALLBACK_DATA *)
Definition CALLBACK_DATA d (l : locals) k : res flow := CALLBACK_DATA_ d (p l) (S (p l)) l k.
(** [src/src/http/http_parser.c:132-133] CALLBACK_DATA_NOADVANCE *)
Definition CALLBACK_DATA_NOADVANCE d (l : locals) k : res flow := CALLBACK_DATA_ d (p l) (p l) l k.

(** [src/src/http/http_parser.c:136-141] MARK *)
Definition MARK (d : datum) (l : locals) : locals :=
  match mark d l with None => set_mark d (Some (p l)) l | Some _ => l end.

(** [src/src/http/http_parser.c:154-161] COUNT_HEADER_SIZE *)
Definition COUNT_HEADER_SIZE {A} (v : nat) (l : locals) (err : locals -> A) (k : locals -> A) : A :=
  let l := upd (fun q => set_nread (u32 (nread q + Z.of_nat v)) q) l in
  if HTTP_MAX_HEADER_SIZE <? nread (par l) then err (upd (SET_ERRNO HPE_HEADER_OVERFLOW) l) else k l.

Definition count (v : nat) (l : locals) (k : locals -> res flow) : res flow :=
  COUNT_HEADER_SIZE v l (fun l => Ret (Error l)) k.

(** [src/src/http/http_parser.c:449-455] STRICT_CHECK *)
Definition STRICT_CHECK (cond : bool) (l : locals) (k : res flow) : res flow :=
  if cond then fail HPE_STRICT l else k.

Definition break (l : locals) : res flow := Ret (Break l).
Definition goto (s : state) (l : locals) : res flow := break (UPDATE_STATE s l).

(** [*= 10; += ch - '0'] on a 16-bit field, limited to 999. *)
Definition digit16 (get : http_parser -> Z) (put : Z -> http_parser -> http_parser) (e : http_errno_t) (ch : Z) (l : locals) : res flow :=
  let l := upd (fun q => put (u16 (u16 (get q * 10) + (ch - 48))) q) l in
  if 999 <? get (par l) then fail e l else break l.

(** ** Start of a message *)

(** [src/src/http/http_parser.c:711-719] case s_dead *)
Definition do_dead (ch : Z) (l : locals) : res flow :=
  if (ch =? CR) || (ch =? LF) then break l else fail HPE_CLOSED_CONNECTION l.

Definition new_message (l : locals) : locals := upd (fun q => set_content_length ULLONG_MAX (set_flags 0 q)) l.

(** [src/src/http/http_parser.c:721-739] case s_start_req_or_res *)
Definition do_start_req_or_res (ch : Z) (l : locals) : res flow :=
  if (ch =? CR) || (ch =? LF) then break l else
  let l := new_message l in
  if ch =? 72 then
    CALLBACK_NOTIFY (on_message_begin settings) HPE_CB_message_begin (UPDATE_STATE s_res_or_resp_H l) break
  else Ret (Reexecute ch (UPDATE_STATE s_start_req (upd (set_type HTTP_REQUEST) l))).

(** [src/src/http/http_parser.c:741-756] case s_res_or_resp_H *)
Definition do_res_or_resp_H (ch : Z) (l : locals) : res flow :=
  if ch =? 84 then goto s_res_HT (upd (set_type HTTP_RESPONSE) l) else
  if negb (ch =? 69) then fail HPE_INVALID_CONSTANT l else
  goto s_req_method (upd (fun q => set_index 2 (set_method HTTP_HEAD (set_type HTTP_REQUEST q))) l).

(** [src/src/http/http_parser.c:758-779] case s_start_res *)
Definition do_start_res (ch : Z) (l : locals) : res flow :=
  let l := new_message l in
  let begin l := CALLBACK_NOTIFY (on_message_begin settings) HPE_CB_message_begin l break in
  if ch =? 72 then begin (UPDATE_STATE s_res_H l) else
  if (ch =? CR) || (ch =? LF) then begin l else
  fail HPE_INVALID_CONSTANT l.

(** ** Status line *)

(** [src/src/http/http_parser.c:781-868] cases s_res_H to s_res_http_minor *)
Definition do_res_version (s : state) (ch : Z) (l : locals) : res flow :=
  match s with
  | s_res_H => STRICT_CHECK (negb (ch =? 84)) l (goto s_res_HT l)
  | s_res_HT => STRICT_CHECK (negb (ch =? 84)) l (goto s_res_HTT l)
  | s_res_HTT => STRICT_CHECK (negb (ch =? 80)) l (goto s_res_HTTP l)
  | s_res_HTTP => STRICT_CHECK (negb (ch =? SLASH)) l (goto s_res_first_http_major l)
  | s_res_first_http_major =>
      if (ch <? 48) || (57 <? ch) then fail HPE_INVALID_VERSION l
      else goto s_res_http_major (upd (set_http_major (ch - 48)) l)
  | s_res_http_major =>
      if ch =? DOT then goto s_res_first_http_minor l else
      if negb (IS_NUM ch) then fail HPE_INVALID_VERSION l else
      digit16 http_major set_http_major HPE_INVALID_VERSION ch l
  | s_res_first_http_minor =>
      if negb (IS_NUM ch) then fail HPE_INVALID_VERSION l else goto s_res_http_minor (upd (set_http_minor (ch - 48)) l)
  | _ =>
      if ch =? SP then goto s_res_first_status_code l else
      if negb (IS_NUM ch) then fail HPE_INVALID_VERSION l else
      digit16 http_minor set_http_minor HPE_INVALID_VERSION ch l
  end.

(** [src/src/http/http_parser.c:870-952] cases s_res_first_status_code to s_res_line_almost_done *)
Definition do_res_status (s : state) (ch : Z) (l : locals) : res flow :=
  match s with
  | s_res_first_status_code =>
      if negb (IS_NUM ch) then if ch =? SP then break l else fail HPE_INVALID_STATUS l
      else goto s_res_status_code (upd (set_status_code (ch - 48)) l)
  | s_res_status_code =>
      if negb (IS_NUM ch) then
        if ch =? SP then goto s_res_status_start l else
        if ch =? CR then goto s_res_line_almost_done l else
        if ch =? LF then goto s_header_field_start l else
        fail HPE_INVALID_STATUS l
      else digit16 status_code set_status_code HPE_INVALID_STATUS ch l
  | s_res_status_start =>
      if ch =? CR then goto s_res_line_almost_done l else
      if ch =? LF then goto s_header_field_start l else
      break (upd (set_index 0) (UPDATE_STATE s_res_status (MARK D_status l)))
  | s_res_status =>
      if ch =? CR then CALLBACK_DATA D_status (UPDATE_STATE s_res_line_almost_done l) break else
      if ch =? LF then CALLBACK_DATA D_status (UPDATE_STATE s_header_field_start l) break else
      break l
  | _ => STRICT_CHECK (negb (ch =? LF)) l (goto s_header_field_start l)
  end.

(** ** Request line *)

Definition first_letter (ch : Z) : option http_method :=
  if ch =? 65 then Some HTTP_ACL else if ch =? 66 then Some HTTP_BIND else if ch =? 67 then Some HTTP_CONNECT else
  if ch =? 68 then Some HTTP_DELETE else if ch =? 71 then Some HTTP_GET else if ch =? 72 then Some HTTP_HEAD else
  if ch =? 76 then Some HTTP_LOCK else if ch =? 77 then Some HTTP_MKCOL else if ch =? 78 then Some HTTP_NOTIFY else
  if ch =? 79 then Some HTTP_OPTIONS else if ch =? 80 then Some HTTP_POST else if ch =? 82 then Some HTTP_REPORT else
  if ch =? 83 then Some HTTP_SUBSCRIBE else if ch =? 84 then Some HTTP_TRACE else if ch =? 85 then Some HTTP_UNLOCK else None.

(** [src/src/http/http_parser.c:954-995] case s_start_req *)
Definition do_start_req (ch : Z) (l : locals) : res flow :=
  if (ch =? CR) || (ch =? LF) then break l else
  let l := new_message l in
  if negb (IS_ALPHA ch) then fail HPE_INVALID_METHOD l else
  let l := upd (fun q => set_index 1 (set_method HTTP_DELETE q)) l in
  match first_letter ch with
  | None => fail HPE_INVALID_METHOD l
  | Some m =>
      CALLBACK_NOTIFY (on_message_begin settings) HPE_CB_message_begin (UPDATE_STATE s_req_method (upd (set_method m) l)) break
  end.

(** [matcher[i]], with the terminating null *)
Definition char_at (s : string) (i : nat) : res Z :=
  if decide (i < String.length s)%nat then Ret (bytes s !!! i)
  else if decide (i = String.length s) then Ret 0 else Abort "read past the end of a string".

(** [src/src/http/http_parser.c:1012-1039] case s_req_method, switch *)
Definition method_branch (m : http_method) (i : nat) (ch : Z) : option http_method :=
  match m, i with
  | HTTP_POST, 1%nat => if ch =? 85 then Some HTTP_PUT else if ch =? 65 then Some HTTP_PATCH else if ch =? 82 then Some HTTP_PROPFIND else None
  | HTTP_CONNECT, 1%nat => if ch =? 72 then Some HTTP_CHECKOUT else None
  | HTTP_CONNECT, 2%nat => if ch =? 80 then Some HTTP_COPY else None
  | HTTP_MKCOL, 1%nat => if ch =? 79 then Some HTTP_MOVE else if ch =? 69 then Some HTTP_MERGE else None
  | HTTP_MKCOL, 2%nat => if ch =? 65 then Some HTTP_MKACTIVITY else None
  | HTTP_MKCOL, 3%nat => if ch =? 65 then Some HTTP_MKCALENDAR else None
  | HTTP_SUBSCRIBE, 1%nat => if ch =? 69 then Some HTTP_SEARCH else None
  | HTTP_REPORT, 2%nat => if ch =? 66 then Some HTTP_REBIND else None
  | HTTP_PROPFIND, 4%nat => if ch =? 80 then Some HTTP_PROPPATCH else None
  | HTTP_PUT, 2%nat => if ch =? 82 then Some HTTP_PURGE else None
  | HTTP_LOCK, 1%nat => if ch =? 73 then Some HTTP_LINK else None
  | HTTP_UNLOCK, 2%nat => if ch =? 83 then Some HTTP_UNSUBSCRIBE else if ch =? 66 then Some HTTP_UNBIND else None
  | HTTP_UNLOCK, 3%nat => if ch =? 73 then Some HTTP_UNLINK else None
  | _, _ => None
  end.

(** [src/src/http/http_parser.c:997-1051] case s_req_method *)
Definition do_req_method (ch : Z) (l : locals) : res flow :=
  let m := method (par l) in
  let i := index (par l) in
  if ch =? 0 then fail HPE_INVALID_METHOD l else
  let! c := char_at (method_string m) i in
  let next l := break (upd incr_index l) in
  if (ch =? SP) && (c =? 0) then next (UPDATE_STATE s_req_spaces_before_url l) else
  if ch =? c then next l else
  if IS_ALPHA ch then
    match method_branch m i ch with
    | Some m' => next (upd (set_method m') l)
    | None => fail HPE_INVALID_METHOD l
    end
  else if (ch =? MINUS) && bool_decide (i = 1%nat) && bool_decide (m = HTTP_MKCOL) then next (upd (set_method HTTP_MSEARCH) l)
  else fail HPE_INVALID_METHOD l.

Definition url_char (ch : Z) (l : locals) : res flow :=
  let l := UPDATE_STATE (parse_url_char (CURRENT_STATE l) ch) l in
  if decide (CURRENT_STATE l = s_dead) then fail HPE_INVALID_URL l else break l.

(** [src/src/http/http_parser.c:1053-1069] case s_req_spaces_before_url *)
Definition do_spaces_before_url (ch : Z) (l : locals) : res flow :=
  if ch =? SP then break l else
  let l := MARK D_url l in
  url_char ch (if decide (method (par l) = HTTP_CONNECT) then UPDATE_STATE s_req_server_start l else l).

(** [src/src/http/http_parser.c:1071-1092] cases s_req_schema to s_req_server_start *)
Definition do_url_start (ch : Z) (l : locals) : res flow :=
  if (ch =? SP) || (ch =? CR) || (ch =? LF) then fail HPE_INVALID_URL l else url_char ch l.

(** [src/src/http/http_parser.c:1094-1124] cases s_req_server to s_req_fragment *)
Definition do_url (ch : Z) (l : locals) : res flow :=
  if ch =? SP then CALLBACK_DATA D_url (UPDATE_STATE s_req_http_start l) break else
  if (ch =? CR) || (ch =? LF) then
    let l := upd (fun q => set_http_minor 9 (set_http_major 0 q)) l in
    CALLBACK_DATA D_url (UPDATE_STATE (if ch =? CR then s_req_line_almost_done else s_header_field_start) l) break
  else url_char ch l.

(** [src/src/http/http_parser.c:1126-1246] cases s_req_http_start to s_req_line_almost_done *)
Definition do_req_version (s : state) (ch : Z) (l : locals) : res flow :=
  match s with
  | s_req_http_start =>
      if ch =? 72 then goto s_req_http_H l else if ch =? SP then break l else fail HPE_INVALID_CONSTANT l
  | s_req_http_H => STRICT_CHECK (negb (ch =? 84)) l (goto s_req_http_HT l)
  | s_req_http_HT => STRICT_CHECK (negb (ch =? 84)) l (goto s_req_http_HTT l)
  | s_req_http_HTT => STRICT_CHECK (negb (ch =? 80)) l (goto s_req_http_HTTP l)
  | s_req_http_HTTP => STRICT_CHECK (negb (ch =? SLASH)) l (goto s_req_first_http_major l)
  | s_req_first_http_major =>
      if (ch <? 49) || (57 <? ch) then fail HPE_INVALID_VERSION l
      else goto s_req_http_major (upd (set_http_major (ch - 48)) l)
  | s_req_http_major =>
      if ch =? DOT then goto s_req_first_http_minor l else
      if negb (IS_NUM ch) then fail HPE_INVALID_VERSION l else
      digit16 http_major set_http_major HPE_INVALID_VERSION ch l
  | s_req_first_http_minor =>
      if negb (IS_NUM ch) then fail HPE_INVALID_VERSION l else goto s_req_http_minor (upd (set_http_minor (ch - 48)) l)
  | s_req_http_minor =>
      if ch =? CR then goto s_req_line_almost_done l else
      if ch =? LF then goto s_header_field_start l else
      if negb (IS_NUM ch) then fail HPE_INVALID_VERSION l else
      digit16 http_minor set_http_minor HPE_INVALID_VERSION ch l
  | _ => if negb (ch =? LF) then fail HPE_LF_EXPECTED l else goto s_header_field_start l
  end.

(** ** Header fields *)

(** [src/src/http/http_parser.c:1248-1296] case s_header_field_start *)
Definition do_header_field_start (ch : Z) (l : locals) : res flow :=
  if ch =? CR then goto s_headers_almost_done l else
  if ch =? LF then Ret (Reexecute ch (UPDATE_STATE s_headers_almost_done l)) else
  let c := TOKEN ch in
  if c =? 0 then fail HPE_INVALID_HEADER_TOKEN l else
  let l := UPDATE_STATE s_header_field (upd (set_index 0) (MARK D_header_field l)) in
  break (upd (set_header_state
    (if c =? 99 then h_C else if c =? 112 then h_matching_proxy_connection else
     if c =? 116 then h_matching_transfer_encoding else if c =? 117 then h_matching_upgrade else h_general)) l).

(** One more character of a known word [w], of which [i] have been matched:
    [i] is the index after [parser->index++]. *)
Definition match_next (w : string) (i : nat) (c : Z) (miss hit same : header_states) : header_states :=
  if bool_decide (String.length w < i)%nat || negb (c =? table (bytes w) (Z.of_nat i)) then miss
  else if bool_decide (i = (String.length w - 1)%nat) then hit else same.

(** [src/src/http/http_parser.c:1308-1407] case s_header_field, switch *)
Definition field_char (ch c : Z) (q : http_parser) : res http_parser :=
  let next (q : http_parser) h := Ret (set_header_state (h (index (incr_index q))) (incr_index q)) in
  match header_state q with
  | h_general => Ret q
  | h_C => next q (fun _ => if c =? 111 then h_CO else h_general)
  | h_CO => next q (fun _ => if c =? 110 then h_CON else h_general)
  | h_CON => next q (fun _ => if c =? 110 then h_matching_connection else if c =? 116 then h_matching_content_length else h_general)
  | h_matching_connection => next q (fun i => match_next "connection" i c h_general h_connection h_matching_connection)
  | h_matching_proxy_connection =>
      next q (fun i => match_next "proxy-connection" i c h_general h_connection h_matching_proxy_connection)
  | h_matching_content_length =>
      next q (fun i => match_next "content-length" i c h_general h_content_length h_matching_content_length)
  | h_matching_transfer_encoding =>
      next q (fun i => match_next "transfer-encoding" i c h_general h_transfer_encoding h_matching_transfer_encoding)
  | h_matching_upgrade => next q (fun i => match_next "upgrade" i c h_general h_upgrade h_matching_upgrade)
  | h_connection | h_content_length | h_transfer_encoding | h_upgrade =>
      Ret (if negb (ch =? SP) then set_header_state h_general q else q)
  | _ => Abort "Unknown header_state"
  end.

(** The loop over the characters of the field, from [p]; [rest] is what is
    left of the input. *)
(** [src/src/http/http_parser.c:1301-1408] case s_header_field, loop *)
Fixpoint field_loop (rest : list Z) (l : locals) : res locals :=
  match rest with
  | [] => Ret l
  | ch :: rest =>
      let c := TOKEN ch in
      if c =? 0 then Ret l else
      let! q := field_char ch c (par l) in
      field_loop rest (set_p (S (p l)) (set_par q l))
  end.

(** [src/src/http/http_parser.c:1298-1425] case s_header_field *)
Definition do_header_field (l : locals) : res flow :=
  let start := p l in
  let! l := field_loop (drop start data) l in
  count (p l - start) l (fun l =>
    match data !! p l with
    | None => break (set_p (p l - 1) l)
    | Some ch =>
        if ch =? COLON then CALLBACK_DATA D_header_field (UPDATE_STATE s_header_value_discard_ws l) break
        else fail HPE_INVALID_HEADER_TOKEN l
    end).

(** ** Header values *)

(** [src/src/http/http_parser.c:1442-1504] case s_header_value_start *)
Definition do_header_value_start (ch : Z) (l : locals) : res flow :=
  let l := upd (set_index 0) (UPDATE_STATE s_header_value (MARK D_header_value l)) in
  let c := LOWER ch in
  let become h l := break (upd (set_header_state h) l) in
  match header_state (par l) with
  | h_upgrade => become h_general (upd (add_flag F_UPGRADE) l)
  | h_transfer_encoding => become (if c =? 99 then h_matching_transfer_encoding_chunked else h_general) l
  | h_content_length =>
      if negb (IS_NUM ch) then fail HPE_INVALID_CONTENT_LENGTH l else
      if has_flag F_CONTENTLENGTH (par l) then fail HPE_UNEXPECTED_CONTENT_LENGTH l else
      break (upd (set_content_length (ch - 48)) (upd (add_flag F_CONTENTLENGTH) l))
  | h_connection =>
      become (if c =? 107 then h_matching_connection_keep_alive else if c =? 99 then h_matching_connection_close else
              if c =? 117 then h_matching_connection_upgrade else h_matching_connection_token) l
  | h_matching_connection_token_start => break l
  | _ => become h_general l
  end.

(** [src/src/http/http_parser.c:1427-1440] case s_header_value_discard_ws *)
Definition do_header_value_discard_ws (ch : Z) (l : locals) : res flow :=
  if (ch =? SP) || (ch =? TAB) then break l else
  if ch =? CR then goto s_header_value_discard_ws_almost_done l else
  if ch =? LF then goto s_header_value_discard_lws l else
  do_header_value_start ch l.

(** One character of a value, by the local [h_state]; an error is an error of
    the parser. *)
(** [src/src/http/http_parser.c:1534-1686] case s_header_value, switch *)
Definition value_char (ch : Z) (h_state : header_states) (q : http_parser) : res (http_errno_t + header_states * http_parser) :=
  let c := LOWER ch in
  let to h q := Ret (inr (h, q)) in
  let next h q := Ret (inr (h (index (incr_index q)), incr_index q)) in
  match h_state with
  | h_connection | h_transfer_encoding => Abort "Shouldn't get here."
  | h_content_length =>
      if ch =? SP then to h_state q else
      if negb (IS_NUM ch) then Ret (inl HPE_INVALID_CONTENT_LENGTH) else
      let t := u64 (u64 (content_length q * 10) + (ch - 48)) in
      if (ULLONG_MAX - 10) / 10 <? content_length q then Ret (inl HPE_INVALID_CONTENT_LENGTH)
      else to h_state (set_content_length t q)
  | h_matching_transfer_encoding_chunked =>
      next (fun i => match_next "chunked" i c h_general h_transfer_encoding_chunked h_state) q
  | h_matching_connection_token_start =>
      to (if c =? 107 then h_matching_connection_keep_alive else if c =? 99 then h_matching_connection_close else
          if c =? 117 then h_matching_connection_upgrade else if negb (TOKEN c =? 0) then h_matching_connection_token else
          if (c =? SP) || (c =? TAB) then h_state else h_general) q
  | h_matching_connection_keep_alive =>
      next (fun i => match_next "keep-alive" i c h_matching_connection_token h_connection_keep_alive h_state) q
  | h_matching_connection_close =>
      next (fun i => match_next "close" i c h_matching_connection_token h_connection_close h_state) q
  | h_matching_connection_upgrade =>
      next (fun i => match_next "upgrade" i c h_matching_connection_token h_connection_upgrade h_state) q
  | h_matching_connection_token =>
      if ch =? COMMA then to h_matching_connection_token_start (set_index 0 q) else to h_state q
  | h_transfer_encoding_chunked => to (if negb (ch =? SP) then h_general else h_state) q
  | h_connection_keep_alive | h_connection_close | h_connection_upgrade =>
      if ch =? COMMA then
        to h_matching_connection_token_start
          (set_index 0 (add_flag (match h_state with h_connection_keep_alive => F_CONNECTION_KEEP_ALIVE
                                                | h_connection_close => F_CONNECTION_CLOSE | _ => F_CONNECTION_UPGRADE end) q))
      else to (if negb (ch =? SP) then h_matching_connection_token else h_state) q
  | _ => to h_general (set_state s_header_value q)
  end.

(** The index of the first [c], as [memchr]. *)
Fixpoint memchr (c : Z) (l : list Z) : option nat :=
  match l with
  | [] => None
  | b :: l => if b =? c then Some O else S <$> memchr c l
  end.

(** In a header of no interest: the end of the line, or the end of the input. *)
(** [src/src/http/http_parser.c:1537-1555] case s_header_value, h_general *)
Definition skip_general (pos : nat) : nat :=
  let rest := drop pos data in
  let limit := Z.to_nat (Z.min (Z.of_nat (length rest)) HTTP_MAX_HEADER_SIZE) in
  match memchr CR (take limit rest), memchr LF (take limit rest) with
  | Some cr, Some lf => if bool_decide (lf <= cr)%nat then pos + lf else pos + cr
  | Some cr, None => pos + cr
  | None, Some lf => pos + lf
  | None, None => length data
  end%nat.

(** [src/src/http/http_parser.c:1688-1694] case s_header_value, end *)
Definition value_done (start : nat) (h_state : header_states) (l : locals) : res flow :=
  count (p l - start) (upd (set_header_state h_state) l) (fun l =>
    break (if decide (p l = length data) then set_p (p l - 1) l else l)).

(** [src/src/http/http_parser.c:1510-1687] case s_header_value, loop *)
Fixpoint value_loop (fuel start : nat) (h_state : header_states) (l : locals) : res flow :=
  match data !! p l with
  | None => value_done start h_state l
  | Some ch =>
      if ch =? CR then
        CALLBACK_DATA D_header_value (upd (set_header_state h_state) (UPDATE_STATE s_header_almost_done l))
          (value_done start h_state)
      else if ch =? LF then
        count (p l - start) (UPDATE_STATE s_header_almost_done l) (fun l =>
          CALLBACK_DATA_NOADVANCE D_header_value (upd (set_header_state h_state) l) (fun l => Ret (Reexecute ch l)))
      else if negb (lenient_http_headers (par l)) && negb (IS_HEADER_CHAR ch) then fail HPE_INVALID_HEADER_TOKEN l
      else
        match fuel with
        | O => OutOfFuel
        | S fuel =>
            match h_state with
            | h_general => value_loop fuel start h_general (set_p (skip_general (p l)) l)
            | _ =>
                let! r := value_char ch h_state (par l) in
                match r with
                | inl e => fail e (upd (set_header_state h_state) l)
                | inr (h, q) => value_loop fuel start h (set_p (S (p l)) (set_par q l))
                end
            end
        end
  end.

(** [src/src/http/http_parser.c:1506-1509] case s_header_value *)
Definition do_header_value (l : locals) : res flow :=
  value_loop (length data - p l) (p l) (header_state (par l)) l.

(** ** End of a header and of the headers *)

(** [src/src/http/http_parser.c:1697-1706] case s_header_almost_done *)
Definition do_header_almost_done (ch : Z) (l : locals) : res flow :=
  if negb (ch =? LF) then fail HPE_LF_EXPECTED l else goto s_header_value_lws l.

(** [src/src/http/http_parser.c:1716-1731] case s_header_value_lws, switch *)
Definition header_finished (q : http_parser) : http_parser :=
  match header_state q with
  | h_connection_keep_alive => add_flag F_CONNECTION_KEEP_ALIVE q
  | h_connection_close => add_flag F_CONNECTION_CLOSE q
  | h_transfer_encoding_chunked => add_flag F_CHUNKED q
  | h_connection_upgrade => add_flag F_CONNECTION_UPGRADE q
  | _ => q
  end.

(** [src/src/http/http_parser.c:1708-1735] case s_header_value_lws *)
Definition do_header_value_lws (ch : Z) (l : locals) : res flow :=
  if (ch =? SP) || (ch =? TAB) then Ret (Reexecute ch (UPDATE_STATE s_header_value_start l))
  else Ret (Reexecute ch (UPDATE_STATE s_header_field_start (upd header_finished l))).

(** [src/src/http/http_parser.c:1744-1773] case s_header_value_discard_lws *)
Definition do_header_value_discard_lws (ch : Z) (l : locals) : res flow :=
  if (ch =? SP) || (ch =? TAB) then goto s_header_value_discard_ws l else
  CALLBACK_DATA_NOADVANCE D_header_value (UPDATE_STATE s_header_field_start (MARK D_header_value (upd header_finished l)))
    (fun l => Ret (Reexecute ch l)).

Definition UPGRADE_FLAGS : Z := Z.lor F_UPGRADE F_CONNECTION_UPGRADE.

(** The return value 2 of [on_headers_complete] falls through to the case 1. *)
(** [src/src/http/http_parser.c:1775-1834] case s_headers_almost_done *)
Definition do_headers_almost_done (ch : Z) (l : locals) : res flow :=
  STRICT_CHECK (negb (ch =? LF)) l (
  if has_flag F_TRAILING (par l) then
    CALLBACK_NOTIFY_NOADVANCE (on_chunk_complete settings) HPE_CB_chunk_complete (UPDATE_STATE s_message_done l)
      (fun l => Ret (Reexecute ch l))
  else if has_flag F_CHUNKED (par l) && has_flag F_CONTENTLENGTH (par l) then fail HPE_UNEXPECTED_CONTENT_LENGTH l
  else
    let l := UPDATE_STATE s_headers_done l in
    let l := upd (fun q => set_upgrade ((Z.land (flags q) UPGRADE_FLAGS =? UPGRADE_FLAGS) || bool_decide (method q = HTTP_CONNECT)) q) l in
    let next l := if decide (http_errno (par l) = HPE_OK) then Ret (Reexecute ch l) else Ret (Return (p l) l) in
    match on_headers_complete settings with
    | None => next l
    | Some f =>
        let! r := f (usr l) (par l) in
        let l := set_usr (snd r) l in
        if fst r =? 0 then next l else
        if fst r =? 2 then next (upd (add_flag F_SKIPBODY) (upd (set_upgrade true) l)) else
        if fst r =? 1 then next (upd (add_flag F_SKIPBODY) l) else
        Ret (Return (p l) (upd (SET_ERRNO HPE_CB_headers_complete) l))
    end).

Definition to_new_message (l : locals) : locals := UPDATE_STATE (NEW_MESSAGE (par l)) l.
Definition message_complete (l : locals) (k : locals -> res flow) : res flow :=
  CALLBACK_NOTIFY (on_message_complete settings) HPE_CB_message_complete (to_new_message l) k.

(** [src/src/http/http_parser.c:1836-1880] case s_headers_done *)
Definition do_headers_done (ch : Z) (l : locals) : res flow :=
  STRICT_CHECK (negb (ch =? LF)) l (
  let l := upd (set_nread 0) l in
  let q := par l in
  let hasBody := has_flag F_CHUNKED q || ((0 <? content_length q) && negb (content_length q =? ULLONG_MAX)) in
  if upgrade q && (bool_decide (method q = HTTP_CONNECT) || has_flag F_SKIPBODY q || negb hasBody) then
    message_complete l (fun l => Ret (Return (S (p l)) l))
  else if has_flag F_SKIPBODY q then message_complete l break
  else if has_flag F_CHUNKED q then goto s_chunk_size_start l
  else if content_length q =? 0 then message_complete l break
  else if negb (content_length q =? ULLONG_MAX) then goto s_body_identity l
  else if negb (http_message_needs_eof q) then message_complete l break
  else goto s_body_identity_eof l).

(** ** Body *)

Definition left (l : locals) : Z := Z.of_nat (length data - p l).

(** [src/src/http/http_parser.c:1882-1916] case s_body_identity *)
Definition do_body_identity (ch : Z) (l : locals) : res flow :=
  let len := content_length (par l) in
  let to_read := Z.min len (left l) in
  if (len =? 0) || (len =? ULLONG_MAX) then Abort "assert" else
  let l := MARK D_body l in
  let l := upd (set_content_length (len - to_read)) l in
  let l := set_p (p l + Z.to_nat to_read - 1) l in
  if content_length (par l) =? 0 then
    CALLBACK_DATA_ D_body (S (p l)) (p l) (UPDATE_STATE s_message_done l) (fun l => Ret (Reexecute ch l))
  else break l.

(** [src/src/http/http_parser.c:1919-1923] case s_body_identity_eof *)
Definition do_body_identity_eof (l : locals) : res flow := break (set_p (length data - 1) (MARK D_body l)).

(** [src/src/http/http_parser.c:1925-1932] case s_message_done *)
Definition do_message_done (l : locals) : res flow :=
  message_complete l (fun l => if upgrade (par l) then Ret (Return (S (p l)) l) else break l).

(** [src/src/http/http_parser.c:1934-2013] cases s_chunk_size_start to s_chunk_size_almost_done *)
Definition do_chunk_size (s : state) (ch : Z) (l : locals) : res flow :=
  if negb (has_flag F_CHUNKED (par l)) then Abort "assert" else
  match s with
  | s_chunk_size_start =>
      if negb (nread (par l) =? 1) then Abort "assert" else
      if unhex ch =? -1 then fail HPE_INVALID_CHUNK_SIZE l else
      goto s_chunk_size (upd (set_content_length (unhex ch)) l)
  | s_chunk_size =>
      if ch =? CR then goto s_chunk_size_almost_done l else
      if unhex ch =? -1 then
        if (ch =? SEMICOLON) || (ch =? SP) then goto s_chunk_parameters l else fail HPE_INVALID_CHUNK_SIZE l
      else
        let t := u64 (u64 (content_length (par l) * 16) + unhex ch) in
        if (ULLONG_MAX - 16) / 16 <? content_length (par l) then fail HPE_INVALID_CONTENT_LENGTH l
        else break (upd (set_content_length t) l)
  | s_chunk_parameters => if ch =? CR then goto s_chunk_size_almost_done l else break l
  | _ =>
      STRICT_CHECK (negb (ch =? LF)) l (
      let l := upd (set_nread 0) l in
      let l := if content_length (par l) =? 0 then UPDATE_STATE s_header_field_start (upd (add_flag F_TRAILING) l)
               else UPDATE_STATE s_chunk_data l in
      CALLBACK_NOTIFY (on_chunk_header settings) HPE_CB_chunk_header l break)
  end.

(** [src/src/http/http_parser.c:2015-2052] cases s_chunk_data to s_chunk_data_done *)
Definition do_chunk_data (s : state) (ch : Z) (l : locals) : res flow :=
  if negb (has_flag F_CHUNKED (par l)) then Abort "assert" else
  match s with
  | s_chunk_data =>
      let len := content_length (par l) in
      let to_read := Z.min len (left l) in
      if (len =? 0) || (len =? ULLONG_MAX) then Abort "assert" else
      let l := MARK D_body l in
      let l := upd (set_content_length (len - to_read)) l in
      let l := set_p (p l + Z.to_nat to_read - 1) l in
      if content_length (par l) =? 0 then goto s_chunk_data_almost_done l else break l
  | s_chunk_data_almost_done =>
      if negb (content_length (par l) =? 0) then Abort "assert" else
      STRICT_CHECK (negb (ch =? CR)) l (CALLBACK_DATA D_body (UPDATE_STATE s_chunk_data_done l) break)
  | _ =>
      STRICT_CHECK (negb (ch =? LF)) l (
      CALLBACK_NOTIFY (on_chunk_complete settings) HPE_CB_chunk_complete
        (UPDATE_STATE s_chunk_size_start (upd (set_nread 0) l)) break)
  end.

(** ** The loop *)

(** [src/src/http/http_parser.c:708-710] http_parser_execute, switch *)
Definition switch (ch : Z) (l : locals) : res flow :=
  match CURRENT_STATE l with
  | s_dead => do_dead ch l
  | s_start_req_or_res => do_start_req_or_res ch l
  | s_res_or_resp_H => do_res_or_resp_H ch l
  | s_start_res => do_start_res ch l
  | s_res_H | s_res_HT | s_res_HTT | s_res_HTTP | s_res_first_http_major | s_res_http_major | s_res_first_http_minor
  | s_res_http_minor => do_res_version (CURRENT_STATE l) ch l
  | s_res_first_status_code | s_res_status_code | s_res_status_start | s_res_status
  | s_res_line_almost_done => do_res_status (CURRENT_STATE l) ch l
  | s_start_req => do_start_req ch l
  | s_req_method => do_req_method ch l
  | s_req_spaces_before_url => do_spaces_before_url ch l
  | s_req_schema | s_req_schema_slash | s_req_schema_slash_slash | s_req_server_start => do_url_start ch l
  | s_req_server | s_req_server_with_at | s_req_path | s_req_query_string_start | s_req_query_string
  | s_req_fragment_start | s_req_fragment => do_url ch l
  | s_req_http_start | s_req_http_H | s_req_http_HT | s_req_http_HTT | s_req_http_HTTP | s_req_first_http_major
  | s_req_http_major | s_req_first_http_minor | s_req_http_minor
  | s_req_line_almost_done => do_req_version (CURRENT_STATE l) ch l
  | s_header_field_start => do_header_field_start ch l
  | s_header_field => do_header_field l
  | s_header_value_discard_ws => do_header_value_discard_ws ch l
  | s_header_value_start => do_header_value_start ch l
  | s_header_value => do_header_value l
  | s_header_almost_done => do_header_almost_done ch l
  | s_header_value_lws => do_header_value_lws ch l
  | s_header_value_discard_ws_almost_done => STRICT_CHECK (negb (ch =? LF)) l (goto s_header_value_discard_lws l)
  | s_header_value_discard_lws => do_header_value_discard_lws ch l
  | s_headers_almost_done => do_headers_almost_done ch l
  | s_headers_done => do_headers_done ch l
  | s_body_identity => do_body_identity ch l
  | s_body_identity_eof => do_body_identity_eof l
  | s_message_done => do_message_done l
  | s_chunk_size_start | s_chunk_size | s_chunk_parameters | s_chunk_size_almost_done => do_chunk_size (CURRENT_STATE l) ch l
  | s_chunk_data | s_chunk_data_almost_done | s_chunk_data_done => do_chunk_data (CURRENT_STATE l) ch l
  end.

(** One turn of the loop, with its jumps to [reexecute]. *)
Fixpoint turn (fuel : nat) (ch : Z) (l : locals) : res flow :=
  let! f := switch ch l in
  match f with
  | Reexecute ch l => match fuel with O => OutOfFuel | S fuel => turn fuel ch l end
  | f => Ret f
  end.

(** The longest chain of jumps goes through the end of a header, the end of
    the headers, and the end of the message. *)
Definition turn_fuel : nat := 4.

Definition marks_set (l : locals) : nat :=
  length (filter (fun d => is_Some (mark d l)) [D_header_field; D_header_value; D_url; D_body; D_status]).

(** [src/src/http/http_parser.c:2061-2083] http_parser_execute, end of the input *)
Definition finish (l : locals) : res flow :=
  if decide (marks_set l <= 1)%nat then
    CALLBACK_DATA_NOADVANCE D_header_field l (fun l =>
    CALLBACK_DATA_NOADVANCE D_header_value l (fun l =>
    CALLBACK_DATA_NOADVANCE D_url l (fun l =>
    CALLBACK_DATA_NOADVANCE D_body l (fun l =>
    CALLBACK_DATA_NOADVANCE D_status l (fun l => Ret (Return (length data) l))))))
  else Abort "assert".

(** [src/src/http/http_parser.c:2085-2091] http_parser_execute, error *)
Definition on_error (l : locals) : nat * locals :=
  (p l, if decide (http_errno (par l) = HPE_OK) then upd (SET_ERRNO HPE_UNKNOWN) l else l).

Definition returned (f : flow) : nat * locals :=
  match f with Return n l => (n, l) | Error l | Break l | Reexecute _ l => on_error l end.

(** [src/src/http/http_parser.c:702-706] http_parser_execute, loop *)
Fixpoint loop (fuel : nat) (l : locals) : res (nat * locals) :=
  if decide (p l = length data) then let! f := finish l in Ret (returned f)
  else
    match data !! p l with
    | None => Abort "read past the end of the input"
    | Some ch =>
        let go l :=
          let! f := turn turn_fuel ch l in
          match f with
          | Break l => match fuel with O => OutOfFuel | S fuel => loop fuel (set_p (S (p l)) l) end
          | f => Ret (returned f)
          end in
        if PARSING_HEADER (CURRENT_STATE l) then COUNT_HEADER_SIZE 1 l (fun l => Ret (on_error l)) go else go l
    end.

(** [src/src/http/http_parser.c:677-700] http_parser_execute, marks *)
Definition initial_locals (q : http_parser) (u : U) : locals :=
  let l := mkLocals q u 0 None None None None None in
  match state_ q with
  | s_header_field => set_mark D_header_field (Some O) l
  | s_header_value => set_mark D_header_value (Some O) l
  | s_req_path | s_req_schema | s_req_schema_slash | s_req_schema_slash_slash | s_req_server_start | s_req_server
  | s_req_server_with_at | s_req_query_string_start | s_req_query_string | s_req_fragment_start
  | s_req_fragment => set_mark D_url (Some O) l
  | s_res_status => set_mark D_status (Some O) l
  | _ => l
  end.

(** The number of bytes parsed, the parser and the user's state. *)
Definition answer (r : nat * locals) : nat * http_parser * U := (fst r, par (snd r), usr (snd r)).

(** [src/src/http/http_parser.c:634-702] http_parser_execute *)
Definition http_parser_execute (q : http_parser) (u : U) : res (nat * http_parser * U) :=
  if decide (http_errno q = HPE_OK) then
    match data with
    | [] =>
        match state_ q with
        | s_body_identity_eof =>
            let! f := CALLBACK_NOTIFY_NOADVANCE (on_message_complete settings) HPE_CB_message_complete
                        (initial_locals q u) (fun l => Ret (Return O l)) in
            Ret (answer (returned f))
        | s_dead | s_start_req_or_res | s_start_res | s_start_req => Ret (O, q, u)
        | _ => Ret (1%nat, SET_ERRNO HPE_INVALID_EOF_STATE q, u)
        end
    | _ => let! r := loop (length data) (initial_locals q u) in Ret (answer r)
    end
  else Ret (O, q, u).
End Exec.
