(* ===== verification/HttpMessage.v ===== *)
(** * HTTP messages: http::Parser and the HTTP codecs

    Models [src/include/futures/http/HttpParser.h], [src/src/http/HttpParser.cpp]
    and [src/src/http/HttpCodec.cpp].  Strings and bodies are lists of bytes, the
    input of a decoder is the list of the buffers in the queue. *)

From S2P Require Import Prelude HttpSyntax HttpExec.
Local Open Scope cpp_scope.
Local Open Scope Z_scope.

(** ** Frames *)

(** [src/include/futures/http/HttpParser.h:14-23] HttpFrame *)
Record HttpFrame := mkFrame {
  err : http_errno_t;
  frame_http_errno : Z;
  frame_method : http_method;
  frame_content_length : Z;
  path : list Z;
  headers : gmap (list Z) (list Z);
  eof_ : bool;
  body : list Z }.

(** [src/include/futures/http/HttpParser.h:30-39] HttpFrame::reset *)
Definition empty_frame : HttpFrame := mkFrame HPE_OK 0 HTTP_DELETE 0 [] ∅ false [].

(** [src/include/futures/http/HttpParser.h:41-43] HttpFrame::hasContentLength *)
Definition hasContentLength (f : HttpFrame) : bool := frame_content_length f <? 2 ^ 63 - 1.

(** ** http::Parser *)

(** [src/include/futures/http/HttpParser.h:70-74] Parser::State *)
Inductive PState := INIT | HEADER | VALUE.
#[global] Instance PState_eq_dec : EqDecision PState.
Proof. solve_decision. Defined.

(** What the callbacks reach through [parser->data]; [parser_] itself is kept
    beside it. *)
(** [src/include/futures/http/HttpParser.h:122-133] Parser *)
Record Self := mkSelf {
  allow_body_ : bool;
  field_ : list Z;
  value_ : list Z;
  s_ : PState;
  header_completed_ : bool;
  completed_ : bool;
  req_ : HttpFrame }.

Definition upd_req (f : HttpFrame) (s : Self) : Self :=
  mkSelf (allow_body_ s) (field_ s) (value_ s) (s_ s) (header_completed_ s) (completed_ s) f.
Definition upd_field (l : list Z) (s : Self) : Self :=
  mkSelf (allow_body_ s) l (value_ s) HEADER (header_completed_ s) (completed_ s) (req_ s).
Definition upd_value (l : list Z) (s : Self) : Self :=
  mkSelf (allow_body_ s) (field_ s) l VALUE (header_completed_ s) (completed_ s) (req_ s).

(** [src/include/futures/http/HttpParser.h:135-142] Parser::reset *)
Definition reset (s : Self) : Self := mkSelf (allow_body_ s) [] [] INIT false false empty_frame.

(** [self->req_.headers[self->field_] = self->value_] *)
Definition store_header (s : Self) : Self :=
  let f := req_ s in
  upd_req (mkFrame (err f) (frame_http_errno f) (frame_method f) (frame_content_length f) (path f)
             (<[field_ s := value_ s]> (headers f)) (eof_ f) (body f)) s.

(** [src/src/http/HttpParser.cpp:21-26] Parser::url_cb *)
Definition url_cb : http_data_cb (U := Self) := fun self _ at_ =>
  let f := req_ self in
  Ret (0, upd_req (mkFrame (err f) (frame_http_errno f) (frame_method f) (frame_content_length f) (path f ++ at_)
                     (headers f) (eof_ f) (body f)) self).

(** [src/src/http/HttpParser.cpp:28-41] Parser::header_field_cb *)
Definition header_field_cb : http_data_cb (U := Self) := fun self _ at_ =>
  let self := match s_ self with VALUE => store_header self | _ => self end in
  Ret (0, match s_ self with
          | INIT | VALUE => upd_field at_ self
          | HEADER => upd_field (field_ self ++ at_) self
          end).

(** [src/src/http/HttpParser.cpp:43-54] Parser::header_value_cb *)
Definition header_value_cb : http_data_cb (U := Self) := fun self _ at_ =>
  match s_ self with
  | VALUE => Ret (0, upd_value (value_ self ++ at_) self)
  | HEADER => Ret (0, upd_value at_ self)
  | INIT => Abort "assert(0)"
  end.

(** The clone of the current buffer, trimmed to the body, is its bytes. *)
(** [src/src/http/HttpParser.cpp:56-72] Parser::body_cb *)
Definition body_cb : http_data_cb (U := Self) := fun self _ at_ =>
  match at_ with
  | [] => Abort "assert"
  | _ =>
      let f := req_ self in
      Ret (0, upd_req (mkFrame (err f) (frame_http_errno f) (frame_method f) (frame_content_length f) (path f)
                         (headers f) (eof_ f) (body f ++ at_)) self)
  end.

(** [src/src/http/HttpParser.cpp:74-86] Parser::header_complete_cb *)
Definition header_complete_cb : http_cb (U := Self) := fun self parser =>
  let self := match s_ self with VALUE => store_header self | _ => self end in
  let f := req_ self in
  let f := mkFrame (http_errno parser) (frame_http_errno f) (method parser) (content_length parser) (path f)
             (headers f) (eof_ f) (body f) in
  let self := mkSelf (allow_body_ self) (field_ self) (value_ self) (s_ self) true (completed_ self) f in
  Ret (if negb (allow_body_ self) then 1 else 0, self).

(** [src/src/http/HttpParser.cpp:88-96] Parser::message_begin_cb *)
Definition message_begin_cb : http_cb (U := Self) := fun self _ =>
  if completed_ self then Ret (1, self) else Ret (0, reset self).

(** [src/src/http/HttpParser.cpp:99-104] Parser::message_complete_cb *)
Definition message_complete_cb : http_cb (U := Self) := fun self _ =>
  Ret (0, mkSelf (allow_body_ self) (field_ self) (value_ self) (s_ self) (header_completed_ self) true (req_ self)).

(** [src/src/http/HttpParser.cpp:108-115] Parser::Parser, settings *)
Definition settings_ : http_parser_settings (U := Self) :=
  mkSettings (Some message_begin_cb)
    (fun d => match d with
              | D_url => Some url_cb | D_header_field => Some header_field_cb | D_header_value => Some header_value_cb
              | D_body => Some body_cb | D_status => None
              end)
    (Some header_complete_cb) (Some message_complete_cb) None None.

Record Parser := mkHttpParser { parser_ : http_parser; self_ : Self }.

(** [src/src/http/HttpParser.cpp:106-120] Parser::Parser *)
Definition new_parser (is_request allow_body : bool) : Parser :=
  mkHttpParser (http_parser_init (if is_request then HTTP_REQUEST else HTTP_RESPONSE))
    (reset (mkSelf allow_body [] [] INIT false false empty_frame)).

(** [src/src/http/HttpParser.cpp:122-129] Parser::execute *)
Definition execute (buf : list Z) (d : Parser) : res (nat * Parser) :=
  let! r := http_parser_execute settings_ buf (parser_ d) (self_ d) in
  Ret (fst (fst r), mkHttpParser (snd (fst r)) (snd r)).

(** [src/include/futures/http/HttpParser.h:90-101] Parser::moveResult *)
Definition moveResult (d : Parser) : HttpFrame * Parser :=
  let s := self_ d in
  let f := req_ s in
  let s := if completed_ s then mkSelf (allow_body_ s) (field_ s) (value_ s) (s_ s) false false f else s in
  let newf := if completed_ (self_ d)
              then mkFrame (err f) (frame_http_errno f) (frame_method f) (frame_content_length f) (path f) (headers f) true (body f)
              else f in
  (newf, mkHttpParser (parser_ d) (upd_req empty_frame s)).

(** ** Decoders *)

(** [!buf.empty()]: some buffer of the queue has bytes. *)
Definition no_bytes (bufs : list (list Z)) : bool := forallb (fun b => match b with [] => true | _ => false end) bufs.

(** The buffers of the queue, each popped and parsed. *)
(** [src/src/http/HttpCodec.cpp:15-23] HttpV1RequestDecoder::decode, loop *)
Fixpoint request_loop (bufs : list (list Z)) (d : Parser) : res unit * Parser * list (list Z) :=
  match bufs with
  | [] => (Ret tt, d, [])
  | front :: bufs =>
      if no_bytes (front :: bufs) then (Ret tt, d, front :: bufs) else
      match execute front d with
      | Ret (nparsed, d) =>
          if upgrade (parser_ d) then (Throw (IOError "upgrade unsupported"), d, bufs) else
          if decide (nparsed = length front) then request_loop bufs d else (Throw (IOError "invalid http request"), d, bufs)
      | Throw e => (Throw e, d, bufs)
      | Abort a => (Abort a, d, bufs)
      | OutOfFuel => (OutOfFuel, d, bufs)
      end
  end.

(** [src/src/http/HttpCodec.cpp:38-43] HttpV1ResponseDecoder::decode, loop *)
Fixpoint response_loop (bufs : list (list Z)) (d : Parser) : res unit * Parser * list (list Z) :=
  match bufs with
  | [] => (Ret tt, d, [])
  | front :: bufs =>
      if no_bytes (front :: bufs) then (Ret tt, d, front :: bufs) else
      match execute front d with
      | Ret (nparsed, d) =>
          if decide (nparsed = length front) then response_loop bufs d else (Throw (IOError "invalid http response"), d, bufs)
      | Throw e => (Throw e, d, bufs)
      | Abort a => (Abort a, d, bufs)
      | OutOfFuel => (OutOfFuel, d, bufs)
      end
  end.

Definition poll_result (r : res unit * Parser * list (list Z)) : res (option HttpFrame) * Parser * list (list Z) :=
  match r with
  | (Ret _, d, bufs) =>
      if completed_ (self_ d) then let '(f, d) := moveResult d in (Ret (Some f), d, bufs) else (Ret None, d, bufs)
  | (Throw e, d, bufs) => (Throw e, d, bufs)
  | (Abort a, d, bufs) => (Abort a, d, bufs)
  | (OutOfFuel, d, bufs) => (OutOfFuel, d, bufs)
  end.

(** [src/src/http/HttpCodec.cpp:12-29] HttpV1RequestDecoder::decode *)
Definition request_decode (d : Parser) (buf : list (list Z)) : res (option HttpFrame) * Parser * list (list Z) :=
  poll_result (request_loop buf d).
(** [src/src/http/HttpCodec.cpp:35-49] HttpV1ResponseDecoder::decode *)
Definition response_decode (d : Parser) (buf : list (list Z)) : res (option HttpFrame) * Parser * list (list Z) :=
  poll_result (response_loop buf d).

(** [src/src/http/HttpCodec.cpp:8-10] HttpV1RequestDecoder::HttpV1RequestDecoder *)
Definition new_request_decoder : Parser := new_parser true true.
(** [src/src/http/HttpCodec.cpp:31-33] HttpV1ResponseDecoder::HttpV1ResponseDecoder *)
Definition new_response_decoder : Parser := new_parser false true.
