(* ===== verification/HttpEncode.v ===== *)
(** * HTTP encoders

    Models the encoders of [src/src/http/HttpCodec.cpp] and the status lines of
    [src/include/futures/http/http_parser.h].  They print through a stream over
    the output queue ([StreamAdapter]) and append the body, which is a queue of
    its own.  The order in which an [unordered_map] is traversed is an argument:
    some list of its entries. *)

From S2P Require Import Prelude IOBufQueue StreamAdapter HttpSyntax HttpMessage.
Local Open Scope cpp_scope.
Local Open Scope Z_scope.

(** ** Numbers *)

(** The decimal digits of [n], after which [acc] follows. *)
Fixpoint decimal_loop (fuel : nat) (n : Z) (acc : list Z) : list Z :=
  match fuel with
  | O => acc
  | S fuel =>
      let acc := 48 + n mod 10 :: acc in
      if n <? 10 then acc else decimal_loop fuel (n / 10) acc
  end.
(** [<<] of an unsigned 64-bit number, which has at most 20 digits, in the
    classic locale. *)
Definition decimal (n : Z) : list Z := decimal_loop 20 n [].

(** ** Status lines *)

(** [src/include/futures/http/http_parser.h:94-153] HTTP_STATUS_MAP *)
Definition HTTP_STATUS_MAP : list (Z * string) :=
  [(100, "Continue"); (101, "Switching Protocols"); (102, "Processing"); (200, "OK");
   (201, "Created"); (202, "Accepted"); (203, "Non-Authoritative Information"); (204, "No Content");
   (205, "Reset Content"); (206, "Partial Content"); (207, "Multi-Status"); (208, "Already Reported");
   (226, "IM Used"); (300, "Multiple Choices"); (301, "Moved Permanently"); (302, "Found");
   (303, "See Other"); (304, "Not Modified"); (305, "Use Proxy"); (307, "Temporary Redirect");
   (308, "Permanent Redirect"); (400, "Bad Request"); (401, "Unauthorized"); (402, "Payment Required");
   (403, "Forbidden"); (404, "Not Found"); (405, "Method Not Allowed"); (406, "Not Acceptable");
   (407, "Proxy Authentication Required"); (408, "Request Timeout"); (409, "Conflict"); (410, "Gone");
   (411, "Length Required"); (412, "Precondition Failed"); (413, "Payload Too Large"); (414, "URI Too Long");
   (415, "Unsupported Media Type"); (416, "Range Not Satisfiable"); (417, "Expectation Failed"); (421, "Misdirected Request");
   (422, "Unprocessable Entity"); (423, "Locked"); (424, "Failed Dependency"); (426, "Upgrade Required");
   (428, "Precondition Required"); (429, "Too Many Requests"); (431, "Request Header Fields Too Large"); (451, "Unavailable For Legal Reasons");
   (500, "Internal Server Error"); (501, "Not Implemented"); (502, "Bad Gateway"); (503, "Service Unavailable");
   (504, "Gateway Timeout"); (505, "HTTP Version Not Supported"); (506, "Variant Also Negotiates"); (507, "Insufficient Storage");
   (508, "Loop Detected"); (510, "Not Extended"); (511, "Network Authentication Required")]%string.

(** The table is static, so that the entries that are not set are null. *)
(** [src/src/http/HttpCodec.cpp:53-72] ErrorStatusStrings, getHttpStatusLine *)
Definition getHttpStatusLine (http_errno : Z) : option string :=
  if (http_errno <? 100) || (511 <? http_errno) then None
  else snd <$> List.find (fun e => fst e =? http_errno) HTTP_STATUS_MAP.

(** ** Encoders *)

Definition CRLF : list Z := [CR; LF].

(** [e.first << ": " << e.second << "\r\n"] *)
Definition header_line (e : list Z * list Z) : list Z := fst e ++ [COLON; SP] ++ snd e ++ CRLF.
Definition header_lines (hs : list (list Z * list Z)) : list Z := concat (header_line <$> hs).

Definition length_header (body : IOBufQueue) : list Z :=
  header_line (bytes "Content-Length", decimal (chainLength_ body)).

(** [hs] are the entries of [headers out], [body] is its body. *)
(** [src/src/http/HttpCodec.cpp:83-92] HttpV1ResponseEncoder::encode *)
Definition response_head (status : string) (hs : list (list Z * list Z)) (out : HttpFrame) (body : IOBufQueue) : list Z :=
  bytes "HTTP/1.1 " ++ decimal (frame_http_errno out) ++ [SP] ++ bytes status ++ CRLF ++
  header_lines hs ++
  (if negb (IOBufQueue.empty body) then length_header body else []) ++
  (if decide (headers out !! bytes "Connection" = None) then bytes "Connection: keep-alive" ++ CRLF else []) ++
  CRLF.

(** [src/include/futures/http/HttpCodec.h:38-42] EncoderLengthMode *)
Inductive EncoderLengthMode := Unknown | ContentLength | Chunked.

(** [src/src/http/HttpCodec.cpp:105-120] HttpV1RequestEncoder::encode *)
Definition request_head (mode_ : EncoderLengthMode) (hs : list (list Z * list Z)) (out : HttpFrame) (body : IOBufQueue) : list Z :=
  bytes (method_string (frame_method out)) ++ [SP] ++ path out ++ bytes " HTTP/1.1" ++ CRLF ++
  header_lines hs ++
  match mode_ with
  | ContentLength =>
      if negb (IOBufQueue.empty body) && bool_decide (headers out !! bytes "Content-Length" = None) then length_header body else []
  | _ => []
  end ++
  CRLF.

Section Encoders.
Context (create_room : nat -> nat).

(** Print [l], flush, and append the body. *)
Definition emit (l : list Z) (body buf : IOBufQueue) : res IOBufQueue :=
  let! sb := sputn create_room l (open buf) in
  let! sb := sync sb in
  Ret (fst (append_queue body false (q_ sb))).

(** [src/src/http/HttpCodec.cpp:74-96] HttpV1ResponseEncoder::encode *)
Definition response_encode (hs : list (list Z * list Z)) (out : HttpFrame) (body buf : IOBufQueue) : res IOBufQueue :=
  match getHttpStatusLine (frame_http_errno out) with
  | None => Throw (IOError "invalid http response code")
  | Some error_line => emit (response_head error_line hs out body) body buf
  end.

(** [src/src/http/HttpCodec.cpp:98-124] HttpV1RequestEncoder::encode *)
Definition request_encode (mode_ : EncoderLengthMode) (hs : list (list Z * list Z)) (out : HttpFrame) (body buf : IOBufQueue) : res IOBufQueue :=
  emit (request_head mode_ hs out body) body buf.

(** ** What is in the queue *)

Context (Hroom : forall n, (n <= create_room n)%nat).

Lemma emit_ok l body buf : queue_ok buf -> queue_ok body ->
  exists buf', emit l body buf = Ret buf' /\ queue_ok buf' /\ contents buf' = contents buf ++ l ++ contents body.
Proof.
  intros Hq Hb. destruct (open_ok buf Hq) as [Ho Eo]. destruct (sputn_ok create_room Hroom l (open buf) Ho) as (s1 & E1 & H1 & W1).
  destruct (sync_ok s1 H1) as (s2 & E2 & H2 & Hp & W2). unfold emit. rewrite E1. cbn [res_bind]. rewrite E2. cbn [res_bind].
  eexists. split; [done|]. assert (W : contents (q_ s2) = contents buf ++ l).
  { unfold written in *. rewrite Hp, app_nil_r in W2. by rewrite W2, W1, Eo. }
  rewrite app_assoc, <- W. pose proof (po_queue _ H2) as Hq2. unfold append_queue, queue_ok, contents in *.
  destruct (chain body) as [|b c]; cbn [fst chain chainLength_]; [by rewrite app_nil_r|]. rewrite appendToChain_bytes, length_app. split; [lia|done].
Qed.
End Encoders.
