(* ===== verification/HttpSafe.v ===== *)
(** * HTTP parser: safety

    [http_parser_execute] returns for every input: no assertion fails, no table
    or string is read out of bounds, no loop runs forever, and every field of
    the parser keeps to its width.  The invariant that shows it says what each
    state of the automaton relies on; the callbacks are known through the
    interface [Handler]. *)

From S2P Require Import Prelude HttpSyntax HttpExec.
Local Open Scope cpp_scope.
Local Open Scope Z_scope.

(** ** What the parser promises its callbacks

    [ready true u]: the user can take a piece of a header value, because it has
    been given a piece of a header field.  A body is never empty. *)
Definition returns {A B} (r : res (A * B)) (P : B -> Prop) : Prop := exists a b, r = Ret (a, b) /\ P b.

Class Handler {U : Type} (settings : http_parser_settings (U := U)) := {
  ready : bool -> U -> Prop;
  ready_weaken u : ready true u -> ready false u;
  begin_ready f u q : on_message_begin settings = Some f -> ready false u -> returns (f u q) (ready false);
  notify_ready f u q b :
    (on_headers_complete settings = Some f \/ on_message_complete settings = Some f \/
     on_chunk_header settings = Some f \/ on_chunk_complete settings = Some f) ->
    ready b u -> returns (f u q) (ready b);
  field_ready f u q a : on_data settings D_header_field = Some f -> ready false u -> returns (f u q a) (ready true);
  no_field u : on_data settings D_header_field = None -> ready false u -> ready true u;
  value_ready f u q a : on_data settings D_header_value = Some f -> ready true u -> returns (f u q a) (ready true);
  body_ready f u q a : on_data settings D_body = Some f -> a <> [] -> ready false u -> returns (f u q a) (ready false);
  other_ready d f u q a : d = D_url \/ d = D_status -> on_data settings d = Some f -> ready false u -> returns (f u q a) (ready false) }.

(** ** The invariant of the parser *)

(** The fields fit the widths of the struct. *)
Record types_ok (q : http_parser) : Prop := {
  t_flags : 0 <= flags q < 2 ^ 8;
  t_index : (index q < 128)%nat;
  t_nread : 0 <= nread q < 2 ^ 32;
  t_length : 0 <= content_length q < 2 ^ 64;
  t_major : 0 <= http_major q < 2 ^ 16;
  t_minor : 0 <= http_minor q < 2 ^ 16;
  t_status : 0 <= status_code q < 2 ^ 16 }.

(** The header states that occur while a field is read. *)
Definition field_state (h : header_states) : bool :=
  match h with
  | h_general | h_C | h_CO | h_CON | h_matching_connection | h_matching_proxy_connection | h_matching_content_length
  | h_matching_transfer_encoding | h_matching_upgrade | h_connection | h_content_length | h_transfer_encoding | h_upgrade => true
  | _ => false
  end.
Definition value_state (h : header_states) : bool :=
  match h with h_connection | h_transfer_encoding => false | _ => true end.

Definition some_length (q : http_parser) : Prop := content_length q <> 0 /\ content_length q <> ULLONG_MAX.

(** What the code of each state relies on. *)
Definition state_ok (q : http_parser) : Prop :=
  match state_ q with
  | s_req_method => (index q <= String.length (method_string (method q)))%nat
  | s_header_field => field_state (header_state q) = true
  | s_header_value => value_state (header_state q) = true
  | s_body_identity => some_length q
  | s_chunk_size_start | s_chunk_data_done => has_flag F_CHUNKED q = true
  | s_chunk_size | s_chunk_parameters | s_chunk_size_almost_done =>
      has_flag F_CHUNKED q = true /\ content_length q <> ULLONG_MAX
  | s_chunk_data => has_flag F_CHUNKED q = true /\ some_length q
  | s_chunk_data_almost_done => has_flag F_CHUNKED q = true /\ content_length q = 0
  | _ => True
  end.

Record live (q : http_parser) : Prop := {
  lv_types : types_ok q;
  lv_errno : http_errno q = HPE_OK;
  lv_state : state_ok q;
  lv_nread : nread q <= HTTP_MAX_HEADER_SIZE;
  lv_major : http_major q <= 999;
  lv_minor : http_minor q <= 999;
  lv_status : status_code q <= 999 }.

(** States in which a header value may be delivered. *)
Definition in_value (s : state) : bool :=
  match s with
  | s_header_value_discard_ws | s_header_value_discard_ws_almost_done | s_header_value_discard_lws | s_header_value_start
  | s_header_value | s_header_value_lws | s_header_almost_done => true
  | _ => false
  end.

(** The string a state is in the middle of. *)
Definition allowed (s : state) : option datum :=
  match s with
  | s_header_field => Some D_header_field
  | s_header_value => Some D_header_value
  | s_req_path | s_req_schema | s_req_schema_slash | s_req_schema_slash_slash | s_req_server_start | s_req_server
  | s_req_server_with_at | s_req_query_string_start | s_req_query_string | s_req_fragment_start | s_req_fragment => Some D_url
  | s_res_status => Some D_status
  | s_body_identity | s_body_identity_eof | s_chunk_data | s_chunk_data_almost_done => Some D_body
  | _ => None
  end.

Section Safe.
Context {U : Type} (settings : http_parser_settings (U := U)) {HH : Handler settings}.

(** Between two calls.  A parser in an error state is not run again. *)
Definition user_ok (s : state) (u : U) : Prop := ready (in_value s) u.
Definition parser_ok (q : http_parser) (u : U) : Prop :=
  types_ok q /\ (http_errno q = HPE_OK -> live q /\ user_ok (state_ q) u /\ (state_ q = s_chunk_size_start -> nread q = 0)).

Context (data : list Z).
Abbreviation locals := (locals (U := U)).

(** Exactly the marks of the string in the middle of which the parser is are
    set; a body may not have started in this call. *)
Definition marks_ok (l : locals) : Prop :=
  forall d, match mark d l with
            | Some m => allowed (CURRENT_STATE l) = Some d /\ (m <= p l)%nat
            | None => allowed (CURRENT_STATE l) = Some d -> d = D_body
            end.

Definition good (l : locals) : Prop := live (par l) /\ user_ok (CURRENT_STATE l) (usr l) /\ marks_ok l.

(** The call returns [n]. *)
Definition ended (n : nat) (l : locals) : Prop :=
  (n <= length data)%nat /\ parser_ok (par l) (usr l) /\
  (n = length data \/ http_errno (par l) <> HPE_OK \/ upgrade (par l) = true).

(** How many jumps to [reexecute] can follow. *)
Definition rank (s : state) : nat :=
  match s with
  | s_header_value_lws | s_header_value_discard_lws => 4
  | s_header_field_start => 3
  | s_headers_almost_done | s_body_identity => 2
  | s_headers_done | s_message_done | s_start_req_or_res | s_header_value => 1
  | _ => 0
  end%nat.

Definition chunk_nread (n : Z) (l : locals) : Prop := CURRENT_STATE l = s_chunk_size_start -> nread (par l) = n.

(** What a turn that started at [l0] may end with. *)
Definition flow_ok (l0 : locals) (f : flow (U := U)) : Prop :=
  match f with
  | Break l => good l /\ (p l0 <= p l < length data)%nat /\ chunk_nread 0 l
  | Reexecute ch l =>
      good l /\ (p l0 <= p l < length data)%nat /\ is_byte ch /\ (rank (CURRENT_STATE l) < rank (CURRENT_STATE l0))%nat /\
      allowed (CURRENT_STATE l) = None /\ CURRENT_STATE l <> s_chunk_size_start
  | Error l => types_ok (par l) /\ http_errno (par l) <> HPE_OK /\ (p l <= length data)%nat
  | Return n l => ended n l
  end.

Definition safe (l0 : locals) (r : res (flow (U := U))) : Prop := exists f, r = Ret f /\ flow_ok l0 f.

(** ** Updates of the parser *)
#[local] Arguments u32 : simpl never.
#[local] Arguments u16 : simpl never.
#[local] Arguments u64 : simpl never.
#[local] Arguments Z.lor : simpl never.
#[local] Arguments Z.land : simpl never.

Lemma lor_byte a b : 0 <= a < 2 ^ 8 -> 0 <= b < 2 ^ 8 -> 0 <= Z.lor a b < 2 ^ 8.
Proof.
  intros Ha Hb. split; [apply Z.lor_nonneg; lia|]. destruct (decide (Z.lor a b = 0)) as [->|Hn]; [lia|].
  assert (H0 : 0 <= Z.lor a b) by (apply Z.lor_nonneg; lia).
  apply Z.log2_lt_pow2; [lia|]. rewrite Z.log2_lor by lia.
  assert (H : forall x, 0 <= x < 2 ^ 8 -> Z.log2 x < 8).
  { intros x Hx. destruct (decide (x = 0)) as [->|]; [done|]. apply Z.log2_lt_pow2; lia. }
  apply Z.max_lub_lt; by apply H.
Qed.

Lemma has_add f g q : has_flag f (add_flag g q) = has_flag f q || negb (Z.land g f =? 0).
Proof.
  unfold has_flag, add_flag, set_flags. cbn. rewrite Z.land_lor_distr_l.
  destruct (Z.eqb_spec (Z.land (flags q) f) 0) as [->|Hn]; [by rewrite Z.lor_0_l|]. cbn.
  apply negb_true_iff, Z.eqb_neq. intros [? ?]%Z.lor_eq_0_iff. done.
Qed.

(** Close goals about a parser whose fields are those of another. *)
Ltac types := lazymatch goal with
  | H : types_ok ?q |- types_ok _ => destruct H; constructor; cbn in *; (done || lia || (apply lor_byte; done || lia))
  end.

Lemma types_errno e q : types_ok q -> types_ok (SET_ERRNO e q).
Proof. intros H. types. Qed.
Lemma types_add_flag f q : 0 <= f < 2 ^ 8 -> types_ok q -> types_ok (add_flag f q).
Proof. intros Hf [H1 H2 H3 H4 H5 H6 H7]. constructor; cbn; try done. by apply lor_byte. Qed.
Lemma types_incr_index q : types_ok q -> types_ok (incr_index q).
Proof. intros H. destruct H. constructor; cbn -[Nat.modulo]; try done. by apply Nat.mod_upper_bound. Qed.
Lemma types_nread v q : types_ok q -> types_ok (set_nread (u32 v) q).
Proof. intros H. destruct H. constructor; cbn; try done. apply Z.mod_pos_bound. lia. Qed.

(** ** Ways to end a turn *)
Lemma safe_fail e l0 l : e <> HPE_OK -> types_ok (par l) -> (p l <= length data)%nat -> safe l0 (fail e l).
Proof. intros He Ht Hp. eexists. split; [done|]. cbn. split; [by apply types_errno|]. by split. Qed.

Lemma safe_break l0 l : good l -> (p l0 <= p l < length data)%nat -> chunk_nread 0 l -> safe l0 (break l).
Proof. intros. eexists. by split. Qed.

Lemma safe_strict b l0 l k : types_ok (par l) -> (p l <= length data)%nat -> (b = false -> safe l0 k) -> safe l0 (STRICT_CHECK b l k).
Proof. intros Ht Hp Hk. unfold STRICT_CHECK. destruct b; [by apply safe_fail|by apply Hk]. Qed.

(** A callback that fails ends the call. *)
Lemma ended_errno e n l : e <> HPE_OK -> types_ok (par l) -> (n <= length data)%nat -> ended n (upd (SET_ERRNO e) l).
Proof. intros He Ht Hn. split; [done|]. split; [|by right; left]. split; [by apply types_errno|]. by intros ?. Qed.

Lemma safe_notify cb e er l0 l k b :
  (forall f u q, cb = Some f -> ready b u -> returns (f u q) (ready b)) ->
  http_errno (par l) = HPE_OK -> types_ok (par l) -> e <> HPE_OK -> (er <= length data)%nat -> ready b (usr l) ->
  (forall u, ready b u -> safe l0 (k (set_usr u l))) ->
  safe l0 (CALLBACK_NOTIFY_ cb e er l k).
Proof.
  intros Hcb Ho Ht He Her Hu Hk. unfold CALLBACK_NOTIFY_. rewrite decide_True by done. destruct cb as [f|].
  - destruct (Hcb f (usr l) (par l) eq_refl Hu) as (a & u & -> & Hu'). cbn. case_match; [by apply Hk|].
    eexists. split; [done|]. by apply ended_errno.
  - specialize (Hk (usr l) Hu). by destruct l.
Qed.

Definition after (d : datum) (b : bool) : bool := match d with D_header_field | D_header_value => true | _ => b end.
Definition before (d : datum) : bool := match d with D_header_value => true | _ => false end.

Lemma data_ready d f u q a : on_data settings d = Some f -> (d = D_body -> a <> []) -> ready (before d) u ->
  returns (f u q a) (ready (after d false)).
Proof.
  intros Hf Ha Hu. destruct d; cbn in *.
  - by eapply field_ready.
  - by eapply value_ready.
  - eapply (other_ready D_url); eauto.
  - eapply body_ready; eauto.
  - eapply (other_ready D_status); eauto.
Qed.

Lemma slice_nonempty m stop : (m < stop <= length data)%nat -> take (stop - m) (drop m data) <> [].
Proof.
  intros H E. apply (f_equal length) in E. rewrite length_take, length_drop in E. cbn in E. lia.
Qed.

(** Delivering a piece of a string. *)
Lemma safe_data d stop er l0 l k :
  http_errno (par l) = HPE_OK -> types_ok (par l) -> (er <= length data)%nat -> ready (before d) (usr l) ->
  (d = D_body -> forall m, mark d l = Some m -> (m < stop <= length data)%nat) ->
  (mark d l = None -> safe l0 (k l)) ->
  (forall m u, mark d l = Some m -> ready (after d false) u -> safe l0 (k (set_mark d None (set_usr u l)))) ->
  safe l0 (CALLBACK_DATA_ settings data d stop er l k).
Proof.
  intros Ho Ht Her Hu Hb Hn Hk. unfold CALLBACK_DATA_. rewrite decide_True by done.
  destruct (mark d l) as [m|] eqn:Em; [|by apply Hn]. destruct (on_data settings d) as [f|] eqn:Ef.
  - destruct (data_ready d f (usr l) (par l) (take (stop - m) (drop m data)) Ef) as (a & u & -> & Hu'); [|done|].
    { intros ->. by apply slice_nonempty, Hb. }
    cbn. case_match; [by eapply Hk|]. eexists. split; [done|]. apply ended_errno; [by destruct d|done|done].
  - assert (E : set_mark d None l = set_mark d None (set_usr (usr l) l)) by (by destruct l, d). rewrite E. eapply Hk; [done|].
    destruct d; cbn in *; try done. by apply no_field.
Qed.

Lemma safe_count v l0 l k : live (par l) -> (p l <= length data)%nat ->
  (forall n, 0 <= n <= HTTP_MAX_HEADER_SIZE -> safe l0 (k (upd (set_nread n) l))) ->
  safe l0 (count v l k).
Proof.
  intros Hl Hp Hk. unfold count, COUNT_HEADER_SIZE.
  assert (Ht : types_ok (set_nread (u32 (nread (par l) + Z.of_nat v)) (par l))) by apply types_nread, Hl.
  case_match eqn:E.
  - eexists. split; [done|]. cbn. split; [by apply types_errno|]. by split.
  - apply (Hk (u32 (nread (par l) + Z.of_nat v))). cbn in *. apply Z.ltb_ge in E. split; [|done]. apply Z.mod_pos_bound. lia.
Qed.

(** ** States outside of the strings *)
Definition no_marks (l : locals) : Prop := forall d, mark d l = None.

Lemma no_marks_upd f l : no_marks l -> no_marks (upd f l).
Proof. intros H []; [apply (H D_header_field)|apply (H D_header_value)|apply (H D_url)|apply (H D_body)|apply (H D_status)]. Qed.
Lemma no_marks_usr u l : no_marks l -> no_marks (set_usr u l).
Proof. intros H []; [apply (H D_header_field)|apply (H D_header_value)|apply (H D_url)|apply (H D_body)|apply (H D_status)]. Qed.
Lemma no_marks_p n l : no_marks l -> no_marks (set_p n l).
Proof. intros H []; [apply (H D_header_field)|apply (H D_header_value)|apply (H D_url)|apply (H D_body)|apply (H D_status)]. Qed.

Lemma good_no_marks l : good l -> allowed (CURRENT_STATE l) = None -> no_marks l.
Proof. intros (_ & _ & H) E d. specialize (H d). destruct (mark d l); [destruct H; congruence|done]. Qed.

Lemma good_plain l : live (par l) -> no_marks l -> allowed (CURRENT_STATE l) = None -> ready (in_value (CURRENT_STATE l)) (usr l) -> good l.
Proof. intros Hl Hn Ha Hu. split; [done|]. split; [done|]. intros d. rewrite (Hn d). congruence. Qed.

Lemma ready_false u b : ready b u -> ready false u.
Proof. destruct b; [apply ready_weaken|done]. Qed.
End Safe.

#[export] Hint Resolve no_marks_upd no_marks_usr no_marks_p : cpp.
#[export] Hint Extern 1 (ready false _) => (eapply ready_false; eassumption) : cpp.

(** Close goals about a live parser whose fields are those of another. *)
Ltac types_of H := destruct H; constructor; cbn -[Nat.modulo u16 u32 u64 Z.lor Z.pow] in *; (done || lia).
Ltac live_of H :=
  let T := fresh "T" in
  pose proof (lv_types _ H) as T; destruct H; constructor;
  [constructor; destruct T|..]; cbn -[Nat.modulo u16 u32 u64 Z.lor Z.land Z.pow] in *; try done; try lia.

Section Simple.
Context {U : Type} (settings : http_parser_settings (U := U)) {HH : Handler settings} (data : list Z).
Abbreviation locals := (locals (U := U)).
Abbreviation safe := (safe settings data).
Abbreviation good := (good settings).

(** A turn at a byte of the input. *)
Record at_byte (ch : Z) (l : locals) : Prop := {
  ab_good : good l;
  ab_p : (p l < length data)%nat;
  ab_ch : is_byte ch;
  ab_body m : body_mark l = Some m -> (m < p l)%nat }.

Ltac start :=
  let G := fresh "G" in let Hp := fresh "Hp" in let Hch := fresh "Hch" in
  let Hb := fresh "Hb" in
  intros [G Hp Hch Hb]; pose proof G as (Hl & Hu & Hm); intros Es.

(** Only the parser changes, outside of the strings. *)
Lemma safe_upd f l : good l -> (p l < length data)%nat -> allowed (CURRENT_STATE l) = None -> live (f (par l)) ->
  allowed (state_ (f (par l))) = None -> (in_value (state_ (f (par l))) = true -> ready true (usr l)) ->
  (state_ (f (par l)) = s_chunk_size_start -> nread (f (par l)) = 0) -> safe l (break (upd f l)).
Proof.
  intros G Hp Ha Hl Hs Hv Hc. pose proof G as (_ & Hu & _). apply safe_break; [|cbn; lia|exact Hc].
  apply good_plain; [done|apply no_marks_upd; by apply (good_no_marks settings)|done|].
  unfold CURRENT_STATE. cbn. destruct (in_value (state_ (f (par l)))); [by apply Hv|]. unfold user_ok in Hu. by eapply ready_false.
Qed.

(** [go f] for a turn that ends with the parser updated by [f]. *)
Ltac go f :=
  apply (safe_upd f); [assumption|assumption|match goal with E : CURRENT_STATE _ = _ |- _ => by rewrite E end| |cbn; (done || congruence)..].
Ltac stay := apply safe_break; [assumption|lia|unfold chunk_nread; congruence].
Ltac failed := apply safe_fail; [done|cbn|cbn; lia].

Lemma dead_safe ch l : at_byte ch l -> CURRENT_STATE l = s_dead -> safe l (do_dead ch l).
Proof. start. unfold do_dead. case_match; [stay|failed]. apply Hl. Qed.

Lemma user_false l : good l -> ready false (usr l).
Proof. intros (_ & Hu & _). unfold user_ok in Hu. by eapply ready_false. Qed.
#[local] Hint Resolve user_false : cpp.

(** A notification, then the next byte. *)
Lemma safe_notify_break cb e f l : good l -> (p l < length data)%nat -> allowed (CURRENT_STATE l) = None -> live (f (par l)) ->
  allowed (state_ (f (par l))) = None -> in_value (state_ (f (par l))) = false ->
  (state_ (f (par l)) = s_chunk_size_start -> nread (f (par l)) = 0) -> e <> HPE_OK ->
  (forall g u q, cb = Some g -> ready false u -> returns (g u q) (ready false)) ->
  safe l (CALLBACK_NOTIFY cb e (upd f l) break).
Proof.
  intros G Hp Ha Hl Hs Hv Hc He Hcb.
  assert (Hn : no_marks l) by (by apply (good_no_marks settings)).
  apply (safe_notify settings data _ _ _ _ _ _ false); [done|apply Hl|apply Hl|done|cbn; lia|cbn; auto with cpp|].
  intros u Hu. apply safe_break; [|cbn; lia|exact Hc]. apply good_plain; [done|auto with cpp|done|].
  unfold CURRENT_STATE. cbn. by rewrite Hv.
Qed.

Lemma begin_false g u q : on_message_begin settings = Some g -> ready false u -> returns (g u q) (ready false).
Proof. apply begin_ready. Qed.
#[local] Hint Resolve begin_false : cpp.

Ltac notify f :=
  apply (safe_notify_break _ _ f);
  [assumption|assumption|match goal with E : CURRENT_STATE _ = _ |- _ => by rewrite E end| |cbn; (done || congruence)..|auto with cpp].

(** A jump to [reexecute] after a change of the parser. *)
Lemma safe_again f ch l : good l -> (p l < length data)%nat -> is_byte ch -> allowed (CURRENT_STATE l) = None ->
  (rank (state_ (f (par l))) < rank (CURRENT_STATE l))%nat -> live (f (par l)) ->
  allowed (state_ (f (par l))) = None -> (in_value (state_ (f (par l))) = true -> ready true (usr l)) ->
  state_ (f (par l)) <> s_chunk_size_start -> safe l (Ret (Reexecute ch (upd f l))).
Proof.
  intros G Hp Hch Ha Hr Hl Hs Hv Hc. eexists. split; [done|]. cbn.
  split; [|split; [cbn; lia|done]]. apply good_plain; [done|apply no_marks_upd; by apply (good_no_marks settings)|done|].
  unfold CURRENT_STATE. cbn. destruct (in_value (state_ (f (par l)))); [by apply Hv|auto with cpp].
Qed.

Ltac again f :=
  apply (safe_again f); [assumption|assumption|done|match goal with E : CURRENT_STATE _ = _ |- _ => by rewrite E end
    |match goal with E : CURRENT_STATE _ = _ |- _ => rewrite E end; cbn; lia| |cbn; (done || congruence)..].

Lemma start_req_or_res_safe ch l : at_byte ch l -> CURRENT_STATE l = s_start_req_or_res -> safe l (do_start_req_or_res settings ch l).
Proof.
  start. unfold do_start_req_or_res. case_match; [stay|]. case_match.
  - notify (fun q => set_state s_res_or_resp_H (set_content_length ULLONG_MAX (set_flags 0 q))). by live_of Hl.
  - again (fun q => set_state s_start_req (set_type HTTP_REQUEST (set_content_length ULLONG_MAX (set_flags 0 q)))). by live_of Hl.
Qed.

Lemma res_or_resp_H_safe ch l : at_byte ch l -> CURRENT_STATE l = s_res_or_resp_H -> safe l (do_res_or_resp_H ch l).
Proof.
  start. unfold do_res_or_resp_H. case_match; [|case_match].
  - go (fun q => set_state s_res_HT (set_type HTTP_RESPONSE q)). by live_of Hl.
  - failed. apply Hl.
  - go (fun q => set_state s_req_method (set_index 2 (set_method HTTP_HEAD (set_type HTTP_REQUEST q)))). live_of Hl.
Qed.

Lemma start_res_safe ch l : at_byte ch l -> CURRENT_STATE l = s_start_res -> safe l (do_start_res settings ch l).
Proof.
  start. unfold do_start_res. case_match; [|case_match].
  - notify (fun q => set_state s_res_H (set_content_length ULLONG_MAX (set_flags 0 q))). by live_of Hl.
  - unfold CURRENT_STATE in Es. apply (safe_notify_break _ _ (fun q => set_content_length ULLONG_MAX (set_flags 0 q)));
      cbn; unfold CURRENT_STATE; rewrite ?Es; try done; auto with cpp. live_of Hl. unfold state_ok. cbn. by rewrite Es.
  - failed. apply lv_types in Hl. types_of Hl.
Qed.

Lemma digit_range ch : negb (IS_NUM ch) = false -> 0 <= ch - 48 <= 9.
Proof. unfold IS_NUM. lia. Qed.

(** A digit of a version or of a status code. *)
Lemma digit16_safe get put e ch l : good l -> (p l < length data)%nat -> allowed (CURRENT_STATE l) = None ->
  CURRENT_STATE l <> s_chunk_size_start -> e <> HPE_OK -> negb (IS_NUM ch) = false -> 0 <= get (par l) <= 999 ->
  (forall v, get (put v (par l)) = v) -> (forall v, state_ (put v (par l)) = state_ (par l)) ->
  (forall v, 0 <= v <= 999 -> live (put v (par l))) -> (forall v, 0 <= v < 2 ^ 16 -> types_ok (put v (par l))) ->
  in_value (CURRENT_STATE l) = false ->
  safe l (digit16 get put e ch l).
Proof.
  intros G Hp Ha Hc He Hd%digit_range Hg Hgp Hst Hlv Hty Hv. unfold digit16. cbn zeta.
  set (v := u16 (u16 (get (par l) * 10) + (ch - 48))).
  assert (Ev : v = get (par l) * 10 + (ch - 48)) by (unfold v, u16; rewrite (Z.mod_small (_ * 10)), Z.mod_small; lia).
  cbn [par upd set_par]. rewrite Hgp. case_match eqn:E.
  - apply safe_fail; [done|apply Hty; lia|cbn; lia].
  - apply Z.ltb_ge in E. apply (safe_upd (fun q => put v q)); cbn beta; rewrite ?Hst; try done; [apply Hlv; lia|].
    unfold CURRENT_STATE in Hv. congruence.
Qed.

Ltac strict := apply safe_strict; [apply lv_types; assumption|lia|intros _].
Ltac state_eq := unfold CURRENT_STATE in *; match goal with E : state_ _ = _ |- _ => rewrite ?E in * end.
Ltac digits H :=
  apply digit16_safe;
  [assumption|assumption|match goal with E : CURRENT_STATE _ = _ |- _ => by rewrite E end
  |congruence|done|done|destruct (lv_types _ H), H; lia|done|done
  |intros v Hv; live_of H; unfold state_ok in *; cbn in *; by state_eq
  |intros v Hv; apply lv_types in H; types_of H
  |match goal with E : CURRENT_STATE _ = _ |- _ => by rewrite E end].

(** *** Strings *)
Definition others_none (d : datum) (l : locals) : Prop := forall d', d' <> d -> mark d' l = None.

Lemma good_others d l : good l -> allowed (CURRENT_STATE l) = Some d -> others_none d l.
Proof. intros (_ & _ & H) E d' Hd. specialize (H d'). destruct (mark d' l); [|done]. destruct H as [H _]. congruence. Qed.

Lemma good_string d l : live (par l) -> others_none d l -> allowed (CURRENT_STATE l) = Some d ->
  (d <> D_body -> is_Some (mark d l)) -> (forall m, mark d l = Some m -> (m <= p l)%nat) ->
  ready (in_value (CURRENT_STATE l)) (usr l) -> good l.
Proof.
  intros Hl Ho Ha Hs Hm Hu. split; [done|]. split; [done|]. intros d'. destruct (decide (d' = d)) as [->|Hd].
  - destruct (mark d l) as [m|] eqn:E; [by split; [|apply Hm]|]. intros _. destruct (decide (d = D_body)) as [|Hn]; [done|].
    by destruct (Hs Hn).
  - rewrite (Ho d' Hd). congruence.
Qed.

Lemma mark_set d (l : locals) m : mark d (set_mark d m l) = m.
Proof. by destruct d. Qed.
Lemma mark_set_ne d d' (l : locals) m : d' <> d -> mark d' (set_mark d m l) = mark d' l.
Proof. by destruct d, d'. Qed.
Lemma mark_upd d f (l : locals) : mark d (upd f l) = mark d l.
Proof. by destruct d. Qed.
Lemma mark_usr d u (l : locals) : mark d (set_usr u l) = mark d l.
Proof. by destruct d. Qed.
Lemma mark_p d n (l : locals) : mark d (set_p n l) = mark d l.
Proof. by destruct d. Qed.

Lemma set_mark_same d m (l : locals) : par (set_mark d m l) = par l /\ usr (set_mark d m l) = usr l /\ p (set_mark d m l) = p l.
Proof. by destruct d. Qed.
Lemma MARK_same d (l : locals) : par (MARK d l) = par l /\ usr (MARK d l) = usr l /\ p (MARK d l) = p l.
Proof. unfold MARK. destruct (mark d l); [done|apply set_mark_same]. Qed.

(** The first character of a string. *)
Lemma safe_begin_string d f l : good l -> (p l < length data)%nat -> allowed (CURRENT_STATE l) = None -> live (f (par l)) ->
  allowed (state_ (f (par l))) = Some d -> (in_value (state_ (f (par l))) = true -> ready true (usr l)) ->
  safe l (break (upd f (MARK d l))).
Proof.
  intros G Hp Ha Hl Hs Hv. assert (Hn : no_marks l) by (by apply (good_no_marks settings)).
  unfold MARK. rewrite (Hn d). destruct (set_mark_same d (Some (p l)) l) as (Ep & Eu & Epp).
  apply safe_break; [|cbn; lia|unfold chunk_nread, CURRENT_STATE; cbn; rewrite Ep; destruct (state_ (f (par l))); done].
  apply (good_string d); unfold CURRENT_STATE; cbn; rewrite ?Ep, ?Eu, ?Epp, ?mark_upd; try done.
  - intros d' Hd. rewrite mark_upd, mark_set_ne by done. apply Hn.
  - rewrite mark_set. eauto.
  - rewrite mark_set. intros m [= <-]. done.
  - destruct (in_value (state_ (f (par l)))); [by apply Hv|auto with cpp].
Qed.

(** A character in the middle of a string. *)
Lemma safe_in_string d f l : good l -> (p l < length data)%nat -> allowed (CURRENT_STATE l) = Some d -> live (f (par l)) ->
  allowed (state_ (f (par l))) = Some d -> in_value (state_ (f (par l))) = in_value (CURRENT_STATE l) ->
  safe l (break (upd f l)).
Proof.
  intros (Hl0 & Hu & Hm) Hp Ha Hl Hs Hv.
  apply safe_break; [|cbn; lia|unfold chunk_nread, CURRENT_STATE; cbn; destruct (state_ (f (par l))); done].
  split; [done|]. split; [unfold user_ok, CURRENT_STATE in *; cbn; by rewrite Hv|]. intros d'. specialize (Hm d').
  rewrite mark_upd. unfold CURRENT_STATE. cbn. rewrite Hs, <- Ha. done.
Qed.

(** The end of a string, which is delivered. *)
Lemma safe_end_string d stop er f l0 l k : good l -> (er <= length data)%nat -> allowed (CURRENT_STATE l) = Some d -> live (f (par l)) ->
  allowed (state_ (f (par l))) = None -> (in_value (state_ (f (par l))) = true -> after d false = true) ->
  (d = D_body -> forall m, mark d l = Some m -> (m < stop <= length data)%nat) ->
  (forall l', good l' -> p l' = p l -> par l' = f (par l) -> safe l0 (k l')) ->
  safe l0 (CALLBACK_DATA_ settings data d stop er (upd f l) k).
Proof.
  intros G Her Ha Hl Hs Hv Hb Hk. pose proof G as (Hl0 & Hu & Hm). pose proof (good_others d l G Ha) as Ho.
  assert (Hr : ready (before d) (usr l)).
  { unfold user_ok in Hu. destruct (CURRENT_STATE l); try done; injection Ha as <-; exact Hu. }
  assert (Hnone : forall u, no_marks (set_mark d None (set_usr u (upd f l)))).
  { intros u d'. destruct (decide (d' = d)) as [->|Hd]; [by rewrite mark_set|]. rewrite mark_set_ne, mark_usr, mark_upd by done. auto. }
  apply safe_data; cbn; try apply Hl; try done; try (rewrite mark_upd; done).
  - rewrite mark_upd. intros En. apply Hk; [|done|done]. apply good_plain; [done| |done|].
    + intros d'. rewrite mark_upd. destruct (decide (d' = d)) as [->|Hd]; auto.
    + unfold CURRENT_STATE. cbn. specialize (Hm d). rewrite En in Hm. rewrite (Hm Ha) in *. cbn in *.
      destruct (in_value (state_ (f (par l)))); [by specialize (Hv eq_refl)|auto with cpp].
  - intros m u _ Hu'. destruct (set_mark_same d None (set_usr u (upd f l))) as (Ep & Eu & Epp).
    apply Hk; [|by rewrite Epp|by rewrite Ep]. apply good_plain; unfold CURRENT_STATE; rewrite ?Ep, ?Eu; cbn; try done.
    destruct (in_value (state_ (f (par l)))); [by rewrite Hv in Hu'|by eapply ready_false].
Qed.

Definition res_version_state (s : state) : bool :=
  match s with
  | s_res_H | s_res_HT | s_res_HTT | s_res_HTTP | s_res_first_http_major | s_res_http_major | s_res_first_http_minor
  | s_res_http_minor => true
  | _ => false
  end.

Ltac err H := failed; apply lv_types; exact H.

Lemma res_version_safe ch l s : at_byte ch l -> CURRENT_STATE l = s -> res_version_state s = true -> safe l (do_res_version s ch l).
Proof.
  start. intros Hs. destruct s; try done; cbn [do_res_version]; try strict; repeat case_match; try err Hl; try digits Hl;
    try (match goal with |- context [goto ?n l] => go (set_state n); by live_of Hl end).
  - go (fun q => set_state s_res_http_major (set_http_major (ch - 48) q)). live_of Hl.
  - go (fun q => set_state s_res_http_minor (set_http_minor (ch - 48) q)). pose proof (digit_range ch H). live_of Hl.
Qed.

Ltac begins d f :=
  apply (safe_begin_string d f);
  [assumption|assumption|match goal with E : CURRENT_STATE _ = _ |- _ => by rewrite E end| |cbn; (done || congruence)..].
(** Deliver the string and go on with the next byte. *)
Ltac ends d f :=
  match goal with |- safe ?l _ => apply (safe_end_string d _ _ f l l) end;
  [assumption|cbn; lia|first [assumption|match goal with E : CURRENT_STATE _ = _ |- _ => by rewrite E end]| |cbn; (done || congruence)..
  |intros ? ? ? ?; apply safe_break; [assumption|lia|unfold chunk_nread, CURRENT_STATE;
     match goal with E : par _ = _ |- _ => rewrite E end; cbn; congruence]].

Definition res_status_state (s : state) : bool :=
  match s with
  | s_res_first_status_code | s_res_status_code | s_res_status_start | s_res_status | s_res_line_almost_done => true
  | _ => false
  end.

Lemma res_status_safe ch l s : at_byte ch l -> CURRENT_STATE l = s -> res_status_state s = true -> safe l (do_res_status settings data s ch l).
Proof.
  start. intros Hs. destruct s; try done; cbn [do_res_status]; try strict; repeat case_match; try err Hl; try digits Hl; try stay;
    try (match goal with |- context [goto ?n l] => go (set_state n); by live_of Hl end).
  - go (fun q => set_state s_res_status_code (set_status_code (ch - 48) q)). pose proof (digit_range ch H). live_of Hl.
  - begins D_status (fun q => set_index 0 (set_state s_res_status q)). live_of Hl.
  - ends D_status (set_state s_res_line_almost_done). by live_of Hl.
  - ends D_status (set_state s_header_field_start). by live_of Hl.
Qed.

(** *** Request line *)
Lemma method_length m : (1 <= String.length (method_string m) <= 11)%nat.
Proof. destruct m; cbn; lia. Qed.

Lemma start_req_safe ch l : at_byte ch l -> CURRENT_STATE l = s_start_req -> safe l (do_start_req settings ch l).
Proof.
  start. unfold do_start_req. case_match; [stay|]. case_match; [failed; apply lv_types in Hl; types_of Hl|].
  destruct (first_letter ch) as [m|]; [|failed; apply lv_types in Hl; types_of Hl].
  pose proof (method_length m).
  notify (fun q => set_state s_req_method (set_method m (set_index 1 (set_method HTTP_DELETE (set_content_length ULLONG_MAX (set_flags 0 q)))))).
  live_of Hl.
Qed.

Lemma method_branch_index m i ch m' : method_branch m i ch = Some m' -> (S i <= String.length (method_string m'))%nat.
Proof.
  intros H. destruct m; try done; destruct i as [|[|[|[|[|]]]]]; try done; cbn [method_branch] in H;
    repeat case_match; simplify_eq; cbn; lia.
Qed.

Lemma char_at_ok s i : (i <= String.length s)%nat -> exists c, char_at s i = Ret c /\ (c <> 0 -> (i < String.length s)%nat).
Proof.
  intros H. unfold char_at. case_decide; [by eexists|]. rewrite decide_True by lia. exists 0. done.
Qed.

(** The next character of the method name. *)
Lemma method_next f l : at_byte 0 l -> CURRENT_STATE l = s_req_method -> live (f (par l)) ->
  state_ (f (par l)) = s_req_method \/ state_ (f (par l)) = s_req_spaces_before_url ->
  index (f (par l)) = index (par l) ->
  (state_ (f (par l)) = s_req_method -> (index (par l) < String.length (method_string (method (f (par l)))))%nat) ->
  safe l (break (upd incr_index (upd f l))).
Proof.
  start. intros Hf Hs Hi Hlt. pose proof (method_length (method (f (par l)))) as Hml.
  apply (safe_upd (fun q => incr_index (f q))); [done|done|by rewrite Es| |cbn; destruct Hs as [-> | ->]; done..].
  assert (Ht : types_ok (incr_index (f (par l)))) by apply types_incr_index, Hf.
  destruct Hf; constructor; try done. unfold state_ok. cbn -[Nat.modulo]. destruct Hs as [Hs|Hs]; rewrite Hs; [|done].
  specialize (Hlt Hs). rewrite Hi, Nat.mod_small by lia. lia.
Qed.

Lemma req_method_safe ch l : at_byte ch l -> CURRENT_STATE l = s_req_method -> safe l (do_req_method ch l).
Proof.
  start. pose proof (lv_state _ Hl) as Hi. unfold state_ok in Hi. unfold CURRENT_STATE in Es. rewrite Es in Hi.
  assert (A : at_byte 0 l) by (by constructor).
  unfold do_req_method. cbn zeta. case_match; [err Hl|]. destruct (char_at_ok _ _ Hi) as (c & -> & Hc). cbn [res_bind].
  case_match; [|case_match; [|case_match; [destruct (method_branch _ _ _) as [m'|] eqn:Em|case_match]]]; try err Hl.
  - apply (method_next (set_state s_req_spaces_before_url) l A Es); cbn; try done; auto. by live_of Hl.
  - apply (method_next (fun q => q) l A Es); auto. intros _. apply Hc. lia.
  - apply method_branch_index in Em. apply (method_next (set_method m') l A Es); cbn -[method_string]; auto.
    live_of Hl. unfold state_ok. cbn -[method_string]. rewrite Es. lia.
  - assert (E1 : index (par l) = 1%nat) by (case_bool_decide; [done|by rewrite andb_false_r in *]).
    apply (method_next (set_method HTTP_MSEARCH) l A Es); cbn; auto; [|lia]. live_of Hl. unfold state_ok. cbn. rewrite Es. lia.
Qed.

Lemma parse_url_char_result s ch : parse_url_char s ch = s_dead \/ allowed (parse_url_char s ch) = Some D_url.
Proof. unfold parse_url_char. destruct s; repeat case_match; auto. Qed.

Lemma live_url s q : allowed s = Some D_url -> live q -> live (set_state s q).
Proof. intros Ha Hq. live_of Hq. by destruct s. Qed.
Lemma url_not_dead s : allowed s = Some D_url -> s <> s_dead.
Proof. by intros ? ->. Qed.
Lemma url_in_value s : allowed s = Some D_url -> in_value s = false.
Proof. by destruct s. Qed.

Lemma spaces_before_url_safe ch l : at_byte ch l -> CURRENT_STATE l = s_req_spaces_before_url -> safe l (do_spaces_before_url ch l).
Proof.
  start. unfold do_spaces_before_url. case_match; [stay|]. destruct (MARK_same D_url l) as (Ep & _ & Epp).
  assert (K : forall s, allowed s = Some D_url -> safe l (break (UPDATE_STATE s (MARK D_url l)))).
  { intros s Hs. apply (safe_begin_string D_url (set_state s)); [done|done|by rewrite Es|by apply live_url|done|].
    cbn. by rewrite (url_in_value s). }
  case_decide; unfold url_char; cbn zeta; match goal with |- context [parse_url_char ?s ch] => destruct (parse_url_char_result s ch) as [E|E] end.
  1,3: rewrite E, decide_True by done; apply safe_fail; [done|cbn; rewrite Ep; apply lv_types in Hl; types_of Hl|cbn; lia].
  all: rewrite decide_False by exact (url_not_dead _ E); by apply K.
Qed.

Lemma url_char_safe ch l : at_byte ch l -> allowed (CURRENT_STATE l) = Some D_url -> safe l (url_char ch l).
Proof.
  start. unfold url_char. cbn zeta. destruct (parse_url_char_result (CURRENT_STATE l) ch) as [E|E].
  - rewrite E, decide_True by done. failed. apply lv_types in Hl. types_of Hl.
  - rewrite decide_False by exact (url_not_dead _ E).
    apply (safe_in_string D_url (set_state _)); [done|done|done|by apply live_url|done|].
    cbn. rewrite !url_in_value by done. done.
Qed.

Lemma url_start_safe ch l : at_byte ch l -> allowed (CURRENT_STATE l) = Some D_url -> safe l (do_url_start ch l).
Proof.
  intros A Ha. unfold do_url_start. case_match; [|by apply url_char_safe]. apply safe_fail; [done|apply A|]. destruct A. lia.
Qed.

Lemma url_safe ch l : at_byte ch l -> allowed (CURRENT_STATE l) = Some D_url -> safe l (do_url settings data ch l).
Proof.
  intros A Ha. unfold do_url. case_match; [|case_match; [|by apply url_char_safe]]; revert A Ha; start.
  - ends D_url (set_state s_req_http_start). by live_of Hl.
  - case_match.
    + ends D_url (fun q => set_state s_req_line_almost_done (set_http_minor 9 (set_http_major 0 q))). by live_of Hl.
    + ends D_url (fun q => set_state s_header_field_start (set_http_minor 9 (set_http_major 0 q))). by live_of Hl.
Qed.

Definition req_version_state (s : state) : bool :=
  match s with
  | s_req_http_start | s_req_http_H | s_req_http_HT | s_req_http_HTT | s_req_http_HTTP | s_req_first_http_major
  | s_req_http_major | s_req_first_http_minor | s_req_http_minor | s_req_line_almost_done => true
  | _ => false
  end.

Lemma req_version_safe ch l s : at_byte ch l -> CURRENT_STATE l = s -> req_version_state s = true -> safe l (do_req_version s ch l).
Proof.
  start. intros Hs. destruct s; try done; cbn [do_req_version]; try strict; repeat case_match; try err Hl; try digits Hl; try stay;
    try (match goal with |- context [goto ?n l] => go (set_state n); by live_of Hl end).
  - go (fun q => set_state s_req_http_major (set_http_major (ch - 48) q)). live_of Hl.
  - go (fun q => set_state s_req_http_minor (set_http_minor (ch - 48) q)). pose proof (digit_range ch H). live_of Hl.
Qed.

(** *** Headers *)
Lemma header_field_start_safe ch l : at_byte ch l -> CURRENT_STATE l = s_header_field_start -> safe l (do_header_field_start ch l).
Proof.
  start. unfold do_header_field_start. case_match; [go (set_state s_headers_almost_done); by live_of Hl|].
  case_match; [again (set_state s_headers_almost_done); by live_of Hl|]. cbn zeta. case_match; [err Hl|].
  match goal with |- context [set_header_state ?h] => begins D_header_field (fun q => set_header_state h (set_state s_header_field (set_index 0 q))) end.
  live_of Hl. unfold state_ok. cbn. repeat case_match; done.
Qed.

Lemma live_field h q : live q -> state_ q = s_header_field -> field_state h = true -> live (set_header_state h (incr_index q)).
Proof.
  intros Hq Es Hh. assert (Ht : types_ok (incr_index q)) by apply types_incr_index, Hq.
  destruct Hq; constructor; try done; [by destruct Ht|]. unfold state_ok. cbn. by rewrite Es.
Qed.

Lemma live_nread n q : 0 <= n <= HTTP_MAX_HEADER_SIZE -> live q -> live (set_nread n q).
Proof. intros Hn Hq. unfold HTTP_MAX_HEADER_SIZE in Hn. live_of Hq. unfold HTTP_MAX_HEADER_SIZE. lia. Qed.

Lemma match_next_cases w i c miss hit same (P : header_states -> Prop) : P miss -> P hit -> P same -> P (match_next w i c miss hit same).
Proof. unfold match_next. repeat case_match; done. Qed.

Lemma field_char_ok ch c q : live q -> state_ q = s_header_field ->
  exists q', field_char ch c q = Ret q' /\ live q' /\ state_ q' = s_header_field.
Proof.
  intros Hq Es. pose proof (lv_state _ Hq) as Hf. unfold state_ok in Hf. rewrite Es in Hf.
  unfold field_char. destruct (header_state q) eqn:Eh; try done; cbn zeta; (eexists; split; [reflexivity|]).
  all: try (split; [apply live_field; [done|done|]|cbn; done]; first [by apply (match_next_cases _ _ _ _ _ _ (fun h => field_state h = true))|repeat case_match; done]).
  - done.
  - case_match; [|done]. split; [|done]. live_of Hq. unfold state_ok. cbn. by rewrite Es.
  - case_match; [|done]. split; [|done]. live_of Hq. unfold state_ok. cbn. by rewrite Es.
  - case_match; [|done]. split; [|done]. live_of Hq. unfold state_ok. cbn. by rewrite Es.
  - case_match; [|done]. split; [|done]. live_of Hq. unfold state_ok. cbn. by rewrite Es.
Qed.

Lemma field_loop_ok rest (l : locals) : live (par l) -> CURRENT_STATE l = s_header_field ->
  exists l', field_loop rest l = Ret l' /\ live (par l') /\ CURRENT_STATE l' = s_header_field /\ usr l' = usr l /\
             (forall d, mark d l' = mark d l) /\ (p l <= p l' <= p l + length rest)%nat.
Proof.
  revert l. induction rest as [|ch rest IH]; intros l Hl Es; cbn [field_loop].
  - exists l. repeat (split; [done|]). cbn. lia.
  - case_match; [exists l; repeat (split; [done|]); lia|].
    destruct (field_char_ok ch (TOKEN ch) (par l) Hl Es) as (q & -> & Hq & Eq). cbn [res_bind].
    destruct (IH (set_p (S (p l)) (set_par q l)) Hq Eq) as (l' & -> & Hl' & Es' & Eu & Em & Hp).
    exists l'. split; [done|]. split; [done|]. split; [done|]. split; [done|]. split; [|cbn in Hp |- *; lia].
    intros d. rewrite Em. by destruct d.
Qed.

(** A loop has moved on inside the string [d]. *)
Lemma good_moved d l l' : good l -> allowed (CURRENT_STATE l) = Some d -> live (par l') -> CURRENT_STATE l' = CURRENT_STATE l ->
  usr l' = usr l -> (forall d, mark d l' = mark d l) -> (p l <= p l')%nat -> good l'.
Proof.
  intros (_ & Hu & Hm) Ha Hl Es Eu Em Hp. split; [done|]. split; [unfold user_ok in *; congruence|].
  intros d'. specialize (Hm d'). rewrite Em, Es. destruct (mark d' l); [|done]. destruct Hm. split; [done|lia].
Qed.

Lemma header_field_safe ch l : at_byte ch l -> CURRENT_STATE l = s_header_field -> safe l (do_header_field settings data l).
Proof.
  start. unfold do_header_field. cbn zeta.
  destruct (field_loop_ok (drop (p l) data) l Hl Es) as (l' & -> & Hl' & Es' & Eu & Em & Hp'). rewrite length_drop in Hp'. cbn [res_bind].
  apply safe_count; [done|lia|]. intros n Hn. set (l2 := upd (set_nread n) l').
  assert (Hl2 : live (par l2)) by (by apply live_nread).
  assert (Em2 : forall d, mark d l2 = mark d l) by (intros d; subst l2; by rewrite mark_upd).
  assert (Es2 : CURRENT_STATE l2 = CURRENT_STATE l) by (unfold CURRENT_STATE in *; cbn; congruence).
  assert (Eu2 : usr l2 = usr l) by done.
  assert (G2 : good l2) by (apply (good_moved D_header_field l); try done; [by rewrite Es|cbn; lia]).
  change (p l') with (p l2) in Hp'. clearbody l2. destruct (data !! p l2) as [c|] eqn:Ec.
  - apply lookup_lt_Some in Ec. case_match; [|apply safe_fail; [done|apply Hl2|lia]].
    apply (safe_end_string D_header_field _ _ (set_state s_header_value_discard_ws) l l2);
      [done|cbn; lia|by rewrite Es2, Es|by live_of Hl2|done..|].
    intros l3 G3 Hp3 E3. apply safe_break; [done|lia|]. unfold chunk_nread, CURRENT_STATE. rewrite E3. done.
  - apply lookup_ge_None in Ec. apply safe_break; [|cbn; lia|unfold chunk_nread, CURRENT_STATE in *; cbn; congruence].
    apply (good_moved D_header_field l); [done|by rewrite Es|done|done|done|intros d; by rewrite mark_p|cbn; lia].
Qed.

(** *** Header values *)
Lemma flag_range f : f ∈ [F_CHUNKED; F_CONNECTION_KEEP_ALIVE; F_CONNECTION_CLOSE; F_CONNECTION_UPGRADE; F_TRAILING; F_UPGRADE; F_SKIPBODY; F_CONTENTLENGTH] ->
  0 <= f < 2 ^ 8.
Proof. intros H. repeat (apply elem_of_cons in H as [-> | H]; [done|]). by apply elem_of_nil in H. Qed.

Lemma live_value h q : live q -> value_state h = true -> live (set_header_state h (set_state s_header_value q)).
Proof. intros Hq Hh. live_of Hq. Qed.

Lemma live_value_flag f q : live q -> state_ q = s_header_value -> 0 <= f < 2 ^ 8 -> live (add_flag f q).
Proof.
  intros Hq Es Hf. pose proof (types_add_flag f q Hf (lv_types _ Hq)). pose proof (lv_state _ Hq) as Hs. unfold state_ok in Hs.
  rewrite Es in Hs. destruct Hq; constructor; try done. unfold state_ok. cbn. by rewrite Es.
Qed.

Lemma value_start_live h q : live q -> value_state h = true -> live (set_header_state h (set_index 0 (set_state s_header_value q))).
Proof. intros Hq Hh. live_of Hq. Qed.

Lemma header_value_start_safe ch l : at_byte ch l -> in_value (CURRENT_STATE l) = true -> allowed (CURRENT_STATE l) = None ->
  safe l (do_header_value_start ch l).
Proof.
  start. intros Ha. assert (Hr : ready true (usr l)) by (unfold user_ok in Hu; by rewrite Es in Hu).
  destruct (MARK_same D_header_value l) as (Ep & _ & Epp).
  assert (K : forall f, state_ (f (par l)) = s_header_value -> live (f (par l)) -> safe l (break (upd f (MARK D_header_value l)))).
  { intros f Hs Hf. apply safe_begin_string; rewrite ?Hs; done. }
  unfold do_header_value_start. cbn zeta. change (header_state (par (upd _ _))) with (header_state (par (MARK D_header_value l))).
  rewrite Ep. destruct (header_state (par l)) eqn:Eh.
  all: try (apply (K (fun q => set_header_state h_general (set_index 0 (set_state s_header_value q)))); [done|by apply value_start_live]).
  - match goal with |- context [set_header_state ?h] => apply (K (fun q => set_header_state h (set_index 0 (set_state s_header_value q)))) end;
      [done|apply value_start_live; [done|repeat case_match; done]].
  - assert (L : live (set_index 0 (set_state s_header_value (par l)))) by (live_of Hl; unfold state_ok; cbn; by rewrite Eh).
    case_match; [apply safe_fail; [done|cbn; rewrite Ep; apply L|cbn; lia]|].
    case_match; [apply safe_fail; [done|cbn; rewrite Ep; apply L|cbn; lia]|].
    apply (K (fun q => set_content_length (ch - 48) (add_flag F_CONTENTLENGTH (set_index 0 (set_state s_header_value q))))); [done|].
    assert (Hd : 0 <= ch - 48 <= 9) by (by apply digit_range).
    apply (live_value_flag F_CONTENTLENGTH) in L; [|done..]. by live_of L.
  - match goal with |- context [set_header_state ?h] => apply (K (fun q => set_header_state h (set_index 0 (set_state s_header_value q)))) end;
      [done|apply value_start_live; [done|repeat case_match; done]].
  - apply (K (fun q => set_header_state h_general (add_flag F_UPGRADE (set_index 0 (set_state s_header_value q))))); [done|].
    assert (L : live (set_index 0 (set_state s_header_value (par l)))) by (live_of Hl; unfold state_ok; cbn; by rewrite Eh).
    apply (live_value_flag F_UPGRADE) in L; [|done..]. by live_of L.
  - apply (K (fun q => set_index 0 (set_state s_header_value q))); [done|]. live_of Hl. unfold state_ok. cbn. by rewrite Eh.
Qed.

Lemma header_value_discard_ws_safe ch l : at_byte ch l -> CURRENT_STATE l = s_header_value_discard_ws ->
  safe l (do_header_value_discard_ws ch l).
Proof.
  intros A Es. unfold do_header_value_discard_ws.
  assert (Hr : ready true (usr l)) by (destruct A as [(_ & Hu & _) _ _ _]; unfold user_ok in Hu; by rewrite Es in Hu).
  repeat case_match; [..|by apply header_value_start_safe; rewrite ?Es]; revert A Es; start.
  - stay.
  - go (set_state s_header_value_discard_ws_almost_done). by live_of Hl.
  - go (set_state s_header_value_discard_lws). by live_of Hl.
Qed.

(** The value automaton stays among the states it knows. *)
Lemma value_char_ok ch h q : live q -> state_ q = s_header_value -> value_state h = true ->
  exists r, value_char ch h q = Ret r /\
            match r with
            | inl e => e <> HPE_OK
            | inr (h', q') => value_state h' = true /\ live q' /\ state_ q' = s_header_value
            end.
Proof.
  intros Hq Es Hh. pose proof (lv_state _ Hq) as Hv. unfold state_ok in Hv. rewrite Es in Hv.
  assert (Hi : live (incr_index q)).
  { pose proof (types_incr_index _ (lv_types _ Hq)). destruct Hq; constructor; try done. unfold state_ok. cbn. by rewrite Es. }
  assert (Hg : value_state h_general = true /\ live (set_state s_header_value q) /\ state_ (set_state s_header_value q) = s_header_value).
  { split; [done|]. split; [|done]. by live_of Hq. }
  assert (H0 : forall q, live q -> state_ q = s_header_value -> live (set_index 0 q)).
  { intros q0 Hq0 Es0. pose proof (lv_state _ Hq0) as Hv0. unfold state_ok in Hv0. rewrite Es0 in Hv0. live_of Hq0. unfold state_ok. cbn. by rewrite Es0. }
  unfold value_char. destruct h; try done; cbn zeta;
    repeat match goal with |- exists r, (if ?b then _ else _) = _ /\ _ => destruct b eqn:? end;
    (eexists; split; [reflexivity|]); cbn beta iota; try exact Hg.
  all: try (split; [apply (match_next_cases _ _ _ _ _ _ (fun h => value_state h = true)); reflexivity|by split]).
  all: try (split; [reflexivity|split; [apply H0; [|done]; apply live_value_flag; done|done]]).
  all: try discriminate.
  all: try (split; [repeat case_match; reflexivity|by split]).
  - split; [done|]. split; [|done]. live_of Hq; [by apply Z.mod_pos_bound|]. unfold state_ok. cbn. by rewrite Es.
  - split; [done|]. split; [by apply H0|done].
Qed.

(** [memchr] finds a position past a different character. *)
Lemma memchr_Some c l i : memchr c l = Some i -> (i < length l)%nat /\ (forall b, l !! 0%nat = Some b -> b <> c -> (0 < i)%nat).
Proof.
  revert i. induction l as [|b l IH]; intros i; cbn; [done|]. destruct (Z.eqb_spec b c) as [->|Hn].
  - intros [= <-]. split; [lia|]. by intros b [= ->].
  - intros (j & Ej & ->)%fmap_Some. destruct (IH _ Ej). split; [lia|]. intros. lia.
Qed.

Lemma skip_general_ok pos ch : data !! pos = Some ch -> ch <> CR -> ch <> LF -> (pos < skip_general data pos <= length data)%nat.
Proof.
  intros Hch H1 H2. pose proof (lookup_lt_Some _ _ _ Hch) as Hlt. unfold skip_general. cbn zeta.
  set (n := Z.to_nat _). set (t := take n (drop pos data)).
  assert (Ht : (length t <= length data - pos)%nat) by (subst t; rewrite length_take, length_drop; lia).
  assert (Hn : (0 < n)%nat).
  { subst n. unfold HTTP_MAX_HEADER_SIZE. rewrite length_drop. lia. }
  assert (Hh : t !! 0%nat = Some ch) by (subst t; rewrite lookup_take_lt, lookup_drop, Nat.add_0_r by lia; done).
  destruct (memchr CR t) as [cr|] eqn:E1, (memchr LF t) as [lf|] eqn:E2;
    repeat match goal with E : memchr _ _ = Some _ |- _ => apply memchr_Some in E as [? E]; specialize (E _ Hh ltac:(done)) end;
    try case_bool_decide; lia.
Qed.

(** In the middle of a value, with the local [h_state]. *)
Record in_value_at (l0 : locals) (h : header_states) (l : locals) : Prop := {
  iv_good : good l;
  iv_state : CURRENT_STATE l = s_header_value;
  iv_h : value_state h = true;
  iv_p : (p l0 <= p l <= length data)%nat }.

Lemma live_set_value h q : live q -> state_ q = s_header_value -> value_state h = true -> live (set_header_state h q).
Proof. intros Hq Es Hh. live_of Hq. unfold state_ok. cbn. by rewrite Es. Qed.

Lemma value_done_safe h l0 l : (p l0 < length data)%nat -> good l -> (p l0 <= p l <= length data)%nat ->
  live (set_header_state h (par l)) -> CURRENT_STATE l <> s_chunk_size_start ->
  (forall m, mark D_header_value l = Some m -> (m <= p l0)%nat) -> allowed (CURRENT_STATE l) = Some D_header_value \/ allowed (CURRENT_STATE l) = None ->
  safe l0 (value_done data (p l0) h l).
Proof.
  intros Hp0 G Hp Hl Hc Hm Ha. unfold value_done. apply safe_count; [done|cbn; lia|]. intros n Hn.
  set (l2 := upd (set_nread n) (upd (set_header_state h) l)).
  assert (Hgood : forall i, (p l0 <= i)%nat -> good (set_p i l2)).
  { intros i Hi. destruct G as (_ & Hu & Hmk). split; [by apply live_nread|]. split; [done|]. intros d. specialize (Hmk d). rewrite mark_p.
    subst l2. rewrite !mark_upd. change (CURRENT_STATE (set_p _ _)) with (CURRENT_STATE l). change (p (set_p i _)) with i.
    destruct (mark d l) as [m|] eqn:Em; [|done]. destruct Hmk as [Hd Hle]. split; [done|].
    destruct Ha as [Ha|Ha]; [|congruence]. assert (d = D_header_value) as -> by congruence. specialize (Hm _ Em). lia. }
  assert (Ep2 : p l2 = p l) by done. case_decide.
  - apply safe_break; [apply Hgood; lia|cbn; lia|by intros ?].
  - apply safe_break; [|cbn; lia|by intros ?]. replace l2 with (set_p (p l) l2) by (by destruct l). apply Hgood. lia.
Qed.

Lemma value_loop_safe l0 fuel h l : (p l0 < length data)%nat -> CURRENT_STATE l0 = s_header_value ->
  (forall m, mark D_header_value l = Some m -> (m <= p l0)%nat) ->
  in_value_at l0 h l -> (length data - p l <= fuel)%nat -> Forall is_byte data ->
  safe l0 (value_loop settings data fuel (p l0) h l).
Proof.
  intros Hp0 Es0 Hm0 Hi Hf Hd. revert h l Hm0 Hi Hf. induction fuel as [|fuel IH]; intros h l Hm0 [G Es Hh Hp] Hf;
    pose proof G as (Hl & _); cbn [value_loop];
    (destruct (data !! p l) as [ch|] eqn:Ech; [|apply value_done_safe; try done; [by apply live_set_value|congruence|rewrite Es; auto]]);
    pose proof (lookup_lt_Some _ _ _ Ech) as Hlt; [lia|].
  assert (Hb : is_byte ch) by (by eapply Forall_lookup_1).
  case_match; [|case_match; [|case_match]].
  - apply (safe_end_string D_header_value _ _ (fun q => set_header_state h (set_state s_header_almost_done q)) l0 l);
      [done|cbn; lia|by rewrite Es|by live_of Hl|done..|].
    intros l3 G3 Hp3 E3. apply value_done_safe; [done|done|lia|rewrite E3; by live_of Hl|unfold CURRENT_STATE; by rewrite E3| |].
    + intros m Em. pose proof (good_no_marks settings _ G3) as Hn. unfold CURRENT_STATE in Hn. rewrite E3 in Hn. rewrite (Hn eq_refl D_header_value) in Em. done.
    + right. unfold CURRENT_STATE. by rewrite E3.
  - apply safe_count; [by live_of Hl|cbn; lia|]. intros n Hn.
    apply (safe_end_string D_header_value _ _ (fun q => set_header_state h (set_nread n (set_state s_header_almost_done q))) l0 l);
      [done|cbn; lia|by rewrite Es| |done..|].
    { apply (live_nread n (set_header_state h (set_state s_header_almost_done (par l)))); [done|by live_of Hl]. }
    intros l3 G3 Hp3 E3. eexists. split; [done|]. cbn. unfold CURRENT_STATE in *. rewrite E3, Es0. cbn.
    split; [done|]. split; [lia|]. split; [done|]. split; [lia|done].
  - apply safe_fail; [done|apply Hl|lia].
  - destruct (decide (h = h_general)) as [->|Hne].
    + assert (Hs : (p l < skip_general data (p l) <= length data)%nat) by (apply (skip_general_ok _ ch); [done|lia..]).
      apply IH; [done| |cbn; lia]. constructor; try done; [|cbn; lia].
      apply (good_moved D_header_value l); [done|by rewrite Es|done..|intros d; by rewrite mark_p|cbn; lia].
    + destruct (value_char_ok ch h (par l) Hl Es Hh) as (r & Er & Hr).
      assert (E : forall (A B : res (flow (U := U))), match h with h_general => A | _ => B end = B) by (by destruct h). rewrite E, Er. cbn [res_bind].
      destruct r as [e|[h' q']]; [apply safe_fail; [done|apply (lv_types _ (live_set_value h _ Hl Es Hh))|cbn; lia]|]. destruct Hr as (Hv & Hq & Eq).
      apply IH; [intros m Em; apply Hm0; by rewrite mark_p in Em| |cbn; lia]. constructor; try done; [|cbn; lia].
      apply (good_moved D_header_value l); [done|by rewrite Es|done|unfold CURRENT_STATE in *; cbn; congruence|done|by intros []|cbn; lia].
Qed.

Lemma header_value_safe ch l : Forall is_byte data -> at_byte ch l -> CURRENT_STATE l = s_header_value ->
  safe l (do_header_value settings data l).
Proof.
  intros Hd. start. unfold do_header_value. apply value_loop_safe; try done.
  - intros m Em. specialize (Hm D_header_value). rewrite Em in Hm. apply Hm.
  - constructor; [done|done| |lia]. pose proof (lv_state _ Hl) as Hs. unfold state_ok, CURRENT_STATE in *. by rewrite Es in Hs.
Qed.

(** *** End of the headers *)
Lemma header_almost_done_safe ch l : at_byte ch l -> CURRENT_STATE l = s_header_almost_done -> safe l (do_header_almost_done ch l).
Proof.
  start. unfold do_header_almost_done. case_match; [err Hl|]. unfold user_ok in Hu. rewrite Es in Hu.
  go (set_state s_header_value_lws). by live_of Hl.
Qed.

Lemma header_finished_live q : live q -> live (set_state s_header_field_start (header_finished q)).
Proof.
  intros Hq. unfold header_finished.
  assert (K : forall f, 0 <= f < 2 ^ 8 -> live (set_state s_header_field_start (add_flag f q))).
  { intros f Hf. pose proof (types_add_flag f q Hf (lv_types _ Hq)) as T. destruct Hq; constructor; try done. by types_of T. }
  destruct (header_state q); try (by apply K); by live_of Hq.
Qed.

Lemma header_value_lws_safe ch l : at_byte ch l -> CURRENT_STATE l = s_header_value_lws -> safe l (do_header_value_lws ch l).
Proof.
  start. unfold do_header_value_lws. unfold user_ok in Hu. rewrite Es in Hu. case_match.
  - again (set_state s_header_value_start). by live_of Hl.
  - again (fun q => set_state s_header_field_start (header_finished q)). by apply header_finished_live.
Qed.

Lemma header_value_discard_ws_almost_done_safe ch l : at_byte ch l -> CURRENT_STATE l = s_header_value_discard_ws_almost_done ->
  safe l (STRICT_CHECK (negb (ch =? LF)) l (goto s_header_value_discard_lws l)).
Proof.
  start. unfold user_ok in Hu. rewrite Es in Hu. strict. go (set_state s_header_value_discard_lws). by live_of Hl.
Qed.

(** An empty value is delivered at once. *)
Lemma header_value_discard_lws_safe ch l : at_byte ch l -> CURRENT_STATE l = s_header_value_discard_lws ->
  safe l (do_header_value_discard_lws settings data ch l).
Proof.
  start. unfold do_header_value_discard_lws. unfold user_ok in Hu. rewrite Es in Hu.
  case_match; [go (set_state s_header_value_discard_ws); by live_of Hl|].
  assert (Hn : no_marks l) by (apply (good_no_marks settings); [done|by rewrite Es]).
  pose proof (header_finished_live (par l) Hl) as Hf.
  unfold MARK. change (mark D_header_value (upd header_finished l)) with (mark D_header_value l). rewrite (Hn D_header_value).
  apply safe_data; cbn; try done; [apply Hf|apply Hf|lia|]. intros m u _ Hu'. eexists. split; [done|]. cbn. rewrite Es.
  split; [|cbn; split; [lia|split; [done|split; [lia|done]]]].
  apply good_plain; [exact Hf| |done|by apply ready_weaken].
  intros []; cbn; [apply (Hn D_header_field)|done|apply (Hn D_url)|apply (Hn D_body)|apply (Hn D_status)].
Qed.

Lemma notify_false f u q :
  (on_headers_complete settings = Some f \/ on_message_complete settings = Some f \/
   on_chunk_header settings = Some f \/ on_chunk_complete settings = Some f) ->
  ready false u -> returns (f u q) (ready false).
Proof. apply notify_ready. Qed.

(** A notification in a state outside of the strings, then [k]. *)
Lemma safe_notify_then cb e er f l k : good l -> (er <= length data)%nat -> allowed (CURRENT_STATE l) = None -> live (f (par l)) ->
  allowed (state_ (f (par l))) = None -> in_value (state_ (f (par l))) = false -> e <> HPE_OK ->
  cb ∈ [on_message_complete settings; on_chunk_header settings; on_chunk_complete settings] ->
  (forall l', good l' -> par l' = f (par l) -> p l' = p l -> safe l (k l')) ->
  safe l (CALLBACK_NOTIFY_ cb e er (upd f l) k).
Proof.
  intros G Her Ha Hl Hs Hv He Hcb Hk.
  assert (Hn : no_marks l) by (by apply (good_no_marks settings)).
  apply (safe_notify settings data _ _ _ _ _ _ false); [|apply Hl|apply Hl|done|done|cbn; auto with cpp|].
  - intros g u q -> . apply notify_ready. repeat (apply elem_of_cons in Hcb as [Hcb|Hcb]; [rewrite <- Hcb; tauto|]). by apply elem_of_nil in Hcb.
  - intros u Hu. apply Hk; [|done|done]. apply good_plain; [done|auto with cpp|done|]. unfold CURRENT_STATE. cbn. by rewrite Hv.
Qed.

Lemma safe_return l0 l : good l -> (p l < length data)%nat -> CURRENT_STATE l <> s_chunk_size_start -> upgrade (par l) = true ->
  safe l0 (Ret (Return (S (p l)) l)).
Proof.
  intros (Hl & Hu & _) Hp Hc Hup. eexists. split; [done|]. split; [lia|]. split; [|auto]. split; [apply Hl|]. done.
Qed.

Lemma live_flag_plain f s q : live q -> state_ q = s -> match s with s_headers_done | s_header_field_start => True | _ => False end ->
  0 <= f < 2 ^ 8 -> live (add_flag f q).
Proof.
  intros Hq Es Hs Hf. pose proof (types_add_flag f q Hf (lv_types _ Hq)). destruct Hq; constructor; try done.
  unfold state_ok. cbn. rewrite Es. by destruct s.
Qed.

Lemma headers_almost_done_safe ch l : at_byte ch l -> CURRENT_STATE l = s_headers_almost_done -> safe l (do_headers_almost_done settings ch l).
Proof.
  start. unfold do_headers_almost_done. strict. case_match; [|case_match; [err Hl|]].
  - apply (safe_notify_then _ _ _ (set_state s_message_done)); try done; [cbn; lia|by rewrite Es|by live_of Hl|set_solver|].
    intros l' G' E' P'. eexists. split; [done|]. cbn. unfold CURRENT_STATE in *. rewrite E', Es. cbn.
    split; [done|]. split; [lia|]. split; [done|]. split; [lia|done].
  - assert (Hn : no_marks l) by (apply (good_no_marks settings); [done|by rewrite Es]).
    cbn zeta. match goal with |- context [upd ?f (UPDATE_STATE s_headers_done l)] => set (l1 := upd f (UPDATE_STATE s_headers_done l)) end.
    assert (L1 : live (par l1)) by (subst l1; by live_of Hl).
    assert (K : forall g u, live (g (par l1)) -> state_ (g (par l1)) = s_headers_done -> ready false u ->
      safe l (if decide (http_errno (par (upd g (set_usr u l1))) = HPE_OK) then Ret (Reexecute ch (upd g (set_usr u l1)))
              else Ret (Return (p (upd g (set_usr u l1))) (upd g (set_usr u l1))))).
    { intros g u Hg Eg Hu'. rewrite decide_True by apply Hg. eexists. split; [done|]. unfold flow_ok. rewrite Es.
      assert (Ec : CURRENT_STATE (upd g (set_usr u l1)) = s_headers_done) by exact Eg. rewrite Ec.
      split; [|split; [cbn; lia|split; [done|split; [cbn; lia|done]]]]. apply good_plain; [done|subst l1; unfold UPDATE_STATE; auto with cpp|by rewrite Ec|by rewrite Ec]. }
    assert (Hf : forall f g, live (g (par l1)) -> state_ (g (par l1)) = s_headers_done -> 0 <= f < 2 ^ 8 -> live (add_flag f (g (par l1)))).
    { intros f g Hg Eg Hf. by eapply live_flag_plain. }
    destruct (on_headers_complete settings) as [f|] eqn:Ef.
    + destruct (notify_false f (usr l1) (par l1)) as (a & u & -> & Hu'); [tauto|exact (user_false l G)|]. cbn [res_bind fst snd].
      case_match; [|case_match; [|case_match]].
      * exact (K (fun q => q) u L1 eq_refl Hu').
      * apply (K (fun q => add_flag F_SKIPBODY (set_upgrade true q)) u); [apply Hf with (g := set_upgrade true)|..]; try done. by live_of L1.
      * apply (K (fun q => add_flag F_SKIPBODY q) u); [apply Hf with (g := fun q => q)|..]; done.
      * eexists. split; [done|]. apply ended_errno; [done|apply L1|cbn; lia].
    + exact (K (fun q => q) (usr l) L1 eq_refl (user_false l G)).
Qed.

(** *** End of a message *)
Lemma new_message_state q : NEW_MESSAGE q ∈ [s_start_req; s_start_res; s_dead].
Proof. unfold NEW_MESSAGE, start_state. repeat case_match; set_solver. Qed.
Lemma new_message_ok q s : s ∈ [s_start_req; s_start_res; s_dead] -> live q ->
  live (set_state s q) /\ allowed s = None /\ in_value s = false /\ s <> s_chunk_size_start.
Proof.
  intros Hs Hq. split; [live_of Hq|].
  all: repeat (apply elem_of_cons in Hs as [-> | Hs]; [done|]); by apply elem_of_nil in Hs.
Qed.

Lemma message_complete_safe f l k : good l -> (p l < length data)%nat -> allowed (CURRENT_STATE l) = None -> live (f (par l)) ->
  (forall l', good l' -> par l' = set_state (NEW_MESSAGE (f (par l))) (f (par l)) -> CURRENT_STATE l' <> s_chunk_size_start -> p l' = p l -> safe l (k l')) ->
  safe l (message_complete settings (upd f l) k).
Proof.
  intros G Hp Ha Hl Hk. destruct (new_message_ok (f (par l)) _ (new_message_state (f (par l))) Hl) as (Hn & Hs & Hv & Hc).
  apply (safe_notify_then _ _ _ (fun q => set_state (NEW_MESSAGE (f q)) (f q)));
    [done|cbn; lia|done|exact Hn|exact Hs|exact Hv|done|set_solver|].
  intros l' G' E' P'. apply Hk; try done. unfold CURRENT_STATE. rewrite E'. exact Hc.
Qed.

(** The body starts with the next byte. *)
Lemma safe_enter_body f l : good l -> (p l < length data)%nat -> allowed (CURRENT_STATE l) = None -> live (f (par l)) ->
  allowed (state_ (f (par l))) = Some D_body -> safe l (break (upd f l)).
Proof.
  intros G Hp Ha Hl Hs. assert (Hn : no_marks l) by (by apply (good_no_marks settings)).
  apply safe_break; [|cbn; lia|unfold chunk_nread, CURRENT_STATE; cbn; by intros E; rewrite E in Hs].
  apply (good_string D_body); try done; [intros d _; by apply no_marks_upd|intros m; rewrite no_marks_upd; done|].
  unfold CURRENT_STATE. cbn. replace (in_value (state_ (f (par l)))) with false by (by destruct (state_ (f (par l)))). by apply user_false.
Qed.

Lemma headers_done_safe ch l : at_byte ch l -> CURRENT_STATE l = s_headers_done -> safe l (do_headers_done settings ch l).
Proof.
  start. unfold do_headers_done. strict. cbn zeta.
  assert (L0 : live (set_nread 0 (par l))) by (by apply live_nread).
  assert (Hk : safe l (message_complete settings (upd (set_nread 0) l) break)).
  { apply message_complete_safe; try done; [by rewrite Es|]. intros l' G' E' C' P'. apply safe_break; [done|lia|by intros ?]. }
  case_match eqn:E1; [|case_match; [done|case_match eqn:E2; [|case_match; [done|case_match eqn:E3; [|case_match; [done|]]]]]].
  - apply message_complete_safe; try done; [by rewrite Es|]. intros l' G' E' C' P'. apply safe_return; [done|lia|done|].
    rewrite E'. apply andb_prop in E1 as [E1 _]. exact E1.
  - go (fun q => set_state s_chunk_size_start (set_nread 0 q)). by live_of L0.
  - apply (safe_enter_body (fun q => set_state s_body_identity (set_nread 0 q))); [done|done|by rewrite Es| |done].
    live_of L0. split; cbn in *; lia.
  - apply (safe_enter_body (fun q => set_state s_body_identity_eof (set_nread 0 q))); [done|done|by rewrite Es| |done]. by live_of L0.
Qed.

(** *** Body *)
Lemma MARK_some d l : good l -> allowed (CURRENT_STATE l) = Some d -> exists m, mark d (MARK d l) = Some m /\ (m <= p l)%nat.
Proof.
  intros (_ & _ & Hm) Ha. unfold MARK. specialize (Hm d). destruct (mark d l) as [m|] eqn:E.
  - exists m. split; [done|apply Hm].
  - exists (p l). split; [apply mark_set|done].
Qed.

Lemma good_body i l : good l -> allowed (CURRENT_STATE l) = Some D_body -> (p l <= i)%nat -> good (set_p i (MARK D_body l)).
Proof.
  intros G Ha Hi. destruct (MARK_same D_body l) as (Ep & Eu & _). destruct (MARK_some D_body l G Ha) as (m & Em & Hm).
  pose proof G as (Hl & Hu & _). apply (good_string D_body); unfold CURRENT_STATE; cbn; rewrite ?Ep, ?Eu; try done.
  - intros d Hd. rewrite mark_p. unfold MARK. destruct (mark D_body l) eqn:E; [by apply (good_others D_body)|].
    rewrite mark_set_ne by done. by apply (good_others D_body).
  - intros m' E'. change (mark D_body (MARK D_body l) = Some m') in E'. assert (m' = m) as -> by congruence. lia.
Qed.

(** Read what there is of a body of known length. *)
Lemma left_range (l : locals) : (p l < length data)%nat -> 1 <= left data l /\ Z.to_nat (left data l) = (length data - p l)%nat.
Proof. unfold left. lia. Qed.

Lemma body_identity_safe ch l : at_byte ch l -> CURRENT_STATE l = s_body_identity -> safe l (do_body_identity settings data ch l).
Proof.
  start. pose proof (lv_state _ Hl) as Hs. unfold state_ok in Hs. assert (E := Es). unfold CURRENT_STATE in E. rewrite E in Hs. destruct Hs as [H0 H1].
  pose proof (t_length _ (lv_types _ Hl)) as H2. destruct (left_range l Hp) as [H3 H4].
  destruct (MARK_same D_body l) as (Ep & Eu & Epp). destruct (MARK_some D_body l G) as (m & Em & Hmp); [by rewrite Es|].
  unfold do_body_identity. cbn zeta. rewrite (proj2 (Z.eqb_neq _ _) H0), (proj2 (Z.eqb_neq _ _) H1). cbn [orb].
  set (len := content_length (par l)) in *. set (n := Z.min len (left data l)).
  change (p (upd _ (MARK D_body l))) with (p (MARK D_body l)). rewrite Epp. set (i := (p l + Z.to_nat n - 1)%nat).
  assert (Hi : (p l <= i < length data)%nat) by lia.
  pose proof (good_body i l G ltac:(by rewrite Es) ltac:(lia)) as Gb. set (lb := set_p i (MARK D_body l)) in *.
  assert (Elb : par lb = par l) by done. assert (Hlb : live (par lb)) by apply Gb.
  change (set_p i (upd (set_content_length (len - n)) (MARK D_body l))) with (upd (set_content_length (len - n)) lb).
  case_match eqn:Ez.
  - apply (safe_end_string D_body _ _ (fun q => set_state s_message_done (set_content_length (len - n) q)) l lb);
      [done|cbn; lia|unfold CURRENT_STATE; rewrite Elb, E; done|by live_of Hlb|done|done| |].
    + intros _ m' E'. change (mark D_body (MARK D_body l) = Some m') in E'. cbn. assert (m' = m) as -> by congruence. lia.
    + intros l3 G3 P3 E3. eexists. split; [done|]. cbn. unfold CURRENT_STATE in *. rewrite E3, Es. cbn. change (p lb) with i in P3.
      split; [done|]. split; [lia|]. split; [done|]. split; [lia|done].
  - apply safe_break; [|cbn; lia|unfold chunk_nread, CURRENT_STATE; cbn; congruence].
    destruct Gb as (_ & Ub & Mb). split; [|done]. cbn in Ez. change (live (set_content_length (len - n) (par lb))). rewrite Elb.
    live_of Hl. unfold state_ok. cbn. rewrite E. unfold ULLONG_MAX in *. split; cbn; unfold ULLONG_MAX; lia.
Qed.

Lemma body_identity_eof_safe ch l : at_byte ch l -> CURRENT_STATE l = s_body_identity_eof -> safe l (do_body_identity_eof data l).
Proof.
  start. destruct (MARK_same D_body l) as (Ep & _). unfold do_body_identity_eof. apply safe_break; [|cbn; lia|].
  - apply good_body; [done|by rewrite Es|lia].
  - unfold chunk_nread, CURRENT_STATE in *. cbn. rewrite Ep. congruence.
Qed.

Lemma message_done_safe ch l : at_byte ch l -> CURRENT_STATE l = s_message_done -> safe l (do_message_done settings l).
Proof.
  start. unfold do_message_done.
  assert (El : message_complete settings l = message_complete settings (upd (fun q => q) l)) by (by destruct l). rewrite El.
  apply message_complete_safe; try done; [by rewrite Es|]. intros l' G' E' C' P'. case_match.
  - apply safe_return; [done|lia|done|done].
  - apply safe_break; [done|lia|by intros ?].
Qed.

(** *** Chunks *)
Lemma unhex_check : forallb (fun v => (-1 <=? v) && (v <=? 15)) unhex_table = true.
Proof. reflexivity. Qed.
Lemma unhex_range ch : unhex ch <> -1 -> 0 <= unhex ch <= 15.
Proof.
  unfold unhex, table. destruct (unhex_table !! Z.to_nat ch) as [v|] eqn:E; [|lia].
  pose proof unhex_check as H. rewrite forallb_forall in H. apply list_elem_of_lookup_2, list_elem_of_In, H in E. lia.
Qed.

Definition chunk_size_state (s : state) : bool :=
  match s with s_chunk_size_start | s_chunk_size | s_chunk_parameters | s_chunk_size_almost_done => true | _ => false end.

Lemma state_ok_chunked q : live q -> chunk_size_state (state_ q) = true \/ allowed (state_ q) = Some D_body /\ state_ q <> s_body_identity /\ state_ q <> s_body_identity_eof
  \/ state_ q = s_chunk_data_done ->
  has_flag F_CHUNKED q = true.
Proof. intros Hq H. pose proof (lv_state _ Hq) as Hs. unfold state_ok in Hs. destruct (state_ q); naive_solver. Qed.

Lemma live_chunk s v q : live q -> has_flag F_CHUNKED q = true -> chunk_size_state s = true -> 0 <= v < ULLONG_MAX -> live (set_state s (set_content_length v q)).
Proof.
  unfold ULLONG_MAX. intros Hq Hf Hs Hv. live_of Hq. destruct s; try done; cbn; unfold ULLONG_MAX; split; (done || lia).
Qed.

Lemma chunk_size_safe ch l s : at_byte ch l -> CURRENT_STATE l = s -> chunk_size_state s = true -> chunk_nread 1 l -> safe l (do_chunk_size settings s ch l).
Proof.
  start. intros Hs Hnr. assert (Es' : state_ (par l) = s) by exact Es. unfold chunk_nread in Hnr. rewrite Es in Hnr.
  pose proof (state_ok_chunked _ Hl ltac:(left; by rewrite Es')) as Hf. pose proof (lv_state _ Hl) as So. unfold state_ok in So. rewrite Es' in So.
  pose proof (t_length _ (lv_types _ Hl)) as Hlen. unfold do_chunk_size. rewrite Hf. cbn [negb].
  assert (Hgo : forall s' v, chunk_size_state s' = true -> 0 <= v < ULLONG_MAX -> s' <> s_chunk_size_start ->
                  safe l (goto s' (upd (set_content_length v) l))).
  { intros s' v Hs' Hv Hst. apply (safe_upd (fun q => set_state s' (set_content_length v q)));
      [done|done|rewrite Es; by destruct s|by apply live_chunk|cbn; by destruct s'..]. }
  assert (Hstay : forall s', chunk_size_state s' = true -> content_length (par l) <> ULLONG_MAX -> s' <> s_chunk_size_start -> safe l (goto s' l)).
  { intros s' Hs' Hne Hst. replace (goto s' l) with (goto s' (upd (set_content_length (content_length (par l))) l))
      by (destruct l as [[] ? ? ? ? ? ? ?]; reflexivity). apply Hgo; [done|unfold ULLONG_MAX in *; lia|done]. }
  destruct s; try done.
  - rewrite Hnr by done. cbn [Z.eqb Pos.eqb negb]. case_match; [err Hl|].
    pose proof (unhex_range ch ltac:(lia)). apply Hgo; [done|unfold ULLONG_MAX; lia|done].
  - destruct So as [_ So]. case_match; [by apply Hstay|]. case_match; [case_match; [by apply Hstay|err Hl]|]. case_match eqn:Eb; [err Hl|].
    pose proof (unhex_range ch ltac:(lia)) as Hx. set (t := u64 _).
    assert (Hc : content_length (par l) <= 1152921504606846974) by (apply Z.ltb_ge in Eb; exact Eb).
    assert (Ht : 0 <= t < ULLONG_MAX) by (unfold ULLONG_MAX in *; subst t; unfold u64; rewrite (Z.mod_small (_ * 16)), Z.mod_small; lia).
    replace (upd (set_content_length t) l) with (UPDATE_STATE s_chunk_size (upd (set_content_length t) l))
      by (destruct l as [[] ? ? ? ? ? ? ?]; unfold CURRENT_STATE in Es; cbn in Es |- *; by rewrite Es). by apply Hgo.
  - destruct So as [_ So]. case_match; [by apply Hstay|stay].
  - strict. destruct So as [_ So]. cbn zeta.
    change (content_length (par (upd (set_nread 0) l))) with (content_length (par l)). pose proof (live_nread 0 _ ltac:(done) Hl) as L0. case_match.
    + apply (safe_notify_then _ _ _ (fun q => set_state s_header_field_start (add_flag F_TRAILING (set_nread 0 q))));
        [done|cbn; lia|by rewrite Es| |done|done|done|set_solver|].
      * pose proof (types_add_flag F_TRAILING _ ltac:(done) (lv_types _ L0)) as T. destruct L0; constructor; try done. by types_of T.
      * intros l' G' E' P'. apply safe_break; [done|lia|]. unfold chunk_nread, CURRENT_STATE. by rewrite E'.
    + assert (Hn : no_marks l) by (apply (good_no_marks settings); [done|by rewrite Es]).
      assert (Lc : live (set_state s_chunk_data (set_nread 0 (par l)))).
      { live_of L0. split; [done|]. split; cbn; [lia|done]. }
      apply (safe_notify settings data _ _ _ _ _ _ false); [|apply Lc|apply Lc|done|cbn; lia|cbn; auto with cpp|].
      * intros g u q Eg. apply notify_ready. tauto.
      * intros u Hu'. apply safe_break; [|cbn; lia|done].
        apply (good_string D_body); try done; [intros d _; rewrite mark_usr; by apply (no_marks_upd _ (upd (set_nread 0) l)), no_marks_upd|].
        intros m. change (mark D_body (set_usr u (UPDATE_STATE s_chunk_data (upd (set_nread 0) l)))) with (mark D_body l). by rewrite (Hn D_body).
Qed.

Lemma chunk_data_safe ch l : at_byte ch l -> CURRENT_STATE l = s_chunk_data -> safe l (do_chunk_data settings data s_chunk_data ch l).
Proof.
  start. pose proof (lv_state _ Hl) as Hs. unfold state_ok in Hs. assert (E := Es). unfold CURRENT_STATE in E. rewrite E in Hs. destruct Hs as [Hf [H0 H1]].
  pose proof (t_length _ (lv_types _ Hl)) as H2. destruct (left_range l Hp) as [H3 H4].
  destruct (MARK_same D_body l) as (Ep & Eu & Epp).
  unfold do_chunk_data. rewrite Hf. cbn [negb]. cbn zeta. rewrite (proj2 (Z.eqb_neq _ _) H0), (proj2 (Z.eqb_neq _ _) H1). cbn [orb].
  set (len := content_length (par l)) in *. set (n := Z.min len (left data l)).
  change (p (upd _ (MARK D_body l))) with (p (MARK D_body l)). rewrite Epp. set (i := (p l + Z.to_nat n - 1)%nat).
  assert (Hi : (p l <= i < length data)%nat) by lia.
  pose proof (good_body i l G ltac:(by rewrite Es) ltac:(lia)) as Gb. set (lb := set_p i (MARK D_body l)) in *.
  assert (Elb : par lb = par l) by done.
  change (set_p i (upd (set_content_length (len - n)) (MARK D_body l))) with (upd (set_content_length (len - n)) lb).
  assert (K : forall f, live (f (par l)) -> allowed (state_ (f (par l))) = Some D_body -> safe l (break (upd f lb))).
  { intros f Lf Af. apply safe_break; [|cbn; lia|unfold chunk_nread, CURRENT_STATE; cbn; rewrite Ep; intros Ec; by rewrite Ec in Af].
    destruct Gb as (_ & Ub & Mb). change (live (f (par lb)) /\ user_ok settings (state_ (f (par lb))) (usr lb) /\ marks_ok (upd f lb)).
    unfold user_ok, CURRENT_STATE in *. rewrite Elb in *. split; [done|]. rewrite E in Ub. split; [by destruct (state_ (f (par l)))|].
    intros d. specialize (Mb d). rewrite mark_upd. unfold CURRENT_STATE in *. cbn. rewrite Ep, Af. change (par lb) with (par (MARK D_body l)) in Mb. by rewrite Ep, E in Mb. }
  case_match eqn:Ez; [apply (K (fun q => set_state s_chunk_data_almost_done (set_content_length (len - n) q)))|apply (K (set_content_length (len - n)))];
    cbn in Ez |- *; try done; try (by rewrite E).
  - live_of Hl. split; [done|]. cbn. lia.
  - live_of Hl. unfold state_ok. cbn. rewrite E. split; [done|]. unfold ULLONG_MAX in *. split; cbn; unfold ULLONG_MAX; lia.
Qed.

Lemma chunk_data_almost_done_safe ch l : at_byte ch l -> CURRENT_STATE l = s_chunk_data_almost_done ->
  safe l (do_chunk_data settings data s_chunk_data_almost_done ch l).
Proof.
  start. pose proof (lv_state _ Hl) as Hs. unfold state_ok in Hs. assert (E := Es). unfold CURRENT_STATE in E. rewrite E in Hs. destruct Hs as [Hf H0].
  unfold do_chunk_data. rewrite Hf, H0. cbn [negb Z.eqb]. strict.
  apply (safe_end_string D_body _ _ (set_state s_chunk_data_done) l l); [done|cbn; lia|by rewrite Es|by live_of Hl|done|done| |].
  - intros _ m Em. specialize (Hb _ Em). cbn. lia.
  - intros l' G' P' E'. apply safe_break; [done|lia|]. unfold chunk_nread, CURRENT_STATE. by rewrite E'.
Qed.

Lemma chunk_data_done_safe ch l : at_byte ch l -> CURRENT_STATE l = s_chunk_data_done ->
  safe l (do_chunk_data settings data s_chunk_data_done ch l).
Proof.
  start. pose proof (lv_state _ Hl) as Hs. unfold state_ok in Hs. assert (E := Es). unfold CURRENT_STATE in E. rewrite E in Hs.
  unfold do_chunk_data. rewrite Hs. cbn [negb]. strict. pose proof (live_nread 0 _ ltac:(done) Hl) as L0.
  apply (safe_notify_then _ _ _ (fun q => set_state s_chunk_size_start (set_nread 0 q)));
    [done|cbn; lia|by rewrite Es|by live_of L0|done|done|done|set_solver|].
  intros l' G' E' P'. apply safe_break; [done|lia|]. unfold chunk_nread. by rewrite E'.
Qed.

(** *** The loop *)
Lemma switch_safe ch l : Forall is_byte data -> at_byte ch l -> chunk_nread 1 l -> safe l (switch settings data ch l).
Proof.
  intros Hd A Hc. unfold switch. destruct (CURRENT_STATE l) eqn:Es.
  - by apply dead_safe.
  - by apply start_req_or_res_safe.
  - by apply res_or_resp_H_safe.
  - by apply start_res_safe.
  - by apply res_version_safe.
  - by apply res_version_safe.
  - by apply res_version_safe.
  - by apply res_version_safe.
  - by apply res_version_safe.
  - by apply res_version_safe.
  - by apply res_version_safe.
  - by apply res_version_safe.
  - by apply res_status_safe.
  - by apply res_status_safe.
  - by apply res_status_safe.
  - by apply res_status_safe.
  - by apply res_status_safe.
  - by apply start_req_safe.
  - by apply req_method_safe.
  - by apply spaces_before_url_safe.
  - apply url_start_safe; [done|by rewrite Es].
  - apply url_start_safe; [done|by rewrite Es].
  - apply url_start_safe; [done|by rewrite Es].
  - apply url_start_safe; [done|by rewrite Es].
  - apply url_safe; [done|by rewrite Es].
  - apply url_safe; [done|by rewrite Es].
  - apply url_safe; [done|by rewrite Es].
  - apply url_safe; [done|by rewrite Es].
  - apply url_safe; [done|by rewrite Es].
  - apply url_safe; [done|by rewrite Es].
  - apply url_safe; [done|by rewrite Es].
  - by apply req_version_safe.
  - by apply req_version_safe.
  - by apply req_version_safe.
  - by apply req_version_safe.
  - by apply req_version_safe.
  - by apply req_version_safe.
  - by apply req_version_safe.
  - by apply req_version_safe.
  - by apply req_version_safe.
  - by apply req_version_safe.
  - by apply header_field_start_safe.
  - by apply (header_field_safe ch).
  - by apply header_value_discard_ws_safe.
  - by apply header_value_discard_ws_almost_done_safe.
  - by apply header_value_discard_lws_safe.
  - by apply header_value_start_safe; rewrite ?Es.
  - by apply (header_value_safe ch).
  - by apply header_value_lws_safe.
  - by apply header_almost_done_safe.
  - by apply chunk_size_safe.
  - by apply chunk_size_safe.
  - by apply chunk_size_safe.
  - by apply chunk_size_safe.
  - by apply headers_almost_done_safe.
  - by apply headers_done_safe.
  - by apply chunk_data_safe.
  - by apply chunk_data_almost_done_safe.
  - by apply chunk_data_done_safe.
  - by apply body_identity_safe.
  - by apply (body_identity_eof_safe ch).
  - by apply (message_done_safe ch).
Qed.

(** The jumps to [reexecute] come to an end. *)
Definition turn_ok (i : nat) (f : flow (U := U)) : Prop :=
  match f with
  | Break l => good l /\ (i <= p l < length data)%nat /\ chunk_nread 0 l
  | Reexecute _ _ => False
  | Error l => types_ok (par l) /\ http_errno (par l) <> HPE_OK /\ (p l <= length data)%nat
  | Return n l => ended settings data n l
  end.

Lemma turn_safe fuel ch l : Forall is_byte data -> at_byte ch l -> chunk_nread 1 l -> (rank (CURRENT_STATE l) <= fuel)%nat ->
  exists f, turn settings data fuel ch l = Ret f /\ turn_ok (p l) f.
Proof.
  intros Hd. revert ch l. induction fuel as [|fuel IH]; intros ch l A Hc Hr; cbn [turn];
    destruct (switch_safe ch l Hd A Hc) as (f & -> & Hf); cbn [res_bind]; destruct f as [l'|ch' l'|l'|n l']; try (eexists; by split).
  - destruct Hf as (_ & _ & _ & Hlt & _). lia.
  - destruct Hf as (G & Hp & Hb & Hlt & Ha & Hn). destruct (IH ch' l') as (f & Ef & Hok).
    + constructor; [done|lia|done|]. intros m Em. pose proof (good_no_marks settings _ G Ha D_body) as E. cbn in E. congruence.
    + by intros ?.
    + lia.
    + exists f. split; [done|]. destruct f; cbn in *; try done. destruct Hok as (? & ? & ?). split; [done|]. split; [lia|done].
Qed.

Lemma rank_fuel s : (rank s <= turn_fuel)%nat.
Proof. destruct s; unfold turn_fuel; cbn; lia. Qed.

(** The top of the loop. *)
Record at_top (l : locals) : Prop := {
  at_good : good l;
  at_p : (p l <= length data)%nat;
  at_chunk : chunk_nread 0 l;
  at_body m : body_mark l = Some m -> (m < p l)%nat }.

Lemma marks_set_le_1 (l : locals) : marks_ok l -> (marks_set l <= 1)%nat.
Proof.
  intros Hm. assert (Ho : forall d, is_Some (mark d l) -> allowed (CURRENT_STATE l) = Some d).
  { intros d [m Em]. specialize (Hm d). rewrite Em in Hm. apply Hm. }
  unfold marks_set. repeat (rewrite filter_cons; case_decide); rewrite filter_nil;
    repeat match goal with H : is_Some (mark _ l) |- _ => apply Ho in H end; first [cbn; lia|congruence].
Qed.

(** The strings that are still open are delivered at the end of the input. *)
Definition finished (r : res (flow (U := U))) : Prop := exists n l, r = Ret (Return n l) /\ ended settings data n l.

Record closing (l : locals) : Prop := {
  cl_live : live (par l);
  cl_user : user_ok settings (CURRENT_STATE l) (usr l);
  cl_p : p l = length data;
  cl_chunk : chunk_nread 0 l;
  cl_marks d m : mark d l = Some m -> allowed (CURRENT_STATE l) = Some d /\ (d = D_body -> (m < length data)%nat) }.

Lemma closing_data d l k : closing l -> (forall l', closing l' -> finished (k l')) ->
  finished (CALLBACK_DATA_NOADVANCE settings data d l k).
Proof.
  intros [Hl Hu Hp Hc Hm] Hk. unfold CALLBACK_DATA_NOADVANCE, CALLBACK_DATA_. rewrite decide_True by apply Hl.
  destruct (mark d l) as [m|] eqn:Em; [|by apply Hk]. destruct (Hm _ _ Em) as [Ha Hb].
  assert (Hr : ready (before d) (usr l)) by (unfold user_ok in Hu; destruct (CURRENT_STATE l); try done; injection Ha as <-; exact Hu).
  assert (K : forall u, ready (after d false) u -> closing (set_mark d None (set_usr u l))).
  { intros u Hu'. destruct (set_mark_same d None (set_usr u l)) as (Ep & Eu & Epp).
    constructor; unfold chunk_nread, CURRENT_STATE; rewrite ?Ep, ?Eu, ?Epp; try done.
    - unfold user_ok, CURRENT_STATE in *. cbn. destruct (state_ (par l)); try done; injection Ha as <-; try exact Hu'; by apply ready_weaken.
    - intros d' m'. destruct (decide (d' = d)) as [->|Hd]; [by rewrite mark_set|]. rewrite mark_set_ne, mark_usr by done. apply Hm. }
  destruct (on_data settings d) as [f|] eqn:Ef.
  - destruct (data_ready settings d f (usr l) (par l) (take (p l - m) (drop m data)) Ef) as (a & u & -> & Hu'); [|done|].
    { intros ->. apply slice_nonempty. specialize (Hb eq_refl). lia. }
    cbn. case_match; [by apply Hk, K|]. eexists _, _. split; [done|]. apply ended_errno; [by destruct d|apply Hl|cbn; lia].
  - replace (set_mark d None l) with (set_mark d None (set_usr (usr l) l)) by (by destruct l, d). apply Hk, K.
    destruct d; cbn in *; try done. by apply no_field.
Qed.

Lemma finish_safe l : at_top l -> p l = length data -> finished (finish settings data l).
Proof.
  intros [(Hl & Hu & Hm) Hp Hc Hb] E. unfold finish. rewrite decide_True by (by apply marks_set_le_1).
  repeat (apply closing_data; [try done|intros]).
  - constructor; try done. intros d m Em. pose proof (Hm d) as H. rewrite Em in H. split; [apply H|]. intros ->. specialize (Hb _ Em). lia.
  - match goal with H : closing ?l' |- _ => destruct H as [Hl' Hu' Hp' Hc' _] end. eexists _, _. split; [done|].
    split; [lia|]. split; [|auto]. split; [apply Hl'|]. intros _. split; [done|]. split; [done|]. exact Hc'.
Qed.

Lemma good_nread n l : 0 <= n <= HTTP_MAX_HEADER_SIZE -> good l -> good (upd (set_nread n) l).
Proof. intros Hn (Hl & Hu & Hm). split; [by apply live_nread|]. split; [done|]. intros d. specialize (Hm d). by rewrite mark_upd. Qed.

Lemma at_top_next l : good l -> (p l < length data)%nat -> chunk_nread 0 l -> at_top (set_p (S (p l)) l).
Proof.
  intros (Hl & Hu & Hm) Hp Hc. constructor; [|cbn; lia|done|].
  - split; [done|]. split; [done|]. intros d. specialize (Hm d). rewrite mark_p. destruct (mark d l); [|done]. destruct Hm. split; [done|cbn; lia].
  - intros m Em. specialize (Hm D_body). cbn in Em, Hm. rewrite Em in Hm. cbn. lia.
Qed.

Lemma loop_safe fuel l : Forall is_byte data -> at_top l -> (length data - p l <= fuel)%nat ->
  exists n l', loop settings data fuel l = Ret (n, l') /\ ended settings data n l'.
Proof.
  intros Hd. revert l. induction fuel as [|fuel IH]; intros l A Hf; cbn [loop]; case_decide as Ep.
  1,3: destruct (finish_safe l A Ep) as (n & l' & -> & He); by eexists _, _.
  - destruct A. lia.
  - destruct A as [G Hp Hc Hb]. destruct (lookup_lt_is_Some_2 data (p l)) as [ch Ech]; [lia|]. rewrite Ech. cbn zeta.
    assert (K : forall l1, good l1 -> p l1 = p l -> body_mark l1 = body_mark l -> chunk_nread 1 l1 ->
      exists n l', (let! f := turn settings data turn_fuel ch l1 in
                    match f with Break l => loop settings data fuel (set_p (S (p l)) l) | f => Ret (returned f) end) = Ret (n, l') /\ ended settings data n l').
    { intros l1 G1 P1 B1 C1. destruct (turn_safe turn_fuel ch l1 Hd) as (f & -> & Hf1); [|done|apply rank_fuel|].
      - constructor; [done|lia|by eapply Forall_lookup_1|]. rewrite B1, P1. apply Hb.
      - cbn [res_bind]. destruct f as [l2|ch2 l2|l2|n l2]; cbn in Hf1; [|done|..].
        + destruct Hf1 as (G2 & P2 & C2). apply IH; [by apply at_top_next; [|lia|]|cbn; lia].
        + destruct Hf1 as (T2 & E2 & P2). unfold returned, on_error. rewrite decide_False by done. eexists _, _. split; [done|].
          split; [done|]. split; [|auto]. split; [done|]. by intros ?.
        + eexists _, _. by split. }
    case_match eqn:Eh.
    + unfold COUNT_HEADER_SIZE. cbn zeta. set (n := u32 (nread (par l) + Z.of_nat 1)). pose proof G as (Hl & _).
      assert (Hn : 0 <= n) by (apply Z.mod_pos_bound; lia). change (nread (par (upd _ l))) with n. case_match eqn:En.
      * cbn. eexists _, _. split; [done|]. apply ended_errno; [done| |cbn; lia]. by apply types_nread, Hl.
      * apply Z.ltb_ge in En. apply (K (upd (set_nread n) l)); [by apply good_nread|done|done|]. intros Es. cbn. subst n. by rewrite Hc.
    + apply K; try done. intros Es. by rewrite Es in Eh.
Qed.

(** *** A call *)
Lemma initial_top q u : parser_ok settings q u -> http_errno q = HPE_OK -> at_top (initial_locals q u).
Proof.
  intros [_ H] He. destruct (H He) as (Hl & Hu & Hc).
  assert (E : par (initial_locals q u) = q /\ usr (initial_locals q u) = u /\ p (initial_locals q u) = 0%nat /\ body_mark (initial_locals q u) = None).
  { unfold initial_locals. by destruct (state_ q). }
  destruct E as (E1 & E2 & E3 & E4). constructor; unfold chunk_nread, CURRENT_STATE; rewrite ?E1, ?E3, ?E4; try done; [|lia].
  split; [by rewrite E1|]. split; [unfold CURRENT_STATE; by rewrite E1, E2|].
  intros d. unfold CURRENT_STATE. rewrite E1. unfold initial_locals. destruct (state_ q), d; cbn; by try split.
Qed.

Lemma execute_safe q u : parser_ok settings q u -> Forall is_byte data ->
  exists n q' u', http_parser_execute settings data q u = Ret (n, q', u') /\ parser_ok settings q' u' /\
    (n <= Nat.max 1 (length data))%nat /\ (n < length data -> http_errno q' <> HPE_OK \/ upgrade q' = true)%nat.
Proof.
  intros Hq Hd. unfold http_parser_execute. case_decide as He; [|exists 0%nat, q, u; repeat (split; [done|]); split; [lia|]; by left].
  assert (E1 : par (initial_locals q u) = q) by (unfold initial_locals; by destruct (state_ q)).
  assert (E2 : usr (initial_locals q u) = u) by (unfold initial_locals; by destruct (state_ q)).
  assert (E3 : p (initial_locals q u) = 0%nat) by (unfold initial_locals; by destruct (state_ q)).
  pose proof (initial_top q u Hq He) as Ht. pose proof Hq as [Hty Hok]. destruct (Hok He) as (Hl & Hu & Hc).
  destruct data as [|b rest] eqn:Ed.
  - destruct (state_ q) eqn:Es; try (exists 0%nat, q, u; repeat (split; [done|]); split; cbn; lia).
    all: try (eexists 1%nat, _, u; split; [done|]; split; [split; [by apply types_errno|by intros ?]|]; split; cbn; [lia|lia]).
    assert (Hc' : forall f u q, on_message_complete settings = Some f -> ready false u -> returns (f u q) (ready false)) by (intros; eapply notify_ready; eauto).
    unfold CALLBACK_NOTIFY_NOADVANCE, CALLBACK_NOTIFY_. rewrite E1, decide_True by done.
    destruct (on_message_complete settings) as [f|] eqn:Ef.
    + rewrite E2. destruct (Hc' f u q eq_refl Hu) as (a & u' & -> & Hu'). cbn [res_bind fst snd].
      case_match; eexists _, _, _; (split; [done|]); cbn -[initial_locals]; rewrite E1, ?E3; (split; [|split; lia]).
      * split; [done|]. intros _. split; [done|]. rewrite Es. done.
      * split; [by apply types_errno|by intros ?].
    + eexists _, _, _. split; [done|]. cbn -[initial_locals]. rewrite E1, E2. split; [|split; lia]. split; [done|]. intros _. by rewrite Es.
  - rewrite <- Ed in *. destruct (loop_safe (length data) (initial_locals q u)) as (n & l & -> & He'); [done|done|lia|].
    cbn [res_bind]. destruct He' as (Hn & Hpo & Hend). eexists _, _, _. split; [done|]. split; [done|]. cbn. split; [lia|]. intros Hlt.
    destruct Hend as [?|?]; [lia|done].
Qed.
End Simple.
