(* ===== verification/HttpCuts.v ===== *)
(** * HTTP parser: the cuts of the input do not matter

    What the parser makes of a byte stream does not depend on how the stream is
    cut into buffers: if the stream is accepted one byte at a time, it is
    accepted in any other cut, with the same final state of the parser and of
    its user.  Only [nread], the count of header bytes, may be smaller: the code
    counts some bytes once more per buffer.  The callbacks are known through the
    interface [Appends]. *)

From S2P Require Import Prelude HttpSyntax HttpExec HttpSafe.
Local Open Scope cpp_scope.
Local Open Scope Z_scope.

(** ** What a user has to promise

    A string given in two pieces is the string given at once, and no callback
    looks at the count of header bytes. *)
Class Appends {U : Type} (settings : http_parser_settings (U := U)) := {
  ap_par d f u q q' a : on_data settings d = Some f -> f u q a = f u q' a;
  ap_app d f u q u1 x y : on_data settings d = Some f -> (d = D_body -> x <> [] /\ y <> []) ->
    f u q x = Ret (0, u1) -> f u1 q y = f u q (x ++ y);
  ap_begin f u q n : on_message_begin settings = Some f -> f u (set_nread n q) = f u q;
  ap_headers f u q n : on_headers_complete settings = Some f -> f u (set_nread n q) = f u q;
  ap_message f u q n : on_message_complete settings = Some f -> f u (set_nread n q) = f u q;
  ap_chunk_header f u q n : on_chunk_header settings = Some f -> f u (set_nread n q) = f u q;
  ap_chunk f u q n : on_chunk_complete settings = Some f -> f u (set_nread n q) = f u q }.

(** After an upgrade the parser has left the HTTP stream. *)
Definition start_like (s : state) : bool := match s with s_start_req | s_start_res | s_dead => true | _ => false end.
Definition exited (q : http_parser) : bool := upgrade q && start_like (state_ q).

Section Cuts.
Context {U : Type} (settings : http_parser_settings (U := U)) {HH : Handler settings} {HA : Appends settings}.
Abbreviation locals := (locals (U := U)).

(** The parser takes the whole of [buf] without an error. *)
Definition accept (buf : list Z) (q : http_parser) (u : U) : option (http_parser * U) :=
  match http_parser_execute settings buf q u with
  | Ret (n, q, u) => if decide (n = length buf /\ http_errno q = HPE_OK) then Some (q, u) else None
  | _ => None
  end.

(** Where a user stops feeding the parser: at the latest after an upgrade. *)
Context (halt : http_parser -> bool) (halt_exited : forall q, exited q = true -> halt q = true)
  (halt_nread : forall n q, halt (set_nread n q) = halt q).

(** The buffers are accepted one after the other, none of them after a stop. *)
Fixpoint feed (bufs : list (list Z)) (q : http_parser) (u : U) : option (http_parser * U) :=
  match bufs with
  | [] => Some (q, u)
  | buf :: bufs =>
      match accept buf q u with
      | Some (q, u) => match bufs with [] => Some (q, u) | _ => if halt q then None else feed bufs q u end
      | None => None
      end
  end.

(** One byte at a time. *)
Definition singly (bs : list Z) : list (list Z) := (fun b => [b]) <$> bs.

(** ** Related states *)

(** The same parser, up to a smaller count. *)
Definition near (q q' : http_parser) : Prop := q = set_nread (nread q) q' /\ nread q <= nread q'.

(** The user gets [x] and goes from [u] to [u']. *)
Definition delivered (d : datum) (u : U) (x : list Z) (u' : U) : Prop :=
  match on_data settings d with None => u' = u | Some f => exists q, f u q x = Ret (0, u') end.

Lemma delivered_app d u x u1 y u2 : (d = D_body -> x <> [] /\ y <> []) ->
  delivered d u x u1 -> delivered d u1 y u2 -> delivered d u (x ++ y) u2.
Proof.
  unfold delivered. intros Hb. destruct (on_data settings d) as [f|] eqn:Ef; [|congruence].
  intros [q Hx] [q' Hy]. exists q. rewrite <- (ap_app d f u q u1 x y Ef Hb Hx), <- Hy. by apply (ap_par d).
Qed.

Lemma delivered_inv d u x u1 y u2 : (d = D_body -> x <> [] /\ y <> []) ->
  delivered d u x u1 -> delivered d u (x ++ y) u2 -> delivered d u1 y u2.
Proof.
  unfold delivered. intros Hb. destruct (on_data settings d) as [f|] eqn:Ef; [|congruence].
  intros [q Hx] [q' Hy]. exists q. rewrite (ap_app d f u q u1 x y Ef Hb Hx), <- Hy. by apply (ap_par d).
Qed.

Lemma delivered_fun d u x u1 u2 : delivered d u x u1 -> delivered d u x u2 -> u1 = u2.
Proof.
  unfold delivered. destruct (on_data settings d) as [f|] eqn:Ef; [|congruence].
  intros [q Hx] [q' Hy]. rewrite (ap_par d f u q q' x Ef), Hy in Hx. congruence.
Qed.

(** An empty piece changes nothing. *)
Lemma delivered_nil d u x u1 u2 : d <> D_body -> delivered d u x u1 -> delivered d u1 [] u2 -> u2 = u1.
Proof.
  intros Hd H1 H2. assert (H3 : delivered d u (x ++ []) u2) by (by apply (delivered_app d u x u1 [] u2)).
  rewrite app_nil_r in H3. by eapply delivered_fun.
Qed.
Lemma delivered_nil_ok d u x u1 : d <> D_body -> delivered d u x u1 -> delivered d u1 [] u1.
Proof.
  intros Hd H1. apply (delivered_inv d u x u1 [] u1); [done|done|]. by rewrite app_nil_r.
Qed.

(** ** Delivering pieces *)
Definition slice (data : list Z) (m i : nat) : list Z := take (i - m) (drop m data).

#[local] Arguments slice : simpl never.

Lemma slice_nil data i : slice data i i = [].
Proof. unfold slice. by rewrite Nat.sub_diag. Qed.
Lemma slice_snoc data m i b : (m <= i)%nat -> data !! i = Some b -> slice data m (S i) = slice data m i ++ [b].
Proof.
  intros Hm Hb. unfold slice. replace (S i - m)%nat with (S (i - m)) by lia. apply take_S_r.
  rewrite lookup_drop. by replace (m + (i - m))%nat with i by lia.
Qed.
Lemma slice_single b : slice [b] 0 1 = [b].
Proof. done. Qed.
Lemma slice_ne data m i : (m < i <= length data)%nat -> slice data m i <> [].
Proof. intros H E. apply (f_equal length) in E. unfold slice in E. rewrite length_take, length_drop in E. cbn in E. lia. Qed.

(** No error on the way. *)
Definition clean (f : flow (U := U)) : Prop :=
  match f with Error _ => False | Return _ l => http_errno (par l) = HPE_OK | _ => True end.

Lemma data_none data d stop er (l : locals) k : http_errno (par l) = HPE_OK -> mark d l = None -> CALLBACK_DATA_ settings data d stop er l k = k l.
Proof. intros He Hm. unfold CALLBACK_DATA_. by rewrite decide_True, Hm by done. Qed.

Lemma data_some data d stop er (l : locals) k m u : http_errno (par l) = HPE_OK -> mark d l = Some m ->
  delivered d (usr l) (slice data m stop) u -> CALLBACK_DATA_ settings data d stop er l k = k (set_mark d None (set_usr u l)).
Proof.
  intros He Hm Hd. unfold CALLBACK_DATA_. rewrite decide_True, Hm by done. unfold delivered in Hd.
  destruct (on_data settings d) as [f|] eqn:Ef; [|subst u; by destruct l, d].
  destruct Hd as [q Hf]. unfold slice in Hf. by rewrite (ap_par d f _ _ q _ Ef), Hf.
Qed.

Lemma data_inv data d stop er (l : locals) k m f : http_errno (par l) = HPE_OK -> mark d l = Some m ->
  CALLBACK_DATA_ settings data d stop er l k = Ret f -> clean f ->
  exists u, delivered d (usr l) (slice data m stop) u /\ k (set_mark d None (set_usr u l)) = Ret f.
Proof.
  intros He Hm. unfold CALLBACK_DATA_, delivered. rewrite decide_True, Hm by done.
  destruct (on_data settings d) as [g|] eqn:Ef.
  - unfold slice. destruct (g (usr l) (par l) _) as [[a u]| | |] eqn:Eg; cbn [res_bind fst snd]; try done.
    case_match; [|intros [= <-]; cbn; intros Hc; by destruct d]. intros Hk _. exists u.
    assert (a = 0) as -> by lia. split; [by exists (par l)|done].
  - intros Hk _. exists (usr l). split; [done|]. by destruct l, d.
Qed.

Lemma data_ext data d stop er (l : locals) k k' : k l = k' l -> (forall u, k (set_mark d None (set_usr u l)) = k' (set_mark d None (set_usr u l))) ->
  CALLBACK_DATA_ settings data d stop er l k = CALLBACK_DATA_ settings data d stop er l k'.
Proof.
  intros H1 H2. unfold CALLBACK_DATA_. case_decide; [|done]. destruct (mark d l); [|done].
  destruct (on_data settings d) as [f|].
  - destruct (f _ _ _) as [[a u]| | |]; cbn; try done. case_match; [apply H2|done].
  - specialize (H2 (usr l)). by destruct l, d.
Qed.

(** What a user is still owed at the end of the input. *)
Definition pending (data : list Z) (l : locals) (u : U) : Prop :=
  match allowed (CURRENT_STATE l) with
  | None => u = usr l
  | Some d => match mark d l with None => u = usr l | Some m => delivered d (usr l) (slice data m (p l)) u end
  end.

Ltac close H :=
  first [done|exact (H D_header_field ltac:(done))|exact (H D_header_value ltac:(done))|exact (H D_url ltac:(done))
        |exact (H D_body ltac:(done))|exact (H D_status ltac:(done))].

Lemma finish_eq data (l : locals) : marks_ok l -> http_errno (par l) = HPE_OK ->
  finish settings data l =
  match allowed (CURRENT_STATE l) with
  | None => Ret (Return (length data) l)
  | Some d => CALLBACK_DATA_NOADVANCE settings data d l (fun l => Ret (Return (length data) l))
  end.
Proof.
  intros Hm He. unfold finish. rewrite decide_True by (by apply marks_set_le_1).
  assert (Ho : forall d, allowed (CURRENT_STATE l) <> Some d -> mark d l = None).
  { intros d Hd. specialize (Hm d). destruct (mark d l); [by destruct Hm|done]. }
  clear Hm. unfold CALLBACK_DATA_NOADVANCE. destruct (allowed (CURRENT_STATE l)) as [d|].
  - destruct d; repeat (rewrite (data_none data) by close Ho); apply data_ext; intros; repeat (rewrite (data_none data) by close Ho); done.
  - by repeat (rewrite (data_none data) by close Ho).
Qed.

Lemma finish_pending data (l : locals) u : marks_ok l -> http_errno (par l) = HPE_OK -> pending data l u ->
  exists l', finish settings data l = Ret (Return (length data) l') /\ par l' = par l /\ usr l' = u.
Proof.
  intros Hm He. unfold pending. rewrite (finish_eq data l Hm He). destruct (allowed (CURRENT_STATE l)) as [d|]; [|intros ->; by eexists].
  unfold CALLBACK_DATA_NOADVANCE. destruct (mark d l) as [m|] eqn:Em.
  - intros Hd. rewrite (data_some data d _ _ l _ m u He Em Hd). eexists. split; [done|]. by destruct d.
  - intros ->. rewrite data_none by done. by eexists.
Qed.

Lemma finish_inv data (l : locals) f : marks_ok l -> http_errno (par l) = HPE_OK -> finish settings data l = Ret f -> clean f ->
  exists l', f = Return (length data) l' /\ par l' = par l /\ pending data l (usr l').
Proof.
  intros Hm He. unfold pending. rewrite (finish_eq data l Hm He). destruct (allowed (CURRENT_STATE l)) as [d|]; [|intros [= <-] _; by eexists].
  unfold CALLBACK_DATA_NOADVANCE. destruct (mark d l) as [m|] eqn:Em.
  - intros Hf Hc. destruct (data_inv data d _ _ l _ m f He Em Hf Hc) as (u & Hu & [= <-]). eexists. split; [done|]. by destruct d.
  - rewrite data_none by done. intros [= <-] _. by eexists.
Qed.

(** ** One byte inside a buffer and alone

    [l] is at position [i] of [data], [l'] at the only byte of a buffer of its
    own.  A string in the middle of which they are started at this byte for
    both, or started at [m] for [l] while the user of [l'] has had it up to here. *)
Section Byte.
Context (data : list Z) (i : nat).

Inductive strings (l l' : locals) : Prop :=
| str_same : usr l = usr l' -> (forall d, mark d l = Nat.add i <$> mark d l') -> strings l l'
| str_pending d m : d <> D_body -> mark d l = Some m -> (m < i)%nat -> delivered d (usr l) (slice data m i) (usr l') ->
    mark d l' = Some 0%nat -> (forall d', d' <> d -> mark d' l = None /\ mark d' l' = None) -> strings l l'.

Record sim (l l' : locals) : Prop := {
  sm_near : near (par l) (par l');
  sm_p : p l = i;
  sm_p' : p l' = 0%nat;
  sm_str : strings l l' }.

Definition flow_sim (f f' : flow (U := U)) : Prop :=
  match f, f' with
  | Break l, Break l' => sim l l'
  | Reexecute c l, Reexecute c' l' => c = c' /\ sim l l'
  | Return n l, Return n' l' => n = (i + n')%nat /\ near (par l) (par l') /\ usr l = usr l' /\ exited (par l') = true
  | _, _ => False
  end.

(** Where the single byte is taken without an error, [r] does the same. *)
Definition rel (r r' : res (flow (U := U))) : Prop := forall f', r' = Ret f' -> clean f' -> exists f, r = Ret f /\ flow_sim f f'.

Lemma rel_fail r e l' : rel r (fail e l').
Proof. by intros f' [= <-]. Qed.
Lemma rel_break l l' : sim l l' -> rel (break l) (break l').
Proof. intros H f' [= <-] _. eexists. by split. Qed.
Lemma rel_again c l l' : sim l l' -> rel (Ret (Reexecute c l)) (Ret (Reexecute c l')).
Proof. intros H f' [= <-] _. eexists. by split. Qed.
Lemma rel_if (b : bool) r1 r2 r1' r2' : (b = true -> rel r1 r1') -> (b = false -> rel r2 r2') ->
  rel (if b then r1 else r2) (if b then r1' else r2').
Proof. destruct b; auto. Qed.
Lemma rel_dec {P Q} (b : {P} + {Q}) r1 r2 r1' r2' : rel r1 r1' -> rel r2 r2' -> rel (if b then r1 else r2) (if b then r1' else r2').
Proof. by destruct b. Qed.
Lemma rel_strict (b : bool) l l' r r' : rel r r' -> rel (STRICT_CHECK b l r) (STRICT_CHECK b l' r').
Proof. intros H. destruct b; [apply rel_fail|done]. Qed.

Lemma rel_notify cb e er er' l l' k k' : (forall f u q n, cb = Some f -> f u (set_nread n q) = f u q) ->
  e <> HPE_OK -> near (par l) (par l') -> usr l = usr l' -> (forall u, rel (k (set_usr u l)) (k' (set_usr u l'))) ->
  rel (CALLBACK_NOTIFY_ cb e er l k) (CALLBACK_NOTIFY_ cb e er' l' k').
Proof.
  intros Hcb He [Hn _] Hu Hk. unfold CALLBACK_NOTIFY_. rewrite Hn, Hu. cbn [http_errno set_nread]. case_decide; [|by intros ?].
  destruct cb as [f|].
  - rewrite (Hcb f _ _ _ eq_refl). destruct (f (usr l') (par l')) as [[a u]| | |]; cbn [res_bind fst snd]; try (by intros ?).
    apply (rel_if (a =? 0)); [intros _; apply Hk|]. intros _ f' [= <-]. by intros ?.
  - specialize (Hk (usr l)). rewrite Hu in Hk at 2. by destruct l, l'.
Qed.

(** *** States between the strings *)
Definition plain (q : http_parser) (u : U) (j : nat) : locals := mkLocals q u j None None None None None.

Context (n : Z) (q : http_parser) (u : U) (b0 b : Z) (Hn : n <= nread q).
Abbreviation L := (plain (set_nread n q) u i).
Abbreviation L' := (plain q u 0).

Ltac the_sim :=
  constructor; [split; [reflexivity|cbn; lia]|reflexivity|reflexivity|apply str_same; [reflexivity|intros []; cbn; rewrite ?Nat.add_0_r; reflexivity]].
Ltac rel_step :=
  first [apply rel_fail|apply rel_break; the_sim|apply rel_again; the_sim
        |refine (rel_strict _ _ _ _ _ _)
        |lazymatch goal with |- rel (if _ then _ else _) _ => first [refine (rel_if _ _ _ _ _ _ _); intros ?|refine (rel_dec _ _ _ _ _ _ _)] end].
Ltac rels := repeat rel_step.

Lemma rel_begin l l' : near (par l) (par l') -> usr l = usr l' -> (forall v, sim (set_usr v l) (set_usr v l')) ->
  rel (CALLBACK_NOTIFY (on_message_begin settings) HPE_CB_message_begin l break) (CALLBACK_NOTIFY (on_message_begin settings) HPE_CB_message_begin l' break).
Proof. intros H1 H2 H3. apply rel_notify; [intros; by apply ap_begin|done|done|done|]. intros v. by apply rel_break. Qed.

Lemma rel_dead : rel (do_dead b L) (do_dead b L').
Proof. unfold do_dead. rels. Qed.
Lemma rel_start_req_or_res : rel (do_start_req_or_res settings b L) (do_start_req_or_res settings b L').
Proof. unfold do_start_req_or_res. rels. apply rel_begin; [split; [done|cbn; lia]|done|]. intros v. the_sim. Qed.
Lemma rel_res_or_resp_H : rel (do_res_or_resp_H b L) (do_res_or_resp_H b L').
Proof. unfold do_res_or_resp_H, goto. rels. Qed.
Lemma rel_start_res : rel (do_start_res settings b L) (do_start_res settings b L').
Proof. unfold do_start_res. cbn zeta. rels; (apply rel_begin; [split; [done|cbn; lia]|done|]; intros v; the_sim). Qed.
Lemma rel_res_version s : rel (do_res_version s b L) (do_res_version s b L').
Proof. unfold do_res_version, goto, digit16. cbn zeta. destruct s; rels. Qed.
Lemma rel_res_status s : s <> s_res_status -> rel (do_res_status settings data s b L) (do_res_status settings [b0] s b L').
Proof. intros Hs. unfold do_res_status, goto, digit16. cbn zeta. destruct s; try done; rels. Qed.

Lemma rel_start_req : rel (do_start_req settings b L) (do_start_req settings b L').
Proof.
  unfold do_start_req. cbn zeta. rels. destruct (first_letter b); [|rels]. apply rel_begin; [split; [done|cbn; lia]|done|]. intros v. the_sim.
Qed.
Lemma rel_req_method : rel (do_req_method b L) (do_req_method b L').
Proof.
  unfold do_req_method. cbn zeta. rels. change (char_at (method_string (method (par L))) (index (par L))) with (char_at (method_string (method q)) (index q)).
  change (char_at (method_string (method (par L'))) (index (par L'))) with (char_at (method_string (method q)) (index q)).
  destruct (char_at _ _) as [c| | |]; cbn [res_bind]; try (by intros ?). rels.
  change (method_branch (method (par L)) (index (par L)) b) with (method_branch (method q) (index q) b).
  change (method_branch (method (par L')) (index (par L')) b) with (method_branch (method q) (index q) b).
  destruct (method_branch _ _ _); rels.
Qed.
Lemma rel_spaces_before_url : rel (do_spaces_before_url b L) (do_spaces_before_url b L').
Proof.
  unfold do_spaces_before_url, url_char. cbn zeta. rels.
  change (decide (method (par (MARK D_url L)) = HTTP_CONNECT)) with (decide (method q = HTTP_CONNECT)).
  change (decide (method (par (MARK D_url L')) = HTTP_CONNECT)) with (decide (method q = HTTP_CONNECT)). destruct (decide (method q = HTTP_CONNECT)); rels.
Qed.
Lemma rel_req_version s : rel (do_req_version s b L) (do_req_version s b L').
Proof. unfold do_req_version, goto, digit16. cbn zeta. destruct s; rels. Qed.
Lemma rel_header_field_start : rel (do_header_field_start b L) (do_header_field_start b L').
Proof. unfold do_header_field_start, goto. cbn zeta. rels. Qed.
Lemma rel_header_value_start : rel (do_header_value_start b L) (do_header_value_start b L').
Proof.
  unfold do_header_value_start. cbn zeta. match goal with |- rel (match ?x with _ => _ end) _ => change x with (header_state q) end.
  match goal with |- rel _ (match ?x with _ => _ end) => change x with (header_state q) end. destruct (header_state q); rels.
Qed.
Lemma rel_header_value_discard_ws : rel (do_header_value_discard_ws b L) (do_header_value_discard_ws b L').
Proof. unfold do_header_value_discard_ws, goto. rels. apply rel_header_value_start. Qed.
Lemma rel_header_almost_done : rel (do_header_almost_done b L) (do_header_almost_done b L').
Proof. unfold do_header_almost_done, goto. rels. Qed.

Lemma header_finished_nread : header_finished (set_nread n q) = set_nread n (header_finished q).
Proof. unfold header_finished. cbn. by destruct (header_state q). Qed.
Lemma header_finished_keeps : nread (header_finished q) = nread q.
Proof. unfold header_finished. by destruct (header_state q). Qed.

Lemma rel_header_value_lws : rel (do_header_value_lws b L) (do_header_value_lws b L').
Proof.
  unfold do_header_value_lws. apply rel_if; intros _; [rels|]. apply rel_again. constructor; [|reflexivity|reflexivity|].
  - unfold UPDATE_STATE, upd. cbn [par set_par plain]. rewrite header_finished_nread. split; [reflexivity|]. cbn. rewrite header_finished_keeps. exact Hn.
  - apply str_same; [reflexivity|by intros []].
Qed.

Lemma rel_header_value_discard_lws : http_errno q = HPE_OK ->
  rel (do_header_value_discard_lws settings data b L) (do_header_value_discard_lws settings [b0] b L').
Proof.
  intros He. unfold do_header_value_discard_lws, goto. apply rel_if; intros _; [rels|]. unfold CALLBACK_DATA_NOADVANCE.
  assert (E1 : upd header_finished L = plain (set_nread n (header_finished q)) u i) by (unfold upd; cbn [par plain]; by rewrite header_finished_nread).
  rewrite E1. set (q1 := header_finished q).
  assert (He1 : http_errno q1 = HPE_OK) by (subst q1; unfold header_finished; by destruct (header_state q)).
  assert (Hn1 : n <= nread q1) by (subst q1; by rewrite header_finished_keeps).
  intros f' Hf Hc. apply (data_inv [b0]) with (m := 0%nat) in Hf as (v & Hv & Hk); [|exact He1|reflexivity|exact Hc].
  unfold slice in Hv. cbn [Nat.sub take drop] in Hv.
  rewrite (data_some data D_header_value _ _ _ _ i v); [|exact He1|reflexivity|by rewrite slice_nil].
  injection Hk as <-. eexists. split; [reflexivity|]. split; [done|].
  constructor; [split; [reflexivity|exact Hn1]|reflexivity|reflexivity|apply str_same; [reflexivity|by intros []]].
Qed.

Lemma rel_message_complete l l' k k' : near (par l) (par l') -> usr l = usr l' ->
  (forall v, rel (k (set_usr v (to_new_message l))) (k' (set_usr v (to_new_message l')))) ->
  rel (message_complete settings l k) (message_complete settings l' k').
Proof.
  intros Hnr Hu Hk. apply rel_notify; [intros; by apply ap_message|done| |done|done].
  destruct Hnr as [E Hle]. cbn. rewrite E. by split.
Qed.

Lemma exited_new_message q1 : upgrade q1 = true -> exited (set_state (NEW_MESSAGE q1) q1) = true.
Proof. intros Hup. unfold exited. cbn. rewrite Hup. cbn. unfold NEW_MESSAGE, start_state. repeat case_match; done. Qed.

Lemma NEW_MESSAGE_nread m q1 : NEW_MESSAGE (set_nread m q1) = NEW_MESSAGE q1.
Proof. reflexivity. Qed.

Lemma rel_return l l' : near (par l) (par l') -> usr l = usr l' -> p l = i -> p l' = 0%nat -> exited (par l') = true ->
  rel (Ret (Return (S (p l)) l)) (Ret (Return (S (p l')) l')).
Proof. intros H1 H2 H3 H4 H5 f' [= <-] _. eexists. split; [reflexivity|]. cbn. rewrite H3, H4. split; [lia|done]. Qed.

Lemma rel_headers_done : rel (do_headers_done settings b L) (do_headers_done settings b L').
Proof.
  assert (K : rel (message_complete settings (upd (set_nread 0) L) break) (message_complete settings (upd (set_nread 0) L') break)).
  { apply rel_message_complete; [split; [reflexivity|cbn; lia]|done|]. intros v. rels. }
  unfold do_headers_done, goto. cbn zeta. rels; try exact K. apply rel_message_complete; [split; [reflexivity|cbn; lia]|done|].
  intros v. apply rel_return; [split; [reflexivity|cbn; lia]|reflexivity..|]. apply (exited_new_message (set_nread 0 q)).
  match goal with E : _ && _ = true |- _ => apply andb_prop in E as [E _]; exact E end.
Qed.

Lemma rel_message_done : rel (do_message_done settings L) (do_message_done settings L').
Proof.
  unfold do_message_done. apply rel_message_complete; [split; [reflexivity|cbn; lia]|done|]. intros v. rels.
  apply rel_return; [split; [reflexivity|cbn; lia]|reflexivity..|]. by apply (exited_new_message q).
Qed.

Lemma rel_next c l l' : http_errno (par l') = HPE_OK -> sim l l' ->
  rel (if decide (http_errno (par l) = HPE_OK) then Ret (Reexecute c l) else Ret (Return (p l) l))
      (if decide (http_errno (par l') = HPE_OK) then Ret (Reexecute c l') else Ret (Return (p l') l')).
Proof.
  intros He Hs. rewrite (decide_True (P := http_errno (par l') = HPE_OK)) by done. rewrite decide_True; [by apply rel_again|].
  destruct Hs as [[E _] _ _ _]. by rewrite E.
Qed.

Lemma rel_headers_almost_done : http_errno q = HPE_OK -> rel (do_headers_almost_done settings b L) (do_headers_almost_done settings b L').
Proof.
  intros He. unfold do_headers_almost_done. cbn zeta. rels.
  - apply rel_notify; [intros; by apply ap_chunk|done|split; [reflexivity|cbn; lia]|done|]. intros v. rels.
  - set (g := fun q0 => set_upgrade _ _). destruct (on_headers_complete settings) as [f|] eqn:Ef.
    + change (f (usr (upd g (UPDATE_STATE s_headers_done L))) (par (upd g (UPDATE_STATE s_headers_done L))))
        with (f u (set_nread n (g (set_state s_headers_done q)))). rewrite (ap_headers f _ _ _ Ef).
      change (f (usr (upd g (UPDATE_STATE s_headers_done L'))) (par (upd g (UPDATE_STATE s_headers_done L'))))
        with (f u (g (set_state s_headers_done q))).
      destruct (f u (g (set_state s_headers_done q))) as [[a v]| | |]; cbn [res_bind fst snd]; try (by intros ?).
      repeat (refine (rel_if _ _ _ _ _ _ _); intros ?); try (apply rel_next; [exact He|the_sim]). by intros f' [= <-].
    + apply rel_next; [exact He|the_sim].
Qed.

Lemma rel_chunk_size s : chunk_size_state s = true -> (s = s_chunk_size_start -> n = nread q) ->
  rel (do_chunk_size settings s b L) (do_chunk_size settings s b L').
Proof.
  intros Hs Hc. unfold do_chunk_size, goto. cbn zeta. rels; [by intros ?|]. destruct s; try done; rels.
  - change (nread (par L)) with n. change (nread (par L')) with (nread q). rewrite <- Hc by done. rels. by intros ?.
  - change (content_length (par (upd (set_nread 0) L))) with (content_length q).
    change (content_length (par (upd (set_nread 0) L'))) with (content_length q).
    destruct (content_length q =? 0); (apply rel_notify; [intros; by apply ap_chunk_header|done|split; [reflexivity|cbn; lia]|done|]; intros v; rels).
Qed.

Lemma rel_chunk_data_done : rel (do_chunk_data settings data s_chunk_data_done b L) (do_chunk_data settings [b0] s_chunk_data_done b L').
Proof.
  unfold do_chunk_data. rels; [by intros ?|]. apply rel_notify; [intros; by apply ap_chunk|done|split; [reflexivity|cbn; lia]|done|]. intros v. rels.
Qed.

Lemma rel_plain : http_errno q = HPE_OK -> allowed (state_ q) = None -> (state_ q = s_chunk_size_start -> n = nread q) ->
  rel (switch settings data b L) (switch settings [b0] b L').
Proof.
  intros He Ha Hc. unfold switch. change (CURRENT_STATE L) with (state_ q). change (CURRENT_STATE L') with (state_ q).
  destruct (state_ q); try done;
    first [apply rel_dead|apply rel_start_req_or_res|apply rel_res_or_resp_H|apply rel_start_res|apply rel_res_version|by apply rel_res_status
          |apply rel_start_req|apply rel_req_method|apply rel_spaces_before_url|apply rel_req_version|apply rel_header_field_start
          |apply rel_header_value_discard_ws|apply rel_header_value_start|apply rel_header_almost_done|apply rel_header_value_lws
          |by apply rel_header_value_discard_lws|by apply rel_headers_almost_done|apply rel_headers_done|apply rel_message_done
          |by apply rel_chunk_size|apply rel_chunk_data_done|unfold goto; rels].
Qed.

(** *** Strings read byte by byte *)
Lemma sim_upd f l l' : sim l l' -> near (f (par l)) (f (par l')) -> sim (upd f l) (upd f l').
Proof.
  intros [_ Hp Hp' Hs] Hnr. constructor; [done|done|done|]. destruct Hs as [Hu Hm|d m Hd H1 H2 H3 H4 H5].
  - apply str_same; [done|]. intros d. rewrite !mark_upd. apply Hm.
  - apply (str_pending _ _ d m); rewrite ?mark_upd; done.
Qed.

(** What ends with this byte is delivered, with nothing for a user who had it byte by byte. *)
Lemma rel_end_string d f er er' l l' : sim l l' -> http_errno (par l') = HPE_OK -> http_errno (f (par l')) = HPE_OK ->
  near (f (par l)) (f (par l')) -> d <> D_body -> mark d l' = Some 0%nat -> (forall d', d' <> d -> mark d' l' = None) ->
  rel (CALLBACK_DATA_ settings data d (p l) er (upd f l) break) (CALLBACK_DATA_ settings [b0] d (p l') er' (upd f l') break).
Proof.
  intros [Hnr Hp Hp' Hs] He0 He Hf Hd Hm Ho f' Hr Hc.
  apply (data_inv [b0]) with (m := 0%nat) in Hr as (v & Hv & [= <-]); [|exact He|by rewrite mark_upd|exact Hc].
  rewrite Hp', slice_nil in Hv. cbn [usr upd set_par] in Hv.
  assert (He2 : http_errno (f (par l)) = HPE_OK) by (destruct Hf as [E _]; by rewrite E).
  assert (K : exists m, mark d l = Some m /\ delivered d (usr l) (slice data m (p l)) v /\ (forall d', d' <> d -> mark d' l = None)).
  { destruct Hs as [Hu Hm'|d2 m Hd2 H1 H2 H3 H4 H5].
    - exists (p l). rewrite (Hm' d), Hm, slice_nil, Hu, Hp. cbn. rewrite Nat.add_0_r. split; [done|]. split; [done|].
      intros d' Hd'. by rewrite Hm', (Ho d' Hd').
    - assert (d2 = d) as ->. { destruct (decide (d2 = d)); [done|]. rewrite Ho in H4; done. }
      exists m. split; [done|]. rewrite Hp. split; [|intros; by apply H5].
      rewrite (delivered_nil d _ _ _ v Hd H3 Hv). done. }
  destruct K as (m & Hml & Hdl & Hol). rewrite (data_some data) with (m := m) (u := v); [|exact He2|by rewrite mark_upd|exact Hdl].
  eexists. split; [done|]. destruct (set_mark_same d None (set_usr v (upd f l))) as (E1 & E2 & E3).
  destruct (set_mark_same d None (set_usr v (upd f l'))) as (E1' & E2' & E3').
  constructor; rewrite ?E1, ?E1', ?E3, ?E3'; try done. apply str_same; [by rewrite E2, E2'|].
  intros d'. destruct (decide (d' = d)) as [->|Hd']; [by rewrite !mark_set|].
  rewrite !mark_set_ne, !mark_usr, !mark_upd, (Ho d' Hd'), (Hol d' Hd') by done. done.
Qed.

Lemma near_state st q1 q2 : near q1 q2 -> near (set_state st q1) (set_state st q2).
Proof. intros [E H]. split; [by rewrite E|done]. Qed.

Record in_string (d : datum) (l l' : locals) : Prop := {
  is_sim : sim l l';
  is_errno : http_errno (par l') = HPE_OK;
  is_body : d <> D_body;
  is_mark : mark d l' = Some 0%nat;
  is_others d' : d' <> d -> mark d' l' = None }.

Lemma near_CURRENT (l l' : locals) : near (par l) (par l') -> CURRENT_STATE l = CURRENT_STATE l'.
Proof. intros [E _]. unfold CURRENT_STATE. by rewrite E. Qed.

Lemma rel_url_char l l' : sim l l' -> rel (url_char b l) (url_char b l').
Proof.
  intros Hs. pose proof (sm_near _ _ Hs) as Hnr. unfold url_char. cbn zeta. rewrite (near_CURRENT l l' Hnr).
  apply rel_dec; [apply rel_fail|]. apply rel_break, sim_upd; [done|by apply near_state].
Qed.

Lemma rel_url l l' : in_string D_url l l' -> rel (do_url settings data b l) (do_url settings [b0] b l').
Proof.
  intros [Hs He Hd Hm Ho]. pose proof (sm_near _ _ Hs) as Hnr. unfold do_url. cbn zeta. apply rel_if; intros _; [|apply rel_if; intros _; [|by apply rel_url_char]].
  - apply (rel_end_string D_url (set_state s_req_http_start) _ _ l l'); try done. by apply near_state.
  - apply (rel_end_string D_url (fun q => set_state _ (set_http_minor 9 (set_http_major 0 q))) _ _ l l'); try done.
    apply near_state. destruct Hnr as [E H]. split; [by rewrite E|done].
Qed.

Lemma rel_url_start l l' : sim l l' -> rel (do_url_start b l) (do_url_start b l').
Proof. intros Hs. unfold do_url_start. apply rel_if; intros _; [apply rel_fail|by apply rel_url_char]. Qed.

Lemma rel_status l l' : in_string D_status l l' -> rel (do_res_status settings data s_res_status b l) (do_res_status settings [b0] s_res_status b l').
Proof.
  intros [Hs He Hd Hm Ho]. pose proof (sm_near _ _ Hs) as Hnr. unfold do_res_status. cbn zeta. repeat (apply rel_if; intros _).
  - apply (rel_end_string D_status (set_state s_res_line_almost_done) _ _ l l'); try done. by apply near_state.
  - apply (rel_end_string D_status (set_state s_header_field_start) _ _ l l'); try done. by apply near_state.
  - by apply rel_break.
Qed.

(** *** A turn *)
Lemma no_marks_plain (l : locals) : no_marks l -> l = plain (par l) (usr l) (p l).
Proof.
  intros H. destruct l as [q1 u1 j hf hv ur bo st]. pose proof (H D_header_field). pose proof (H D_header_value).
  pose proof (H D_url). pose proof (H D_body). pose proof (H D_status). cbn in *. by subst.
Qed.

Lemma sim_plain l l' : sim l l' -> no_marks l' ->
  l' = plain (par l') (usr l') 0 /\ l = plain (set_nread (nread (par l)) (par l')) (usr l') i /\ nread (par l) <= nread (par l').
Proof.
  intros [[E Hle] Hp Hp' Hs] Hn'. split; [rewrite (no_marks_plain l' Hn') at 1; by rewrite Hp'|].
  assert (Hn2 : no_marks l /\ usr l = usr l').
  { destruct Hs as [Hu Hm|d m ? ? ? ? H4 ?]; [|by rewrite Hn' in H4]. split; [|done]. intros d. by rewrite Hm, Hn'. }
  destruct Hn2 as [Hn2 Hu]. split; [|done]. rewrite (no_marks_plain l Hn2) at 1. by rewrite Hp, Hu, <- E.
Qed.
End Byte.

Lemma turn_rel_once data i b l l' fuel c : rel data i (switch settings data c l) (switch settings [b] c l') ->
  (forall c' r, switch settings [b] c l' <> Ret (Reexecute c' r)) ->
  rel data i (turn settings data fuel c l) (turn settings [b] fuel c l').
Proof.
  intros Hr Hno f' Hf Hc. destruct fuel; cbn [turn] in *.
  all: destruct (switch settings [b] c l') as [f2| | |] eqn:E2; cbn [res_bind] in Hf; try done.
  all: destruct f2 as [r|c2 r|r|m r]; try (by exfalso; eapply Hno); injection Hf as <-; try done.
  all: destruct (Hr _ eq_refl Hc) as (f & -> & Hs); cbn [res_bind]; destruct f; try done; by eexists.
Qed.

Lemma turn_plain data i b fuel c n q u : at_byte settings [b] c (plain q u 0) -> chunk_nread 1 (plain q u 0) -> is_byte b ->
  n <= nread q -> (state_ q = s_chunk_size_start -> n = nread q) -> allowed (state_ q) = None ->
  rel data i (turn settings data fuel c (plain (set_nread n q) u i)) (turn settings [b] fuel c (plain q u 0)).
Proof.
  intros A Hch Hb. revert c n q u A Hch. induction fuel as [|fuel IH]; intros c n q u A Hch Hn Hc Ha.
  all: assert (He : http_errno q = HPE_OK) by (destruct A as [(Hl & _) _ _ _]; apply Hl).
  all: pose proof (rel_plain data i n q u b c Hn He Ha Hc) as Hr; intros f' Hf Hcl; cbn [turn] in Hf |- *.
  all: destruct (switch_safe settings [b] c (plain q u 0)) as (f2 & E2 & Hok); [by apply Forall_singleton|done|done|]; rewrite E2 in Hf; cbn [res_bind] in Hf.
  all: destruct f2 as [r|c2 r|r|m r]; try done; try (injection Hf as <-).
  all: try (destruct (Hr _ E2 Hcl) as (f & -> & Hs); destruct f; try done; cbn [res_bind]; by eexists).
  destruct (Hr _ E2 I) as (f & -> & Hs). destruct f as [?|c3 r3|?|? ?]; try done. destruct Hs as [-> Hs]. cbn [res_bind].
  destruct Hok as (Gr & Pr & Bc & _ & Ar & Cr).
  assert (Hnr : no_marks r) by (by apply (good_no_marks settings)).
  destruct (sim_plain data i r3 r Hs Hnr) as (E & E3 & Hle). rewrite E3. rewrite E in Hf.
  refine (IH c2 _ _ _ _ _ Hle _ _ f' Hf Hcl); [|by intros ?|by intros ?|done].
  rewrite <- E. constructor; [done|apply Pr|done|]. intros m Em. pose proof (Hnr D_body). cbn in *. congruence.
Qed.

(** ** A byte on its own *)

(** [COUNT_HEADER_SIZE(1)] at the top of the loop, without overflow. *)
Definition counted (l : locals) : locals :=
  if PARSING_HEADER (CURRENT_STATE l) then upd (fun q => set_nread (nread q + 1) q) l else l.

Definition fits (q : http_parser) : Prop := PARSING_HEADER (state_ q) = true -> nread q + 1 <= HTTP_MAX_HEADER_SIZE.

Lemma u32_small x : 0 <= x < 2 ^ 32 -> u32 x = x.
Proof. apply Z.mod_small. Qed.

(** The top of the loop, when there is a byte. *)
Lemma loop_step data fuel (l : locals) b : types_ok (par l) -> fits (par l) -> data !! p l = Some b ->
  loop settings data (S fuel) l =
  let! f := turn settings data turn_fuel b (counted l) in
  match f with Break r => loop settings data fuel (set_p (S (p r)) r) | f => Ret (returned f) end.
Proof.
  intros Ht Hf Hb. cbn [loop]. pose proof (lookup_lt_Some _ _ _ Hb). rewrite decide_False by lia. rewrite Hb. cbn zeta.
  unfold counted, fits, CURRENT_STATE in *. destruct (PARSING_HEADER (state_ (par l))); [|done].
  specialize (Hf eq_refl). unfold COUNT_HEADER_SIZE. cbn zeta. pose proof (t_nread _ Ht). unfold HTTP_MAX_HEADER_SIZE in *.
  assert (E : upd (fun q => set_nread (u32 (nread q + Z.of_nat 1)) q) l = upd (fun q => set_nread (nread q + 1) q) l).
  { unfold upd. rewrite u32_small by lia. done. }
  rewrite E. cbn [par upd set_par nread set_nread]. rewrite (proj2 (Z.ltb_ge _ _)) by lia. done.
Qed.

Lemma loop_overflow data fuel (l : locals) b : types_ok (par l) -> live (par l) -> ~ fits (par l) -> data !! p l = Some b ->
  exists n l', loop settings data fuel l = Ret (n, l') /\ http_errno (par l') <> HPE_OK.
Proof.
  intros Ht Hl Hf Hb. pose proof (lookup_lt_Some _ _ _ Hb). unfold fits in Hf. destruct (PARSING_HEADER (state_ (par l))) eqn:Eh; [|by destruct Hf].
  assert (Hov : HTTP_MAX_HEADER_SIZE < nread (par l) + 1) by (apply Z.nle_gt; intros ?; by apply Hf). clear Hf.
  pose proof (t_nread _ Ht). pose proof (lv_nread _ Hl). unfold HTTP_MAX_HEADER_SIZE in *.
  destruct fuel; cbn [loop]; rewrite decide_False by lia; rewrite Hb; cbn zeta; unfold CURRENT_STATE; rewrite Eh; unfold COUNT_HEADER_SIZE; cbn zeta.
  all: cbn [par upd set_par nread set_nread]; rewrite u32_small by lia; unfold HTTP_MAX_HEADER_SIZE; rewrite (proj2 (Z.ltb_lt _ _)) by lia; by eexists _, _.
Qed.

Lemma counted_good (l : locals) : fits (par l) -> good settings l -> good settings (counted l).
Proof.
  intros Hf G. unfold counted. destruct (PARSING_HEADER (CURRENT_STATE l)) eqn:E; [|done]. apply (good_nread settings (nread (par l) + 1)); [|done].
  destruct G as (Hl & _). split; [|by apply Hf]. destruct (lv_types _ Hl). lia.
Qed.

Lemma counted_same (l : locals) : usr (counted l) = usr l /\ p (counted l) = p l /\ CURRENT_STATE (counted l) = CURRENT_STATE l /\ (forall d, mark d (counted l) = mark d l).
Proof. unfold counted. destruct (PARSING_HEADER (CURRENT_STATE l)); (split; [|split; [|split]]); done. Qed.

Lemma counted_chunk (l : locals) : chunk_nread 0 l -> chunk_nread 1 (counted l).
Proof. unfold chunk_nread, counted. intros H. destruct (PARSING_HEADER (CURRENT_STATE l)) eqn:E; intros Es; [cbn in *; rewrite H by done; done|by rewrite Es in E]. Qed.

Lemma at_byte_counted data (l : locals) b : at_top settings data l -> fits (par l) -> data !! p l = Some b -> is_byte b ->
  at_byte settings data b (counted l) /\ chunk_nread 1 (counted l).
Proof.
  intros [G Hp Hc Hb] Hf Hd Hbyte. pose proof (lookup_lt_Some _ _ _ Hd). destruct (counted_same l) as (Eu & Ep & Es & Em).
  split; [|by apply counted_chunk]. constructor; [by apply counted_good|by rewrite Ep|done|]. intros m E. rewrite Ep. apply Hb.
  change (mark D_body (counted l) = Some m) in E. by rewrite Em in E.
Qed.

(** What it means for a byte to be accepted. *)
Record byte_run (b : Z) (q : http_parser) (u : U) (q1 : http_parser) (u1 : U) : Prop := {
  br_fits : fits q;
  br_turn : exists f, turn settings [b] turn_fuel b (counted (initial_locals q u)) = Ret f /\ clean f /\
              match f with
              | Break r => good settings r /\ p r = 0%nat /\ par r = q1 /\ pending [b] (set_p 1 r) u1
              | Return n r => n = 1%nat /\ par r = q1 /\ usr r = u1
              | _ => False
              end;
  br_ok : parser_ok settings q1 u1;
  br_errno : http_errno q1 = HPE_OK }.

Lemma byte_inv b q u q1 u1 : parser_ok settings q u -> http_errno q = HPE_OK -> is_byte b -> accept [b] q u = Some (q1, u1) -> byte_run b q u q1 u1.
Proof.
  intros Hq He Hb. unfold accept. destruct (execute_safe settings [b] q u Hq) as (n & q' & u' & E & Hok & _); [by apply Forall_singleton|].
  rewrite E. case_decide as Hd; [|done]. destruct Hd as [-> He1]. intros [= <- <-].
  pose proof (initial_top settings [b] q u Hq He) as Htop. pose proof (proj2 Hq He) as (Hl & _).
  assert (E1 : par (initial_locals q u) = q) by (unfold initial_locals; by destruct (state_ q)).
  assert (E0 : [b] !! p (initial_locals q u) = Some b) by (unfold initial_locals; by destruct (state_ q)).
  unfold http_parser_execute in E. rewrite decide_True in E by done. change (length [b]) with 1%nat in E.
  destruct (decide (PARSING_HEADER (state_ q) = true -> nread q + 1 <= HTTP_MAX_HEADER_SIZE)) as [Hf|Hf].
  2:{ destruct (loop_overflow [b] 1 (initial_locals q u) b) as (n & l' & El & Hl'); rewrite ?E1; try done; [apply Hl|].
      rewrite El in E. unfold answer in E. cbn in E. congruence. }
  rewrite (loop_step [b] 0 _ b) in E; rewrite ?E1; [|apply Hl|done|done].
  destruct (at_byte_counted [b] (initial_locals q u) b Htop) as [Ab Ac]; rewrite ?E1; try done.
  destruct (turn_safe settings [b] turn_fuel b (counted (initial_locals q u))) as (f & Ef & Hturn); [by apply Forall_singleton|done|done|apply rank_fuel|].
  rewrite Ef in E. cbn [res_bind] in E. constructor; try done. exists f. split; [done|].
  destruct f as [r|c r|r|n r]; cbn in Hturn; [|done|..].
  - destruct Hturn as (Gr & Pr & Cr). split; [done|]. cbn [length] in Pr. assert (Ep : p r = 0%nat) by lia.
    pose proof (at_top_next settings [b] r Gr ltac:(cbn; lia) Cr) as Hnext. rewrite Ep in Hnext, E. cbn [loop] in E. rewrite decide_True in E by done.
    destruct (finish_safe settings [b] _ Hnext eq_refl) as (n & l2 & El & _). rewrite El in E. cbn in E. unfold answer in E. cbn in E. injection E as <- Eq Eu.
    assert (Hmk : marks_ok (set_p 1 r)) by apply Hnext.
    destruct (finish_inv [b] (set_p 1 r) (Return n l2) Hmk) as (l3 & [= -> <-] & Epar & Hpend); [apply Gr|done|cbn; by rewrite Eq|].
    cbn in Epar. split; [done|]. split; [done|]. split; [congruence|]. by rewrite <- Eu.
  - unfold returned, on_error in E. rewrite decide_False in E by apply Hturn. unfold answer in E. cbn in E. injection E as _ <- _. by destruct Hturn as (_ & ? & _).
  - unfold answer in E. cbn in E. injection E as -> <- <-. done.
Qed.

(** ** A run inside a buffer and byte by byte *)
Section Run.
Context (data : list Z) (Hdata : Forall is_byte data) (qf : http_parser) (uf : U).

(** What the user of the bytewise run already has. *)
Definition owed (l : locals) (u : U) : Prop :=
  match allowed (CURRENT_STATE l) with
  | None => u = usr l
  | Some d => match mark d l with
              | None => u = usr l
              | Some m => (m < p l)%nat /\ delivered d (usr l) (slice data m (p l)) u \/ p l = 0%nat /\ u = usr l
              end
  end.

Record top_sim (i : nat) (l : locals) (q : http_parser) (u : U) : Prop := {
  ts_near : near (par l) q;
  ts_p : p l = i;
  ts_top : at_top settings data l;
  ts_owed : owed l u;
  ts_ok : parser_ok settings q u;
  ts_errno : http_errno q = HPE_OK }.

(** The rest of the bytewise run. *)
Definition rest_run (i : nat) (q : http_parser) (u : U) : Prop := feed (singly (drop i data)) q u = Some (qf, uf).

(** A turn keeps up with the bytewise run. *)
Definition advanced (i : nat) (f : flow (U := U)) : Prop :=
  match f with
  | Break r => exists q u, top_sim (S (p r)) (set_p (S (p r)) r) q u /\ (i <= p r)%nat /\ rest_run (S (p r)) q u
  | Return n r => n = length data /\ near (par r) qf /\ usr r = uf
  | _ => False
  end.

Lemma rest_cons i b q u : rest_run i q u -> data !! i = Some b -> parser_ok settings q u -> http_errno q = HPE_OK ->
  exists q1 u1, byte_run b q u q1 u1 /\ rest_run (S i) q1 u1 /\ (S i = length data \/ exited q1 = false).
Proof.
  unfold rest_run. intros Hr Hb Hok He. rewrite (drop_S _ _ _ Hb) in Hr. cbn [singly fmap list_fmap feed] in Hr.
  destruct (accept [b] q u) as [[q1 u1]|] eqn:Ea; [|done]. exists q1, u1.
  assert (Hbyte : is_byte b) by (by eapply Forall_lookup_1). split; [by apply byte_inv|]. unfold singly.
  destruct (drop (S i) data) as [|b2 bs] eqn:Ed.
  - cbn in Hr |- *. split; [done|]. left. apply (f_equal length) in Ed. rewrite length_drop in Ed. pose proof (lookup_lt_Some _ _ _ Hb). cbn in Ed. lia.
  - cbn [fmap list_fmap] in Hr |- *. destruct (halt q1) eqn:Ex; [done|]. split; [done|]. right. destruct (exited q1) eqn:Ex2; [|done]. by rewrite halt_exited in Ex.
Qed.

Lemma near_types q q' : near q q' -> http_errno q = http_errno q' /\ state_ q = state_ q' /\ upgrade q = upgrade q'.
Proof. intros [E _]. rewrite E. done. Qed.

Lemma near_fits q q' : near q q' -> fits q' -> fits q.
Proof. intros H Hf. unfold fits in *. destruct (near_types _ _ H) as (_ & -> & _). intros Hp. specialize (Hf Hp). destruct H. lia. Qed.

Lemma near_counted (l l' : locals) : near (par l) (par l') -> near (par (counted l)) (par (counted l')).
Proof.
  intros H. pose proof (near_CURRENT _ _ H) as Es. unfold counted. rewrite Es. destruct (PARSING_HEADER (CURRENT_STATE l')); [|done].
  destruct H as [E H]. cbn. split; [by rewrite E|cbn; lia].
Qed.

Lemma initial_same q (u : U) : par (initial_locals q u) = q /\ usr (initial_locals q u) = u /\ p (initial_locals q u) = 0%nat.
Proof. unfold initial_locals. by destruct (state_ q). Qed.

Lemma initial_marks q (u : U) d : allowed (state_ q) <> Some D_body ->
  mark d (initial_locals q u) = if decide (allowed (state_ q) = Some d) then Some 0%nat else None.
Proof. intros Hb. unfold initial_locals. by destruct (state_ q), d. Qed.

Lemma initial_sim i l q u : top_sim i l q u -> allowed (state_ q) <> Some D_body ->
  sim data i (counted l) (counted (initial_locals q u)).
Proof.
  intros [Hn Hp [(Hl & _ & Hm) _ _ _] Ho Hok He] Hb. destruct (counted_same l) as (Eu & Ep & Es & Em).
  destruct (counted_same (initial_locals q u)) as (Eu' & Ep' & Es' & Em'). destruct (initial_same q u) as (I1 & I2 & I3).
  constructor; [apply near_counted; by rewrite I1|by rewrite Ep|by rewrite Ep'|].
  assert (Hst : CURRENT_STATE l = state_ q) by (unfold CURRENT_STATE; apply (near_types _ _ Hn)).
  unfold owed in Ho. rewrite Hst in Ho. unfold marks_ok in Hm. rewrite Hst in Hm. destruct (allowed (state_ q)) as [d|] eqn:Ea.
  - pose proof (Hm d) as Hmd. destruct (mark d l) as [m|] eqn:Emd; [|specialize (Hmd eq_refl); congruence].
    assert (Hothers : forall d', d' <> d -> mark d' l = None).
    { intros d' Hd'. specialize (Hm d'). destruct (mark d' l); [destruct Hm; congruence|done]. }
    destruct Ho as [[Hlt Hdel]|[H0 ->]].
    + apply (str_pending _ _ _ _ d m); rewrite ?Em, ?Em', ?Eu, ?Eu', ?I2; try done; [congruence|lia|by rewrite <- Hp| |].
      * rewrite initial_marks, Ea, decide_True by (rewrite ?Ea; done). done.
      * intros d' Hd'. rewrite Em, Em', (Hothers d' Hd'), initial_marks, Ea, decide_False by (rewrite ?Ea; congruence). done.
    + apply str_same; [by rewrite Eu, Eu', I2|]. intros d'. rewrite Em, Em', initial_marks, Ea by (by rewrite Ea).
      case_decide as Hdd; [injection Hdd as <-|].
      * rewrite Emd. cbn. f_equal. lia.
      * rewrite (Hothers d') by congruence. done.
  - subst u. apply str_same; [by rewrite Eu, Eu', I2|]. intros d'. rewrite Em, Em', initial_marks, Ea by (by rewrite Ea).
    rewrite decide_False by done. specialize (Hm d'). destruct (mark d' l); [by destruct Hm|done].
Qed.

(** A byte of the input and the same byte on its own. *)
Record meets (i : nat) (l : locals) (q : http_parser) (u : U) (b : Z) (q1 : http_parser) (u1 : U) : Prop := {
  me_top : top_sim i l q u;
  me_byte : data !! i = Some b;
  me_run : byte_run b q u q1 u1;
  me_rest : rest_run (S i) q1 u1;
  me_exit : S i = length data \/ exited q1 = false }.

Lemma meets_at_byte i l q u b q1 u1 : meets i l q u b q1 u1 ->
  at_byte settings data b (counted l) /\ chunk_nread 1 (counted l) /\ fits (par l) /\
  at_byte settings [b] b (counted (initial_locals q u)) /\ chunk_nread 1 (counted (initial_locals q u)).
Proof.
  intros [Ht Hb Hr _ _]. assert (Hbyte : is_byte b) by (by eapply Forall_lookup_1). destruct (initial_same q u) as (I1 & I2 & I3).
  assert (Hf : fits (par l)) by (eapply near_fits; [apply Ht|apply Hr]).
  destruct (at_byte_counted data l b (ts_top _ _ _ _ Ht) Hf) as [A1 A2]; [rewrite (ts_p _ _ _ _ Ht); done|done|].
  destruct (at_byte_counted [b] (initial_locals q u) b) as [A3 A4]; [apply initial_top; [exact (ts_ok _ _ _ _ Ht)|exact (ts_errno _ _ _ _ Ht)]|rewrite I1; apply Hr|by rewrite I3|done|]. done.
Qed.

(** The relation of the turns is kept up to the next byte. *)
Lemma owed_next i r r' b u1 : sim data i r r' -> data !! i = Some b -> marks_ok r' ->
  pending [b] (set_p 1 r') u1 -> owed (set_p (S i) r) u1.
Proof.
  intros [Hn Hp Hp' Hs] Hb Hm Hpend. unfold owed, pending in *. change (CURRENT_STATE (set_p ?n ?x)) with (CURRENT_STATE x) in *.
  rewrite (near_CURRENT _ _ Hn). unfold marks_ok in Hm.
  assert (Hsl : slice data i (S i) = [b]) by (rewrite (slice_snoc data i i b), slice_nil by done; done).
  destruct Hs as [Hu Hmk|d m Hd H1 H2 H3 H4 H5].
  - destruct (allowed (CURRENT_STATE r')) as [d|]; [|cbn in *; congruence]. rewrite mark_p in Hpend |- *. rewrite Hmk.
    specialize (Hm d). destruct (mark d r') as [m'|]; [|cbn in *; congruence]. destruct Hm as [_ Hm]. assert (m' = 0%nat) as -> by lia.
    cbn in Hpend |- *. rewrite slice_single in Hpend. left. rewrite Nat.add_0_r. split; [lia|]. rewrite Hsl, Hu. done.
  - pose proof (Hm d) as Hmd. rewrite H4 in Hmd. destruct Hmd as [Ha _]. rewrite Ha in *. rewrite mark_p in Hpend |- *. rewrite H4 in Hpend. rewrite H1.
    left. cbn in Hpend |- *. rewrite slice_single in Hpend. split; [lia|]. rewrite (slice_snoc data m i b) by (lia || done).
    by apply (delivered_app d _ _ (usr r')).
Qed.

(** From the relation of the last byte of a turn to the next turn. *)
Lemma advanced_of_sim i e f f' b q1 u1 : turn_ok settings data i f -> (i <= e)%nat -> data !! e = Some b -> flow_sim data e f f' ->
  match f' with
  | Break r => good settings r /\ p r = 0%nat /\ par r = q1 /\ pending [b] (set_p 1 r) u1
  | Return n r => n = 1%nat /\ par r = q1 /\ usr r = u1
  | _ => False
  end -> parser_ok settings q1 u1 -> http_errno q1 = HPE_OK -> rest_run (S e) q1 u1 -> S e = length data \/ exited q1 = false ->
  advanced i f.
Proof.
  intros Hsafe Hie Hb Hs Hf' Hok1 He1 Hrest Hex. pose proof (lookup_lt_Some _ _ _ Hb) as Hlt.
  destruct f' as [r'|?|?|n' r'], f as [r|?|?|n r]; try done.
  - destruct Hf' as (Gr & Pr & <- & Hpend). destruct Hsafe as (G & P & C). cbn in Hs. pose proof (sm_p _ _ _ _ Hs) as Pi.
    exists (par r'), u1. rewrite Pi. split; [|split; [done|done]]. constructor; [apply Hs|done| |by eapply owed_next; [..|apply Gr|]|done|done].
    pose proof (at_top_next settings data r G ltac:(lia) C) as H. by rewrite Pi in H.
  - destruct Hf' as (-> & <- & <-). cbn in Hs. destruct Hs as (-> & Hn & Hu & Hx). destruct Hex as [Hlen|Hx2]; [|congruence].
    cbn. unfold rest_run in Hrest. rewrite drop_ge in Hrest by lia. cbn in Hrest. injection Hrest as <- <-. split; [lia|]. done.
Qed.

Lemma step_of_rel i l q u b q1 u1 : meets i l q u b q1 u1 ->
  rel data i (turn settings data turn_fuel b (counted l)) (turn settings [b] turn_fuel b (counted (initial_locals q u))) ->
  exists f, turn settings data turn_fuel b (counted l) = Ret f /\ advanced i f.
Proof.
  intros Hme Hr. destruct (meets_at_byte _ _ _ _ _ _ _ Hme) as (A1 & A2 & _). destruct Hme as [Ht Hb Hrun Hrest Hex].
  destruct Hrun as [_ (f' & Ef & Hc & Hf') Hok1 He1]. destruct (Hr f' Ef Hc) as (f & E & Hs). exists f. split; [done|].
  destruct (turn_safe settings data turn_fuel b (counted l) Hdata A1 A2 (rank_fuel _)) as (f2 & E2 & Hsafe). assert (f2 = f) as -> by congruence.
  destruct (counted_same l) as (_ & Cp & _). rewrite Cp, (ts_p _ _ _ _ Ht) in Hsafe. by eapply advanced_of_sim.
Qed.

(** Bytes outside of the loops of the parser. *)
Definition one_byte (s : state) : bool :=
  match s with s_header_field | s_header_value => false | _ => match allowed s with Some D_body => false | _ => true end end.

Lemma switch_rel i l q u b q1 u1 : meets i l q u b q1 u1 -> one_byte (state_ q) = true -> allowed (state_ q) <> None ->
  rel data i (switch settings data b (counted l)) (switch settings [b] b (counted (initial_locals q u))).
Proof.
  intros [Ht Hb Hrun Hrest Hex] Ho Ha. assert (Hnb : allowed (state_ q) <> Some D_body) by (by destruct (state_ q)).
  pose proof (initial_sim i l q u Ht Hnb) as Hs. destruct (counted_same l) as (_ & _ & Es & _).
  destruct (counted_same (initial_locals q u)) as (_ & _ & Es' & Em'). destruct (initial_same q u) as (I1 & I2 & I3).
  assert (E1 : CURRENT_STATE (counted l) = state_ q) by (rewrite Es; apply (near_types _ _ (ts_near _ _ _ _ Ht))).
  assert (E2 : CURRENT_STATE (counted (initial_locals q u)) = state_ q) by (rewrite Es'; unfold CURRENT_STATE; by rewrite I1).
  assert (He : http_errno (par (counted (initial_locals q u))) = HPE_OK).
  { unfold counted. destruct (PARSING_HEADER _); cbn; rewrite I1; exact (ts_errno _ _ _ _ Ht). }
  assert (Hin : forall d, allowed (state_ q) = Some d -> in_string data i d (counted l) (counted (initial_locals q u))).
  { intros d Hd. constructor; [done|done|congruence| |].
    - rewrite Em', initial_marks, decide_True; done.
    - intros d' Hd'. rewrite Em', initial_marks, decide_False; [done|congruence|done]. }
  unfold switch. rewrite E1, E2. destruct (state_ q); try done;
    first [apply rel_url_start; exact Hs|apply rel_url; by apply Hin|apply rel_status; by apply Hin].
Qed.

Lemma one_byte_step i l q u b q1 u1 : meets i l q u b q1 u1 -> one_byte (state_ q) = true ->
  exists f, turn settings data turn_fuel b (counted l) = Ret f /\ advanced i f.
Proof.
  intros Hme Ho. apply (step_of_rel _ _ _ _ _ _ _ Hme). destruct (meets_at_byte _ _ _ _ _ _ _ Hme) as (A1 & A2 & _ & A3 & A4).
  destruct (allowed (state_ q)) as [d|] eqn:Ea.
  - apply turn_rel_once; [by eapply switch_rel; [| |rewrite Ea]|]. intros c r E.
    assert (Hbyte : is_byte b) by (destruct Hme; by eapply Forall_lookup_1).
    destruct (switch_safe settings [b] b _ (proj2 (Forall_singleton _ _) Hbyte) A3 A4) as (f & Ef & Hf). rewrite Ef in E. injection E as ->.
    destruct Hf as (_ & _ & _ & Hrank & _). destruct (counted_same (initial_locals q u)) as (_ & _ & Es' & _). rewrite Es' in Hrank.
    unfold CURRENT_STATE in Hrank. destruct (initial_same q u) as (I1 & _). rewrite I1 in Hrank. destruct (state_ q); done || (cbn in Hrank; lia).
  - pose proof (initial_sim i l q u (me_top _ _ _ _ _ _ _ Hme) ltac:(by rewrite Ea)) as Hs.
    assert (Hnm : no_marks (counted (initial_locals q u))).
    { intros d. destruct (counted_same (initial_locals q u)) as (_ & _ & _ & Em'). rewrite Em', initial_marks, Ea, decide_False by (by rewrite ?Ea). done. }
    destruct (sim_plain data i _ _ Hs Hnm) as (E' & E & Hle). rewrite E, E'. destruct (initial_same q u) as (I1 & _).
    assert (Est : state_ (par (counted (initial_locals q u))) = state_ q).
    { destruct (counted_same (initial_locals q u)) as (_ & _ & Es' & _). unfold CURRENT_STATE in Es'. by rewrite Es', I1. }
    apply turn_plain; [by rewrite <- E'|by rewrite <- E'|destruct Hme; by eapply Forall_lookup_1|done| |by rewrite Est].
    intros Ec. assert (Es : state_ (par (counted l)) = s_chunk_size_start) by (rewrite <- Ec; apply (near_CURRENT _ _ (sm_near _ _ _ _ Hs))).
    rewrite (A2 Es), (A4 Ec). done.
Qed.

(** *** Turns that take several bytes *)

(** [r] is where the bytewise run is after the byte at [p r]. *)
Definition caught (i : nat) (r : locals) : Prop :=
  exists q u, near (par r) q /\ owed (set_p (S (p r)) r) u /\ parser_ok settings q u /\ http_errno q = HPE_OK /\
              (i <= p r)%nat /\ rest_run (S (p r)) q u.

Lemma advanced_break i l b r : at_byte settings data b (counted l) -> chunk_nread 1 (counted l) ->
  turn settings data turn_fuel b (counted l) = Ret (Break r) -> caught i r ->
  exists f, turn settings data turn_fuel b (counted l) = Ret f /\ advanced i f.
Proof.
  intros A1 A2 E (q & u & Hn & Ho & Hok & He & Hi & Hr). exists (Break r). split; [done|].
  destruct (turn_safe settings data turn_fuel b (counted l) Hdata A1 A2 (rank_fuel _)) as (f & Ef & Hs). rewrite E in Ef. injection Ef as <-.
  destruct Hs as (G & P & C). exists q, u. split; [|done]. constructor; try done. apply at_top_next; [done|lia|done].
Qed.

Lemma count_ok v (l : locals) k : 0 <= nread (par l) -> nread (par l) + Z.of_nat v <= HTTP_MAX_HEADER_SIZE ->
  count v l k = k (upd (set_nread (nread (par l) + Z.of_nat v)) l).
Proof.
  intros H0 H1. unfold count, COUNT_HEADER_SIZE. cbn zeta. unfold HTTP_MAX_HEADER_SIZE in *. cbn [par upd set_par nread set_nread].
  rewrite u32_small by lia. rewrite (proj2 (Z.ltb_ge _ _)) by lia. unfold upd. by rewrite u32_small by lia.
Qed.

Lemma count_inv v (l : locals) k f : 0 <= nread (par l) -> nread (par l) + Z.of_nat v < 2 ^ 32 -> count v l k = Ret f -> clean f ->
  nread (par l) + Z.of_nat v <= HTTP_MAX_HEADER_SIZE /\ k (upd (set_nread (nread (par l) + Z.of_nat v)) l) = Ret f.
Proof.
  intros H0 H1 E Hc. destruct (decide (nread (par l) + Z.of_nat v <= HTTP_MAX_HEADER_SIZE)) as [Hle|Hgt].
  - split; [done|]. by rewrite count_ok in E.
  - exfalso. unfold count, COUNT_HEADER_SIZE in E. cbn zeta in E. cbn [par upd set_par nread set_nread] in E.
    rewrite u32_small in E by lia. rewrite (proj2 (Z.ltb_lt _ _)) in E by lia. by injection E as <-.
Qed.

Lemma field_char_nread ch c n q q' : field_char ch c q = Ret q' -> field_char ch c (set_nread n q) = Ret (set_nread n q').
Proof.
  unfold field_char. cbn [header_state set_nread]. destruct (header_state q); cbn zeta; try done; intros [= <-]; try reflexivity; by case_match.
Qed.
Lemma field_char_keeps ch c q q' : field_char ch c q = Ret q' -> nread q' = nread q /\ http_errno q' = http_errno q /\ state_ q' = state_ q.
Proof. unfold field_char. destruct (header_state q); cbn zeta; try done; intros [= <-]; try done; by case_match. Qed.

Lemma counted_initial q u d : allowed (state_ q) = Some d -> d <> D_body ->
  counted (initial_locals q u) = set_mark d (Some 0%nat) (plain (set_nread (nread q + 1) q) u 0).
Proof.
  intros Ha Hd. unfold counted, initial_locals, CURRENT_STATE.
  destruct (state_ q) eqn:E; try done; injection Ha as <-; try done; cbn; rewrite E; reflexivity.
Qed.

Lemma turn_switch dat k c (l : locals) f : turn settings dat (S k) c l = Ret f ->
  exists f0, switch settings dat c l = Ret f0 /\ match f0 with Reexecute c r => turn settings dat k c r = Ret f | _ => f0 = f end.
Proof.
  cbn [turn]. destruct (switch settings dat c l) as [f0| | |]; cbn [res_bind]; try done. intros H. exists f0. split; [done|].
  destruct f0; try done; congruence.
Qed.

(** A byte of a header field on its own. *)
Lemma byte_field b q u q1 u1 : byte_run b q u q1 u1 -> parser_ok settings q u -> http_errno q = HPE_OK -> state_ q = s_header_field ->
  (TOKEN b <> 0 /\ exists q2, field_char b (TOKEN b) q = Ret q2 /\ q1 = set_nread (nread q + 2) q2 /\ delivered D_header_field u [b] u1) \/
  (TOKEN b = 0 /\ b = COLON /\ q1 = set_state s_header_value_discard_ws (set_nread (nread q + 1) q) /\ delivered D_header_field u [] u1).
Proof.
  intros [Hf (f & Ef & Hc & Hf2) Hok1 He1] Hok He Es. destruct (proj2 Hok He) as (Hl & _). pose proof (t_nread _ (lv_types _ Hl)) as Hn0.
  assert (Hn1 : nread q + 1 <= HTTP_MAX_HEADER_SIZE) by (apply Hf; by rewrite Es). pose proof (lv_nread _ Hl).
  unfold HTTP_MAX_HEADER_SIZE in *.
  rewrite (counted_initial q u D_header_field) in Ef; [|by rewrite Es|done].
  apply turn_switch in Ef as (f0 & Ef0 & Hff). unfold switch in Ef0. unfold CURRENT_STATE in Ef0. cbn [set_mark plain par state_ set_nread] in Ef0.
  rewrite Es in Ef0. unfold do_header_field in Ef0. cbn [p set_mark plain drop field_loop] in Ef0.
  assert (Hc0 : clean f0) by (destruct f0; (done || by subst f)).
  destruct (field_char_ok b (TOKEN b) q Hl Es) as (q2 & Eq2 & Hl2 & Es2).
  destruct (Z.eqb_spec (TOKEN b) 0) as [Et|Et].
  - right. cbn [res_bind] in Ef0. apply count_inv in Ef0 as [_ Ef0]; [|cbn; lia|cbn; lia|done]. cbn [p upd set_par lookup list_lookup] in Ef0.
    destruct (Z.eqb_spec b COLON) as [->|Hb]; [|by injection Ef0 as <-].
    apply (data_inv [COLON]) with (m := 0%nat) in Ef0 as (v & Hv & [= <-]); [|done|done|done]. subst f. destruct Hf2 as (_ & _ & <- & Hp).
    split; [done|]. split; [done|]. cbn in Hp. subst v. split; [cbn; by rewrite Z.add_0_r|]. exact Hv.
  - left. split; [done|]. exists q2. split; [done|]. cbn [par set_mark plain] in Ef0. rewrite (field_char_nread _ _ _ _ _ Eq2) in Ef0. cbn [res_bind] in Ef0.
    destruct (field_char_keeps _ _ _ _ Eq2) as (K1 & K2 & K3).
    apply count_inv in Ef0 as [_ Ef0]; [|cbn; lia|cbn; lia|done]. cbn [p upd set_par set_p lookup list_lookup] in Ef0. injection Ef0 as <-.
    subst f. destruct Hf2 as (_ & _ & <- & Hp). split; [cbn; rewrite <- Z.add_assoc; done|]. unfold pending, CURRENT_STATE in Hp. cbn in Hp.
    rewrite K3, Es in Hp. exact Hp.
Qed.

(** The bytewise user has the string [d] from [m] to [j]. *)
Definition held (d : datum) (u0 : U) (m j : nat) (u : U) : Prop :=
  (m < j)%nat /\ delivered d u0 (slice data m j) u \/ m = j /\ u = u0.

Lemma held_snoc d u0 m j u b u1 : held d u0 m j u -> data !! j = Some b -> delivered d u [b] u1 -> held d u0 m (S j) u1.
Proof.
  intros Hh Hb Hd. pose proof (lookup_lt_Some _ _ _ Hb). left. destruct Hh as [[Hlt Hh]|[-> ->]].
  - split; [lia|]. rewrite (slice_snoc data m j b) by (lia || done). apply (delivered_app d _ _ u); [|done|done].
    intros _. split; [|done]. apply slice_ne. lia.
  - split; [lia|]. by rewrite (slice_snoc data j j b), slice_nil by done.
Qed.

Lemma held_end d u0 m j u v : held d u0 m j u -> d <> D_body -> delivered d u [] v -> delivered d u0 (slice data m j) v.
Proof.
  intros [[Hlt Hh]|[-> ->]] Hd Hv; [|by rewrite slice_nil]. by rewrite (delivered_nil d _ _ _ v Hd Hh Hv).
Qed.

(** In the middle of the string [d], which started at [m]. *)
Record inside (d : datum) (i : nat) (l : locals) (q : http_parser) (u : U) (m : nat) : Prop := {
  in_near : near (par l) q;
  in_p : p l = i;
  in_m : (m <= i)%nat;
  in_mark : mark d l = Some m;
  in_others d' : d' <> d -> mark d' l = None;
  in_held : held d (usr l) m i u;
  in_fits : fits q;
  in_at : at_byte settings data (default 0 (data !! i)) (counted l);
  in_chunk : chunk_nread 1 (counted l) }.

Lemma top_inside d i l q u b : top_sim i l q u -> rest_run i q u -> data !! i = Some b -> allowed (state_ q) = Some d -> d <> D_body ->
  exists m, inside d i l q u m.
Proof.
  intros Ht Hr Hb Ha Hd. destruct (rest_cons i b q u Hr Hb (ts_ok _ _ _ _ Ht) (ts_errno _ _ _ _ Ht)) as (q1 & u1 & Hrun & Hrest & Hex).
  destruct (meets_at_byte i l q u b q1 u1) as (A1 & A2 & _); [by constructor|]. destruct Ht as [Hn Hp [(Hl & _ & Hm) _ _ _] Ho Hok He].
  assert (Est : CURRENT_STATE l = state_ q) by apply (near_types _ _ Hn). unfold owed in Ho. rewrite Est, Ha in Ho. pose proof (Hm d) as Hmd. rewrite Est, Ha in Hmd.
  destruct (mark d l) as [m|] eqn:Em; [|by destruct (Hd (Hmd eq_refl))]. exists m. destruct Hmd as [_ Hmd].
  constructor; try done; [lia| | |apply Hrun|by rewrite Hb].
  - intros d' Hd'. specialize (Hm d'). rewrite Est, Ha in Hm. destruct (mark d' l); [destruct Hm; congruence|done].
  - rewrite <- Hp. destruct Ho as [Ho|[H0 ->]]; [by left|right]. split; [lia|done].
Qed.

(** *** Header fields *)
Lemma field_run N j (l : locals) q u u0 m : par l = set_nread N q -> p l = j -> state_ q = s_header_field -> held D_header_field u0 m j u ->
  (j <= length data)%nat -> rest_run j q u -> parser_ok settings q u -> http_errno q = HPE_OK ->
  exists e qe ue, field_loop (drop j data) l = Ret (set_p e (set_par (set_nread N qe) l)) /\ (j <= e <= length data)%nat /\
    rest_run e qe ue /\ parser_ok settings qe ue /\ http_errno qe = HPE_OK /\ state_ qe = s_header_field /\ held D_header_field u0 m e ue /\
    nread qe = nread q + 2 * Z.of_nat (e - j) /\ (forall b, data !! e = Some b -> TOKEN b = 0).
Proof.
  intros El Ep Es Hh Hj Hr Hok He. remember (drop j data) as rest eqn:Erest. revert j l q u El Ep Es Hh Hj Hr Hok He Erest.
  induction rest as [|b rest IH]; intros j l q u El Ep Es Hh Hj Hr Hok He Erest.
  - exists j, q, u. apply (f_equal length) in Erest. rewrite length_drop in Erest. cbn in Erest. cbn [field_loop].
    split; [rewrite <- El, <- Ep; by destruct l|]. rewrite Nat.sub_diag. repeat (split; [done || lia|]). intros b Hb. apply lookup_lt_Some in Hb. lia.
  - assert (Hb : data !! j = Some b) by (rewrite <- (Nat.add_0_r j), <- lookup_drop, <- Erest; done).
    destruct (rest_cons j b q u Hr Hb Hok He) as (q1 & u1 & Hrun & Hrest & Hex). cbn [field_loop].
    destruct (byte_field b q u q1 u1 Hrun Hok He Es) as [(Ht & q2 & Eq2 & -> & Hd)|(Ht & _)].
    + rewrite (proj2 (Z.eqb_neq _ _) Ht). rewrite El, (field_char_nread _ _ _ _ _ Eq2). cbn [res_bind]. destruct (field_char_keeps _ _ _ _ Eq2) as (K1 & K2 & K3).
      destruct (IH (S j) (set_p (S (p l)) (set_par (set_nread N q2) l)) (set_nread (nread q + 2) q2) u1) as (e & qe & ue & E & He' & Hre & Hoke & Hee & Hse & Hhe & Hne & Hlast).
      * done.
      * cbn. lia.
      * cbn. congruence.
      * by eapply held_snoc.
      * apply lookup_lt_Some in Hb. lia.
      * done.
      * apply Hrun.
      * cbn. congruence.
      * rewrite (drop_S _ _ _ Hb) in Erest. congruence.
      * exists e, qe, ue. split; [exact E|]. repeat (split; [done || lia|]). split; [cbn in Hne; lia|done].
    + rewrite Ht. cbn [Z.eqb]. exists j, q, u. split; [rewrite <- El, <- Ep; by destruct l|]. rewrite Nat.sub_diag.
      repeat (split; [done || lia|]). intros b' Hb'. congruence.
Qed.

Lemma counted_par (l : locals) q : near (par l) q -> PARSING_HEADER (state_ q) = true -> par (counted l) = set_nread (nread (par l) + 1) q.
Proof.
  intros Hn Hp. destruct (near_types _ _ Hn) as (_ & Es & _). unfold counted, CURRENT_STATE. rewrite Es, Hp. cbn. destruct Hn as [E _].
  rewrite E at 2. done.
Qed.

Lemma turn_break dat k c (l r : locals) : switch settings dat c l = Ret (Break r) -> turn settings dat k c l = Ret (Break r).
Proof. intros E. destruct k; cbn [turn]; by rewrite E. Qed.

Lemma header_field_step i l q u b : top_sim i l q u -> rest_run i q u -> data !! i = Some b -> state_ q = s_header_field ->
  exists f, turn settings data turn_fuel b (counted l) = Ret f /\ advanced i f.
Proof.
  intros Ht Hr Hb Es. destruct (top_inside D_header_field i l q u b Ht Hr Hb ltac:(by rewrite Es) ltac:(done)) as [m [Hn Hp Hm Hmk Hot Hh Hfit A1 A2]].
  rewrite Hb in A1. cbn [default] in A1. destruct Ht as [_ _ _ _ Hok He]. destruct (counted_same l) as (Cu & Cp & Cs & Cm).
  pose proof (counted_par l q Hn ltac:(by rewrite Es)) as Cpar. set (N := nread (par l) + 1) in *.
  assert (HN : 0 <= N <= nread q + 1 /\ nread q + 1 <= HTTP_MAX_HEADER_SIZE).
  { split; [|apply Hfit; by rewrite Es]. destruct A1 as [(Hl & _) _ _ _]. pose proof (t_nread _ (lv_types _ Hl)) as H. rewrite Cpar in H. cbn in H.
    subst N. destruct Hn. lia. }
  rewrite <- Cu in Hh. pose proof (lookup_lt_Some _ _ _ Hb) as Hlt.
  destruct (field_run N i (counted l) q u (usr (counted l)) m Cpar ltac:(lia) Es Hh ltac:(lia) Hr Hok He)
    as (e & qe & ue & El & Hie & Hre & Hoke & Hee & Hse & Hhe & Hne & Hlast).
  assert (Hqe : nread qe <= HTTP_MAX_HEADER_SIZE) by (apply (lv_nread qe), (proj2 Hoke Hee)).
  assert (Hsw : switch settings data b (counted l) = do_header_field settings data (counted l)).
  { unfold switch. rewrite Cs. unfold CURRENT_STATE. rewrite (proj1 (proj2 (near_types _ _ Hn))), Es. done. }
  unfold do_header_field in Hsw. rewrite Cp, Hp, El in Hsw. cbn [res_bind] in Hsw.
  rewrite count_ok in Hsw; cycle 1; [cbn; lia|cbn; lia|].
  set (l2 := upd _ _) in Hsw. assert (Ep2 : p l2 = e) by done. rewrite Ep2 in Hsw.
  assert (Epar2 : par l2 = set_nread (N + Z.of_nat (e - i)) qe) by done. assert (Eu2 : usr l2 = usr (counted l)) by done.
  assert (Em2 : forall d, mark d l2 = mark d (counted l)) by (by intros []). clearbody l2.
  destruct (data !! e) as [b'|] eqn:Ebe.
  - destruct (rest_cons e b' qe ue Hre Ebe Hoke Hee) as (q1 & u1 & Hrun & Hrest & Hex).
    destruct (byte_field b' qe ue q1 u1 Hrun Hoke Hee Hse) as [(Ht & _)|(_ & -> & -> & Hd)]; [by specialize (Hlast b' eq_refl)|].
    cbn [Z.eqb Pos.eqb] in Hsw. unfold CALLBACK_DATA in Hsw.
    rewrite (data_some data) with (m := m) (u := u1) in Hsw.
    + eapply advanced_break; [done|done|by apply turn_break|]. exists (set_state s_header_value_discard_ws (set_nread (nread qe + 1) qe)), u1. cbn [par set_mark set_usr UPDATE_STATE upd set_par p]. rewrite Epar2, Ep2.
      split; [split; [reflexivity|cbn; lia]|]. split; [reflexivity|]. split; [exact (br_ok _ _ _ _ _ Hrun)|]. split; [exact (br_errno _ _ _ _ _ Hrun)|]. split; [lia|done].
    + cbn. by rewrite Epar2.
    + cbn. change (mark D_header_field l2 = Some m). by rewrite Em2, Cm.
    + cbn [p usr UPDATE_STATE upd set_par]. rewrite Ep2, Eu2. by eapply held_end.
  - apply lookup_ge_None in Ebe. eapply advanced_break; [done|done|by apply turn_break|]. exists qe, ue. cbn [par set_p p]. rewrite Epar2.
    replace (S (e - 1)) with e by lia. split; [split; [reflexivity|cbn; lia]|]. split; [|repeat (split; [done || lia|]); done].
    unfold owed, CURRENT_STATE. cbn [par set_p set_par]. rewrite Epar2. cbn [state_ set_nread]. rewrite Hse. cbn [allowed].
    rewrite !mark_p, Em2, Cm, Hmk. left. cbn [p set_p usr]. rewrite Eu2. destruct Hhe as [H|[-> _]]; [done|lia].
Qed.

(** *** Header values *)
Lemma value_char_frame ch h N h0 q :
  value_char ch h (set_nread N (set_header_state h0 q)) =
  match value_char ch h q with Ret (inr (h', q')) => Ret (inr (h', set_nread N (set_header_state h0 q'))) | r => r end.
Proof.
  unfold value_char. cbn zeta. cbn [content_length set_nread set_header_state].
  destruct h; try reflexivity; repeat (case_match; try reflexivity); simplify_eq; done.
Qed.

Lemma value_char_nread ch h N q :
  value_char ch h (set_nread N q) = match value_char ch h q with Ret (inr (h', q')) => Ret (inr (h', set_nread N q')) | r => r end.
Proof.
  unfold value_char. cbn zeta. cbn [content_length set_nread].
  destruct h; try reflexivity; repeat (case_match; try reflexivity); simplify_eq; done.
Qed.

Lemma value_char_keeps ch h q h' q' : value_char ch h q = Ret (inr (h', q')) -> state_ q = s_header_value ->
  nread q' = nread q /\ http_errno q' = http_errno q /\ header_state q' = header_state q /\ lenient_http_headers q' = lenient_http_headers q /\
  state_ q' = s_header_value.
Proof.
  unfold value_char. cbn zeta. intros E Es. destruct h; repeat case_match; simplify_eq; try done.
Qed.

Lemma set_header_state_same q : set_header_state (header_state q) q = q.
Proof. by destruct q. Qed.

Lemma skip_general_single b : b <> CR -> b <> LF -> skip_general [b] 0 = 1%nat.
Proof.
  intros H1 H2. unfold skip_general. cbn -[memchr take]. change (take _ [b]) with [b]. cbn.
  by rewrite (proj2 (Z.eqb_neq _ _) H1), (proj2 (Z.eqb_neq _ _) H2).
Qed.

(** The equations of the loop. *)
Lemma value_end dat fuel start h (l : locals) : dat !! p l = None -> value_loop settings dat fuel start h l = value_done dat start h l.
Proof. intros E. destruct fuel; cbn [value_loop]; by rewrite E. Qed.
Lemma value_cr dat fuel start h (l : locals) : dat !! p l = Some CR ->
  value_loop settings dat fuel start h l =
  CALLBACK_DATA settings dat D_header_value (upd (set_header_state h) (UPDATE_STATE s_header_almost_done l)) (value_done dat start h).
Proof. intros E. destruct fuel; cbn [value_loop]; by rewrite E. Qed.
Lemma value_lf dat fuel start h (l : locals) : dat !! p l = Some LF ->
  value_loop settings dat fuel start h l =
  count (p l - start) (UPDATE_STATE s_header_almost_done l) (fun l =>
    CALLBACK_DATA_NOADVANCE settings dat D_header_value (upd (set_header_state h) l) (fun l => Ret (Reexecute LF l))).
Proof. intros E. destruct fuel; cbn [value_loop]; by rewrite E. Qed.

Definition value_ok (q : http_parser) (b : Z) : Prop := b <> CR /\ b <> LF /\ negb (lenient_http_headers q) && negb (IS_HEADER_CHAR b) = false.

Lemma value_bad dat fuel start h (l : locals) b : dat !! p l = Some b -> b <> CR -> b <> LF -> ~ value_ok (par l) b ->
  value_loop settings dat fuel start h l = fail HPE_INVALID_HEADER_TOKEN l.
Proof.
  intros E H1 H2 H3. assert (Hc : negb (lenient_http_headers (par l)) && negb (IS_HEADER_CHAR b) = true).
  { destruct (negb _ && _) eqn:Ec; [done|]. exfalso. by apply H3. }
  destruct fuel; cbn [value_loop]; by rewrite E, (proj2 (Z.eqb_neq _ _) H1), (proj2 (Z.eqb_neq _ _) H2), Hc.
Qed.
Lemma value_general dat fuel start (l : locals) b : dat !! p l = Some b -> value_ok (par l) b ->
  value_loop settings dat (S fuel) start h_general l = value_loop settings dat fuel start h_general (set_p (skip_general dat (p l)) l).
Proof. intros E (H1 & H2 & H3). cbn [value_loop]. by rewrite E, (proj2 (Z.eqb_neq _ _) H1), (proj2 (Z.eqb_neq _ _) H2), H3. Qed.
Lemma value_other dat fuel start h (l : locals) b : dat !! p l = Some b -> value_ok (par l) b -> h <> h_general ->
  value_loop settings dat (S fuel) start h l =
  match value_char b h (par l) with
  | Ret (inl e) => fail e (upd (set_header_state h) l)
  | Ret (inr (h', q')) => value_loop settings dat fuel start h' (set_p (S (p l)) (set_par q' l))
  | Throw e => Throw e | Abort a => Abort a | OutOfFuel => OutOfFuel
  end.
Proof.
  intros E (H1 & H2 & H3) Hh. cbn [value_loop]. rewrite E, (proj2 (Z.eqb_neq _ _) H1), (proj2 (Z.eqb_neq _ _) H2), H3.
  destruct h; try done; (destruct (value_char _ _ _) as [[e|[h' q']]| | |]; reflexivity).
Qed.

Lemma value_done_inv dat start h (l : locals) f : 0 <= nread (par l) -> nread (par l) + Z.of_nat (p l - start) < 2 ^ 32 ->
  value_done dat start h l = Ret f -> clean f ->
  nread (par l) + Z.of_nat (p l - start) <= HTTP_MAX_HEADER_SIZE /\
  f = Break (set_p (if decide (p l = length dat) then p l - 1 else p l)%nat
               (upd (fun q => set_nread (nread (par l) + Z.of_nat (p l - start)) (set_header_state h q)) l)).
Proof.
  intros H0 H1 E Hc. unfold value_done in E. apply count_inv in E as [H E]; [|done|done|done]. split; [done|].
  cbn [p upd set_par] in E. case_decide; injection E as <-; by destruct l.
Qed.

Lemma value_done_ok dat start h (l : locals) : 0 <= nread (par l) -> nread (par l) + Z.of_nat (p l - start) <= HTTP_MAX_HEADER_SIZE ->
  value_done dat start h l =
  Ret (Break (set_p (if decide (p l = length dat) then p l - 1 else p l)%nat
               (upd (fun q => set_nread (nread (par l) + Z.of_nat (p l - start)) (set_header_state h q)) l))).
Proof.
  intros H0 H1. unfold value_done. rewrite count_ok by done. cbn [p upd set_par]. case_decide; by destruct l.
Qed.

(** A byte of a header value on its own. *)
Definition value_byte (b : Z) (q : http_parser) (u : U) (q1 : http_parser) (u1 : U) : Prop :=
  value_ok q b /\ delivered D_header_value u [b] u1 /\
  (header_state q = h_general /\ q1 = set_nread (nread q + 2) q \/
   header_state q <> h_general /\ exists h q', value_char b (header_state q) q = Ret (inr (h, q')) /\ q1 = set_header_state h (set_nread (nread q + 2) q')).

Lemma value_ok_dec q b : {value_ok q b} + {~ value_ok q b}.
Proof. unfold value_ok. apply and_dec; [apply not_dec; apply _|apply and_dec; [apply not_dec; apply _|apply _]]. Defined.

(** After the last byte of the buffer. *)
Lemma value_single_end b start h (l : locals) u1 q1 f : p l = 1%nat -> start = 0%nat -> 0 <= nread (par l) < 2 ^ 20 -> state_ (par l) = s_header_value ->
  mark D_header_value l = Some 0%nat -> value_loop settings [b] 0 start h l = Ret f -> clean f ->
  match f with Break r => good settings r /\ p r = 0%nat /\ par r = q1 /\ pending [b] (set_p 1 r) u1 | Return n r => n = 1%nat /\ par r = q1 /\ usr r = u1 | _ => False end ->
  q1 = set_nread (nread (par l) + 1) (set_header_state h (par l)) /\ delivered D_header_value (usr l) [b] u1.
Proof.
  intros Hp -> Hn Es Hm E Hc Hf. rewrite value_end in E by (by rewrite Hp).
  apply value_done_inv in E as [_ ->]; [|lia|rewrite Hp; cbn; lia|done]. destruct Hf as (_ & _ & <- & Hpe). split; [cbn; by rewrite Hp|].
  unfold pending, CURRENT_STATE in Hpe. cbn [par set_p upd set_par state_ set_nread set_header_state] in Hpe. rewrite Es in Hpe. cbn [allowed] in Hpe.
  rewrite !mark_p, mark_upd, Hm in Hpe. exact Hpe.
Qed.

Lemma byte_value b q u q1 u1 : byte_run b q u q1 u1 -> parser_ok settings q u -> http_errno q = HPE_OK -> state_ q = s_header_value ->
  b = CR /\ q1 = set_state s_header_almost_done (set_nread (nread q + 1) q) /\ delivered D_header_value u [] u1 \/
  b = LF /\ q1 = set_state s_header_value_lws (set_nread (nread q + 1) q) /\ delivered D_header_value u [] u1 \/
  b <> CR /\ b <> LF /\ value_byte b q u q1 u1.
Proof.
  intros [Hf (f & Ef & Hc & Hf2) Hok1 He1] Hok He Es. destruct (proj2 Hok He) as (Hl & _). pose proof (t_nread _ (lv_types _ Hl)) as Hn0.
  assert (Hn1 : nread q + 1 <= HTTP_MAX_HEADER_SIZE) by (apply Hf; by rewrite Es). unfold HTTP_MAX_HEADER_SIZE in Hn1.
  rewrite (counted_initial q u D_header_value) in Ef; [|by rewrite Es|done].
  apply turn_switch in Ef as (f0 & Ef0 & Hff).
  assert (Hc0 : clean f0) by (destruct f0; (done || by subst f)).
  set (l0 := set_mark D_header_value (Some 0%nat) (plain (set_nread (nread q + 1) q) u 0)) in Ef0.
  assert (Epar : par l0 = set_nread (nread q + 1) q) by done. assert (Ep : p l0 = 0%nat) by done. assert (Eu : usr l0 = u) by done.
  assert (Em : mark D_header_value l0 = Some 0%nat) by done.
  unfold switch, CURRENT_STATE in Ef0. rewrite Epar in Ef0. cbn [state_ set_nread] in Ef0. rewrite Es in Ef0.
  unfold do_header_value in Ef0. rewrite Epar, Ep in Ef0. change (length [b] - 0)%nat with 1%nat in Ef0. cbn [header_state set_nread] in Ef0.
  clearbody l0. assert (E0 : forall x : Z, [x] !! p l0 = Some x) by (intros x; by rewrite Ep).
  destruct (decide (b = CR)) as [->|Hcr]; [|destruct (decide (b = LF)) as [->|Hlf]].
  - left. split; [done|]. rewrite value_cr in Ef0 by done.
    apply (data_inv [CR]) with (m := 0%nat) in Ef0 as (v & Hv & Ef0); [|cbn; by rewrite Epar|exact Em|done].
    apply value_done_inv in Ef0 as [_ ->]; [|cbn; rewrite Epar; cbn; lia|cbn; rewrite Epar, Ep; cbn; lia|done]. subst f.
    destruct Hf2 as (_ & _ & <- & Hp). change (u1 = v) in Hp. subst v. cbn [usr p upd set_par UPDATE_STATE] in Hv. rewrite Ep, slice_nil, Eu in Hv.
    split; [|done]. cbn. rewrite Epar, Ep. cbn. rewrite Z.add_0_r. by destruct q.
  - right; left. split; [done|]. rewrite value_lf in Ef0 by done.
    apply count_inv in Ef0 as [_ Ef0]; [|cbn; rewrite Epar; cbn; lia|cbn; rewrite Epar, Ep; cbn; lia|done].
    apply (data_inv [LF]) with (m := 0%nat) in Ef0 as (v & Hv & [= <-]); [|cbn; by rewrite Epar|exact Em|done].
    apply turn_switch in Hff as (f1 & Ef1 & Hff1). cbn in Ef1. injection Ef1 as <-. subst f.
    destruct Hf2 as (_ & _ & <- & Hp). change (u1 = v) in Hp. subst v. cbn [usr p upd set_par UPDATE_STATE] in Hv. rewrite Ep, slice_nil, Eu in Hv.
    split; [|done]. cbn. rewrite Epar, Ep. cbn. rewrite Z.add_0_r. by destruct q.
  - right; right. split; [done|]. split; [done|].
    destruct (value_ok_dec q b) as [Hvo|Hvo]; [|rewrite (value_bad [b] _ _ _ _ b) in Ef0; [by injection Ef0 as <-|done|done|done|by rewrite Epar]].
    split; [done|]. assert (Hvo' : value_ok (par l0) b) by (by rewrite Epar). destruct (decide (header_state q = h_general)) as [Eh|Eh].
    + rewrite Eh, (value_general [b] _ _ _ b) in Ef0 by done. rewrite Ep, skip_general_single in Ef0 by done.
      assert (f0 = f) as ->. { rewrite value_end in Ef0 by done. apply value_done_inv in Ef0 as [_ ->]; [done|cbn; rewrite Epar; cbn; lia|cbn; rewrite Epar; cbn; lia|done]. }
      destruct (value_single_end b 0 h_general (set_p 1 l0) u1 q1 f) as [Eq Hd]; try done; [cbn; rewrite Epar; cbn; lia|cbn; by rewrite Epar|].
      cbn in Eq, Hd. rewrite Epar in Eq. rewrite Eu in Hd. split; [done|]. left. split; [done|]. rewrite Eq. cbn. rewrite <- Z.add_assoc, <- Eh. by destruct q.
    + rewrite (value_other [b] _ _ _ _ b), Epar, value_char_nread in Ef0 by done.
      destruct (value_char b (header_state q) q) as [[e|[h' q']]| | |] eqn:Ev; try done; [by injection Ef0 as <-|].
      destruct (value_char_keeps _ _ _ _ _ Ev Es) as (K1 & K2 & K3 & K4 & K5). rewrite Ep in Ef0.
      assert (f0 = f) as ->. { rewrite value_end in Ef0 by done. apply value_done_inv in Ef0 as [_ ->]; [done|cbn; lia|cbn; lia|done]. }
      destruct (value_single_end b 0 h' (set_p 1 (set_par (set_nread (nread q + 1) q') l0)) u1 q1 f) as [Eq Hd]; try done; [cbn; lia|].
      cbn in Eq, Hd. rewrite Eu in Hd. split; [done|]. right. split; [done|]. exists h', q'. split; [done|]. rewrite Eq. by rewrite <- Z.add_assoc.
Qed.

(** A stretch of a value that is not looked at. *)
Definition unbroken (j e : nat) : Prop := forall x, (j <= x < e)%nat -> exists b, data !! x = Some b /\ b <> CR /\ b <> LF.

Lemma general_run k j q u u0 m : unbroken j (j + k) -> header_state q = h_general -> state_ q = s_header_value ->
  rest_run j q u -> parser_ok settings q u -> http_errno q = HPE_OK -> held D_header_value u0 m j u ->
  exists ue, let qe := set_nread (nread q + 2 * Z.of_nat k) q in
    rest_run (j + k) qe ue /\ parser_ok settings qe ue /\ held D_header_value u0 m (j + k) ue.
Proof.
  revert j q u. induction k as [|k IH]; intros j q u Hub Eh Es Hr Hok He Hh; cbn zeta.
  - exists u. rewrite Nat.add_0_r, Z.add_0_r. replace (set_nread (nread q) q) with q by (by destruct q). done.
  - destruct (Hub j ltac:(lia)) as (b & Hb & Hcr & Hlf). destruct (rest_cons j b q u Hr Hb Hok He) as (q1 & u1 & Hrun & Hrest & _).
    destruct (byte_value b q u q1 u1 Hrun Hok He Es) as [(? & _)|[(? & _)|(_ & _ & _ & Hd & [[_ ->]|[Hn _]])]]; try done.
    destruct (IH (S j) (set_nread (nread q + 2) q) u1) as (ue & Hre & Hoke & Hhe); try done.
    + intros x Hx. apply Hub. lia.
    + exact (br_ok _ _ _ _ _ Hrun).
    + by eapply held_snoc.
    + exists ue. replace (j + S k)%nat with (S j + k)%nat by lia. cbn in Hre, Hoke.
      replace (nread q + 2 * Z.of_nat (S k)) with (nread q + 2 + 2 * Z.of_nat k) by lia. done.
Qed.

Lemma memchr_spec c l : match memchr c l with
  | Some i => l !! i = Some c /\ forall x, (x < i)%nat -> l !! x <> Some c
  | None => forall x, l !! x <> Some c
  end.
Proof.
  induction l as [|b l IH]; cbn; [done|]. destruct (Z.eqb_spec b c) as [->|Hn]; [split; [done|lia]|].
  destruct (memchr c l) as [i|]; cbn.
  - destruct IH as [H1 H2]. split; [done|]. intros [|x] Hx; cbn; [congruence|]. apply H2. lia.
  - intros [|x]; cbn; [congruence|]. apply IH.
Qed.

(** Where the skip ends: at the end of the line, or at the end of the input
    when the rest is short or has no end of line in 80 KiB. *)
Lemma skip_general_spec j e : (j < length data)%nat -> skip_general data j = e -> 
  unbroken j e \/ (Z.to_nat HTTP_MAX_HEADER_SIZE < length data - j)%nat /\ unbroken j (j + Z.to_nat HTTP_MAX_HEADER_SIZE).
Proof.
  intros Hj. unfold skip_general. cbn zeta. set (lim := Z.to_nat _). intros He.
  assert (Hlim : lim = Nat.min (length data - j) (Z.to_nat HTTP_MAX_HEADER_SIZE)).
  { subst lim. rewrite length_drop, Z2Nat.inj_min, Nat2Z.id. done. }
  set (M := Z.to_nat HTTP_MAX_HEADER_SIZE) in *. clearbody M lim.
  pose proof (memchr_spec CR (take lim (drop j data))) as H1. pose proof (memchr_spec LF (take lim (drop j data))) as H2.
  assert (Hget : forall x, (x < lim)%nat -> exists b, data !! (j + x)%nat = Some b /\ take lim (drop j data) !! x = Some b).
  { intros x Hx. destruct (lookup_lt_is_Some_2 data (j + x)) as [b Hb]; [lia|]. exists b. split; [done|]. rewrite lookup_take_lt, lookup_drop by lia. done. }
  assert (Hub : forall y, (y <= lim)%nat -> (forall x, (x < y)%nat -> take lim (drop j data) !! x <> Some CR /\ take lim (drop j data) !! x <> Some LF) -> unbroken j (j + y)).
  { intros y Hy Hno x Hx. destruct (Hget (x - j)%nat ltac:(lia)) as (b & Hb & Ht). replace (j + (x - j))%nat with x in Hb by lia.
    exists b. split; [done|]. destruct (Hno (x - j)%nat ltac:(lia)) as [N1 N2]. rewrite Ht in N1, N2. split; congruence. }
  assert (Hin : forall c i, take lim (drop j data) !! i = Some c -> (i < lim)%nat).
  { intros c i Hi. apply lookup_lt_Some in Hi. rewrite length_take in Hi. lia. }
  destruct (memchr CR _) as [cr|]; destruct (memchr LF _) as [lf|].
  - left. destruct H1 as [C1 C2], H2 as [L1 L2]. apply Hin in C1, L1. case_bool_decide; subst e; (apply Hub; [lia|]); intros x Hx; (split; [apply C2|apply L2]; lia).
  - left. destruct H1 as [C1 C2]. apply Hin in C1. subst e. apply Hub; [lia|]. intros x Hx. split; [apply C2; lia|apply H2].
  - left. destruct H2 as [L1 L2]. apply Hin in L1. subst e. apply Hub; [lia|]. intros x Hx. split; [apply H1|apply L2; lia].
  - assert (Hall : unbroken j (j + lim)) by (apply Hub; [lia|]; intros x Hx; split; [apply H1|apply H2]).
    destruct (decide (M < length data - j)%nat) as [Hm|Hm].
    + right. split; [done|]. by rewrite Nat.min_r in Hlim by lia; subst lim.
    + left. subst e. replace (length data) with (j + lim)%nat by lia. done.
Qed.

(** The loop over a value, at [j], with the local [header_state q]; it entered
    the state at [i] with the counts [N] and [nq]. *)
Record in_loop (N nq : Z) (h0 : header_states) (m i : nat) (l0 : locals) (j : nat) (l : locals) (q : http_parser) (u : U) : Prop := {
  il_par : par l = set_nread N (set_header_state h0 q);
  il_state : state_ q = s_header_value;
  il_p : p l = j;
  il_usr : usr l = usr l0;
  il_mark : mark D_header_value l = Some m;
  il_others d : d <> D_header_value -> mark d l = None;
  il_held : held D_header_value (usr l0) m j u;
  il_j : (m <= i <= j)%nat /\ (j <= length data)%nat;
  il_rest : rest_run j q u;
  il_ok : parser_ok settings q u;
  il_errno : http_errno q = HPE_OK;
  il_nread : nread q = nq + 2 * Z.of_nat (j - i);
  il_N : 0 <= N <= nq + 1 /\ nq + 1 <= HTTP_MAX_HEADER_SIZE }.

Definition value_out (i : nat) (r : res (flow (U := U))) : Prop :=
  exists r1, caught i r1 /\ (r = Ret (Break r1) \/ exists r0, r = Ret (Reexecute LF r0) /\ switch settings data LF r0 = Ret (Break r1)).

Lemma ok_nread q u : parser_ok settings q u -> http_errno q = HPE_OK -> 0 <= nread q <= HTTP_MAX_HEADER_SIZE.
Proof. intros Hok He. destruct (proj2 Hok He) as (Hl & _). split; [apply (t_nread _ (lv_types _ Hl))|apply (lv_nread _ Hl)]. Qed.

Lemma value_run_end N nq h0 m i l0 j l q u fuel : in_loop N nq h0 m i l0 j l q u -> (i < length data)%nat -> data !! j = None ->
  value_out i (value_loop settings data fuel i (header_state q) l).
Proof.
  intros [Hpar Es Hp Hu Hm Ho Hh Hj Hr Hok He Hn HN] Hi Hb. pose proof (ok_nread _ _ Hok He) as Hq. apply lookup_ge_None in Hb.
  rewrite value_end by (rewrite Hp; by apply lookup_ge_None). rewrite value_done_ok; [|rewrite Hpar; cbn; lia|rewrite Hpar, Hp; cbn; lia].
  rewrite Hp. rewrite decide_True by lia. rewrite Hpar. cbn [nread set_nread]. eexists. split; [|by left]. exists q, u. cbn [par p set_p upd set_par]. rewrite Hpar.
  replace (S (j - 1)) with j by lia. split; [split; [by destruct q|cbn; lia]|]. split; [|repeat (split; [done || lia|]); done].
  unfold owed, CURRENT_STATE. cbn [par set_p upd set_par]. rewrite Hpar. cbn [state_ set_nread set_header_state]. rewrite Es. cbn [allowed].
  rewrite !mark_p, mark_upd, Hm. left. cbn [p set_p usr upd set_par]. rewrite Hu. destruct Hh as [H|[? _]]; [done|lia].
Qed.

Lemma value_run_cr N nq h0 m i l0 j l q u fuel : in_loop N nq h0 m i l0 j l q u -> data !! j = Some CR ->
  value_out i (value_loop settings data fuel i (header_state q) l).
Proof.
  intros [Hpar Es Hp Hu Hm Ho Hh Hj Hr Hok He Hn HN] Hb. destruct (rest_cons j CR q u Hr Hb Hok He) as (q1 & u1 & Hrun & Hrest & _).
  destruct (byte_value CR q u q1 u1 Hrun Hok He Es) as [(_ & -> & Hd)|[(? & _)|(? & _)]]; try done.
  pose proof (ok_nread _ _ (br_ok _ _ _ _ _ Hrun) (br_errno _ _ _ _ _ Hrun)) as Hq1. cbn in Hq1. pose proof (lookup_lt_Some _ _ _ Hb).
  rewrite value_cr by (by rewrite Hp). unfold CALLBACK_DATA.
  rewrite (data_some data) with (m := m) (u := u1); [|cbn; by rewrite Hpar|exact Hm|cbn [p usr upd set_par UPDATE_STATE]; rewrite Hp, Hu; by eapply held_end].
  set (l2 := set_mark _ _ _). assert (E1 : par l2 = set_header_state (header_state q) (set_state s_header_almost_done (par l))) by done.
  assert (E2 : p l2 = j) by exact Hp. assert (E3 : usr l2 = u1) by done. clearbody l2.
  rewrite value_done_ok; [|rewrite E1, Hpar; cbn; lia|rewrite E1, Hpar, E2; cbn; lia]. rewrite E2, decide_False by lia.
  eexists. split; [|by left]. eexists _, u1. cbn [par p set_p upd set_par]. rewrite E1, Hpar. cbn [nread set_nread set_header_state set_state].
  split; [|split; [|split; [exact (br_ok _ _ _ _ _ Hrun)|split; [exact (br_errno _ _ _ _ _ Hrun)|split; [lia|done]]]]].
  - split; [by destruct q|cbn; lia].
  - unfold owed, CURRENT_STATE. cbn [par set_p upd set_par]. rewrite E1. cbn. by rewrite E3.
Qed.

Lemma value_run_lf N nq h0 m i l0 j l q u fuel : in_loop N nq h0 m i l0 j l q u -> data !! j = Some LF ->
  value_out i (value_loop settings data fuel i (header_state q) l).
Proof.
  intros [Hpar Es Hp Hu Hm Ho Hh Hj Hr Hok He Hn HN] Hb. destruct (rest_cons j LF q u Hr Hb Hok He) as (q1 & u1 & Hrun & Hrest & _).
  destruct (byte_value LF q u q1 u1 Hrun Hok He Es) as [(? & _)|[(_ & -> & Hd)|(_ & ? & _)]]; try done.
  pose proof (ok_nread _ _ (br_ok _ _ _ _ _ Hrun) (br_errno _ _ _ _ _ Hrun)) as Hq1. cbn in Hq1. pose proof (lookup_lt_Some _ _ _ Hb).
  rewrite value_lf by (by rewrite Hp). rewrite count_ok; [|cbn; rewrite Hpar; cbn; lia|cbn; rewrite Hpar, Hp; cbn; lia]. unfold CALLBACK_DATA_NOADVANCE.
  rewrite (data_some data) with (m := m) (u := u1); [|cbn; by rewrite Hpar|exact Hm|cbn [p usr upd set_par UPDATE_STATE]; rewrite Hp, Hu; by eapply held_end].
  set (l2 := set_mark _ _ _).
  assert (E1 : par l2 = set_header_state (header_state q) (set_nread (nread (par l) + Z.of_nat (p l - i)) (set_state s_header_almost_done (par l)))) by done.
  assert (E2 : p l2 = j) by exact Hp. assert (E3 : usr l2 = u1) by done. clearbody l2.
  exists (UPDATE_STATE s_header_value_lws l2). split.
  - eexists _, u1. cbn [par p UPDATE_STATE upd set_par]. rewrite E1, E2, Hpar, Hp. cbn [nread set_nread set_header_state set_state].
    split; [|split; [|split; [exact (br_ok _ _ _ _ _ Hrun)|split; [exact (br_errno _ _ _ _ _ Hrun)|split; [lia|done]]]]].
    + split; [by destruct q|cbn; lia].
    + unfold owed, CURRENT_STATE. cbn. by rewrite E3.
  - right. exists l2. split; [done|]. unfold switch, CURRENT_STATE. rewrite E1. reflexivity.
Qed.

Lemma value_run N nq h0 m i l0 fuel j l q u : in_loop N nq h0 m i l0 j l q u -> (i < length data)%nat -> (length data - j <= fuel)%nat ->
  value_out i (value_loop settings data fuel i (header_state q) l).
Proof.
  intros Hin Hi. revert j l q u Hin. induction fuel as [|fuel IH]; intros j l q u Hin Hf.
  { apply (value_run_end _ _ _ _ _ _ _ _ _ _ _ Hin Hi). apply lookup_ge_None. lia. }
  destruct (data !! j) as [b|] eqn:Hb; [|by eapply value_run_end].
  destruct (decide (b = CR)) as [->|Hcr]; [by eapply value_run_cr|]. destruct (decide (b = LF)) as [->|Hlf]; [by eapply value_run_lf|].
  pose proof Hin as [Hpar Es Hp Hu Hm Ho Hh Hj Hr Hok He Hn HN]. destruct (rest_cons j b q u Hr Hb Hok He) as (q1 & u1 & Hrun & Hrest & _).
  pose proof (lookup_lt_Some _ _ _ Hb) as Hlt.
  destruct (byte_value b q u q1 u1 Hrun Hok He Es) as [(? & _)|[(? & _)|(_ & _ & Hvo & Hd & Hq1)]]; try done.
  assert (Hvo' : value_ok (par l) b) by (by rewrite Hpar). destruct Hq1 as [[Eh Eq1]|[Eh (h' & q' & Ev & Eq1)]].
  - rewrite Eh, (value_general data _ _ _ b) by (by rewrite ?Hp). rewrite Hp. set (e := skip_general data j).
    pose proof (skip_general_ok data j b Hb Hcr Hlf) as He2. fold e in He2.
    assert (Hub : unbroken j e).
    { destruct (skip_general_spec j e Hlt eq_refl) as [H|[H1 H2]]; [done|]. exfalso.
      destruct (general_run (Z.to_nat HTTP_MAX_HEADER_SIZE) j q u (usr l0) m H2 Eh Es Hr Hok He Hh) as (ue & _ & Hoke & _).
      pose proof (ok_nread _ _ Hok He). pose proof (ok_nread _ _ Hoke He) as Hbig. cbn [nread set_nread] in Hbig.
      rewrite Z2Nat.id in Hbig by (unfold HTTP_MAX_HEADER_SIZE; lia). unfold HTTP_MAX_HEADER_SIZE in *. lia. }
    destruct (general_run (e - j) j q u (usr l0) m) as (ue & Hre & Hoke & Hhe); try done; [by replace (j + (e - j))%nat with e by lia|].
    replace (j + (e - j))%nat with e in * by lia. rewrite <- Eh.
    apply (IH e (set_p e l) (set_nread (nread q + 2 * Z.of_nat (e - j)) q) ue); [|lia].
    constructor; try done; [lia|cbn; lia].
  - rewrite (value_other data _ _ _ _ b) by (by rewrite ?Hp). rewrite Hpar, value_char_frame, Ev. rewrite Hp.
    destruct (value_char_keeps _ _ _ _ _ Ev Es) as (K1 & K2 & K3 & K4 & K5).
    change h' with (header_state (set_header_state h' (set_nread (nread q + 2) q'))) at 1. rewrite <- Eq1.
    apply (IH (S j) _ q1 u1); [|lia]. subst q1. constructor; cbn [par p usr set_p set_par]; try done.
    + by eapply held_snoc.
    + lia.
    + exact (br_ok _ _ _ _ _ Hrun).
    + exact (br_errno _ _ _ _ _ Hrun).
    + cbn. lia.
Qed.

Lemma header_value_step i l q u b : top_sim i l q u -> rest_run i q u -> data !! i = Some b -> state_ q = s_header_value ->
  exists f, turn settings data turn_fuel b (counted l) = Ret f /\ advanced i f.
Proof.
  intros Ht Hr Hb Es. destruct (top_inside D_header_value i l q u b Ht Hr Hb ltac:(by rewrite Es) ltac:(done)) as [m [Hn Hp Hm Hmk Hot Hh Hfit A1 A2]].
  rewrite Hb in A1. cbn [default] in A1. destruct Ht as [_ _ _ _ Hok He]. destruct (counted_same l) as (Cu & Cp & Cs & Cm).
  pose proof (counted_par l q Hn ltac:(by rewrite Es)) as Cpar. set (N := nread (par l) + 1) in *.
  pose proof (ok_nread _ _ Hok He) as Hq. pose proof (lookup_lt_Some _ _ _ Hb) as Hlt.
  assert (HN : 0 <= N <= nread q + 1 /\ nread q + 1 <= HTTP_MAX_HEADER_SIZE).
  { split; [|apply Hfit; by rewrite Es]. destruct A1 as [(Hl & _) _ _ _]. pose proof (t_nread _ (lv_types _ Hl)) as H. rewrite Cpar in H. cbn in H.
    subst N. destruct Hn. lia. }
  assert (Hin : in_loop N (nread q) (header_state q) m i (counted l) i (counted l) q u).
  { constructor; try done; [by rewrite Cp|by rewrite Cm|intros d Hd; rewrite Cm; by apply Hot|by rewrite Cu|lia|rewrite Nat.sub_diag; lia]. }
  destruct (value_run _ _ _ _ _ _ (length data - i) _ _ _ _ Hin Hlt) as (r & Hc & Hor); [lia|].
  assert (Hsw : switch settings data b (counted l) = value_loop settings data (length data - i) i (header_state q) (counted l)).
  { unfold switch. rewrite Cs. unfold CURRENT_STATE. rewrite (proj1 (proj2 (near_types _ _ Hn))), Es. unfold do_header_value. by rewrite Cp, Hp, Cpar. }
  eapply advanced_break; [done|done| |exact Hc]. destruct Hor as [E|(r0 & E & Esw)].
  - apply turn_break. by rewrite Hsw, E.
  - unfold turn_fuel. cbn [turn]. rewrite Hsw, E. cbn [res_bind]. rewrite Esw. done.
Qed.

(** *** Bodies *)
Lemma counted_body q (u : U) : allowed (state_ q) = Some D_body -> counted (initial_locals q u) = plain q u 0.
Proof. intros Ha. unfold counted, initial_locals, CURRENT_STATE. destruct (state_ q) eqn:E; try done; cbn; by rewrite E. Qed.

Definition sized (s : state) : bool := match s with s_body_identity | s_chunk_data => true | _ => false end.

Lemma sized_length q u : parser_ok settings q u -> http_errno q = HPE_OK -> sized (state_ q) = true ->
  0 < content_length q < ULLONG_MAX /\ (state_ q = s_chunk_data -> has_flag F_CHUNKED q = true).
Proof.
  intros Hok He Hs. destruct (proj2 Hok He) as (Hl & _). pose proof (lv_state _ Hl) as Hst. pose proof (t_length _ (lv_types _ Hl)).
  unfold state_ok in Hst. destruct (state_ q); try done; unfold some_length, ULLONG_MAX in *; (split; [lia|]); intros ?; (done || tauto).
Qed.

(** A byte that is not the last one. *)
Lemma byte_body b q u q1 u1 : byte_run b q u q1 u1 -> parser_ok settings q u -> http_errno q = HPE_OK -> sized (state_ q) = true ->
  1 < content_length q -> q1 = set_content_length (content_length q - 1) q /\ delivered D_body u [b] u1.
Proof.
  intros [Hf (f & Ef & Hc & Hf2) Hok1 He1] Hok He Hs Hlen. destruct (sized_length q u Hok He Hs) as [Hr Hch].
  rewrite counted_body in Ef by (by destruct (state_ q)). apply turn_switch in Ef as (f0 & Ef0 & Hff).
  assert (H0 : (content_length q =? 0) = false) by lia. assert (H1 : (content_length q =? ULLONG_MAX) = false) by lia.
  assert (Hmin : Z.min (content_length q) 1 = 1) by lia. assert (H2 : (content_length q - 1 =? 0) = false) by lia.
  assert (E : switch settings [b] b (plain q u 0) = break (set_p 0 (upd (set_content_length (content_length q - 1)) (MARK D_body (plain q u 0))))).
  { unfold switch, CURRENT_STATE. cbn [par plain]. destruct (state_ q) eqn:Es; try done.
    - unfold do_chunk_data. cbn zeta. cbn [par plain]. rewrite (Hch eq_refl), H0, H1. cbn [negb orb]. change (left [b] (plain q u 0)) with 1.
      rewrite Hmin. cbn [par set_p upd set_par content_length set_content_length]. by rewrite H2.
    - unfold do_body_identity. cbn zeta. cbn [par plain]. rewrite H0, H1. cbn [orb]. change (left [b] (plain q u 0)) with 1.
      rewrite Hmin. cbn [par set_p upd set_par content_length set_content_length]. by rewrite H2. }
  rewrite E in Ef0. injection Ef0 as <-. subst f. destruct Hf2 as (_ & _ & <- & Hp). split; [done|]. unfold pending, CURRENT_STATE in Hp. cbn in Hp.
  destruct (state_ q); done.
Qed.

(** [k] bytes of it. *)
Lemma body_run k j q u u0 m : parser_ok settings q u -> http_errno q = HPE_OK -> sized (state_ q) = true ->
  Z.of_nat k < content_length q -> (j + k <= length data)%nat -> rest_run j q u -> held D_body u0 m j u ->
  exists ue, let qe := set_content_length (content_length q - Z.of_nat k) q in
    rest_run (j + k) qe ue /\ parser_ok settings qe ue /\ held D_body u0 m (j + k) ue.
Proof.
  revert j q u. induction k as [|k IH]; intros j q u Hok He Hs Hk Hj Hr Hh; cbn zeta.
  - exists u. rewrite Nat.add_0_r, Z.sub_0_r. replace (set_content_length (content_length q) q) with q by (by destruct q). done.
  - destruct (lookup_lt_is_Some_2 data j) as [b Hb]; [lia|]. destruct (rest_cons j b q u Hr Hb Hok He) as (q1 & u1 & Hrun & Hrest & _).
    destruct (byte_body b q u q1 u1 Hrun Hok He Hs) as [-> Hd]; [lia|].
    destruct (IH (S j) (set_content_length (content_length q - 1) q) u1) as (ue & Hre & Hoke & Hhe); try done.
    + exact (br_ok _ _ _ _ _ Hrun).
    + cbn. lia.
    + lia.
    + by eapply held_snoc.
    + exists ue. replace (j + S k)%nat with (S j + k)%nat by lia. cbn in Hre, Hoke.
      replace (content_length q - Z.of_nat (S k)) with (content_length q - 1 - Z.of_nat k) by lia. done.
Qed.

(** The last byte. *)
Lemma byte_last_chunk b q u q1 u1 : byte_run b q u q1 u1 -> parser_ok settings q u -> http_errno q = HPE_OK -> state_ q = s_chunk_data ->
  content_length q = 1 -> q1 = set_state s_chunk_data_almost_done (set_content_length 0 q) /\ delivered D_body u [b] u1.
Proof.
  intros [Hf (f & Ef & Hc & Hf2) Hok1 He1] Hok He Es Hlen. destruct (sized_length q u Hok He ltac:(by rewrite Es)) as [_ Hch].
  rewrite counted_body in Ef by (by rewrite Es). apply turn_switch in Ef as (f0 & Ef0 & Hff).
  unfold switch, CURRENT_STATE in Ef0. cbn [par plain] in Ef0. rewrite Es in Ef0. unfold do_chunk_data in Ef0. cbn zeta in Ef0. cbn [par plain] in Ef0.
  rewrite (Hch Es), Hlen in Ef0. injection Ef0 as <-. subst f. destruct Hf2 as (_ & _ & <- & Hp). split; [done|exact Hp].
Qed.

Lemma message_done_final (l r : locals) c : do_message_done settings l <> Ret (Reexecute c r).
Proof.
  unfold do_message_done, message_complete, CALLBACK_NOTIFY, CALLBACK_NOTIFY_. case_decide; [|done]. destruct (on_message_complete settings) as [f|].
  - destruct (f _ _) as [[a w]| | |]; cbn [res_bind fst snd]; try done. repeat case_match; done.
  - case_match; done.
Qed.

Lemma byte_last_body b q u q1 u1 : byte_run b q u q1 u1 -> parser_ok settings q u -> http_errno q = HPE_OK -> state_ q = s_body_identity ->
  content_length q = 1 ->
  exists u', delivered D_body u [b] u' /\
  exists f, do_message_done settings (plain (set_state s_message_done (set_content_length 0 q)) u' 0) = Ret f /\ clean f /\
    match f with
    | Break r => good settings r /\ p r = 0%nat /\ par r = q1 /\ pending [b] (set_p 1 r) u1
    | Return n r => n = 1%nat /\ par r = q1 /\ usr r = u1
    | _ => False
    end.
Proof.
  intros [Hf (f & Ef & Hc & Hf2) Hok1 He1] Hok He Es Hlen.
  rewrite counted_body in Ef by (by rewrite Es). apply turn_switch in Ef as (f0 & Ef0 & Hff).
  unfold switch, CURRENT_STATE in Ef0. cbn [par plain] in Ef0. rewrite Es in Ef0. unfold do_body_identity in Ef0. cbn zeta in Ef0. cbn [par plain] in Ef0.
  rewrite Hlen in Ef0. change (left [b] (plain q u 0)) with 1 in Ef0. cbn [Z.min Z.compare Pos.compare Pos.compare_cont Z.eqb orb] in Ef0.
  assert (Hc0 : clean f0) by (destruct f0; (done || by subst f)).
  apply (data_inv [b]) with (m := 0%nat) in Ef0 as (v & Hv & [= <-]); [|exact He|done|done].
  exists v. split; [exact Hv|]. exists f. split; [|done]. apply turn_switch in Hff as (f1 & Ef1 & Hff1).
  change (do_message_done settings (plain (set_state s_message_done (set_content_length 0 q)) v 0) = Ret f1) in Ef1.
  destruct f1 as [?|? ?|?|? ?]; subst; try done. by apply message_done_final in Ef1.
Qed.

(** The marks of a body. *)
Lemma top_body i l q u : top_sim i l q u -> allowed (state_ q) = Some D_body ->
  exists m, mark D_body (MARK D_body l) = Some m /\ (m <= i)%nat /\ held D_body (usr l) m i u /\ counted l = l /\
            (forall d, d <> D_body -> mark d (MARK D_body l) = None) /\ CURRENT_STATE l = state_ q.
Proof.
  intros [Hn Hp [(Hl & _ & Hm) _ _ Hb] Ho Hok He] Ha. assert (Est : CURRENT_STATE l = state_ q) by apply (near_types _ _ Hn).
  unfold owed in Ho. rewrite Est, Ha in Ho.
  assert (Hoth : forall d, d <> D_body -> mark d (MARK D_body l) = None).
  { intros d Hd. specialize (Hm d). rewrite Est, Ha in Hm. unfold MARK. destruct (mark D_body l); rewrite ?mark_set_ne by done; (destruct (mark d l); [destruct Hm; congruence|done]). }
  assert (Hcnt : counted l = l) by (unfold counted; rewrite Est; by destruct (state_ q)).
  unfold MARK in *. destruct (mark D_body l) as [m|] eqn:Em; try rewrite Em in Hoth.
  - exists m. specialize (Hb m Em). rewrite <- Hp. split; [done|]. split; [lia|]. split; [|done]. destruct Ho as [Ho|[? _]]; [by left|lia].
  - exists i. rewrite mark_set. subst u. split; [by rewrite Hp|]. split; [lia|]. split; [by right|done].
Qed.

Lemma caught_intro i r q u : near (par r) q -> owed (set_p (S (p r)) r) u -> parser_ok settings q u -> http_errno q = HPE_OK -> (i <= p r)%nat ->
  rest_run (S (p r)) q u -> caught i r.
Proof. intros. by exists q, u. Qed.

(** What is read of the body in one turn. *)
Definition to_read (i : nat) (q : http_parser) : Z := Z.min (content_length q) (Z.of_nat (length data - i)).
Definition after_read (i : nat) (l : locals) (q : http_parser) : locals :=
  set_p (i + Z.to_nat (to_read i q) - 1) (upd (set_content_length (content_length q - to_read i q)) (MARK D_body l)).

Record in_body (i : nat) (l : locals) (q : http_parser) (u : U) (b : Z) (m : nat) : Prop := {
  ib_top : top_sim i l q u;
  ib_rest : rest_run i q u;
  ib_byte : data !! i = Some b;
  ib_sized : sized (state_ q) = true;
  ib_mark : mark D_body (MARK D_body l) = Some m;
  ib_others d : d <> D_body -> mark d (MARK D_body l) = None;
  ib_m : (m <= i)%nat;
  ib_held : held D_body (usr l) m i u;
  ib_counted : counted l = l;
  ib_at : at_byte settings data b (counted l);
  ib_chunk : chunk_nread 1 (counted l) }.

Lemma in_body_intro i l q u b : top_sim i l q u -> rest_run i q u -> data !! i = Some b -> sized (state_ q) = true -> exists m, in_body i l q u b m.
Proof.
  intros Ht Hr Hb Hs. destruct (top_body i l q u Ht ltac:(by destruct (state_ q))) as (m & Hmk & Hm & Hh & Ec & Hot & Est).
  destruct (rest_cons i b q u Hr Hb (ts_ok _ _ _ _ Ht) (ts_errno _ _ _ _ Ht)) as (q1 & u1 & Hrun & Hrest & Hex).
  destruct (meets_at_byte i l q u b q1 u1) as (A1 & A2 & _); [by constructor|]. exists m. by constructor.
Qed.

Lemma after_read_facts i l q u b m : in_body i l q u b m ->
  par (after_read i l q) = set_content_length (content_length q - to_read i q) (par l) /\ usr (after_read i l q) = usr l /\
  mark D_body (after_read i l q) = Some m /\ (forall d, d <> D_body -> mark d (after_read i l q) = None) /\
  p (after_read i l q) = (i + Z.to_nat (to_read i q) - 1)%nat /\ 1 <= to_read i q <= content_length q /\ (to_read i q <= Z.of_nat (length data - i)).
Proof.
  intros [Ht Hr Hb Hs Hmk Hot Hm Hh Ec A1 A2]. destruct (MARK_same D_body l) as (M1 & M2 & M3).
  destruct (sized_length q u (ts_ok _ _ _ _ Ht) (ts_errno _ _ _ _ Ht) Hs) as [Hlen _]. pose proof (lookup_lt_Some _ _ _ Hb).
  unfold after_read. split; [cbn; by rewrite M1|]. split; [exact M2|]. split; [exact Hmk|]. split; [intros d Hd; exact (Hot d Hd)|]. split; [done|].
  unfold to_read. lia.
Qed.

Lemma sized_switch i l q u b m : in_body i l q u b m ->
  switch settings data b (counted l) =
  if content_length q - to_read i q =? 0 then
    match state_ q with
    | s_chunk_data => goto s_chunk_data_almost_done (after_read i l q)
    | _ => CALLBACK_DATA_ settings data D_body (S (p (after_read i l q))) (p (after_read i l q)) (UPDATE_STATE s_message_done (after_read i l q))
             (fun l => Ret (Reexecute b l))
    end
  else break (after_read i l q).
Proof.
  intros [[[En Hle] Hp _ _ Hok He] Hr Hb Hs Hmk Hot Hm Hh Ec A1 A2]. destruct (sized_length q u Hok He Hs) as [Hlen Hch]. destruct (MARK_same D_body l) as (_ & _ & M3).
  assert (Ecl : content_length (par l) = content_length q) by (by rewrite En). assert (Hf : has_flag F_CHUNKED (par l) = has_flag F_CHUNKED q) by (by rewrite En).
  assert (El : Z.min (content_length q) (left data l) = to_read i q) by (unfold left, to_read; by rewrite Hp).
  assert (Est : CURRENT_STATE l = state_ q) by (unfold CURRENT_STATE; by rewrite En).
  rewrite Ec. unfold switch. rewrite Est. destruct (state_ q); try done.
  - unfold do_chunk_data. cbn zeta. rewrite Hf, Hch by done. cbn [negb]. rewrite Ecl, El.
    rewrite (proj2 (Z.eqb_neq (content_length q) 0)), (proj2 (Z.eqb_neq (content_length q) ULLONG_MAX)) by lia. cbn [orb].
    change (p (upd (set_content_length (content_length q - to_read i q)) (MARK D_body l))) with (p (MARK D_body l)). rewrite M3, Hp. done.
  - unfold do_body_identity. cbn zeta. rewrite Ecl, El.
    rewrite (proj2 (Z.eqb_neq (content_length q) 0)), (proj2 (Z.eqb_neq (content_length q) ULLONG_MAX)) by lia. cbn [orb].
    change (p (upd (set_content_length (content_length q - to_read i q)) (MARK D_body l))) with (p (MARK D_body l)). rewrite M3, Hp. done.
Qed.

(** The body goes on after this buffer. *)
Lemma sized_more i l q u b m : in_body i l q u b m -> content_length q - to_read i q <> 0 ->
  exists f, turn settings data turn_fuel b (counted l) = Ret f /\ advanced i f.
Proof.
  intros Hin Hz. pose proof (sized_switch _ _ _ _ _ _ Hin) as Hsw. rewrite (proj2 (Z.eqb_neq _ _) Hz) in Hsw.
  destruct (after_read_facts _ _ _ _ _ _ Hin) as (Epar & Eu & Em & _ & Ep & Hn & Hn2). destruct Hin as [[[En Hle] Hp _ _ Hok He] Hr Hb Hs Hmk Hot Hm Hh Ec A1 A2].
  pose proof (lookup_lt_Some _ _ _ Hb) as Hlt. assert (Er : to_read i q = Z.of_nat (length data - i)) by (unfold to_read in *; lia).
  destruct (body_run (length data - i) i q u (usr l) m Hok He Hs) as (ue & Hre & Hoke & Hhe); try done; [lia|lia|].
  replace (i + (length data - i))%nat with (length data) in * by lia. assert (Ep2 : S (p (after_read i l q)) = length data) by lia.
  eapply advanced_break; [done|done|apply turn_break; exact Hsw|].
  apply (caught_intro _ _ (set_content_length (content_length q - Z.of_nat (length data - i)) q) ue); rewrite ?Ep2; try done; [| |lia].
  - rewrite Epar, En, Er. by split.
  - unfold owed, CURRENT_STATE. cbn [par set_p]. rewrite Epar, En. cbn [state_ set_content_length set_nread].
    replace (allowed (state_ q)) with (Some D_body) by (by destruct (state_ q)). rewrite mark_p, Em. left. rewrite <- Eu in Hhe. destruct Hhe as [H|[? _]]; [exact H|lia].
Qed.

(** The bytes before the last one. *)
Lemma sized_last i l q u b m : in_body i l q u b m -> content_length q - to_read i q = 0 ->
  let e := p (after_read i l q) in
  exists be ue q2 u2, (i <= e)%nat /\ data !! e = Some be /\ held D_body (usr l) m e ue /\
    byte_run be (set_content_length 1 q) ue q2 u2 /\ parser_ok settings (set_content_length 1 q) ue /\ rest_run (S e) q2 u2 /\
    (S e = length data \/ exited q2 = false).
Proof.
  intros Hin Hz. cbn zeta. destruct (after_read_facts _ _ _ _ _ _ Hin) as (_ & _ & _ & _ & Ep & Hn & Hn2). set (e := p (after_read i l q)) in *.
  destruct Hin as [[_ Hp _ _ Hok He] Hr Hb Hs Hmk Hot Hm Hh Ec A1 A2]. pose proof (lookup_lt_Some _ _ _ Hb) as Hlt.
  destruct (body_run (e - i) i q u (usr l) m Hok He Hs) as (ue & Hre & Hoke & Hhe); try done; [lia|lia|].
  replace (i + (e - i))%nat with e in * by lia. replace (content_length q - Z.of_nat (e - i)) with 1 in * by lia.
  destruct (lookup_lt_is_Some_2 data e) as [be Hbe]; [lia|]. destruct (rest_cons e be _ ue Hre Hbe Hoke He) as (q2 & u2 & Hrun2 & Hrest2 & Hex2).
  exists be, ue, q2, u2. split; [lia|]. done.
Qed.

Lemma chunk_last i l q u b m : in_body i l q u b m -> content_length q - to_read i q = 0 -> state_ q = s_chunk_data ->
  exists f, turn settings data turn_fuel b (counted l) = Ret f /\ advanced i f.
Proof.
  intros Hin Hz Es. pose proof (sized_switch _ _ _ _ _ _ Hin) as Hsw. rewrite (proj2 (Z.eqb_eq _ _) Hz), Es in Hsw.
  destruct (after_read_facts _ _ _ _ _ _ Hin) as (Epar & Eu & Em & _ & _). destruct (sized_last _ _ _ _ _ _ Hin Hz) as (be & ue & q2 & u2 & Hie & Hbe & Hhe & Hrun2 & Hoke & Hrest2 & _).
  destruct Hin as [[[En Hle] Hp _ _ Hok He] Hr Hb Hs Hmk Hot Hm Hh Ec A1 A2].
  destruct (byte_last_chunk be _ ue q2 u2 Hrun2 Hoke He Es eq_refl) as [-> Hd].
  eapply advanced_break; [done|done|apply turn_break; exact Hsw|].
  apply (caught_intro _ _ (set_state s_chunk_data_almost_done (set_content_length 0 q)) u2); try done.
  - cbn [par UPDATE_STATE upd set_par]. rewrite Epar, Hz, En. by split.
  - unfold owed, CURRENT_STATE. cbn [par set_p UPDATE_STATE upd set_par state_ set_state allowed].
    change (mark D_body _) with (mark D_body (after_read i l q)). rewrite Em. left.
    pose proof (held_snoc _ _ _ _ _ _ _ Hhe Hbe Hd) as [H|[? _]]; [|lia]. rewrite <- Eu in H. exact H.
  - exact (br_ok _ _ _ _ _ Hrun2).
Qed.

Lemma body_last i l q u b m : in_body i l q u b m -> content_length q - to_read i q = 0 -> state_ q = s_body_identity ->
  exists f, turn settings data turn_fuel b (counted l) = Ret f /\ advanced i f.
Proof.
  intros Hin Hz Es. pose proof (sized_switch _ _ _ _ _ _ Hin) as Hsw. rewrite (proj2 (Z.eqb_eq _ _) Hz), Es in Hsw.
  destruct (after_read_facts _ _ _ _ _ _ Hin) as (Epar & Eu & Em & Eo & _). destruct (sized_last _ _ _ _ _ _ Hin Hz) as (be & ue & q2 & u2 & Hie & Hbe & Hhe & Hrun2 & Hoke & Hrest2 & Hex2).
  set (e := p (after_read i l q)) in *. destruct Hin as [[[En Hle] Hp _ _ Hok He] Hr Hb Hs Hmk Hot Hm Hh Ec A1 A2].
  destruct (byte_last_body be _ ue q2 u2 Hrun2 Hoke He Es eq_refl) as (v & Hv & f' & Ef' & Hc' & Hf').
  assert (Hdel : delivered D_body (usr l) (slice data m (S e)) v) by (destruct (held_snoc _ _ _ _ _ _ _ Hhe Hbe Hv) as [[_ H]|[? _]]; [done|lia]).
  set (q3 := set_state s_message_done (set_content_length 0 q)) in *.
  rewrite (data_some data) with (m := m) (u := v) in Hsw;
    [|change (http_errno (par (after_read i l q)) = HPE_OK); rewrite Epar, En; exact He|exact Em|change (usr (UPDATE_STATE _ _)) with (usr (after_read i l q)); by rewrite Eu].
  set (l3 := set_mark _ _ _) in Hsw.
  assert (El3 : l3 = plain (set_nread (nread (par l)) q3) v e).
  { rewrite (no_marks_plain l3).
    - change (plain (set_state s_message_done (par (after_read i l q))) v e = plain (set_nread (nread (par l)) q3) v e). rewrite Epar, Hz, En. done.
    - intros d. unfold l3. destruct (decide (d = D_body)) as [->|Hd]; [by rewrite mark_set|]. rewrite mark_set_ne, mark_usr by done. exact (Eo d Hd). }
  destruct (rel_message_done data e (nread (par l)) q3 v Hle f' Ef' Hc') as (f & Ef & Hsim).
  destruct (turn_safe settings data turn_fuel b (counted l) Hdata A1 A2 (rank_fuel _)) as (f2 & E2 & Hsafe).
  exists f2. split; [done|]. unfold turn_fuel in E2. cbn [turn] in E2. rewrite Hsw in E2. cbn [res_bind] in E2. rewrite El3 in E2.
  change (switch settings data b (plain (set_nread (nread (par l)) q3) v e)) with (do_message_done settings (plain (set_nread (nread (par l)) q3) v e)) in E2.
  rewrite Ef in E2. cbn [res_bind] in E2. assert (Hno : forall c r, f <> Reexecute c r) by (intros c r ->; by destruct f').
  assert (f2 = f) as -> by (destruct f; try congruence; by edestruct Hno).
  rewrite Ec, Hp in Hsafe. eapply advanced_of_sim; try done; [exact (br_ok _ _ _ _ _ Hrun2)|exact (br_errno _ _ _ _ _ Hrun2)].
Qed.

Lemma body_step i l q u b : top_sim i l q u -> rest_run i q u -> data !! i = Some b -> sized (state_ q) = true ->
  exists f, turn settings data turn_fuel b (counted l) = Ret f /\ advanced i f.
Proof.
  intros Ht Hr Hb Hs. destruct (in_body_intro i l q u b Ht Hr Hb Hs) as [m Hin].
  destruct (decide (content_length q - to_read i q = 0)) as [Hz|Hz]; [|by eapply sized_more].
  destruct (state_ q) eqn:Es; try done; [by eapply chunk_last|by eapply body_last].
Qed.

(** A body that lasts until the connection is closed. *)
Lemma byte_eof b q u q1 u1 : byte_run b q u q1 u1 -> state_ q = s_body_identity_eof -> q1 = q /\ delivered D_body u [b] u1.
Proof.
  intros [Hf (f & Ef & Hc & Hf2) Hok1 He1] Es. rewrite counted_body in Ef by (by rewrite Es). apply turn_switch in Ef as (f0 & Ef0 & Hff).
  unfold switch, CURRENT_STATE in Ef0. cbn [par plain] in Ef0. rewrite Es in Ef0. injection Ef0 as <-. subst f. destruct Hf2 as (_ & _ & <- & Hp).
  split; [done|]. unfold pending, CURRENT_STATE in Hp. cbn in Hp. by rewrite Es in Hp.
Qed.

Lemma eof_run k j q u u0 m : parser_ok settings q u -> http_errno q = HPE_OK -> state_ q = s_body_identity_eof -> (j + k <= length data)%nat ->
  rest_run j q u -> held D_body u0 m j u -> exists ue, rest_run (j + k) q ue /\ parser_ok settings q ue /\ held D_body u0 m (j + k) ue.
Proof.
  revert j u. induction k as [|k IH]; intros j u Hok He Es Hj Hr Hh; [exists u; by rewrite Nat.add_0_r|].
  destruct (lookup_lt_is_Some_2 data j) as [b Hb]; [lia|]. destruct (rest_cons j b q u Hr Hb Hok He) as (q1 & u1 & Hrun & Hrest & _).
  destruct (byte_eof b q u q1 u1 Hrun Es) as [-> Hd]. replace (j + S k)%nat with (S j + k)%nat by lia.
  apply (IH (S j) u1); try done; [exact (br_ok _ _ _ _ _ Hrun)|lia|by eapply held_snoc].
Qed.

Lemma eof_step i l q u b : top_sim i l q u -> rest_run i q u -> data !! i = Some b -> state_ q = s_body_identity_eof ->
  exists f, turn settings data turn_fuel b (counted l) = Ret f /\ advanced i f.
Proof.
  intros Ht Hr Hb Es. destruct (top_body i l q u Ht ltac:(by rewrite Es)) as (m & Hmk & Hm & Hh & Ec & Hot & Est). pose proof (lookup_lt_Some _ _ _ Hb) as Hlt.
  destruct (rest_cons i b q u Hr Hb (ts_ok _ _ _ _ Ht) (ts_errno _ _ _ _ Ht)) as (q1 & u1 & Hrun & Hrest & Hex).
  destruct (meets_at_byte i l q u b q1 u1) as (A1 & A2 & _); [by constructor|]. destruct Ht as [Hn Hp _ _ Hok He]. destruct (MARK_same D_body l) as (M1 & M2 & M3).
  destruct (eof_run (length data - i) i q u (usr l) m Hok He Es ltac:(lia) Hr Hh) as (ue & Hre & Hoke & Hhe).
  replace (i + (length data - i))%nat with (length data) in * by lia.
  eapply advanced_break; [done|done| |].
  { apply turn_break. rewrite Ec. unfold switch. rewrite Est, Es. reflexivity. }
  apply (caught_intro _ _ q ue); cbn [par p set_p]; rewrite ?M1; replace (S (length data - 1)) with (length data) by lia; try done; [|lia].
  unfold owed. change (CURRENT_STATE _) with (CURRENT_STATE (MARK D_body l)). unfold CURRENT_STATE in *. rewrite M1, Est, Es. cbn [allowed].
  change (mark D_body _) with (mark D_body (MARK D_body l)). rewrite Hmk. left. rewrite <- M2 in Hhe. destruct Hhe as [H|[? _]]; [exact H|lia].
Qed.

(** After the data of a chunk. *)
Lemma chunk_end_step i l q u b : top_sim i l q u -> rest_run i q u -> data !! i = Some b -> state_ q = s_chunk_data_almost_done ->
  exists f, turn settings data turn_fuel b (counted l) = Ret f /\ advanced i f.
Proof.
  intros Ht Hr Hb Es. destruct (top_body i l q u Ht ltac:(by rewrite Es)) as (_ & _ & _ & _ & Ec & _ & Est).
  destruct (rest_cons i b q u Hr Hb (ts_ok _ _ _ _ Ht) (ts_errno _ _ _ _ Ht)) as (q1 & u1 & Hrun & Hrest & Hex).
  destruct (meets_at_byte i l q u b q1 u1) as (A1 & A2 & _); [by constructor|]. destruct Ht as [Hn Hp [_ _ _ Hbm] Ho Hok He].
  destruct (proj2 Hok He) as (Hl & _). pose proof (lv_state _ Hl) as Hst. unfold state_ok in Hst. rewrite Es in Hst. destruct Hst as [Hfl Hz].
  assert (E : b = CR /\ q1 = set_state s_chunk_data_done q /\ u1 = u).
  { destruct Hrun as [_ (f & Ef & Hc & Hf2) _ _]. rewrite counted_body in Ef by (by rewrite Es). apply turn_switch in Ef as (f0 & Ef0 & Hff).
    unfold switch, CURRENT_STATE in Ef0. cbn [par plain] in Ef0. rewrite Es in Ef0. unfold do_chunk_data in Ef0. cbn [par plain] in Ef0. rewrite Hfl, Hz in Ef0.
    cbn [negb Z.eqb] in Ef0. unfold STRICT_CHECK in Ef0. destruct (Z.eqb_spec b CR) as [->|Hb2]; [|injection Ef0 as <-; by subst f]. cbn [negb] in Ef0.
    unfold CALLBACK_DATA in Ef0. rewrite data_none in Ef0 by done. injection Ef0 as <-. subst f. destruct Hf2 as (_ & _ & <- & Hpe). done. }
  destruct E as (-> & -> & ->). assert (Hsw : exists r, switch settings data CR (counted l) = Ret (Break r) /\ par r = set_state s_chunk_data_done (par l) /\ usr r = u /\ p r = i).
  { rewrite Ec. unfold switch. rewrite Est, Es. unfold do_chunk_data. destruct Hn as [En _]. replace (has_flag F_CHUNKED (par l)) with true by (rewrite En; done).
    replace (content_length (par l)) with 0 by (rewrite En; done). cbn [negb Z.eqb STRICT_CHECK Pos.eqb]. unfold CALLBACK_DATA.
    assert (Hel : http_errno (par (UPDATE_STATE s_chunk_data_done l)) = HPE_OK) by (cbn; rewrite En; exact He).
    unfold owed in Ho. rewrite Est, Es in Ho. cbn [allowed] in Ho. destruct (mark D_body l) as [m|] eqn:Em.
    - specialize (Hbm m Em). destruct Ho as [[_ Hd]|[? _]]; [|lia]. rewrite (data_some data) with (m := m) (u := u); [|done|exact Em|exact Hd]. by eexists.
    - subst u. rewrite data_none by done. by eexists. }
  destruct Hsw as (r & Hsw & R1 & R2 & R3). eapply advanced_break; [done|done|by apply turn_break|].
  apply (caught_intro _ _ (set_state s_chunk_data_done q) u); rewrite ?R1, ?R3; try done; [by apply near_state| |exact (br_ok _ _ _ _ _ Hrun)].
  unfold owed, CURRENT_STATE. cbn [par set_p]. rewrite R1. cbn. by rewrite R2.
Qed.

(** *** The loop *)
Lemma any_step i l q u b : top_sim i l q u -> rest_run i q u -> data !! i = Some b ->
  exists f, turn settings data turn_fuel b (counted l) = Ret f /\ advanced i f.
Proof.
  intros Ht Hr Hb. destruct (one_byte (state_ q)) eqn:Eo.
  - destruct (rest_cons i b q u Hr Hb (ts_ok _ _ _ _ Ht) (ts_errno _ _ _ _ Ht)) as (q1 & u1 & Hrun & Hrest & Hex).
    by apply (one_byte_step i l q u b q1 u1).
  - destruct (state_ q) eqn:Es; try done; [by eapply header_field_step|by eapply header_value_step
      |eapply body_step; try done; by rewrite Es|by eapply chunk_end_step|eapply body_step; try done; by rewrite Es|by eapply eof_step].
Qed.

Lemma loop_cuts fuel i l q u : data <> [] -> top_sim i l q u -> rest_run i q u -> (length data - i <= fuel)%nat ->
  exists l', loop settings data fuel l = Ret (length data, l') /\ near (par l') qf /\ usr l' = uf.
Proof.
  intros Hne. revert i l q u. induction fuel as [|fuel IH]; intros i l q u Ht Hr Hf.
  all: destruct (decide (i = length data)) as [->|Hi].
  2: { pose proof (at_p _ _ _ (ts_top _ _ _ _ Ht)) as H. rewrite (ts_p _ _ _ _ Ht) in H. lia. }
  1,2: destruct Ht as [Hn Hp [(Hl & _ & Hm) _ _ _] Ho Hok He]; unfold rest_run in Hr; rewrite drop_ge in Hr by lia; injection Hr as -> ->;
    (assert (Hpe : pending data l uf) by
      (unfold owed, pending in *; destruct (allowed (CURRENT_STATE l)) as [d|]; [|done]; destruct (mark d l); [|done];
       destruct Ho as [[_ H]|[H0 _]]; [done|]; rewrite Hp in H0; by apply length_zero_iff_nil in H0)).
  1,2: destruct (finish_pending data l uf Hm (lv_errno _ Hl) Hpe) as (l' & E & E1 & E2); exists l'; cbn [loop]; rewrite decide_True by done; rewrite E;
    split; [done|]; by rewrite E1.
  pose proof (ts_p _ _ _ _ Ht) as Hp. pose proof (at_p _ _ _ (ts_top _ _ _ _ Ht)) as Hle. rewrite Hp in Hle.
  destruct (lookup_lt_is_Some_2 data i) as [b Hb]; [lia|]. destruct (any_step i l q u b Ht Hr Hb) as (f & Ef & Hadv).
  destruct (rest_cons i b q u Hr Hb (ts_ok _ _ _ _ Ht) (ts_errno _ _ _ _ Ht)) as (q1 & u1 & Hrun & _).
  rewrite (loop_step data fuel l b); [|apply (ts_top _ _ _ _ Ht)|eapply near_fits; [exact (ts_near _ _ _ _ Ht)|exact (br_fits _ _ _ _ _ Hrun)]|by rewrite Hp].
  rewrite Ef. cbn [res_bind]. destruct f as [r|?|?|n r]; try done.
  - destruct Hadv as (q2 & u2 & Ht2 & Hi2 & Hr2). by apply (IH _ _ q2 u2 Ht2 Hr2); lia.
  - destruct Hadv as (-> & Hn & Hu). by exists r.
Qed.
End Run.

(** ** Buffers *)
Lemma execute_cuts data q q0 u qf uf : data <> [] -> Forall is_byte data -> parser_ok settings q u -> parser_ok settings q0 u -> http_errno q0 = HPE_OK ->
  near q q0 -> feed (singly data) q0 u = Some (qf, uf) ->
  exists q', http_parser_execute settings data q u = Ret (length data, q', uf) /\ near q' qf.
Proof.
  intros Hne Hd Hok Hok0 He Hn Hf. assert (He1 : http_errno q = HPE_OK) by (by rewrite (proj1 (near_types _ _ Hn))).
  destruct (initial_same q u) as (I1 & I2 & I3). unfold http_parser_execute. rewrite decide_True by done.
  destruct (loop_cuts data Hd qf uf (length data) 0 (initial_locals q u) q0 u Hne) as (l' & E & Hn' & Hu'); [|done|lia|].
  - constructor; [by rewrite I1|done|by apply initial_top| |done|done]. unfold owed. rewrite I2, I3.
    destruct (allowed _); [|done]. destruct (mark _ _); [by right|done].
  - exists (par l'). split; [|done]. destruct data; [done|]. rewrite E. cbn [res_bind]. unfold answer. cbn [fst snd]. by rewrite Hu'.
Qed.

Lemma accept_inv buf q u q1 u1 : accept buf q u = Some (q1, u1) ->
  http_parser_execute settings buf q u = Ret (length buf, q1, u1) /\ http_errno q1 = HPE_OK.
Proof.
  unfold accept. destruct (http_parser_execute settings buf q u) as [[[n q'] u']| | |]; try done. case_decide as H; [|done].
  intros [= <- <-]. destruct H as [-> He]. done.
Qed.

Lemma accept_ok buf q u q1 u1 : Forall is_byte buf -> parser_ok settings q u -> accept buf q u = Some (q1, u1) -> parser_ok settings q1 u1.
Proof.
  intros Hb Hok [E _]%accept_inv. destruct (execute_safe settings buf q u Hok Hb) as (n & q' & u' & E' & Hok' & _). congruence.
Qed.

Lemma accept_errno buf q u q1 u1 : buf <> [] -> accept buf q u = Some (q1, u1) -> http_errno q = HPE_OK.
Proof.
  intros Hne [E _]%accept_inv. unfold http_parser_execute in E. case_decide; [done|]. injection E as E _ _. symmetry in E. by apply length_zero_iff_nil in E.
Qed.

Lemma feed_cons buf bufs q u z : feed (buf :: bufs) q u = Some z ->
  exists q1 u1, accept buf q u = Some (q1, u1) /\ (bufs = [] \/ halt q1 = false) /\ feed bufs q1 u1 = Some z.
Proof.
  cbn [feed]. destruct (accept buf q u) as [[q1 u1]|]; [|done]. intros H. exists q1, u1. split; [done|]. destruct bufs; [by split; [left|]|].
  destruct (halt q1); [done|]. by split; [right|].
Qed.
Lemma feed_cons_ok buf bufs q u q1 u1 z : accept buf q u = Some (q1, u1) -> bufs = [] \/ halt q1 = false -> feed bufs q1 u1 = Some z ->
  feed (buf :: bufs) q u = Some z.
Proof. intros E Hx Hf. cbn [feed]. rewrite E. destruct bufs; [done|]. destruct Hx as [?|Hx]; [done|]. by rewrite Hx. Qed.

Lemma feed_split x y q u z : Forall is_byte x -> parser_ok settings q u -> feed (singly (x ++ y)) q u = Some z ->
  exists q1 u1, feed (singly x) q u = Some (q1, u1) /\ parser_ok settings q1 u1 /\ feed (singly y) q1 u1 = Some z /\
    (x = [] \/ http_errno q1 = HPE_OK /\ (y = [] \/ halt q1 = false)).
Proof.
  intros Hx. revert q u. induction Hx as [|b x Hb Hx IH]; intros q u Hok Hf; [exists q, u; auto|].
  apply feed_cons in Hf as (q1 & u1 & Ha & Hex & Hf). assert (Hok1 : parser_ok settings q1 u1) by (eapply accept_ok; [|done|done]; by apply Forall_singleton).
  destruct (IH q1 u1 Hok1 Hf) as (q2 & u2 & F1 & Hok2 & F2 & Hc). exists q2, u2. split; [|split; [done|split; [done|right]]].
  - eapply feed_cons_ok; [done| |done]. destruct Hex as [Hnil|]; [left|by right]. apply map_eq_nil in Hnil. apply app_nil in Hnil as [-> _]. done.
  - destruct Hc as [-> |Hc]; [|done]. injection F1 as -> ->. split; [by apply accept_inv in Ha as [_ ?]|]. destruct Hex as [Hnil|]; [left|by right]. by apply map_eq_nil in Hnil.
Qed.

(** Buffers and single bytes. *)
Lemma feed_cuts bufs q q0 u qf uf : Forall (fun b => b <> []) bufs -> Forall (Forall is_byte) bufs ->
  parser_ok settings q u -> parser_ok settings q0 u -> near q q0 -> feed (singly (concat bufs)) q0 u = Some (qf, uf) ->
  exists q', feed bufs q u = Some (q', uf) /\ near q' qf.
Proof.
  intros Hne Hb. revert q q0 u Hne. induction Hb as [|buf bufs Hbuf Hbufs IH]; intros q q0 u Hne Hok Hok0 Hn Hf.
  - injection Hf as <- <-. by exists q.
  - apply Forall_cons in Hne as [Hne Hnes]. cbn [concat] in Hf.
    destruct (feed_split buf (concat bufs) q0 u (qf, uf) Hbuf Hok0 Hf) as (q1 & u1 & F1 & Hok1 & F2 & [?|[He1 Hx]]); [done|].
    assert (He0 : http_errno q0 = HPE_OK).
    { destruct buf as [|b buf]; [done|]. apply feed_cons in F1 as (? & ? & Ha & _). exact (accept_errno [b] _ _ _ _ ltac:(done) Ha). }
    destruct (execute_cuts buf q q0 u q1 u1 Hne Hbuf Hok Hok0 He0 Hn F1) as (q2 & E & Hn2).
    destruct (near_types _ _ Hn2) as (T1 & T2 & T3).
    assert (Ha : accept buf q u = Some (q2, u1)) by (unfold accept; rewrite E, decide_True by (split; [done|congruence]); done).
    destruct (IH q2 q1 u1 Hnes) as (q3 & F3 & Hn3); try done; [exact (accept_ok buf q u q2 u1 Hbuf Hok Ha)|]. exists q3. split; [|done].
    eapply feed_cons_ok; [done| |done]. destruct Hx as [Hc|Hx]; [left|right; by rewrite (proj1 Hn2), halt_nread].
    destruct bufs as [|b2 bufs]; [done|]. apply Forall_cons in Hnes as [Hb2 _]. by destruct b2.
Qed.

Lemma near_refl q : near q q.
Proof. split; [by destruct q|done]. Qed.
End Cuts.
