(* ===== verification/HttpDecode.v ===== *)
(** * HTTP messages: safety of http::Parser and of the decoders

    [http::Parser] keeps the promises of a user of the C parser, so that the
    parser returns for every input, and the cuts of the input into buffers do
    not matter.  What a decoder throws is an [IOError]. *)

From S2P Require Import Prelude HttpSyntax HttpExec HttpSafe HttpCuts HttpMessage.
Local Open Scope cpp_scope.
Local Open Scope Z_scope.

(** ** http::Parser as a handler

    A value is only taken after a field, which is what [s_] records. *)
#[export] Program Instance http_handler : Handler settings_ := {|
  ready b s := b = true -> s_ s <> INIT |}.
Next Obligation. done. Qed.
Next Obligation.
  intros f s q [= <-] _. unfold message_begin_cb. case_match; by eexists _, _.
Qed.
Next Obligation.
  intros f s q b [[= <-]|[[= <-]|[[=]|[=]]]] Hs; (eexists _, _; split; [done|]); [|done]. intros Hb. specialize (Hs Hb). by destruct s as [? ? ? [] ? ? ?].
Qed.
Next Obligation.
  intros f s q a [= <-] _. eexists _, _. split; [done|]. intros _. destruct s as [? ? ? [] ? ? ?]; done.
Qed.
Next Obligation. done. Qed.
Next Obligation.
  intros f s q a [= <-] Hs. specialize (Hs eq_refl). unfold header_value_cb. destruct (s_ s); [done|by eexists _, _..].
Qed.
Next Obligation. intros f s q a [= <-] Ha _. unfold body_cb. destruct a; [done|]. by eexists _, _. Qed.
Next Obligation. intros d f s q a [-> | ->] [=] _; subst. by eexists _, _. Qed.

(** ** Reachable parsers *)

(** What the decoders do with a parser. *)
Inductive reachable : Parser -> Prop :=
| reach_new is_request allow_body : reachable (new_parser is_request allow_body)
| reach_execute d buf n d' : reachable d -> Forall is_byte buf -> execute buf d = Ret (n, d') -> reachable d'
| reach_move d : reachable d -> reachable (snd (moveResult d)).

Definition decoder_ok (d : Parser) : Prop := parser_ok settings_ (parser_ d) (self_ d).

Lemma new_parser_ok is_request allow_body : decoder_ok (new_parser is_request allow_body).
Proof.
  split; [destruct is_request; constructor; cbn; lia|]. intros _.
  split; [|by destruct is_request]. destruct is_request; (constructor; [constructor; cbn; lia|done..]).
Qed.

Lemma execute_ok d buf : decoder_ok d -> Forall is_byte buf ->
  exists n d', execute buf d = Ret (n, d') /\ decoder_ok d' /\ (n <= Nat.max 1 (length buf))%nat /\
    (n < length buf -> http_errno (parser_ d') <> HPE_OK \/ upgrade (parser_ d') = true)%nat.
Proof.
  intros Hd Hb. destruct (execute_safe settings_ buf (parser_ d) (self_ d) Hd Hb) as (n & q & u & E & Hok & Hn & Hend).
  exists n, (mkHttpParser q u). unfold execute. rewrite E. done.
Qed.

Lemma moveResult_ok d : decoder_ok d -> decoder_ok (snd (moveResult d)).
Proof.
  intros [Ht H]. split; [done|]. intros He. destruct (H He) as (Hl & Hu & Hc). split; [done|]. split; [|done].
  intros Hv. specialize (Hu Hv). cbn. by destruct (completed_ (self_ d)).
Qed.

Lemma reachable_ok d : reachable d -> decoder_ok d.
Proof.
  induction 1 as [r b|d buf n d' _ IH Hb E|d _ IH]; [apply new_parser_ok| |by apply moveResult_ok].
  destruct (execute_ok d buf IH Hb) as (n' & d2 & E' & Hok & _). congruence.
Qed.

(** C8: whatever bytes an http::Parser has been given and is given now,
    http_parser_execute returns: no assertion of the parser or of its callbacks
    fails, no table or string is read out of bounds, no loop runs forever.  It
    stops before the end of the input only with an error or at an upgrade, and
    reports at most the length of the input (1 for an unexpected end of file). *)
Theorem http_execute_safe d buf : reachable d -> Forall is_byte buf ->
  exists n d', execute buf d = Ret (n, d') /\ (n <= Nat.max 1 (length buf))%nat /\
    (n < length buf -> http_errno (parser_ d') <> HPE_OK \/ upgrade (parser_ d') = true)%nat.
Proof.
  intros Hd%reachable_ok Hb. destruct (execute_ok d buf Hd Hb) as (n & d' & E & _ & Hn & Hend). by exists n, d'.
Qed.

Lemma http_execute_safe_witness :
  exists n d', execute (bytes "GET /x HTTP/1.1") (new_parser true true) = Ret (n, d') /\ (n <= Nat.max 1 15)%nat /\
    (n < 15 -> http_errno (parser_ d') <> HPE_OK \/ upgrade (parser_ d') = true)%nat.
Proof.
  apply (http_execute_safe (new_parser true true) (bytes "GET /x HTTP/1.1")); [apply reach_new|].
  vm_compute. repeat constructor; done.
Defined.

(** Every field of the C parser fits its bit width in every reachable
    state, and as long as there is no error the header is at most 80 KiB, the
    version numbers and the status code at most 999, and a known content length
    is not the "unknown" value. *)
Theorem http_parser_bounds d : reachable d ->
  let q := parser_ d in
  types_ok q /\
  (http_errno q = HPE_OK -> 0 <= nread q <= HTTP_MAX_HEADER_SIZE /\ http_major q <= 999 /\ http_minor q <= 999 /\ status_code q <= 999 /\
     (state_ q = s_body_identity \/ state_ q = s_chunk_data -> 0 < content_length q < ULLONG_MAX)).
Proof.
  intros [Ht Hok]%reachable_ok. cbn zeta. split; [done|]. intros He. destruct (Hok He) as (Hl & _).
  pose proof (lv_state _ Hl) as Hs. destruct Hl as [_ _ _ Hn Hma Hmi Hst]. split; [destruct Ht; lia|]. do 3 (split; [done|]).
  intros E. unfold state_ok in Hs. pose proof (t_length _ Ht). unfold some_length, ULLONG_MAX in *.
  destruct E as [E|E]; rewrite E in Hs; lia.
Qed.

Lemma http_parser_bounds_witness : types_ok (parser_ (new_parser false true)).
Proof. apply (http_parser_bounds (new_parser false true)). apply reach_new. Defined.

(** ** The decoders *)

Definition io_error {A} (r : res A) : Prop := match r with Ret _ | Throw (IOError _) => True | _ => False end.

Lemma request_loop_ok bufs d : Forall (Forall is_byte) bufs -> decoder_ok d ->
  exists r d' rest, request_loop bufs d = (r, d', rest) /\ io_error r /\ decoder_ok d' /\ (r = Ret tt -> no_bytes rest = true).
Proof.
  intros Hb. revert d. induction Hb as [|buf bufs Hbuf _ IH]; intros d Hd; cbn [request_loop]; [by eexists _, _, _|].
  destruct (no_bytes (buf :: bufs)) eqn:E0; [by eexists _, _, _|]. destruct (execute_ok d buf Hd Hbuf) as (n & d' & -> & Hd' & _).
  case_match; [by eexists _, _, _|]. case_decide; [by apply IH|by eexists _, _, _].
Qed.

Lemma response_loop_ok bufs d : Forall (Forall is_byte) bufs -> decoder_ok d ->
  exists r d' rest, response_loop bufs d = (r, d', rest) /\ io_error r /\ decoder_ok d' /\ (r = Ret tt -> no_bytes rest = true).
Proof.
  intros Hb. revert d. induction Hb as [|buf bufs Hbuf _ IH]; intros d Hd; cbn [response_loop]; [by eexists _, _, _|].
  destruct (no_bytes (buf :: bufs)) eqn:E0; [by eexists _, _, _|]. destruct (execute_ok d buf Hd Hbuf) as (n & d' & -> & Hd' & _).
  case_decide; [by apply IH|by eexists _, _, _].
Qed.

Lemma poll_result_ok r d rest : io_error r -> decoder_ok d -> (r = Ret tt -> no_bytes rest = true) ->
  exists o d' rest', poll_result (r, d, rest) = (o, d', rest') /\ io_error o /\ decoder_ok d' /\ (forall f, o = Ret f -> no_bytes rest' = true).
Proof.
  intros Hr Hd Hrest. destruct r as [[]|e|?|]; cbn in Hr; try done; cbn [poll_result]; [|by eexists _, _, _].
  specialize (Hrest eq_refl). case_match; [|by eexists _, _, _]. eexists _, _, _. split; [done|]. split; [done|]. split; [by apply moveResult_ok|done].
Qed.

(** A decoder that only sees bytes, from a new one. *)
Inductive decoder_reachable : Parser -> Prop :=
| dreach_request : decoder_reachable new_request_decoder
| dreach_response : decoder_reachable new_response_decoder
| dreach_request_decode d bufs : decoder_reachable d -> Forall (Forall is_byte) bufs -> decoder_reachable (snd (fst (request_decode d bufs)))
| dreach_response_decode d bufs : decoder_reachable d -> Forall (Forall is_byte) bufs -> decoder_reachable (snd (fst (response_decode d bufs))).

Lemma request_decode_ok d bufs : Forall (Forall is_byte) bufs -> decoder_ok d ->
  exists o d' rest, request_decode d bufs = (o, d', rest) /\ io_error o /\ decoder_ok d' /\ (forall f, o = Ret f -> no_bytes rest = true).
Proof.
  intros Hb Hd. destruct (request_loop_ok bufs d Hb Hd) as (r & d' & rest & E & Hr & Hd' & Hrest). unfold request_decode. rewrite E.
  by apply poll_result_ok.
Qed.
Lemma response_decode_ok d bufs : Forall (Forall is_byte) bufs -> decoder_ok d ->
  exists o d' rest, response_decode d bufs = (o, d', rest) /\ io_error o /\ decoder_ok d' /\ (forall f, o = Ret f -> no_bytes rest = true).
Proof.
  intros Hb Hd. destruct (response_loop_ok bufs d Hb Hd) as (r & d' & rest & E & Hr & Hd' & Hrest). unfold response_decode. rewrite E.
  by apply poll_result_ok.
Qed.

Lemma decoder_reachable_ok d : decoder_reachable d -> decoder_ok d.
Proof.
  induction 1 as [| |d bufs _ IH Hb|d bufs _ IH Hb]; [apply new_parser_ok..| |].
  - by destruct (request_decode_ok d bufs Hb IH) as (o & d' & rest & -> & _ & Hd & _).
  - by destruct (response_decode_ok d bufs Hb IH) as (o & d' & rest & -> & _ & Hd & _).
Qed.

(** The decode of the HTTP decoders, at any time of their life and for any
    buffers, either takes the whole queue or throws an IOError: it never
    asserts, runs forever or throws anything else. *)
Theorem http_decode_errors d bufs : decoder_reachable d -> Forall (Forall is_byte) bufs ->
  (exists o d' rest, request_decode d bufs = (o, d', rest) /\ io_error o /\ (forall f, o = Ret f -> no_bytes rest = true)) /\
  (exists o d' rest, response_decode d bufs = (o, d', rest) /\ io_error o /\ (forall f, o = Ret f -> no_bytes rest = true)).
Proof.
  intros Hd%decoder_reachable_ok Hb. split.
  - destruct (request_decode_ok d bufs Hb Hd) as (o & d' & rest & E & Ho & _ & Hr). by exists o, d', rest.
  - destruct (response_decode_ok d bufs Hb Hd) as (o & d' & rest & E & Ho & _ & Hr). by exists o, d', rest.
Qed.

Lemma http_decode_errors_witness :
  exists o d' rest, request_decode new_request_decoder [bytes "GET"; bytes " ?"] = (o, d', rest) /\ io_error o /\ (forall f, o = Ret f -> no_bytes rest = true).
Proof.
  refine (proj1 (http_decode_errors new_request_decoder [bytes "GET"; bytes " ?"] dreach_request _)). vm_compute. repeat constructor; done.
Defined.

(** ** The cuts of the input *)

(** [http::Parser] appends the pieces of a string, and its callbacks do not look
    at the count of header bytes. *)
#[export] Program Instance http_appends : Appends settings_.
Next Obligation. intros d f u q q' a E. destruct d; cbn in E; try done; by injection E as <-. Qed.
Next Obligation.
  intros d f u q u1 x y E Hb. destruct d; cbn in E; try done; injection E as <-.
  - destruct u as [ab fi va [] hc co rq]; intros [= <-]; unfold header_field_cb; cbn; by rewrite <- ?app_assoc.
  - destruct u as [ab fi va [] hc co rq]; [done|..]; intros [= <-]; unfold header_value_cb; cbn; by rewrite <- ?app_assoc.
  - intros [= <-]. unfold url_cb. cbn. by rewrite <- app_assoc.
  - destruct (Hb eq_refl) as [Hx Hy]. unfold body_cb. destruct x as [|a x]; [done|]. destruct y as [|c y]; [done|]. intros [= <-]. cbn. by rewrite <- app_assoc.
Qed.
Next Obligation. by intros f u q n [= <-]. Qed.
Next Obligation. by intros f u q n [= <-]. Qed.
Next Obligation. by intros f u q n [= <-]. Qed.
Next Obligation. done. Qed.
Next Obligation. done. Qed.

(** Buffers given to a parser one after the other; each is taken in full and
    without an error, and [halt] does not hold before the last one. *)
Fixpoint parse_all (halt : http_parser -> bool) (bufs : list (list Z)) (d : Parser) : option Parser :=
  match bufs with
  | [] => Some d
  | buf :: bufs =>
      match execute buf d with
      | Ret (n, d) =>
          if decide (n = length buf /\ http_errno (parser_ d) = HPE_OK) then
            match bufs with [] => Some d | _ => if halt (parser_ d) then None else parse_all halt bufs d end
          else None
      | _ => None
      end
  end.

Lemma parse_all_feed halt bufs d :
  parse_all halt bufs d = (fun s => mkHttpParser (fst s) (snd s)) <$> feed settings_ halt bufs (parser_ d) (self_ d).
Proof.
  revert d. induction bufs as [|buf bufs IH]; intros [q u]; [done|]. cbn [parse_all feed]. unfold execute, accept. cbn [parser_ self_].
  destruct (http_parser_execute settings_ buf q u) as [[[n q1] u1]| | |]; cbn; try done. case_decide; [|done]. destruct bufs; [done|].
  destruct (halt q1); [done|]. apply (IH (mkHttpParser q1 u1)).
Qed.

Lemma parse_all_cuts halt d bufs d1 : (forall q, exited q = true -> halt q = true) -> (forall n q, halt (set_nread n q) = halt q) ->
  decoder_ok d -> Forall (fun b => b <> []) bufs -> Forall (Forall is_byte) bufs -> parse_all halt (singly (concat bufs)) d = Some d1 ->
  exists d2, parse_all halt bufs d = Some d2 /\ self_ d2 = self_ d1 /\ near (parser_ d2) (parser_ d1).
Proof.
  intros H1 H2 Hd Hne Hb. rewrite !parse_all_feed. intros ([qf uf] & Hf & ->)%fmap_Some.
  destruct (feed_cuts settings_ halt H1 H2 bufs _ _ _ qf uf Hne Hb Hd Hd (near_refl _) Hf) as (q' & E & Hn). rewrite E. by eexists.
Qed.

(** C9: what an http::Parser makes of a stream does not depend on how the
    stream is cut into buffers.  If the bytes are accepted one at a time, every
    cut of them into non-empty buffers is accepted, with the same message, the
    same progress of the callbacks and the same state of the C parser, except
    that its count of header bytes may be smaller.  An upgrade may come with the
    last byte. *)
Theorem http_any_cut d bufs d1 : reachable d -> Forall (fun b => b <> []) bufs -> Forall (Forall is_byte) bufs ->
  parse_all exited (singly (concat bufs)) d = Some d1 ->
  exists d2, parse_all exited bufs d = Some d2 /\ self_ d2 = self_ d1 /\ near (parser_ d2) (parser_ d1).
Proof. intros Hd%reachable_ok. by apply parse_all_cuts. Qed.

Definition sample_request : list Z :=
  bytes "POST /x HTTP/1.1" ++ [13; 10] ++ bytes "Host: a" ++ [13; 10] ++ bytes "Content-Length: 3" ++ [13; 10; 13; 10] ++ bytes "abc".
Definition sample_cut : list (list Z) := [take 10 sample_request; take 20 (drop 10 sample_request); drop 30 sample_request].

Lemma http_any_cut_witness :
  exists d2, parse_all exited sample_cut new_request_decoder = Some d2 /\ body (req_ (self_ d2)) = bytes "abc" /\ completed_ (self_ d2) = true.
Proof.
  destruct (http_any_cut new_request_decoder sample_cut
    (default new_request_decoder (parse_all exited (singly (concat sample_cut)) new_request_decoder))) as (d2 & E & Es & _).
  - apply reach_new.
  - vm_compute. repeat constructor; done.
  - vm_compute. repeat constructor; done.
  - vm_compute. reflexivity.
  - exists d2. split; [exact E|]. rewrite Es. split; vm_compute; reflexivity.
Defined.

(** ** What the decoders deliver *)
Lemma no_bytes_cons buf bufs : buf <> [] -> no_bytes (buf :: bufs) = false.
Proof. by destruct buf. Qed.
Lemma request_loop_all bufs d d1 : Forall (fun b => b <> []) bufs -> parse_all upgrade bufs d = Some d1 -> upgrade (parser_ d1) = false -> request_loop bufs d = (Ret tt, d1, []).
Proof.
  intros Hne. revert d. induction Hne as [|buf bufs Hbuf Hne IH]; intros d; cbn [parse_all request_loop]; [by intros [= <-]|]. rewrite no_bytes_cons by done.
  destruct (execute buf d) as [[n d']| | |]; try done. case_decide as Hc; [|done]. destruct Hc as [-> _]. intros H Hu.
  assert (Hu' : upgrade (parser_ d') = false) by (destruct bufs; [by injection H as ->|by destruct (upgrade (parser_ d'))]).
  rewrite Hu', decide_True by done. apply IH; [|done]. destruct bufs; [done|]. by rewrite Hu' in H.
Qed.
Lemma response_loop_all bufs d d1 : Forall (fun b => b <> []) bufs -> parse_all upgrade bufs d = Some d1 -> response_loop bufs d = (Ret tt, d1, []).
Proof.
  intros Hne. revert d. induction Hne as [|buf bufs Hbuf Hne IH]; intros d; cbn [parse_all response_loop]; [by intros [= <-]|]. rewrite no_bytes_cons by done.
  destruct (execute buf d) as [[n d']| | |]; try done. case_decide as Hc; [|done]. destruct Hc as [-> _]. intros H.
  rewrite decide_True by done. apply IH. destruct bufs; [done|]. by destruct (upgrade (parser_ d')).
Qed.

(** The message a parser has completed. *)
Definition message (s : Self) : option HttpFrame :=
  if completed_ s then
    let f := req_ s in
    Some (mkFrame (err f) (frame_http_errno f) (frame_method f) (frame_content_length f) (path f) (headers f) true (body f))
  else None.

Lemma poll_message d rest : fst (fst (poll_result (Ret tt, d, rest))) = Ret (message (self_ d)).
Proof. unfold poll_result, message. destruct (completed_ (self_ d)) eqn:E; [|done]. cbn. by rewrite E. Qed.

(** The decoders deliver the same message however its bytes are cut into
    buffers: if the bytes are accepted one at a time and do not ask for an
    upgrade, decode of any cut of them returns the message they complete, or
    nothing if they complete none. *)
Theorem http_decode_any_cut d bufs d1 : decoder_reachable d -> Forall (fun b => b <> []) bufs -> Forall (Forall is_byte) bufs ->
  parse_all upgrade (singly (concat bufs)) d = Some d1 -> upgrade (parser_ d1) = false ->
  fst (fst (request_decode d bufs)) = Ret (message (self_ d1)) /\ fst (fst (response_decode d bufs)) = Ret (message (self_ d1)).
Proof.
  intros Hd%decoder_reachable_ok Hne Hb Hp Hu. destruct (parse_all_cuts upgrade d bufs d1) as (d2 & E & Es & Hn); try done.
  { unfold exited. by intros q [? _]%andb_prop. }
  assert (Hu2 : upgrade (parser_ d2) = false) by (destruct Hn as [-> _]; exact Hu).
  unfold request_decode, response_decode. rewrite (request_loop_all bufs d d2 Hne E Hu2), (response_loop_all bufs d d2 Hne E), !poll_message, Es. done.
Qed.

Lemma http_decode_any_cut_witness :
  exists f, fst (fst (request_decode new_request_decoder sample_cut)) = Ret (Some f) /\ path f = bytes "/x" /\ body f = bytes "abc".
Proof.
  destruct (http_decode_any_cut new_request_decoder sample_cut
    (default new_request_decoder (parse_all upgrade (singly (concat sample_cut)) new_request_decoder))) as [E _].
  - apply dreach_request.
  - vm_compute. repeat constructor; done.
  - vm_compute. repeat constructor; done.
  - vm_compute. reflexivity.
  - vm_compute. reflexivity.
  - rewrite E. eexists. split; [vm_compute; reflexivity|]. split; vm_compute; reflexivity.
Defined.
