(* ===== verification/HttpBytes.v ===== *)
(** * HTTP parser: one byte after the other

    What an [http::Parser] does with the pieces of a message that comes one byte
    at a time: the request line, the status line, headers, and a body of known
    length.  [reads] relates a parser to the one that has taken some bytes; a
    message is put together with [reads_app]. *)

From S2P Require Import Prelude IOBufQueue StreamAdapter HttpSyntax HttpExec HttpMessage HttpEncode HttpSafe HttpCuts HttpDecode.
Local Open Scope cpp_scope.
Local Open Scope Z_scope.

Definition takes (b : Z) (d d' : Parser) : Prop :=
  execute [b] d = Ret (1%nat, d') /\ http_errno (parser_ d') = HPE_OK /\ upgrade (parser_ d') = false.

Inductive reads : list Z -> Parser -> Parser -> Prop :=
| reads_nil d : reads [] d d
| reads_cons b bs d d1 d2 : takes b d d1 -> reads bs d1 d2 -> reads (b :: bs) d d2.

Definition byte_turn (b : Z) (q : http_parser) (u : Self) : res (nat * Parser) :=
  let! f := turn settings_ [b] turn_fuel b (initial_locals q u) in
  let! r := match f with Break l => loop settings_ [b] 0 (set_p (S (p l)) l) | f => Ret (returned f) end in
  Ret (fst r, mkHttpParser (par (snd r)) (usr (snd r))).

Lemma execute_body b q u : http_errno q = HPE_OK -> PARSING_HEADER (state_ q) = false -> execute [b] (mkHttpParser q u) = byte_turn b q u.
Proof.
  intros He Hs. unfold execute, http_parser_execute, byte_turn. cbn [parser_ self_]. rewrite decide_True by done.
  cbn [length loop]. destruct (initial_same q u) as (E1 & E2 & E3). unfold CURRENT_STATE. rewrite E1, E3, Hs. cbn [lookup list_lookup].
  rewrite decide_False by done. destruct (turn settings_ _ _ _ _) as [[l|? l|l|n l]| | |]; cbn [res_bind]; try done.
  cbn [loop]. match goal with |- res_bind (res_bind ?x _) _ = _ => by destruct x as [[]| | |] end.
Qed.

Lemma execute_header b q u : http_errno q = HPE_OK -> PARSING_HEADER (state_ q) = true -> 0 <= nread q < HTTP_MAX_HEADER_SIZE ->
  execute [b] (mkHttpParser q u) = byte_turn b (set_nread (nread q + 1) q) u.
Proof.
  intros He Hs Hn. unfold execute, http_parser_execute, byte_turn. cbn [parser_ self_]. rewrite decide_True by done.
  cbn [length loop]. destruct (initial_same q u) as (E1 & E2 & E3). unfold CURRENT_STATE. rewrite E1, E3, Hs. cbn [lookup list_lookup].
  rewrite decide_False by done. unfold COUNT_HEADER_SIZE, upd.
  rewrite E1. cbn [par set_par nread set_nread]. rewrite u32_small by (unfold HTTP_MAX_HEADER_SIZE in *; lia).
  rewrite (proj2 (Z.ltb_ge _ _)) by (unfold HTTP_MAX_HEADER_SIZE in *; lia).
  assert (E : set_par (set_nread (nread q + Z.of_nat 1) q) (initial_locals q u) = initial_locals (set_nread (nread q + 1) q) u).
  { unfold initial_locals. cbn [state_ set_nread]. by destruct (state_ q). }
  rewrite E. destruct (turn settings_ _ _ _ _) as [[l|? l|l|n l]| | |]; cbn [res_bind]; try done.
  cbn [loop]. match goal with |- res_bind (res_bind ?x _) _ = _ => by destruct x as [[]| | |] end.
Qed.


Lemma reads_app x y d d1 d2 : reads x d d1 -> reads y d1 d2 -> reads (x ++ y) d d2.
Proof. induction 1; intros; cbn; [done|]. econstructor; eauto. Qed.
Lemma reads_to bs d d1 d2 : reads bs d d1 -> d1 = d2 -> reads bs d d2.
Proof. by intros ? <-. Qed.

Lemma reads_feed h bs d d' : (forall q, upgrade q = false -> h q = false) -> reads bs d d' -> parse_all h (singly bs) d = Some d'.
Proof.
  intros Hh. induction 1 as [d|b bs d d1 d2 (E & He & Hu) H IH]; [done|]. cbn [singly fmap list_fmap parse_all]. rewrite E.
  rewrite decide_True by done. destruct bs; [by inversion H|]. cbn [singly fmap list_fmap]. rewrite (Hh _ Hu). exact IH.
Qed.


(** ** The users of the strings *)
Definition add_url (x : list Z) (u : Self) : Self :=
  let f := req_ u in
  upd_req (mkFrame (err f) (frame_http_errno f) (frame_method f) (frame_content_length f) (path f ++ x) (headers f) (eof_ f) (body f)) u.
Definition add_field (x : list Z) (u : Self) : Self :=
  match s_ u with
  | VALUE => upd_field x (store_header u)
  | INIT => upd_field x u
  | HEADER => upd_field (field_ u ++ x) u
  end.
Definition add_value (x : list Z) (u : Self) : Self := upd_value (match s_ u with VALUE => value_ u ++ x | _ => x end) u.
Definition add_body (x : list Z) (u : Self) : Self :=
  let f := req_ u in
  upd_req (mkFrame (err f) (frame_http_errno f) (frame_method f) (frame_content_length f) (path f) (headers f) (eof_ f) (body f ++ x)) u.

(** What the user of a string makes of it. *)
Definition took (d : datum) (x : list Z) (u u' : Self) : Prop :=
  match d with
  | D_url => u' = add_url x u
  | D_header_field => u' = add_field x u
  | D_header_value => s_ u <> INIT /\ u' = add_value x u
  | D_body => x <> [] /\ u' = add_body x u
  | D_status => u' = u
  end.

Lemma took_data data d stop er l k m u' : http_errno (par l) = HPE_OK -> mark d l = Some m -> took d (slice data m stop) (usr l) u' ->
  CALLBACK_DATA_ settings_ data d stop er l k = k (set_mark d None (set_usr u' l)).
Proof.
  intros He Hm Ht. apply (data_some settings_ data d stop er l k m); [done..|]. unfold delivered. destruct d; cbn in *.
  - subst u'. exists (par l). unfold header_field_cb, add_field. destruct (usr l) as [? ? ? [] ? ? ?]; done.
  - destruct Ht as [Hs ->]. exists (par l). unfold header_value_cb, add_value. by destruct (usr l) as [? ? ? [] ? ? ?].
  - subst u'. by exists (par l).
  - destruct Ht as [Hs ->]. exists (par l). unfold body_cb. by destruct (slice data m stop).
  - done.
Qed.

(** ** One byte *)
Definition marked (d : datum) (q : http_parser) (u : Self) (j : nat) : locals := set_mark d (Some O) (plain q u j).

Lemma par_marked d q u j : par (marked d q u j) = q.
Proof. by destruct d. Qed.

Lemma finish_plain b q u : http_errno q = HPE_OK -> finish settings_ [b] (plain q u 1) = Ret (Return 1%nat (plain q u 1)).
Proof. intros He. unfold finish, CALLBACK_DATA_NOADVANCE. rewrite decide_True by (vm_compute; lia). by rewrite !data_none by done. Qed.

Lemma finish_marked d b q u u' : http_errno q = HPE_OK -> took d [b] u u' -> 
  finish settings_ [b] (marked d q u 1) = Ret (Return 1%nat (plain q u' 1)).
Proof.
  intros He Ht. unfold finish, CALLBACK_DATA_NOADVANCE. rewrite decide_True by (destruct d; vm_compute; lia).
  destruct d; repeat (first [rewrite data_none by done|rewrite (took_data [b] _ _ _ _ _ 0%nat u') by done]); done.
Qed.

Lemma byte_plain b q u q' u' : http_errno q' = HPE_OK ->
  turn settings_ [b] turn_fuel b (initial_locals q u) = Ret (Break (plain q' u' 0)) -> byte_turn b q u = Ret (1%nat, mkHttpParser q' u').
Proof. intros He E. unfold byte_turn. rewrite E. cbn [res_bind]. change (set_p _ _) with (plain q' u' 1). cbn [loop]. rewrite decide_True by done. by rewrite finish_plain. Qed.

Lemma byte_marked d b q u q' u' u'' : http_errno q' = HPE_OK -> took d [b] u' u'' ->
  turn settings_ [b] turn_fuel b (initial_locals q u) = Ret (Break (marked d q' u' 0)) -> byte_turn b q u = Ret (1%nat, mkHttpParser q' u'').
Proof.
  intros He Ht E. unfold byte_turn. rewrite E. cbn [res_bind]. replace (set_p (S (p (marked d q' u' 0))) (marked d q' u' 0)) with (marked d q' u' 1) by (by destruct d).
  cbn [loop]. rewrite decide_True by (by destruct d). by rewrite (finish_marked d b q' u' u'').
Qed.

Lemma turn_again dat k c (l r : locals) c' : switch settings_ dat c l = Ret (Reexecute c' r) -> turn settings_ dat (S k) c l = turn settings_ dat k c' r.
Proof. intros E. cbn [turn]. by rewrite E. Qed.

Definition calm (q : http_parser) : Prop := http_errno q = HPE_OK /\ upgrade q = false.

Lemma takes_header b q u q' u' : calm q -> calm q' -> PARSING_HEADER (state_ q) = true -> 0 <= nread q < HTTP_MAX_HEADER_SIZE ->
  byte_turn b (set_nread (nread q + 1) q) u = Ret (1%nat, mkHttpParser q' u') -> takes b (mkHttpParser q u) (mkHttpParser q' u').
Proof. intros [He _] [He' Hu'] Hs Hn E. split; [|done]. by rewrite execute_header. Qed.

(** The parser inside a message. *)
Definition hp (ty : http_parser_type) (st : state) (h : header_states) (i : nat) (n cl fl : Z) (v : Z * Z * Z) (m : http_method) (u : Self) : Parser :=
  mkHttpParser (mkParser ty fl st h i false n cl (fst (fst v)) (snd (fst v)) (snd v) m HPE_OK false) u.

(** The fields of a parser that is written out. *)
Ltac fields :=
  cbv [set_nread set_state set_header_state set_index set_flags set_content_length set_http_major set_http_minor set_status_code set_method
       set_upgrade set_type type_ flags state_ header_state index lenient_http_headers nread content_length http_major http_minor
       status_code method http_errno upgrade].
(** A byte that ends with [lem]; what is left is the turn. *)
Ltac byte_of lem :=
  unfold hp; apply takes_header; [done..|fields; unfold HTTP_MAX_HEADER_SIZE in *; lia|]; fields; eapply lem; [done|..].
(** The turn is the case of the switch. *)
Ltac one_case :=
  apply (turn_break settings_); unfold switch, CURRENT_STATE; cbv [initial_locals state_ par].

(** The same inside a string, by the case [c]. *)
Ltac string_case d c :=
  apply (turn_break settings_);
  match goal with |- switch _ _ _ (initial_locals ?q ?u) = ?r => change (c (marked d q u 0) = r) end.

(** *** The method *)
Definition method_next (m : http_method) (i : nat) (ch : Z) : option (http_method * nat) :=
  let i' := (S i mod 128)%nat in
  match char_at (method_string m) i with
  | Ret c =>
      if (ch =? 0) || (ch =? SP) then None else if ch =? c then Some (m, i')
      else if IS_ALPHA ch then (fun m => (m, i')) <$> method_branch m i ch
      else if (ch =? MINUS) && bool_decide (i = 1%nat) && bool_decide (m = HTTP_MKCOL) then Some (HTTP_MSEARCH, i') else None
  | _ => None
  end.

Lemma takes_method ty b h i n cl fl v m m' i' u : method_next m i b = Some (m', i') -> 0 <= n < HTTP_MAX_HEADER_SIZE ->
  takes b (hp ty s_req_method h i n cl fl v m u) (hp ty s_req_method h i' (n + 1) cl fl v m' u).
Proof.
  intros E Hn. byte_of byte_plain. one_case.
  unfold method_next in E. unfold do_req_method. cbn [par method index].
  destruct (char_at (method_string m) i) as [c| | |]; try done. cbn [res_bind].
  destruct (Z.eqb_spec b 0); [done|]. destruct (Z.eqb_spec b SP); [done|]. cbn [orb andb] in *.
  destruct (b =? c); [by injection E as <- <-|]. destruct (IS_ALPHA b).
  - destruct (method_branch m i b); [|done]. by injection E as <- <-.
  - destruct ((b =? MINUS) && _ && _); [|done]. by injection E as <- <-.
Qed.

Fixpoint method_run (bs : list Z) (m : http_method) (i : nat) : option (http_method * nat) :=
  match bs with
  | [] => Some (m, i)
  | b :: bs => match method_next m i b with Some (m, i) => method_run bs m i | None => None end
  end.

Lemma reads_method_rest ty bs h i n cl fl v m m' i' u : method_run bs m i = Some (m', i') -> 0 <= n -> n + Z.of_nat (length bs) <= HTTP_MAX_HEADER_SIZE ->
  reads bs (hp ty s_req_method h i n cl fl v m u) (hp ty s_req_method h i' (n + Z.of_nat (length bs)) cl fl v m' u).
Proof.
  revert m i n. induction bs as [|b bs IH]; cbn [method_run length]; intros m i n E H0 Hn.
  { injection E as <- <-. rewrite Z.add_0_r. constructor. }
  destruct (method_next m i b) as [[m1 i1]|] eqn:E1; [|done]. econstructor; [apply takes_method; [exact E1|lia]|].
  replace (n + Z.of_nat (S (length bs))) with (n + 1 + Z.of_nat (length bs)) by lia. apply IH; [done|lia..].
Qed.

(** The length of the method and the space. *)
Definition method_size (m : http_method) : nat := S (String.length (method_string m)).

Definition method_check (m : http_method) : bool :=
  match bytes (method_string m) with
  | b :: bs =>
      match first_letter b with
      | Some m1 =>
          negb ((b =? CR) || (b =? LF)) && IS_ALPHA b && bool_decide (method_run bs m1 1 = Some (m, String.length (method_string m)))
          && bool_decide (S (length bs) = String.length (method_string m))
      | None => false
      end
  | [] => false
  end.

Lemma method_letters m : exists b bs m1, bytes (method_string m) = b :: bs /\ first_letter b = Some m1 /\ (b =? CR) || (b =? LF) = false /\ IS_ALPHA b = true /\
  method_run bs m1 1 = Some (m, String.length (method_string m)) /\ S (length bs) = String.length (method_string m).
Proof.
  assert (H : method_check m = true) by (destruct m; vm_compute; reflexivity). unfold method_check in H.
  destruct (bytes (method_string m)) as [|b bs]; [done|]. destruct (first_letter b) as [m1|] eqn:E; [|done].
  apply andb_prop in H as [[[H1 H2]%andb_prop H3%bool_decide_eq_true]%andb_prop H4%bool_decide_eq_true].
  exists b, bs, m1. repeat (split; [done|]). split; [by apply negb_true_iff|]. done.
Qed.

Lemma reads_method h i n cl fl v m0 m u : completed_ u = false -> 0 <= n -> n + Z.of_nat (method_size m) <= HTTP_MAX_HEADER_SIZE ->
  reads (bytes (method_string m) ++ [SP]) (hp HTTP_REQUEST s_start_req h i n cl fl v m0 u)
    (hp HTTP_REQUEST s_req_spaces_before_url h (method_size m) (n + Z.of_nat (method_size m)) ULLONG_MAX 0 v m (reset u)).
Proof.
  intros Hc H0 Hn. destruct (method_letters m) as (b & bs & m1 & E & Ef & Eb & Ea & Er & El). unfold method_size in *. rewrite E.
  replace (n + Z.of_nat (S (String.length (method_string m)))) with (n + 1 + Z.of_nat (length bs) + 1) by lia.
  apply (reads_cons b _ _ (hp HTTP_REQUEST s_req_method h 1 (n + 1) ULLONG_MAX 0 v m1 (reset u))).
  { byte_of byte_plain. one_case. unfold do_start_req. rewrite Eb, Ea, Ef.
    cbn [negb]. unfold CALLBACK_NOTIFY, CALLBACK_NOTIFY_. rewrite decide_True by done. cbn [on_message_begin settings_]. unfold message_begin_cb. cbn. by rewrite Hc. }
  eapply reads_app; [apply reads_method_rest; [exact Er|lia..]|]. econstructor; [|constructor].
  byte_of byte_plain. apply (turn_break settings_). clear. destruct m; vm_compute; reflexivity.
Qed.

(** *** The path *)
Definition in_url (s : state) : bool :=
  match s with s_req_path | s_req_query_string_start | s_req_query_string | s_req_fragment_start | s_req_fragment => true | _ => false end.
Definition path_char (b : Z) : bool := IS_URL_CHAR b || (b =? QUESTION) || (b =? HASH).

Lemma path_char_ok s b : in_url s = true -> path_char b = true -> b <> SP /\ b <> CR /\ b <> LF /\ in_url (parse_url_char s b) = true.
Proof.
  intros Hs Hb. assert (Hx : forall c, path_char c = false -> b <> c) by congruence.
  pose proof (Hx SP eq_refl) as H1. pose proof (Hx CR eq_refl) as H2. pose proof (Hx LF eq_refl) as H3. pose proof (Hx TAB eq_refl) as H4. pose proof (Hx 12 eq_refl) as H5.
  repeat (split; [done|]). unfold parse_url_char, path_char in *.
  rewrite (proj2 (Z.eqb_neq _ _) H1), (proj2 (Z.eqb_neq _ _) H2), (proj2 (Z.eqb_neq _ _) H3), (proj2 (Z.eqb_neq _ _) H4), (proj2 (Z.eqb_neq _ _) H5). cbn [orb].
  destruct (IS_URL_CHAR b), (b =? QUESTION), (b =? HASH); try done; by destruct s.
Qed.

Lemma in_url_case ty h i n cl fl v m u s b : in_url s = true ->
  let q := mkParser ty fl s h i false n cl (fst (fst v)) (snd (fst v)) (snd v) m HPE_OK false in
  initial_locals q u = marked D_url q u 0 /\ switch settings_ [b] b (marked D_url q u 0) = do_url settings_ [b] b (marked D_url q u 0).
Proof. by destruct s. Qed.

Lemma takes_url ty b s h i n cl fl v m u : in_url s = true -> path_char b = true -> 0 <= n < HTTP_MAX_HEADER_SIZE ->
  takes b (hp ty s h i n cl fl v m u) (hp ty (parse_url_char s b) h i (n + 1) cl fl v m (add_url [b] u)).
Proof.
  intros Hs Hb Hn. destruct (path_char_ok s b Hs Hb) as (H1 & H2 & H3 & H4).
  unfold hp. apply takes_header; [done..|by destruct s|done|]. fields. eapply (byte_marked D_url); [done|reflexivity|].
  apply (turn_break settings_). destruct (in_url_case ty h i (n + 1) cl fl v m u s b Hs) as [-> ->]. unfold do_url.
  rewrite (proj2 (Z.eqb_neq _ _) H1), (proj2 (Z.eqb_neq _ _) H2), (proj2 (Z.eqb_neq _ _) H3). cbn [orb]. unfold url_char. rewrite decide_False; [by destruct s|].
  intros E'. change (parse_url_char s b = s_dead) in E'. by rewrite E' in H4.
Qed.

Lemma add_url_app x y u : add_url y (add_url x u) = add_url (x ++ y) u.
Proof. unfold add_url. cbn. by rewrite app_assoc. Qed.
Lemma add_url_nil u : add_url [] u = u.
Proof. unfold add_url. rewrite app_nil_r. by destruct u as [? ? ? ? ? ? []]. Qed.

Lemma reads_url ty bs s h i n cl fl v m u : in_url s = true -> forallb path_char bs = true -> 0 <= n -> n + Z.of_nat (length bs) <= HTTP_MAX_HEADER_SIZE ->
  exists s', in_url s' = true /\ reads bs (hp ty s h i n cl fl v m u) (hp ty s' h i (n + Z.of_nat (length bs)) cl fl v m (add_url bs u)).
Proof.
  revert s n u. induction bs as [|b bs IH]; cbn [forallb length]; intros s n u Hs Hb H0 Hn.
  { exists s. split; [done|]. rewrite Z.add_0_r, add_url_nil. constructor. }
  apply andb_prop in Hb as [Hb Hbs]. destruct (path_char_ok s b Hs Hb) as (_ & _ & _ & H4).
  destruct (IH (parse_url_char s b) (n + 1) (add_url [b] u) H4 Hbs) as (s' & Hs' & Hr); [lia..|]. exists s'. split; [done|].
  econstructor; [apply takes_url; (done || lia)|]. rewrite add_url_app in Hr.
  by replace (n + Z.of_nat (S (length bs))) with (n + 1 + Z.of_nat (length bs)) by lia.
Qed.

(** An origin path. *)
Definition path_ok (p : list Z) : bool := match p with b :: bs => (b =? SLASH) && forallb path_char bs | [] => false end.

Lemma takes_slash ty h i n cl fl v m u : m <> HTTP_CONNECT -> 0 <= n < HTTP_MAX_HEADER_SIZE ->
  takes SLASH (hp ty s_req_spaces_before_url h i n cl fl v m u) (hp ty s_req_path h i (n + 1) cl fl v m (add_url [SLASH] u)).
Proof.
  intros Hm Hn. unfold hp. apply takes_header; [done..|]. fields. eapply (byte_marked D_url); [done|reflexivity|]. one_case.
  unfold do_spaces_before_url. cbn -[url_char]. by rewrite decide_False.
Qed.

Lemma takes_url_end ty s h i n cl fl v m u : in_url s = true -> 0 <= n < HTTP_MAX_HEADER_SIZE ->
  takes SP (hp ty s h i n cl fl v m u) (hp ty s_req_http_start h i (n + 1) cl fl v m u).
Proof.
  intros Hs Hn. unfold hp. apply takes_header; [done..|by destruct s|done|]. fields. apply byte_plain; [done|].
  apply (turn_break settings_). destruct (in_url_case ty h i (n + 1) cl fl v m u s SP Hs) as [-> ->]. unfold do_url, CALLBACK_DATA. cbn [Z.eqb Pos.eqb].
  rewrite (took_data [SP] D_url _ _ _ _ 0%nat u); [done..|]. unfold took. cbn. by rewrite add_url_nil.
Qed.

(** One byte of which everything is known. *)
Ltac crunch := cbv -[insert app Z.add Z.mul].
Ltac step :=
  eapply reads_cons;
  [split; [rewrite execute_header by first [done|cbn [nread]; unfold HTTP_MAX_HEADER_SIZE in *; lia]; cbn [set_nread nread];
           crunch; reflexivity|by split]|].
Ltac steps := repeat step; apply reads_nil.

Lemma reads_req_version ty h i n cl fl v m u : 0 <= n -> n + 10 <= HTTP_MAX_HEADER_SIZE ->
  reads (bytes "HTTP/1.1" ++ CRLF) (hp ty s_req_http_start h i n cl fl v m u) (hp ty s_header_field_start h i (n + 10) cl fl (1, 1, snd v) m u).
Proof. intros H0 Hn. eapply reads_to; [cbn [bytes fmap list_fmap app CRLF]; unfold hp; steps|unfold hp; cbn [fst snd]; do 2 f_equal; lia]. Qed.

Lemma reads_request_line h i n cl fl v m0 m p u : completed_ u = false -> m <> HTTP_CONNECT -> path_ok p = true ->
  let line := bytes (method_string m) ++ [SP] ++ p ++ bytes " HTTP/1.1" ++ CRLF in
  0 <= n -> n + Z.of_nat (length line) <= HTTP_MAX_HEADER_SIZE ->
  reads line (hp HTTP_REQUEST s_start_req h i n cl fl v m0 u)
    (hp HTTP_REQUEST s_header_field_start h (method_size m) (n + Z.of_nat (length line)) ULLONG_MAX 0 (1, 1, snd v) m (add_url p (reset u))).
Proof.
  intros Hc Hm Hp line H0 Hn. destruct p as [|b bs]; [done|]. apply andb_prop in Hp as [->%Z.eqb_eq Hbs].
  assert (El : Z.of_nat (length line) = Z.of_nat (method_size m) + 1 + Z.of_nat (length bs) + 1 + 10).
  { subst line. rewrite !length_app. cbn [length]. change (length (bytes " HTTP/1.1")) with 9%nat. cbn [length CRLF]. unfold method_size.
    replace (length (bytes (method_string m))) with (String.length (method_string m)) by (by destruct m). lia. }
  rewrite El in *. subst line. rewrite (app_assoc (bytes (method_string m))). eapply reads_app; [apply reads_method; (done || lia)|].
  cbn [app]. econstructor; [apply takes_slash; (done || lia)|].
  destruct (reads_url HTTP_REQUEST bs s_req_path h (method_size m) (n + Z.of_nat (method_size m) + 1) ULLONG_MAX 0 v m (add_url [SLASH] (reset u))) as (s' & Hs & Hr); [done..|lia|lia|].
  eapply reads_app; [exact Hr|]. change (bytes " HTTP/1.1" ++ CRLF) with (SP :: bytes "HTTP/1.1" ++ CRLF).
  econstructor; [apply takes_url_end; (done || lia)|]. rewrite add_url_app. eapply reads_to; [apply reads_req_version; lia|]. unfold hp. do 2 f_equal. lia.
Qed.

(** *** Header fields *)
Definition final_flags (h : header_states) (fl : Z) : Z :=
  match h with
  | h_connection_keep_alive => Z.lor fl F_CONNECTION_KEEP_ALIVE
  | h_connection_close => Z.lor fl F_CONNECTION_CLOSE
  | h_transfer_encoding_chunked => Z.lor fl F_CHUNKED
  | h_connection_upgrade => Z.lor fl F_CONNECTION_UPGRADE
  | _ => fl
  end.

(** A parser that expects a header or the end of the headers.  After a value
    that is not empty it waits for a continuation line; an empty value is not
    yet delivered. *)
Inductive boundary (ty : http_parser_type) (n cl fl : Z) (v : Z * Z * Z) (m : http_method) (u : Self) : Parser -> Prop :=
| at_start h i : boundary ty n cl fl v m u (hp ty s_header_field_start h i n cl fl v m u)
| at_lws h i fl0 : final_flags h fl0 = fl -> boundary ty n cl fl v m u (hp ty s_header_value_lws h i n cl fl0 v m u)
| at_empty h i u0 : final_flags h fl = fl -> s_ u0 <> INIT -> u = add_value [] u0 ->
    boundary ty n cl fl v m u (hp ty s_header_value_discard_lws h i n cl fl v m u0).

Lemma boundary_turn ty n cl fl v m u d b : boundary ty n cl fl v m u d -> b <> SP -> b <> TAB ->
  exists h i k, turn settings_ [b] turn_fuel b (initial_locals (set_nread (n + 1) (parser_ d)) (self_ d)) =
    turn settings_ [b] (S (S k)) b (plain (mkParser ty fl s_header_field_start h i false (n + 1) cl (fst (fst v)) (snd (fst v)) (snd v) m HPE_OK false) u 0).
Proof.
  intros Hd Hsp%Z.eqb_neq Htab%Z.eqb_neq. destruct Hd as [h i|h i fl0 Hf|h i u0 Hf Hi Hu]; exists h, i.
  - by exists 2%nat.
  - exists 1%nat. unfold turn_fuel. apply turn_again. unfold switch, hp, CURRENT_STATE. cbv [initial_locals state_ par set_nread parser_ self_]. unfold do_header_value_lws.
    rewrite Hsp, Htab. cbn [orb]. subst fl. by destruct h.
  - exists 1%nat. unfold turn_fuel. apply turn_again. unfold switch, hp, CURRENT_STATE. cbv [initial_locals state_ par set_nread parser_ self_]. unfold do_header_value_discard_lws, CALLBACK_DATA_NOADVANCE.
    rewrite Hsp, Htab. cbn [orb]. rewrite (took_data [b] D_header_value _ _ _ _ 0%nat u) by (first [by destruct h|done]).
    transitivity (Ret (Reexecute b (plain (mkParser ty (final_flags h fl) s_header_field_start h i false (n + 1) cl (fst (fst v)) (snd (fst v)) (snd v) m HPE_OK false) u 0)));
      [by destruct h|by rewrite Hf].
Qed.

Definition first_state (b : Z) : header_states :=
  let c := TOKEN b in
  if c =? 99 then h_C else if c =? 112 then h_matching_proxy_connection else
  if c =? 116 then h_matching_transfer_encoding else if c =? 117 then h_matching_upgrade else h_general.

Lemma token_not b c : TOKEN b <> 0 -> TOKEN c = 0 -> b <> c.
Proof. congruence. Qed.

Lemma boundary_calm ty n cl fl v m u d : boundary ty n cl fl v m u d -> 
  exists q u', d = mkHttpParser q u' /\ calm q /\ PARSING_HEADER (state_ q) = true /\ nread q = n.
Proof. by intros []; eexists _, _. Qed.

Lemma takes_field_start ty n cl fl v m u d b : boundary ty n cl fl v m u d -> TOKEN b <> 0 -> 0 <= n < HTTP_MAX_HEADER_SIZE ->
  takes b d (hp ty s_header_field (first_state b) 0 (n + 1) cl fl v m (add_field [b] u)).
Proof.
  intros Hd Hb Hn. destruct (boundary_turn ty n cl fl v m u d b Hd) as (h & i & k & E); [by apply token_not..|].
  destruct (boundary_calm _ _ _ _ _ _ _ _ Hd) as (q & u' & -> & Hc & Hp & En). apply takes_header; [done..|lia|]. rewrite En.
  eapply (byte_marked D_header_field); [done|reflexivity|]. cbn [parser_ self_] in E. rewrite E. apply (turn_break settings_). 
  unfold switch, CURRENT_STATE. cbn [par plain state_]. unfold do_header_field_start.
  rewrite (proj2 (Z.eqb_neq _ _) (token_not b CR Hb eq_refl)), (proj2 (Z.eqb_neq _ _) (token_not b LF Hb eq_refl)), (proj2 (Z.eqb_neq _ _) Hb). done.
Qed.

Definition name_next (h : header_states) (i : nat) (b : Z) : option (header_states * nat) :=
  match field_char b (TOKEN b) (set_index i (set_header_state h (http_parser_init HTTP_REQUEST))) with
  | Ret q => Some (header_state q, index q)
  | _ => None
  end.

Lemma name_next_char ty fl st h i n cl v m b h' i' : name_next h i b = Some (h', i') ->
  field_char b (TOKEN b) (mkParser ty fl st h i false n cl (fst (fst v)) (snd (fst v)) (snd v) m HPE_OK false) =
  Ret (mkParser ty fl st h' i' false n cl (fst (fst v)) (snd (fst v)) (snd v) m HPE_OK false).
Proof. unfold name_next. destruct h; try done; cbn; try (by intros [= <- <-]). all: destruct (b =? SP); by intros [= <- <-]. Qed.

Lemma takes_field ty b h i n cl fl v m u h' i' : TOKEN b <> 0 -> name_next h i b = Some (h', i') -> 0 <= n -> n + 2 <= HTTP_MAX_HEADER_SIZE ->
  takes b (hp ty s_header_field h i n cl fl v m u) (hp ty s_header_field h' i' (n + 2) cl fl v m (add_field [b] u)).
Proof.
  intros Hb E H0 Hn. unfold hp. apply takes_header; [done..|fields; lia|]. fields. eapply (byte_marked D_header_field); [done|reflexivity|].
  string_case D_header_field (do_header_field settings_ [b]).
  unfold do_header_field. change (drop _ [b]) with [b]. cbn [field_loop]. rewrite (proj2 (Z.eqb_neq _ _) Hb). 
  rewrite par_marked, (name_next_char _ _ _ _ _ _ _ _ _ _ _ _ E). cbn [res_bind]. rewrite count_ok by (cbn; lia). by replace (n + 2) with (n + 1 + 1) by lia.
Qed.

Lemma add_field_app x y u : add_field y (add_field x u) = add_field (x ++ y) u.
Proof. unfold add_field. destruct u as [? ? ? [] ? ? ?]; cbn; by rewrite ?app_assoc. Qed.
Lemma add_field_nil x u : add_field [] (add_field x u) = add_field x u.
Proof. by rewrite add_field_app, app_nil_r. Qed.

Lemma takes_colon ty h i n cl fl v m u : add_field [] u = u -> 0 <= n < HTTP_MAX_HEADER_SIZE ->
  takes COLON (hp ty s_header_field h i n cl fl v m u) (hp ty s_header_value_discard_ws h i (n + 1) cl fl v m u).
Proof.
  intros Hu Hn. unfold hp. apply takes_header; [done..|]. fields. apply byte_plain; [done|].
  string_case D_header_field (do_header_field settings_ [COLON]). unfold do_header_field. change (field_loop _ ?l) with (@Ret locals l). cbn [res_bind].
  rewrite count_ok by (cbn; lia). unfold CALLBACK_DATA. 
  match goal with |- (match ?x with _ => _ end) = _ => change x with (Some COLON) end. cbn [Z.eqb Pos.eqb].
  rewrite (took_data [COLON] D_header_field _ _ _ _ 0%nat u) by (done || (cbn; by rewrite Hu)). cbn. by rewrite Z.add_0_r.
Qed.
Lemma takes_space ty h i n cl fl v m u : 0 <= n < HTTP_MAX_HEADER_SIZE ->
  takes SP (hp ty s_header_value_discard_ws h i n cl fl v m u) (hp ty s_header_value_discard_ws h i (n + 1) cl fl v m u).
Proof. intros Hn. byte_of byte_plain. one_case. done. Qed.

Fixpoint name_run (bs : list Z) (h : header_states) (i : nat) : option (header_states * nat) :=
  match bs with
  | [] => Some (h, i)
  | b :: bs => match name_next h i b with Some (h, i) => name_run bs h i | None => None end
  end.

Definition token_chars (bs : list Z) : bool := forallb (fun b => negb (TOKEN b =? 0)) bs.

Lemma reads_field ty bs h i n cl fl v m u h' i' : token_chars bs = true -> name_run bs h i = Some (h', i') ->
  0 <= n -> n + 2 * Z.of_nat (length bs) <= HTTP_MAX_HEADER_SIZE -> add_field [] u = u ->
  reads bs (hp ty s_header_field h i n cl fl v m u) (hp ty s_header_field h' i' (n + 2 * Z.of_nat (length bs)) cl fl v m (add_field bs u)).
Proof.
  revert h i n u. induction bs as [|b bs IH]; cbn [token_chars forallb length name_run]; intros h i n u Hb E H0 Hn Hu.
  { injection E as <- <-. rewrite Hu, Z.add_0_r. constructor. }
  apply andb_prop in Hb as [Hb%negb_true_iff%Z.eqb_neq Hbs]. destruct (name_next h i b) as [[h1 i1]|] eqn:E1; [|done].
  econstructor; [apply takes_field; [done|exact E1|lia..]|].
  replace (n + 2 * Z.of_nat (S (length bs))) with (n + 2 + 2 * Z.of_nat (length bs)) by lia.
  change (b :: bs) with ([b] ++ bs). rewrite <- (add_field_app [b] bs). apply IH; [done..|lia|lia|apply add_field_nil].
Qed.

(** A field and its colon and space. *)
Definition name_state (name : list Z) : option (header_states * nat) :=
  match name with [] => None | b :: bs => name_run bs (first_state b) 0 end.

Lemma reads_name ty n cl fl v m u d name h i : boundary ty n cl fl v m u d -> token_chars name = true -> name_state name = Some (h, i) ->
  0 <= n -> n + 2 * Z.of_nat (length name) + 1 <= HTTP_MAX_HEADER_SIZE ->
  reads (name ++ [COLON; SP]) d (hp ty s_header_value_discard_ws h i (n + 2 * Z.of_nat (length name) + 1) cl fl v m (add_field name u)).
Proof.
  intros Hd Ht E H0 Hn. destruct name as [|b bs]; [done|]. cbn [name_state] in E. cbn [token_chars forallb] in Ht. cbn [length] in *.
  apply andb_prop in Ht as [Hb%negb_true_iff%Z.eqb_neq Hbs].
  cbn [app]. econstructor; [apply (takes_field_start ty n cl fl v m u); (done || lia)|].
  eapply reads_app; [apply reads_field; [done|exact E|lia..|apply add_field_nil]|]. rewrite add_field_app. cbn [app].
  econstructor; [apply takes_colon; [apply add_field_nil|lia]|]. econstructor; [apply takes_space; lia|].
  replace (n + 2 * Z.of_nat (S (length bs)) + 1) with (n + 1 + 2 * Z.of_nat (length bs) + 1 + 1) by lia. constructor.
Qed.

(** Names the parser knows, in lower case. *)
Definition known_names : list (list Z) :=
  [bytes "connection"; bytes "proxy-connection"; bytes "content-length"; bytes "transfer-encoding"; bytes "upgrade"].

Definition partial (w : string) (low : list Z) (i : nat) : Prop := (S i < String.length w)%nat /\ low = take (S i) (bytes w).

(** What the state of a field says about the name so far. *)
Definition name_inv (low : list Z) (h : header_states) (i : nat) : Prop :=
  match h with
  | h_general => True
  | h_C => i = 0%nat /\ low = bytes "c"
  | h_CO => i = 1%nat /\ low = bytes "co"
  | h_CON => i = 2%nat /\ low = bytes "con"
  | h_matching_connection => partial "connection" low i
  | h_matching_proxy_connection => partial "proxy-connection" low i
  | h_matching_content_length => partial "content-length" low i
  | h_matching_transfer_encoding => partial "transfer-encoding" low i
  | h_matching_upgrade => partial "upgrade" low i
  | h_connection => low = bytes "connection" \/ low = bytes "proxy-connection"
  | h_content_length => low = bytes "content-length"
  | h_transfer_encoding => low = bytes "transfer-encoding"
  | h_upgrade => low = bytes "upgrade"
  | _ => False
  end.

Lemma bytes_length w : length (bytes w) = String.length w.
Proof. unfold bytes. rewrite length_fmap. by induction w; cbn; f_equal. Qed.

Lemma match_next_inv w i c low miss hit same : partial w low i ->
  let h := match_next w (S i) c miss hit same in
  h = miss \/ h = hit /\ low ++ [c] = bytes w \/ h = same /\ partial w (low ++ [c]) (S i).
Proof.
  intros [Hi ->]. unfold match_next. rewrite bool_decide_false by lia. cbn [orb]. unfold table. rewrite Nat2Z.id.
  destruct (lookup_lt_is_Some_2 (bytes w) (S i)) as [x Hx]; [rewrite bytes_length; lia|]. rewrite Hx.
  destruct (Z.eqb_spec c x) as [->|]; [|by left]. cbn [negb]. right. rewrite <- (take_S_r _ _ _ Hx).
  case_bool_decide; [left|right; split; [done|split; [lia|done]]]. split; [done|]. rewrite take_ge; [done|]. rewrite bytes_length. lia.
Qed.

Lemma name_next_word w low i b miss hit same : partial w low i -> (String.length w < 128)%nat ->
  name_inv (low ++ [TOKEN b]) miss (S i) -> (low ++ [TOKEN b] = bytes w -> name_inv (low ++ [TOKEN b]) hit (S i)) ->
  (partial w (low ++ [TOKEN b]) (S i) -> name_inv (low ++ [TOKEN b]) same (S i)) ->
  let j := (S i mod 128)%nat in exists h' i', Some (match_next w j (TOKEN b) miss hit same, j) = Some (h', i') /\ name_inv (low ++ [TOKEN b]) h' i'.
Proof.
  intros Hp Hw H1 H2 H3. cbn zeta. destruct (Hp) as [Hi _]. rewrite Nat.mod_small by lia. eexists _, _. split; [done|].
  destruct (match_next_inv w i (TOKEN b) low miss hit same Hp) as [E|[[E H]|[E H]]]; rewrite E; auto.
Qed.

Lemma name_next_inv low h i b : name_inv low h i -> TOKEN b <> 0 ->
  exists h' i', name_next h i b = Some (h', i') /\ name_inv (low ++ [TOKEN b]) h' i'.
Proof.
  intros H Hb. unfold name_next, field_char.
  destruct h; try done; cbn [header_state index incr_index set_index set_header_state http_parser_init] in *.
  5-9: apply (name_next_word _ low i b); cbn; auto; lia.
  - by eexists _, _.
  - destruct H as [-> ->]. eexists _, _. split; [done|]. destruct (Z.eqb_spec (TOKEN b) 111) as [->|]; [|done]. by split.
  - destruct H as [-> ->]. eexists _, _. split; [done|]. destruct (Z.eqb_spec (TOKEN b) 110) as [->|]; [|done]. by split.
  - destruct H as [-> ->]. eexists _, _. split; [done|]. destruct (Z.eqb_spec (TOKEN b) 110) as [->|]; [|destruct (Z.eqb_spec (TOKEN b) 116) as [->|]; [|done]];
      (split; [cbn; lia|done]).
  - rewrite (proj2 (Z.eqb_neq b SP) (token_not b SP Hb eq_refl)). by eexists _, _.
  - rewrite (proj2 (Z.eqb_neq b SP) (token_not b SP Hb eq_refl)). by eexists _, _.
  - rewrite (proj2 (Z.eqb_neq b SP) (token_not b SP Hb eq_refl)). by eexists _, _.
  - rewrite (proj2 (Z.eqb_neq b SP) (token_not b SP Hb eq_refl)). by eexists _, _.
Qed.

Lemma name_run_inv bs low h i : name_inv low h i -> token_chars bs = true ->
  exists h' i', name_run bs h i = Some (h', i') /\ name_inv (low ++ (TOKEN <$> bs)) h' i'.
Proof.
  revert low h i. induction bs as [|b bs IH]; cbn [name_run token_chars forallb]; intros low h i H Hb.
  { eexists _, _. split; [done|]. by rewrite app_nil_r. }
  apply andb_prop in Hb as [Hb%negb_true_iff%Z.eqb_neq Hbs]. destruct (name_next_inv low h i b H Hb) as (h1 & i1 & -> & H1).
  destruct (IH _ _ _ H1 Hbs) as (h2 & i2 & E & H2). exists h2, i2. split; [done|]. by rewrite <- app_assoc in H2.
Qed.

(** A header the parser has no use for. *)
Definition dull (h : header_states) : bool :=
  match h with
  | h_general | h_C | h_CO | h_CON | h_matching_connection | h_matching_proxy_connection | h_matching_content_length
  | h_matching_transfer_encoding | h_matching_upgrade => true
  | _ => false
  end.

Lemma first_state_inv b : name_inv [TOKEN b] (first_state b) 0.
Proof.
  unfold first_state. destruct (Z.eqb_spec (TOKEN b) 99) as [->|]; [done|]. destruct (Z.eqb_spec (TOKEN b) 112) as [->|]; [split; [cbn; lia|done]|].
  destruct (Z.eqb_spec (TOKEN b) 116) as [->|]; [split; [cbn; lia|done]|]. destruct (Z.eqb_spec (TOKEN b) 117) as [->|]; [split; [cbn; lia|done]|done].
Qed.

Lemma name_state_dull name : name <> [] -> token_chars name = true -> TOKEN <$> name ∉ known_names -> exists h i, name_state name = Some (h, i) /\ dull h = true.
Proof.
  destruct name as [|b bs]; [done|]. cbn [token_chars forallb name_state]. intros _ [_ Hb]%andb_prop Hk.
  destruct (name_run_inv bs [TOKEN b] (first_state b) 0 (first_state_inv b) Hb) as (h & i & E & H). exists h, i. split; [done|].
  change ([TOKEN b] ++ (TOKEN <$> bs)) with (TOKEN <$> b :: bs) in H. unfold known_names in Hk.
  destruct h; cbn in H |- *; try done; exfalso; apply Hk; rewrite !elem_of_cons; tauto.
Qed.

(** *** Header values *)
Definition value_byte_ok (b : Z) : bool := negb (b =? CR) && negb (b =? LF) && IS_HEADER_CHAR b.

Lemma value_byte_ok_inv b q : value_byte_ok b = true -> b <> CR /\ b <> LF /\ value_ok q b.
Proof.
  unfold value_byte_ok. intros [[H1%negb_true_iff%Z.eqb_neq H2%negb_true_iff%Z.eqb_neq]%andb_prop H3]%andb_prop.
  repeat (split; [done|]). by rewrite H3, andb_false_r.
Qed.

Lemma add_value_app x y u : add_value y (add_value x u) = add_value (x ++ y) u.
Proof. unfold add_value. destruct u as [? ? ? [] ? ? ?]; cbn; by rewrite ?app_assoc. Qed.
Lemma add_value_nil x u : add_value [] (add_value x u) = add_value x u.
Proof. by rewrite add_value_app, app_nil_r. Qed.
Lemma add_value_ready x u : s_ (add_value x u) <> INIT.
Proof. done. Qed.

(** What a byte of a value does to the variables of the header. *)
Definition hvars : Type := header_states * nat * Z * Z.
Definition value_next (x : hvars) (b : Z) : option hvars :=
  let '(h, i, cl, fl) := x in
  match h with
  | h_general => Some x
  | _ =>
      match value_char b h (set_flags fl (set_content_length cl (set_index i (set_header_state h (set_state s_header_value (http_parser_init HTTP_REQUEST)))))) with
      | Ret (inr (h', q)) => Some (h', index q, content_length q, flags q)
      | _ => None
      end
  end.

Lemma value_next_char ty fl h i n cl v m b h' i' cl' fl' : value_next (h, i, cl, fl) b = Some (h', i', cl', fl') -> h <> h_general ->
  value_char b h (mkParser ty fl s_header_value h i false n cl (fst (fst v)) (snd (fst v)) (snd v) m HPE_OK false) =
  Ret (inr (h', mkParser ty fl' s_header_value h i' false n cl' (fst (fst v)) (snd (fst v)) (snd v) m HPE_OK false)).
Proof.
  unfold value_next. destruct h; try done; cbn -[match_next Nat.modulo Z.mul Z.add Z.sub u64 ULLONG_MAX Z.div TOKEN LOWER];
    repeat case_match; intros; by simplify_eq.
Qed.

Lemma takes_value ty b h i n cl fl v m u h' i' cl' fl' : value_byte_ok b = true -> value_next (h, i, cl, fl) b = Some (h', i', cl', fl') -> s_ u <> INIT ->
  0 <= n -> n + 2 <= HTTP_MAX_HEADER_SIZE ->
  takes b (hp ty s_header_value h i n cl fl v m u) (hp ty s_header_value h' i' (n + 2) cl' fl' v m (add_value [b] u)).
Proof.
  intros Hb E Hu H0 Hn. unfold hp. apply takes_header; [done..|fields; lia|]. fields. eapply (byte_marked D_header_value); [done|by split|].
  string_case D_header_value (do_header_value settings_ [b]). replace (n + 2) with (n + 1 + 1) by lia. unfold do_header_value.
  set (q := mkParser _ _ _ _ _ _ _ _ _ _ _ _ _ _). destruct (value_byte_ok_inv b q Hb) as (Hcr & Hlf & Hok).
  change (value_loop settings_ [b] 1 0 h (marked D_header_value q u 0) = Ret (Break (marked D_header_value (mkParser ty fl' s_header_value h' i' false (n + 1 + 1) cl' v.1.1 v.1.2 v.2 m HPE_OK false) u 0))).
  destruct (decide (h = h_general)) as [->|Hh].
  - rewrite (value_general settings_ [b] 0 0 _ b); [|done|done]. change (p (marked _ _ _ _)) with 0%nat. rewrite skip_general_single by done.
    injection E as <- <- <- <-. rewrite (value_end settings_) by done. rewrite value_done_ok by (cbn; lia). done.
  - rewrite (value_other settings_ [b] 0 0 h _ b); [|done..]. rewrite par_marked. unfold q. rewrite (value_next_char _ _ _ _ _ _ _ _ _ _ _ _ _ E Hh).
    rewrite (value_end settings_) by done. rewrite value_done_ok by (cbn; lia). done.
Qed.

Fixpoint value_run (bs : list Z) (x : hvars) : option hvars :=
  match bs with
  | [] => Some x
  | b :: bs => match value_next x b with Some x => value_run bs x | None => None end
  end.

Lemma reads_value ty bs h i n cl fl v m u h' i' cl' fl' : forallb value_byte_ok bs = true -> value_run bs (h, i, cl, fl) = Some (h', i', cl', fl') ->
  0 <= n -> n + 2 * Z.of_nat (length bs) <= HTTP_MAX_HEADER_SIZE -> s_ u <> INIT -> add_value [] u = u ->
  reads bs (hp ty s_header_value h i n cl fl v m u) (hp ty s_header_value h' i' (n + 2 * Z.of_nat (length bs)) cl' fl' v m (add_value bs u)).
Proof.
  revert h i n cl fl u. induction bs as [|b bs IH]; cbn [forallb length value_run]; intros h i n cl fl u Hb E H0 Hn Hs Hu.
  { injection E as <- <- <- <-. rewrite Hu, Z.add_0_r. constructor. }
  apply andb_prop in Hb as [Hb Hbs]. destruct (value_next _ b) as [[[[h1 i1] cl1] fl1]|] eqn:E1; [|done].
  econstructor; [apply takes_value; [done|exact E1|done|lia..]|].
  replace (n + 2 * Z.of_nat (S (length bs))) with (n + 2 + 2 * Z.of_nat (length bs)) by lia.
  change (b :: bs) with ([b] ++ bs). rewrite <- (add_value_app [b] bs). apply IH; [done..|lia|lia|done|apply add_value_nil].
Qed.

Definition value_first (h : header_states) (cl fl : Z) (b : Z) : option hvars :=
  match h with
  | h_upgrade => Some (h_general, O, cl, Z.lor fl F_UPGRADE)
  | h_transfer_encoding => Some (if LOWER b =? 99 then h_matching_transfer_encoding_chunked else h_general, O, cl, fl)
  | h_content_length =>
      if negb (IS_NUM b) || negb (Z.land fl F_CONTENTLENGTH =? 0) then None else Some (h_content_length, O, b - 48, Z.lor fl F_CONTENTLENGTH)
  | h_connection =>
      Some (if LOWER b =? 107 then h_matching_connection_keep_alive else if LOWER b =? 99 then h_matching_connection_close else
            if LOWER b =? 117 then h_matching_connection_upgrade else h_matching_connection_token, O, cl, fl)
  | h_matching_connection_token_start => None
  | _ => Some (h_general, O, cl, fl)
  end.

Lemma takes_value_start ty b h i n cl fl v m u h' i' cl' fl' : b <> SP -> b <> TAB -> b <> CR -> b <> LF ->
  value_first h cl fl b = Some (h', i', cl', fl') -> s_ u <> INIT -> 0 <= n < HTTP_MAX_HEADER_SIZE ->
  takes b (hp ty s_header_value_discard_ws h i n cl fl v m u) (hp ty s_header_value h' i' (n + 1) cl' fl' v m (add_value [b] u)).
Proof.
  intros H1%Z.eqb_neq H2%Z.eqb_neq H3%Z.eqb_neq H4%Z.eqb_neq E Hu Hn. unfold hp. apply takes_header; [done..|]. fields.
  eapply (byte_marked D_header_value); [done|by split|]. one_case. unfold do_header_value_discard_ws. rewrite H1, H2, H3, H4. cbn [orb].
  unfold do_header_value_start, value_first in *. destruct h; cbn -[LOWER IS_NUM Z.lor Z.land Z.sub] in *; try (by injection E as <- <- <- <-); try discriminate E.
  unfold has_flag. cbn. destruct (negb (IS_NUM b)); [done|]. destruct (negb (Z.land fl F_CONTENTLENGTH =? 0)) eqn:Ef; [done|]. by injection E as <- <- <- <-.
Qed.

Lemma takes_value_end ty h i n cl fl v m u : s_ u <> INIT -> add_value [] u = u -> 0 <= n < HTTP_MAX_HEADER_SIZE ->
  takes CR (hp ty s_header_value h i n cl fl v m u) (hp ty s_header_almost_done h i (n + 1) cl fl v m u).
Proof.
  intros Hs Hu Hn. unfold hp. apply takes_header; [done..|]. fields. apply byte_plain; [done|].
  string_case D_header_value (do_header_value settings_ [CR]). unfold do_header_value. rewrite (value_cr settings_) by done. unfold CALLBACK_DATA.
  rewrite (took_data [CR] D_header_value _ _ _ _ 0%nat u) by (done || (split; [done|cbn; by rewrite Hu])). rewrite value_done_ok by (cbn; lia).
  cbn. by rewrite Z.add_0_r.
Qed.

Lemma takes_line_end ty h i n cl fl v m u : 0 <= n < HTTP_MAX_HEADER_SIZE ->
  takes LF (hp ty s_header_almost_done h i n cl fl v m u) (hp ty s_header_value_lws h i (n + 1) cl fl v m u).
Proof. intros Hn. byte_of byte_plain. one_case. done. Qed.

Lemma reads_no_value ty h i n cl fl v m u : 0 <= n -> n + 2 <= HTTP_MAX_HEADER_SIZE ->
  reads CRLF (hp ty s_header_value_discard_ws h i n cl fl v m u) (hp ty s_header_value_discard_lws h i (n + 2) cl fl v m u).
Proof.
  intros H0 Hn. eapply (reads_cons _ _ _ (hp ty s_header_value_discard_ws_almost_done h i (n + 1) cl fl v m u)).
  - byte_of byte_plain. one_case. done.
  - replace (n + 2) with (n + 1 + 1) by lia. econstructor; [|constructor]. byte_of byte_plain. one_case. done.
Qed.

(** A header that leaves its mark on the flags and the length. *)
Definition value_state (value : list Z) (h : header_states) (cl fl : Z) : option hvars :=
  match value with
  | [] => None
  | b :: bs => match value_first h cl fl b with Some x => value_run bs x | None => None end
  end.

Definition value_chars (value : list Z) : bool :=
  forallb value_byte_ok value && match value with b :: _ => negb (b =? SP) && negb (b =? TAB) | [] => true end.

Lemma add_field_ready x u : s_ (add_field x u) <> INIT.
Proof. unfold add_field. by destruct (s_ u). Qed.

Definition line_size (name value : list Z) : Z := 2 * (Z.of_nat (length name) + Z.of_nat (length value)) + 4.

Lemma reads_header ty n cl fl v m u d name value h i h' i' cl' fl' : boundary ty n cl fl v m u d ->
  token_chars name = true -> name_state name = Some (h, i) -> value_chars value = true -> value_state value h cl fl = Some (h', i', cl', fl') ->
  0 <= n -> n + line_size name value <= HTTP_MAX_HEADER_SIZE ->
  exists n' d', reads (header_line (name, value)) d d' /\ n <= n' <= n + line_size name value /\
    boundary ty n' cl' (final_flags h' fl') v m (add_value value (add_field name u)) d'.
Proof.
  unfold line_size. intros Hd Ht En Hv Ev H0 Hn. destruct value as [|b bs]; [done|]. cbn [value_state length] in *.
  apply andb_prop in Hv as [Hv Hb]. cbn [forallb] in Hv. apply andb_prop in Hv as [Hb0 Hbs]. apply andb_prop in Hb as [H1%negb_true_iff%Z.eqb_neq H2%negb_true_iff%Z.eqb_neq].
  destruct (value_byte_ok_inv b (http_parser_init HTTP_REQUEST) Hb0) as (H3 & H4 & _).
  destruct (value_first h cl fl b) as [[[[h1 i1] cl1] fl1]|] eqn:Ef; [|done].
  unfold header_line. cbn [fst snd]. rewrite app_assoc. eexists (n + 2 * Z.of_nat (length name) + 1 + 1 + 2 * Z.of_nat (length bs) + 1 + 1), _. split.
  - eapply reads_app; [apply (reads_name ty n cl fl v m u d name h i); (done || lia)|]. cbn [app].
    econstructor; [apply takes_value_start; [done..|exact Ef|apply add_field_ready|lia]|].
    eapply reads_app; [apply reads_value; [done|exact Ev|lia..|apply add_value_ready|apply add_value_nil]|]. rewrite add_value_app. unfold CRLF.
    econstructor; [apply takes_value_end; [apply add_value_ready|apply add_value_nil|lia]|]. econstructor; [apply takes_line_end; lia|]. constructor.
  - split; [lia|]. by constructor.
Qed.

Lemma value_run_general bs i cl fl : value_run bs (h_general, i, cl, fl) = Some (h_general, i, cl, fl).
Proof. by induction bs. Qed.

(** A header the parser has no use for. *)
Record header_ok (e : list Z * list Z) : Prop := {
  ho_name : fst e <> [];
  ho_token : token_chars (fst e) = true;
  ho_known : TOKEN <$> fst e ∉ known_names;
  ho_value : value_chars (snd e) = true;
  ho_bytes : Forall is_byte (snd e) }.

Lemma reads_dull ty n cl fl v m u d e : boundary ty n cl fl v m u d -> header_ok e -> 0 <= n -> n + line_size (fst e) (snd e) <= HTTP_MAX_HEADER_SIZE ->
  exists n' d', reads (header_line e) d d' /\ n <= n' <= n + line_size (fst e) (snd e) /\
    boundary ty n' cl fl v m (add_value (snd e) (add_field (fst e) u)) d'.
Proof.
  intros Hd [H1 H2 H3 H4 _] H0 Hn. destruct e as [name value]. cbn [fst snd] in *. destruct (name_state_dull name H1 H2 H3) as (h & i & En & Hh).
  destruct value as [|b bs].
  - unfold header_line, line_size in *. cbn [fst snd app length] in *. eexists (n + 2 * Z.of_nat (length name) + 1 + 2), _. split.
    + change (COLON :: SP :: CRLF) with ([COLON; SP] ++ CRLF). rewrite app_assoc.
      eapply reads_app; [apply (reads_name ty n cl fl v m u d name h i); (done || lia)|]. apply reads_no_value; lia.
    + split; [lia|]. constructor; [by destruct h|apply add_field_ready|done].
  - apply (reads_header ty n cl fl v m u d name (b :: bs) h i h_general 0 cl fl); try done. cbn [value_state].
    replace (value_first h cl fl b) with (Some (h_general, O, cl, fl)) by (by destruct h). apply value_run_general.
Qed.

(** *** The end of the headers *)
Lemma takes_blank ty n cl fl v m u d : boundary ty n cl fl v m u d -> 0 <= n < HTTP_MAX_HEADER_SIZE ->
  exists h i, takes CR d (hp ty s_headers_almost_done h i (n + 1) cl fl v m u).
Proof.
  intros Hd Hn. destruct (boundary_turn ty n cl fl v m u d CR Hd) as (h & i & k & E); [done..|]. exists h, i.
  destruct (boundary_calm _ _ _ _ _ _ _ _ Hd) as (q & u' & -> & Hc & Hp & En). apply takes_header; [done..|lia|]. rewrite En.
  apply byte_plain; [done|]. cbn [parser_ self_] in E. rewrite E. by apply (turn_break settings_).
Qed.

(** The user after the headers, and after the message. *)
Definition headed (m : http_method) (cl : Z) (u : Self) : Self :=
  let u := match s_ u with VALUE => store_header u | _ => u end in
  let f := req_ u in
  mkSelf (allow_body_ u) (field_ u) (value_ u) (s_ u) true (completed_ u)
    (mkFrame HPE_OK (frame_http_errno f) m cl (path f) (headers f) (eof_ f) (body f)).
Definition finished (u : Self) : Self :=
  mkSelf (allow_body_ u) (field_ u) (value_ u) (s_ u) (header_completed_ u) true (req_ u).

Definition fixed (ty : http_parser_type) (st : state) (h : header_states) (i : nat) (cl fl : Z) (v : Z * Z * Z) (m : http_method) : http_parser :=
  mkParser ty fl st h i false 0 cl (fst (fst v)) (snd (fst v)) (snd v) m HPE_OK false.

(** Flags of a message whose body is what the length says. *)
Record plain_flags (fl : Z) : Prop := {
  pf_trailing : Z.land fl F_TRAILING = 0;
  pf_chunked : Z.land fl F_CHUNKED = 0;
  pf_skip : Z.land fl F_SKIPBODY = 0;
  pf_upgrade : (Z.land fl UPGRADE_FLAGS =? UPGRADE_FLAGS) = false }.

(** What follows the headers. *)
Definition after_headers (ty : http_parser_type) (h : header_states) (i : nat) (cl fl : Z) (v : Z * Z * Z) (m : http_method) (u : Self) : Parser :=
  let q := fixed ty s_headers_done h i cl fl v m in
  if (cl =? 0) || (cl =? ULLONG_MAX) && negb (http_message_needs_eof q) then mkHttpParser (set_state (NEW_MESSAGE q) q) (finished u)
  else if cl =? ULLONG_MAX then mkHttpParser (set_state s_body_identity_eof q) u
  else mkHttpParser (set_state s_body_identity q) u.

Section End_of_headers.
Context (ty : http_parser_type) (h : header_states) (i : nat) (cl fl : Z) (v : Z * Z * Z) (m : http_method) (u : Self).
Context (Hf : plain_flags fl) (Hm : m <> HTTP_CONNECT) (Ha : allow_body_ u = true).
Let Q st n := mkParser ty fl st h i false n cl (fst (fst v)) (snd (fst v)) (snd v) m HPE_OK false.

Lemma no_flags st n : has_flag F_TRAILING (Q st n) = false /\ has_flag F_CHUNKED (Q st n) = false /\ has_flag F_SKIPBODY (Q st n) = false.
Proof. destruct Hf as [H1 H2 H3 _]. unfold has_flag. cbn [flags Q]. by rewrite H1, H2, H3. Qed.

Lemma almost_done_case n : do_headers_almost_done settings_ LF (plain (Q s_headers_almost_done n) u 0) =
  Ret (Reexecute LF (plain (Q s_headers_done n) (headed m cl u) 0)).
Proof.
  destruct (no_flags s_headers_almost_done n) as (E1 & E2 & _). destruct Hf as [_ _ _ H4].
  unfold do_headers_almost_done. change (STRICT_CHECK _ _ ?k) with k. change (par (plain ?q _ _)) with q. rewrite E1, E2. cbn [andb].
  change (on_headers_complete settings_) with (Some header_complete_cb).
  assert (Eu : upd (fun q => set_upgrade ((Z.land (flags q) UPGRADE_FLAGS =? UPGRADE_FLAGS) || bool_decide (method q = HTTP_CONNECT)) q)
    (UPDATE_STATE s_headers_done (plain (Q s_headers_almost_done n) u 0)) = plain (Q s_headers_done n) u 0).
  { transitivity (plain (set_upgrade ((Z.land fl UPGRADE_FLAGS =? UPGRADE_FLAGS) || bool_decide (m = HTTP_CONNECT)) (Q s_headers_done n)) u 0); [done|].
    by rewrite H4, bool_decide_false. }
  rewrite Eu. unfold header_complete_cb. change (usr (plain _ ?u _)) with u. 
  assert (E : allow_body_ match s_ u with VALUE => store_header u | _ => u end = true) by (by destruct (s_ u)).
  unfold headed. cbn [allow_body_]. rewrite E. cbn [negb res_bind fst snd]. done.
Qed.

Lemma headers_done_case n u' : exists q' u'', after_headers ty h i cl fl v m u' = mkHttpParser q' u'' /\
  do_headers_done settings_ LF (plain (Q s_headers_done n) u' 0) = Ret (Break (plain q' u'' 0)).
Proof.
  destruct (no_flags s_headers_done 0) as (_ & E2 & E3). unfold do_headers_done, after_headers. change (STRICT_CHECK _ _ ?k) with k.
  change (upd (set_nread 0) _) with (plain (Q s_headers_done 0) u' 0). change (fixed _ _ _ _ _ _ _ _) with (Q s_headers_done 0).
  change (par (plain ?q _ _)) with q. rewrite E2, E3. change (upgrade _) with false. change (content_length _) with cl. cbn [andb orb].
  destruct (cl =? 0); [by eexists _, _|]. destruct (cl =? ULLONG_MAX); cbn [orb andb negb]; [|by eexists _, _].
  destruct (http_message_needs_eof _); by eexists _, _.
Qed.

Lemma after_headers_calm u' : calm (parser_ (after_headers ty h i cl fl v m u')).
Proof. unfold after_headers. by repeat case_match. Qed.

Lemma takes_headers_end n : 0 <= n < HTTP_MAX_HEADER_SIZE ->
  takes LF (hp ty s_headers_almost_done h i n cl fl v m u) (after_headers ty h i cl fl v m (headed m cl u)).
Proof.
  intros Hn. pose proof (after_headers_calm (headed m cl u)) as Hc. destruct (headers_done_case (n + 1) (headed m cl u)) as (q' & u' & E & Ed).
  rewrite E in *. unfold hp. apply takes_header; [done..|]. fields. apply byte_plain; [by destruct Hc|]. unfold turn_fuel.
  rewrite (turn_again [LF] 3 LF _ (plain (Q s_headers_done (n + 1)) (headed m cl u) 0) LF); [by apply (turn_break settings_)|]. apply almost_done_case.
Qed.
End End_of_headers.

(** *** The body *)
Lemma add_body_app x y u : add_body y (add_body x u) = add_body (x ++ y) u.
Proof. unfold add_body. cbn. by rewrite app_assoc. Qed.

Lemma execute_sized b ty h i cl fl v m u : 0 < cl < ULLONG_MAX ->
  let q := set_content_length (cl - 1) (fixed ty s_body_identity h i cl fl v m) in
  takes b (mkHttpParser (fixed ty s_body_identity h i cl fl v m) u)
    (if cl =? 1 then mkHttpParser (set_state (NEW_MESSAGE (set_state s_message_done q)) q) (finished (add_body [b] u)) else mkHttpParser q (add_body [b] u)).
Proof.
  intros Hcl q. assert (E1 : Z.min cl (left [b] (plain (fixed ty s_body_identity h i cl fl v m) u 0)) = 1) by (change (left _ _) with 1; lia).
  assert (Hs : switch settings_ [b] b (initial_locals (fixed ty s_body_identity h i cl fl v m) u) =
    if cl =? 1 then Ret (Reexecute b (plain (set_state s_message_done q) (add_body [b] u) 0)) else Ret (Break (marked D_body q u 0))).
  { change (switch _ _ _ _) with (do_body_identity settings_ [b] b (plain (fixed ty s_body_identity h i cl fl v m) u 0)). unfold do_body_identity. cbv zeta. change (content_length (par (plain (fixed ty s_body_identity h i cl fl v m) u 0))) with cl. rewrite E1. rewrite (proj2 (Z.eqb_neq cl 0)), (proj2 (Z.eqb_neq cl ULLONG_MAX)) by lia. cbn [orb].
    destruct (Z.eqb_spec cl 1) as [->|Hne].
    - match goal with |- (if ?c then _ else _) = _ => change c with true end. cbn match. rewrite (took_data [b] D_body _ _ _ _ 0%nat (add_body [b] u)) by done. done.
    - match goal with |- (if ?c then _ else _) = _ => change c with (cl - 1 =? 0) end. rewrite (proj2 (Z.eqb_neq (cl - 1) 0)) by lia. done. }
  unfold takes. rewrite execute_body by done. destruct (cl =? 1).
  - split; [|done]. apply byte_plain; [done|]. unfold turn_fuel. rewrite (turn_again [b] 3 b _ _ b Hs). by apply (turn_break settings_).
  - split; [|done]. eapply (byte_marked D_body); [done|by split|]. by apply (turn_break settings_).
Qed.

Lemma reads_body ty h i fl v m bs u cl : bs <> [] -> cl = Z.of_nat (length bs) -> cl < ULLONG_MAX ->
  let q := set_content_length 0 (fixed ty s_body_identity h i 0 fl v m) in
  reads bs (mkHttpParser (fixed ty s_body_identity h i cl fl v m) u)
    (mkHttpParser (set_state (NEW_MESSAGE (set_state s_message_done q)) q) (finished (add_body bs u))).
Proof.
  intros Hne Hcl Hm q. revert u cl Hne Hcl Hm. induction bs as [|b bs IH]; [done|]. intros u cl _ Hcl Hm. cbn [length] in Hcl.
  pose proof (execute_sized b ty h i cl fl v m u) as Ht. destruct bs as [|b' bs].
  - cbn in Hcl. subst cl. econstructor; [apply Ht; lia|constructor].
  - rewrite (proj2 (Z.eqb_neq cl 1)) in Ht by (cbn in Hcl; lia). econstructor; [apply Ht; lia|].
    change (b :: b' :: bs) with ([b] ++ (b' :: bs)). rewrite <- add_body_app. apply IH; [done|lia..].
Qed.

(** ** Numbers *)
Definition digit (b : Z) : Prop := 48 <= b <= 57.
Definition number (a : Z) (ds : list Z) : Z := fold_left (fun a d => a * 10 + (d - 48)) ds a.

Lemma number_snoc a ds d : number a (ds ++ [d]) = number a ds * 10 + (d - 48).
Proof. unfold number. by rewrite fold_left_app. Qed.
Lemma number_ge a ds : 0 <= a -> Forall digit ds -> a <= number a ds.
Proof.
  revert a. induction ds as [|d ds IH]; intros a Ha Hd; [cbn; lia|]. inversion Hd as [|? ? Hx Hds]; subst. unfold digit in *.
  change (number a (d :: ds)) with (number (a * 10 + (d - 48)) ds). specialize (IH (a * 10 + (d - 48))). assert (0 <= a * 10 + (d - 48)) by lia. specialize (IH H Hds). lia.
Qed.

Lemma decimal_loop_spec fuel n acc : 0 <= n < 10 ^ Z.of_nat fuel ->
  exists ds, decimal_loop fuel n acc = ds ++ acc /\ Forall digit ds /\ number 0 ds = n /\ (length ds <= fuel)%nat /\ (fuel <> 0%nat -> ds <> []).
Proof.
  revert n acc. induction fuel as [|fuel IH]; intros n acc Hn; [exists []; cbn in *; split; [done|]; split; [done|]; split; [lia|]; split; [lia|done]|].
  cbn [decimal_loop]. pose proof (Z.mod_pos_bound n 10 ltac:(lia)) as Hm. destruct (Z.ltb_spec n 10) as [Hs|Hs].
  - exists [48 + n mod 10]. split; [done|]. split; [repeat constructor; unfold digit; lia|]. split; [cbn; rewrite Z.mod_small; lia|]. split; [cbn; lia|done].
  - rewrite Nat2Z.inj_succ, Z.pow_succ_r in Hn by lia.
    destruct (IH (n / 10) (48 + n mod 10 :: acc)) as (ds & E & Hd & Hv & Hl & _); [split; [apply Z.div_pos; lia|apply Z.div_lt_upper_bound; lia]|].
    exists (ds ++ [48 + n mod 10]). rewrite E, <- app_assoc. split; [done|]. split; [apply Forall_app; split; [done|repeat constructor; unfold digit; lia]|].
    rewrite number_snoc, Hv, length_app. cbn. split; [pose proof (Z.div_mod n 10 ltac:(lia)); lia|]. split; [lia|]. intros _ Hx. by destruct ds.
Qed.

Lemma decimal_spec n : 0 <= n < 2 ^ 64 ->
  Forall digit (decimal n) /\ number 0 (decimal n) = n /\ (length (decimal n) <= 20)%nat /\ decimal n <> [].
Proof.
  intros Hn. destruct (decimal_loop_spec 20 n []) as (ds & E & H1 & H2 & H3 & H4); [cbn; lia|]. unfold decimal. rewrite E, app_nil_r. auto.
Qed.

Lemma digit_num d : digit d -> IS_NUM d = true.
Proof. unfold digit, IS_NUM. lia. Qed.
Lemma digit_value d : digit d -> value_byte_ok d = true /\ d <> SP /\ d <> TAB.
Proof. unfold digit, value_byte_ok, IS_HEADER_CHAR. intros H. repeat split; lia. Qed.

Lemma value_run_number ds i a fl : Forall digit ds -> 0 <= a -> number a ds < 2 ^ 60 ->
  value_run ds (h_content_length, i, a, fl) = Some (h_content_length, i, number a ds, fl).
Proof.
  intros Hd. revert a. induction Hd as [|d ds Hx Hd IH]; intros a Ha Hn; [done|]. cbn [value_run].
  change (number a (d :: ds)) with (number (a * 10 + (d - 48)) ds) in *. unfold digit in Hx.
  pose proof (number_ge (a * 10 + (d - 48)) ds ltac:(lia) Hd) as Hg.
  assert (E : value_next (h_content_length, i, a, fl) d = Some (h_content_length, i, a * 10 + (d - 48), fl)).
  { unfold value_next, value_char. rewrite (digit_num d Hx). cbn [negb]. rewrite (proj2 (Z.eqb_neq d SP)) by lia.
    unfold http_parser_init. fields.
    change ((ULLONG_MAX - 10) / 10) with 1844674407370955160. rewrite (proj2 (Z.ltb_ge 1844674407370955160 a)) by lia. unfold u64. rewrite (Z.mod_small (a * 10)) by lia. rewrite Z.mod_small by lia. done. }
  rewrite E. apply IH; lia.
Qed.

Lemma value_state_number n cl fl : 0 <= n < 2 ^ 60 -> Z.land fl F_CONTENTLENGTH = 0 ->
  value_state (decimal n) h_content_length cl fl = Some (h_content_length, O, n, Z.lor fl F_CONTENTLENGTH).
Proof.
  intros Hn Hf. destruct (decimal_spec n) as (Hd & Hv & _ & Hne); [lia|]. destruct (decimal n) as [|d ds]; [done|]. inversion Hd as [|? ? Hx Hds]; subst.
  cbn [value_state value_first]. rewrite (digit_num d Hx), Hf. cbn [negb orb Z.eqb]. unfold digit in Hx.
  rewrite value_run_number; [|done|lia|exact (proj2 Hn)]. done.
Qed.
Lemma value_chars_number n : 0 <= n < 2 ^ 64 -> value_chars (decimal n) = true.
Proof.
  intros Hn. destruct (decimal_spec n Hn) as (Hd & _). unfold value_chars. apply andb_true_intro. split.
  - apply forallb_forall. intros d Hin. rewrite List.Forall_forall in Hd. apply digit_value. by apply Hd.
  - inversion Hd as [|d ds Hx _]; [done|]. destruct (digit_value d Hx) as (_ & H1%Z.eqb_neq & H2%Z.eqb_neq). by rewrite H1, H2.
Qed.

(** ** Bytes *)
Lemma table_zero t i : (i < 0 -> nth_error t 0 = Some 0) -> (Z.of_nat (length t) <= i \/ i < 0) -> table t i = 0.
Proof.
  intros H0 [Hi|Hi]; unfold table.
  - by rewrite (proj2 (lookup_ge_None t (Z.to_nat i))) by lia.
  - replace (Z.to_nat i) with 0%nat by lia. specialize (H0 Hi). destruct t; [done|]. cbn in *. congruence.
Qed.
Lemma token_byte b : TOKEN b <> 0 -> is_byte b.
Proof.
  intros H. unfold is_byte. destruct (decide (0 <= b < 128)) as [Hb|Hb]; [lia|]. destruct H. apply table_zero; [done|]. cbn. lia.
Qed.
Lemma path_byte b : path_char b = true -> is_byte b.
Proof.
  unfold path_char, is_byte. intros H. destruct (Z.eqb_spec b QUESTION); [lia|]. destruct (Z.eqb_spec b HASH); [lia|].
  rewrite !orb_false_r in H. destruct (decide (0 <= b < 128)) as [Hb|Hb]; [lia|]. unfold IS_URL_CHAR, BIT_AT in H.
  rewrite table_zero in H; [done|done|]. change (Z.of_nat _) with 16. rewrite Z.shiftr_div_pow2 by lia. change (2 ^ 3) with 8.
  assert (b < 0 \/ 128 <= b) as [Hl|Hl] by lia; [right; apply Z.div_lt_upper_bound|left; apply Z.div_le_lower_bound]; lia.
Qed.
Lemma token_bytes l : token_chars l = true -> Forall is_byte l.
Proof.
  intros H. apply List.Forall_forall. intros b Hb. apply token_byte. unfold token_chars in H. rewrite forallb_forall in H. specialize (H b Hb). lia.
Qed.
Lemma path_bytes p : path_ok p = true -> Forall is_byte p.
Proof.
  destruct p as [|b bs]; [done|]. cbn. intros [Hb%Z.eqb_eq H]%andb_prop. constructor; [unfold is_byte; lia|].
  apply List.Forall_forall. intros c Hc. rewrite forallb_forall in H. by apply path_byte, H.
Qed.
Lemma string_bytes w : Forall is_byte (bytes w).
Proof. unfold bytes. apply Forall_fmap, Forall_true. intros c. cbn. unfold is_byte. pose proof (Ascii.N_ascii_bounded c). lia. Qed.
Lemma digit_bytes l : Forall digit l -> Forall is_byte l.
Proof. intros H. apply (Forall_impl _ _ _ H). unfold digit, is_byte. lia. Qed.
Lemma crlf_bytes : Forall is_byte CRLF.
Proof. repeat constructor; unfold is_byte; lia. Qed.
Lemma line_bytes name value : Forall is_byte name -> Forall is_byte value -> Forall is_byte (header_line (name, value)).
Proof. intros H1 H2. unfold header_line. cbn [fst snd]. rewrite !Forall_app. split; [done|]. split; [repeat constructor; unfold is_byte; lia|]. split; [done|apply crlf_bytes]. Qed.
Lemma lines_bytes hs : Forall header_ok hs -> Forall is_byte (header_lines hs).
Proof.
  intros H. apply Forall_concat, Forall_fmap. apply (Forall_impl _ _ _ H). intros [name value] He. apply line_bytes; [apply token_bytes, (ho_token _ He)|apply (ho_bytes _ He)].
Qed.

(** ** The status line *)
Lemma takes_response_start h i n cl fl v m u : completed_ u = false -> 0 <= n < HTTP_MAX_HEADER_SIZE ->
  takes 72 (hp HTTP_RESPONSE s_start_res h i n cl fl v m u) (hp HTTP_RESPONSE s_res_H h i (n + 1) ULLONG_MAX 0 v m (reset u)).
Proof.
  intros Hc Hn. byte_of byte_plain. one_case. unfold do_start_res, CALLBACK_NOTIFY, CALLBACK_NOTIFY_. cbn [Z.eqb Pos.eqb]. rewrite decide_True by done.
  cbn [on_message_begin settings_]. unfold message_begin_cb. cbn. by rewrite Hc.
Qed.

Lemma reads_res_version ty h i n cl fl v m u : 0 <= n -> n + 8 <= HTTP_MAX_HEADER_SIZE ->
  reads (bytes "TTP/1.1 ") (hp ty s_res_H h i n cl fl v m u) (hp ty s_res_first_status_code h i (n + 8) cl fl (1, 1, snd v) m u).
Proof. intros H0 Hn. eapply reads_to; [cbn [bytes fmap list_fmap app CRLF]; unfold hp; steps|unfold hp; cbn [fst snd]; do 2 f_equal; lia]. Qed.

Lemma takes_first_digit ty d h i n cl fl v m u : digit d -> 0 <= n < HTTP_MAX_HEADER_SIZE ->
  takes d (hp ty s_res_first_status_code h i n cl fl v m u) (hp ty s_res_status_code h i (n + 1) cl fl (fst v, d - 48) m u).
Proof. intros Hd Hn. byte_of byte_plain. one_case. unfold do_res_status. by rewrite (digit_num d Hd). Qed.

Lemma takes_status_digit ty d h i n cl fl v a m u : digit d -> 0 <= a -> a * 10 + (d - 48) <= 999 -> 0 <= n < HTTP_MAX_HEADER_SIZE ->
  takes d (hp ty s_res_status_code h i n cl fl (v, a) m u) (hp ty s_res_status_code h i (n + 1) cl fl (v, a * 10 + (d - 48)) m u).
Proof.
  intros Hd Ha Hs Hn. byte_of byte_plain. one_case. unfold do_res_status. rewrite (digit_num d Hd). cbn [negb]. unfold digit16. unfold digit in Hd.
  assert (E : u16 (u16 (a * 10) + (d - 48)) = a * 10 + (d - 48)) by (unfold u16; rewrite (Z.mod_small (a * 10)) by lia; apply Z.mod_small; lia).
  cbv [upd set_par par set_status_code status_code snd fst]. rewrite E. by rewrite (proj2 (Z.ltb_ge 999 (a * 10 + (d - 48)))) by lia.
Qed.

Lemma reads_status_digits ty ds h i n cl fl v a m u : Forall digit ds -> 0 <= a -> number a ds <= 999 -> 0 <= n -> n + Z.of_nat (length ds) <= HTTP_MAX_HEADER_SIZE ->
  reads ds (hp ty s_res_status_code h i n cl fl (v, a) m u) (hp ty s_res_status_code h i (n + Z.of_nat (length ds)) cl fl (v, number a ds) m u).
Proof.
  intros Hd. revert a n. induction Hd as [|d ds Hx Hd IH]; intros a n Ha Hs H0 Hn; [cbn; rewrite Z.add_0_r; constructor|]. cbn [length] in *.
  change (number a (d :: ds)) with (number (a * 10 + (d - 48)) ds) in *. pose proof (number_ge (a * 10 + (d - 48)) ds) as Hg. unfold digit in Hx.
  specialize (Hg ltac:(lia) Hd). econstructor; [apply takes_status_digit; (done || lia)|].
  replace (n + Z.of_nat (S (length ds))) with (n + 1 + Z.of_nat (length ds)) by lia. apply IH; lia.
Qed.

(** The text of a status, of which the user hears nothing. *)
Definition status_char (b : Z) : bool := negb (b =? CR) && negb (b =? LF).

Lemma takes_status_start ty b h i n cl fl v m u : status_char b = true -> 0 <= n < HTTP_MAX_HEADER_SIZE ->
  takes b (hp ty s_res_status_start h i n cl fl v m u) (hp ty s_res_status h 0 (n + 1) cl fl v m u).
Proof.
  intros [H1%negb_true_iff H2%negb_true_iff]%andb_prop Hn. unfold hp. apply takes_header; [done..|]. fields. eapply (byte_marked D_status); [done|reflexivity|].
  one_case. unfold do_res_status. by rewrite H1, H2.
Qed.
Lemma takes_status_char ty b h i n cl fl v m u : status_char b = true -> 0 <= n < HTTP_MAX_HEADER_SIZE ->
  takes b (hp ty s_res_status h i n cl fl v m u) (hp ty s_res_status h i (n + 1) cl fl v m u).
Proof.
  intros [H1%negb_true_iff H2%negb_true_iff]%andb_prop Hn. unfold hp. apply takes_header; [done..|]. fields. eapply (byte_marked D_status); [done|reflexivity|].
  string_case D_status (do_res_status settings_ [b] s_res_status b). unfold do_res_status. by rewrite H1, H2.
Qed.
Lemma reads_status_text ty bs h i n cl fl v m u : forallb status_char bs = true -> 0 <= n -> n + Z.of_nat (length bs) <= HTTP_MAX_HEADER_SIZE ->
  reads bs (hp ty s_res_status h i n cl fl v m u) (hp ty s_res_status h i (n + Z.of_nat (length bs)) cl fl v m u).
Proof.
  revert n. induction bs as [|b bs IH]; cbn [forallb length]; intros n Hb H0 Hn; [rewrite Z.add_0_r; constructor|].
  apply andb_prop in Hb as [Hb Hbs]. econstructor; [apply takes_status_char; (done || lia)|].
  replace (n + Z.of_nat (S (length bs))) with (n + 1 + Z.of_nat (length bs)) by lia. apply IH; (done || lia).
Qed.
Lemma takes_status_end ty h i n cl fl v m u : 0 <= n < HTTP_MAX_HEADER_SIZE ->
  takes CR (hp ty s_res_status h i n cl fl v m u) (hp ty s_res_line_almost_done h i (n + 1) cl fl v m u).
Proof.
  intros Hn. unfold hp. apply takes_header; [done..|]. fields. apply byte_plain; [done|].
  string_case D_status (do_res_status settings_ [CR] s_res_status CR). unfold do_res_status, CALLBACK_DATA. cbn [Z.eqb Pos.eqb].
  by rewrite (took_data [CR] D_status _ _ _ _ 0%nat u) by done.
Qed.
Lemma takes_status_code_end ty h i n cl fl v m u : 0 <= n < HTTP_MAX_HEADER_SIZE ->
  takes SP (hp ty s_res_status_code h i n cl fl v m u) (hp ty s_res_status_start h i (n + 1) cl fl v m u).
Proof. intros Hn. byte_of byte_plain. one_case. done. Qed.
Lemma takes_status_line_end ty h i n cl fl v m u : 0 <= n < HTTP_MAX_HEADER_SIZE ->
  takes LF (hp ty s_res_line_almost_done h i n cl fl v m u) (hp ty s_header_field_start h i (n + 1) cl fl v m u).
Proof. intros Hn. byte_of byte_plain. one_case. done. Qed.

Lemma reads_status_line h i n cl fl v m u code text : completed_ u = false -> 0 <= code <= 999 -> text <> [] -> forallb status_char text = true ->
  let line := bytes "HTTP/1.1 " ++ decimal code ++ [SP] ++ text ++ CRLF in
  0 <= n -> n + Z.of_nat (length line) <= HTTP_MAX_HEADER_SIZE ->
  reads line (hp HTTP_RESPONSE s_start_res h i n cl fl v m u)
    (hp HTTP_RESPONSE s_header_field_start h 0 (n + Z.of_nat (length line)) ULLONG_MAX 0 (1, 1, code) m (reset u)).
Proof.
  intros Hc Hcode Hne Ht line H0 Hn. destruct (decimal_spec code) as (Hd & Hv & _ & Hdn); [lia|]. destruct text as [|t ts]; [done|].
  subst line. destruct (decimal code) as [|a ds]; [done|]. inversion Hd as [|? ? Ha Hds]; subst.
  rewrite !length_app in *. change (length (bytes "HTTP/1.1 ")) with 9%nat in *. cbn [length CRLF] in *. apply andb_prop in Ht as [Ht Hts].
  change (number 0 (a :: ds)) with (number (a - 48) ds) in *. unfold digit in Ha.
  change (bytes "HTTP/1.1 ") with (72 :: bytes "TTP/1.1 "). cbn [app].
  econstructor; [apply takes_response_start; (done || lia)|]. eapply reads_app; [apply reads_res_version; lia|].
  econstructor; [apply takes_first_digit; (done || lia)|]. cbn [fst]. eapply reads_app; [apply reads_status_digits; (done || lia)|].
  econstructor; [apply takes_status_code_end; lia|]. econstructor; [apply takes_status_start; (done || lia)|].
  eapply reads_app; [apply reads_status_text; (done || lia)|]. econstructor; [apply takes_status_end; lia|]. econstructor; [apply takes_status_line_end; lia|].
  match goal with |- reads [] ?d (hp _ _ _ _ ?n2 _ _ _ _ _) => let n1 := match d with hp _ _ _ _ ?n1 _ _ _ _ _ => n1 end in replace n2 with n1 by lia end.
  constructor.
Qed.
