(* ===== verification/HttpRoundtrip.v ===== *)
(** * HTTP messages: what is encoded is decoded

    The encoders of [HttpEncode] against the decoders of [HttpMessage], through
    the output queue, the stream over it and any cut of the bytes into buffers. *)

From S2P Require Import Prelude IOBufQueue StreamAdapter HttpSyntax HttpExec HttpMessage HttpEncode HttpSafe HttpCuts HttpDecode HttpBytes.
Local Open Scope cpp_scope.
Local Open Scope Z_scope.

(** ** The user while the headers come in *)

(** The headers with the one that is not stored yet. *)
Definition headers_of (u : Self) : gmap (list Z) (list Z) :=
  match s_ u with VALUE => <[field_ u := value_ u]> (headers (req_ u)) | _ => headers (req_ u) end.

Record header_user (a : bool) (p : list Z) (hm : gmap (list Z) (list Z)) (u : Self) : Prop := {
  hu_s : s_ u <> HEADER;
  hu_allow : allow_body_ u = a;
  hu_completed : completed_ u = false;
  hu_path : path (req_ u) = p;
  hu_headers : headers_of u = hm;
  hu_errno : frame_http_errno (req_ u) = 0;
  hu_body : body (req_ u) = [] }.

Lemma header_user_next a p hm u name value : header_user a p hm u -> header_user a p (<[name := value]> hm) (add_value value (add_field name u)).
Proof.
  intros [H1 H2 H3 H4 H5 H6 H7]. unfold headers_of in H5. destruct u as [ab fi va [] hc co [er en me cl pa he eo bo]]; cbn in *; try done; subst; by split.
Qed.

Definition insert_header (hm : gmap (list Z) (list Z)) (e : list Z * list Z) : gmap (list Z) (list Z) := <[fst e := snd e]> hm.

Lemma insert_headers (hs : list (list Z * list Z)) hm : NoDup (fst <$> hs) -> foldl insert_header hm hs = list_to_map hs ∪ hm.
Proof.
  revert hm. induction hs as [|[k x] hs IH]; intros hm Hd; cbn; [by rewrite map_empty_union|]. inversion Hd as [|? ? Hk Hd']; subst.
  rewrite IH by done. unfold insert_header. cbn. rewrite <- insert_union_r by (by apply not_elem_of_list_to_map_1). by rewrite insert_union_l.
Qed.

Lemma insert_all (hs : list (list Z * list Z)) (hm : gmap (list Z) (list Z)) : hs ≡ₚ map_to_list hm -> foldl insert_header ∅ hs = hm.
Proof.
  intros Hp. assert (Hd : NoDup (fst <$> hs)) by (rewrite Hp; apply NoDup_fst_map_to_list).
  rewrite insert_headers by done. rewrite map_union_empty. rewrite (list_to_map_proper hs (map_to_list hm)) by done. apply list_to_map_to_list.
Qed.

Lemma reads_headers ty n cl fl v m u d a p hm hs : boundary ty n cl fl v m u d -> header_user a p hm u -> Forall header_ok hs ->
  0 <= n -> n + 2 * Z.of_nat (length (header_lines hs)) <= HTTP_MAX_HEADER_SIZE ->
  exists n' u' d', reads (header_lines hs) d d' /\ n <= n' <= n + 2 * Z.of_nat (length (header_lines hs)) /\
    boundary ty n' cl fl v m u' d' /\ header_user a p (foldl insert_header hm hs) u'.
Proof.
  intros Hd Hu Hh. revert n u d hm Hd Hu. induction Hh as [|e hs He Hh IH]; intros n u d hm Hd Hu H0 Hn.
  { exists n, u, d. split; [constructor|]. split; [cbn; lia|done]. }
  unfold header_lines in *. cbn [fmap list_fmap concat foldl] in *. rewrite length_app in *.
  assert (Hl : line_size (fst e) (snd e) <= 2 * Z.of_nat (length (header_line e))).
  { unfold line_size, header_line. rewrite !length_app. cbn [length CRLF]. lia. }
  destruct (reads_dull ty n cl fl v m u d e Hd He H0) as (n1 & d1 & Hr1 & Hn1 & Hd1); [lia|].
  destruct (IH n1 _ d1 (insert_header hm e) Hd1 (header_user_next a p hm u (fst e) (snd e) Hu)) as (n2 & u2 & d2 & Hr2 & Hn2 & Hd2 & Hu2); [lia..|].
  exists n2, u2, d2. split; [by eapply reads_app|]. split; [lia|done].
Qed.

(** ** A decoder between two messages *)

Definition start_of (ty : http_parser_type) : state := match ty with HTTP_REQUEST => s_start_req | _ => s_start_res end.

Inductive idle (ty : http_parser_type) : Parser -> Prop :=
| idle_intro h i cl fl v m u : completed_ u = false -> allow_body_ u = true -> (ty <> HTTP_REQUEST -> m = HTTP_DELETE) -> decoder_ok (hp ty (start_of ty) h i 0 cl fl v m u) ->
    idle ty (hp ty (start_of ty) h i 0 cl fl v m u).

Lemma new_request_idle : idle HTTP_REQUEST new_request_decoder.
Proof. apply (idle_intro HTTP_REQUEST h_general 0 0 0 (0, 0, 0) HTTP_DELETE); [done..|]. apply (new_parser_ok true true). Qed.
Lemma new_response_idle : idle HTTP_RESPONSE new_response_decoder.
Proof. apply (idle_intro HTTP_RESPONSE h_general 0 0 0 (0, 0, 0) HTTP_DELETE); [done..|]. apply (new_parser_ok false true). Qed.

(** A message has been completed, and only has to be taken. *)
Inductive complete (ty : http_parser_type) : Parser -> Prop :=
| complete_intro h i cl fl v m u : completed_ u = true -> allow_body_ u = true -> (ty <> HTTP_REQUEST -> m = HTTP_DELETE) -> complete ty (hp ty (start_of ty) h i 0 cl fl v m u).

Lemma parse_all_ok halt bufs d d' : decoder_ok d -> Forall (Forall is_byte) bufs -> parse_all halt bufs d = Some d' -> decoder_ok d'.
Proof.
  intros Hd Hb. revert d Hd. induction Hb as [|buf bufs Hbuf _ IH]; intros d Hd; cbn [parse_all]; [by intros [= <-]|].
  destruct (execute_ok d buf Hd Hbuf) as (n & d1 & -> & Hd1 & _). case_decide; [|done]. destruct bufs; [by intros [= <-]|]. case_match; [done|]. by apply IH.
Qed.

(** However the bytes are cut. *)
Lemma complete_any_cut ty d w d' bufs : idle ty d -> reads w d d' -> complete ty d' -> Forall is_byte w -> Forall (fun b => b <> []) bufs -> concat bufs = w ->
  exists d2, parse_all upgrade bufs d = Some d2 /\ self_ d2 = self_ d' /\ upgrade (parser_ d2) = false /\ idle ty (snd (moveResult d2)).
Proof.
  intros Hd Hr Hc Hw Hne <-. assert (Hok : decoder_ok d) by (by destruct Hd). assert (Hb : Forall (Forall is_byte) bufs) by (by apply Forall_concat).
  pose proof (reads_feed upgrade _ _ _ ltac:(done) Hr) as Hf. destruct (parse_all_cuts upgrade d bufs d') as (d2 & E & Es & Hn); try done.
  { unfold exited. by intros q [? _]%andb_prop. }
  pose proof (parse_all_ok upgrade bufs d d2 Hok Hb E) as Hok2. exists d2. split; [done|]. split; [done|].
  destruct Hc as [h i cl fl v m u Hcu Hau Hmu]. destruct d2 as [q2 u2]. cbn [self_ parser_ hp] in *. subst u2. destruct Hn as [Eq Hle].
  assert (Hz : nread q2 = 0) by (pose proof (t_nread _ (proj1 Hok2)); cbn in *; lia). rewrite Hz in Eq. subst q2. split; [done|].
  pose proof (moveResult_ok _ Hok2) as Hm. revert Hm. unfold moveResult. cbn. rewrite Hcu. cbn. intros Hm. apply (idle_intro ty h i cl fl v m); done.
Qed.

(** ** The end of a message *)

(** The message a decoder hands out. *)
Definition received (m : http_method) (cl : Z) (p : list Z) (hm : gmap (list Z) (list Z)) (b : list Z) : HttpFrame :=
  mkFrame HPE_OK 0 m cl p hm true b.

Lemma headed_user p hm u m cl : header_user true p hm u ->
  let u' := headed m cl u in
  completed_ u' = false /\ allow_body_ u' = true /\ message (finished u') = Some (received m cl p hm []) /\
  (forall b, message (finished (add_body b u')) = Some (received m cl p hm b)).
Proof.
  intros [H1 H2 H3 H4 H5 H6 H7]. unfold headers_of in H5. destruct u as [ab fi va [] hc co [er en me cl0 pa he eo bo]]; cbn in *; try done; subst; done.
Qed.

Lemma new_message_start ty h i fl sc m st cl : Z.land fl F_CONNECTION_CLOSE = 0 ->
  http_message_needs_eof (fixed ty st h i cl fl (1, 1, sc) m) = false ->
  NEW_MESSAGE (fixed ty st h i cl fl (1, 1, sc) m) = start_of ty.
Proof.
  intros Hc He. unfold NEW_MESSAGE, http_should_keep_alive. rewrite He. unfold has_flag. change (flags _) with fl. rewrite Hc. by destruct ty.
Qed.

Lemma reads_end_empty ty n fl sc m u d p hm : boundary ty n ULLONG_MAX fl (1, 1, sc) m u d -> header_user true p hm u -> plain_flags fl ->
  Z.land fl F_CONNECTION_CLOSE = 0 -> m <> HTTP_CONNECT -> (ty <> HTTP_REQUEST -> m = HTTP_DELETE) -> 0 <= n -> n + 2 <= HTTP_MAX_HEADER_SIZE ->
  (forall st h i, http_message_needs_eof (fixed ty st h i ULLONG_MAX fl (1, 1, sc) m) = false) ->
  exists d', reads CRLF d d' /\ complete ty d' /\ message (self_ d') = Some (received m ULLONG_MAX p hm []).
Proof.
  intros Hd Hu Hf Hc Hm Hmt H0 Hn He. destruct (takes_blank ty n _ _ _ _ _ d Hd) as (h & i & Hb); [lia|].
  destruct (headed_user p hm u m ULLONG_MAX Hu) as (_ & Ha & Em & _). pose proof (hu_allow _ _ _ _ Hu) as Hau.
  pose proof (takes_headers_end ty h i ULLONG_MAX fl (1, 1, sc) m u Hf Hm Hau (n + 1) ltac:(lia)) as He2. unfold after_headers in He2. rewrite He in He2.
  cbn [Z.eqb orb andb negb] in He2. change (_ || _) with true in He2. cbn match in He2. rewrite new_message_start in He2 by done.
  eexists. split; [eapply reads_cons; [exact Hb|]; eapply reads_cons; [exact He2|constructor]|]. split; [|exact Em].
  by apply (complete_intro ty h i ULLONG_MAX fl (1, 1, sc) m).
Qed.

Lemma reads_end_body ty n fl sc m u d p hm b : boundary ty n (Z.of_nat (length b)) fl (1, 1, sc) m u d -> header_user true p hm u -> plain_flags fl ->
  Z.land fl F_CONNECTION_CLOSE = 0 -> m <> HTTP_CONNECT -> (ty <> HTTP_REQUEST -> m = HTTP_DELETE) -> 0 <= n -> n + 2 <= HTTP_MAX_HEADER_SIZE -> b <> [] -> Z.of_nat (length b) < ULLONG_MAX ->
  exists d', reads (CRLF ++ b) d d' /\ complete ty d' /\ message (self_ d') = Some (received m (Z.of_nat (length b)) p hm b).
Proof.
  intros Hd Hu Hf Hc Hm Hmt H0 Hn Hb Hl. destruct (takes_blank ty n _ _ _ _ _ d Hd) as (h & i & Hcr); [lia|].
  set (cl := Z.of_nat (length b)) in *. destruct (headed_user p hm u m cl Hu) as (_ & Ha & _ & Em). pose proof (hu_allow _ _ _ _ Hu) as Hau.
  assert (Hcl : 0 < cl) by (subst cl; destruct b; [done|cbn; lia]).
  pose proof (takes_headers_end ty h i cl fl (1, 1, sc) m u Hf Hm Hau (n + 1) ltac:(lia)) as He2. unfold after_headers in He2.
  rewrite (proj2 (Z.eqb_neq cl 0)), (proj2 (Z.eqb_neq cl ULLONG_MAX)) in He2 by lia. cbn [orb andb] in He2.
  pose proof (reads_body ty h i fl (1, 1, sc) m b (headed m cl u) cl Hb eq_refl Hl) as Hr. cbn zeta in Hr.
  assert (En : NEW_MESSAGE (set_state s_message_done (set_content_length 0 (fixed ty s_body_identity h i 0 fl (1, 1, sc) m))) = start_of ty).
  { apply (new_message_start ty h i fl sc m s_message_done 0 Hc). unfold http_message_needs_eof. cbn [type_ fixed]. destruct ty; [done|..];
      (case_match; [done|]; by rewrite orb_true_r). }
  rewrite En in Hr. eexists. split; [eapply reads_cons; [exact Hcr|]; cbn [app]; eapply reads_cons; [exact He2|exact Hr]|].
  split; [|exact (Em b)]. by apply (complete_intro ty h i 0 fl (1, 1, sc) m).
Qed.

(** The header the encoders write for a body. *)
Lemma reads_length ty n v m u d p hm fl (b : list Z) : boundary ty n ULLONG_MAX fl v m u d -> header_user true p hm u -> Z.land fl F_CONTENTLENGTH = 0 ->
  let len := Z.of_nat (length b) in len < 2 ^ 60 ->
  let line := header_line (bytes "Content-Length", decimal len) in
  0 <= n -> n + 2 * Z.of_nat (length line) <= HTTP_MAX_HEADER_SIZE ->
  exists n' u' d', reads line d d' /\ n <= n' <= n + 2 * Z.of_nat (length line) /\
    boundary ty n' len (Z.lor fl F_CONTENTLENGTH) v m u' d' /\ header_user true p (<[bytes "Content-Length" := decimal len]> hm) u'.
Proof.
  intros Hd Hu Hf len Hlen line H0 Hn. subst line.
  assert (Hl : line_size (bytes "Content-Length") (decimal len) <= 2 * Z.of_nat (length (header_line (bytes "Content-Length", decimal len)))).
  { unfold line_size, header_line. rewrite !length_app. cbn [length CRLF fst snd]. lia. }
  destruct (reads_header ty n ULLONG_MAX fl v m u d (bytes "Content-Length") (decimal len) h_content_length 13 h_content_length 0 len (Z.lor fl F_CONTENTLENGTH))
    as (n' & d' & Hr & Hn' & Hd'); try done.
  - apply value_chars_number. lia.
  - apply value_state_number; [lia|done].
  - lia.
  - exists n', (add_value (decimal len) (add_field (bytes "Content-Length") u)), d'. split; [done|]. split; [lia|]. split; [done|]. by apply header_user_next.
Qed.

(** ** Requests *)

(** A request that can be told from its bytes: an origin path, headers the parser
    has no use for, in the order [hs] in which they are written, a body [b].  One byte at
    a time the parser counts the bytes of a header twice. *)
Record request_ok (hs : list (list Z * list Z)) (r : HttpFrame) (b : list Z) : Prop := {
  ro_method : frame_method r <> HTTP_CONNECT;
  ro_path : path_ok (path r) = true;
  ro_order : hs ≡ₚ map_to_list (headers r);
  ro_headers : Forall header_ok hs;
  ro_bytes : Forall is_byte b;
  ro_length : Z.of_nat (length b) < 2 ^ 60 }.

(** The length the decoder reports, and the headers it sees. *)
Definition body_length (b : list Z) : Z := match b with [] => ULLONG_MAX | _ => Z.of_nat (length b) end.
Definition with_length (b : list Z) (hm : gmap (list Z) (list Z)) : gmap (list Z) (list Z) :=
  match b with [] => hm | _ => <[bytes "Content-Length" := decimal (Z.of_nat (length b))]> hm end.

Definition length_line (b : list Z) : list Z := match b with [] => [] | _ => header_line (bytes "Content-Length", decimal (Z.of_nat (length b))) end.
Definition request_line (r : HttpFrame) : list Z := bytes (method_string (frame_method r)) ++ [SP] ++ path r ++ bytes " HTTP/1.1" ++ CRLF.

Lemma known_not_in name hs : Forall header_ok hs -> TOKEN <$> name ∈ known_names -> name ∉ fst <$> hs.
Proof.
  intros Hh Hk ([n x] & -> & Hin)%list_elem_of_fmap. rewrite Forall_forall in Hh. by apply (ho_known _ (Hh _ Hin)).
Qed.
Lemma header_absent name hs (r : HttpFrame) : hs ≡ₚ map_to_list (headers r) -> Forall header_ok hs -> TOKEN <$> name ∈ known_names -> headers r !! name = None.
Proof.
  intros Hp Hh Hk. destruct (headers r !! name) as [x|] eqn:E; [|done]. exfalso. apply (known_not_in name hs Hh Hk).
  apply list_elem_of_fmap. exists (name, x). split; [done|]. rewrite Hp. by apply elem_of_map_to_list.
Qed.

Lemma empty_body body : IOBufQueue.empty body = match contents body with [] => true | _ => false end.
Proof. pose proof (empty_spec body) as [H1 H2]. destruct (IOBufQueue.empty body), (contents body); try done; [by discriminate (H1 eq_refl)|by discriminate (H2 eq_refl)]. Qed.

Lemma request_head_eq hs r body : queue_ok body -> request_ok hs r (contents body) ->
  request_head ContentLength hs r body = request_line r ++ header_lines hs ++ length_line (contents body) ++ CRLF.
Proof.
  intros Hq Hr. unfold request_head, request_line, length_line, length_header. rewrite <- !app_assoc. rewrite empty_body.
  rewrite bool_decide_true by (apply (header_absent _ hs r (ro_order _ _ _ Hr) (ro_headers _ _ _ Hr)); unfold known_names; rewrite !elem_of_cons; tauto).
  rewrite Hq. by destruct (contents body).
Qed.

Lemma reads_request d hs r b : idle HTTP_REQUEST d -> request_ok hs r b ->
  2 * Z.of_nat (length (request_line r ++ header_lines hs ++ length_line b ++ CRLF)) <= HTTP_MAX_HEADER_SIZE ->
  exists d', reads ((request_line r ++ header_lines hs ++ length_line b ++ CRLF) ++ b) d d' /\ complete HTTP_REQUEST d' /\
    message (self_ d') = Some (received (frame_method r) (body_length b) (path r) (with_length b (headers r)) b).
Proof.
  intros [h i cl fl v m u Hc Ha _ _] [Hm Hp Ho Hh Hb Hl] Hn. rewrite !length_app in Hn. cbn [length CRLF] in Hn. rewrite <- !app_assoc.
  pose proof (reads_request_line h i 0 cl fl v m (frame_method r) (path r) u Hc Hm Hp ltac:(lia)) as Hr1.
  fold (request_line r) in Hr1. specialize (Hr1 ltac:(lia)). set (n1 := 0 + Z.of_nat (length (request_line r))) in *.
  set (u1 := add_url (path r) (reset u)) in *. assert (Hu1 : header_user true (path r) ∅ u1) by (by split).
  pose proof (at_start HTTP_REQUEST n1 ULLONG_MAX 0 (1, 1, snd v) (frame_method r) u1 h (method_size (frame_method r))) as Hd1.
  destruct (reads_headers HTTP_REQUEST n1 ULLONG_MAX 0 (1, 1, snd v) (frame_method r) u1 _ true (path r) ∅ hs Hd1 Hu1 Hh)
    as (n2 & u2 & d2 & Hr2 & Hn2 & Hd2 & Hu2); [lia..|]. rewrite (insert_all hs (headers r) Ho) in Hu2.
  destruct b as [|c b].
  - destruct (reads_end_empty HTTP_REQUEST n2 0 (snd v) (frame_method r) u2 d2 (path r) (headers r)) as (d' & Hr3 & Hc3 & Em); try done; [lia..|].
    exists d'. split; [|done]. cbn [length_line app]. rewrite app_nil_r. eapply reads_app; [exact Hr1|]. by eapply reads_app.
  - destruct (reads_length HTTP_REQUEST n2 (1, 1, snd v) (frame_method r) u2 d2 (path r) (headers r) 0 (c :: b)) as (n3 & u3 & d3 & Hr3 & Hn3 & Hd3 & Hu3); try done; [lia|cbn [length_line] in Hn; lia|].
    cbn [length_line] in Hn. destruct (reads_end_body HTTP_REQUEST n3 128 (snd v) (frame_method r) u3 d3 (path r) _ (c :: b) Hd3 Hu3) as (d' & Hr4 & Hc4 & Em); try done; [lia|lia|unfold ULLONG_MAX; lia|].
    exists d'. split; [|done]. eapply reads_app; [exact Hr1|]. eapply reads_app; [exact Hr2|]. eapply reads_app; [exact Hr3|exact Hr4].
Qed.

Lemma request_wire_bytes hs r b : request_ok hs r b -> Forall is_byte ((request_line r ++ header_lines hs ++ length_line b ++ CRLF) ++ b).
Proof.
  intros [Hm Hp Ho Hh Hb Hl]. unfold request_line. rewrite !Forall_app. repeat split; try apply string_bytes; try apply crlf_bytes; try done.
  - repeat constructor; unfold is_byte; lia.
  - by apply path_bytes.
  - by apply lines_bytes.
  - unfold length_line. destruct b; [constructor|]. apply line_bytes; [apply string_bytes|]. apply digit_bytes, decimal_spec. lia.
Qed.

Lemma request_decode_all d bufs d2 : Forall (fun b => b <> []) bufs -> parse_all upgrade bufs d = Some d2 -> upgrade (parser_ d2) = false -> completed_ (self_ d2) = true ->
  exists f, message (self_ d2) = Some f /\ request_decode d bufs = (Ret (Some f), snd (moveResult d2), []).
Proof.
  intros Hne E Hu Hc. unfold request_decode. rewrite (request_loop_all bufs d d2 Hne E Hu). unfold poll_result, message. rewrite Hc. eexists. split; [done|].
  unfold moveResult. by rewrite Hc.
Qed.
Lemma response_decode_all d bufs d2 : Forall (fun b => b <> []) bufs -> parse_all upgrade bufs d = Some d2 -> completed_ (self_ d2) = true ->
  exists f, message (self_ d2) = Some f /\ response_decode d bufs = (Ret (Some f), snd (moveResult d2), []).
Proof.
  intros Hne E Hc. unfold response_decode. rewrite (response_loop_all bufs d d2 Hne E). unfold poll_result, message. rewrite Hc. eexists. split; [done|].
  unfold moveResult. by rewrite Hc.
Qed.

Lemma message_completed s f : message s = Some f -> completed_ s = true.
Proof. unfold message. by destruct (completed_ s). Qed.


Definition sample_post : HttpFrame := mkFrame HPE_OK 0 HTTP_POST 0 (bytes "/a?b") {[bytes "Host" := bytes "x.org"]} false [].
Definition sample_body : IOBufQueue := mkQueue 3 [mkBuf 0 (bytes "abc") 5 false].

Definition sample_wire : list Z :=
  bytes "POST /a?b HTTP/1.1" ++ CRLF ++ bytes "Host: x.org" ++ CRLF ++ bytes "Content-Length: 3" ++ CRLF ++ CRLF ++ bytes "abc".
Definition sample_bufs : list (list Z) := [take 22 sample_wire; take 31 (drop 22 sample_wire); drop 53 sample_wire].


(** ** Responses *)
Record response_ok (hs : list (list Z * list Z)) (r : HttpFrame) (b : list Z) : Prop := {
  so_order : hs ≡ₚ map_to_list (headers r);
  so_headers : Forall header_ok hs;
  so_bytes : Forall is_byte b;
  so_length : Z.of_nat (length b) < 2 ^ 60 }.

Definition status_line (code : Z) (text : string) : list Z := bytes "HTTP/1.1 " ++ decimal code ++ [SP] ++ bytes text ++ CRLF.
Definition keep_alive_line : list Z := header_line (bytes "Connection", bytes "keep-alive").

(** Responses with these codes have no body. *)
Definition bodyless (code : Z) : bool := (code / 100 =? 1) || (code =? 204) || (code =? 304).

Definition good_status (e : Z * string) : bool :=
  (0 <=? fst e) && (fst e <=? 999) && forallb status_char (bytes (snd e)) && negb (bool_decide (bytes (snd e) = [])).

Lemma status_ok code text : getHttpStatusLine code = Some text -> 0 <= code <= 999 /\ bytes text <> [] /\ forallb status_char (bytes text) = true.
Proof.
  unfold getHttpStatusLine. case_match; [done|]. intros ([c t] & E & Et)%fmap_Some. cbn in Et. subst t. apply List.find_some in E as [Hin Hc]. cbn in Hc.
  assert (H0 : forallb good_status HTTP_STATUS_MAP = true) by (vm_compute; reflexivity). rewrite forallb_forall in H0. specialize (H0 _ Hin).
  unfold good_status in H0. cbn [fst snd] in H0. apply andb_prop in H0 as [[[? ?]%andb_prop ?]%andb_prop Hnil%negb_true_iff%bool_decide_eq_false]. split; [lia|done].
Qed.

Lemma response_head_eq text hs r body : queue_ok body -> response_ok hs r (contents body) ->
  response_head text hs r body = status_line (frame_http_errno r) text ++ header_lines hs ++ length_line (contents body) ++ keep_alive_line ++ CRLF.
Proof.
  intros Hq Hr. unfold response_head, status_line, length_line, length_header. rewrite <- !app_assoc. rewrite empty_body.
  rewrite decide_True by (apply (header_absent _ hs r (so_order _ _ _ Hr) (so_headers _ _ _ Hr)); unfold known_names; rewrite !elem_of_cons; tauto).
  rewrite Hq. by destruct (contents body).
Qed.

Lemma reads_keep_alive ty n cl v m u d p hm fl : boundary ty n cl fl v m u d -> header_user true p hm u ->
  0 <= n -> n + 2 * Z.of_nat (length keep_alive_line) <= HTTP_MAX_HEADER_SIZE ->
  exists n' u' d', reads keep_alive_line d d' /\ n <= n' <= n + 2 * Z.of_nat (length keep_alive_line) /\
    boundary ty n' cl (Z.lor fl F_CONNECTION_KEEP_ALIVE) v m u' d' /\ header_user true p (<[bytes "Connection" := bytes "keep-alive"]> hm) u'.
Proof.
  intros Hd Hu H0 Hn. change (length keep_alive_line) with 24%nat in *.
  destruct (reads_header ty n cl fl v m u d (bytes "Connection") (bytes "keep-alive") h_connection 9 h_connection_keep_alive 9 cl fl)
    as (n' & d' & Hr & Hn' & Hd'); try done; [change (line_size _ _) with 44; lia|]. change (line_size _ _) with 44 in Hn'.
  exists n', (add_value (bytes "keep-alive") (add_field (bytes "Connection") u)), d'. split; [done|]. split; [lia|]. split; [done|]. by apply header_user_next.
Qed.

(** The headers of a response, up to the empty line. *)
Lemma reads_response_head d hs r b text : idle HTTP_RESPONSE d -> response_ok hs r b -> getHttpStatusLine (frame_http_errno r) = Some text ->
  2 * Z.of_nat (length (status_line (frame_http_errno r) text ++ header_lines hs ++ length_line b ++ keep_alive_line ++ CRLF)) <= HTTP_MAX_HEADER_SIZE ->
  exists n u' d' fl, reads (status_line (frame_http_errno r) text ++ header_lines hs ++ length_line b ++ keep_alive_line) d d' /\
    0 <= n /\ n + 2 <= HTTP_MAX_HEADER_SIZE /\ fl = match b with [] => 2 | _ => 130 end /\
    boundary HTTP_RESPONSE n (body_length b) fl (1, 1, frame_http_errno r) HTTP_DELETE u' d' /\
    header_user true [] (<[bytes "Connection" := bytes "keep-alive"]> (with_length b (headers r))) u'.
Proof.
  intros [h i cl fl v m u Hc Ha Hm _] [Ho Hh Hb Hl] Ht Hn. rewrite Hm in * by done. rewrite !length_app in Hn. change (length CRLF) with 2%nat in Hn. destruct (status_ok _ _ Ht) as (Hcode & Hne & Hchars).
  pose proof (reads_status_line h i 0 cl fl v HTTP_DELETE u _ _ Hc Hcode Hne Hchars ltac:(lia)) as Hr1.
  fold (status_line (frame_http_errno r) text) in Hr1. specialize (Hr1 ltac:(lia)). set (n1 := 0 + Z.of_nat (length (status_line (frame_http_errno r) text))) in *.
  assert (Hu1 : header_user true [] ∅ (reset u)) by (by split).
  pose proof (at_start HTTP_RESPONSE n1 ULLONG_MAX 0 (1, 1, frame_http_errno r) HTTP_DELETE (reset u) h 0) as Hd1.
  destruct (reads_headers HTTP_RESPONSE n1 ULLONG_MAX 0 (1, 1, frame_http_errno r) HTTP_DELETE (reset u) _ true [] ∅ hs Hd1 Hu1 Hh)
    as (n2 & u2 & d2 & Hr2 & Hn2 & Hd2 & Hu2); [lia..|]. rewrite (insert_all hs (headers r) Ho) in Hu2.
  destruct b as [|c b].
  - cbn [length_line length] in *. destruct (reads_keep_alive HTTP_RESPONSE n2 _ _ _ u2 d2 [] _ _ Hd2 Hu2) as (n3 & u3 & d3 & Hr3 & Hn3 & Hd3 & Hu3); [lia..|].
    exists n3, u3, d3, 2. split; [eapply reads_app; [exact Hr1|]; eapply reads_app; [exact Hr2|exact Hr3]|]. split; [lia|]. split; [lia|]. done.
  - destruct (reads_length HTTP_RESPONSE n2 (1, 1, frame_http_errno r) HTTP_DELETE u2 d2 [] (headers r) 0 (c :: b)) as (n3 & u3 & d3 & Hr3 & Hn3 & Hd3 & Hu3);
      try done; [lia|cbn [length_line] in Hn; lia|]. cbn [length_line] in Hn.
    destruct (reads_keep_alive HTTP_RESPONSE n3 _ _ _ u3 d3 [] _ _ Hd3 Hu3) as (n4 & u4 & d4 & Hr4 & Hn4 & Hd4 & Hu4); [lia..|].
    exists n4, u4, d4, 130. split; [eapply reads_app; [exact Hr1|]; eapply reads_app; [exact Hr2|]; eapply reads_app; [exact Hr3|exact Hr4]|].
    split; [lia|]. split; [lia|]. done.
Qed.

Definition response_wire (text : string) (hs : list (list Z * list Z)) (r : HttpFrame) (b : list Z) : list Z :=
  (status_line (frame_http_errno r) text ++ header_lines hs ++ length_line b ++ keep_alive_line ++ CRLF) ++ b.

Lemma response_wire_bytes text hs r b : getHttpStatusLine (frame_http_errno r) = Some text -> response_ok hs r b -> Forall is_byte (response_wire text hs r b).
Proof.
  intros (Hc & _)%status_ok [Ho Hh Hb Hl]. unfold response_wire, status_line, keep_alive_line. rewrite !Forall_app.
  repeat split; try apply string_bytes; try apply crlf_bytes; try done.
  - apply digit_bytes, decimal_spec. lia.
  - repeat constructor; unfold is_byte; lia.
  - by apply lines_bytes.
  - unfold length_line. destruct b; [constructor|]. apply line_bytes; [apply string_bytes|]. apply digit_bytes, decimal_spec. lia.
  - apply line_bytes; apply string_bytes.
Qed.

(** What the decoder makes of a response: without a body it is only complete if
    the code says so, and otherwise lasts until the end of the connection. *)
Definition received_response (r : HttpFrame) (b : list Z) : HttpFrame :=
  received HTTP_DELETE (body_length b) [] (<[bytes "Connection" := bytes "keep-alive"]> (with_length b (headers r))) b.

Lemma reads_response d hs r b text : idle HTTP_RESPONSE d -> response_ok hs r b -> getHttpStatusLine (frame_http_errno r) = Some text ->
  2 * Z.of_nat (length (status_line (frame_http_errno r) text ++ header_lines hs ++ length_line b ++ keep_alive_line ++ CRLF)) <= HTTP_MAX_HEADER_SIZE ->
  exists d', reads (response_wire text hs r b) d d' /\
    (if negb (bool_decide (b = [])) || bodyless (frame_http_errno r) then complete HTTP_RESPONSE d' /\ message (self_ d') = Some (received_response r b)
     else message (self_ d') = None).
Proof.
  intros Hd Hr Ht Hn. destruct (reads_response_head d hs r b text Hd Hr Ht Hn) as (n & u & d1 & fl & Hr1 & H0 & H1 & -> & Hd1 & Hu).
  unfold response_wire, received_response. rewrite <- !app_assoc.
  assert (Happ : forall x d', reads x d1 d' -> reads (status_line (frame_http_errno r) text ++ header_lines hs ++ length_line b ++ keep_alive_line ++ x) d d').
  { intros x d' Hx. pose proof (reads_app _ x _ _ _ Hr1 Hx) as H. by rewrite <- !app_assoc in H. }
  pose proof (so_length _ _ _ Hr) as Hl. destruct b as [|c b].
  - rewrite bool_decide_true by done. cbn [negb orb body_length with_length] in *.
    assert (He : forall st h i, http_message_needs_eof (fixed HTTP_RESPONSE st h i ULLONG_MAX 2 (1, 1, frame_http_errno r) HTTP_DELETE) = negb (bodyless (frame_http_errno r))).
    { intros st h i. unfold http_message_needs_eof, bodyless. cbn [type_ fixed status_code snd]. change (has_flag F_SKIPBODY _) with false. rewrite orb_false_r. by case_match. }
    destruct (bodyless (frame_http_errno r)).
    + destruct (reads_end_empty HTTP_RESPONSE n 2 (frame_http_errno r) HTTP_DELETE u d1 [] _ Hd1 Hu) as (d' & Hr3 & Hc3 & Em); try done.
      exists d'. split; [|done]. rewrite app_nil_r. by apply Happ.
    + destruct (takes_blank HTTP_RESPONSE n _ _ _ _ _ d1 Hd1) as (h & i & Hcr); [lia|]. destruct (headed_user _ _ u HTTP_DELETE ULLONG_MAX Hu) as (Hcu & _).
      pose proof (takes_headers_end HTTP_RESPONSE h i ULLONG_MAX 2 (1, 1, frame_http_errno r) HTTP_DELETE u ltac:(done) ltac:(done) (hu_allow _ _ _ _ Hu) (n + 1) ltac:(lia)) as Hlf.
      unfold after_headers in Hlf. rewrite He in Hlf. change (_ || _) with false in Hlf. cbn match in Hlf. eexists. split.
      * rewrite app_nil_r. apply Happ. eapply reads_cons; [exact Hcr|]. eapply reads_cons; [exact Hlf|constructor].
      * change (self_ _) with (headed HTTP_DELETE ULLONG_MAX u). unfold message. by rewrite Hcu.
  - rewrite bool_decide_false by done. cbn [negb orb body_length with_length] in *.
    destruct (reads_end_body HTTP_RESPONSE n 130 (frame_http_errno r) HTTP_DELETE u d1 [] _ (c :: b) Hd1 Hu) as (d' & Hr3 & Hc3 & Em); try done; [unfold ULLONG_MAX; lia|].
    exists d'. split; [|done]. by apply Happ.
Qed.

(** A response that ends, and one that does not. *)
Lemma response_any_cut d w d' bufs b : idle HTTP_RESPONSE d -> reads w d d' -> Forall is_byte w -> Forall (fun b => b <> []) bufs -> concat bufs = w ->
  forall f, (if b : bool then complete HTTP_RESPONSE d' /\ message (self_ d') = Some f else message (self_ d') = None) ->
  exists o d2, response_decode d bufs = (Ret o, d2, []) /\ if b then o = Some f /\ idle HTTP_RESPONSE d2 else o = None.
Proof.
  intros Hd Hr Hw Hne Hb f Hf. destruct b.
  - destruct Hf as [Hc Em]. destruct (complete_any_cut HTTP_RESPONSE d w d' bufs Hd Hr Hc Hw Hne Hb) as (d2 & Ep & Es & _ & Hi). rewrite <- Es in Em.
    destruct (response_decode_all d bufs d2 Hne Ep (message_completed _ _ Em)) as (f' & Ef & Ed). rewrite Em in Ef. injection Ef as <-. by eexists _, _.
  - subst w. pose proof (reads_feed upgrade _ _ _ ltac:(done) Hr) as Hp. assert (Hok : decoder_ok d) by (by destruct Hd).
    destruct (parse_all_cuts upgrade d bufs d') as (d2 & E & Es & _); try done; [unfold exited; by intros q [? _]%andb_prop|by apply Forall_concat|].
    exists None, d2. unfold response_decode. rewrite (response_loop_all bufs d d2 Hne E). unfold poll_result. rewrite Es. unfold message in Hf. by destruct (completed_ (self_ d')).
Qed.


Definition sample_ok : HttpFrame := mkFrame HPE_OK 200 HTTP_DELETE 0 [] ∅ false [].
Definition sample_reply : list Z :=
  bytes "HTTP/1.1 200 OK" ++ CRLF ++ bytes "Content-Length: 3" ++ CRLF ++ bytes "Connection: keep-alive" ++ CRLF ++ CRLF ++ bytes "abc".

