(* ===== verification/HttpUrl.v ===== *)
(** * URLs

    Models the URL splitter of [src/src/http/http_parser.c] and its user
    [HttpClient::parseUrl] of [src/src/http/HttpClient.cpp].  A URL is a list of
    bytes, and so is the memory it lies in. *)

From S2P Require Import Prelude HttpSyntax HttpBytes.
Local Open Scope cpp_scope.
Local Open Scope Z_scope.

(** ** The result *)

(** [src/include/futures/http/http_parser.h:340-349] http_parser_url_fields *)
Inductive http_parser_url_fields := UF_SCHEMA | UF_HOST | UF_PORT | UF_PATH | UF_QUERY | UF_FRAGMENT | UF_USERINFO.
#[global] Instance url_fields_eq_dec : EqDecision http_parser_url_fields.
Proof. solve_decision. Defined.

Definition uf_code (uf : http_parser_url_fields) : nat :=
  match uf with UF_SCHEMA => 0 | UF_HOST => 1 | UF_PORT => 2 | UF_PATH => 3 | UF_QUERY => 4 | UF_FRAGMENT => 5 | UF_USERINFO => 6 end%nat.

(** [field_data] holds offsets and lengths. *)
(** [src/include/futures/http/http_parser.h:359-367] http_parser_url *)
Record http_parser_url := mkUrl { field_set : Z; port : Z; field_data : list (Z * Z) }.

Definition field_at (uf : http_parser_url_fields) (u : http_parser_url) : Z * Z := nth (uf_code uf) (field_data u) (0, 0).
Definition has_field (uf : http_parser_url_fields) (u : http_parser_url) : bool := Z.testbit (field_set u) (Z.of_nat (uf_code uf)).
Definition put_field (uf : http_parser_url_fields) (v : Z * Z) (u : http_parser_url) : http_parser_url :=
  mkUrl (field_set u) (port u) (<[uf_code uf := v]> (field_data u)).
(** [field_data[uf].off = o], [.len = l], [.len++] and [field_set |= (1 << uf)] *)
Definition set_off (uf : http_parser_url_fields) (o : Z) (u : http_parser_url) : http_parser_url := put_field uf (u16 o, snd (field_at uf u)) u.
Definition set_len (uf : http_parser_url_fields) (l : Z) (u : http_parser_url) : http_parser_url := put_field uf (fst (field_at uf u), u16 l) u.
Definition inc_len (uf : http_parser_url_fields) (u : http_parser_url) : http_parser_url := set_len uf (snd (field_at uf u) + 1) u.
Definition add_field_bit (uf : http_parser_url_fields) (u : http_parser_url) : http_parser_url :=
  mkUrl (u16 (Z.lor (field_set u) (Z.shiftl 1 (Z.of_nat (uf_code uf))))) (port u) (field_data u).
Definition set_port (v : Z) (u : http_parser_url) : http_parser_url := mkUrl (field_set u) v (field_data u).

(** [src/src/http/http_parser.c:2337-2340] http_parser_url_init *)
Definition http_parser_url_init : http_parser_url := mkUrl 0 0 (replicate 7 (0, 0)).

(** ** The host *)

(** [src/src/http/http_parser.c:393-407] http_host_state *)
Inductive http_host_state :=
| s_http_host_dead | s_http_userinfo_start | s_http_userinfo | s_http_host_start | s_http_host_v6_start | s_http_host | s_http_host_v6
| s_http_host_v6_end | s_http_host_v6_zone_start | s_http_host_v6_zone | s_http_host_port_start | s_http_host_port.
#[global] Instance http_host_state_eq_dec : EqDecision http_host_state.
Proof. solve_decision. Defined.

(** [src/src/http/http_parser.c:2173-2253] http_parse_host_char *)
Definition http_parse_host_char (s : http_host_state) (ch : Z) : http_host_state :=
  let port_sep (_ : unit) := if ch =? COLON then s_http_host_port_start else s_http_host_dead in
  let v6_char (_ : unit) :=
    if IS_HEX ch || (ch =? COLON) || (ch =? DOT) then s_http_host_v6
    else if bool_decide (s = s_http_host_v6) && (ch =? PERCENT) then s_http_host_v6_zone_start else s_http_host_dead in
  let zone_char (_ : unit) :=
    if IS_ALPHANUM ch || (ch =? PERCENT) || (ch =? DOT) || (ch =? MINUS) || (ch =? 95) || (ch =? TILDE) then s_http_host_v6_zone else s_http_host_dead in
  match s with
  | s_http_userinfo | s_http_userinfo_start =>
      if ch =? AT then s_http_host_start else if IS_USERINFO_CHAR ch then s_http_userinfo else s_http_host_dead
  | s_http_host_start => if ch =? LBRACKET then s_http_host_v6_start else if IS_HOST_CHAR ch then s_http_host else s_http_host_dead
  | s_http_host => if IS_HOST_CHAR ch then s_http_host else port_sep tt
  | s_http_host_v6_end => port_sep tt
  | s_http_host_v6 => if ch =? RBRACKET then s_http_host_v6_end else v6_char tt
  | s_http_host_v6_start => v6_char tt
  | s_http_host_v6_zone => if ch =? RBRACKET then s_http_host_v6_end else zone_char tt
  | s_http_host_v6_zone_start => zone_char tt
  | s_http_host_port | s_http_host_port_start => if IS_NUM ch then s_http_host_port else s_http_host_dead
  | s_http_host_dead => s_http_host_dead
  end.

(** What a character at [i] adds to the fields. *)
(** [src/src/http/http_parser.c:2275-2315] http_parse_host, the switch *)
Definition host_char (s new_s : http_host_state) (i : Z) (u : http_parser_url) : http_parser_url :=
  let begin uf u := add_field_bit uf (set_len uf 0 (set_off uf i u)) in
  match new_s with
  | s_http_host => inc_len UF_HOST (if bool_decide (s = s_http_host) then u else set_off UF_HOST i u)
  | s_http_host_v6 => inc_len UF_HOST (if bool_decide (s = s_http_host_v6) then u else set_off UF_HOST i u)
  | s_http_host_v6_zone_start | s_http_host_v6_zone => inc_len UF_HOST u
  | s_http_host_port => inc_len UF_PORT (if bool_decide (s = s_http_host_port) then u else begin UF_PORT u)
  | s_http_userinfo => inc_len UF_USERINFO (if bool_decide (s = s_http_userinfo) then u else begin UF_USERINFO u)
  | _ => u
  end.

(** [src/src/http/http_parser.c:2268-2317] http_parse_host, loop *)
Fixpoint host_loop (chars : list Z) (i : Z) (s : http_host_state) (u : http_parser_url) : option (http_host_state * http_parser_url) :=
  match chars with
  | [] => Some (s, u)
  | ch :: chars =>
      let new_s := http_parse_host_char s ch in
      if decide (new_s = s_http_host_dead) then None else host_loop chars (i + 1) new_s (host_char s new_s i u)
  end.

(** [src/src/http/http_parser.c:2319-2332] http_parse_host, end *)
Definition host_end (s : http_host_state) : bool :=
  match s with
  | s_http_host_start | s_http_host_v6_start | s_http_host_v6 | s_http_host_v6_zone_start | s_http_host_v6_zone | s_http_host_port_start
  | s_http_userinfo | s_http_userinfo_start => false
  | _ => true
  end.

(** [None]: not a host. *)
(** [src/src/http/http_parser.c:2255-2335] http_parse_host *)
Definition http_parse_host (buf : list Z) (u : http_parser_url) (found_at : bool) : res (option http_parser_url) :=
  let '(off, len) := field_at UF_HOST u in
  if negb (has_field UF_HOST u) then Abort "assert" else
  if (length buf <? Z.to_nat (off + len))%nat then Abort "read out of bounds" else
  let s := if found_at then s_http_userinfo_start else s_http_host_start in
  match host_loop (take (Z.to_nat len) (drop (Z.to_nat off) buf)) off s (set_len UF_HOST 0 u) with
  | Some (s, u) => Ret (if host_end s then Some u else None)
  | None => Ret None
  end.

(** ** The URL *)

(** The field a state belongs to; [None] is a delimiter. *)
(** [src/src/http/http_parser.c:2359-2398] http_parser_parse_url, the switch *)
Definition url_field (s : state) : res (option http_parser_url_fields) :=
  match s with
  | s_req_schema_slash | s_req_schema_slash_slash | s_req_server_start | s_req_query_string_start | s_req_fragment_start => Ret None
  | s_req_schema => Ret (Some UF_SCHEMA)
  | s_req_server_with_at | s_req_server => Ret (Some UF_HOST)
  | s_req_path => Ret (Some UF_PATH)
  | s_req_query_string => Ret (Some UF_QUERY)
  | s_req_fragment => Ret (Some UF_FRAGMENT)
  | _ => Abort "Unexpected state"
  end.

Definition start_field (uf : http_parser_url_fields) (i : Z) (u : http_parser_url) : http_parser_url :=
  add_field_bit uf (set_len uf 1 (set_off uf i u)).

(** [old_uf] is [None] for [UF_MAX].  A result of [None] is a failure. *)
(** [src/src/http/http_parser.c:2355-2411] http_parser_parse_url, loop *)
Fixpoint url_loop (chars : list Z) (i : Z) (s : state) (old_uf : option http_parser_url_fields) (found_at : bool) (u : http_parser_url) :
    res (option (bool * http_parser_url)) :=
  match chars with
  | [] => Ret (Some (found_at, u))
  | ch :: chars =>
      let s := parse_url_char s ch in
      if decide (s = s_dead) then Ret None else
      let! r := url_field s in
      match r with
      | None => url_loop chars (i + 1) s old_uf found_at u
      | Some uf =>
          let found_at := found_at || bool_decide (s = s_req_server_with_at) in
          if decide (old_uf = Some uf) then url_loop chars (i + 1) s old_uf found_at (inc_len uf u)
          else url_loop chars (i + 1) s (Some uf) found_at (start_field uf i u)
      end
  end.

(** [strtoul(s, NULL, 10)] in the C locale; [mem] is the memory from [s] on, and
    reading past it is undefined. *)
Definition isspace (c : Z) : bool := (c =? 32) || ((9 <=? c) && (c <=? 13)).
Fixpoint strtoul_digits (mem : list Z) (v : Z) : res Z :=
  match mem with
  | [] => Abort "read out of bounds"
  | c :: mem => if IS_NUM c then strtoul_digits mem (v * 10 + (c - 48)) else Ret (Z.min v ULLONG_MAX)
  end.
Fixpoint strtoul (mem : list Z) : res Z :=
  match mem with
  | [] => Abort "read out of bounds"
  | c :: rest =>
      if isspace c then strtoul rest
      else if c =? MINUS then let! v := strtoul_digits rest 0 in Ret (if v =? ULLONG_MAX then v else (- v) mod 2 ^ 64)
      else strtoul_digits (if c =? 43 then rest else mem) 0
  end.

(** [mem] is the memory from [buf] on, which may go on after [buflen] bytes. *)
(** [src/src/http/http_parser.c:2342-2444] http_parser_parse_url *)
Definition http_parser_parse_url (mem : list Z) (buflen : nat) (is_connect : bool) (u : http_parser_url) : res (option http_parser_url) :=
  let u := mkUrl 0 0 (field_data u) in
  let s := if is_connect then s_req_server_start else s_req_spaces_before_url in
  if (length mem <? buflen)%nat then Abort "read out of bounds" else
  let! r := url_loop (take buflen mem) 0 s None false u in
  match r with
  | None => Ret None
  | Some (found_at, u) =>
      if has_field UF_SCHEMA u && negb (has_field UF_HOST u) then Ret None else
      let! r := if has_field UF_HOST u then http_parse_host mem u found_at else Ret (Some u) in
      match r with
      | None => Ret None
      | Some u =>
          if is_connect && negb (field_set u =? Z.lor (Z.shiftl 1 1) (Z.shiftl 1 2)) then Ret None else
          if has_field UF_PORT u then
            let! v := strtoul (drop (Z.to_nat (fst (field_at UF_PORT u))) mem) in
            if 65535 <? v then Ret None else Ret (Some (set_port (u16 v) u))
          else Ret (Some u)
      end
  end.

(** ** HttpClient *)

(** [src/include/futures/http/HttpClient.h:13-18] Url *)
Record Url := mkClientUrl { schema : list Z; host : list Z; url_port : Z; url_path : list Z }.

(** [src/src/http/HttpClient.cpp:8-16] getField *)
Definition getField (buf : list Z) (url : http_parser_url) (field : http_parser_url_fields) : res (list Z) :=
  if has_field field url then
    let '(off, len) := field_at field url in
    if (length buf <? Z.to_nat (off + len))%nat then Abort "read out of bounds" else Ret (take (Z.to_nat len) (drop (Z.to_nat off) buf))
  else Ret [].

(** [src/src/http/HttpClient.cpp:18-36] HttpClient::parseUrl *)
Definition parseUrl (s : list Z) : res Url :=
  let p := s ++ [0] in
  let! r := http_parser_parse_url p (length s) false http_parser_url_init in
  match r with
  | None => Throw (std_invalid_argument "invalid url")
  | Some url =>
      let! h := getField p url UF_HOST in
      let! sc := getField p url UF_SCHEMA in
      let sc := match sc with [] => bytes "http" | _ => sc end in
      if negb (bool_decide (sc = bytes "http")) && negb (bool_decide (sc = bytes "https")) then Throw (std_invalid_argument "invalid schema") else
      let ssl := bool_decide (sc = bytes "https") in
      let! pa := getField p url UF_PATH in
      Ret (mkClientUrl sc h (if negb (port url =? 0) then port url else if ssl then 443 else 80) (match pa with [] => [SLASH] | _ => pa end))
  end.

(** ** The fields that are set *)

Record url_ok (u : http_parser_url) : Prop := { uo_data : length (field_data u) = 7%nat; uo_set : 0 <= field_set u < 128; uo_port : port u = 0 }.

Definition view (u : http_parser_url) (f : http_parser_url_fields) : option (Z * Z) := if has_field f u then Some (field_at f u) else None.

Lemma field_put f uf v u : url_ok u -> field_at f (put_field uf v u) = if decide (f = uf) then v else field_at f u.
Proof.
  intros [Hd _ _]. destruct u as [fs po fd]. cbn in Hd. do 8 (destruct fd as [|? fd]; [try done|]); [|done]. by destruct f, uf.
Qed.
Lemma put_field_ok uf v u : url_ok u -> url_ok (put_field uf v u).
Proof. intros [Hd Hs Hp]. split; [|done|done]. cbn. by rewrite length_insert. Qed.

Lemma bit_small fs uf : 0 <= fs < 128 -> 0 <= Z.lor fs (Z.shiftl 1 (Z.of_nat (uf_code uf))) < 128.
Proof.
  intros H. assert (Hb : 0 < Z.shiftl 1 (Z.of_nat (uf_code uf)) < 128) by (by destruct uf). split; [apply Z.lor_nonneg; lia|].
  change 128 with (2 ^ 7). apply Z.log2_lt_pow2; [assert (0 <= Z.lor fs (Z.shiftl 1 (Z.of_nat (uf_code uf)))) by (apply Z.lor_nonneg; lia);
    assert (Z.lor fs (Z.shiftl 1 (Z.of_nat (uf_code uf))) <> 0) by (rewrite Z.lor_eq_0_iff; lia); lia|].
  rewrite Z.log2_lor by lia. apply Z.max_lub_lt; [destruct (decide (fs = 0)) as [->|]; [cbn; lia|]|]; apply Z.log2_lt_pow2; lia.
Qed.
Lemma u16_id z : 0 <= z < 65536 -> u16 z = z.
Proof. intros H. unfold u16. apply Z.mod_small. exact H. Qed.

Lemma bit_ok uf u : url_ok u -> url_ok (add_field_bit uf u).
Proof. intros [Hd Hs Hp]. split; [done| |done]. cbn. pose proof (bit_small _ uf Hs). rewrite u16_id; lia. Qed.
Lemma has_bit f uf u : url_ok u -> has_field f (add_field_bit uf u) = bool_decide (f = uf) || has_field f u.
Proof.
  intros [Hd Hs Hp]. pose proof (bit_small _ uf Hs). unfold has_field. cbn [field_set add_field_bit]. rewrite u16_id by lia.
  rewrite Z.lor_spec, orb_comm. f_equal. by destruct f, uf.
Qed.

(** Setting the offset or the length of a field that is set. *)
Lemma view_off uf o u f : url_ok u -> 0 <= o < 65536 ->
  view (set_off uf o u) f = if decide (f = uf) then (fun x => (o, snd x)) <$> view u f else view u f.
Proof.
  intros Hu Ho. unfold view, set_off. change (has_field f (put_field _ _ u)) with (has_field f u). rewrite field_put, u16_id by done.
  destruct (has_field f u); [|by case_decide]. by destruct (decide (f = uf)) as [->|].
Qed.
Lemma view_len uf l u f : url_ok u -> 0 <= l < 65536 ->
  view (set_len uf l u) f = if decide (f = uf) then (fun x => (fst x, l)) <$> view u f else view u f.
Proof.
  intros Hu Ho. unfold view, set_len. change (has_field f (put_field _ _ u)) with (has_field f u). rewrite field_put, u16_id by done.
  destruct (has_field f u); [|by case_decide]. by destruct (decide (f = uf)) as [->|].
Qed.
Lemma view_inc uf u f o l : url_ok u -> view u uf = Some (o, l) -> 0 <= l < 65535 ->
  view (inc_len uf u) f = if decide (f = uf) then Some (o, l + 1) else view u f.
Proof.
  intros Hu Hv Hl. unfold inc_len. assert (E : field_at uf u = (o, l)) by (unfold view in Hv; destruct (has_field uf u); congruence).
  rewrite E. cbn [snd]. rewrite view_len by (done || lia). destruct (decide (f = uf)) as [->|]; [|done]. by rewrite Hv.
Qed.
(** A field that is started. *)
Lemma view_start uf o l u f : url_ok u -> 0 <= o < 65536 -> 0 <= l < 65536 ->
  view (add_field_bit uf (set_len uf l (set_off uf o u))) f = if decide (f = uf) then Some (o, l) else view u f.
Proof.
  intros Hu Ho Hl. unfold view. rewrite has_bit by (by repeat apply put_field_ok).
  change (has_field f (set_len uf l (set_off uf o u))) with (has_field f u). change (field_at f (add_field_bit uf ?x)) with (field_at f x).
  unfold set_len. rewrite field_put by (by apply put_field_ok). unfold set_off. rewrite !(field_put _ _ _ u) by done. rewrite !u16_id by done.
  destruct (decide (f = uf)) as [->|Hne]; [by rewrite bool_decide_true, decide_True|]. by rewrite bool_decide_false.
Qed.
#[local] Hint Resolve put_field_ok bit_ok : core.
Lemma len_ok uf l u : url_ok u -> url_ok (set_len uf l u).
Proof. apply put_field_ok. Qed.
Lemma off_ok uf l u : url_ok u -> url_ok (set_off uf l u).
Proof. apply put_field_ok. Qed.
Lemma inc_ok uf u : url_ok u -> url_ok (inc_len uf u).
Proof. apply put_field_ok. Qed.
#[local] Hint Resolve len_ok off_ok inc_ok : core.

(** ** Every field lies in the URL *)

Definition bounded (n : Z) (u : http_parser_url) : Prop := forall f o l, view u f = Some (o, l) -> 0 <= o /\ 0 < l /\ o + l <= n.

Definition url_states : list state :=
  [s_req_spaces_before_url; s_req_schema; s_req_schema_slash; s_req_schema_slash_slash; s_req_server_start; s_req_server; s_req_server_with_at;
   s_req_path; s_req_query_string_start; s_req_query_string; s_req_fragment_start; s_req_fragment].

Lemma url_next s ch : s ∈ url_states -> parse_url_char s ch = s_dead \/ (parse_url_char s ch ∈ url_states /\ exists r, url_field (parse_url_char s ch) = Ret r).
Proof.
  assert (Hin : forall t, bool_decide (t ∈ url_states) = true -> t ∈ url_states) by (by intros t ?%bool_decide_eq_true).
  unfold url_states at 1. rewrite !elem_of_cons, elem_of_nil. intros Hs. unfold parse_url_char. do 2 (case_match; [by left|]).
  repeat (destruct Hs as [->|Hs]; [repeat case_match; first [by left | right; split; [by apply Hin|by eexists]]|]). done.
Qed.

Lemma bounded_mono n m u : bounded n u -> n <= m -> bounded m u.
Proof. intros Hb Hn f o l Hv. specialize (Hb f o l Hv). lia. Qed.

Lemma bounded_start n uf u : url_ok u -> bounded n u -> 0 <= n < 65536 -> bounded (n + 1) (start_field uf n u).
Proof.
  intros Hu Hb Hn f o l. unfold start_field. rewrite view_start by (done || lia). case_decide; [intros [= <- <-]; lia|]. intros Hv%Hb. lia.
Qed.
Lemma bounded_inc n uf u o l : url_ok u -> bounded n u -> n < 65535 -> view u uf = Some (o, l) -> bounded (n + 1) (inc_len uf u).
Proof.
  intros Hu Hb Hn Hv f o' l'. pose proof (Hb _ _ _ Hv). rewrite (view_inc uf u f o l) by (done || lia). case_decide; [intros [= <- <-]; lia|]. intros Hv'%Hb. lia.
Qed.

Definition url_inv (n : Z) (u : http_parser_url) : Prop := url_ok u /\ bounded n u.

Lemma url_loop_ok chars i s old fa u : url_inv i u -> s ∈ url_states -> (forall uf, old = Some uf -> is_Some (view u uf)) ->
  0 <= i -> i + Z.of_nat (length chars) < 65536 ->
  exists r, url_loop chars i s old fa u = Ret r /\ forall fa' u', r = Some (fa', u') -> url_inv (i + Z.of_nat (length chars)) u'.
Proof.
  revert i s old fa u. induction chars as [|ch chars IH]; intros i s old fa u [Hu Hb] Hs Ho H0 Hn; cbn [url_loop length] in *.
  { eexists. split; [done|]. intros fa' u' [= <- <-]. by rewrite Z.add_0_r. }
  destruct (url_next s ch Hs) as [->|[Hs' [r Hr]]]; [rewrite decide_True by done; by eexists|]. case_decide; [by eexists|]. rewrite Hr. cbn [res_bind].
  replace (i + Z.of_nat (S (length chars))) with (i + 1 + Z.of_nat (length chars)) by lia.
  destruct r as [uf|]; [case_decide as Eo|]; apply IH; try done; try lia.
  - destruct (Ho uf Eo) as [[o l] Hv]. split; [auto|]. eapply bounded_inc; [done|done|lia|exact Hv].
  - intros uf' E. destruct (Ho uf' E) as [[o l] Hv]. pose proof (Hb _ _ _ Hv). rewrite Eo in E. injection E as <-. rewrite (view_inc uf u uf o l) by (done || lia). by rewrite decide_True.
  - split; [unfold start_field; auto|]. apply bounded_start; [done|done|lia].
  - intros uf' [= <-]. unfold start_field. rewrite view_start by (done || lia). by rewrite decide_True.
  - split; [done|]. by apply (bounded_mono i); [|lia].
Qed.

(** *** The host *)

(** Before the host has begun. *)
Definition before_host (s : http_host_state) : bool :=
  match s with s_http_userinfo_start | s_http_userinfo | s_http_host_start | s_http_host_v6_start => true | _ => false end.

Record host_inv (n i : Z) (s : http_host_state) (u : http_parser_url) : Prop := {
  hi_ok : url_ok u;
  hi_other : forall f o l, f <> UF_HOST -> view u f = Some (o, l) -> 0 <= o /\ 0 < l /\ o + l <= n;
  hi_host : exists o l, view u UF_HOST = Some (o, l) /\ 0 <= o /\ 0 <= l /\ o + l <= i /\ (if before_host s then l = 0 else 0 < l);
  hi_port : s = s_http_host_port -> exists o l, view u UF_PORT = Some (o, l) /\ 0 <= o /\ o + l <= i;
  hi_user : s = s_http_userinfo -> exists o l, view u UF_USERINFO = Some (o, l) /\ 0 <= o /\ o + l <= i }.

(** Which state comes before. *)
Lemma host_from s ch :
  match http_parse_host_char s ch with
  | s_http_host => s = s_http_host \/ s = s_http_host_start
  | s_http_host_v6 => s = s_http_host_v6 \/ s = s_http_host_v6_start
  | s_http_host_v6_zone_start | s_http_host_v6_zone | s_http_host_v6_end | s_http_host_port_start | s_http_host_port => before_host s = false
  | s_http_userinfo | s_http_host_start | s_http_host_v6_start => before_host s = true
  | s_http_userinfo_start => False
  | s_http_host_dead => True
  end.
Proof. unfold http_parse_host_char. destruct s; repeat (case_match; try done); auto. Qed.

(** A character of the host; [u1] has the host so far. *)
Lemma host_inv_inc n i s new_s u u1 o l : host_inv n i s u -> 0 <= i -> i < n -> n < 65536 -> before_host new_s = false -> new_s <> s_http_host_port ->
  0 <= o -> 0 <= l -> o + l <= i -> url_ok u1 -> view u1 UF_HOST = Some (o, l) -> (forall f, f <> UF_HOST -> view u1 f = view u f) ->
  host_inv n (i + 1) new_s (inc_len UF_HOST u1).
Proof.
  intros [H1 H2 H3 H4 H5] Hi Hn Hn' Hb Hp Ho Hl Hol Hu1 Hv Hf.
  assert (Hview : forall f, view (inc_len UF_HOST u1) f = if decide (f = UF_HOST) then Some (o, l + 1) else view u f).
  { intros f. rewrite (view_inc UF_HOST u1 f o l) by (done || lia). case_decide; [done|]. by apply Hf. }
  split; [auto|..].
  - intros f o' l' Hne. rewrite Hview, decide_False by done. by apply H2.
  - exists o, (l + 1). rewrite Hview, decide_True, Hb by done. split; [done|]. lia.
  - done.
  - by destruct new_s.
Qed.

(** A character of another field. *)
Lemma host_inv_field n i s new_s u u1 uf o l : host_inv n i s u -> 0 <= i -> i < n -> n < 65536 -> before_host new_s = before_host s -> uf <> UF_HOST ->
  (new_s = s_http_host_port -> uf = UF_PORT) -> (new_s = s_http_userinfo -> uf = UF_USERINFO) ->
  0 <= o -> 0 <= l -> o + l <= i -> url_ok u1 -> view u1 uf = Some (o, l) -> (forall f, f <> uf -> view u1 f = view u f) ->
  host_inv n (i + 1) new_s (inc_len uf u1).
Proof.
  intros [H1 H2 (ho & hl & H3 & H3a & H3b & H3c & H3d) H4 H5] Hi Hn Hn' Hb Huf Hp Hus Ho Hl Hol Hu1 Hv Hf.
  assert (Hview : forall f, view (inc_len uf u1) f = if decide (f = uf) then Some (o, l + 1) else view u f).
  { intros f. rewrite (view_inc uf u1 f o l) by (done || lia). case_decide; [done|]. by apply Hf. }
  split; [auto|..].
  - intros f o' l' Hne. rewrite Hview. case_decide; [intros [= <- <-]; lia|]. by apply H2.
  - exists ho, hl. rewrite Hview, decide_False, Hb by done. split_and!; (done || lia).
  - intros ->. rewrite Hview, decide_True by (by rewrite Hp). exists o, (l + 1). split; [done|]. lia.
  - intros ->. rewrite Hview, decide_True by (by rewrite Hus). exists o, (l + 1). split; [done|]. lia.
Qed.

Lemma host_inv_same n i s new_s u : host_inv n i s u -> before_host new_s = before_host s -> new_s <> s_http_host_port -> new_s <> s_http_userinfo -> host_inv n (i + 1) new_s u.
Proof.
  intros [H1 H2 (ho & hl & H3 & H3a & H3b & H3c & H3d) H4 H5] Hb Hp Hu. split; [done|done| |done|done]. exists ho, hl. rewrite Hb. split_and!; (done || lia).
Qed.

Lemma host_step n i s u ch : host_inv n i s u -> 0 <= i -> i < n -> n < 65536 ->
  http_parse_host_char s ch <> s_http_host_dead -> host_inv n (i + 1) (http_parse_host_char s ch) (host_char s (http_parse_host_char s ch) i u).
Proof.
  intros Hi H0 Hn Hn' Hd. pose proof (host_from s ch) as Hf. revert Hf Hd. generalize (http_parse_host_char s ch). intros new_s Hf Hd.
  pose proof Hi as [H1 H2 (ho & hl & H3 & H3a & H3b & H3c & H3d) H4 H5].
  assert (Hset : forall f, f <> UF_HOST -> view (set_off UF_HOST i u) f = view u f) by (intros f Hne; rewrite view_off by (done || lia); by rewrite decide_False).
  assert (Hoff : view (set_off UF_HOST i u) UF_HOST = Some (i, hl)) by (rewrite view_off by (done || lia); rewrite decide_True by done; by rewrite H3).
  assert (Hst : forall uf f, view (add_field_bit uf (set_len uf 0 (set_off uf i u))) f = if decide (f = uf) then Some (i, 0) else view u f) by (intros uf f; apply view_start; (done || lia)).
  destruct new_s; cbn [host_char]; try done; try (apply (host_inv_same n i s); try done; by rewrite Hf).
  - case_bool_decide as Es.
    + destruct (H5 Es) as (o & l & Hv & ? & ?). destruct (H2 UF_USERINFO o l ltac:(done) Hv) as (? & ? & ?).
      apply (host_inv_field n i s _ u u UF_USERINFO o l); try done; lia.
    + apply (host_inv_field n i s _ u _ UF_USERINFO i 0); try done; try lia; auto; intros; rewrite Hst; by case_decide.
  - case_bool_decide as Es; [apply (host_inv_inc n i s _ u u ho hl); done|]. destruct Hf as [->|Hs]; [done|]. subst s. cbn in H3d. subst hl.
    apply (host_inv_inc n i s_http_host_start _ u (set_off UF_HOST i u) i 0); try done; try lia; auto.
  - case_bool_decide as Es; [apply (host_inv_inc n i s _ u u ho hl); done|]. destruct Hf as [->|Hs]; [done|]. subst s. cbn in H3d. subst hl.
    apply (host_inv_inc n i s_http_host_v6_start _ u (set_off UF_HOST i u) i 0); try done; try lia; auto.
  - by apply (host_inv_inc n i s _ u u ho hl).
  - by apply (host_inv_inc n i s _ u u ho hl).
  - case_bool_decide as Es.
    + destruct (H4 Es) as (o & l & Hv & ? & ?). destruct (H2 UF_PORT o l ltac:(done) Hv) as (? & ? & ?).
      apply (host_inv_field n i s _ u u UF_PORT o l); try done; lia.
    + apply (host_inv_field n i s _ u _ UF_PORT i 0); try done; try lia; auto; intros; rewrite Hst; by case_decide.
Qed.

Lemma host_loop_ok n chars i s u s' u' : host_inv n i s u -> 0 <= i -> i + Z.of_nat (length chars) <= n -> n < 65536 ->
  host_loop chars i s u = Some (s', u') -> host_inv n (i + Z.of_nat (length chars)) s' u'.
Proof.
  revert i s u. induction chars as [|ch chars IH]; intros i s u Hi H0 Hn Hn'; cbn [host_loop length] in *; [intros [= <- <-]; by rewrite Z.add_0_r|].
  case_decide as Hd; [done|]. replace (i + Z.of_nat (S (length chars))) with (i + 1 + Z.of_nat (length chars)) by lia. apply IH; [|lia..].
  apply host_step; (done || lia).
Qed.

Lemma http_parse_host_ok n buf u fa : url_inv n u -> n <= Z.of_nat (length buf) -> n < 65536 -> has_field UF_HOST u = true ->
  exists r, http_parse_host buf u fa = Ret r /\ forall u', r = Some u' -> url_inv n u'.
Proof.
  intros [Hu Hb] Hlen Hn Hh. unfold http_parse_host. destruct (field_at UF_HOST u) as [off len] eqn:E. rewrite Hh. cbn [negb].
  assert (Hv : view u UF_HOST = Some (off, len)) by (unfold view; by rewrite Hh, E). destruct (Hb _ _ _ Hv) as (Ho & Hl & Hol).
  rewrite (proj2 (Nat.ltb_ge _ _)) by lia. set (chars := take _ _). set (s0 := if fa then _ else _).
  assert (Hc : Z.of_nat (length chars) = len) by (unfold chars; rewrite length_take, length_drop; lia).
  assert (Hi : host_inv n off s0 (set_len UF_HOST 0 u)).
  { assert (Hview : forall f, view (set_len UF_HOST 0 u) f = if decide (f = UF_HOST) then Some (off, 0) else view u f).
    { intros f. rewrite view_len by (done || lia). destruct (decide (f = UF_HOST)) as [->|]; [by rewrite Hv|done]. }
    split; [auto|..]; [|exists off, 0; rewrite Hview, decide_True by done; split_and!; try done; [lia|by unfold s0; destruct fa]|by unfold s0; destruct fa..].
    intros f o l Hne. rewrite Hview, decide_False by done. apply Hb. }
  destruct (host_loop chars off s0 _) as [[s' u']|] eqn:El; [|by eexists]. eexists. split; [done|]. intros u2 E2. destruct (host_end s') eqn:Ee; [|done]. injection E2 as <-.
  apply host_loop_ok with (n := n) in El as [H1 H2 (ho & hl & H3 & H3a & H3b & H3c & H3d) _ _]; [|done|lia..]. split; [done|].
  intros f o l Hf. destruct (decide (f = UF_HOST)) as [->|Hne]; [|by apply (H2 f)]. rewrite H3 in Hf. injection Hf as <- <-.
  split; [done|]. split; [|lia]. destruct s'; try done; exact H3d.
Qed.

(** ** The port *)

Lemma digits_end l rest v : 0 <= v -> exists v', strtoul_digits (l ++ 0 :: rest) v = Ret v' /\ 0 <= v'.
Proof.
  revert v. induction l as [|c l IH]; intros v Hv; cbn [app strtoul_digits]; [eexists; split; [done|]; unfold ULLONG_MAX; lia|].
  destruct (IS_NUM c) eqn:E; [|eexists; split; [done|]; unfold ULLONG_MAX; lia]. apply IH. unfold IS_NUM in E. lia.
Qed.
Lemma strtoul_end l rest : exists v, strtoul (l ++ 0 :: rest) = Ret v /\ 0 <= v.
Proof.
  induction l as [|c l IH]; cbn [app strtoul]; [by eexists|]. destruct (isspace c); [done|]. destruct (c =? MINUS).
  - destruct (digits_end l rest 0 ltac:(lia)) as (v & -> & Hv). cbn [res_bind]. eexists. split; [done|]. case_match; [done|]. apply Z.mod_pos_bound. lia.
  - destruct (c =? 43); [apply digits_end; lia|]. apply (digits_end (c :: l) rest 0). lia.
Qed.

Lemma init_inv u : length (field_data u) = 7%nat -> url_inv 0 (mkUrl 0 0 (field_data u)).
Proof. intros Hd. split; [by split|]. intros f o l Hv. unfold view, has_field in Hv. cbn [field_set] in Hv. by rewrite Z.testbit_0_l in Hv. Qed.

(** Whatever bytes a URL has, up to 64 KiB and with a zero byte after them in
    memory, http_parser_parse_url returns: no assertion fails and nothing is read
    outside the memory.  When it accepts the URL, every field it reports is not
    empty and lies inside the URL, and the port fits its 16 bits. *)
Theorem http_url_bounds url rest is_connect u : Z.of_nat (length url) < 65536 -> length (field_data u) = 7%nat ->
  exists r, http_parser_parse_url (url ++ 0 :: rest) (length url) is_connect u = Ret r /\
    forall u', r = Some u' -> 0 <= port u' < 65536 /\
      forall f, has_field f u' = true -> let '(off, len) := field_at f u' in 0 <= off /\ 0 < len /\ off + len <= Z.of_nat (length url).
Proof.
  intros Hn Hd. unfold http_parser_parse_url. rewrite (proj2 (Nat.ltb_ge _ _)) by (rewrite length_app; lia). rewrite take_app_length.
  set (u0 := mkUrl 0 0 (field_data u)). set (s := if is_connect then _ else _).
  destruct (url_loop_ok url 0 s None false u0 (init_inv u Hd)) as (r & -> & Hr); [unfold s; destruct is_connect; unfold url_states; set_solver|done|lia|lia|].
  cbn [res_bind]. destruct r as [[fa u1]|]; [|by eexists]. specialize (Hr fa u1 eq_refl). case_match; [by eexists|].
  assert (Hh : exists r, (if has_field UF_HOST u1 then http_parse_host (url ++ 0 :: rest) u1 fa else Ret (Some u1)) = Ret r /\
    forall u', r = Some u' -> url_inv (0 + Z.of_nat (length url)) u').
  { destruct (has_field UF_HOST u1) eqn:Eh; [apply http_parse_host_ok; [done|rewrite length_app; lia|lia|done]|]. eexists. split; [done|]. by intros u' [= <-]. }
  destruct Hh as (r & -> & Hr2). cbn [res_bind]. destruct r as [u2|]; [|by eexists]. destruct (Hr2 u2 eq_refl) as [Hu2 Hb2]. case_match; [by eexists|].
  assert (Hf : forall f, has_field f u2 = true -> let '(off, len) := field_at f u2 in 0 <= off /\ 0 < len /\ off + len <= Z.of_nat (length url)).
  { intros f Hf. destruct (field_at f u2) as [off len] eqn:E. apply (Hb2 f). unfold view. by rewrite Hf, E. }
  destruct (has_field UF_PORT u2) eqn:Ep; [|eexists; split; [done|]; intros u' [= <-]; split; [rewrite (uo_port _ Hu2); lia|exact Hf]].
  pose proof (Hf UF_PORT Ep) as Hp. destruct (field_at UF_PORT u2) as [off len] eqn:E. cbn [fst].
  rewrite drop_app_le by lia. destruct (strtoul_end (drop (Z.to_nat off) url) rest) as (v & -> & Hv). cbn [res_bind].
  case_match eqn:Ev; [by eexists|]. eexists. split; [done|]. intros u' [= <-]. split; [cbn; apply Z.mod_pos_bound; lia|exact Hf].
Qed.

Lemma http_url_bounds_witness : exists r, http_parser_parse_url (bytes "http://a@h:8/p?q" ++ [0]) 16 false http_parser_url_init = Ret r /\
  forall u', r = Some u' -> 0 <= port u' < 65536 /\
    forall f, has_field f u' = true -> let '(off, len) := field_at f u' in 0 <= off /\ 0 < len /\ off + len <= 16.
Proof. apply (http_url_bounds (bytes "http://a@h:8/p?q") [] false http_parser_url_init); [cbn; lia|reflexivity]. Defined.

(** ** What is put together is taken apart *)

Definition fields : Type := http_parser_url_fields -> option (Z * Z).
Definition upd_field (f : http_parser_url_fields) (v : Z * Z) (m : fields) : fields := fun g => if decide (g = f) then Some v else m g.
Definition shows (u : http_parser_url) (m : fields) : Prop := url_ok u /\ forall f, view u f = m f.

Lemma shows_start u m uf o l : shows u m -> 0 <= o < 65536 -> 0 <= l < 65536 ->
  shows (add_field_bit uf (set_len uf l (set_off uf o u))) (upd_field uf (o, l) m).
Proof. intros [Hu Hm] Ho Hl. split; [auto|]. intros f. rewrite view_start by done. unfold upd_field. by rewrite Hm. Qed.
Lemma shows_inc u m uf o l : shows u m -> m uf = Some (o, l) -> 0 <= l < 65535 -> shows (inc_len uf u) (upd_field uf (o, l + 1) m).
Proof. intros [Hu Hm] Ho Hl. split; [auto|]. intros f. rewrite (view_inc uf u f o l) by (done || by rewrite Hm). unfold upd_field. by rewrite Hm. Qed.
Lemma shows_ext u m m' : shows u m -> (forall f, m f = m' f) -> shows u m'.
Proof. intros [Hu Hm] He. split; [done|]. intros f. by rewrite Hm. Qed.
Lemma upd_twice f v w m g : upd_field f v (upd_field f w m) g = upd_field f v m g.
Proof. unfold upd_field. by case_decide. Qed.
Lemma upd_same f v m : m f = Some v -> forall g, upd_field f v m g = m g.
Proof. intros E g. unfold upd_field. by case_decide; subst. Qed.

(** *** Runs of characters of one field *)
Inductive run (uf : http_parser_url_fields) : state -> bool -> list Z -> state -> bool -> Prop :=
| run_nil s fa : run uf s fa [] s fa
| run_cons s s1 s2 fa fa2 c seg : parse_url_char s c = s1 -> url_field s1 = Ret (Some uf) ->
    run uf s1 (fa || bool_decide (s1 = s_req_server_with_at)) seg s2 fa2 -> run uf s fa (c :: seg) s2 fa2.

Lemma run_app uf s fa a s1 fa1 b s2 fa2 : run uf s fa a s1 fa1 -> run uf s1 fa1 b s2 fa2 -> run uf s fa (a ++ b) s2 fa2.
Proof. induction 1; [done|]. intros H'. cbn. econstructor; eauto. Qed.

Lemma loop_more uf s fa seg s2 fa2 rest i u m o l : run uf s fa seg s2 fa2 -> shows u m -> m uf = Some (o, l) -> 0 <= l -> l + Z.of_nat (length seg) < 65536 ->
  exists u', url_loop (seg ++ rest) i s (Some uf) fa u = url_loop rest (i + Z.of_nat (length seg)) s2 (Some uf) fa2 u' /\
    shows u' (upd_field uf (o, l + Z.of_nat (length seg)) m).
Proof.
  intros Hr. revert i u m l. induction Hr as [s fa|s s1 s2 fa fa2 c seg E1 E2 Hr IH]; intros i u m l Hu Hm H0 Hn; cbn [app length url_loop] in *.
  { exists u. rewrite !Z.add_0_r. split; [done|]. apply (shows_ext u m); [done|]. intros f. by rewrite upd_same. }
  rewrite E1. destruct (decide (s1 = s_dead)) as [->|]; [done|]. rewrite E2. cbn [res_bind]. rewrite decide_True by done.
  pose proof (shows_inc u m uf o l Hu Hm ltac:(lia)) as Hu1.
  destruct (IH (i + 1) (inc_len uf u) _ (l + 1) Hu1) as (u' & E & Hu'); [unfold upd_field; by rewrite decide_True|lia|lia|].
  exists u'. replace (i + Z.of_nat (S (length seg))) with (i + 1 + Z.of_nat (length seg)) by lia. split; [exact E|].
  eapply shows_ext; [exact Hu'|]. intros f. rewrite upd_twice. by replace (l + 1 + Z.of_nat (length seg)) with (l + Z.of_nat (S (length seg))) by lia.
Qed.

Lemma loop_run uf s fa seg s2 fa2 rest i old u m : run uf s fa seg s2 fa2 -> seg <> [] -> old <> Some uf -> shows u m -> 0 <= i -> i + Z.of_nat (length seg) < 65536 ->
  exists u', url_loop (seg ++ rest) i s old fa u = url_loop rest (i + Z.of_nat (length seg)) s2 (Some uf) fa2 u' /\ shows u' (upd_field uf (i, Z.of_nat (length seg)) m).
Proof.
  intros Hr Hne Ho Hu H0 Hn. destruct Hr as [s fa|s s1 s2 fa fa2 c seg E1 E2 Hr]; [done|]. cbn [app length url_loop] in *.
  rewrite E1. destruct (decide (s1 = s_dead)) as [->|]; [done|]. rewrite E2. cbn [res_bind]. rewrite decide_False by done.
  pose proof (shows_start u m uf i 1 Hu ltac:(lia) ltac:(lia)) as Hu1.
  destruct (loop_more uf s1 _ seg s2 fa2 rest (i + 1) (start_field uf i u) _ i 1 Hr Hu1) as (u' & E & Hu'); [unfold upd_field; by rewrite decide_True|lia|lia|].
  exists u'. replace (i + Z.of_nat (S (length seg))) with (i + 1 + Z.of_nat (length seg)) by lia. split; [exact E|].
  eapply shows_ext; [exact Hu'|]. intros f. rewrite upd_twice. by replace (1 + Z.of_nat (length seg)) with (Z.of_nat (S (length seg))) by lia.
Qed.

Lemma loop_delim s s1 c rest i old fa u : parse_url_char s c = s1 -> url_field s1 = Ret None -> url_loop (c :: rest) i s old fa u = url_loop rest (i + 1) s1 old fa u.
Proof. intros E1 E2. cbn [url_loop]. rewrite E1. destruct (decide (s1 = s_dead)) as [->|]; [done|]. by rewrite E2. Qed.

(** *** Characters *)
Lemma byte_check (P : Z -> bool) : forallb (fun n => P (Z.of_nat n)) (seq 0 256) = true -> forall b, is_byte b -> P b = true.
Proof.
  intros Hall b Hb. unfold is_byte in Hb. rewrite forallb_forall in Hall. specialize (Hall (Z.to_nat b)). rewrite Z2Nat.id in Hall by lia. apply Hall, in_seq. lia.
Qed.

(** Bytes of a class. *)
Definition all_in (P : Z -> bool) (l : list Z) : Prop := Forall (fun b => is_byte b /\ P b = true) l.

(** All characters of the class lead from [s] to [s']. *)
Definition steps_to (P : Z -> bool) (s s' : state) : bool := forallb (fun n => implb (P (Z.of_nat n)) (bool_decide (parse_url_char s (Z.of_nat n) = s'))) (seq 0 256).

Lemma steps_char P s s' c : steps_to P s s' = true -> is_byte c -> P c = true -> parse_url_char s c = s'.
Proof.
  intros H Hc HP. pose proof (byte_check (fun b => implb (P b) (bool_decide (parse_url_char s b = s'))) H c Hc) as E. cbn beta in E. rewrite HP in E.
  by apply bool_decide_eq_true in E.
Qed.

Lemma run_class P uf s s' fa l : steps_to P s' s' = true -> steps_to P s s' = true -> url_field s' = Ret (Some uf) -> s' <> s_req_server_with_at ->
  all_in P l -> run uf s fa l (match l with [] => s | _ => s' end) fa.
Proof.
  intros H1 H2 Hf Hne Hl. assert (Hrest : forall l, all_in P l -> run uf s' fa l s' fa).
  { clear l Hl. induction 1 as [|c l [Hc HP] Hl IH]; [constructor|]. econstructor; [by apply (steps_char P s' s')|done|]. rewrite bool_decide_false, orb_false_r by done. exact IH. }
  destruct Hl as [|c l [Hc HP] Hl]; [constructor|]. econstructor; [by apply (steps_char P s s')|done|]. rewrite bool_decide_false, orb_false_r by done. by apply Hrest.
Qed.

(** *** The parts of a URL *)
Record parts := mkParts { p_schema : list Z; p_user : option (list Z); p_host : list Z; p_port : option (list Z);
  p_path : option (list Z); p_query : option (list Z); p_fragment : option (list Z) }.

Definition with_sep (before after : list Z) (o : option (list Z)) : list Z := match o with Some l => before ++ l ++ after | None => [] end.

Definition authority (p : parts) : list Z := with_sep [] [AT] (p_user p) ++ p_host p ++ with_sep [COLON] [] (p_port p).
Definition url_of (p : parts) : list Z :=
  p_schema p ++ [COLON; SLASH; SLASH] ++ authority p ++ with_sep [SLASH] [] (p_path p) ++ with_sep [QUESTION] [] (p_query p) ++ with_sep [HASH] [] (p_fragment p).

Definition some_of (P : Z -> bool) (o : option (list Z)) : Prop := match o with Some l => all_in P l /\ l <> [] | None => True end.

(** The path is without its slash; a fragment only follows a path or a query. *)
Record parts_ok (p : parts) : Prop := {
  po_schema : all_in IS_ALPHA (p_schema p) /\ p_schema p <> [];
  po_user : some_of IS_USERINFO_CHAR (p_user p);
  po_host : all_in IS_HOST_CHAR (p_host p) /\ p_host p <> [];
  po_port : some_of IS_NUM (p_port p) /\ (forall l, p_port p = Some l -> number 0 l <= 65535);
  po_path : match p_path p with Some l => all_in IS_URL_CHAR l | None => True end;
  po_query : some_of IS_URL_CHAR (p_query p);
  po_fragment : some_of IS_URL_CHAR (p_fragment p) /\ (p_fragment p <> None -> p_path p <> None \/ p_query p <> None) }.

Lemma class_weaken (P Q : Z -> bool) l : forallb (fun n => implb (P (Z.of_nat n)) (Q (Z.of_nat n))) (seq 0 256) = true -> all_in P l -> all_in Q l.
Proof.
  intros H Hl. eapply Forall_impl; [exact Hl|]. intros b [Hb HP]. split; [done|]. pose proof (byte_check (fun b => implb (P b) (Q b)) H b Hb) as E. cbn beta in E. by rewrite HP in E.
Qed.

(** The authority is one run. *)
Lemma run_authority p : parts_ok p -> run UF_HOST s_req_server_start false (authority p) s_req_server (match p_user p with Some _ => true | None => false end).
Proof.
  intros [_ Hu [Hh Hhe] [Hp _] _ _ _]. assert (Hh' : all_in IS_USERINFO_CHAR (p_host p)) by (by apply (class_weaken IS_HOST_CHAR)).
  assert (Hrest : forall s fa, steps_to IS_USERINFO_CHAR s s_req_server = true -> run UF_HOST s fa (p_host p ++ with_sep [COLON] [] (p_port p)) s_req_server fa).
  { intros s fa Hs. pose proof (run_class IS_USERINFO_CHAR UF_HOST s s_req_server fa (p_host p) ltac:(by vm_compute) Hs eq_refl ltac:(done) Hh') as R1.
    destruct (p_host p) as [|c h]; [done|]. eapply run_app; [exact R1|]. destruct (p_port p) as [l|]; cbn [with_sep app]; [|constructor]. rewrite app_nil_r.
    destruct Hp as [Hp _]. assert (Hp' : all_in IS_USERINFO_CHAR l) by (by apply (class_weaken IS_NUM)).
    econstructor; [reflexivity|done|]. pose proof (run_class IS_USERINFO_CHAR UF_HOST s_req_server s_req_server fa l ltac:(by vm_compute) ltac:(by vm_compute) eq_refl ltac:(done) Hp') as R2.
    rewrite bool_decide_false, orb_false_r by done. by destruct l. }
  unfold authority. destruct (p_user p) as [us|]; cbn [with_sep app].
  - destruct Hu as [Hu Hune]. rewrite <- app_assoc.
    pose proof (run_class IS_USERINFO_CHAR UF_HOST s_req_server_start s_req_server false us ltac:(by vm_compute) ltac:(by vm_compute) eq_refl ltac:(done) Hu) as R1.
    destruct us as [|c us]; [done|]. eapply run_app; [exact R1|]. cbn [app]. econstructor; [reflexivity|done|]. apply (Hrest s_req_server_with_at). by vm_compute.
  - apply Hrest. by vm_compute.
Qed.

(** *** The loop over a URL *)
Definition opt_field (f : http_parser_url_fields) (o : option (list Z)) (i len : Z) (m : fields) : fields :=
  match o with Some l => upd_field f (i, len + Z.of_nat (length l)) m | None => m end.

Definition sep_size (o : option (list Z)) : Z := Z.of_nat (length (with_sep [0] [] o)).

Lemma loop_path p rest i fa u m : match p with Some l => all_in IS_URL_CHAR l | None => True end -> shows u m -> 0 <= i -> i + sep_size p < 65536 ->
  exists u', url_loop (with_sep [SLASH] [] p ++ rest) i s_req_server (Some UF_HOST) fa u =
      url_loop rest (i + sep_size p) (match p with Some _ => s_req_path | None => s_req_server end) (Some (match p with Some _ => UF_PATH | None => UF_HOST end)) fa u' /\
    shows u' (opt_field UF_PATH p i 1 m).
Proof.
  unfold sep_size. intros Hp Hu H0 Hn. destruct p as [l|]; cbn [with_sep opt_field app] in *; [|exists u; by rewrite Z.add_0_r]. rewrite app_nil_r in *.
  assert (Hr : run UF_PATH s_req_server fa (SLASH :: l) s_req_path fa).
  { econstructor; [reflexivity|done|]. rewrite bool_decide_false, orb_false_r by done.
    pose proof (run_class IS_URL_CHAR UF_PATH s_req_path s_req_path fa l ltac:(by vm_compute) ltac:(by vm_compute) eq_refl ltac:(done) Hp) as R. by destruct l. }
  destruct (loop_run UF_PATH _ _ _ _ _ rest i (Some UF_HOST) u m Hr) as (u' & E & Hu'); [done|done|done|done|exact Hn|]. exists u'. split; [exact E|].
  eapply shows_ext; [exact Hu'|]. intros f. cbn [length]. by replace (Z.of_nat (S (length l))) with (1 + Z.of_nat (length l)) by lia.
Qed.

(** A delimiter and a field after it. *)
Lemma loop_part (o : option (list Z)) d s mid fin uf old rest i fa u m : some_of IS_URL_CHAR o ->
  (o <> None -> parse_url_char s d = mid) -> url_field mid = Ret None -> steps_to IS_URL_CHAR mid fin = true -> steps_to IS_URL_CHAR fin fin = true ->
  url_field fin = Ret (Some uf) -> fin <> s_req_server_with_at -> old <> Some uf -> shows u m -> 0 <= i -> i + sep_size o < 65536 ->
  exists u', url_loop (with_sep [d] [] o ++ rest) i s old fa u =
      url_loop rest (i + sep_size o) (match o with Some _ => fin | None => s end) (match o with Some _ => Some uf | None => old end) fa u' /\
    shows u' (opt_field uf o (i + 1) 0 m).
Proof.
  unfold sep_size. intros Ho Hd Hm H1 H2 Hf Hne Hold Hu H0 Hn. destruct o as [l|]; cbn [with_sep opt_field app length] in *; [|exists u; by rewrite Z.add_0_r].
  destruct Ho as [Hl Hle]. rewrite app_nil_r in *. rewrite (loop_delim s mid) by (done || by apply Hd).
  pose proof (run_class IS_URL_CHAR uf mid fin fa l H2 H1 Hf Hne Hl) as R. destruct l as [|c l]; [done|].
  destruct (loop_run uf _ _ _ _ _ rest (i + 1) old u m R) as (u' & E & Hu'); [done|done|done|lia|lia|]. exists u'.
  replace (i + Z.of_nat (S (length (c :: l)))) with (i + 1 + Z.of_nat (length (c :: l))) by lia. by rewrite Z.add_0_l.
Qed.

(** Where the parts are. *)
Definition host_at (p : parts) : Z := Z.of_nat (length (p_schema p)) + 3.
Definition path_at (p : parts) : Z := host_at p + Z.of_nat (length (authority p)).
Definition query_at (p : parts) : Z := path_at p + sep_size (p_path p).
Definition fragment_at (p : parts) : Z := query_at p + sep_size (p_query p).

Definition loop_fields (p : parts) : fields :=
  opt_field UF_FRAGMENT (p_fragment p) (fragment_at p + 1) 0 (opt_field UF_QUERY (p_query p) (query_at p + 1) 0 (opt_field UF_PATH (p_path p) (path_at p) 1
    (upd_field UF_HOST (host_at p, Z.of_nat (length (authority p))) (upd_field UF_SCHEMA (0, Z.of_nat (length (p_schema p))) (fun _ => None))))).

Lemma url_size p : Z.of_nat (length (url_of p)) = fragment_at p + sep_size (p_fragment p).
Proof.
  unfold url_of, fragment_at, query_at, path_at, host_at, sep_size. rewrite !length_app.
  assert (E : forall d o, length (with_sep [d] [] o) = length (with_sep [0] [] o)) by (by intros d [l|]). rewrite (E SLASH), (E QUESTION), (E HASH). cbn [length]. lia.
Qed.

Lemma sep_size_pos o : 0 <= sep_size o.
Proof. unfold sep_size. lia. Qed.

(** The path, the query and the fragment. *)
Lemma loop_tail p fa u m : parts_ok p -> Z.of_nat (length (url_of p)) < 65536 -> shows u m ->
  exists u', url_loop (with_sep [SLASH] [] (p_path p) ++ with_sep [QUESTION] [] (p_query p) ++ with_sep [HASH] [] (p_fragment p)) (path_at p) s_req_server (Some UF_HOST) fa u =
    Ret (Some (fa, u')) /\ shows u' (opt_field UF_FRAGMENT (p_fragment p) (fragment_at p + 1) 0 (opt_field UF_QUERY (p_query p) (query_at p + 1) 0 (opt_field UF_PATH (p_path p) (path_at p) 1 m))).
Proof.
  intros [_ _ _ _ Hpa Hq [Hfr Hfr2]] Hn Hu. rewrite url_size in Hn. unfold fragment_at, query_at in *. pose proof (sep_size_pos (p_path p)). pose proof (sep_size_pos (p_query p)).
  pose proof (sep_size_pos (p_fragment p)). assert (Hpos : 0 <= path_at p) by (unfold path_at, host_at; lia).
  destruct (loop_path (p_path p) (with_sep [QUESTION] [] (p_query p) ++ with_sep [HASH] [] (p_fragment p)) (path_at p) fa u m Hpa Hu Hpos) as (u1 & -> & Hu1); [lia|].
  destruct (loop_part (p_query p) QUESTION (match p_path p with Some _ => s_req_path | None => s_req_server end) s_req_query_string_start s_req_query_string UF_QUERY
    (Some (match p_path p with Some _ => UF_PATH | None => UF_HOST end)) (with_sep [HASH] [] (p_fragment p)) (path_at p + sep_size (p_path p)) fa u1 (opt_field UF_PATH (p_path p) (path_at p) 1 m) Hq) as (u2 & -> & Hu2);
    [by destruct (p_path p)|done|by vm_compute|by vm_compute|done|done|by destruct (p_path p)|exact Hu1|lia|lia|].
  rewrite <- (app_nil_r (with_sep [HASH] [] (p_fragment p))).
  destruct (loop_part (p_fragment p) HASH (match p_query p with Some _ => s_req_query_string | None => match p_path p with Some _ => s_req_path | None => s_req_server end end)
    s_req_fragment_start s_req_fragment UF_FRAGMENT (match p_query p with Some _ => Some UF_QUERY | None => Some (match p_path p with Some _ => UF_PATH | None => UF_HOST end) end)
    [] (path_at p + sep_size (p_path p) + sep_size (p_query p)) fa u2
    (opt_field UF_QUERY (p_query p) (path_at p + sep_size (p_path p) + 1) 0 (opt_field UF_PATH (p_path p) (path_at p) 1 m)) Hfr) as (u3 & -> & Hu3);
    [|done|by vm_compute|by vm_compute|done|done|by destruct (p_query p), (p_path p)|exact Hu2|lia|lia|by exists u3].
  intros Hne. destruct (Hfr2 Hne) as [Hx|Hx]; destruct (p_path p), (p_query p); done.
Qed.

Lemma loop_url p u : parts_ok p -> Z.of_nat (length (url_of p)) < 65536 -> length (field_data u) = 7%nat ->
  exists u', url_loop (url_of p) 0 s_req_spaces_before_url None false (mkUrl 0 0 (field_data u)) =
    Ret (Some (match p_user p with Some _ => true | None => false end, u')) /\ shows u' (loop_fields p).
Proof.
  intros Hp Hn Hd. pose proof (run_authority p Hp) as Ra. pose proof Hp as [[Hs Hse] _ [_ Hhe] _ _ _ _]. set (fa := match p_user p with Some _ => true | None => false end) in *.
  assert (Hae : authority p <> []) by (unfold authority; intros [_ [E _]%app_nil]%app_nil; done).
  assert (Hsz : Z.of_nat (length (p_schema p)) + 3 + Z.of_nat (length (authority p)) < 65536).
  { rewrite url_size in Hn. unfold fragment_at, query_at, path_at, host_at in Hn. pose proof (sep_size_pos (p_path p)). pose proof (sep_size_pos (p_query p)). pose proof (sep_size_pos (p_fragment p)). lia. }
  pose proof (run_class IS_ALPHA UF_SCHEMA s_req_spaces_before_url s_req_schema false (p_schema p) ltac:(by vm_compute) ltac:(by vm_compute) eq_refl ltac:(done) Hs) as Rs.
  assert (Rs' : run UF_SCHEMA s_req_spaces_before_url false (p_schema p) s_req_schema false) by (by destruct (p_schema p)).
  assert (Hu0 : shows (mkUrl 0 0 (field_data u)) (fun _ => None)) by (split; [by split|]; intros f; unfold view, has_field; cbn [field_set]; by rewrite Z.testbit_0_l).
  unfold url_of. set (tl := with_sep [SLASH] [] (p_path p) ++ with_sep [QUESTION] [] (p_query p) ++ with_sep [HASH] [] (p_fragment p)).
  destruct (loop_run UF_SCHEMA s_req_spaces_before_url false (p_schema p) s_req_schema false ([COLON; SLASH; SLASH] ++ authority p ++ tl) 0 None _ _ Rs' Hse ltac:(done) Hu0)
    as (u1 & E1 & Hu1); [lia|lia|]. rewrite E1. cbn [app].
  rewrite (loop_delim s_req_schema s_req_schema_slash), (loop_delim s_req_schema_slash s_req_schema_slash_slash), (loop_delim s_req_schema_slash_slash s_req_server_start) by done.
  replace (0 + Z.of_nat (length (p_schema p)) + 1 + 1 + 1) with (host_at p) by (unfold host_at; lia).
  destruct (loop_run UF_HOST s_req_server_start false (authority p) s_req_server fa tl (host_at p) (Some UF_SCHEMA) u1 _ Ra Hae ltac:(done) Hu1) as (u2 & E2 & Hu2); [unfold host_at; lia..|].
  rewrite E2. fold (path_at p). apply (loop_tail p fa u2 _ Hp Hn Hu2).
Qed.

(** *** The loop over the authority *)
Definition host_to (P : Z -> bool) (s s' : http_host_state) : bool :=
  forallb (fun n => implb (P (Z.of_nat n)) (bool_decide (http_parse_host_char s (Z.of_nat n) = s'))) (seq 0 256).

Lemma host_to_char P s s' c : host_to P s s' = true -> is_byte c -> P c = true -> http_parse_host_char s c = s'.
Proof.
  intros H Hc HP. pose proof (byte_check (fun b => implb (P b) (bool_decide (http_parse_host_char s b = s'))) H c Hc) as E. cbn beta in E. rewrite HP in E.
  by apply bool_decide_eq_true in E.
Qed.

Lemma host_rest P st uf l rest i u m o len : host_to P st st = true -> st <> s_http_host_dead -> (forall i u, host_char st st i u = inc_len uf u) ->
  all_in P l -> shows u m -> m uf = Some (o, len) -> 0 <= len -> len + Z.of_nat (length l) < 65536 ->
  exists u', host_loop (l ++ rest) i st u = host_loop rest (i + Z.of_nat (length l)) st u' /\ shows u' (upd_field uf (o, len + Z.of_nat (length l)) m).
Proof.
  intros Ht Hd Hc Hl. revert i u m len. induction Hl as [|c l [Hb HP] Hl IH]; intros i u m len Hu Hm H0 Hn; cbn [app length host_loop] in *.
  { exists u. rewrite !Z.add_0_r. split; [done|]. apply (shows_ext u m); [done|]. intros f. by rewrite upd_same. }
  rewrite (host_to_char P st st) by done. rewrite decide_False, Hc by done. pose proof (shows_inc u m uf o len Hu Hm ltac:(lia)) as Hu1.
  destruct (IH (i + 1) (inc_len uf u) _ (len + 1) Hu1) as (u' & E & Hu'); [unfold upd_field; by rewrite decide_True|lia|lia|].
  exists u'. replace (i + Z.of_nat (S (length l))) with (i + 1 + Z.of_nat (length l)) by lia. split; [exact E|].
  eapply shows_ext; [exact Hu'|]. intros f. rewrite upd_twice. by replace (len + 1 + Z.of_nat (length l)) with (len + Z.of_nat (S (length l))) by lia.
Qed.

(** A field that begins here. *)
Lemma host_run P s st uf l rest i u m : host_to P s st = true -> host_to P st st = true -> st <> s_http_host_dead -> (forall i u, host_char st st i u = inc_len uf u) ->
  all_in P l -> l <> [] -> shows (host_char s st i u) (upd_field uf (i, 1) m) -> Z.of_nat (length l) < 65536 ->
  exists u', host_loop (l ++ rest) i s u = host_loop rest (i + Z.of_nat (length l)) st u' /\ shows u' (upd_field uf (i, Z.of_nat (length l)) m).
Proof.
  intros H1 H2 Hd Hc Hl Hne Hu Hn. destruct Hl as [|c l [Hb HP] Hl]; [done|]. cbn [app length host_loop] in *. rewrite (host_to_char P s st) by done. rewrite decide_False by done.
  destruct (host_rest P st uf l rest (i + 1) _ _ i 1 H2 Hd Hc Hl Hu) as (u' & E & Hu'); [unfold upd_field; by rewrite decide_True|lia|lia|].
  exists u'. replace (i + Z.of_nat (S (length l))) with (i + 1 + Z.of_nat (length l)) by lia. split; [exact E|].
  eapply shows_ext; [exact Hu'|]. intros f. rewrite upd_twice. by replace (1 + Z.of_nat (length l)) with (Z.of_nat (S (length l))) by lia.
Qed.

Lemma shows_begin u m uf i : shows u m -> 0 <= i < 65536 -> shows (inc_len uf (add_field_bit uf (set_len uf 0 (set_off uf i u)))) (upd_field uf (i, 1) m).
Proof.
  intros Hu Hi. eapply shows_ext; [apply (shows_inc _ (upd_field uf (i, 0) m) uf i 0); [apply shows_start; (done || lia)|unfold upd_field; by rewrite decide_True|lia]|].
  intros f. apply upd_twice.
Qed.
Lemma shows_move u m uf o i : shows u m -> m uf = Some (o, 0) -> 0 <= i < 65536 -> shows (inc_len uf (set_off uf i u)) (upd_field uf (i, 1) m).
Proof.
  intros [Hu Hm] Ho Hi. assert (Hs : shows (set_off uf i u) (upd_field uf (i, 0) m)).
  { split; [auto|]. intros f. rewrite view_off by done. unfold upd_field. destruct (decide (f = uf)) as [->|]; rewrite Hm; [by rewrite Ho|done]. }
  eapply shows_ext; [apply (shows_inc _ (upd_field uf (i, 0) m) uf i 0 Hs); [unfold upd_field; by rewrite decide_True|lia]|]. intros f. apply upd_twice.
Qed.

Lemma host_user o rest i u m : some_of IS_USERINFO_CHAR o -> shows u m -> 0 <= i -> i + Z.of_nat (length (with_sep [] [AT] o)) < 65536 ->
  exists u', host_loop (with_sep [] [AT] o ++ rest) i (if match o with Some _ => true | None => false end then s_http_userinfo_start else s_http_host_start) u =
      host_loop rest (i + Z.of_nat (length (with_sep [] [AT] o))) s_http_host_start u' /\ shows u' (opt_field UF_USERINFO o i 0 m).
Proof.
  intros Ho Hu H0 Hn. destruct o as [l|]; cbn [with_sep app opt_field] in *; [|exists u; by rewrite Z.add_0_r]. destruct Ho as [Hl Hne]. rewrite length_app in *. cbn [length] in *.
  rewrite <- app_assoc. destruct (host_run IS_USERINFO_CHAR s_http_userinfo_start s_http_userinfo UF_USERINFO l ([AT] ++ rest) i u m) as (u' & E & Hu');
    [by vm_compute|by vm_compute|done|done|done|done|apply shows_begin; [done|lia]|lia|].
  exists u'. rewrite E. cbn [app host_loop]. rewrite decide_False by done. split; [|by rewrite Z.add_0_l]. cbn [host_char]. f_equal. lia.
Qed.

Lemma host_port o rest i u m : some_of IS_NUM o -> shows u m -> 0 <= i -> i + sep_size o < 65536 ->
  exists u', host_loop (with_sep [COLON] [] o ++ rest) i s_http_host u = host_loop rest (i + sep_size o) (match o with Some _ => s_http_host_port | None => s_http_host end) u' /\
    shows u' (opt_field UF_PORT o (i + 1) 0 m).
Proof.
  unfold sep_size. intros Ho Hu H0 Hn. destruct o as [l|]; cbn [with_sep app opt_field length] in *; [|exists u; by rewrite Z.add_0_r]. destruct Ho as [Hl Hne]. rewrite app_nil_r in *.
  cbn [host_loop]. rewrite decide_False by done. change (http_parse_host_char s_http_host COLON) with s_http_host_port_start. cbn [host_char].
  destruct (host_run IS_NUM s_http_host_port_start s_http_host_port UF_PORT l rest (i + 1) u m) as (u' & E & Hu');
    [by vm_compute|by vm_compute|done|done|done|done|apply shows_begin; [done|lia]|lia|].
  exists u'. rewrite E. split; [f_equal; lia|by rewrite Z.add_0_l].
Qed.

Definition name_at (p : parts) : Z := host_at p + Z.of_nat (length (with_sep [] [AT] (p_user p))).
Definition port_at (p : parts) : Z := name_at p + Z.of_nat (length (p_host p)).

(** The fields of an accepted URL. *)
Definition final_fields (p : parts) : fields :=
  opt_field UF_PORT (p_port p) (port_at p + 1) 0 (upd_field UF_HOST (name_at p, Z.of_nat (length (p_host p)))
    (opt_field UF_USERINFO (p_user p) (host_at p) 0 (upd_field UF_HOST (host_at p, 0) (loop_fields p)))).

Lemma host_authority p u m : parts_ok p -> Z.of_nat (length (url_of p)) < 65536 -> shows u m -> m UF_HOST = Some (host_at p, 0) ->
  exists u' s, host_loop (authority p) (host_at p) (if match p_user p with Some _ => true | None => false end then s_http_userinfo_start else s_http_host_start) u = Some (s, u') /\
    host_end s = true /\ shows u' (opt_field UF_PORT (p_port p) (port_at p + 1) 0 (upd_field UF_HOST (name_at p, Z.of_nat (length (p_host p))) (opt_field UF_USERINFO (p_user p) (host_at p) 0 m))).
Proof.
  intros [_ Hus [Hh Hhe] [Hpo _] _ _ _] Hn Hu Hm.
  assert (Hsz : host_at p + Z.of_nat (length (with_sep [] [AT] (p_user p))) + Z.of_nat (length (p_host p)) + sep_size (p_port p) < 65536 /\ 0 <= sep_size (p_port p) /\ 0 <= host_at p).
  { rewrite url_size in Hn. unfold fragment_at, query_at, path_at, authority in Hn. rewrite !length_app in Hn. pose proof (sep_size_pos (p_path p)). pose proof (sep_size_pos (p_query p)).
    pose proof (sep_size_pos (p_fragment p)). assert (E : length (with_sep [COLON] [] (p_port p)) = length (with_sep [0] [] (p_port p))) by (by destruct (p_port p)).
    unfold sep_size in *. unfold host_at in *. lia. }
  destruct Hsz as (Hsz & Hpp & Hhp). unfold port_at, name_at. unfold authority.
  destruct (host_user (p_user p) (p_host p ++ with_sep [COLON] [] (p_port p)) (host_at p) u m Hus Hu Hhp) as (u1 & -> & Hu1); [lia|].
  destruct (host_run IS_HOST_CHAR s_http_host_start s_http_host UF_HOST (p_host p) (with_sep [COLON] [] (p_port p)) (host_at p + Z.of_nat (length (with_sep [] [AT] (p_user p)))) u1
    (opt_field UF_USERINFO (p_user p) (host_at p) 0 m)) as (u2 & -> & Hu2); [by vm_compute|by vm_compute|done|done|done|done| |lia|].
  { apply (shows_move u1 _ UF_HOST (host_at p)); [exact Hu1| |lia]. destruct (p_user p); [|done]. cbn [opt_field]. unfold upd_field. by rewrite decide_False. }
  rewrite <- (app_nil_r (with_sep [COLON] [] (p_port p))).
  destruct (host_port (p_port p) [] (host_at p + Z.of_nat (length (with_sep [] [AT] (p_user p))) + Z.of_nat (length (p_host p))) u2
    (upd_field UF_HOST (host_at p + Z.of_nat (length (with_sep [] [AT] (p_user p))), Z.of_nat (length (p_host p))) (opt_field UF_USERINFO (p_user p) (host_at p) 0 m))) as (u3 & -> & Hu3);
    [done|exact Hu2|lia|lia|]. exists u3, (match p_port p with Some _ => s_http_host_port | None => s_http_host end). split; [done|]. split; [by destruct (p_port p)|exact Hu3].
Qed.

(** *** The whole URL *)
Lemma has_view u m f : shows u m -> has_field f u = bool_decide (is_Some (m f)).
Proof. intros [_ Hm]. rewrite <- Hm. unfold view. destruct (has_field f u); symmetry; [by apply bool_decide_true|apply bool_decide_false; by intros [? ?]]. Qed.
Lemma at_view u m f v : shows u m -> m f = Some v -> field_at f u = v.
Proof. intros [_ Hm] E. rewrite <- Hm in E. unfold view in E. destruct (has_field f u); congruence. Qed.

Lemma strtoul_digits_number l c rest a : Forall digit l -> IS_NUM c = false -> strtoul_digits (l ++ c :: rest) a = Ret (Z.min (number a l) ULLONG_MAX).
Proof.
  intros Hl Hc. revert a. induction Hl as [|d l Hd Hl IH]; intros a; cbn [app strtoul_digits]; [by rewrite Hc|]. rewrite digit_num by done. apply IH.
Qed.
Lemma strtoul_number l c rest : Forall digit l -> l <> [] -> IS_NUM c = false -> number 0 l <= 65535 -> strtoul (l ++ c :: rest) = Ret (number 0 l).
Proof.
  intros Hl Hne Hc Hn. pose proof (strtoul_digits_number l c rest 0 Hl Hc) as E. destruct Hl as [|d l Hd Hl]; [done|]. cbn [app strtoul].
  unfold digit in Hd. assert (isspace d = false) as -> by (unfold isspace; lia). rewrite (proj2 (Z.eqb_neq d MINUS)), (proj2 (Z.eqb_neq d 43)) by lia.
  change (d :: l ++ c :: rest) with ((d :: l) ++ c :: rest). rewrite E. f_equal. unfold ULLONG_MAX. lia.
Qed.
Lemma num_digits l : all_in IS_NUM l -> Forall digit l.
Proof. intros Hl. eapply Forall_impl; [exact Hl|]. intros b [_ Hb]. unfold IS_NUM in Hb. unfold digit. lia. Qed.

Lemma url_split p : url_of p = (p_schema p ++ [COLON; SLASH; SLASH]) ++ authority p ++ with_sep [SLASH] [] (p_path p) ++ with_sep [QUESTION] [] (p_query p) ++ with_sep [HASH] [] (p_fragment p).
Proof. unfold url_of. by rewrite <- app_assoc. Qed.

(** What follows the authority is not a digit. *)
Lemma after_authority p rest : parts_ok p -> exists c tl,
  (with_sep [SLASH] [] (p_path p) ++ with_sep [QUESTION] [] (p_query p) ++ with_sep [HASH] [] (p_fragment p)) ++ 0 :: rest = c :: tl /\ IS_NUM c = false.
Proof.
  intros [_ _ _ _ _ _ [_ Hf]]. destruct (p_path p); [by eexists _, _|]. destruct (p_query p); [by eexists _, _|]. destruct (p_fragment p); [|by eexists _, _].
  destruct Hf as [Hx|Hx]; done.
Qed.

Lemma parse_authority p u rest : parts_ok p -> Z.of_nat (length (url_of p)) < 65536 -> shows u (loop_fields p) ->
  exists u', http_parse_host (url_of p ++ 0 :: rest) u (match p_user p with Some _ => true | None => false end) = Ret (Some u') /\ shows u' (final_fields p).
Proof.
  intros Hp Hn Hu. assert (Hm : loop_fields p UF_HOST = Some (host_at p, Z.of_nat (length (authority p)))).
  { unfold loop_fields. destruct (p_fragment p), (p_query p), (p_path p); reflexivity. }
  unfold http_parse_host. rewrite (at_view u _ UF_HOST _ Hu Hm), (has_view u _ UF_HOST Hu), Hm. rewrite bool_decide_true by done. cbn [negb].
  assert (Hl : host_at p = Z.of_nat (length (p_schema p ++ [COLON; SLASH; SLASH]))) by (unfold host_at; rewrite length_app; cbn; lia).
  rewrite (proj2 (Nat.ltb_ge _ _)) by (rewrite url_split, Hl, !length_app; lia).
  assert (Et : take (Z.to_nat (Z.of_nat (length (authority p)))) (drop (Z.to_nat (host_at p)) (url_of p ++ 0 :: rest)) = authority p).
  { rewrite url_split, Hl, !Nat2Z.id, <- !app_assoc. change (p_schema p ++ [COLON; SLASH; SLASH] ++ ?x) with (p_schema p ++ [COLON; SLASH; SLASH] ++ x).
    rewrite (app_assoc (p_schema p)), drop_app_length, take_app_length. done. }
  rewrite Et. assert (Hu0 : shows (set_len UF_HOST 0 u) (upd_field UF_HOST (host_at p, 0) (loop_fields p))).
  { destruct Hu as [Hok Hv]. split; [auto|]. intros f. rewrite view_len by (done || lia). unfold upd_field. rewrite Hv. destruct (decide (f = UF_HOST)) as [->|]; [by rewrite Hm|done]. }
  destruct (host_authority p _ _ Hp Hn Hu0) as (u' & s & E & He & Hu'); [done|]. rewrite E, He. by exists u'.
Qed.

Lemma getField_slice buf u m f pre x post : shows u m -> m f = Some (Z.of_nat (length pre), Z.of_nat (length x)) -> buf = pre ++ x ++ post -> getField buf u f = Ret x.
Proof.
  intros Hu Hm ->. unfold getField. rewrite (has_view u m f Hu), Hm, bool_decide_true, (at_view u m f _ Hu Hm) by done.
  rewrite (proj2 (Nat.ltb_ge _ _)) by (rewrite !length_app; lia). by rewrite !Nat2Z.id, drop_app_length, take_app_length.
Qed.
Lemma getField_none buf u m f : shows u m -> m f = None -> getField buf u f = Ret [].
Proof. intros Hu Hm. unfold getField. rewrite (has_view u m f Hu), Hm. by rewrite bool_decide_false by (by intros [? ?]). Qed.

(** The part of a URL that is reported as a field. *)
Definition part (p : parts) (f : http_parser_url_fields) : list Z :=
  match f with
  | UF_SCHEMA => p_schema p
  | UF_HOST => p_host p
  | UF_PORT => default [] (p_port p)
  | UF_PATH => with_sep [SLASH] [] (p_path p)
  | UF_QUERY => default [] (p_query p)
  | UF_FRAGMENT => default [] (p_fragment p)
  | UF_USERINFO => default [] (p_user p)
  end.

(** What comes before it. *)
Definition before (p : parts) (f : http_parser_url_fields) : list Z :=
  let sep := p_schema p ++ [COLON; SLASH; SLASH] in
  match f with
  | UF_SCHEMA => []
  | UF_USERINFO => sep
  | UF_HOST => sep ++ with_sep [] [AT] (p_user p)
  | UF_PORT => (sep ++ with_sep [] [AT] (p_user p) ++ p_host p) ++ [COLON]
  | UF_PATH => sep ++ authority p
  | UF_QUERY => (sep ++ authority p ++ with_sep [SLASH] [] (p_path p)) ++ [QUESTION]
  | UF_FRAGMENT => (sep ++ authority p ++ with_sep [SLASH] [] (p_path p) ++ with_sep [QUESTION] [] (p_query p)) ++ [HASH]
  end.
Definition set_in (p : parts) (f : http_parser_url_fields) : bool :=
  match f with
  | UF_SCHEMA | UF_HOST => true
  | UF_PORT => bool_decide (p_port p <> None) | UF_PATH => bool_decide (p_path p <> None) | UF_QUERY => bool_decide (p_query p <> None)
  | UF_FRAGMENT => bool_decide (p_fragment p <> None) | UF_USERINFO => bool_decide (p_user p <> None)
  end.

Lemma final_at p f : final_fields p f =
  match f with
  | UF_SCHEMA => Some (0, Z.of_nat (length (p_schema p)))
  | UF_HOST => Some (name_at p, Z.of_nat (length (p_host p)))
  | UF_PORT => (fun l => (port_at p + 1, Z.of_nat (length l))) <$> p_port p
  | UF_PATH => (fun l => (path_at p, 1 + Z.of_nat (length l))) <$> p_path p
  | UF_QUERY => (fun l => (query_at p + 1, Z.of_nat (length l))) <$> p_query p
  | UF_FRAGMENT => (fun l => (fragment_at p + 1, Z.of_nat (length l))) <$> p_fragment p
  | UF_USERINFO => (fun l => (host_at p, Z.of_nat (length l))) <$> p_user p
  end.
Proof.
  unfold final_fields, loop_fields. generalize (host_at p), (name_at p), (port_at p), (path_at p), (query_at p), (fragment_at p), (Z.of_nat (length (authority p))). intros.
  destruct p as [sc us ho po pa qu fr]. cbn [p_schema p_user p_host p_port p_path p_query p_fragment]. destruct f, us, po, pa, qu, fr; reflexivity.
Qed.

Lemma sep_len d o : Z.of_nat (length (with_sep [d] [] o)) = sep_size o.
Proof. by destruct o. Qed.

Lemma before_at p f : Z.of_nat (length (before p f)) =
  match f with UF_SCHEMA => 0 | UF_HOST => name_at p | UF_PORT => port_at p + 1 | UF_PATH => path_at p | UF_QUERY => query_at p + 1 | UF_FRAGMENT => fragment_at p + 1 | UF_USERINFO => host_at p end.
Proof.
  pose proof (sep_len SLASH (p_path p)) as E1. pose proof (sep_len QUESTION (p_query p)) as E2.
  destruct f; cbn [before]; unfold port_at, name_at, fragment_at, query_at, path_at, host_at; rewrite ?length_app; cbn [length]; lia.
Qed.

Lemma url_before p f : set_in p f = true -> exists post, url_of p = before p f ++ part p f ++ post.
Proof.
  destruct p as [sc us ho po pa qu fr]. unfold url_of, authority. destruct f; cbn [set_in part before p_schema p_user p_host p_port p_path p_query p_fragment].
  1, 2: intros _.
  3-7: intros Hs%bool_decide_eq_true.
  - by eexists.
  - exists (with_sep [COLON] [] po ++ with_sep [SLASH] [] pa ++ with_sep [QUESTION] [] qu ++ with_sep [HASH] [] fr). by rewrite <- !app_assoc.
  - destruct po as [l|]; [|done]. exists (with_sep [SLASH] [] pa ++ with_sep [QUESTION] [] qu ++ with_sep [HASH] [] fr). cbn. rewrite <- !app_assoc. cbn. by rewrite app_nil_r.
  - destruct pa as [l|]; [|done]. exists (with_sep [QUESTION] [] qu ++ with_sep [HASH] [] fr). unfold authority. cbn. by rewrite <- !app_assoc.
  - destruct qu as [l|]; [|done]. exists (with_sep [HASH] [] fr). unfold authority. cbn. rewrite <- !app_assoc. cbn. by rewrite <- ?app_assoc.
  - destruct fr as [l|]; [|done]. exists []. unfold authority. cbn. rewrite <- !app_assoc. cbn. by rewrite ?app_nil_r.
  - destruct us as [l|]; [|done]. exists ([AT] ++ ho ++ with_sep [COLON] [] po ++ with_sep [SLASH] [] pa ++ with_sep [QUESTION] [] qu ++ with_sep [HASH] [] fr). cbn. by rewrite <- !app_assoc.
Qed.

Lemma getField_part p u rest f : shows u (final_fields p) -> getField (url_of p ++ 0 :: rest) u f = Ret (part p f).
Proof.
  intros Hu. destruct (set_in p f) eqn:Es.
  - destruct (url_before p f Es) as (post & E). eapply (getField_slice _ u _ f (before p f) (part p f) (post ++ 0 :: rest) Hu); [|by rewrite E, <- !app_assoc].
    rewrite final_at, before_at. destruct f; cbn [part set_in] in *; try done; apply bool_decide_eq_true in Es.
    + by destruct (p_port p).
    + destruct (p_path p) as [l|]; [|done]. cbn. rewrite app_nil_r. do 2 f_equal. lia.
    + by destruct (p_query p).
    + by destruct (p_fragment p).
    + by destruct (p_user p).
  - assert (H : final_fields p f = None /\ part p f = []).
    { rewrite final_at. destruct f; cbn [part set_in] in *; try done; apply bool_decide_eq_false in Es.
      - destruct (p_port p); [by destruct Es|done].
      - destruct (p_path p); [by destruct Es|done].
      - destruct (p_query p); [by destruct Es|done].
      - destruct (p_fragment p); [by destruct Es|done].
      - destruct (p_user p); [by destruct Es|done]. }
    destruct H as [H ->]. by apply (getField_none _ u (final_fields p)).
Qed.

Definition port_number (p : parts) : Z := match p_port p with Some l => number 0 l | None => 0 end.

Lemma parse_parts p rest u : parts_ok p -> Z.of_nat (length (url_of p)) < 65536 -> length (field_data u) = 7%nat ->
  exists u', http_parser_parse_url (url_of p ++ 0 :: rest) (length (url_of p)) false u = Ret (Some u') /\
    (forall f, getField (url_of p ++ 0 :: rest) u' f = Ret (part p f)) /\ port u' = port_number p.
Proof.
  intros Hp Hn Hd. unfold http_parser_parse_url. rewrite (proj2 (Nat.ltb_ge _ _)) by (rewrite length_app; lia). rewrite take_app_length.
  destruct (loop_url p u Hp Hn Hd) as (u1 & -> & Hu1). cbn [res_bind].
  assert (Hh : has_field UF_HOST u1 = true).
  { rewrite (has_view u1 _ _ Hu1). apply bool_decide_true. unfold loop_fields. destruct (p_fragment p), (p_query p), (p_path p); by eexists. }
  rewrite Hh, andb_false_r. destruct (parse_authority p u1 rest Hp Hn Hu1) as (u2 & -> & Hu2). cbn [res_bind andb].
  rewrite (has_view u2 _ UF_PORT Hu2). pose proof (fun f => getField_part p u2 rest f Hu2) as Hg. pose proof (final_at p UF_PORT) as Hfp. unfold port_number.
  destruct (p_port p) as [l|] eqn:Ep; cbn in Hfp.
  - rewrite bool_decide_true by (by rewrite Hfp). rewrite (at_view u2 _ _ _ Hu2 Hfp). cbn [fst].
    destruct (po_port _ Hp) as [Hl Hle]. rewrite Ep in Hl, Hle. destruct Hl as [Hl Hne]. specialize (Hle l eq_refl). destruct (after_authority p rest Hp) as (c & tl & Etl & Hc).
    assert (E : drop (Z.to_nat (port_at p + 1)) (url_of p ++ 0 :: rest) = l ++ c :: tl).
    { assert (Eu : url_of p ++ 0 :: rest = before p UF_PORT ++ l ++ c :: tl).
      { rewrite url_split, <- Etl. unfold authority. rewrite Ep. cbn [with_sep before]. rewrite app_nil_r, <- !app_assoc. cbn [app]. by rewrite <- ?app_assoc. }
      by rewrite Eu, <- (before_at p UF_PORT), Nat2Z.id, drop_app_length. }
    rewrite E, strtoul_number by (done || by apply num_digits). cbn [res_bind]. rewrite (proj2 (Z.ltb_ge _ _)) by lia.
    eexists. split; [done|]. split; [exact Hg|]. cbn. apply u16_id. split; [|lia]. apply (number_ge 0); [lia|by apply num_digits].
  - rewrite bool_decide_false by (rewrite Hfp; by intros [? ?]). eexists. split; [done|]. split; [exact Hg|]. apply (uo_port _ (proj1 Hu2)).
Qed.


Definition sample_parts : parts := mkParts (bytes "http") (Some (bytes "me")) (bytes "x.org") (Some (bytes "8080")) (Some (bytes "a/b")) (Some (bytes "q=1")) None.

