(* ===== verification/WsSession.v ===== *)
(** * The websocket decoder: handshake and frames

    Models [RFC6455Decoder] of [src/src/http/WsCodec.cpp]: an HTTP upgrade request
    read with [http::Parser], then frames read with the parser of [WsCodec], and
    the response of the handshake with its encoder. *)

From S2P Require Import Prelude IOBufQueue StreamAdapter Crypto Sha1 WsParser WsCodec HttpSyntax HttpExec HttpMessage HttpEncode HttpSafe HttpCuts HttpDecode HttpBytes.
From S2P Require Import HttpRoundtrip.
Local Open Scope cpp_scope.
Local Open Scope Z_scope.

(** ** Frames and their codec *)

(** [status_], which nothing reads, is left out. *)
(** [src/include/futures/http/WsCodec.h:56-58] DataFrame *)
Record DataFrame := mkData { type_ : type_t; handshake : option HttpFrame; data_ : list Z }.

(** [src/include/futures/http/WsCodec.h:74-77] RFC6455Decoder::State *)
Inductive State := HANDSHAKING | STREAMING.
#[global] Instance State_eq_dec : EqDecision State.
Proof. solve_decision. Defined.

(** [impl_] is the frame parser and its assembler. *)
(** [src/include/futures/http/WsCodec.h:79-82] RFC6455Decoder *)
Record Decoder := mkDecoder { s_ : State; handshake_ : HttpMessage.Parser; ws_ : ws_parser; impl_ : WsCodec.Parser }.

(** The memory of the two parsers is not initialised by their constructors. *)
(** [src/src/http/WsCodec.cpp:120-123] RFC6455Decoder::RFC6455Decoder *)
Definition new_decoder (junk_p : ws_parser) (junk_data junk_control : Z) : Decoder :=
  mkDecoder HANDSHAKING (new_parser true false) (ws_parser_init junk_p) (WsCodec.mkParser [] junk_data [] junk_control []).

(** [src/src/http/WsCodec.cpp:125-133] upgradeToWebsocket *)
Definition upgradeToWebsocket (req : HttpFrame) : bool :=
  bool_decide (headers req !! bytes "Upgrade" = Some (bytes "websocket")) &&
  bool_decide (headers req !! bytes "Sec-WebSocket-Version" = Some (bytes "13")).

(** [src/src/http/ws_parser.c:300-308] ws_parser_error *)
Definition ws_parser_error (rc : Z) : option string :=
  if rc =? WS_OK then Some "WS_OK"%string else if rc =? WS_RESERVED_BITS_SET then Some "WS_RESERVED_BITS_SET"%string else
  if rc =? WS_INVALID_OPCODE then Some "WS_INVALID_OPCODE"%string else if rc =? WS_INVALID_CONTINUATION then Some "WS_INVALID_CONTINUATION"%string else
  if rc =? WS_CONTROL_TOO_LONG then Some "WS_CONTROL_TOO_LONG"%string else if rc =? WS_NON_CANONICAL_LENGTH then Some "WS_NON_CANONICAL_LENGTH"%string else
  if rc =? WS_FRAGMENTED_CONTROL then Some "WS_FRAGMENTED_CONTROL"%string else None.

Definition set_s (s : State) (d : Decoder) : Decoder := mkDecoder s (handshake_ d) (ws_ d) (impl_ d).
Definition set_handshake (h : HttpMessage.Parser) (d : Decoder) : Decoder := mkDecoder (s_ d) h (ws_ d) (impl_ d).
Definition set_impl (p : ws_parser) (s : WsCodec.Parser) (d : Decoder) : Decoder := mkDecoder (s_ d) (handshake_ d) p s.

Definition outcome : Type := res (option DataFrame) * Decoder * list (list Z).

(** [return impl_->pollFrame();] *)
Definition poll (d : Decoder) (rest : list (list Z)) : outcome :=
  let '(r, s) := pollFrame (impl_ d) in
  (let! f := r in Ret ((fun f => mkData (fst f) None (snd f)) <$> f), set_impl (ws_ d) s d, rest).

(** [src/src/http/WsCodec.cpp:141-153] RFC6455Decoder::decode, handshaking; [None]: go on *)
Definition handshaking (d : Decoder) (front : list Z) : option (res (option DataFrame)) * Decoder :=
  match HttpMessage.execute front (handshake_ d) with
  | Ret (nparsed, h) =>
      let d := set_handshake h d in
      if upgrade (parser_ h) then
        if negb (upgradeToWebsocket (req_ (self_ h))) then (Some (Throw (IOError "unsupported")), d)
        else let '(f, h) := moveResult h in (Some (Ret (Some (mkData HANDSHAKE (Some f) []))), set_handshake h (set_s STREAMING d))
      else if negb (bool_decide (nparsed = length front)) then (Some (Throw (IOError "invalid http request")), d)
      else if completed_ (self_ h) then (Some (Throw (IOError "must be websocket upgrade request")), d)
      else (None, d)
  | Throw e => (Some (Throw e), d)
  | Abort a => (Some (Abort a), d)
  | OutOfFuel => (Some OutOfFuel, d)
  end.

(** [src/src/http/WsCodec.cpp:154-161] RFC6455Decoder::decode, streaming; [None]: go on *)
Definition streaming (d : Decoder) (front : list Z) : option (res (option DataFrame)) * Decoder :=
  match WsCodec.execute (ws_ d) (impl_ d) front with
  | Some (rc, p, s) =>
      let d := set_impl p s d in
      if negb (rc =? WS_OK) then
        (Some (match ws_parser_error rc with
               | Some e => Throw (IOError ("invalid ws data frame: " +:+ e))
               | None => Abort "null string"
               end), d)
      else if hasData s then let '(r, d, _) := poll d [] in (Some r, d)
      else (None, d)
  | None => (Some OutOfFuel, d)
  end.

(** [src/src/http/WsCodec.cpp:139-163] RFC6455Decoder::decode, loop *)
Fixpoint decode_loop (d : Decoder) (bufs : list (list Z)) : outcome :=
  match bufs with
  | [] => (Ret None, d, [])
  | front :: rest =>
      if no_bytes bufs then (Ret None, d, bufs) else
      match (match s_ d with HANDSHAKING => handshaking d front | STREAMING => streaming d front end) with
      | (Some r, d) => (r, d, rest)
      | (None, d) => decode_loop d rest
      end
  end.

(** [src/src/http/WsCodec.cpp:135-164] RFC6455Decoder::decode *)
Definition decode (d : Decoder) (bufs : list (list Z)) : outcome :=
  if hasData (impl_ d) then poll d bufs else decode_loop d bufs.

(** The key is at most 128 bytes; [mem] is the memory of the digest. *)
(** [src/src/http/WsCodec.cpp:177-191] DataFrame::buildHandshakeResponse *)
Definition buildHandshakeResponse (mem : list Z) (req : HttpFrame) : res DataFrame :=
  match headers req !! bytes "Sec-WebSocket-Key" with
  | None => Throw (std_invalid_argument "invalid Sec-WebSocket-Key")
  | Some key =>
      if (128 <? length key)%nat then Throw (std_invalid_argument "invalid Sec-WebSocket-Key") else
      let! accept := acceptKey mem key in
      let hm := <[bytes "Sec-WebSocket-Accept" := accept]> (<[bytes "Connection" := bytes "Upgrade"]> (<[bytes "Upgrade" := bytes "websocket"]> ∅)) in
      Ret (mkData HANDSHAKE_RESPONSE (Some (mkFrame HPE_OK 101 HTTP_DELETE 0 [] hm false [])) [])
  end.

(** The body of a response, in one buffer. *)
Definition body_queue (l : list Z) : IOBufQueue := append_buf (match l with [] => [] | _ => [mkBuf 0 l 0 true] end) false empty_queue.

(** [src/src/http/WsCodec.cpp:197-221] RFC6455Encoder::encode *)
Definition encode (create_room : nat -> nat) (hs : list (list Z * list Z)) (out : DataFrame) (buf : IOBufQueue) : res IOBufQueue :=
  match type_ out, handshake out with
  | HANDSHAKE_RESPONSE, Some r => response_encode create_room hs r (body_queue (body r)) buf
  | HANDSHAKE_RESPONSE, None => Abort "null dereference"
  | t, _ =>
      let! fsv := first_byte t in
      let! buf := appender_write create_room (N.to_nat 4000) fsv buf in
      let! buf := appender_writes create_room (N.to_nat 4000) (encodeLength (Z.of_nat (length (data_ out)))) buf in
      appender_push create_room (N.to_nat 4000) (data_ out) buf
  end.

(** ** Safety of the decoder *)

Record session_ok (d : Decoder) : Prop := {
  so_http : decoder_ok (handshake_ d);
  so_wf : wf (ws_ d);
  so_types : types_known (ws_ d) (impl_ d) }.

Lemma error_named rc : error_code rc -> exists e, ws_parser_error rc = Some e /\ rc <> WS_OK.
Proof.
  intros Hrc. assert (rc = -1 \/ rc = -2 \/ rc = -3 \/ rc = -4 \/ rc = -5 \/ rc = -6) as H by (unfold error_code in Hrc; lia).
  destruct H as [->|[->|[->|[->|[->| ->]]]]]; by eexists.
Qed.

(** A decoder that may go on: [r] is not an error. *)
Definition step_ok {A} (r : res A) (d : Decoder) : Prop := io_error r /\ (forall a, r = Ret a -> session_ok d).

(** The type [pollFrame] gives to a frame. *)
Definition frame_type (op : Z) : type_t :=
  if op =? WS_FRAME_TEXT then TEXT else if op =? WS_FRAME_BINARY then BINARY else
  if op =? WS_FRAME_CLOSE then CLOSE else if op =? WS_FRAME_PING then PING else PONG.
Definition data_frame (f : Z * list Z) : DataFrame := mkData (frame_type (fst f)) None (snd f).

Definition requeue (q : list (Z * list Z)) (s : WsCodec.Parser) : WsCodec.Parser :=
  WsCodec.mkParser (cur_data_ s) (cur_data_type_ s) (cur_control_ s) (cur_control_type_ s) q.

Lemma poll_known d rest f q : q_ (impl_ d) = f :: q -> known (fst f) = true ->
  poll d rest = (Ret (Some (data_frame f)), set_impl (ws_ d) (requeue q (impl_ d)) d, rest).
Proof.
  destruct f as [op data]. intros E Hop. unfold poll, pollFrame, data_frame, frame_type. rewrite E. cbn [fst snd] in *. unfold known, is_data, is_control in Hop.
  destruct (op =? WS_FRAME_TEXT); [done|]. destruct (op =? WS_FRAME_BINARY); [done|]. destruct (op =? WS_FRAME_CLOSE); [done|].
  destruct (op =? WS_FRAME_PING); [done|]. cbn in Hop. by rewrite Hop.
Qed.

Lemma poll_ok d rest : session_ok d -> hasData (impl_ d) = true -> exists r d', poll d rest = (r, d', rest) /\ step_ok r d' /\ r <> Ret None.
Proof.
  intros [Hh Hw [Hq Hf Hc]] Hd. unfold hasData in Hd. destruct (q_ (impl_ d)) as [|f q] eqn:E; [done|].
  apply Forall_cons in Hq as [Hop Hq]. rewrite (poll_known d rest f q E Hop). eexists _, _. split; [done|]. split; [|done]. split; [done|]. intros _ _.
  split; [done..|]. by split.
Qed.

Lemma handshaking_ok d front : session_ok d -> Forall is_byte front ->
  exists o d', handshaking d front = (o, d') /\ match o with Some r => step_ok r d' /\ r <> Ret None | None => session_ok d' end.
Proof.
  intros [Hh Hw Ht] Hb. unfold handshaking. destruct (execute_ok (handshake_ d) front Hh Hb) as (n & h & -> & Hh' & _).
  assert (Hs : session_ok (set_handshake h d)) by (by split). destruct (upgrade _); [destruct (upgradeToWebsocket _); cbn [negb]|destruct (negb _); [|destruct (completed_ _)]];
    try (eexists _, _; split; [done|]; first [done | split; [by split|done]]).
  pose proof (moveResult_ok _ Hh') as Hm. destruct (moveResult h) as [f h2]. eexists _, _. split; [done|]. split; [|done]. split; [done|]. intros _ _. by split.
Qed.

Lemma streaming_ok d front : session_ok d -> Forall is_byte front ->
  exists o d', streaming d front = (o, d') /\ match o with Some r => step_ok r d' /\ r <> Ret None | None => session_ok d' end.
Proof.
  intros [Hh Hw Ht] Hb. unfold streaming. destruct (execute_types _ _ _ Hw Ht Hb) as (rc & p & s & -> & [(-> & Hw' & Ht')|Hrc]).
  - cbn [Z.eqb WS_OK negb]. assert (Hs : session_ok (set_impl p s d)) by (by split). destruct (hasData s) eqn:E; [|by eexists _, _].
    destruct (poll_ok (set_impl p s d) [] Hs E) as (r & d' & -> & Hr). by eexists _, _.
  - destruct (error_named rc Hrc) as (e & -> & Hne). rewrite (proj2 (Z.eqb_neq rc WS_OK)) by done. by eexists _, _.
Qed.

Lemma decode_loop_ok d bufs : session_ok d -> Forall (Forall is_byte) bufs ->
  exists r d' rest, decode_loop d bufs = (r, d', rest) /\ step_ok r d' /\ Forall (Forall is_byte) rest /\ (r = Ret None -> no_bytes rest = true).
Proof.
  intros Hd Hb. revert d Hd. induction Hb as [|front bufs Hfr Hb IH]; intros d Hd; cbn [decode_loop]; [eexists _, _, _; split; [done|]; split; [by split|done]|].
  destruct (no_bytes (front :: bufs)) eqn:En; [eexists _, _, _; split; [done|]; split; [by split|]; split; [by constructor|done]|].
  assert (H : exists o d', match s_ d with HANDSHAKING => handshaking d front | STREAMING => streaming d front end = (o, d') /\
    match o with Some r => step_ok r d' /\ r <> Ret None | None => session_ok d' end) by (destruct (s_ d); [by apply handshaking_ok|by apply streaming_ok]).
  destruct H as (o & d' & -> & Ho). destruct o as [r|]; [|by apply IH]. destruct Ho as [Hr Hn]. by eexists _, _, _.
Qed.

Lemma session_decode_ok d bufs : session_ok d -> Forall (Forall is_byte) bufs ->
  exists r d' rest, decode d bufs = (r, d', rest) /\ step_ok r d' /\ Forall (Forall is_byte) rest /\ (r = Ret None -> no_bytes rest = true).
Proof.
  intros Hd Hb. unfold decode. destruct (hasData (impl_ d)) eqn:E; [|by apply decode_loop_ok].
  destruct (poll_ok d bufs Hd E) as (r & d' & -> & Hr & Hn). by eexists _, _, _.
Qed.

(** Decoders in use: from a new one, as long as decode does not throw. *)
Inductive session : Decoder -> Prop :=
| session_new junk_p junk_data junk_control : 0 <= bytes_remaining junk_p -> session (new_decoder junk_p junk_data junk_control)
| session_decode d bufs f d' rest : session d -> Forall (Forall is_byte) bufs -> decode d bufs = (Ret f, d', rest) -> session d'.

Lemma session_is_ok d : session d -> session_ok d.
Proof.
  induction 1 as [p a b Hp|d bufs f d' rest _ IH Hb E].
  - split; [apply new_parser_ok|by split|]. by split.
  - destruct (session_decode_ok d bufs IH Hb) as (r & d1 & rest1 & E' & [_ Hr] & _). rewrite E in E'. simplify_eq. by apply (Hr f).
Qed.

(** The websocket decoder is safe: at any time of a session, and for any
    buffers, decode returns a frame, takes the whole queue, or throws an IOError.
    It never fails an assertion, dereferences a null pointer, runs forever or
    throws anything else. *)
Theorem ws_decode_errors d bufs : session d -> Forall (Forall is_byte) bufs ->
  exists r d' rest, decode d bufs = (r, d', rest) /\ io_error r /\ (r = Ret None -> no_bytes rest = true).
Proof.
  intros Hd%session_is_ok Hb. destruct (session_decode_ok d bufs Hd Hb) as (r & d' & rest & E & [Hr _] & _ & Hn). by exists r, d', rest.
Qed.

Definition sample_junk : ws_parser := mkWs 7 1 2 3 4 true false true false 2 S_MASK_2.

Lemma ws_decode_errors_witness : exists r d' rest, decode (new_decoder sample_junk 5 6) [bytes "GET"; bytes " ?"] = (r, d', rest) /\ io_error r /\ (r = Ret None -> no_bytes rest = true).
Proof.
  apply (ws_decode_errors (new_decoder sample_junk 5 6) [bytes "GET"; bytes " ?"]); [apply session_new; done|]. vm_compute. repeat constructor; done.
Defined.

(** ** Frames in order *)

(** decode is called until it returns nothing. *)
Inductive delivers : Decoder -> list (list Z) -> list DataFrame -> Decoder -> Prop :=
| delivers_none d bufs d' : decode d bufs = (Ret None, d', []) -> delivers d bufs [] d'
| delivers_some d bufs f d1 rest fs d' : decode d bufs = (Ret (Some f), d1, rest) -> delivers d1 rest fs d' -> delivers d bufs (f :: fs) d'.

Definition streaming_at (h : HttpMessage.Parser) (p : ws_parser) (s : WsCodec.Parser) : Decoder := mkDecoder STREAMING h p s.

Lemma requeue_queued q q' s : q_ s = q ++ q' -> s = queued q (requeue q' s).
Proof. intros E. destruct s. cbn in *. by subst. Qed.

Lemma delivers_same d bufs d1 bufs1 fs d' : decode d bufs = decode d1 bufs1 -> delivers d1 bufs1 fs d' -> delivers d bufs fs d'.
Proof. intros E. inversion 1; subst; [apply delivers_none|eapply delivers_some; [|done]]; congruence. Qed.

Lemma feed_requeue p s bufs p' s' f q : q_ s = f :: q -> WsCodec.feed p s bufs = Some (WS_OK, p', s') ->
  WsCodec.feed p (requeue q s) bufs = Some (WS_OK, p', requeue (tail (q_ s')) s') /\ q_ s' = f :: tail (q_ s').
Proof.
  intros Eq E. rewrite (requeue_queued [f] q s Eq), feed_queued in E. destruct (WsCodec.feed p (requeue q s) bufs) as [[[rc p1] s1]|]; [|done].
  cbn in E. unfold with_queue in E. cbn in E. simplify_eq. destruct s1. done.
Qed.

(** Whatever is in the queue, or comes out of the buffers, is returned. *)
Lemma delivers_feed h bufs : Forall (fun b => b <> []) bufs -> forall p s p' s',
  WsCodec.feed p s bufs = Some (WS_OK, p', s') -> Forall (fun f => known (fst f) = true) (q_ s') ->
  delivers (streaming_at h p s) bufs (data_frame <$> q_ s') (streaming_at h p' (requeue [] s')).
Proof.
  induction 1 as [|b bufs Hb Hne IHb]; intros p s.
  - remember (q_ s) as q eqn:Eq. revert s Eq. induction q as [|f q IH]; intros s Eq p' s' [= <- <-] Hk.
    + rewrite <- Eq. apply delivers_none. unfold decode, hasData. cbn. rewrite <- Eq. destruct s. cbn in *. by subst.
    + rewrite <- Eq in *. apply Forall_cons in Hk as [Hf Hk]. cbn [fmap list_fmap]. eapply delivers_some.
      * unfold decode, hasData. cbn [streaming_at impl_]. rewrite <- Eq. apply (poll_known _ _ f q); [done|done].
      * apply (IH (requeue q s) eq_refl p (requeue q s)); done.
  - remember (q_ s) as q eqn:Eq. revert s Eq. induction q as [|f q IH]; intros s Eq p' s' E Hk.
    + cbn [WsCodec.feed] in E. destruct (WsCodec.execute p s b) as [[[rc p1] s1]|] eqn:Ex; [|done]. destruct (rc =? WS_OK) eqn:Erc; [|simplify_eq; done].
      destruct (q_ s1) as [|f q1] eqn:Eq1.
      * eapply delivers_same; [|by apply (IHb p1 s1)]. unfold decode, hasData. cbn [streaming_at impl_]. rewrite <- Eq, Eq1. cbn [decode_loop].
        rewrite no_bytes_cons by done. cbn [s_ streaming_at]. unfold streaming. cbn [ws_ impl_ streaming_at]. rewrite Ex, Erc. cbn [negb]. unfold hasData. by rewrite Eq1.
      * destruct (feed_requeue p1 s1 bufs p' s' f q1 Eq1 E) as [E' Eq']. rewrite Eq' in *. apply Forall_cons in Hk as [Hf Hk].
        cbn [fmap list_fmap]. eapply delivers_some; [|apply (IHb p1 (requeue q1 s1) p' (requeue (tail (q_ s')) s')); done].
        unfold decode, hasData. cbn [streaming_at impl_]. rewrite <- Eq. cbn [decode_loop]. rewrite no_bytes_cons by done. cbn [s_ streaming_at].
        unfold streaming. cbn [ws_ impl_ streaming_at]. rewrite Ex, Erc. cbn [negb]. unfold hasData. rewrite Eq1. by rewrite (poll_known (set_impl p1 s1 (streaming_at h p s)) [] f q1).
    + destruct (feed_requeue p s (b :: bufs) p' s' f q (eq_sym Eq) E) as [E' Eq']. rewrite Eq' in *. apply Forall_cons in Hk as [Hf Hk].
      cbn [fmap list_fmap]. eapply delivers_some.
      * unfold decode, hasData. cbn [streaming_at impl_]. rewrite <- Eq. apply (poll_known _ _ f q); [done|done].
      * apply (IH (requeue q s) eq_refl p' (requeue (tail (q_ s')) s')); done.
Qed.

Lemma frame_known f : frame_ok f -> known (fst (frame_content f)) = true.
Proof. destruct f as [[op m] data]. intros (Hf & _). cbn. unfold known. destruct (fits_op _ _ Hf) as [-> | ->]; [done|]. apply orb_true_r. Qed.

(** The frames of a stream, cut anyhow. *)
Lemma delivers_frames h p s fs bufs : between p -> q_ s = [] -> Forall frame_ok fs -> Forall (fun b => b <> []) bufs -> concat bufs = concat (frame_wire <$> fs) ->
  exists p' s', delivers (streaming_at h p s) bufs (data_frame <$> (frame_content <$> fs)) (streaming_at h p' s') /\ between p' /\ q_ s' = [].
Proof.
  intros Hp Hs Hfs Hne Hc. destruct (parse_frames p s fs Hp Hfs) as (p' & s' & Hp' & E & Hq). rewrite Hs in Hq. cbn in Hq.
  exists p', (requeue [] s'). split; [|done]. rewrite <- Hq. apply delivers_feed; [done| |].
  - apply feed_concat; [by apply between_wf| |by rewrite Hc]. rewrite Hc. apply Forall_concat, Forall_fmap. eapply Forall_impl; [done|]. apply wire_bytes.
  - rewrite Hq. apply Forall_fmap. eapply Forall_impl; [done|]. apply frame_known.
Qed.

(** ** The handshake *)

(** Once a message is complete it stays so, until it is taken. *)
Program Definition completed_handler : Handler settings_ := {|
  ready b u := (b = true -> HttpMessage.s_ u <> INIT) /\ completed_ u = true |}.
Next Obligation. intros u [_ Hc]. by split. Qed.
Next Obligation. intros f u q [= <-] [Hs Hc]. unfold message_begin_cb. rewrite Hc. by eexists _, _. Qed.
Next Obligation.
  intros f u q b [[= <-]|[[= <-]|[[=]|[=]]]] [Hs Hc]; (eexists _, _; split; [done|]; split; [|by destruct u as [? ? ? [] ? ? ?]]); [|done].
  intros Hb. specialize (Hs Hb). by destruct u as [? ? ? [] ? ? ?].
Qed.
Next Obligation.
  intros f u q a [= <-] [_ Hc]. eexists _, _. split; [done|]. split; [intros _|]; destruct u as [? ? ? [] ? ? ?]; done.
Qed.
Next Obligation. done. Qed.
Next Obligation.
  intros f u q a [= <-] [Hs Hc]. specialize (Hs eq_refl). unfold header_value_cb. destruct (HttpMessage.s_ u); [done|by eexists _, _..].
Qed.
Next Obligation. intros f u q a [= <-] Ha [_ Hc]. unfold body_cb. destruct a; [done|]. by eexists _, _. Qed.
Next Obligation. intros d f u q a [-> | ->] [=] [_ Hc]; subst. by eexists _, _. Qed.

Lemma completed_stays d buf n d' : decoder_ok d -> Forall is_byte buf -> HttpMessage.execute buf d = Ret (n, d') -> http_errno (parser_ d') = HPE_OK ->
  completed_ (self_ d') = false -> completed_ (self_ d) = false.
Proof.
  intros [Ht Hok] Hb E He Hc. destruct (completed_ (self_ d)) eqn:Hd; [|done]. exfalso.
  assert (H : @parser_ok _ settings_ completed_handler (parser_ d) (self_ d)).
  { split; [done|]. intros Hq. destruct (Hok Hq) as (Hl & Hu & Hs). split; [done|]. split; [|done]. by split. }
  destruct (@execute_safe _ settings_ completed_handler buf (parser_ d) (self_ d) H Hb) as (n' & q & u & E' & [_ Hok'] & _).
  unfold HttpMessage.execute in E. rewrite E' in E. cbn in E. simplify_eq. cbn in *. destruct (Hok' He) as (_ & [_ Hu] & _). congruence.
Qed.

Lemma parse_all_open bufs d d' : decoder_ok d -> Forall (Forall is_byte) bufs -> parse_all upgrade bufs d = Some d' -> completed_ (self_ d') = false ->
  completed_ (self_ d) = false.
Proof.
  intros Hd Hb. revert d Hd. induction Hb as [|buf bufs Hbuf _ IH]; intros d Hd; cbn [parse_all]; [by intros [= <-]|].
  destruct (execute_ok d buf Hd Hbuf) as (n & d1 & E & Hd1 & _). rewrite E. case_decide as Hc; [|done]. destruct Hc as [_ He].
  destruct bufs as [|buf2 bufs]; [intros [= <-]; by apply (completed_stays d buf n d1)|]. destruct (upgrade (parser_ d1)); [done|]. intros Hp Hc.
  apply (completed_stays d buf n d1); try done. by apply IH.
Qed.

(** Buffers without the end of the request. *)
Lemma handshaking_more bufs more d h : s_ d = HANDSHAKING -> decoder_ok (handshake_ d) -> Forall (fun b => b <> []) bufs -> Forall (Forall is_byte) bufs ->
  parse_all upgrade bufs (handshake_ d) = Some h -> upgrade (parser_ h) = false -> completed_ (self_ h) = false ->
  decode_loop d (bufs ++ more) = decode_loop (set_handshake h d) more.
Proof.
  intros Hs Hd Hne Hb. revert d Hs Hd. induction bufs as [|buf bufs IH]; intros d Hs Hd; cbn [parse_all app]; [intros [= <-]; by destruct d|].
  apply Forall_cons in Hne as [Hn1 Hne]. apply Forall_cons in Hb as [Hb1 Hb]. cbn [decode_loop]. rewrite no_bytes_cons by done. rewrite Hs. unfold handshaking.
  destruct (execute_ok (handshake_ d) buf Hd Hb1) as (n & h1 & -> & Hh1 & _). case_decide as Hc; [|done]. destruct Hc as [-> He].
  intros Hp Hu Hc. assert (Hp1 : parse_all upgrade bufs h1 = Some h /\ upgrade (parser_ h1) = false).
  { destruct bufs; [by injection Hp as ->|]. by destruct (upgrade (parser_ h1)). }
  destruct Hp1 as [Hp1 Hu1]. rewrite Hu1, bool_decide_true by done. cbn [negb]. rewrite (parse_all_open bufs h1 h) by done.
  by rewrite (IH Hne Hb (set_handshake h1 d)).
Qed.

Lemma parse_all_snoc bufs b d d' : parse_all upgrade (bufs ++ [b]) d = Some d' ->
  exists d1, parse_all upgrade bufs d = Some d1 /\ (bufs <> [] -> upgrade (parser_ d1) = false) /\ HttpMessage.execute b d1 = Ret (length b, d').
Proof.
  revert d. induction bufs as [|buf bufs IH]; intros d; cbn [parse_all app].
  - destruct (HttpMessage.execute b d) as [[n d1]| | |] eqn:E; try done. case_decide as Hc; [|done]. destruct Hc as [-> _]. intros [= ->]. by exists d.
  - destruct (HttpMessage.execute buf d) as [[n d1]| | |] eqn:E; try done. case_decide as Hc; [|done].
    destruct bufs as [|b2 bufs]; cbn [app] in *.
    + destruct (upgrade (parser_ d1)) eqn:Hu; [done|]. intros H. destruct (IH d1 H) as (d2 & E2 & _ & E3). injection E2 as ->. by exists d2.
    + destruct (upgrade (parser_ d1)) eqn:Hu; [done|]. intros H. destruct (IH d1 H) as (d2 & E2 & Hu2 & E3). exists d2. split; [done|]. split; [|done]. intros _. by apply Hu2.
Qed.

Lemma reads_split x y d d' : reads (x ++ y) d d' -> exists d1, reads x d d1 /\ reads y d1 d'.
Proof.
  revert d. induction x as [|b x IH]; intros d H; [exists d; split; [constructor|done]|]. inversion H as [|? ? ? d1 ? Ht Hr]; subst.
  destruct (IH d1 Hr) as (d2 & H1 & H2). exists d2. split; [by econstructor|done].
Qed.

Lemma singly_bytes l : Forall is_byte l -> Forall (Forall is_byte) (singly l).
Proof. intros Hl. apply Forall_fmap. eapply Forall_impl; [exact Hl|]. intros x Hx. by apply Forall_singleton. Qed.

Lemma reads_last w c d d1 d2 : reads w d d1 -> HttpMessage.execute [c] d1 = Ret (1%nat, d2) -> http_errno (parser_ d2) = HPE_OK ->
  parse_all upgrade (singly (w ++ [c])) d = Some d2.
Proof.
  intros Hr E He. induction Hr as [d|b w d d0 d1 (Eb & Hb & Hu) Hr IH]; cbn [app singly fmap list_fmap parse_all].
  - rewrite E. by rewrite decide_True.
  - rewrite Eb, decide_True by done. specialize (IH E). rewrite Hu. destruct w; exact IH.
Qed.

(** What was read before the last buffer. *)
Lemma before_last w d d1 pre last0 dp : decoder_ok d -> reads w d d1 -> completed_ (self_ d1) = false -> Forall is_byte w -> Forall (fun b => b <> []) pre ->
  concat pre ++ last0 = w -> parse_all upgrade pre d = Some dp -> completed_ (self_ dp) = false.
Proof.
  intros Hd Hr Hc Hw Hne <- Hp. apply Forall_app in Hw as [Hwp Hwl]. destruct (reads_split _ _ _ _ Hr) as (da & Hra & Hrl).
  assert (Hh : forall q, upgrade q = false -> upgrade q = false) by done.
  pose proof (reads_feed upgrade _ _ _ Hh Hra) as Ea. pose proof (reads_feed upgrade _ _ _ Hh Hrl) as El.
  destruct (parse_all_cuts upgrade d pre da) as (d2 & E2 & Es & _); try done; [unfold exited; by intros q [? _]%andb_prop|by apply Forall_concat|].
  rewrite Hp in E2. injection E2 as <-. rewrite Es. apply (parse_all_open (singly last0) da d1); [|by apply singly_bytes|done|done].
  apply (parse_all_ok upgrade (singly (concat pre)) d da); [done|by apply singly_bytes|done].
Qed.

Lemma handshake_any_cut d w c h1 h2 bufs more : s_ d = HANDSHAKING -> decoder_ok (handshake_ d) -> upgrade (parser_ (handshake_ d)) = false ->
  reads w (handshake_ d) h1 -> completed_ (self_ h1) = false -> HttpMessage.execute [c] h1 = Ret (1%nat, h2) -> http_errno (parser_ h2) = HPE_OK ->
  upgrade (parser_ h2) = true -> upgradeToWebsocket (req_ (self_ h2)) = true -> Forall is_byte (w ++ [c]) -> Forall (fun b => b <> []) bufs -> concat bufs = w ++ [c] ->
  exists h3, self_ h3 = self_ h2 /\
    decode_loop d (bufs ++ more) = (Ret (Some (mkData HANDSHAKE (Some (fst (moveResult h3))) [])), mkDecoder STREAMING (snd (moveResult h3)) (ws_ d) (impl_ d), more).
Proof.
  intros Hs Hd Hu0 Hr Hc E He Hu Hws Hw Hne Hcat. destruct (parse_all_cuts upgrade (handshake_ d) bufs h2) as (h3 & E3 & Es3 & Hn3); try done.
  { unfold exited. by intros q [? _]%andb_prop. } { apply Forall_concat. by rewrite Hcat. } { rewrite Hcat. by apply (reads_last w c _ h1 h2). }
  exists h3. split; [done|]. destruct bufs as [|last pre _] using rev_ind; [by destruct w|]. apply Forall_app in Hne as [Hnp [Hnl _]%Forall_cons].
  destruct last as [|c' last0 _] using rev_ind; [done|]. rewrite concat_app in Hcat. cbn [concat] in Hcat. rewrite app_nil_r, app_assoc in Hcat.
  apply app_inj_2 in Hcat as [Hcat [= ->]]; [|done]. apply Forall_app in Hw as [Hw Hcb].
  destruct (parse_all_snoc _ _ _ _ E3) as (hp_ & Ep & Hup & El). rewrite <- app_assoc.
  assert (Hpb : Forall (Forall is_byte) pre) by (apply Forall_concat; rewrite <- Hcat in Hw; by apply Forall_app in Hw as [? _]).
  rewrite (handshaking_more pre _ d hp_); try done.
  - cbn [app decode_loop]. rewrite no_bytes_cons by (by destruct last0). cbn [s_ set_handshake handshake_]. rewrite Hs. unfold handshaking. cbn [handshake_ set_handshake].
    rewrite El. assert (Hu3 : upgrade (parser_ h3) = true) by (destruct Hn3 as [-> _]; exact Hu). rewrite Hu3, Es3, Hws. cbn [negb]. by destruct (moveResult h3).
  - destruct pre; [by injection Ep as <-|]. by apply Hup.
  - by apply (before_last w (handshake_ d) h1 pre last0).
Qed.

(** *** Upgrade requests *)

(** Headers the parser has no use for, and those of an upgrade. *)
Definition upgrade_header (e : list Z * list Z) : Prop :=
  header_ok e \/ e = (bytes "Upgrade", bytes "websocket") \/ e = (bytes "Connection", bytes "Upgrade") \/ e = (bytes "Connection", bytes "keep-alive, Upgrade").

(** The flags of the headers so far. *)
Record seen (hm : gmap (list Z) (list Z)) (fl : Z) : Prop := {
  seen_flags : fl ∈ [0; 2; 8; 10; 32; 34; 40; 42];
  seen_upgrade : is_Some (hm !! bytes "Upgrade") -> Z.land fl F_UPGRADE = F_UPGRADE;
  seen_connection : is_Some (hm !! bytes "Connection") -> Z.land fl F_CONNECTION_UPGRADE = F_CONNECTION_UPGRADE }.

Lemma lor_seen hm fl g name value : seen hm fl -> g ∈ [0; 8; 10; 32] ->
  (bytes "Upgrade" = name -> Z.land (Z.lor fl g) F_UPGRADE = F_UPGRADE) -> (bytes "Connection" = name -> Z.land (Z.lor fl g) F_CONNECTION_UPGRADE = F_CONNECTION_UPGRADE) ->
  seen (<[name := value]> hm) (Z.lor fl g).
Proof.
  intros [H1 H2 H3] Hg Hu Hc.
  assert (Hin : Z.lor fl g ∈ [0; 2; 8; 10; 32; 34; 40; 42] /\ (Z.land fl F_UPGRADE = F_UPGRADE -> Z.land (Z.lor fl g) F_UPGRADE = F_UPGRADE) /\
    (Z.land fl F_CONNECTION_UPGRADE = F_CONNECTION_UPGRADE -> Z.land (Z.lor fl g) F_CONNECTION_UPGRADE = F_CONNECTION_UPGRADE)).
  { pose proof (eq_refl : forallb (fun fl => forallb (fun g => existsb (Z.eqb (Z.lor fl g)) [0; 2; 8; 10; 32; 34; 40; 42] &&
      implb (Z.land fl F_UPGRADE =? F_UPGRADE) (Z.land (Z.lor fl g) F_UPGRADE =? F_UPGRADE) &&
      implb (Z.land fl F_CONNECTION_UPGRADE =? F_CONNECTION_UPGRADE) (Z.land (Z.lor fl g) F_CONNECTION_UPGRADE =? F_CONNECTION_UPGRADE))
      [0; 8; 10; 32]) [0; 2; 8; 10; 32; 34; 40; 42] = true) as Hall.
    apply list_elem_of_In in H1, Hg. rewrite forallb_forall in Hall. specialize (Hall fl H1). cbn beta in Hall. rewrite forallb_forall in Hall. specialize (Hall g Hg).
    apply andb_prop in Hall as [[Ha Hb]%andb_prop Hd]. split; [|split; intros E; rewrite E, Z.eqb_refl in *; by apply Z.eqb_eq].
    apply existsb_exists in Ha as (x & Hx & ->%Z.eqb_eq). by apply list_elem_of_In. }
  destruct Hin as (Hin & Ku & Kc). split; [done|..].
  - intros Hs. destruct (decide (bytes "Upgrade" = name)) as [E|E]; [by apply Hu|]. rewrite lookup_insert_ne in Hs by done. by apply Ku, H2.
  - intros Hs. destruct (decide (bytes "Connection" = name)) as [E|E]; [by apply Hc|]. rewrite lookup_insert_ne in Hs by done. by apply Kc, H3.
Qed.

Lemma lor_bit fl k : Z.land (Z.lor fl k) k = k.
Proof. rewrite Z.land_comm. apply Z.bits_inj'. intros n _. rewrite Z.land_spec, Z.lor_spec. by destruct (Z.testbit fl n), (Z.testbit k n). Qed.

(** One header of an upgrade request. *)
Lemma reads_upgrade_header ty n cl fl v m u d e hm : boundary ty n cl fl v m u d -> upgrade_header e -> seen hm fl -> 0 <= n ->
  n + line_size (fst e) (snd e) <= HTTP_MAX_HEADER_SIZE ->
  exists n' d' fl', reads (header_line e) d d' /\ n <= n' <= n + line_size (fst e) (snd e) /\
    boundary ty n' cl fl' v m (add_value (snd e) (add_field (fst e) u)) d' /\ seen (insert_header hm e) fl'.
Proof.
  intros Hd He Hs H0 Hn. destruct He as [He|He].
  - destruct (reads_dull ty n cl fl v m u d e Hd He H0 Hn) as (n' & d' & Hr & Hn' & Hd'). exists n', d', fl. do 3 (split; [done|]).
    unfold insert_header. rewrite <- (Z.lor_0_r fl). apply lor_seen; [done|set_solver|..]; intros E; exfalso; apply (ho_known _ He); rewrite <- E; vm_compute; set_solver.
  - destruct He as [->|[->| ->]]; cbn [fst snd] in *.
    + destruct (reads_header ty n cl fl v m u d (bytes "Upgrade") (bytes "websocket") h_upgrade 6 h_general 0 cl (Z.lor fl F_UPGRADE)) as (n' & d' & Hr & Hn' & Hd'); try done.
      exists n', d', (Z.lor fl F_UPGRADE). do 3 (split; [done|]). apply lor_seen; [done|set_solver|intros _; apply lor_bit|done].
    + destruct (reads_header ty n cl fl v m u d (bytes "Connection") (bytes "Upgrade") h_connection 9 h_connection_upgrade 6 cl fl) as (n' & d' & Hr & Hn' & Hd'); try done.
      exists n', d', (Z.lor fl F_CONNECTION_UPGRADE). do 3 (split; [done|]). apply lor_seen; [done|set_solver|done|intros _; apply lor_bit].
    + destruct (reads_header ty n cl fl v m u d (bytes "Connection") (bytes "keep-alive, Upgrade") h_connection 9 h_connection_upgrade 6 cl (Z.lor fl F_CONNECTION_KEEP_ALIVE)) as (n' & d' & Hr & Hn' & Hd'); try done.
      exists n', d', (Z.lor (Z.lor fl F_CONNECTION_KEEP_ALIVE) F_CONNECTION_UPGRADE). do 3 (split; [done|]). rewrite <- Z.lor_assoc.
      apply lor_seen; [done|set_solver|done|intros _]. rewrite Z.lor_assoc. apply lor_bit.
Qed.

Lemma reads_upgrade_headers ty n cl fl v m u d a p hm hs : boundary ty n cl fl v m u d -> header_user a p hm u -> seen hm fl -> Forall upgrade_header hs ->
  0 <= n -> n + 2 * Z.of_nat (length (header_lines hs)) <= HTTP_MAX_HEADER_SIZE ->
  exists n' u' d' fl', reads (header_lines hs) d d' /\ n <= n' <= n + 2 * Z.of_nat (length (header_lines hs)) /\
    boundary ty n' cl fl' v m u' d' /\ header_user a p (foldl insert_header hm hs) u' /\ seen (foldl insert_header hm hs) fl'.
Proof.
  intros Hd Hu Hs Hh. revert n u d hm fl Hd Hu Hs. induction Hh as [|e hs He Hh IH]; intros n u d hm fl Hd Hu Hs H0 Hn.
  { exists n, u, d, fl. split; [constructor|]. split; [cbn; lia|done]. }
  unfold header_lines in *. cbn [fmap list_fmap concat foldl] in *. rewrite length_app in *.
  assert (Hl : line_size (fst e) (snd e) <= 2 * Z.of_nat (length (header_line e))).
  { unfold line_size, header_line. rewrite !length_app. cbn [length CRLF]. lia. }
  destruct (reads_upgrade_header ty n cl fl v m u d e hm Hd He Hs H0) as (n1 & d1 & fl1 & Hr1 & Hn1 & Hd1 & Hs1); [lia|].
  destruct (IH n1 _ d1 (insert_header hm e) fl1 Hd1 (header_user_next a p hm u (fst e) (snd e) Hu) Hs1) as (n2 & u2 & d2 & fl2 & Hr2 & Hn2 & Hd2 & Hu2); [lia..|].
  exists n2, u2, d2, fl2. split; [by eapply reads_app|]. split; [lia|done].
Qed.

(** The last byte of an upgrade request ends the message; what follows belongs
    to the other protocol. *)
Lemma upgrade_end h i fl sc m n u : Z.land fl UPGRADE_FLAGS = UPGRADE_FLAGS -> fl ∈ [0; 2; 8; 10; 32; 34; 40; 42] -> allow_body_ u = false -> 0 <= n < HTTP_MAX_HEADER_SIZE ->
  exists q, HttpMessage.execute [LF] (hp HTTP_REQUEST s_headers_almost_done h i n ULLONG_MAX fl (1, 1, sc) m u) =
    Ret (1%nat, mkHttpParser q (finished (headed m ULLONG_MAX u))) /\ http_errno q = HPE_OK /\ upgrade q = true.
Proof.
  intros Hf Hl Ha Hn. unfold hp. rewrite execute_header by (done || fields; lia). fields.
  assert (H : fl = 40 \/ fl = 42).
  { rewrite !elem_of_cons in Hl. repeat (destruct Hl as [->|Hl]; [first [by left | by right | discriminate Hf]|]). by inversion Hl. }
  destruct u as [ab fi va st hc co rq]. cbn in Ha. subst ab. eexists (mkParser HTTP_REQUEST (Z.lor fl F_SKIPBODY) s_start_req h i false 0 ULLONG_MAX 1 1 sc m HPE_OK true).
  split; [|done]. destruct H as [-> | ->], st, m; reflexivity.
Qed.

Record upgrade_request (hs : list (list Z * list Z)) (r : HttpFrame) : Prop := {
  ur_method : frame_method r <> HTTP_CONNECT;
  ur_path : path_ok (path r) = true;
  ur_order : hs ≡ₚ map_to_list (headers r);
  ur_headers : Forall upgrade_header hs;
  ur_connection : is_Some (headers r !! bytes "Connection");
  ur_websocket : upgradeToWebsocket r = true }.

Definition upgrade_wire (hs : list (list Z * list Z)) (r : HttpFrame) : list Z := request_head ContentLength hs r empty_queue.

Lemma upgrade_wire_eq hs r : upgrade_wire hs r = (request_line r ++ header_lines hs ++ [CR]) ++ [LF].
Proof. unfold upgrade_wire, request_head, request_line. rewrite <- !app_assoc. reflexivity. Qed.

Lemma upgrade_wire_bytes hs r : upgrade_request hs r -> Forall is_byte (upgrade_wire hs r).
Proof.
  intros [Hm Hp Ho Hh _ _]. rewrite upgrade_wire_eq. unfold request_line. rewrite !Forall_app.
  assert (Hc : Forall is_byte [CR] /\ Forall is_byte [LF]) by (split; apply Forall_singleton; unfold is_byte; by vm_compute).
  repeat split; try apply string_bytes; try apply crlf_bytes; try apply Hc.
  - apply Forall_singleton. by vm_compute.
  - by apply path_bytes.
  - clear Ho. unfold header_lines. induction Hh as [|e hs He Hh IH]; [constructor|]. cbn [fmap list_fmap concat]. apply Forall_app. split; [|done].
    destruct He as [He|[->|[->| ->]]]; [|apply line_bytes; apply string_bytes..]. destruct e as [x y]. apply line_bytes; [apply token_bytes, (ho_token _ He)|apply (ho_bytes _ He)].
Qed.

(** The user when the request is complete. *)
Lemma headed_upgrade p hm u m : header_user false p hm u ->
  allow_body_ u = false /\ completed_ u = false /\ message (finished (headed m ULLONG_MAX u)) = Some (received m ULLONG_MAX p hm []).
Proof.
  intros [H1 H2 H3 H4 H5 H6 H7]. unfold headers_of in H5. destruct u as [ab fi va [] hc co [er en me cl0 pa he eo bo]]; cbn in *; try done; subst; done.
Qed.

Lemma reads_upgrade hs r : upgrade_request hs r -> 2 * Z.of_nat (length (upgrade_wire hs r)) <= HTTP_MAX_HEADER_SIZE ->
  exists h1 h2, reads (request_line r ++ header_lines hs ++ [CR]) (new_parser true false) h1 /\ completed_ (self_ h1) = false /\
    HttpMessage.execute [LF] h1 = Ret (1%nat, h2) /\ http_errno (parser_ h2) = HPE_OK /\ upgrade (parser_ h2) = true /\
    message (self_ h2) = Some (received (frame_method r) ULLONG_MAX (path r) (headers r) []).
Proof.
  intros [Hm Hp Ho Hh Hcn Hws] Hn. rewrite upgrade_wire_eq, !length_app in Hn. cbn [length] in Hn.
  set (u := reset (mkSelf false [] [] INIT false false empty_frame)).
  pose proof (reads_request_line h_general 0 0 0 0 (0, 0, 0) HTTP_DELETE (frame_method r) (path r) u eq_refl Hm Hp ltac:(lia)) as Hr1.
  fold (request_line r) in Hr1. specialize (Hr1 ltac:(lia)). set (n1 := 0 + Z.of_nat (length (request_line r))) in *.
  set (u1 := add_url (path r) (reset u)) in *. assert (Hu1 : header_user false (path r) ∅ u1) by (by split).
  assert (Hs1 : seen ∅ 0) by (split; [set_solver|by intros [? ?]..]).
  pose proof (at_start HTTP_REQUEST n1 ULLONG_MAX 0 (1, 1, 0) (frame_method r) u1 h_general (method_size (frame_method r))) as Hd1.
  destruct (reads_upgrade_headers HTTP_REQUEST n1 ULLONG_MAX 0 (1, 1, 0) (frame_method r) u1 _ false (path r) ∅ hs Hd1 Hu1 Hs1 Hh)
    as (n2 & u2 & d2 & fl & Hr2 & Hn2 & Hd2 & Hu2 & Hs2); [lia..|]. rewrite (insert_all hs (headers r) Ho) in Hu2, Hs2.
  destruct (takes_blank HTTP_REQUEST n2 _ _ _ _ _ d2 Hd2) as (h & i & Hb); [lia|]. destruct (headed_upgrade _ _ _ (frame_method r) Hu2) as (Ha & Hc & Em).
  destruct (upgrade_end h i fl 0 (frame_method r) (n2 + 1) u2) as (q & E & He & Hu); try done; [|apply (seen_flags _ _ Hs2)|lia|].
  - assert (Hup : is_Some (headers r !! bytes "Upgrade")) by (unfold upgradeToWebsocket in Hws; apply andb_prop in Hws as [Hws%bool_decide_eq_true _]; by rewrite Hws).
    pose proof (seen_upgrade _ _ Hs2 Hup) as E1. pose proof (seen_connection _ _ Hs2 Hcn) as E2. unfold UPGRADE_FLAGS. by rewrite Z.land_lor_distr_r, E1, E2.
  - eexists _, _. split; [eapply reads_app; [exact Hr1|]; eapply reads_app; [exact Hr2|]; eapply reads_cons; [exact Hb|constructor]|]. done.
Qed.

(** ** A session *)

(** What a server reads from a client: the upgrade request, then frames. *)
Definition session_frames (r : HttpFrame) (fs : list frame) : list DataFrame :=
  mkData HANDSHAKE (Some (received (frame_method r) ULLONG_MAX (path r) (headers r) [])) [] :: (data_frame <$> (frame_content <$> fs)).

Lemma moveResult_message h f : message (self_ h) = Some f -> fst (moveResult h) = f.
Proof. unfold message, moveResult. destruct (completed_ (self_ h)); [by intros [= <-]|done]. Qed.


Definition sample_upgrade : HttpFrame :=
  mkFrame HPE_OK 0 HTTP_GET 0 (bytes "/chat") (list_to_map
    [(bytes "Upgrade", bytes "websocket"); (bytes "Connection", bytes "keep-alive, Upgrade");
     (bytes "Sec-WebSocket-Version", bytes "13"); (bytes "Sec-WebSocket-Key", bytes "dGhlIHNhbXBsZSBub25jZQ==")]) false [].
Definition sample_headers : list (list Z * list Z) := map_to_list (headers sample_upgrade).
Definition sample_frames : list frame := [(WS_FRAME_TEXT, Some (1, 2, 3, 4), [104; 105]); (WS_FRAME_PING, None, [7])].
Definition sample_cut1 : list (list Z) := Eval vm_compute in let w := upgrade_wire sample_headers sample_upgrade in [take 30 w; drop 30 w].


(** *** The reply *)

(** The headers of the reply, with the key RFC 6455 asks for. *)
Definition reply_headers (key : list Z) : list (list Z * list Z) :=
  [(bytes "Sec-WebSocket-Accept", Base64.encode_from_array (Fips.sha1 (key ++ kGUID))); (bytes "Connection", bytes "Upgrade"); (bytes "Upgrade", bytes "websocket")].

Definition reply (accept : list Z) : HttpFrame :=
  mkFrame HPE_OK 101 HTTP_DELETE 0 [] (<[bytes "Sec-WebSocket-Accept" := accept]> (<[bytes "Connection" := bytes "Upgrade"]> (<[bytes "Upgrade" := bytes "websocket"]> ∅))) false [].

Lemma bytes_ne a b : bool_decide (bytes a = bytes b) = false -> bytes a <> bytes b.
Proof. by intros H%bool_decide_eq_false. Qed.

Lemma reply_map accept : map_to_list (headers (reply accept)) ≡ₚ
  [(bytes "Sec-WebSocket-Accept", accept); (bytes "Connection", bytes "Upgrade"); (bytes "Upgrade", bytes "websocket")].
Proof.
  unfold reply. cbn [headers]. rewrite map_to_list_insert, map_to_list_insert, map_to_list_insert, map_to_list_empty; [done|apply lookup_empty|..];
    rewrite ?lookup_insert_ne by (by apply bytes_ne); apply lookup_empty.
Qed.

Lemma reply_written create_room hs accept buf : (forall n, (n <= create_room n)%nat) -> queue_ok buf ->
  exists buf', encode create_room hs (mkData HANDSHAKE_RESPONSE (Some (reply accept)) []) buf = Ret buf' /\ queue_ok buf' /\
    contents buf' = contents buf ++ bytes "HTTP/1.1 101 Switching Protocols" ++ CRLF ++ header_lines hs ++ CRLF.
Proof.
  intros Hroom Hq. destruct (emit_ok create_room Hroom (response_head "Switching Protocols" hs (reply accept) empty_queue) empty_queue buf Hq) as (buf' & E & Hq' & Ec); [done|].
  exists buf'. split; [exact E|]. split; [done|]. rewrite Ec. unfold response_head.
  rewrite decide_False; [|unfold reply; cbn [headers]; rewrite lookup_insert_ne by (by apply bytes_ne); by rewrite lookup_insert_eq].
  change (contents empty_queue) with (@nil Z). rewrite app_nil_r. reflexivity.
Qed.

(** C20: the reply to a handshake.  For a request with a key of at most 128 bytes
    the response is built, and what its encoder writes is the status line of 101,
    the upgrade headers with the accept key of RFC 6455 (the base64 of the SHA-1
    of the key and the GUID) in the order of the header map, and an empty line.
    Without a key, or with a longer one, std::invalid_argument is thrown. *)
Theorem ws_handshake_reply create_room mem r buf : (forall n, (n <= create_room n)%nat) -> length mem = 64%nat -> queue_ok buf ->
  match headers r !! bytes "Sec-WebSocket-Key" with
  | Some key =>
      Forall is_byte key ->
      if (128 <? length key)%nat then buildHandshakeResponse mem r = Throw (std_invalid_argument "invalid Sec-WebSocket-Key")
      else exists out f, buildHandshakeResponse mem r = Ret out /\ handshake out = Some f /\ map_to_list (headers f) ≡ₚ reply_headers key /\
        forall hs, hs ≡ₚ map_to_list (headers f) -> exists buf', encode create_room hs out buf = Ret buf' /\ queue_ok buf' /\
          contents buf' = contents buf ++ bytes "HTTP/1.1 101 Switching Protocols" ++ CRLF ++ header_lines hs ++ CRLF
  | None => buildHandshakeResponse mem r = Throw (std_invalid_argument "invalid Sec-WebSocket-Key")
  end.
Proof.
  intros Hroom Hm Hq. destruct (headers r !! bytes "Sec-WebSocket-Key") as [key|] eqn:Ek; [|by unfold buildHandshakeResponse; rewrite Ek].
  intros Hb. unfold buildHandshakeResponse. rewrite Ek. destruct (128 <? length key)%nat eqn:El; [done|]. apply Nat.ltb_ge in El.
  rewrite (acceptKey_ok mem key) by (done || lia). unfold reply_headers. generalize (Base64.encode_from_array (Fips.sha1 (key ++ kGUID))). intros accept.
  cbn [res_bind]. eexists _, _. split; [reflexivity|]. split; [reflexivity|]. split; [apply reply_map|]. intros hs Hhs.
  destruct (reply_written create_room hs accept buf Hroom Hq) as (buf' & E & Hq' & Ec). exists buf'. by repeat split.
Qed.

Lemma ws_handshake_reply_witness : exists out f, buildHandshakeResponse (replicate 64 0) sample_upgrade = Ret out /\ handshake out = Some f /\
  map_to_list (headers f) ≡ₚ reply_headers (bytes "dGhlIHNhbXBsZSBub25jZQ==").
Proof.
  destruct (ws_handshake_reply (fun n => n) (replicate 64 0) sample_upgrade empty_queue ltac:(done) eq_refl ltac:(done) ltac:(apply string_bytes)) as (out & f & E1 & E2 & E3 & _).
  exists out, f. split; [exact E1|]. split; [exact E2|exact E3].
Defined.

(** *** Frames that are sent *)


