(* ===== verification/Service.v ===== *)
(** * Services and RPC

    Models [src/include/futures/service/]: the dispatchers of a server and of a
    client, and [RpcFuture], which moves requests and responses between a
    connection and a dispatcher.  The connection is any instance of [Transport],
    the dispatcher any instance of [IDispatcher]. *)

From S2P Require Import Prelude Core Futures FutureLaws Streams Channels.
Local Open Scope cpp_scope.
Local Open Scope Z_scope.

(** ** Interfaces *)

(** [src/include/futures/service/Dispatch.h:10-18] IDispatcher *)
Class IDispatcher (W D Req Resp : Type) := {
  dispatch : Req -> D -> W -> res unit * D * W;
  dispatchErr : exception_wrapper -> D -> W -> res unit * D * W;
  has_in_flight : D -> bool;
  dispatcher_poll : D -> W -> res (Poll (option Resp)) * D * W }.

(** A call makes a future of the response. *)
(** [src/include/futures/service/Service.h:9-12] Service *)
Class Service (W Req F : Type) := service_ : Req -> W -> res F * W.

(** Messages that carry the id of their call, an [int64_t]. *)
Class HasCallId (M : Type) := getCallId : M -> Z.

(** The stream of requests, the sink of responses and the channel below them. *)
Class Transport (W Req Resp : Type) := {
  stream_poll : W -> res (Poll (option Req)) * W;
  startSend : Resp -> W -> res (Try unit) * W;
  pollComplete : W -> res (Poll unit) * W;
  shutdownWrite : W -> res unit * W }.

(** ** std::map with [int64_t] keys, as the list of its pairs in key order *)
Section Map.
Context {V : Type}.

(** [insert]: nothing happens when the key is there. *)
Fixpoint map_insert (k : Z) (v : V) (l : list (Z * V)) : list (Z * V) :=
  match l with
  | [] => [(k, v)]
  | (k', v') :: l' =>
      if k <? k' then (k, v) :: l
      else if k =? k' then l else (k', v') :: map_insert k v l'
  end.

(** [find], and what [erase] leaves. *)
Fixpoint map_take (k : Z) (l : list (Z * V)) : option (V * list (Z * V)) :=
  match l with
  | [] => None
  | (k', v) :: l' =>
      if k =? k' then Some (v, l')
      else match map_take k l' with Some (v0, r) => Some (v0, (k', v) :: r) | None => None end
  end.

Lemma map_insert_new k v l : k ∉ l.*1 -> map_insert k v l ≡ₚ (k, v) :: l.
Proof.
  induction l as [|[k' v'] l IH]; cbn; [done|]. intros Hk.
  destruct (k <? k'); [done|]. destruct (Z.eqb_spec k k') as [->|]; [set_solver|].
  rewrite IH by set_solver. apply Permutation_swap.
Qed.

Lemma map_insert_old k v l :
  StronglySorted Z.lt l.*1 -> k ∈ l.*1 -> map_insert k v l = l.
Proof.
  induction l as [|[k' v'] l IH]; cbn; [set_solver|].
  intros [Hs Ha]%StronglySorted_inv Hk. rewrite Forall_forall in Ha.
  destruct (Z.ltb_spec k k').
  - apply elem_of_cons in Hk as [->|Hk]; [lia|]. specialize (Ha k Hk). lia.
  - destruct (Z.eqb_spec k k'); [done|]. rewrite IH; [done..|set_solver].
Qed.

Lemma map_insert_sorted k v l : StronglySorted Z.lt l.*1 -> StronglySorted Z.lt (map_insert k v l).*1.
Proof.
  induction l as [|[k' v'] l IH]; cbn; intros Hs; [by repeat constructor|].
  pose proof Hs as [Hs' Ha]%StronglySorted_inv.
  destruct (Z.ltb_spec k k'); [|destruct (Z.eqb_spec k k'); [done|]].
  - cbn. constructor; [done|]. constructor; [done|]. eapply Forall_impl; [done|]. cbn. lia.
  - cbn. constructor; [auto|]. apply Forall_forall. intros y Hy.
    destruct (decide (k ∈ l.*1)) as [Hk|Hk].
    + rewrite map_insert_old in Hy by done. rewrite Forall_forall in Ha. by apply Ha.
    + rewrite map_insert_new in Hy by done. apply elem_of_cons in Hy as [->|Hy]; [cbn; lia|].
      rewrite Forall_forall in Ha. by apply Ha.
Qed.
End Map.

(** ** RpcFuture *)
Section Rpc.
Context {W D Req Resp : Type} `{!IDispatcher W D Req Resp} `{!Transport W Req Resp}.

(** [src/include/futures/service/RpcFuture.h:113-116] RpcFuture *)
Record RpcFuture := mkRpc { dispatcher_ : D; read_closed_ : bool; write_closed_ : bool }.

(** How a loop of [poll] ends: it returns, or is left. *)
Definition loop_end : Type := res (option (Poll unit)) * RpcFuture * W.

(** [dispatcher_->dispatchErr(e); return Poll<Item>(e);] *)
Definition fail_with (e : exception_wrapper) (f : RpcFuture) (w : W) : loop_end :=
  let '(r, d, w) := dispatchErr e (dispatcher_ f) w in
  (let! _ := r in Ret (Some (EXCEPTION e)), mkRpc d (read_closed_ f) (write_closed_ f), w).

(** [src/include/futures/service/RpcFuture.h:22-48] RpcFuture::poll, inbound *)
Fixpoint rpc_read (fuel : nat) (f : RpcFuture) (w : W) : loop_end :=
  if read_closed_ f then (Ret None, f, w) else
  match fuel with
  | O => (OutOfFuel, f, w)
  | S fuel =>
      let '(r, w) := stream_poll w in
      match r with
      | Ret (EXCEPTION e) => fail_with e f w
      | Ret (VALUE None) => (Ret None, f, w)
      | Ret (VALUE (Some None)) => rpc_read fuel (mkRpc (dispatcher_ f) true (write_closed_ f)) w
      | Ret (VALUE (Some (Some x))) =>
          let '(r, d, w) := dispatch x (dispatcher_ f) w in
          let f := mkRpc d (read_closed_ f) (write_closed_ f) in
          match r with
          | Ret _ => rpc_read fuel f w
          | Throw e =>
              if is_std e then let '(r, w) := shutdownWrite w in (let! _ := r in Ret (Some (EXCEPTION (Some e))), f, w)
              else (Throw e, f, w)
          | r => (stop r, f, w)
          end
      | Ret NOTHING => (Throw UsingUninitializedTry, f, w)
      | r => (stop r, f, w)
      end
  end.

(** [src/include/futures/service/RpcFuture.h:51-74] RpcFuture::poll, outbound *)
Fixpoint rpc_write (fuel : nat) (f : RpcFuture) (w : W) : loop_end :=
  if write_closed_ f then (Ret None, f, w) else
  match fuel with
  | O => (OutOfFuel, f, w)
  | S fuel =>
      let '(r, d, w) := dispatcher_poll (dispatcher_ f) w in
      let f := mkRpc d (read_closed_ f) (write_closed_ f) in
      match r with
      | Ret (EXCEPTION e) => (Ret (Some (EXCEPTION e)), f, w)
      | Ret (VALUE None) => (Ret None, f, w)
      | Ret (VALUE (Some (Some x))) =>
          let '(r, w) := startSend x w in
          match r with
          | Ret (EXCEPTION e) => fail_with e f w
          | Ret _ => rpc_write fuel f w
          | r => (stop r, f, w)
          end
      | Ret (VALUE (Some None)) =>
          let '(r, w) := shutdownWrite w in
          match r with
          | Ret _ => rpc_write fuel (mkRpc d (read_closed_ f) true) w
          | r => (stop r, f, w)
          end
      | Ret NOTHING => (Throw UsingUninitializedTry, f, w)
      | r => (stop r, f, w)
      end
  end.

(** [src/include/futures/service/RpcFuture.h:83-94] RpcFuture::poll, shutdown *)
Definition rpc_close (f : RpcFuture) (w : W) : loop_end :=
  let close := negb (has_in_flight (dispatcher_ f)) && read_closed_ f in
  let '(r, w) := if close then shutdownWrite w else (Ret tt, w) in
  match r with
  | Ret _ =>
      let f := mkRpc (dispatcher_ f) (read_closed_ f) (close || write_closed_ f) in
      if read_closed_ f && write_closed_ f then
        let '(r, d, w) := dispatchErr (Some (IOError "Channel closed")) (dispatcher_ f) w in
        (let! _ := r in Ret (Some (makePollReady tt)), mkRpc d true true, w)
      else (Ret None, f, w)
  | r => (stop r, f, w)
  end.

(** [src/include/futures/service/RpcFuture.h:75-81] RpcFuture::poll, flush *)
Definition rpc_flush (f : RpcFuture) (w : W) : loop_end :=
  let '(r, w) := pollComplete w in
  match r with
  | Ret (EXCEPTION e) => fail_with e f w
  | Ret _ => rpc_close f w
  | r => (stop r, f, w)
  end.

(** What the end of a loop means for [poll]; [k] is the code after the loop. *)
Definition after_loop (o : loop_end) (k : RpcFuture -> W -> res (Poll unit) * RpcFuture * W)
  : res (Poll unit) * RpcFuture * W :=
  match o with
  | (Ret None, f, w) => k f w
  | (Ret (Some p), f, w) => (Ret p, f, w)
  | (r, f, w) => (stop r, f, w)
  end.

(** [fuel] bounds the turns each loop may take. *)
(** [src/include/futures/service/RpcFuture.h:19-95] RpcFuture::poll *)
Definition RpcFuture_poll (fuel : nat) (f : RpcFuture) (w : W) : res (Poll unit) * RpcFuture * W :=
  after_loop (rpc_read fuel f w) (fun f w =>
  after_loop (rpc_write fuel f w) (fun f w =>
  after_loop (rpc_flush f w) (fun f w => (Ret not_ready, f, w)))).
End Rpc.

(** ** Server dispatchers *)
Section Server.
Context {W Req Resp F : Type} `{!Future W F Resp}.
Context `{!Service W Req F}.

(** [src/include/futures/service/ServerDispatcher.h:47-50] PipelineDispatcher *)
Record PipelineDispatcher := mkPipeline { max_inflight_ : nat; in_flight_ : list F }.

(** [src/include/futures/service/ServerDispatcher.h:19-24] PipelineDispatcher::dispatch *)
Definition Pipeline_dispatch (x : Req) (d : PipelineDispatcher) (w : W)
  : res unit * PipelineDispatcher * W :=
  if (max_inflight_ d <=? length (in_flight_ d))%nat
  then (Throw (DispatchException "too many inflight requests"), d, w)
  else let '(r, w) := service_ x w in
       match r with
       | Ret f => (Ret tt, mkPipeline (max_inflight_ d) (in_flight_ d ++ [f]), w)
       | r => (stop r, d, w)
       end.

(** [src/include/futures/service/ServerDispatcher.h:32-45] PipelineDispatcher::poll *)
Definition Pipeline_poll (d : PipelineDispatcher) (w : W)
  : res (Poll (option Resp)) * PipelineDispatcher * W :=
  match in_flight_ d with
  | [] => (Ret not_ready, d, w)
  | f :: fs =>
      let '(r, f, w) := poll f w in
      let rest := mkPipeline (max_inflight_ d) fs in
      let kept := mkPipeline (max_inflight_ d) (f :: fs) in
      match r with
      | Ret (EXCEPTION e) => (Ret (EXCEPTION e), rest, w)
      | Ret (VALUE (Some v)) => (Ret (makePollReady (Some v)), rest, w)
      | Ret (VALUE None) => (Ret not_ready, kept, w)
      | Ret NOTHING => (Throw UsingUninitializedTry, kept, w)
      | r => (stop r, kept, w)
      end
  end.

#[global] Instance Pipeline_IDispatcher : IDispatcher W PipelineDispatcher Req Resp := {
  dispatch := Pipeline_dispatch;
  dispatchErr _ d w := (Ret tt, d, w);
  has_in_flight d := match in_flight_ d with [] => false | _ => true end;
  dispatcher_poll := Pipeline_poll }.

(** [src/include/futures/service/ServerDispatcher.h:89-92] MultiplexDispatcher *)
Record MultiplexDispatcher := mkMultiplex { mx_max : nat; mx_in_flight : list (Z * F) }.

Context `{!HasCallId Req}.

(** [src/include/futures/service/ServerDispatcher.h:60-65] MultiplexDispatcher::dispatch *)
Definition Multiplex_dispatch (x : Req) (d : MultiplexDispatcher) (w : W)
  : res unit * MultiplexDispatcher * W :=
  if (mx_max d <=? length (mx_in_flight d))%nat
  then (Throw (DispatchException "too many inflight requests"), d, w)
  else let '(r, w) := service_ x w in
       match r with
       | Ret f => (Ret tt, mkMultiplex (mx_max d) (map_insert (getCallId x) f (mx_in_flight d)), w)
       | r => (stop r, d, w)
       end.

(** The loop over [in_flight_]: the result, what is left of the map, the world. *)
(** [src/include/futures/service/ServerDispatcher.h:76-86] MultiplexDispatcher::poll, loop *)
Fixpoint Multiplex_scan (l : list (Z * F)) (w : W) : res (Poll (option Resp)) * list (Z * F) * W :=
  match l with
  | [] => (Ret not_ready, [], w)
  | (k, f) :: l =>
      let '(r, f, w) := poll f w in
      match r with
      | Ret (EXCEPTION e) => (Ret (EXCEPTION e), l, w)
      | Ret (VALUE (Some v)) => (Ret (makePollReady (Some v)), l, w)
      | Ret (VALUE None) => let '(r, l, w) := Multiplex_scan l w in (r, (k, f) :: l, w)
      | Ret NOTHING => (Throw UsingUninitializedTry, (k, f) :: l, w)
      | r => (stop r, (k, f) :: l, w)
      end
  end.

(** [src/include/futures/service/ServerDispatcher.h:73-87] MultiplexDispatcher::poll *)
Definition Multiplex_poll (d : MultiplexDispatcher) (w : W)
  : res (Poll (option Resp)) * MultiplexDispatcher * W :=
  let '(r, l, w) := Multiplex_scan (mx_in_flight d) w in (r, mkMultiplex (mx_max d) l, w).

#[global] Instance Multiplex_IDispatcher : IDispatcher W MultiplexDispatcher Req Resp := {
  dispatch := Multiplex_dispatch;
  dispatchErr _ d w := (Ret tt, d, w);
  has_in_flight d := match mx_in_flight d with [] => false | _ => true end;
  dispatcher_poll := Multiplex_poll }.
End Server.

(** ** What a server promises

    [received] are the requests the stream has yielded, [replied] the responses
    the sink has accepted, [avail] bounds the requests the stream can yield
    before it says not ready. *)
Class Observed (W Req Resp : Type) := {
  received : W -> list Req; replied : W -> list Resp; avail : W -> nat }.

Section Laws.
Context {W Req Resp : Type} `{!Observed W Req Resp}.

(** Nothing was received and nothing was replied. *)
Definition quiet (w w' : W) : Prop :=
  received w' = received w /\ replied w' = replied w /\ (avail w' <= avail w)%nat.

Class TransportLaws `{!Transport W Req Resp} := {
  stream_item w x w' : stream_poll w = (Ret (VALUE (Some (Some x))), w') ->
    received w' = received w ++ [x] /\ replied w' = replied w /\ (avail w' < avail w)%nat;
  stream_other w r w' : stream_poll w = (r, w') ->
    (forall x, r <> Ret (VALUE (Some (Some x)))) -> quiet w w' /\ r <> OutOfFuel;
  send_item x w r w' : startSend x w = (r, w') -> r <> OutOfFuel /\
    match r with
    | Ret (VALUE _) =>
        received w' = received w /\ replied w' = replied w ++ [x] /\ (avail w' <= avail w)%nat
    | Ret NOTHING => False
    | _ => quiet w w'
    end;
  complete_quiet w r w' : pollComplete w = (r, w') -> quiet w w' /\ r <> OutOfFuel;
  shutdown_quiet w r w' : shutdownWrite w = (r, w') -> quiet w w' /\ r <> OutOfFuel }.

(** Every future the service makes for [x] completes, if it does, with a reply to [x]. *)
Class ServiceLaws {F} `{!Future W F Resp} `{!Service W Req F}
    (serves : Req -> F -> Prop) (replies : Req -> Resp -> Prop) := {
  service_serves x w r w' : service_ x w = (r, w') ->
    quiet w w' /\ r <> OutOfFuel /\ forall f, r = Ret f -> serves x f;
  future_quiet (f : F) (w : W) (r : res (Poll Resp)) f' w' : poll f w = (r, f', w') -> quiet w w' /\ r <> OutOfFuel;
  serves_poll x f (w : W) (r : res (Poll Resp)) f' w' : serves x f -> poll f w = (r, f', w') ->
    serves x f' /\ forall v, r = Ret (VALUE (Some v)) -> replies x v }.

(** The same requests: in the same order, or in any order. *)
Definition same_requests (ordered : bool) : relation (list Req) :=
  if ordered then eq else Permutation.

(** A dispatcher that [holds] the requests it has not answered. *)
Class ServerDispatcher (D : Type) `{!IDispatcher W D Req Resp} (ordered : bool)
    (admissible : list Req -> Prop) (replies : Req -> Resp -> Prop)
    (holds : D -> list Req -> Prop) := {
  admissible_app l k : admissible (l ++ k) -> admissible l;
  dispatch_quiet x d w r d' w' : dispatch x d w = (r, d', w') -> quiet w w' /\ r <> OutOfFuel;
  dispatch_holds x d ps answered rs w u d' w' :
    holds d ps -> same_requests ordered (answered ++ ps) rs -> admissible (rs ++ [x]) ->
    dispatch x d w = (Ret u, d', w') ->
    exists ps', holds d' ps' /\ same_requests ordered (ps ++ [x]) ps';
  poll_quiet d w r d' w' : dispatcher_poll d w = (r, d', w') -> quiet w w' /\ r <> OutOfFuel;
  poll_holds d ps w r d' w' :
    holds d ps -> dispatcher_poll d w = (r, d', w') ->
    match r with
    | Ret (VALUE None) => holds d' ps
    | Ret (VALUE (Some o)) => exists x v ps',
        o = Some v /\ same_requests ordered ps (x :: ps') /\ replies x v /\ holds d' ps'
    | _ => True
    end;
  err_quiet e d w r d' w' : dispatchErr e d w = (r, d', w') -> quiet w w' /\ r <> OutOfFuel;
  idle_holds d ps : holds d ps -> has_in_flight d = false -> ps = [] }.
End Laws.

Section RpcServer.
Context {W D Req Resp : Type} `{!Observed W Req Resp} `{!Transport W Req Resp}.
Context `{!TransportLaws (W := W) (Req := Req) (Resp := Resp)}.
Context `{!IDispatcher W D Req Resp} {ordered : bool} {admissible : list Req -> Prop}.
Context {replies : Req -> Resp -> Prop} {holds : D -> list Req -> Prop}.
Context `{!ServerDispatcher D ordered admissible replies holds}.

#[local] Notation "a ≈ b" := (same_requests ordered a b) (at level 70).

Lemma requests_refl (a : list Req) : a ≈ a.
Proof. unfold same_requests. by destruct ordered. Qed.
Lemma requests_trans (a b c : list Req) : a ≈ b -> b ≈ c -> a ≈ c.
Proof. unfold same_requests. destruct ordered; intros; by etrans. Qed.
Lemma requests_app (a a' b b' : list Req) : a ≈ a' -> b ≈ b' -> a ++ b ≈ a' ++ b'.
Proof. unfold same_requests. destruct ordered; [by intros -> ->|by intros; apply Permutation_app]. Qed.
Lemma requests_length (a b : list Req) : a ≈ b -> length a = length b.
Proof. unfold same_requests. destruct ordered; [by intros ->|apply Permutation_length]. Qed.
Lemma requests_sym (a b : list Req) : a ≈ b -> b ≈ a.
Proof. unfold same_requests. by destruct ordered. Qed.

(** The requests [answered] got the replies sent so far; the dispatcher holds [pending]. *)
Definition backlog (answered pending : list Req) (d : D) (w : W) : Prop :=
  answered ++ pending ≈ received w /\ Forall2 replies answered (replied w) /\ holds d pending.

(** Between two polls of a server that is not finished. *)
Definition serving (f : RpcFuture) (w : W) : Prop :=
  (exists a p, backlog a p (dispatcher_ f) w) /\ write_closed_ f = false.

(** Every reply sent answers a request, and no request is answered twice. *)
Definition sound_replies (w : W) : Prop :=
  exists answered rest, answered ++ rest ≈ received w /\ Forall2 replies answered (replied w).

Lemma quiet_backlog a p d w w' : quiet w w' -> backlog a p d w -> backlog a p d w'.
Proof. intros (Hr & Hp & _). unfold backlog. by rewrite Hr, Hp. Qed.

Lemma backlog_sound a p d w : backlog a p d w -> sound_replies w.
Proof. intros (? & ? & _). by exists a, p. Qed.

Lemma quiet_sound w w' : quiet w w' -> sound_replies w -> sound_replies w'.
Proof. intros (Hr & Hp & _). unfold sound_replies. by rewrite Hr, Hp. Qed.

(** A loop that returns does so with an exception. *)
Definition only_errors (r : res (option (Poll unit))) : Prop :=
  forall p, r = Ret (Some p) -> exists e, p = EXCEPTION e.

(** A result that ends [poll]. *)
Definition ends_poll (r : res (option (Poll unit))) : Prop :=
  r <> Ret None /\ r <> OutOfFuel /\ only_errors r.

Lemma quiet_refl w : quiet w w.
Proof. by repeat split. Qed.

Lemma quiet_trans w1 w2 w3 : quiet w1 w2 -> quiet w2 w3 -> quiet w1 w3.
Proof. intros (H1 & H2 & ?) (H3 & H4 & ?). split_and!; [congruence..|lia]. Qed.

Lemma rpc_read_closed fuel f w : read_closed_ f = true -> rpc_read fuel f w = (Ret None, f, w).
Proof. intros Hc. destruct fuel; cbn; by rewrite Hc. Qed.

Lemma ends_error e : ends_poll (Ret (Some (EXCEPTION e))).
Proof. split_and!; [done..|]. intros p [= <-]. eauto. Qed.
Lemma ends_throw e : ends_poll (Throw e).
Proof. split_and!; [done..|]. intros p. done. Qed.
Lemma ends_abort why : ends_poll (Abort why).
Proof. split_and!; [done..|]. intros p. done. Qed.
Lemma ends_after {A} (r : res A) e : r <> OutOfFuel -> ends_poll (let! _ := r in Ret (Some (EXCEPTION e))).
Proof. destruct r; cbn; auto using ends_error, ends_throw, ends_abort. done. Qed.
#[local] Hint Resolve ends_error ends_throw ends_abort ends_after : core.

Lemma fail_with_spec e f w r f' w' :
  fail_with e f w = (r, f', w') -> quiet w w' /\ ends_poll r /\ write_closed_ f' = write_closed_ f.
Proof.
  unfold fail_with. destruct (dispatchErr e (dispatcher_ f) w) as [[r1 d1] w1] eqn:He.
  intros [= <- <- <-]. apply err_quiet in He as [Hq Hn]. auto.
Qed.

(** What one turn of the read loop does. *)
Lemma rpc_read_turn fuel f w r f' w' :
  read_closed_ f = false -> rpc_read (S fuel) f w = (r, f', w') ->
  (quiet w w' /\ ((r = Ret None /\ dispatcher_ f' = dispatcher_ f) \/ ends_poll r) /\
   write_closed_ f' = write_closed_ f) \/
  (exists x w1, stream_poll w = (Ret (VALUE (Some (Some x))), w1) /\
     ((quiet w1 w' /\ ends_poll r /\ write_closed_ f' = write_closed_ f) \/
      (exists u d w2, dispatch x (dispatcher_ f) w1 = (Ret u, d, w2) /\
         rpc_read fuel (mkRpc d false (write_closed_ f)) w2 = (r, f', w')))).
Proof.
  intros Hc. cbn. rewrite Hc. destruct (stream_poll w) as [r1 w1] eqn:Hs.
  pose proof (stream_other _ _ _ Hs) as Ho.
  destruct r1 as [[[[x|]|]|e|]|e|why|].
  - intros Hr. right. exists x, w1. split; [done|].
    destruct (dispatch x (dispatcher_ f) w1) as [[r2 d2] w2] eqn:Hd.
    pose proof (dispatch_quiet _ _ _ _ _ _ Hd) as [Hq Hn]. destruct r2 as [u|e|why|]; [| | |done].
    + right. by exists u, d2, w2.
    + left. destruct (is_std e); [|injection Hr as <- <- <-; auto].
      destruct (shutdownWrite w2) as [r3 w3] eqn:Hw. apply shutdown_quiet in Hw as [Hq3 Hn3].
      injection Hr as <- <- <-. split; [by eapply quiet_trans|auto].
    + left. injection Hr as <- <- <-. auto.
  - rewrite rpc_read_closed by done. intros [= <- <- <-]. left. destruct Ho; auto.
  - intros [= <- <- <-]. left. destruct Ho; auto.
  - intros (Hq' & He & Hw)%fail_with_spec. left. destruct Ho as [Hq _]; [done|].
    split; [by eapply quiet_trans|auto].
  - intros [= <- <- <-]. left. destruct Ho; auto.
  - intros [= <- <- <-]. left. destruct Ho; auto.
  - intros [= <- <- <-]. left. destruct Ho; auto.
  - by destruct Ho.
Qed.

(** The read loop only receives. *)
Definition reads (w w' : W) : Prop :=
  (exists l, received w' = received w ++ l) /\ replied w' = replied w /\
  (length (received w') + avail w' <= length (received w) + avail w)%nat.

Lemma reads_quiet w w' : quiet w w' -> reads w w'.
Proof. intros (Hr & Hp & ?). unfold reads. rewrite Hr. split; [exists []; by rewrite app_nil_r|]. split; [done|lia]. Qed.

Lemma reads_item w x w' : stream_poll w = (Ret (VALUE (Some (Some x))), w') -> reads w w'.
Proof.
  intros (Hr & Hp & Ha)%stream_item. unfold reads. rewrite Hr, length_app. cbn.
  split; [eauto|]. split; [done|lia].
Qed.

Lemma reads_trans w1 w2 w3 : reads w1 w2 -> reads w2 w3 -> reads w1 w3.
Proof.
  intros ([l1 H1] & H2 & ?) ([l2 H3] & H4 & ?). split; [|split; [congruence|lia]].
  exists (l1 ++ l2). by rewrite H3, H1, app_assoc.
Qed.

Lemma rpc_read_reads fuel f w r f' w' :
  rpc_read fuel f w = (r, f', w') ->
  reads w w' /\ write_closed_ f' = write_closed_ f /\ only_errors r /\
  ((avail w < fuel)%nat -> r <> OutOfFuel).
Proof.
  revert f w. induction fuel as [|fuel IH]; intros f w; destruct (read_closed_ f) eqn:Hc.
  - cbn. rewrite Hc. intros [= <- <- <-]. pose proof (reads_quiet _ _ (quiet_refl w)).
    unfold only_errors. naive_solver.
  - cbn. rewrite Hc. intros [= <- <- <-]. pose proof (reads_quiet _ _ (quiet_refl w)).
    unfold only_errors. split_and!; [done..|naive_solver|lia].
  - cbn. rewrite Hc. intros [= <- <- <-]. pose proof (reads_quiet _ _ (quiet_refl w)).
    unfold only_errors. naive_solver.
  - intros [(Hq & He & Hw)|(x & w1 & Hs & H)]%rpc_read_turn; [| |done].
    + split; [by apply reads_quiet|]. split; [done|].
      destruct He as [[-> _]|(? & ? & ?)]; [|done]. unfold only_errors. naive_solver.
    + apply reads_item in Hs as Hr1. apply stream_item in Hs as (_ & _ & Ha).
      destruct H as [(Hq & (? & ? & ?) & Hw)|(u & d & w2 & Hd & Hr)].
      * split; [eapply reads_trans; [done|by apply reads_quiet]|done].
      * apply dispatch_quiet in Hd as [Hq _]. apply IH in Hr as (Hr & Hw & He & Hn).
        split; [eapply reads_trans; [done|]; eapply reads_trans; [by apply reads_quiet|done]|].
        split; [done|]. split; [done|]. destruct Hq as (_ & _ & ?). intros. apply Hn. lia.
Qed.

(** ... and keeps the account of the requests. *)
Lemma rpc_read_serving fuel f w r f' w' :
  serving f w -> rpc_read fuel f w = (r, f', w') -> admissible (received w') ->
  sound_replies w' /\ (r = Ret None -> serving f' w').
Proof.
  revert f w. induction fuel as [|fuel IH]; intros f w Hf; destruct (read_closed_ f) eqn:Hc;
    try (cbn; rewrite Hc; intros [= <- <- <-] _;
         destruct Hf as [(a & p & Hb) Hw]; pose proof (backlog_sound _ _ _ _ Hb);
         split; [done|intros; split; [by exists a, p|done]]).
  destruct Hf as [(a & p & Hb) Hw].
  intros [(Hq & He & Hw')|(x & w1 & Hs & H)]%rpc_read_turn Hadm; [| |done].
  - apply (quiet_backlog _ _ _ _ _ Hq) in Hb. split; [by eapply backlog_sound|]. intros ->.
    destruct He as [[_ Hd]|[? _]]; [|done]. split; [exists a, p; by rewrite Hd|congruence].
  - apply stream_item in Hs as (Hr1 & Hp1 & _). destruct Hb as (Ho & Hrep & Hh).
    destruct H as [(Hq & (Hnn & _) & _)|(u & d & w2 & Hd & Hr)].
    + split; [|done]. eapply quiet_sound; [done|]. exists a, (p ++ [x]).
      rewrite app_assoc, Hr1, Hp1. split; [|done]. apply requests_app; [done|apply requests_refl].
    + pose proof (dispatch_quiet _ _ _ _ _ _ Hd) as [(Hr2 & Hp2 & _) _].
      pose proof (rpc_read_reads _ _ _ _ _ _ Hr) as (([l Hl] & _) & _).
      rewrite Hl, Hr2, Hr1 in Hadm. apply admissible_app in Hadm as Hadm'.
      destruct (dispatch_holds _ _ _ _ _ _ _ _ _ Hh Ho Hadm' Hd) as (p' & Hh' & Hp').
      eapply IH; [|done|by rewrite Hl, Hr2, Hr1]. split; [|done]. exists a, p'. split_and!; [|by rewrite Hp2, Hp1|done].
      rewrite Hr2, Hr1. eapply requests_trans; [apply requests_app; [apply requests_refl|by apply requests_sym]|].
      rewrite app_assoc. apply requests_app; [done|apply requests_refl].
Qed.

Lemma backlog_length a p d w : backlog a p d w -> (length (received w) = length (replied w) + length p)%nat.
Proof.
  intros (Ho & Hr & _). rewrite <- (requests_length _ _ Ho), length_app.
  by rewrite (Forall2_length _ _ _ Hr).
Qed.

(** The write loop sends one reply per request it takes, and terminates. *)
Lemma rpc_write_serving fuel f w r f' w' :
  serving f w -> rpc_write fuel f w = (r, f', w') ->
  received w' = received w /\ sound_replies w' /\ only_errors r /\
  (r = Ret None -> serving f' w') /\
  ((length (received w) < fuel + length (replied w))%nat -> r <> OutOfFuel).
Proof.
  revert f w. induction fuel as [|fuel IH]; intros f w [(a & p & Hb) Hw]; cbn; rewrite Hw;
    pose proof (backlog_length _ _ _ _ Hb) as Hlen.
  { intros [= <- <- <-]. split; [done|]. split; [by eapply backlog_sound|].
    split; [done|]. split; [done|]. lia. }
  destruct (dispatcher_poll (dispatcher_ f) w) as [[r1 d1] w1] eqn:Hp.
  pose proof (poll_holds _ _ _ _ _ _ (proj2 (proj2 Hb)) Hp) as Hm.
  apply poll_quiet in Hp as [Hq Hn].
  pose proof (quiet_backlog _ _ _ _ _ Hq Hb) as Hb1.
  pose proof (backlog_sound _ _ _ _ Hb1) as Hs1. pose proof Hq as (Hr1 & Hp1 & _).
  assert (forall r2 : res (option (Poll unit)), ends_poll r2 -> (r2, mkRpc d1 (read_closed_ f) false, w1) = (r, f', w') ->
    received w' = received w /\ sound_replies w' /\ only_errors r /\
    (r = Ret None -> serving f' w') /\
    ((length (received w) < S fuel + length (replied w))%nat -> r <> OutOfFuel)) as Hend.
  { intros r2 (? & ? & ?) [= <- <- <-]. done. }
  destruct r1 as [[[o|]|e|]|e|why|]; [| |by apply Hend; auto..|done].
  - destruct Hm as (x & v & p' & -> & Hx & Hrep & Hh).
    destruct (startSend v w1) as [r2 w2] eqn:Hsd. apply send_item in Hsd as [Hn2 Hsd].
    destruct r2 as [[[]|e|]|e|why|]; [| |done| | |done].
    + destruct Hsd as (Hr2 & Hp2 & _). intros Hwr. apply IH in Hwr as (Hr & Hs & He & Hk & Hf).
      * split; [congruence|]. do 3 (split; [done|]). rewrite Hr2, Hr1, Hp2, Hp1, length_app in Hf.
        cbn in Hf. intros. apply Hf. lia.
      * split; [|done]. exists (a ++ [x]), p'. destruct Hb as (Ho & Ha & _).
        rewrite <- Hr1, <- Hr2 in Ho. rewrite <- Hp1 in Ha. split_and!; [|rewrite Hp2; by apply Forall2_app; auto|done].
        rewrite <- app_assoc. eapply requests_trans; [|done].
        apply requests_app; [apply requests_refl|by apply requests_sym].
    + intros (Hq3 & (? & ? & ?) & _)%fail_with_spec.
      pose proof (quiet_sound _ _ Hq3 (quiet_sound _ _ Hsd Hs1)).
      destruct Hsd as (Hr2 & _), Hq3 as (Hr3 & _). split; [congruence|done].
    + intros [= <- <- <-]. pose proof (quiet_sound _ _ Hsd Hs1). destruct Hsd as (Hr2 & _).
      split; [congruence|done].
    + intros [= <- <- <-]. pose proof (quiet_sound _ _ Hsd Hs1). destruct Hsd as (Hr2 & _).
      split; [congruence|done].
  - intros [= <- <- <-]. split; [done|]. split; [done|]. split; [done|]. split; [|done].
    intros _. split; [|done]. exists a, p. destruct Hb1 as (? & ? & _). done.
Qed.

(** Every request has been answered. *)
Definition complete_replies (w : W) : Prop :=
  exists answered, answered ≈ received w /\ Forall2 replies answered (replied w).

(** What [poll] may end with: an error, or the end of a server that has answered everything. *)
Definition good_end (r : res (option (Poll unit))) (w : W) : Prop :=
  forall p, r = Ret (Some p) -> (exists e, p = EXCEPTION e) \/ p = makePollReady tt /\ complete_replies w.

Lemma rpc_close_serving f w r f' w' :
  serving f w -> rpc_close f w = (r, f', w') ->
  quiet w w' /\ r <> OutOfFuel /\ (r = Ret None -> serving f' w') /\ good_end r w'.
Proof.
  intros [(a & p & Hb) Hw]. unfold rpc_close, good_end. rewrite Hw, orb_false_r.
  destruct (negb (has_in_flight (dispatcher_ f)) && read_closed_ f) eqn:Hc.
  - apply andb_prop in Hc as [Hi Hc]. apply negb_true_iff in Hi. rewrite Hc. cbn.
    destruct (shutdownWrite w) as [r1 w1] eqn:Hs. apply shutdown_quiet in Hs as [Hq1 Hn1].
    apply (quiet_backlog _ _ _ _ _ Hq1) in Hb as (Ho & Hr & Hh).
    rewrite (idle_holds _ _ Hh Hi), app_nil_r in Ho.
    destruct r1; [|intros [= <- <- <-]; auto using quiet_refl; naive_solver..|done].
    destruct (dispatchErr _ _ w1) as [[r2 d2] w2] eqn:Hd. apply err_quiet in Hd as [Hq2 Hn2].
    intros [= <- <- <-]. split; [by eapply quiet_trans|]. destruct r2; cbn; [|done..].
    split; [done|]. split; [done|]. intros ? [= <-]. right. split; [done|]. exists a.
    destruct Hq2 as (-> & -> & _). done.
  - cbn. rewrite andb_false_r. intros [= <- <- <-]. split; [apply quiet_refl|]. split; [done|].
    split; [|done]. intros _. split; [by exists a, p|done].
Qed.

Lemma rpc_flush_serving f w r f' w' :
  serving f w -> rpc_flush f w = (r, f', w') ->
  quiet w w' /\ r <> OutOfFuel /\ (r = Ret None -> serving f' w') /\ good_end r w'.
Proof.
  intros [(a & p & Hb) Hw]. unfold rpc_flush. destruct (pollComplete w) as [r1 w1] eqn:Hc.
  apply complete_quiet in Hc as [Hq1 Hn1]. pose proof (quiet_backlog _ _ _ _ _ Hq1 Hb) as Hb1.
  assert (serving f w1) as Hs by (split; [by exists a, p|done]).
  destruct r1 as [[u|e|]|e|why|]; [| | |intros [= <- <- <-]; done..|done].
  - intros (Hq & ?)%rpc_close_serving; [|done]. split; [by eapply quiet_trans|done].
  - intros (Hq & (? & ? & ?) & _)%fail_with_spec. split; [by eapply quiet_trans|].
    split; [done|]. split; [done|]. intros ? ->. left. auto.
  - intros (Hq & ?)%rpc_close_serving; [|done]. split; [by eapply quiet_trans|done].
Qed.

(** Outside the read loop nothing is received. *)
Lemma fail_with_received e f w r f' w' : fail_with e f w = (r, f', w') -> received w' = received w.
Proof. by intros ((? & _) & _)%fail_with_spec. Qed.

Lemma rpc_write_received fuel f w r f' w' :
  rpc_write fuel f w = (r, f', w') -> received w' = received w.
Proof.
  revert f w. induction fuel as [|fuel IH]; intros f w; cbn;
    (destruct (write_closed_ f); [by intros [= <- <- <-]|]); [by intros [= <- <- <-]|].
  destruct (dispatcher_poll (dispatcher_ f) w) as [[r1 d1] w1] eqn:Hp.
  apply poll_quiet in Hp as [(<- & _) _].
  destruct r1 as [[[[v|]|]|e|]|e|why|]; try by intros [= <- <- <-].
  - destruct (startSend v w1) as [r2 w2] eqn:Hs. apply send_item in Hs as [_ Hs].
    assert (received w2 = received w1) as <- by (destruct r2 as [[u|e|]|e|why|]; try done; by destruct Hs as (? & _)).
    destruct r2 as [[u|e|]|e|why|]; [by intros ?%IH|by intros ?%fail_with_received|by intros ?%IH|..];
      by intros [= <- <- <-].
  - destruct (shutdownWrite w1) as [r2 w2] eqn:Hs. apply shutdown_quiet in Hs as [(<- & _) _].
    destruct r2; [by intros ?%IH|by intros [= <- <- <-]..].
Qed.

Lemma rpc_close_received f w r f' w' : rpc_close f w = (r, f', w') -> received w' = received w.
Proof.
  unfold rpc_close. destruct (_ && _).
  - destruct (shutdownWrite w) as [r1 w1] eqn:Hs. apply shutdown_quiet in Hs as [(<- & _) _].
    destruct r1; [|by intros [= <- <- <-]..]. destruct (_ && _); [|by intros [= <- <- <-]].
    destruct (dispatchErr _ _ w1) as [[r2 d2] w2] eqn:Hd. apply err_quiet in Hd as [(<- & _) _].
    by intros [= <- <- <-].
  - destruct (_ && _); [|by intros [= <- <- <-]].
    destruct (dispatchErr _ _ w) as [[r2 d2] w2] eqn:Hd. apply err_quiet in Hd as [(<- & _) _].
    by intros [= <- <- <-].
Qed.

Lemma rpc_flush_received f w r f' w' : rpc_flush f w = (r, f', w') -> received w' = received w.
Proof.
  unfold rpc_flush. destruct (pollComplete w) as [r1 w1] eqn:Hc.
  apply complete_quiet in Hc as [(<- & _) _].
  destruct r1 as [[u|e|]|e|why|]; [by intros ?%rpc_close_received|by intros ?%fail_with_received|
    by intros ?%rpc_close_received|by intros [= <- <- <-]..].
Qed.

(** What one poll of a server establishes. *)
Definition served (fuel : nat) (w : W) (r : res (Poll unit)) (f' : RpcFuture) (w' : W) : Prop :=
  sound_replies w' /\ (r = Ret not_ready -> serving f' w') /\
  (r = Ret (makePollReady tt) -> complete_replies w') /\
  ((length (received w) + avail w < fuel)%nat -> r <> OutOfFuel).

(** A loop that ends the poll. *)
Lemma served_end fuel w o f' w' r :
  sound_replies w' -> good_end o w' -> o <> Ret None ->
  ((length (received w) + avail w < fuel)%nat -> o <> OutOfFuel) ->
  match o with Ret (Some p) => Ret p | o => stop o end = r -> served fuel w r f' w'.
Proof.
  unfold good_end, served. intros Hs Hg Hn Hf Hr.
  destruct o as [[p|]|e|why|]; [|done|cbn in Hr; subst; naive_solver..].
  subst. destruct (Hg p eq_refl) as [[e ->]|[-> ?]]; naive_solver.
Qed.

Lemma errors_good o w : only_errors o -> good_end o w.
Proof. intros He p Hp. left. by apply He. Qed.

(** The code after a loop runs, or the poll ends. *)
Lemma after_loop_cases (o : res (option (Poll unit))) (f : @RpcFuture D) (w : W) k out :
  after_loop (o, f, w) k = out ->
  (o = Ret None /\ k f w = out) \/
  (o <> Ret None /\ out = (match o with Ret (Some p) => Ret p | o => stop o end, f, w)).
Proof. destruct o as [[p|]|e|why|]; cbn; [right|left|right..]; by subst. Qed.

Lemma rpc_poll_served fuel f w r f' w' :
  serving f w -> RpcFuture_poll fuel f w = (r, f', w') -> admissible (received w') ->
  served fuel w r f' w'.
Proof.
  intros Hf Hp Ha. unfold RpcFuture_poll in Hp.
  destruct (rpc_read fuel f w) as [[r1 f1] w1] eqn:Hr.
  pose proof (rpc_read_reads _ _ _ _ _ _ Hr) as (([l Hl] & Hp1 & Hlen) & _ & He1 & Hn1).
  pose proof (rpc_read_serving _ _ _ _ _ _ Hf Hr) as Hs1.
  apply after_loop_cases in Hp as [[-> Hp]|[Hne [= -> -> ->]]]; last first.
  { destruct Hs1 as [Hs1 _]; [done|].
    eapply served_end; [done|by apply errors_good|done| |done]. intros. apply Hn1. lia. }
  destruct (rpc_write fuel f1 w1) as [[r2 f2] w2] eqn:Hw.
  pose proof (rpc_write_received _ _ _ _ _ _ Hw) as Hrw.
  assert (received w' = received w1) as Heq.
  { apply after_loop_cases in Hp as [[-> Hp]|[Hne [= -> -> ->]]]; [|done].
    destruct (rpc_flush f2 w2) as [[r3 f3] w3] eqn:Hfl. apply rpc_flush_received in Hfl.
    apply after_loop_cases in Hp as [[-> [= <- <- <-]]|[_ [= -> -> ->]]]; congruence. }
  rewrite Heq in Ha. destruct (Hs1 Ha) as [_ Hsv]. specialize (Hsv eq_refl). clear Hs1.
  pose proof (rpc_write_serving _ _ _ _ _ _ Hsv Hw) as (_ & Hs2 & He2 & Hk2 & Hn2).
  apply after_loop_cases in Hp as [[-> Hp]|[Hne [= -> -> ->]]]; last first.
  { eapply served_end; [done|by apply errors_good|done| |done]. intros. apply Hn2. lia. }
  destruct (rpc_flush f2 w2) as [[r3 f3] w3] eqn:Hfl.
  apply rpc_flush_serving in Hfl as (Hq3 & Hn3 & Hk3 & Hg3); [|by apply Hk2].
  pose proof (quiet_sound _ _ Hq3 Hs2) as Hs3.
  apply after_loop_cases in Hp as [[-> [= <- <- <-]]|[Hne [= -> -> ->]]].
  - split; [done|]. split; [auto|]. split; done.
  - by eapply served_end.
Qed.

(** Polls that say not ready, and between them anything that neither receives
    nor replies. *)
Inductive keeps_serving : RpcFuture -> W -> RpcFuture -> W -> Prop :=
| keeps_refl f w : keeps_serving f w f w
| keeps_poll f w fuel f1 w1 w2 f3 w3 :
    RpcFuture_poll fuel f w = (Ret not_ready, f1, w1) -> admissible (received w1) ->
    received w2 = received w1 -> replied w2 = replied w1 ->
    keeps_serving f1 w2 f3 w3 -> keeps_serving f w f3 w3.

Lemma keeps_serving_serving f w f' w' : keeps_serving f w f' w' -> serving f w -> serving f' w'.
Proof.
  induction 1 as [|f w fuel f1 w1 w2 f3 w3 Hp Ha Hr Hq _ IH]; [done|]. intros Hs. apply IH.
  apply rpc_poll_served in Hp as (_ & Hp & _); [|done..].
  destruct (Hp eq_refl) as [(a & p & Ho & Hf & Hh) Hw]. split; [|done].
  exists a, p. split_and!; [by rewrite Hr|by rewrite Hq|done].
Qed.
End RpcServer.

(** ** The server dispatchers keep the promise *)
Section ServerLaws.
Context {W Req Resp F : Type} `{!Observed W Req Resp} `{!Future W F Resp} `{!Service W Req F}.
Context {serves : Req -> F -> Prop} {replies : Req -> Resp -> Prop}.
Context `{!ServiceLaws (F := F) serves replies}.

(** The pipeline holds the futures of the requests, in order. *)
Definition pipeline_holds (d : @PipelineDispatcher F) (ps : list Req) : Prop :=
  Forall2 serves ps (in_flight_ d).

#[global] Instance pipeline_server :
  ServerDispatcher (W := W) (@PipelineDispatcher F) true (fun _ => True) replies pipeline_holds.
Proof.
  split; [done|..].
  - intros x d w r d' w'. cbn. unfold Pipeline_dispatch.
    destruct (_ <=? _)%nat; [intros [= <- <- <-]; split; [by repeat split|done]|].
    destruct (service_ x w) as [r1 w1] eqn:Hs. apply service_serves in Hs as (Hq & Hn & _).
    destruct r1; [..|done]; by intros [= <- <- <-].
  - intros x d ps a rs w u d' w' Hh _ _. cbn. unfold Pipeline_dispatch.
    destruct (_ <=? _)%nat; [done|].
    destruct (service_ x w) as [r1 w1] eqn:Hs. apply service_serves in Hs as (_ & _ & Hv).
    destruct r1 as [f|e|why|]; [|done..]. intros [= <- <- <-]. exists (ps ++ [x]). split; [|done].
    apply Forall2_app; [done|]. by repeat constructor; apply Hv.
  - intros d w r d' w'. cbn. unfold Pipeline_poll.
    destruct (in_flight_ d) as [|f fs]; [intros [= <- <- <-]; split; [by repeat split|done]|].
    destruct (poll f w) as [[r1 f1] w1] eqn:Hp. apply future_quiet in Hp as [Hq Hn].
    destruct r1 as [[[v|]|e|]|e|why|]; [..|done]; by intros [= <- <- <-].
  - intros [m fs] ps w r d' w' Hh. unfold pipeline_holds in *. cbn in *. unfold Pipeline_poll. cbn.
    destruct Hh as [|x f ps fs Hx Hh]; [intros [= <- <- <-]; by constructor|].
    destruct (poll f w) as [[r1 f1] w1] eqn:Hp. apply (serves_poll x) in Hp as [Hx' Hv]; [|done].
    destruct r1 as [[[v|]|e|]|e|why|]; intros [= <- <- <-]; cbn; try done; [|by constructor].
    exists x, v, ps. auto.
  - intros e d w r d' w' [= <- <- <-]. split; [by repeat split|done].
  - intros [m fs] ps. unfold pipeline_holds. cbn. by destruct 1.
Qed.

Context `{!HasCallId Req}.

(** The multiplexer holds the futures of the requests under their call ids. *)
Definition multiplex_holds (d : @MultiplexDispatcher F) (ps : list Req) : Prop :=
  Forall2 (fun x kf => getCallId x = kf.1 /\ serves x kf.2) ps (mx_in_flight d).

Lemma multiplex_scan_quiet (l : list (Z * F)) w r l' w' :
  Multiplex_scan (Resp := Resp) l w = (r, l', w') -> quiet w w' /\ r <> OutOfFuel.
Proof.
  revert w r l'. induction l as [|[k f] l IH]; intros w r l'; cbn.
  { intros [= <- <- <-]. split; [by repeat split|done]. }
  destruct (poll f w) as [[r1 f1] w1] eqn:Hp. apply future_quiet in Hp as [Hq Hn].
  destruct r1 as [[[v|]|e|]|e|why|]; try by intros [= <- <- <-].
  destruct (Multiplex_scan l w1) as [[r2 l2] w2] eqn:Hs. intros [= <- <- <-].
  apply IH in Hs as [Hq2 Hn2]. split; [|done]. by eapply quiet_trans.
Qed.

Lemma multiplex_scan_holds m l ps (w : W) r l' w' :
  multiplex_holds (mkMultiplex m l) ps -> Multiplex_scan l w = (r, l', w') ->
  match r with
  | Ret (VALUE None) => multiplex_holds (mkMultiplex m l') ps
  | Ret (VALUE (Some o)) => exists x v ps', o = Some v /\ ps ≡ₚ x :: ps' /\ replies x v /\
      multiplex_holds (mkMultiplex m l') ps'
  | _ => True
  end.
Proof.
  unfold multiplex_holds. cbn. intros Hh. revert w r l'.
  induction Hh as [|x [k f] ps l [Hk Hx] Hh IH]; intros w r l'; cbn; [intros [= <- <- <-]; by constructor|].
  cbn in Hk, Hx. destruct (poll f w) as [[r1 f1] w1] eqn:Hp.
  apply (serves_poll x) in Hp as [Hx' Hv]; [|done].
  destruct r1 as [[[v|]|e|]|e|why|]; try by intros [= <- <- <-].
  { intros [= <- <- <-]. exists x, v, ps. auto. }
  destruct (Multiplex_scan l w1) as [[r2 l2] w2] eqn:Hs. intros [= <- <- <-].
  apply IH in Hs. destruct r2 as [[[o|]|e|]|e|why|]; try done; [|by constructor].
  destruct Hs as (y & v & ps' & -> & Hps & Hr & Hh'). exists y, v, (x :: ps').
  split; [done|]. split; [rewrite Hps; apply Permutation_swap|]. split; [done|]. by constructor.
Qed.

Lemma multiplex_insert_holds m l ps x f :
  multiplex_holds (mkMultiplex m l) ps -> serves x f -> getCallId x ∉ getCallId <$> ps ->
  exists ps', multiplex_holds (mkMultiplex m (map_insert (getCallId x) f l)) ps' /\ ps ++ [x] ≡ₚ ps'.
Proof.
  unfold multiplex_holds. cbn. intros Hh Hx Hn.
  assert (getCallId <$> ps = l.*1) as Hk by (clear Hn; induction Hh; cbn; f_equal; naive_solver).
  rewrite Hk in Hn. pose proof (map_insert_new _ f _ Hn) as Hp.
  assert (Forall2 (fun x kf => getCallId x = kf.1 /\ serves x kf.2) (x :: ps) ((getCallId x, f) :: l)) as Hc
    by (by constructor).
  symmetry in Hp. apply Forall2_flip in Hc. destruct (Permutation_Forall2 Hp Hc) as (ps' & Hps & Hf).
  exists ps'. split; [by apply Forall2_flip|]. rewrite <- Hps. apply Permutation_app_comm.
Qed.

#[global] Instance multiplex_server :
  ServerDispatcher (W := W) (@MultiplexDispatcher F) false (fun rs => NoDup (getCallId <$> rs))
    replies multiplex_holds.
Proof.
  split.
  - intros l k. rewrite fmap_app. by intros [? _]%NoDup_app.
  - intros x d w r d' w'. cbn. unfold Multiplex_dispatch.
    destruct (_ <=? _)%nat; [intros [= <- <- <-]; split; [by repeat split|done]|].
    destruct (service_ x w) as [r1 w1] eqn:Hs. apply service_serves in Hs as (Hq & Hn & _).
    destruct r1; [..|done]; by intros [= <- <- <-].
  - intros x [m l] ps a rs w u d' w' Hh Ho Ha. cbn. unfold Multiplex_dispatch. cbn.
    destruct (_ <=? _)%nat; [done|].
    destruct (service_ x w) as [r1 w1] eqn:Hs. apply service_serves in Hs as (_ & _ & Hv).
    destruct r1 as [f|e|why|]; [|done..]. intros [= <- <- <-]. cbn in Ho.
    apply multiplex_insert_holds; [done|by apply Hv|]. rewrite <- Ho, !fmap_app in Ha.
    apply NoDup_app in Ha as (_ & Ha & _). set_solver.
  - intros [m l] w r d' w'. cbn. unfold Multiplex_poll. cbn.
    destruct (Multiplex_scan l w) as [[r1 l1] w1] eqn:Hs. intros [= <- <- <-].
    by eapply multiplex_scan_quiet.
  - intros [m l] ps w r d' w' Hh. cbn. unfold Multiplex_poll. cbn.
    destruct (Multiplex_scan l w) as [[r1 l1] w1] eqn:Hs. intros [= <- <- <-].
    by eapply multiplex_scan_holds.
  - intros e d w r d' w' [= <- <- <-]. split; [by repeat split|done].
  - intros [m l] ps. unfold multiplex_holds. cbn. by destruct 1.
Qed.
End ServerLaws.

(** ** Server theorems *)
Section ServerTheorems.
Context {W Req Resp F : Type} `{!Observed W Req Resp} `{!Transport W Req Resp}.
Context `{!TransportLaws (W := W) (Req := Req) (Resp := Resp)}.
Context `{!Future W F Resp} `{!Service W Req F}.
Context {serves : Req -> F -> Prop} {replies : Req -> Resp -> Prop}.
Context `{!ServiceLaws (F := F) serves replies}.


Context `{!HasCallId Req}.

End ServerTheorems.

(** ** A concrete server: it echoes the id of a request after some polls. *)
Module Echo.
Record Request := mkRequest { call_id : Z; delay : nat }.

(** The connection: what the stream will yield, what it has, what was sent. *)
Record Conn := mkConn { inbox : list (Poll (option Request)); ins : list Request; outs : list Z }.

#[global] Instance conn_observed : Observed Conn Request Z :=
  {| received := ins; replied := outs; avail w := length (inbox w) |}.

#[global] Instance conn_transport : Transport Conn Request Z := {|
  stream_poll w :=
    match inbox w with
    | [] => (Ret not_ready, w)
    | p :: l => (Ret p, mkConn l (ins w ++ match p with VALUE (Some (Some x)) => [x] | _ => [] end) (outs w))
    end;
  startSend x w := (Ret (VALUE tt), mkConn (inbox w) (ins w) (outs w ++ [x]));
  pollComplete w := (Ret (makePollReady tt), w);
  shutdownWrite w := (Ret tt, w) |}.

#[global] Instance conn_laws : TransportLaws (W := Conn) (Req := Request) (Resp := Z).
Proof.
  split.
  - intros [[|p l] i o] x w'; [done|]. cbn. intros [= -> <-]. cbn. split_and!; [done..|lia].
  - intros [[|p l] i o] r w'; cbn; intros [= <- <-] Hx; [by repeat split|].
    split; [|done]. split_and!; cbn; [|done|lia].
    destruct p as [[[x|]|]|e|]; [by destruct (Hx x)|..]; by rewrite app_nil_r.
  - intros x w r w' [= <- <-]. by repeat split.
  - intros w r w' [= <- <-]. by repeat split.
  - intros w r w' [= <- <-]. by repeat split.
Qed.

#[global] Instance echo_future : Future Conn Request Z := fun f w =>
  match delay f with
  | O => (Ret (makePollReady (call_id f)), f, w)
  | S n => (Ret not_ready, mkRequest (call_id f) n, w)
  end.
#[global] Instance echo_service : Service Conn Request Request := fun x w => (Ret x, w).
#[global] Instance echo_id : HasCallId Request := call_id.

#[global] Instance echo_laws : ServiceLaws (F := Request)
  (fun x f => call_id f = call_id x) (fun x v => v = call_id x).
Proof.
  split.
  - intros x w r w' [= <- <-]. split; [by repeat split|]. split; [done|]. by intros f [= <-].
  - intros [k [|n]] w r f' w' [= <- <- <-]; (split; [by repeat split|done]).
  - intros x [k [|n]] w r f' w' Hx [= <- <- <-]; (split; [done|]); [by intros v [= <-]|done].
Qed.

Definition item (k : Z) (n : nat) : Poll (option Request) := makePollReady (Some (mkRequest k n)).
Definition script (n : nat) : list (Poll (option Request)) := [item 7 n; item 8 0; makePollReady None].
End Echo.
Import Echo.



(** A request with the call id of one in flight gets no reply. *)
Example server_duplicate_id :
  let '(r, _, w) := RpcFuture_poll 9 (mkRpc (@mkMultiplex Request 4 []) false false)
    (mkConn [item 7 0; item 7 0; makePollReady None] [] []) in
  r = Ret (makePollReady tt) /\ length (received w) = 2%nat /\ replied w = [7].
Proof. vm_compute. repeat split. Qed.
