(* ===== verification/ClientRpc.v ===== *)
(** * Clients of a service

    Models [src/include/futures/service/ClientDispatcher.h]: the two client
    dispatchers, which turn calls into requests and responses into the results
    of the calls.  The classes differ in how they keep the promises of the calls
    that wait for a response, a [std::deque] or a [std::map] by call id; that is
    the class [Outstanding], the rest is shared. *)

From S2P Require Import Prelude Core Futures FutureLaws Streams Channels Service.
From stdpp Require Import pretty.
Local Open Scope cpp_scope.
Local Open Scope Z_scope.
Import Oneshot.

Lemma filter_all {A} (P : A -> Prop) `{!forall x, Decision (P x)} l : Forall P l -> filter P l = l.
Proof. induction 1; [done|]. rewrite filter_cons_True by done. by f_equal. Qed.

(** ** The promises that wait for a response *)

(** A promise is the index of its channel.  [put] stores a promise, or not
    ([false]); [take] gives the promise a response settles and what [pop_front]
    or [erase] leaves. *)
Class Outstanding (C Req Resp : Type) := {
  no_promises : C;
  promises : C -> list nat;
  put_promise : Req -> nat -> C -> C * bool;
  take_promise : Resp -> C -> res (nat * C) }.

Section Containers.
Context {Req Resp : Type}.

(** [src/include/futures/service/ClientDispatcher.h:73-73] PipelineClientDispatcher::promise_ *)
Definition Fifo : Type := list nat.

(** [src/include/futures/service/ClientDispatcher.h:30-34] PipelineClientDispatcher::dispatch, the promise *)
Definition fifo_take (r : Resp) (c : Fifo) : res (nat * Fifo) :=
  match c with
  | [] => Throw (DispatchException "unexpected server response")
  | p :: c => Ret (p, c)
  end.

#[global] Instance Fifo_Outstanding : Outstanding Fifo Req Resp := {|
  no_promises := [];
  promises c := c;
  put_promise _ p c := (c ++ [p], true);
  take_promise := fifo_take |}.

Context `{!HasCallId Req} `{!HasCallId Resp}.

(** [src/include/futures/service/ClientDispatcher.h:152-152] MultiplexClientDispatcher::promise_ *)
Definition ById : Type := list (Z * nat).

(** [src/include/futures/service/ClientDispatcher.h:112-117] MultiplexClientDispatcher::dispatch, the promise *)
Definition byid_take (r : Resp) (c : ById) : res (nat * ById) :=
  match map_take (getCallId r) c with
  | None => Throw (DispatchException ("unexpected server response with callid: " ++ pretty (getCallId r)))
  | Some pc => Ret pc
  end.

(** [src/include/futures/service/ClientDispatcher.h:101-104] MultiplexClientDispatcher::operator(), the promise *)
Definition byid_put (x : Req) (p : nat) (c : ById) : ById * bool :=
  (map_insert (getCallId x) p c, negb (existsb (fun kp => kp.1 =? getCallId x) c)).

#[global] Instance ById_Outstanding : Outstanding ById Req Resp := {|
  no_promises := [];
  promises c := c.*2;
  put_promise := byid_put;
  take_promise := byid_take |}.
End Containers.

(** ** The dispatcher *)
Section Client.
Context {C Req Resp : Type} `{!Outstanding C Req Resp}.

(** [src/include/futures/service/ClientDispatcher.h:71-74] PipelineClientDispatcher *)
Record Client := mkClient {
  closed_ : bool; unsent_ : list Req; promise_ : C; task_ : option Task }.

(** The channels of all promises ever made, with what their owners did. *)
Abbreviation Cells := (list (PW (T := Resp))).

(** A client dispatcher and the channels its futures wait on. *)
Definition CS : Type := Client * Cells.

Definition fresh : CS := (mkClient false [] no_promises None, []).

(** The owner of a promise acts on its channel. *)
Definition owner_acts (o : op (Try Resp)) (w : PW (T := Resp)) : out (PW (T := Resp)) unit :=
  let '(r, c, woken) := exec o (fst w) in (r, (c, snd w ++ [o]), woken).

Definition on_cell (p : nat) (o : op (Try Resp)) (st : Cells) : out Cells unit :=
  match st !! p with
  | Some w => let '(r, w, woken) := owner_acts o w in (r, <[p := w]> st, woken)
  | None => (Abort "no such channel", st, [])
  end.

Fixpoint each_cell (ps : list nat) (o : op (Try Resp)) (st : Cells) : out Cells unit :=
  match ps with
  | [] => (Ret tt, st, [])
  | p :: ps =>
      let '(r, st, woken) := on_cell p o st in
      match r with
      | Ret _ => let '(r, st, woken') := each_cell ps o st in (r, st, woken ++ woken')
      | r => (r, st, woken)
      end
  end.

(** [src/include/futures/service/ClientDispatcher.h:80-83] PipelineClientDispatcher::notify *)
Definition client_notify (d : Client) : Client * list Task :=
  (mkClient (closed_ d) (unsent_ d) (promise_ d) None,
   match task_ d with Some t => [t] | None => [] end).

(** The call returns the future of promise [length st].  A promise that is not
    stored is destroyed with the pair that holds it. *)
(** [src/include/futures/service/ClientDispatcher.h:18-25] PipelineClientDispatcher::operator() *)
Definition client_call (x : Req) (s : CS) : out CS nat :=
  let '(d, st) := s in
  let p := length st in
  let st := st ++ [(empty, [])] in
  let '(c, stored) := put_promise x p (promise_ d) in
  let '(r, st, woken) := if stored then (Ret tt, st, []) else on_cell p CloseSender st in
  let '(d, woken') := client_notify (mkClient (closed_ d) (unsent_ d ++ [x]) c (task_ d)) in
  (let! _ := r in Ret p, (d, st), woken ++ woken').

(** [src/include/futures/service/ClientDispatcher.h:27-35] PipelineClientDispatcher::dispatch *)
Definition client_dispatch (x : Resp) (s : CS) : out CS unit :=
  let '(d, st) := s in
  match take_promise x (promise_ d) with
  | Ret (p, c) =>
      let '(r, st, woken) := on_cell p (Send (VALUE x)) st in
      match r with
      | Ret _ =>
          let '(r, st, woken') := on_cell p CloseSender st in
          (r, (mkClient (closed_ d) (unsent_ d) c (task_ d), st), woken ++ woken')
      | r => (r, (d, st), woken)
      end
  | r => (stop r, s, [])
  end.

(** [src/include/futures/service/ClientDispatcher.h:85-90] PipelineClientDispatcher::closeNow *)
Definition closeNow (s : CS) : out CS unit :=
  let '(d, st) := s in
  let '(r, st, woken) := each_cell (promises (promise_ d)) CloseSender st in
  let '(d, woken') := client_notify (mkClient true [] no_promises (task_ d)) in
  (r, (d, st), woken ++ woken').

(** [src/include/futures/service/ClientDispatcher.h:37-41] PipelineClientDispatcher::dispatchErr *)
Definition client_dispatchErr (e : exception_wrapper) (s : CS) : out CS unit :=
  let '(d, st) := s in
  let '(r, st, woken) := each_cell (promises (promise_ d)) (Send (EXCEPTION e)) st in
  match r with
  | Ret _ => let '(r, s, woken') := closeNow (d, st) in (r, s, woken ++ woken')
  | r => (r, (d, st), woken)
  end.

(** [src/include/futures/service/ClientDispatcher.h:43-55] PipelineClientDispatcher::poll *)
Definition client_poll (cur : option Task) (s : CS) : out CS (Poll (option Req)) :=
  let '(d, st) := s in
  match unsent_ d with
  | [] =>
      if closed_ d then (Ret (makePollReady None), s, [])
      else match CurrentTask_park cur with
           | Ret t => (Ret not_ready, (mkClient (closed_ d) (unsent_ d) (promise_ d) (Some t), st), [])
           | r => (stop r, s, [])
           end
  | x :: xs => (Ret (makePollReady (Some x)), (mkClient (closed_ d) xs (promise_ d) (task_ d), st), [])
  end.

(** The operations that change what [poll] gives. *)
Inductive client_op := Call (x : Req) | Dispatch (x : Resp) | DispatchErr (e : exception_wrapper) | Close.

Definition client_exec (o : client_op) (s : CS) : out CS unit :=
  match o with
  | Call x => let '(r, s, woken) := client_call x s in (let! _ := r in Ret tt, s, woken)
  | Dispatch x => client_dispatch x s
  | DispatchErr e => client_dispatchErr e s
  | Close => closeNow s
  end.

(** The task of the connection, parked because there is nothing to send. *)
#[global] Instance client_wakes : WakesReceiver CS client_op (option Req) client_exec client_poll.
Proof.
  refine {| armed t s := unsent_ s.1 = [] /\ closed_ s.1 = false /\ task_ s.1 = Some t |}.
  - intros t [[cl [|x xs] c tk] st] s' woken; cbn; [|done]. destruct cl; [done|]. by intros [= <- <-].
  - intros t [[cl xs c tk] st] (Hu & Hc & Ht); cbn in *. subst. cbn. eauto.
  - intros t o [[cl xs c tk] st] r s' woken (Hu & Hc & Ht); cbn in *. subst.
    destruct o as [x|x|e|]; cbn.
    + destruct (put_promise _ _ _) as [c1 b]. destruct (if b then _ else _) as [[r1 st1] w1].
      intros [= <- <- <-]. right. set_solver.
    + destruct (take_promise _ _) as [[p c1]|e|why|]; [|by intros [= <- <- <-]; left..].
      destruct (on_cell _ _ st) as [[r1 st1] w1]. destruct r1; [|by intros [= <- <- <-]; left..].
      destruct (on_cell _ _ st1) as [[r2 st2] w2]. intros [= <- <- <-]. by left.
    + destruct (each_cell _ _ st) as [[r1 st1] w1]. destruct r1; [|by intros [= <- <- <-]; left..].
      cbn. destruct (each_cell _ _ st1) as [[r2 st2] w2]. intros [= <- <- <-]. right. set_solver.
    + destruct (each_cell _ _ st) as [[r1 st1] w1]. intros [= <- <- <-]. right. set_solver.
Qed.

(** ** The contract of a client

    A call is answered or waits; requests wait to be sent.  [clash x y]: a call
    with request [x] is refused while a call with request [y] waits; [answers x
    r]: the response [r] is one to the request [x]. *)
Record Spec := mkSpec { calls : list (Req * option (Try Resp)); to_send : list Req; over : bool }.

(** What the caller of an operation sees. *)
Inductive seen := Called (p : nat) | Done | Polled (p : Poll (option Req)).

(** What happens at a client, in some order: the operations, the polls of the
    connection by task [t], and what the users do with the futures they hold. *)
Inductive event :=
| Op (o : client_op)
| Poll_by (t : Task)
| Await (p : nat) (cur : option Task)
| Discard (p : nat).

Context `{!Movable Resp}.

(** The user of future [p] polls it, or destroys it. *)
Definition user_polls (p : nat) (cur : option Task) (st : Cells) : Cells :=
  alter (fun w => snd (PromiseFuture_poll cur (mkPromiseFuture true NOTHING) w)) p st.
Definition user_drops (p : nat) (st : Cells) : Cells :=
  alter (fun w => ((closeReceiver (fst w)).1.2, snd w)) p st.

Definition client_event (e : event) (s : CS) : res seen * CS :=
  match e with
  | Op (Call x) => let '(r, s, _) := client_call x s in (let! p := r in Ret (Called p), s)
  | Op o => let '(r, s, _) := client_exec o s in (let! _ := r in Ret Done, s)
  | Poll_by t => let '(r, s, _) := client_poll (Some t) s in (let! p := r in Ret (Polled p), s)
  | Await p cur => (Ret Done, (s.1, user_polls p cur s.2))
  | Discard p => (Ret Done, (s.1, user_drops p s.2))
  end.

Context (clash : Req -> Req -> bool) (answers : Req -> Resp -> bool) (unexpected : Resp -> exn).

(** The calls that wait, with their position. *)
Fixpoint waiting_from (k : nat) (l : list (Req * option (Try Resp))) : list (nat * Req) :=
  match l with
  | [] => []
  | (x, None) :: l => (k, x) :: waiting_from (S k) l
  | _ :: l => waiting_from (S k) l
  end.
Definition waiting_calls (s : Spec) : list (nat * Req) := waiting_from 0 (calls s).

Definition cancelled_call : Try Resp := EXCEPTION (Some (FutureCancelledException CR_Unknown)).

Definition settle (p : nat) (t : Try Resp) (l : list (Req * option (Try Resp))) :=
  alter (fun e => (e.1, Some t)) p l.
Definition settle_all (t : Try Resp) (l : list (Req * option (Try Resp))) :=
  (fun e : Req * option (Try Resp) => (e.1, Some (default t e.2))) <$> l.

Definition spec_event (e : event) (s : Spec) : res seen * Spec :=
  match e with
  | Op (Call x) =>
      let refused := existsb (fun w => clash x w.2) (waiting_calls s) in
      (Ret (Called (length (calls s))),
       mkSpec (calls s ++ [(x, if refused then Some cancelled_call else None)]) (to_send s ++ [x]) (over s))
  | Op (Dispatch r) =>
      match List.find (fun w => answers w.2 r) (waiting_calls s) with
      | Some (p, _) => (Ret Done, mkSpec (settle p (VALUE r) (calls s)) (to_send s) (over s))
      | None => (Throw (unexpected r), s)
      end
  | Op (DispatchErr e) => (Ret Done, mkSpec (settle_all (EXCEPTION e) (calls s)) [] true)
  | Op Close => (Ret Done, mkSpec (settle_all cancelled_call (calls s)) [] true)
  | Poll_by _ =>
      match to_send s with
      | x :: xs => (Ret (Polled (makePollReady (Some x))), mkSpec (calls s) xs (over s))
      | [] => (Ret (Polled (if over s then makePollReady None else not_ready)), s)
      end
  | _ => (Ret Done, s)
  end.

(** What the container of the promises has to do: [tracks c l], it keeps the
    promises of the waiting calls [l]. *)
Class OutstandingLaws (tracks : C -> list (nat * Req) -> Prop) := {
  tracks_none : tracks no_promises [];
  tracks_promises c l : tracks c l -> promises c ≡ₚ l.*1;
  tracks_put x p c l : tracks c l ->
    let '(c', stored) := put_promise x p c in
    stored = negb (existsb (fun w => clash x w.2) l) /\
    tracks c' (l ++ if stored then [(p, x)] else []);
  tracks_take r c l : tracks c l -> NoDup l.*1 ->
    match take_promise r c with
    | Ret (p, c') => exists x, List.find (fun w => answers w.2 r) l = Some (p, x) /\
        tracks c' (filter (fun w => w.1 <> p) l)
    | Throw e => e = unexpected r /\ List.find (fun w => answers w.2 r) l = None
    | _ => False
    end }.

(** ** The waiting calls *)
Lemma elem_of_waiting k l i x : (i, x) ∈ waiting_from k l <-> (k <= i)%nat /\ l !! (i - k)%nat = Some (x, None).
Proof.
  revert k. induction l as [|[y o] l IH]; intros k; cbn; [split; [set_solver|naive_solver]|].
  assert (i = k \/ (k < i)%nat \/ (i < k)%nat) as [->|[Hlt|Hlt]] by lia.
  - rewrite Nat.sub_diag. destruct o; cbn; rewrite ?elem_of_cons, IH; [split; [lia|naive_solver]|].
    split; [intros [[= <-]|[? _]]; [auto|lia]|intros [_ [= <-]]; auto].
  - replace (i - k)%nat with (S (i - S k)) by lia. cbn.
    destruct o; rewrite ?elem_of_cons, IH; [split; intros []; split; auto; lia|].
    split; [intros [[= ? ?]|[? ?]]; [lia|split; auto; lia]|intros [? ?]; right; split; auto; lia].
  - destruct o; rewrite ?elem_of_cons, IH; [split; intros [? ?]; exfalso; lia|].
    split; [intros [[= ? ?]|[? ?]]; exfalso; lia|intros [? ?]; exfalso; lia].
Qed.

Lemma waiting_nodup k l : NoDup (waiting_from k l).*1.
Proof.
  revert k. induction l as [|[y [o|]] l IH]; intros k; cbn; [constructor|apply IH|].
  constructor; [|apply IH]. intros ([i x] & -> & Hi)%list_elem_of_fmap. apply elem_of_waiting in Hi. cbn in Hi. lia.
Qed.

Lemma waiting_app k l l' : waiting_from k (l ++ l') = waiting_from k l ++ waiting_from (k + length l) l'.
Proof.
  revert k. induction l as [|[y [o|]] l IH]; intros k; cbn; [by rewrite Nat.add_0_r|..];
    replace (k + S (length l))%nat with (S k + length l)%nat by lia; by rewrite IH.
Qed.

Lemma waiting_settle k p t l :
  waiting_from k (settle p t l) = filter (fun w => w.1 <> (k + p)%nat) (waiting_from k l).
Proof.
  revert k p. induction l as [|[y o] l IH]; intros k p; [by destruct p|].
  destruct p as [|p]; unfold settle; cbn [alter list_alter fst].
  - rewrite Nat.add_0_r.
    assert (filter (fun w : nat * Req => w.1 <> k) (waiting_from (S k) l) = waiting_from (S k) l) as Hf.
    { apply filter_all, Forall_forall. intros [i x] Hi%elem_of_waiting. cbn. lia. }
    destruct o; cbn [waiting_from fst]; [done|]. rewrite filter_cons_False; [done|cbn; lia].
  - replace (k + S p)%nat with (S k + p)%nat by lia. specialize (IH (S k) p). unfold settle in IH.
    destruct o; cbn [waiting_from]; rewrite IH; [done|]. rewrite filter_cons_True; [done|cbn; lia].
Qed.

Lemma settle_insert p t l x o : l !! p = Some (x, o) -> settle p t l = <[p := (x, Some t)]> l.
Proof.
  revert p. induction l as [|e l IH]; intros [|p] Hp; [done..|by injection Hp as ->|].
  unfold settle in *. cbn. f_equal. by apply IH.
Qed.

Lemma waiting_settle_all k t l : waiting_from k (settle_all t l) = [].
Proof. revert k. induction l as [|[y o] l IH]; intros k; cbn; [done|apply IH]. Qed.

(** ** Channels and results of calls *)

(** Nothing was done to the channel of a call that waits, except by its user;
    the first thing done to the others is their result. *)
Definition cell_ok (w : PW (T := Resp)) (o : option (Try Resp)) : Prop :=
  match o with
  | None => snd w = [] /\ s_ (fst w) <> Ready
  | Some t => exists a h, snd w = a :: h /\ resolved a = t
  end.

Lemma cell_act w o : cell_ok w None -> o <> Cancel ->
  exists w' woken, owner_acts o w = (Ret tt, w', woken) /\ cell_ok w' (Some (resolved o)).
Proof.
  destruct w as [[st v r] h]. cbn. intros [-> Hs] Ho.
  destruct o; [|done|]; destruct st; cbn; naive_solver.
Qed.

Lemma cell_close w t : cell_ok w t ->
  exists w' woken, owner_acts CloseSender w = (Ret tt, w', woken) /\
    cell_ok w' (Some (default cancelled_call t)).
Proof.
  destruct t as [t|]; [|by intros; apply cell_act].
  destruct w as [[st v r] h]. cbn. intros (a & h' & -> & <-).
  destruct st; cbn; naive_solver.
Qed.

(** One promise settled, or one closed. *)
Lemma on_cell_spec p o (st : Cells) (P Q : PW (T := Resp) -> Prop) :
  (forall w, P w -> exists w' woken, owner_acts o w = (Ret tt, w', woken) /\ Q w') ->
  (exists w, st !! p = Some w /\ P w) ->
  exists w' woken, on_cell p o st = (Ret tt, <[p := w']> st, woken) /\ Q w'.
Proof.
  intros HPQ (w & Hw & HP). destruct (HPQ w HP) as (w' & woken & He & HQ).
  exists w', woken. unfold on_cell. by rewrite Hw, He.
Qed.

Lemma each_cell_spec ps o (st : Cells) (P Q : nat -> PW (T := Resp) -> Prop) :
  (forall p w, P p w -> exists w' woken, owner_acts o w = (Ret tt, w', woken) /\ Q p w') ->
  NoDup ps -> (forall p, p ∈ ps -> exists w, st !! p = Some w /\ P p w) ->
  exists st' woken, each_cell ps o st = (Ret tt, st', woken) /\ length st' = length st /\
    forall p w', st' !! p = Some w' -> if decide (p ∈ ps) then Q p w' else st !! p = Some w'.
Proof.
  intros HPQ. revert st. induction ps as [|p ps IH]; intros st Hnd Hps; cbn.
  { exists st, []. split; [done|]. split; [done|]. intros p w' Hw. by rewrite decide_False by set_solver. }
  apply NoDup_cons in Hnd as [Hp Hnd].
  destruct (on_cell_spec p o st (P p) (Q p) (HPQ p)) as (w1 & woken & -> & HQ); [set_solver|].
  destruct (IH (<[p:=w1]> st)) as (st' & woken' & -> & Hlen & Hst); [done| |].
  { intros q Hq. rewrite list_lookup_insert_ne by set_solver. set_solver. }
  rewrite length_insert in Hlen. exists st', (woken ++ woken'). split; [done|]. split; [done|].
  intros q w' Hw. specialize (Hst q w' Hw). destruct (decide (q = p)) as [->|Hne].
  - rewrite decide_True by set_solver. rewrite decide_False in Hst by done.
    rewrite list_lookup_insert_eq in Hst; [by simplify_eq|].
    rewrite <- Hlen. by eapply lookup_lt_Some.
  - rewrite list_lookup_insert_ne in Hst by done.
    destruct (decide (q ∈ ps)); [by rewrite decide_True by set_solver|by rewrite decide_False by set_solver].
Qed.

Definition cells_ok (st : Cells) (l : list (Req * option (Try Resp))) : Prop :=
  Forall2 (fun w e => cell_ok w e.2) st l.

(** The promises of the waiting calls settled, all with the same result. *)
Lemma each_settle ps o (st : Cells) l :
  cells_ok st l -> ps ≡ₚ (waiting_from 0 l).*1 -> o <> Cancel ->
  exists st' woken, each_cell ps o st = (Ret tt, st', woken) /\ cells_ok st' (settle_all (resolved o) l).
Proof.
  intros Hst Hps Ho. assert (NoDup ps) as Hnd by (rewrite Hps; apply waiting_nodup).
  assert (forall p, p ∈ ps <-> exists x, l !! p = Some (x, None)) as Hin.
  { intros p. rewrite Hps, list_elem_of_fmap. split.
    - intros ([i x] & -> & [_ Hi]%elem_of_waiting). rewrite Nat.sub_0_r in Hi. eauto.
    - intros [x Hx]. exists (p, x). rewrite elem_of_waiting, Nat.sub_0_r. split; [done|]. split; [lia|done]. }
  destruct (each_cell_spec ps o st (fun _ w => cell_ok w None) (fun _ w => cell_ok w (Some (resolved o))))
    as (st' & woken & He & Hlen & Hst'); [by intros; apply cell_act|done| |].
  { intros p [x Hx]%Hin. destruct (Forall2_lookup_r _ _ _ _ _ Hst Hx) as (w & ? & ?). eauto. }
  exists st', woken. split; [done|]. apply Forall2_same_length_lookup. split.
  { unfold settle_all. rewrite length_fmap, Hlen. by eapply Forall2_length. }
  intros p w' [x t'] Hw' Hx. unfold settle_all in Hx. rewrite list_lookup_fmap in Hx.
  destruct (l !! p) as [[y t]|] eqn:Hl; [|done]. cbn in Hx. injection Hx as <- <-.
  specialize (Hst' p w' Hw'). destruct (decide (p ∈ ps)) as [Hp|Hp].
  - apply Hin in Hp as [x Hx]. rewrite Hl in Hx. by simplify_eq.
  - destruct t as [t|]; [|by destruct Hp; apply Hin; eauto].
    destruct (Forall2_lookup_r _ _ _ _ _ Hst Hl) as (w & Hw & Hok). by simplify_eq.
Qed.

(** Closing promises that are settled changes nothing. *)
Lemma each_close ps (st : Cells) t l :
  cells_ok st (settle_all t l) -> NoDup ps -> (forall p, p ∈ ps -> (p < length l)%nat) ->
  exists st' woken, each_cell ps CloseSender st = (Ret tt, st', woken) /\ cells_ok st' (settle_all t l).
Proof.
  intros Hst Hnd Hin. set (l' := settle_all t l) in *.
  set (P p w := forall e, l' !! p = Some e -> cell_ok w e.2).
  assert (length l' = length l) as Hlen by apply length_fmap.
  destruct (each_cell_spec ps CloseSender st P P) as (st' & woken & He & Hlen' & Hst'); [|done|..].
  - intros p w Hp. destruct (l' !! p) as [[y t1]|] eqn:Hl.
    + destruct (cell_close w t1 (Hp _ Hl)) as (c & wk & Hc & Hok). exists c, wk. split; [done|].
      intros e He. rewrite Hl in He. simplify_eq. unfold l', settle_all in Hl.
      rewrite list_lookup_fmap in Hl. destruct (l !! p); [|done]. by cbn in Hl; simplify_eq.
    + destruct w as [[s v r] h]. destruct s; cbn; eauto 6; do 2 eexists; (split; [done|]);
        intros e He; by rewrite Hl in He.
  - intros p Hp%Hin. destruct (lookup_lt_is_Some_2 l' p) as [e He]; [lia|].
    destruct (Forall2_lookup_r _ _ _ _ _ Hst He) as (w & Hw & Hok). exists w. split; [done|].
    intros e' He'. by simplify_eq.
  - exists st', woken. split; [done|]. apply Forall2_same_length_lookup. split.
    { rewrite Hlen'. by eapply Forall2_length. }
    intros p w' e Hw' Hl. specialize (Hst' p w' Hw'). destruct (decide (p ∈ ps)); [by apply Hst'|].
    by eapply (Forall2_lookup_lr _ _ _ _ _ _ Hst).
Qed.

(** ** The dispatcher refines the contract *)
Context {tracks : C -> list (nat * Req) -> Prop} `{!OutstandingLaws tracks}.

Definition simulates (s : CS) (a : Spec) : Prop :=
  closed_ s.1 = over a /\ unsent_ s.1 = to_send a /\
  tracks (promise_ s.1) (waiting_calls a) /\ cells_ok s.2 (calls a).

(** What a user does to a future changes no result. *)
Lemma user_keeps (g : PW (T := Resp) -> PW (T := Resp)) p (st : Cells) l :
  (forall w t, cell_ok w t -> cell_ok (g w) t) -> cells_ok st l -> cells_ok (alter g p st) l.
Proof.
  intros Hg Hst. apply Forall2_same_length_lookup. split.
  { rewrite length_alter. by eapply Forall2_length. }
  intros i w e Hw He. destruct (decide (i = p)) as [->|Hne].
  - rewrite list_lookup_alter_eq in Hw. destruct (st !! p) as [w0|] eqn:Hp; [|done].
    cbn in Hw. simplify_eq. apply Hg. by eapply (Forall2_lookup_lr _ _ _ _ _ _ Hst).
  - rewrite list_lookup_alter_ne in Hw by done. by eapply (Forall2_lookup_lr _ _ _ _ _ _ Hst).
Qed.

Lemma poll_keeps cur w t :
  cell_ok w t -> cell_ok (snd (PromiseFuture_poll cur (mkPromiseFuture true NOTHING) w)) t.
Proof.
  destruct w as [[s v r] h]. unfold PromiseFuture_poll. cbn. destruct t as [t|]; cbn.
  - intros (a & h' & -> & <-). destruct s, v, cur; cbn; try destruct t; eauto.
  - intros [-> Hs]. destruct s; [destruct cur; cbn; auto|by destruct Hs|cbn; auto].
Qed.

Lemma drop_keeps w t : cell_ok w t -> cell_ok ((closeReceiver (fst w)).1.2, snd w) t.
Proof. destruct w as [[s v r] h], t as [t|]; cbn; naive_solver. Qed.

Lemma closeNow_settled d st t l :
  cells_ok st (settle_all t l) -> promises (promise_ d) ≡ₚ (waiting_from 0 l).*1 ->
  exists tk st' woken, closeNow (d, st) = (Ret tt, (mkClient true [] no_promises tk, st'), woken) /\
    cells_ok st' (settle_all t l).
Proof.
  intros Hst Hp. unfold closeNow.
  destruct (each_close (promises (promise_ d)) st t l) as (st' & woken & -> & Hst'); [done|..].
  - rewrite Hp. apply waiting_nodup.
  - intros p. rewrite Hp, list_elem_of_fmap. intros ([i x] & -> & [_ Hi]%elem_of_waiting).
    rewrite Nat.sub_0_r in Hi. by eapply lookup_lt_Some.
  - do 3 eexists. by split.
Qed.

Lemma call_simulates x s a :
  simulates s a ->
  let '(r, s', _) := client_call x s in
  let '(r', a') := spec_event (Op (Call x)) a in (let! p := r in Ret (Called p)) = r' /\ simulates s' a'.
Proof.
  destruct s as [d st]. intros (Hc & Hu & Ht & Hst); cbn in *.
  pose proof (Forall2_length _ _ _ Hst) as Hlen.
  pose proof (tracks_put x (length st) _ _ Ht) as Hput.
  destruct (put_promise x (length st) (promise_ d)) as [c b]. destruct Hput as [-> Hput].
  destruct (existsb _ _) eqn:Hex; cbn.
  - assert (on_cell (length st) CloseSender (st ++ [(empty, [])]) =
      (Ret tt, st ++ [(mkOneshot Closed None None, [CloseSender])], [])) as ->.
    { unfold on_cell. rewrite lookup_app_r, Nat.sub_diag by lia. cbn.
      by rewrite insert_app_r_alt, Nat.sub_diag by lia. }
    cbn. split; [by rewrite Hlen|]. split_and!; [done|by rewrite Hu| |].
    + unfold waiting_calls in *. cbn. rewrite waiting_app. by cbn; rewrite app_nil_r in *.
    + apply Forall2_app; [done|]. constructor; [|done]. cbn. eauto.
  - split; [by rewrite Hlen|]. split_and!; [done|by rewrite Hu| |].
    + unfold waiting_calls in *. cbn. rewrite waiting_app. cbn. by rewrite <- Hlen.
    + apply Forall2_app; [done|]. constructor; [|done]. by cbn.
Qed.

Lemma dispatch_simulates x s a :
  simulates s a ->
  let '(r, s', _) := client_dispatch x s in
  let '(r', a') := spec_event (Op (Dispatch x)) a in (let! _ := r in Ret Done) = r' /\ simulates s' a'.
Proof.
  destruct s as [d st]. intros (Hc & Hu & Ht & Hst); cbn in *.
  unfold waiting_calls in *. pose proof (tracks_take x _ _ Ht (waiting_nodup _ _)) as Htake.
  destruct (take_promise x (promise_ d)) as [[p c]|e|why|]; [| |done..]; last first.
  { destruct Htake as [-> ->]. by cbn. }
  destruct Htake as (y & Hf & Htr). rewrite Hf.
  apply List.find_some in Hf as [Hin _]. apply list_elem_of_In, elem_of_waiting in Hin as [_ Hin].
  rewrite Nat.sub_0_r in Hin. destruct (Forall2_lookup_r _ _ _ _ _ Hst Hin) as (w & Hw & Hok).
  destruct (cell_act w (Send (VALUE x)) Hok) as (w1 & k1 & He1 & Hok1); [done|].
  destruct (cell_close w1 _ Hok1) as (w2 & k2 & He2 & Hok2).
  assert (p < length st)%nat as Hlt by by eapply lookup_lt_Some.
  unfold on_cell. rewrite Hw, He1, list_lookup_insert_eq by done. rewrite He2, list_insert_insert_eq.
  cbn. split; [done|]. split_and!; [done..| |].
  - cbn. unfold waiting_calls. cbn. by rewrite waiting_settle.
  - cbn. unfold cells_ok. rewrite (settle_insert _ _ _ _ _ Hin). by apply Forall2_insert.
Qed.

Lemma error_simulates e s a :
  simulates s a ->
  let '(r, s', _) := client_dispatchErr e s in
  let '(r', a') := spec_event (Op (DispatchErr e)) a in (let! _ := r in Ret Done) = r' /\ simulates s' a'.
Proof.
  destruct s as [d st]. intros (Hc & Hu & Ht & Hst); cbn in Hc, Hu, Ht, Hst. unfold client_dispatchErr.
  apply tracks_promises in Ht as Hp.
  destruct (each_settle _ (Send (EXCEPTION e)) _ _ Hst Hp) as (st1 & k1 & -> & Hst1); [done|].
  destruct (closeNow_settled d st1 _ _ Hst1 Hp) as (tk & st2 & k2 & -> & Hst2).
  cbn. split; [done|]. split_and!; [done..| |done]. unfold waiting_calls. cbn.
  rewrite waiting_settle_all. apply tracks_none.
Qed.

Lemma close_simulates s a :
  simulates s a ->
  let '(r, s', _) := closeNow s in
  let '(r', a') := spec_event (Op Close) a in (let! _ := r in Ret Done) = r' /\ simulates s' a'.
Proof.
  destruct s as [d st]. intros (Hc & Hu & Ht & Hst); cbn in *.
  apply tracks_promises in Ht as Hp.
  destruct (each_settle _ CloseSender _ _ Hst Hp) as (st1 & k1 & -> & Hst1); [done|].
  cbn. split; [done|]. split_and!; [done..| |done]. unfold waiting_calls. cbn.
  rewrite waiting_settle_all. apply tracks_none.
Qed.

Lemma poll_simulates t s a :
  simulates s a ->
  let '(r, s', _) := client_poll (Some t) s in
  let '(r', a') := spec_event (Poll_by t) a in (let! p := r in Ret (Polled p)) = r' /\ simulates s' a'.
Proof.
  destruct s as [[cl xs c tk] st]. intros (Hc & Hu & Ht & Hst); cbn in *. subst.
  destruct (to_send a) as [|x l] eqn:Hs; [|by cbn].
  destruct (over a) eqn:Ho; cbn; (split; [done|]); split_and!; cbn; auto.
Qed.

(** Every event does what the contract says. *)
Lemma event_simulates e s a :
  simulates s a ->
  let '(r, s') := client_event e s in
  let '(r', a') := spec_event e a in r = r' /\ simulates s' a'.
Proof.
  intros Hs. destruct e as [[x|x|e|]|t|p cur|p]; cbn [client_event client_exec].
  - pose proof (call_simulates x s a Hs) as H. by destruct (client_call x s) as [[r s'] k].
  - pose proof (dispatch_simulates x s a Hs) as H. by destruct (client_dispatch x s) as [[r s'] k].
  - pose proof (error_simulates e s a Hs) as H. by destruct (client_dispatchErr e s) as [[r s'] k].
  - pose proof (close_simulates s a Hs) as H. by destruct (closeNow s) as [[r s'] k].
  - pose proof (poll_simulates t s a Hs) as H. by destruct (client_poll (Some t) s) as [[r s'] k].
  - destruct Hs as (? & ? & ? & ?). split; [done|]. split_and!; [done..|].
    apply user_keeps; [|done]. intros. by apply poll_keeps.
  - destruct Hs as (? & ? & ? & ?). split; [done|]. split_and!; [done..|].
    apply user_keeps; [|done]. intros. by apply drop_keeps.
Qed.

(** A sequence of events, and what their callers see. *)
Fixpoint client_run (es : list event) (s : CS) : list (res seen) * CS :=
  match es with
  | [] => ([], s)
  | e :: es => let '(r, s) := client_event e s in let '(rs, s) := client_run es s in (r :: rs, s)
  end.
Fixpoint spec_run (es : list event) (a : Spec) : list (res seen) * Spec :=
  match es with
  | [] => ([], a)
  | e :: es => let '(r, a) := spec_event e a in let '(rs, a) := spec_run es a in (r :: rs, a)
  end.

Lemma run_simulates es s a :
  simulates s a ->
  (client_run es s).1 = (spec_run es a).1 /\ simulates (client_run es s).2 (spec_run es a).2.
Proof.
  revert s a. induction es as [|e es IH]; intros s a Hs; cbn; [done|].
  pose proof (event_simulates e s a Hs) as He.
  destruct (client_event e s) as [r s1], (spec_event e a) as [r' a1]. destruct He as [-> Hs1].
  specialize (IH s1 a1 Hs1). destruct (client_run es s1) as [rs s2], (spec_run es a1) as [rs' a2].
  cbn in *. by destruct IH as [-> ?].
Qed.

Definition no_calls : Spec := mkSpec [] [] false.

Lemma fresh_simulates : simulates fresh no_calls.
Proof. split_and!; [done..| |constructor]. apply tracks_none. Qed.

(** What was first done to the promise of each call. *)
Definition results (st : Cells) : list (option (Try Resp)) :=
  (fun w => resolved <$> head (snd w)) <$> st.

Lemma simulates_results s a : simulates s a -> results s.2 = (calls a).*2.
Proof.
  intros (_ & _ & _ & Hst). unfold results. induction Hst as [|w [x t] st l Hw _ IH]; [done|].
  cbn in *. rewrite IH. f_equal. destruct t as [t|]; cbn in Hw.
  - by destruct Hw as (o & h & -> & <-).
  - by destruct Hw as [-> _].
Qed.
End Client.

(** ** The two containers *)
Section ContainerLaws.
Context {Req Resp : Type}.

(** A pipelined client accepts every call, and a response answers the oldest. *)
Definition pipeline_clash (x y : Req) : bool := false.
Definition pipeline_answers (x : Req) (r : Resp) : bool := true.
Definition pipeline_unexpected (r : Resp) : exn := DispatchException "unexpected server response".

#[global] Instance fifo_laws : OutstandingLaws (C := Fifo) pipeline_clash pipeline_answers pipeline_unexpected
  (fun c l => c = l.*1).
Proof.
  split.
  - done.
  - by intros c l ->.
  - intros x p c l ->. cbn. rewrite fmap_app. split; [|done]. by induction l.
  - intros r c [|[p x] l] ->; [done|]. intros [Hp _]%NoDup_cons.
    cbn [take_promise Fifo_Outstanding fifo_take fmap list_fmap fst]. exists x. split; [done|].
    rewrite filter_cons_False, filter_all; [done| |by intros []]. apply Forall_forall. intros [q y] Hq Heq. cbn in Heq. subst q.
    apply Hp, list_elem_of_fmap. by exists (p, y).
Qed.

Context `{!HasCallId Req} `{!HasCallId Resp}.

(** A multiplexed client refuses the call id of a call that waits, and a response
    answers the call with its id. *)
Definition multiplex_clash (x y : Req) : bool := getCallId y =? getCallId x.
Definition multiplex_answers (x : Req) (r : Resp) : bool := getCallId x =? getCallId r.
Definition multiplex_unexpected (r : Resp) : exn :=
  DispatchException ("unexpected server response with callid: " ++ pretty (getCallId r)).

Definition entry (w : nat * Req) : Z * nat := (getCallId w.2, w.1).
Definition byid_tracks (c : ById) (l : list (nat * Req)) : Prop :=
  c ≡ₚ entry <$> l /\ StronglySorted Z.lt c.*1.

Lemma map_take_spec {V} k (c : list (Z * V)) :
  match map_take k c with
  | Some (v, c') => c ≡ₚ (k, v) :: c' /\ (StronglySorted Z.lt c.*1 -> StronglySorted Z.lt c'.*1)
  | None => k ∉ c.*1
  end.
Proof.
  induction c as [|[k' v] c IH]; cbn; [set_solver|].
  destruct (Z.eqb_spec k k') as [->|Hne]; [split; [done|by intros [? _]%StronglySorted_inv]|].
  destruct (map_take k c) as [[v0 c']|]; [|set_solver]. destruct IH as [Hp Hs].
  split; [rewrite Hp; apply Permutation_swap|]. intros [Hc Ha]%StronglySorted_inv. cbn.
  constructor; [by apply Hs|]. rewrite Hp in Ha. by apply Forall_cons in Ha as [_ ?].
Qed.

Lemma sorted_nodup (l : list Z) : StronglySorted Z.lt l -> NoDup l.
Proof.
  induction 1 as [|x l _ IH Hx]; constructor; [|done]. intros Hin.
  rewrite Forall_forall in Hx. specialize (Hx x Hin). lia.
Qed.

(** Taking the entry of [w] out of the list of the waiting calls. *)
Lemma entry_take c w l :
  entry <$> l ≡ₚ entry w :: c -> NoDup l.*1 -> w ∈ l -> c ≡ₚ entry <$> filter (fun v => v.1 <> w.1) l.
Proof.
  intros Hp Hnd Hw. apply list_elem_of_split in Hw as (l1 & l2 & ->).
  rewrite fmap_app, NoDup_app in Hnd. cbn in Hnd. rewrite NoDup_cons in Hnd.
  rewrite filter_app, filter_cons_False by (intros Hn; by apply Hn).
  rewrite !filter_all, fmap_app.
  - rewrite fmap_app in Hp. cbn in Hp. rewrite <- Permutation_middle in Hp.
    by apply Permutation_cons_inv in Hp.
  - apply Forall_forall. intros v Hv Heq. destruct Hnd as (_ & _ & [Hn _]). apply Hn.
    rewrite <- Heq. by apply list_elem_of_fmap_2.
  - apply Forall_forall. intros v Hv Heq. destruct Hnd as (_ & Hd & _).
    apply (Hd v.1); [by apply list_elem_of_fmap_2|rewrite Heq; set_solver].
Qed.

Lemma keys_of c l : byid_tracks c l -> c.*1 ≡ₚ (fun w => getCallId w.2) <$> l.
Proof. intros [Hc _]. by rewrite Hc, <- list_fmap_compose. Qed.

(** The key is in the map exactly when a call with that id waits. *)
Lemma byid_clash x c l : byid_tracks c l ->
  existsb (fun kp => kp.1 =? getCallId x) c = existsb (fun w => multiplex_clash x w.2) l.
Proof.
  intros [Hc _]. apply eq_true_iff_eq. rewrite !existsb_exists. split.
  - intros (kp & Hin & Heq). apply list_elem_of_In in Hin. rewrite Hc in Hin.
    apply list_elem_of_fmap in Hin as (w & -> & Hw). exists w. by rewrite <- list_elem_of_In.
  - intros (w & Hin & Heq). exists (entry w). apply list_elem_of_In in Hin.
    rewrite <- list_elem_of_In, Hc. split; [by apply list_elem_of_fmap_2|done].
Qed.

Lemma byid_put_tracks x p c l : byid_tracks c l ->
  let '(c', stored) := byid_put x p c in
  stored = negb (existsb (fun w => multiplex_clash x w.2) l) /\
  byid_tracks c' (l ++ if stored then [(p, x)] else []).
Proof.
  intros Ht. unfold byid_put. rewrite <- (byid_clash x c l Ht). split; [done|]. destruct Ht as [Hc Hs].
  split; [|by apply map_insert_sorted]. destruct (existsb _ c) eqn:Hex; cbn.
  - rewrite map_insert_old, app_nil_r; [done..|]. apply existsb_exists in Hex as (kp & Hin & Heq).
    apply Z.eqb_eq in Heq as <-. apply list_elem_of_In in Hin. by apply list_elem_of_fmap_2.
  - rewrite map_insert_new, fmap_app, Hc; [apply Permutation_cons_append|].
    intros ([k q] & Heq & Hin)%list_elem_of_fmap. cbn in Heq.
    assert (existsb (fun kp => kp.1 =? getCallId x) c = true) as Ht; [|congruence].
    apply existsb_exists. exists (k, q). rewrite <- list_elem_of_In. split; [done|]. cbn. lia.
Qed.

(** At most one waiting call has a given id. *)
Lemma byid_unique c l v w : byid_tracks c l -> v ∈ l -> w ∈ l -> getCallId v.2 = getCallId w.2 -> v = w.
Proof.
  intros Ht Hv Hw Heq. pose proof (keys_of _ _ Ht) as Hk. destruct Ht as [_ Hs].
  apply sorted_nodup in Hs. rewrite Hk in Hs.
  apply list_elem_of_lookup_1 in Hv as [i Hi]. apply list_elem_of_lookup_1 in Hw as [j Hj].
  assert (i = j) as ->; [|congruence].
  eapply NoDup_lookup; [exact Hs|rewrite list_lookup_fmap, Hi; reflexivity|].
  rewrite list_lookup_fmap, Hj. cbn. by rewrite Heq.
Qed.

Lemma byid_take_tracks r c l : byid_tracks c l -> NoDup l.*1 ->
  match byid_take r c with
  | Ret (p, c') => exists x, List.find (fun w => multiplex_answers w.2 r) l = Some (p, x) /\
      byid_tracks c' (filter (fun w => w.1 <> p) l)
  | Throw e => e = multiplex_unexpected r /\ List.find (fun w => multiplex_answers w.2 r) l = None
  | _ => False
  end.
Proof.
  intros Ht Hnd. unfold byid_take. pose proof (map_take_spec (getCallId r) c) as Hm.
  pose proof (keys_of _ _ Ht) as Hk. destruct (List.find _ l) as [[q x]|] eqn:Hf.
  - apply List.find_some in Hf as [Hin Ha]. apply list_elem_of_In in Hin. apply Z.eqb_eq in Ha. cbn in Ha.
    destruct (map_take (getCallId r) c) as [[p c']|].
    + destruct Hm as [Hp Hs]. pose proof (proj1 Ht) as Hc.
      assert ((getCallId r, p) ∈ entry <$> l) as ([p' y] & Heq & Hy)%list_elem_of_fmap.
      { rewrite <- Hc, Hp. set_solver. }
      unfold entry in Heq. cbn in Heq. injection Heq as Hr <-.
      assert ((p, y) = (q, x)) as [= -> ->]. { eapply byid_unique; [done..|]. cbn. congruence. }
      exists x. split; [done|]. split; [|by apply Hs, Ht].
      eapply (entry_take c' (q, x)); [|done..]. rewrite <- Hc, Hp. unfold entry. cbn. by rewrite Hr.
    + destruct Hm. rewrite Hk. apply list_elem_of_fmap. by exists (q, x).
  - destruct (map_take (getCallId r) c) as [[p c']|]; [|done]. exfalso. destruct Hm as [Hp _].
    assert (getCallId r ∈ c.*1) as Hin by (rewrite Hp; set_solver).
    rewrite Hk in Hin. apply list_elem_of_fmap in Hin as (w & Hr & Hw).
    apply list_elem_of_In in Hw. pose proof (List.find_none _ _ Hf _ Hw) as Hn. cbn in Hn.
    unfold multiplex_answers in Hn. lia.
Qed.

#[global] Instance byid_laws :
  OutstandingLaws (C := ById) multiplex_clash multiplex_answers multiplex_unexpected byid_tracks.
Proof.
  split; [split; [done|constructor]| |exact byid_put_tracks|exact byid_take_tracks].
  intros c l [Hc _]. cbn. by rewrite Hc, <- list_fmap_compose.
Qed.
End ContainerLaws.

(** ** How a connection ends

    [I] holds of a dispatcher and the world whenever the connection's future is
    not running, [E] after [dispatchErr], and [dispatch] refuses a message only
    with an exception [X]. *)
Section RpcEnds.
Context {W D Req Resp : Type} `{!IDispatcher W D Req Resp} `{!Transport W Req Resp}.
Context (I E : D -> W -> Prop) (X : exn -> Prop).

Class DispatcherEnds := {
  dispatch_keeps x d w r d' w' : I d w -> dispatch x d w = (r, d', w') ->
    I d' w' /\ forall e, r = Throw e -> X e;
  err_ends e d w r d' w' : I d w -> dispatchErr e d w = (r, d', w') ->
    I d' w' /\ forall u, r = Ret u -> E d' w';
  dpoll_keeps d w r d' w' : I d w -> dispatcher_poll d w = (r, d', w') ->
    I d' w' /\ forall e, r <> Ret (EXCEPTION e);
  stream_keeps d w r w' : I d w -> stream_poll w = (r, w') -> I d w';
  send_keeps d x w r w' : I d w -> startSend x w = (r, w') -> I d w';
  complete_keeps d w r w' : I d w -> pollComplete w = (r, w') -> I d w';
  shutdown_keeps d w r w' : I d w -> shutdownWrite w = (r, w') -> I d w' }.
Context `{!DispatcherEnds}.

(** A poll that is over has informed the dispatcher, or was refused by it. *)
Definition informed (p : Poll unit) (d : D) (w : W) : Prop :=
  E d w \/ exists e, X e /\ p = EXCEPTION (Some e).

Definition loop_ok (o : loop_end) : Prop :=
  let '(r, f, w) := o in
  I (dispatcher_ f) w /\ forall p, r = Ret (Some p) -> informed p (dispatcher_ f) w.

Lemma fail_with_ok e f w : I (dispatcher_ f) w -> loop_ok (fail_with e f w).
Proof.
  intros Hi. unfold fail_with. destruct (dispatchErr e (dispatcher_ f) w) as [[r d] w1] eqn:Hd.
  apply err_ends in Hd as [Hi' He]; [|done]. split; [done|]. destruct r; [|done..].
  intros p [= <-]. left. by eapply He.
Qed.

Lemma rpc_read_ok fuel f w : I (dispatcher_ f) w -> loop_ok (rpc_read fuel f w).
Proof.
  revert f w. induction fuel as [|fuel IH]; intros f w Hi; cbn; (destruct (read_closed_ f); [done|]); [done|].
  destruct (stream_poll w) as [r1 w1] eqn:Hs. apply (stream_keeps _ _ _ _ Hi) in Hs.
  destruct r1 as [[[[x|]|]|e|]|e|why|]; [|by apply IH|done|by apply fail_with_ok|done..].
  destruct (dispatch x (dispatcher_ f) w1) as [[r2 d2] w2] eqn:Hd.
  apply dispatch_keeps in Hd as [Hi2 Hx]; [|done].
  destruct r2 as [u|e|why|]; [by apply IH| |done..].
  destruct (is_std e); [|done]. destruct (shutdownWrite w2) as [r3 w3] eqn:Hw.
  apply (shutdown_keeps _ _ _ _ Hi2) in Hw. split; [done|]. destruct r3; [|done..].
  intros p [= <-]. right. eauto.
Qed.

Lemma rpc_write_ok fuel f w : I (dispatcher_ f) w -> loop_ok (rpc_write fuel f w).
Proof.
  revert f w. induction fuel as [|fuel IH]; intros f w Hi; cbn; (destruct (write_closed_ f); [done|]); [done|].
  destruct (dispatcher_poll (dispatcher_ f) w) as [[r1 d1] w1] eqn:Hp.
  apply dpoll_keeps in Hp as [Hi1 He]; [|done].
  destruct r1 as [[[[x|]|]|e|]|e|why|]; [| |done|by destruct (He e)|done..].
  - destruct (startSend x w1) as [r2 w2] eqn:Hs. apply (send_keeps _ _ _ _ _ Hi1) in Hs.
    destruct r2 as [[u|e|]|e|why|]; [by apply IH|by apply fail_with_ok|by apply IH|done..].
  - destruct (shutdownWrite w1) as [r2 w2] eqn:Hs. apply (shutdown_keeps _ _ _ _ Hi1) in Hs.
    destruct r2; [by apply IH|done..].
Qed.

Lemma rpc_flush_ok f w : I (dispatcher_ f) w -> loop_ok (rpc_flush f w).
Proof.
  intros Hi. unfold rpc_flush. destruct (pollComplete w) as [r1 w1] eqn:Hc.
  apply (complete_keeps _ _ _ _ Hi) in Hc. clear Hi.
  assert (loop_ok (rpc_close f w1)) as Hcl.
  { unfold rpc_close. destruct (if _ && _ then _ else _) as [r2 w2] eqn:Hs.
    assert (I (dispatcher_ f) w2) as Hi2.
    { destruct (_ && _); [by apply (shutdown_keeps _ _ _ _ Hc) in Hs|by simplify_eq]. }
    destruct r2; [|done..]. cbn. destruct (read_closed_ f && _); [|done].
    destruct (dispatchErr _ _ w2) as [[r3 d3] w3] eqn:Hd. apply err_ends in Hd as [Hi3 He]; [|done].
    split; [done|]. destruct r3; [|done..]. intros p [= <-]. left. by eapply He. }
  destruct r1 as [[u|e|]|e|why|]; [done|by apply fail_with_ok|done..].
Qed.

Lemma rpc_poll_ends fuel f w r f' w' :
  I (dispatcher_ f) w -> RpcFuture_poll fuel f w = (r, f', w') ->
  I (dispatcher_ f') w' /\ forall p, r = Ret p -> p = not_ready \/ informed p (dispatcher_ f') w'.
Proof.
  intros Hi. unfold RpcFuture_poll.
  assert (forall o k, loop_ok o -> after_loop o k = (r, f', w') ->
    (I (dispatcher_ f') w' /\ forall p, r = Ret p -> p = not_ready \/ informed p (dispatcher_ f') w') \/
    exists f w, I (dispatcher_ f) w /\ k f w = (r, f', w')) as Hafter.
  { intros [[[[p|]|e|why|] f1] w1] k [Hi1 Hp]; cbn; [|by right; eauto|..]; intros [= <- <- <-];
      left; (split; [done|]); [|done..]. intros q [= <-]. right. by apply Hp. }
  intros [Hd|(f1 & w1 & Hi1 & H1)]%Hafter; [done| |by apply rpc_read_ok]. revert H1.
  intros [Hd|(f2 & w2 & Hi2 & H2)]%Hafter; [done| |by apply rpc_write_ok]. revert H2.
  intros [Hd|(f3 & w3 & Hi3 & [= <- <- <-])]%Hafter; [done| |by apply rpc_flush_ok].
  split; [done|]. intros p [= <-]. by left.
Qed.
End RpcEnds.

(** ** A client dispatcher under [RpcFuture] *)

(** The task that polls the connection. *)
Class InTask := current_task : Task.

Section ClientConnection.
Context {T C Req Resp : Type} `{!Transport T Resp Req} `{!Outstanding C Req Resp} `{!InTask}.

(** The connection and the channels of the promises. *)
Definition CW : Type := T * list (PW (T := Resp)).

#[global] Instance client_transport : Transport CW Resp Req := {|
  stream_poll w := let '(r, t) := stream_poll w.1 in (r, (t, w.2));
  startSend x w := let '(r, t) := startSend x w.1 in (r, (t, w.2));
  pollComplete w := let '(r, t) := pollComplete w.1 in (r, (t, w.2));
  shutdownWrite w := let '(r, t) := shutdownWrite w.1 in (r, (t, w.2)) |}.

#[global] Instance client_dispatcher : IDispatcher CW (@Client C Req) Resp Req := {|
  dispatch x d w := let '(r, (d, st), _) := client_dispatch x (d, w.2) in (r, d, (w.1, st));
  dispatchErr e d w := let '(r, (d, st), _) := client_dispatchErr e (d, w.2) in (r, d, (w.1, st));
  has_in_flight d := match unsent_ d with [] => false | _ => true end;
  dispatcher_poll d w :=
    let '(r, (d, st), _) := client_poll (Some current_task) (d, w.2) in (r, d, (w.1, st)) |}.

Context {clash : Req -> Req -> bool} {answers : Req -> Resp -> bool} {unexpected : Resp -> exn}.
Context {tracks : C -> list (nat * Req) -> Prop}.
Context `{!OutstandingLaws (C := C) clash answers unexpected tracks}.

(** The dispatcher and its channels are in a state of the contract. *)
Definition in_contract (d : @Client C Req) (w : CW) : Prop :=
  exists a, simulates (tracks := tracks) (d, w.2) a.

(** No call waits. *)
Definition all_settled (w : CW) : Prop := Forall is_Some (results w.2).

#[global] Instance client_ends :
  DispatcherEnds in_contract (fun _ => all_settled) (fun e => exists r, e = unexpected r).
Proof.
  split.
  - intros x d [t st] r d' [t' st'] [a Ha]. cbn [dispatch client_dispatcher fst snd] in *.
    pose proof (dispatch_simulates _ _ _ x _ _ Ha) as Hs.
    destruct (client_dispatch x (d, st)) as [[r1 [d1 st1]] k]. intros [= <- <- <- <-].
    cbn [spec_event] in Hs. destruct (List.find _ _) as [[p y]|]; cbv beta iota in Hs; destruct Hs as [Hr Hs1];
      (split; [by eexists|]); intros e ->; [done|]. cbn in Hr. injection Hr as ->. by exists x.
  - intros e d [t st] r d' [t' st'] [a Ha]. cbn [dispatchErr client_dispatcher fst snd] in *.
    pose proof (error_simulates _ _ _ e _ _ Ha) as Hs.
    destruct (client_dispatchErr e (d, st)) as [[r1 [d1 st1]] k]. intros [= <- <- <- <-].
    destruct Hs as [_ Hs]. split; [by eexists|]. intros _ _. unfold all_settled.
    apply simulates_results in Hs. cbn [snd] in *. rewrite Hs.
    cbn. unfold settle_all. rewrite <- list_fmap_compose. apply Forall_fmap, Forall_true. intros e'. by eexists.
  - intros d [t st] r d' [t' st'] [a Ha]. cbn [dispatcher_poll client_dispatcher fst snd] in *.
    pose proof (poll_simulates clash answers unexpected current_task _ _ Ha) as Hs.
    destruct (client_poll (Some current_task) (d, st)) as [[r1 [d1 st1]] k].
    intros [= <- <- <- <-]. cbn [spec_event] in Hs.
    destruct (to_send a); cbv beta iota in Hs; destruct Hs as [Hr Hs1]; (split; [by eexists|]); intros e ->; cbn in Hr;
      [by destruct (over a)|done].
  - intros d [t st] r [t' st'] [a Ha]. cbn. destruct (stream_poll t). intros [= <- <- <-]. by exists a.
  - intros d x [t st] r [t' st'] [a Ha]. cbn. destruct (startSend x t). intros [= <- <- <-]. by exists a.
  - intros d [t st] r [t' st'] [a Ha]. cbn. destruct (pollComplete t). intros [= <- <- <-]. by exists a.
  - intros d [t st] r [t' st'] [a Ha]. cbn. destruct (shutdownWrite t). intros [= <- <- <-]. by exists a.
Qed.
End ClientConnection.

(** ** Client theorems *)
Section ClientTheorems.
Context {Req Resp : Type} `{!Movable Resp}.

(** A pipelined client gives every call the right result, whatever the
    order of calls, responses, failures, closing, polls of the connection and
    polls or destruction of the futures: everything the callers see is what the
    contract says, requests are handed to the connection in the order of the
    calls, the k-th response settles the k-th call that waits, a failure settles
    all of them with its exception, and a response nobody waits for is refused. *)
Theorem pipeline_client_refines (es : list (@event Req Resp)) :
  let '(rs, s) := client_run (C := Fifo) es fresh in
  let '(rs', a) := spec_run pipeline_clash pipeline_answers pipeline_unexpected es no_calls in
  rs = rs' /\ results s.2 = (calls a).*2 /\ unsent_ s.1 = to_send a.
Proof.
  pose proof (run_simulates _ _ _ es _ _ (fresh_simulates (C := Fifo) _ _ _)) as [Hr Hs].
  destruct (client_run es fresh) as [rs s], (spec_run _ _ _ es no_calls) as [rs' a]. cbn in *.
  split; [done|]. split; [by eapply simulates_results|by apply Hs].
Qed.

(** C22: A multiplexed client gives a response to the call with its call id,
    whatever the order of the responses; a call whose id is that of a call that
    still waits is cancelled, and a response with an id nobody waits for is
    refused.  The rest is as for the pipelined client. *)
Theorem multiplex_client_refines `{!HasCallId Req} `{!HasCallId Resp} (es : list (@event Req Resp)) :
  let '(rs, s) := client_run (C := ById) es fresh in
  let '(rs', a) := spec_run multiplex_clash multiplex_answers multiplex_unexpected es no_calls in
  rs = rs' /\ results s.2 = (calls a).*2 /\ unsent_ s.1 = to_send a.
Proof.
  pose proof (run_simulates _ _ _ es _ _ (fresh_simulates (C := ById) _ _ _)) as [Hr Hs].
  destruct (client_run es fresh) as [rs s], (spec_run _ _ _ es no_calls) as [rs' a]. cbn in *.
  split; [done|]. split; [by eapply simulates_results|by apply Hs].
Qed.

(** C23: No call of a multiplexed client waits for a connection that is over:
    once the future of the connection has completed, or failed otherwise than by
    a response nobody waits for, every call made before has a result. *)
Theorem rpc_client_settles `{!HasCallId Req} `{!HasCallId Resp} `{!InTask}
    {T} `{!Transport T Resp Req} (es : list (@event Req Resp)) rc wc fuel (t : T) p f' t' st' :
  let '(_, (d, st)) := client_run (C := ById) es fresh in
  RpcFuture_poll fuel (mkRpc d rc wc) (t, st) = (Ret p, f', (t', st')) ->
  p = not_ready \/ Forall is_Some (results st') \/
  exists r, p = EXCEPTION (Some (multiplex_unexpected r)).
Proof.
  pose proof (run_simulates _ _ _ es _ _ (fresh_simulates (C := ById) _ _ _)) as [_ Hs].
  destruct (client_run es fresh) as [rs [d st]]. intros Hp. cbn in Hs.
  pose proof (client_ends (T := T) (C := ById) (Req := Req) (Resp := Resp)) as He.
  apply (rpc_poll_ends _ _ _) in Hp as [_ Hp]; [|by eexists].
  destruct (Hp p eq_refl) as [?|[?|(e & [r ->] & ->)]]; eauto.
Qed.
End ClientTheorems.

(** ** A concrete connection: messages are their call ids. *)
Module Peer.
(** What the stream will yield, what was sent. *)
Definition Conn : Type := list (Poll (option Z)) * list Z.

#[global] Instance peer_id : HasCallId Z := fun k => k.
#[global] Instance peer_task : InTask := 1%nat.
#[global] Instance peer_transport : Transport Conn Z Z := {|
  stream_poll w := match w.1 with [] => (Ret not_ready, w) | p :: l => (Ret p, (l, w.2)) end;
  startSend x w := (Ret (VALUE tt), (w.1, w.2 ++ [x]));
  pollComplete w := (Ret (makePollReady tt), w);
  shutdownWrite w := (Ret tt, w) |}.

(** Two calls, then the peer answers the second and closes. *)
Definition two_calls : list (@event Z Z) := [Op (Call 5); Op (Call 6)].
Definition answer_second : Conn := ([makePollReady (Some 6); makePollReady None], []).
End Peer.
Import Peer.

(** The connection is lost after the second of two calls was answered. *)
Example client_lost_connection :
  let '(_, (d, st)) := client_run (C := ById) two_calls fresh in
  let '(r, _, w) := RpcFuture_poll 4 (mkRpc d false false) (answer_second, st) in
  r = Ret (makePollReady tt) /\
  results w.2 = [Some (EXCEPTION (Some (IOError "Channel closed"))); Some (VALUE 6)].
Proof. vm_compute. split; reflexivity. Qed.

(** The channels then. *)
Definition lost_cells : list (PW (T := Z)) := Eval vm_compute in
  let '(_, (d, st)) := client_run (C := ById) two_calls fresh in
  (RpcFuture_poll 4 (mkRpc d false false) (answer_second, st)).2.2.

Lemma rpc_client_settles_witness :
  Forall is_Some (results lost_cells) /\
  results lost_cells = [Some (EXCEPTION (Some (IOError "Channel closed"))); Some (VALUE 6)].
Proof.
  split; [|reflexivity].
  pose proof (rpc_client_settles two_calls false false 4 answer_second) as H.
  vm_compute in H. specialize (H _ _ _ _ eq_refl).
  destruct H as [H|[H|[r H]]]; [discriminate H|exact H|discriminate H].
Defined.

(** A second call with the id of a call that waits is cancelled, and its request is sent. *)
Example client_duplicate_id :
  let '(rs, (d, st)) := client_run (C := ById) [Op (Call 5); Op (Call 5); Poll_by 1%nat; Poll_by 1%nat] fresh in
  rs = [Ret (Called 0%nat); Ret (Called 1%nat); Ret (Polled (makePollReady (Some 5)));
        Ret (Polled (makePollReady (Some 5)))] /\
  results (Resp := Z) st = [None; Some cancelled_call].
Proof. vm_compute. split; reflexivity. Qed.

(** A call on a client that was closed waits for ever: nothing settles it. *)
Example client_call_after_close :
  let '(_, (d, st)) := client_run (C := ById) [Op Close; Op (Call 5)] fresh in
  closed_ d = true /\ results (Resp := Z) st = [None].
Proof. vm_compute. split; reflexivity. Qed.

(** A response with an unknown id ends the connection, and the calls that wait
    are not told. *)
Example client_unknown_id :
  let '(_, (d, st)) := client_run (C := ById) two_calls fresh in
  let '(r, _, w) := RpcFuture_poll 4 (mkRpc d false false) (([makePollReady (Some 7)], []) : Conn, st) in
  r = Ret (EXCEPTION (Some (multiplex_unexpected 7))) /\ results w.2 = [None; None].
Proof. vm_compute. split; reflexivity. Qed.
