(* ===== verification/DnsName.v ===== *)
(** * Domain names

    Models [src/src/udns/udns_dn.c]: domain names in wire form (labels, each with
    its length in front, and a zero byte at the end) and in text form.  Memory is
    a list of bytes, a pointer into it an index; a read or a write outside the
    list is undefined behaviour. *)

From S2P Require Import Prelude.
Local Open Scope cpp_scope.
Local Open Scope Z_scope.

(** ** Memory *)

Definition rd (m : list Z) (i : nat) : res Z :=
  match m !! i with Some b => Ret b | None => Abort "read out of bounds" end.

Definition wr (m : list Z) (i : nat) (v : Z) : res (list Z) :=
  if (i <? length m)%nat then Ret (<[i := v]> m) else Abort "write out of bounds".

(** [memcpy(dst + i, src + j, n)] *)
Fixpoint memcpy (dst : list Z) (i : nat) (src : list Z) (j n : nat) : res (list Z) :=
  match n with
  | O => Ret dst
  | S n =>
      let! v := rd src j in
      let! dst := wr dst i v in
      memcpy dst (S i) src (S j) n
  end.

(** [strlen(m + i)] *)
Fixpoint strlen_loop (fuel : nat) (m : list Z) (i : nat) : res nat :=
  match fuel with
  | O => OutOfFuel
  | S fuel => let! c := rd m i in if c =? 0 then Ret O else let! n := strlen_loop fuel m (S i) in Ret (S n)
  end.
Definition strlen (m : list Z) (i : nat) : res nat := strlen_loop (S (length m)) m i.

(** ** Constants *)

(** [src/src/udns/udns.h:71-71] DNS_MAXDN *)
Definition DNS_MAXDN : nat := 255.
(** [src/src/udns/udns.h:73-73] DNS_MAXLABEL *)
Definition DNS_MAXLABEL : nat := 63.
(** [src/src/udns/udns.h:74-74] DNS_MAXNAME *)
Definition DNS_MAXNAME : nat := 1024.

(** [src/src/udns/udns.h:170-170] DNS_DNLC *)
Definition DNS_DNLC (c : Z) : Z := if (65 <=? c) && (c <=? 90) then c - 65 + 97 else c.

(** ** Names in wire form *)

(** [src/src/udns/udns_dn.c:27-32] dns_dnlen, loop *)
Fixpoint dnlen_loop (fuel : nat) (m : list Z) (d : nat) : res nat :=
  match fuel with
  | O => OutOfFuel
  | S fuel => let! c := rd m d in if c =? 0 then Ret d else dnlen_loop fuel m (d + 1 + Z.to_nat c)
  end.

(** [src/src/udns/udns_dn.c:27-32] dns_dnlen *)
Definition dns_dnlen (m : list Z) (dn : nat) : res nat :=
  let! d := dnlen_loop (S (length m)) m dn in Ret (d - dn + 1)%nat.

(** [src/src/udns/udns_dn.c:36-37] dns_dnlabels, loop *)
Fixpoint dnlabels_loop (fuel : nat) (m : list Z) (dn l : nat) : res nat :=
  match fuel with
  | O => OutOfFuel
  | S fuel => let! c := rd m dn in if c =? 0 then Ret l else dnlabels_loop fuel m (dn + 1 + Z.to_nat c) (S l)
  end.

(** [src/src/udns/udns_dn.c:34-39] dns_dnlabels *)
Definition dns_dnlabels (m : list Z) (dn : nat) : res nat := dnlabels_loop (S (length m)) m dn 0.

(** [src/src/udns/udns_dn.c:49-53] dns_dnequal, inner loop *)
Fixpoint dnequal_label (c : nat) (m1 : list Z) (dn1 : nat) (m2 : list Z) (dn2 : nat) : res bool :=
  match c with
  | O => Ret true
  | S c =>
      let! a := rd m1 dn1 in
      let! b := rd m2 dn2 in
      if negb (DNS_DNLC a =? DNS_DNLC b) then Ret false else dnequal_label c m1 (S dn1) m2 (S dn2)
  end.

(** [src/src/udns/udns_dn.c:44-54] dns_dnequal, loop *)
Fixpoint dnequal_loop (fuel : nat) (m1 : list Z) (dn dn1 : nat) (m2 : list Z) (dn2 : nat) : res nat :=
  match fuel with
  | O => OutOfFuel
  | S fuel =>
      let! c := rd m1 dn1 in
      let! c2 := rd m2 dn2 in
      if negb (c =? c2) then Ret O
      else if c =? 0 then Ret (S dn1 - dn)%nat
      else let! same := dnequal_label (Z.to_nat c) m1 (S dn1) m2 (S dn2) in
           if same then dnequal_loop fuel m1 dn (S dn1 + Z.to_nat c) m2 (S dn2 + Z.to_nat c) else Ret O
  end.

(** [src/src/udns/udns_dn.c:41-55] dns_dnequal *)
Definition dns_dnequal (m1 : list Z) (dn1 : nat) (m2 : list Z) (dn2 : nat) : res nat :=
  dnequal_loop (S (length m1)) m1 dn1 dn1 m2 dn2.

(** [src/src/udns/udns_dn.c:57-64] dns_dntodn *)
Definition dns_dntodn (m : list Z) (sdn : nat) (dst : list Z) (ddn ddnsiz : nat) : res (nat * list Z) :=
  let! sdnlen := dns_dnlen m sdn in
  if (ddnsiz <? sdnlen)%nat then Ret (O, dst)
  else let! dst := memcpy dst ddn m sdn sdnlen in Ret (sdnlen, dst).

(** ** From text to wire form *)

Definition isdigit (c : Z) : bool := (48 <=? c) && (c <=? 57).

(** The character after a backslash at [np]: the byte it stands for and the
    next position, or nothing for a bad escape. *)
(** [src/src/udns/udns_dn.c:114-130] dns_ptodn, escapes *)
Definition ptodn_escape (name : list Z) (ne np : nat) : res (option (Z * nat)) :=
  if (np =? ne)%nat then Ret None
  else let! a := rd name np in
       if isdigit a then
         let np := S np in
         let! b := if (np <? ne)%nat then rd name np else Ret 0 in
         if (np <? ne)%nat && isdigit b then
           let c := (a - 48) * 10 + b - 48 in
           let np := S np in
           let! d := if (np <? ne)%nat then rd name np else Ret 0 in
           if (np <? ne)%nat && isdigit d then
             let c := c * 10 + d - 48 in
             if 255 <? c then Ret None else Ret (Some (c, S np))
           else Ret (Some (c, np))
         else Ret (Some (a - 48, np))
       else Ret (Some (a, S np)).

(** How the loop over the name ends: a return, or the positions it leaves. *)
Inductive ptodn_end := PReturn (r : Z) (m : list Z) | PBreak (dp llab : nat) (m : list Z).

(** [m] holds the name that is built, from [dn] on; [de] is the last byte that
    can be filled. *)
(** [src/src/udns/udns_dn.c:82-132] dns_ptodn, loop *)
Fixpoint ptodn_loop (fuel : nat) (name : list Z) (start ne : nat) (dnsiz de np dp llab : nat) (m : list Z)
  : res ptodn_end :=
  if negb (np <? ne)%nat then Ret (PBreak dp llab m) else
  match fuel with
  | O => OutOfFuel
  | S fuel =>
      let! ch := rd name np in
      if ch =? 46 then
        let c := (dp - llab)%nat in
        if (c =? 0)%nat then
          if (np =? start)%nat && (np + 1 =? ne)%nat then Ret (PBreak dp llab m) else Ret (PReturn (-1) m)
        else if (DNS_MAXLABEL <? c)%nat then Ret (PReturn (-1) m)
        else let! m := wr m (llab - 1) (u8 (Z.of_nat c)) in
             ptodn_loop fuel name start ne dnsiz de (S np) (S dp) (S dp) m
      else if (de <=? dp)%nat then Ret (PReturn (if (DNS_MAXDN <=? dnsiz)%nat then -1 else 0) m)
      else if negb (ch =? 92) then
        let! m := wr m dp ch in ptodn_loop fuel name start ne dnsiz de (S np) (S dp) llab m
      else
        let! e := ptodn_escape name ne (S np) in
        match e with
        | None => Ret (PReturn (-1) m)
        | Some (c, np) => let! m := wr m dp (u8 c) in ptodn_loop fuel name start ne dnsiz de np (S dp) llab m
        end
  end.

(** The result, the memory of the name that is built, and [*isabs] where it is set. *)
(** [src/src/udns/udns_dn.c:66-145] dns_ptodn *)
Definition dns_ptodn (name : list Z) (np namelen : nat) (m : list Z) (dn dnsiz : nat)
  : res (Z * list Z * option bool) :=
  let! len := if (namelen =? 0)%nat then strlen name np else Ret namelen in
  if (dnsiz =? 0)%nat then Ret (0, m, None) else
  let de := (dn + Nat.min dnsiz DNS_MAXDN - 1)%nat in
  let! e := ptodn_loop len name np (np + len) dnsiz de np (dn + 1) (dn + 1) m in
  match e with
  | PReturn r m => Ret (r, m, None)
  | PBreak dp llab m =>
      let c := (dp - llab)%nat in
      if (DNS_MAXLABEL <? c)%nat then Ret (-1, m, None)
      else let! m := wr m (llab - 1) (u8 (Z.of_nat c)) in
           if negb (c =? 0)%nat then
             let! m := wr m dp 0 in Ret (Z.of_nat (S dp - dn), m, Some false)
           else Ret (Z.of_nat (dp - dn), m, Some true)
  end.

(** ** From wire form to text *)

(** The characters that are escaped with a backslash. *)
(** [src/src/udns/udns_dn.c:302-308] dns_dntop, special characters *)
Definition special (c : Z) : bool :=
  (c =? 46) || (c =? 92) || (c =? 34) || (c =? 59) || (c =? 64) || (c =? 36).

(** [src/src/udns/udns_dn.c:260-278] dns_dntop_size, a label *)
Fixpoint dntop_size_label (n : nat) (m : list Z) (dn size : nat) : res nat :=
  match n with
  | O => Ret size
  | S n =>
      let! c := rd m dn in
      let size := if special c then (size + 2)%nat else if (c <=? 32) || (127 <=? c) then (size + 4)%nat else S size in
      dntop_size_label n m (S dn) size
  end.

(** [src/src/udns/udns_dn.c:254-279] dns_dntop_size, loop *)
Fixpoint dntop_size_loop (fuel : nat) (m : list Z) (dn size : nat) : res nat :=
  match fuel with
  | O => OutOfFuel
  | S fuel =>
      let! c := rd m dn in
      if c =? 0 then Ret size
      else let! size := dntop_size_label (Z.to_nat c) m (S dn) (if (size =? 0)%nat then size else S size) in
           dntop_size_loop fuel m (dn + Z.to_nat c + 1) size
  end.

(** [src/src/udns/udns_dn.c:250-282] dns_dntop_size *)
Definition dns_dntop_size (m : list Z) (dn : nat) : res nat :=
  let! size := dntop_size_loop (S (length m)) m dn 0 in
  Ret (if (DNS_MAXNAME <? size + 1)%nat then O else (size + 1)%nat).

(** Bytes written one after the other. *)
Fixpoint wr_all (name : list Z) (np : nat) (l : list Z) : res (list Z) :=
  match l with [] => Ret name | v :: l => let! name := wr name np v in wr_all name (S np) l end.

(** The text so far, or [inr] when it was too long. *)
(** [src/src/udns/udns_dn.c:300-327] dns_dntop, a label *)
Fixpoint dntop_label (n : nat) (m : list Z) (dn : nat) (name : list Z) (np ne : nat)
  : res (nat * list Z + list Z) :=
  match n with
  | O => Ret (inl (np, name))
  | S n =>
      let! c := rd m dn in
      if special c then
        if (ne <? np + 2)%nat then Ret (inr name)
        else let! name := wr_all name np [92; c] in dntop_label n m (S dn) name (np + 2) ne
      else if (c <=? 32) || (127 <=? c) then
        if (ne <=? np + 4)%nat then Ret (inr name)
        else let! name := wr_all name np [92; 48 + c / 100; 48 + c mod 100 / 10; 48 + c mod 10] in
             dntop_label n m (S dn) name (np + 4) ne
      else if (ne <=? np)%nat then Ret (inr name)
      else let! name := wr name np c in dntop_label n m (S dn) name (S np) ne
  end.

(** A label of length [c] at [dn], after a dot unless it is the first. *)
(** [src/src/udns/udns_dn.c:294-327] dns_dntop, a label and its dot *)
Definition dntop_one (c : nat) (m : list Z) (dn : nat) (name : list Z) (start np ne : nat)
  : res (nat * list Z + list Z) :=
  if (np =? start)%nat then dntop_label c m (S dn) name np ne
  else if (ne <=? np)%nat then Ret (inr name)
  else let! name := wr name np 46 in dntop_label c m (S dn) name (S np) ne.

(** [src/src/udns/udns_dn.c:292-328] dns_dntop, loop *)
Fixpoint dntop_loop (fuel : nat) (m : list Z) (dn : nat) (name : list Z) (start np ne : nat)
  : res (nat * list Z + list Z) :=
  match fuel with
  | O => OutOfFuel
  | S fuel =>
      let! c := rd m dn in
      if c =? 0 then Ret (inl (np, name))
      else let! o := dntop_one (Z.to_nat c) m dn name start np ne in
           match o with
           | inl (np, name) => dntop_loop fuel m (dn + Z.to_nat c + 1) name start np ne
           | inr name => Ret (inr name)
           end
  end.

(** [src/src/udns/udns_dn.c:287-334] dns_dntop *)
Definition dns_dntop (m : list Z) (dn : nat) (name : list Z) (start namesiz : nat) : res (Z * list Z) :=
  let toolong (name : list Z) := Ret (if (DNS_MAXNAME <=? namesiz)%nat then -1 else 0, name) in
  let ne := (start + namesiz)%nat in
  let! o := dntop_loop (S (length m)) m dn name start start ne in
  match o with
  | inr name => toolong name
  | inl (np, name) =>
      if (ne <=? np)%nat then toolong name
      else let! name := wr name np 0 in Ret (Z.of_nat (S np - start), name)
  end.

(** ** Names of addresses *)

(** [s] are the bytes of the address from the last to the first. *)
(** [src/src/udns/udns_dn.c:150-174] dns_a4todn_ *)
Fixpoint dns_a4todn_ (s : list Z) (m : list Z) (dn dne : nat) : res (option nat * list Z) :=
  match s with
  | [] => Ret (Some dn, m)
  | n :: s =>
      let p := (dn + 1)%nat in
      if 99 <? n then
        if (dne <? p + 2)%nat then Ret (None, m)
        else let! m := wr_all m p [n / 100 + 48; n mod 100 / 10 + 48; n mod 10 + 48] in
             let! m := wr m dn 3 in dns_a4todn_ s m (p + 3) dne
      else if 9 <? n then
        if (dne <? p + 1)%nat then Ret (None, m)
        else let! m := wr_all m p [n / 10 + 48; n mod 10 + 48] in
             let! m := wr m dn 2 in dns_a4todn_ s m (p + 2) dne
      else if (dne <? p)%nat then Ret (None, m)
      else let! m := wr m p (n + 48) in
           let! m := wr m dn 1 in dns_a4todn_ s m (p + 1) dne
  end.

(** [src/src/udns/udns_dn.c:147-147] dns_inaddr_arpa_dn *)
Definition dns_inaddr_arpa_dn : list Z := Eval vm_compute in 7 :: bytes "in-addr" ++ 4 :: bytes "arpa" ++ [0].

(** With the suffix [tdn], the default one if there is none. *)
(** [src/src/udns/udns_dn.c:176-189] dns_a4todn *)
Definition dns_a4todn (addr : list Z) (tdn : option (list Z)) (m : list Z) (dn dnsiz : nat) : res (Z * list Z) :=
  let dne := (dn + Nat.min dnsiz DNS_MAXDN)%nat in
  let! (p, m) := dns_a4todn_ (rev addr) m dn dne in
  match p with
  | None => Ret (0, m)
  | Some p =>
      let t := default dns_inaddr_arpa_dn tdn in
      let! l := dns_dnlen t 0 in
      if (dne <? p + l)%nat then Ret (if (DNS_MAXDN <=? dnsiz)%nat then -1 else 0, m)
      else let! m := memcpy m p t 0 l in Ret (Z.of_nat (p + l - dn), m)
  end.

(** [src/src/udns/udns_dn.c:212-212] dns_a6todn_, a digit *)
Definition hexdigit (n : Z) : Z := if 9 <? n then n + 97 - 10 else n + 48.

(** [src/src/udns/udns_dn.c:209-216] dns_a6todn_, loop *)
Fixpoint a6todn_loop (s : list Z) (m : list Z) (dn : nat) : res (nat * list Z) :=
  match s with
  | [] => Ret (dn, m)
  | b :: s =>
      let! m := wr_all m dn [1; hexdigit (Z.land b 15); 1; hexdigit (Z.shiftr b 4)] in
      a6todn_loop s m (dn + 4)
  end.

(** [src/src/udns/udns_dn.c:205-218] dns_a6todn_ *)
Definition dns_a6todn_ (s : list Z) (m : list Z) (dn dne : nat) : res (option nat * list Z) :=
  if (dne <? dn + 64)%nat then Ret (None, m)
  else let! (dn, m) := a6todn_loop s m dn in Ret (Some dn, m).

(** [src/src/udns/udns_dn.c:203-203] dns_ip6_arpa_dn *)
Definition dns_ip6_arpa_dn : list Z := Eval vm_compute in 3 :: bytes "ip6" ++ 4 :: bytes "arpa" ++ [0].

(** [src/src/udns/udns_dn.c:220-233] dns_a6todn *)
Definition dns_a6todn (addr : list Z) (tdn : option (list Z)) (m : list Z) (dn dnsiz : nat) : res (Z * list Z) :=
  let dne := (dn + Nat.min dnsiz DNS_MAXDN)%nat in
  let! (p, m) := dns_a6todn_ (rev addr) m dn dne in
  match p with
  | None => Ret (0, m)
  | Some p =>
      let t := default dns_ip6_arpa_dn tdn in
      let! l := dns_dnlen t 0 in
      if (dne <? p + l)%nat then Ret (if (DNS_MAXDN <=? dnsiz)%nat then -1 else 0, m)
      else let! m := memcpy m p t 0 l in Ret (Z.of_nat (p + l - dn), m)
  end.

(** ** What the memory holds *)

(** The bytes [l] are at [i] in [m]. *)
Definition sub (m : list Z) (i : nat) (l : list Z) : Prop :=
  exists pre post, m = pre ++ l ++ post /\ length pre = i.

Lemma sub_rd m i c l : sub m i (c :: l) -> rd m i = Ret c.
Proof. intros (pre & post & -> & <-). unfold rd. cbn. by rewrite list_lookup_middle. Qed.

Lemma sub_app m i l1 l2 : sub m i (l1 ++ l2) -> sub m i l1 /\ sub m (i + length l1) l2.
Proof.
  intros (pre & post & -> & <-). split.
  - exists pre, (l2 ++ post). by rewrite <- app_assoc.
  - exists (pre ++ l1), post. by rewrite <- !app_assoc, length_app.
Qed.

Lemma sub_tail m i c l : sub m i (c :: l) -> sub m (S i) l.
Proof. intros H. apply (sub_app m i [c] l) in H as [_ H]. by rewrite Nat.add_1_r in H. Qed.

Lemma sub_length m i l : sub m i l -> (i + length l <= length m)%nat.
Proof. intros (pre & post & -> & <-). rewrite !length_app. lia. Qed.

Lemma sub_self l : sub l 0 l.
Proof. exists [], []. by rewrite app_nil_r. Qed.

(** The memory [m] with the bytes [l] at [i]. *)
Definition patch (m : list Z) (i : nat) (l : list Z) : list Z := take i m ++ l ++ drop (i + length l) m.

Lemma patch_nil m i : patch m i [] = m.
Proof. unfold patch. cbn. rewrite Nat.add_0_r. apply take_drop. Qed.

Lemma length_patch m i l : (i + length l <= length m)%nat -> length (patch m i l) = length m.
Proof. intros H. unfold patch. rewrite !length_app, length_take, length_drop. lia. Qed.

Lemma patch_sub m i l : (i <= length m)%nat -> sub (patch m i l) i l.
Proof. intros H. exists (take i m), (drop (i + length l) m). split; [done|]. rewrite length_take. lia. Qed.

(** Writing inside what was written. *)
Lemma wr_patch_mid m i a x c v :
  (i + length (a ++ x :: c) <= length m)%nat ->
  wr (patch m i (a ++ x :: c)) (i + length a) v = Ret (patch m i (a ++ v :: c)).
Proof.
  intros H. unfold wr. rewrite length_patch by done. rewrite length_app in H. cbn in H.
  rewrite (proj2 (Nat.ltb_lt _ _)) by lia. f_equal. unfold patch.
  rewrite !length_app. cbn. rewrite insert_app_r_alt by (rewrite length_take; lia).
  rewrite length_take. replace (i + length a - (i `min` length m))%nat with (length a) by lia.
  rewrite <- !app_assoc. f_equal. rewrite insert_app_r_alt, Nat.sub_diag by lia. done.
Qed.

(** The byte that is there belongs to what was written. *)
Lemma patch_next m i l :
  (i + length l < length m)%nat -> exists x, patch m i l = patch m i (l ++ [x]).
Proof.
  intros H. destruct (lookup_lt_is_Some_2 m (i + length l)) as [x Hx]; [done|]. exists x. unfold patch.
  rewrite <- !app_assoc, length_app. cbn. rewrite (drop_S _ _ _ Hx). do 4 f_equal. lia.
Qed.

Lemma wr_patch m i l v :
  (i + length l < length m)%nat -> wr (patch m i l) (i + length l) v = Ret (patch m i (l ++ [v])).
Proof. intros H. destruct (patch_next m i l H) as [x ->]. apply wr_patch_mid. rewrite length_app. cbn. lia. Qed.

(** Bytes after bytes that were written. *)
Lemma patch_patch m i l l' :
  (i + length l + length l' <= length m)%nat -> patch (patch m i l) (i + length l) l' = patch m i (l ++ l').
Proof.
  intros H. unfold patch. rewrite !length_app, take_app_ge, drop_app_ge by (rewrite length_take; lia).
  rewrite length_take, Nat.min_l by lia. replace (i + length l - i)%nat with (length l) by lia.
  rewrite take_app_length. replace (i + length l + length l' - i)%nat with (length l + length l')%nat by lia.
  rewrite drop_app_ge, drop_drop by lia. rewrite <- !app_assoc. do 4 f_equal. lia.
Qed.

Lemma patch_full m l : length l = length m -> patch m 0 l = l.
Proof. intros H. unfold patch. cbn. rewrite H, drop_all. apply app_nil_r. Qed.

Lemma wr_all_patch m i l l' :
  (i + length l + length l' <= length m)%nat ->
  wr_all (patch m i l) (i + length l) l' = Ret (patch m i (l ++ l')).
Proof.
  revert l. induction l' as [|v l' IH]; intros l H; cbn in *; [by rewrite app_nil_r|].
  rewrite wr_patch by lia. cbn. replace (S (i + length l)) with (i + length (l ++ [v]))%nat by (rewrite length_app; cbn; lia).
  rewrite IH by (rewrite length_app; cbn; lia). by rewrite <- app_assoc.
Qed.

Lemma memcpy_patch m i l src j l' :
  sub src j l' -> (i + length l + length l' <= length m)%nat ->
  memcpy (patch m i l) (i + length l) src j (length l') = Ret (patch m i (l ++ l')).
Proof.
  revert l j. induction l' as [|v l' IH]; intros l j Hs H; cbn in *; [by rewrite app_nil_r|].
  rewrite (sub_rd _ _ _ _ Hs). cbn. rewrite wr_patch by lia. cbn.
  replace (S (i + length l)) with (i + length (l ++ [v]))%nat by (rewrite length_app; cbn; lia).
  rewrite IH; [by rewrite <- app_assoc|by eapply sub_tail|rewrite length_app; cbn; lia].
Qed.

(** ** Names as lists of labels *)

(** The labels in wire form, without and with the end. *)
Definition labels (ls : list (list Z)) : list Z := concat ((fun l => Z.of_nat (length l) :: l) <$> ls).
Definition wire (ls : list (list Z)) : list Z := labels ls ++ [0].

Definition wf_label (l : list Z) : Prop := (1 <= length l <= DNS_MAXLABEL)%nat /\ Forall is_byte l.
Definition wf_name (ls : list (list Z)) : Prop := Forall wf_label ls /\ (length (wire ls) <= DNS_MAXDN)%nat.

Lemma labels_cons l ls : labels (l :: ls) = Z.of_nat (length l) :: l ++ labels ls.
Proof. done. Qed.
Lemma wire_cons l ls : wire (l :: ls) = Z.of_nat (length l) :: l ++ wire ls.
Proof. unfold wire. rewrite labels_cons. cbn. by rewrite <- app_assoc. Qed.
Lemma labels_app ls ls' : labels (ls ++ ls') = labels ls ++ labels ls'.
Proof. unfold labels. by rewrite fmap_app, concat_app. Qed.
Lemma labels_snoc ls l : labels (ls ++ [l]) = labels ls ++ Z.of_nat (length l) :: l.
Proof. rewrite labels_app, labels_cons. by rewrite app_nil_r. Qed.
Lemma length_wire ls : length (wire ls) = S (length (labels ls)).
Proof. unfold wire. rewrite length_app. cbn. lia. Qed.
Lemma labels_count ls : (length ls <= length (labels ls))%nat.
Proof. induction ls as [|l ls IH]; [done|]. rewrite labels_cons. cbn. rewrite length_app. lia. Qed.

Lemma wf_label_nonempty l : wf_label l -> (Z.of_nat (length l) =? 0) = false.
Proof. intros [? _]. lia. Qed.

(** Where a name lies in memory, so do its labels. *)
Lemma sub_wire_cons m d l ls :
  sub m d (wire (l :: ls)) ->
  rd m d = Ret (Z.of_nat (length l)) /\ sub m (S d) l /\ sub m (d + 1 + length l) (wire ls).
Proof.
  rewrite wire_cons. intros H. split; [by eapply sub_rd|]. apply sub_tail, sub_app in H as [H1 H2].
  split; [done|]. by replace (d + 1 + length l)%nat with (S d + length l)%nat by lia.
Qed.

Lemma sub_wire_nil m d : sub m d (wire []) -> rd m d = Ret 0.
Proof. apply sub_rd. Qed.

Lemma sub_wire_fuel m d ls : sub m d (wire ls) -> (length ls < S (length m))%nat.
Proof. intros H%sub_length. rewrite length_wire in H. pose proof (labels_count ls). lia. Qed.

Lemma dnlen_loop_wire fuel m d ls :
  Forall wf_label ls -> sub m d (wire ls) -> (length ls < fuel)%nat ->
  dnlen_loop fuel m d = Ret (d + length (labels ls))%nat.
Proof.
  intros Hwf. revert fuel d. induction Hwf as [|l ls Hl _ IH]; intros [|fuel] d Hs Hf; cbn in Hf; try lia.
  - cbn. rewrite (sub_wire_nil _ _ Hs). cbn. f_equal. lia.
  - apply sub_wire_cons in Hs as (Hr & _ & Hs). cbn [dnlen_loop]. rewrite Hr. cbn [res_bind].
    rewrite (wf_label_nonempty _ Hl), Nat2Z.id. rewrite IH by (done || lia). f_equal.
    rewrite labels_cons. cbn. rewrite length_app. lia.
Qed.

(** [dns_dnlen] is the length of the wire form. *)
Lemma dns_dnlen_wire m d ls : Forall wf_label ls -> sub m d (wire ls) -> dns_dnlen m d = Ret (length (wire ls)).
Proof.
  intros Hwf Hs. unfold dns_dnlen. rewrite (dnlen_loop_wire _ _ _ ls) by (done || by eapply sub_wire_fuel).
  cbn. rewrite length_wire. f_equal. lia.
Qed.

Lemma dns_dnlabels_wire m d ls : Forall wf_label ls -> sub m d (wire ls) -> dns_dnlabels m d = Ret (length ls).
Proof.
  intros Hwf Hs. unfold dns_dnlabels. assert (length ls < S (length m))%nat as Hf by by eapply sub_wire_fuel.
  revert Hf Hs. generalize (S (length m)) as fuel. intros fuel Hf Hs.
  enough (forall n, dnlabels_loop fuel m d n = Ret (n + length ls)%nat) by done.
  revert fuel d Hf Hs. induction Hwf as [|l ls Hl _ IH]; intros [|fuel] d Hf Hs n; cbn in Hf; try lia.
  - cbn. rewrite (sub_wire_nil _ _ Hs). cbn. f_equal. lia.
  - apply sub_wire_cons in Hs as (Hr & _ & Hs). cbn [dnlabels_loop]. rewrite Hr. cbn [res_bind].
    rewrite (wf_label_nonempty _ Hl), Nat2Z.id. rewrite IH by (done || lia). f_equal. cbn. lia.
Qed.

(** Two names that differ at most in the case of letters. *)
Definition same_label (a b : list Z) : Prop := DNS_DNLC <$> a = DNS_DNLC <$> b.
Definition same_name (ls ls' : list (list Z)) : Prop := Forall2 same_label ls ls'.
#[global] Instance same_label_dec a b : Decision (same_label a b).
Proof. unfold same_label. apply _. Defined.
#[global] Instance same_name_dec ls ls' : Decision (same_name ls ls').
Proof. unfold same_name. apply _. Defined.

Lemma dnequal_label_spec m1 i m2 j a b :
  sub m1 i a -> sub m2 j b -> length a = length b ->
  dnequal_label (length a) m1 i m2 j = Ret (bool_decide (same_label a b)).
Proof.
  revert i j b. induction a as [|x a IH]; intros i j [|y b] Ha Hb Hl; try done. cbn [length dnequal_label].
  rewrite (sub_rd _ _ _ _ Ha), (sub_rd _ _ _ _ Hb). cbn [res_bind].
  destruct (Z.eqb_spec (DNS_DNLC x) (DNS_DNLC y)) as [He|He]; cbn [negb].
  - rewrite (IH _ _ b) by (by eapply sub_tail || (by cbn in Hl; lia)). f_equal. apply bool_decide_ext.
    unfold same_label. cbn. rewrite He. split; [by intros ->|by intros [= ->]].
  - f_equal. symmetry. apply bool_decide_eq_false. unfold same_label. cbn. congruence.
Qed.

Lemma dnequal_loop_spec fuel m1 dn i m2 j ls ls' :
  Forall wf_label ls -> Forall wf_label ls' -> sub m1 i (wire ls) -> sub m2 j (wire ls') ->
  (length ls < fuel)%nat -> (dn <= i)%nat ->
  dnequal_loop fuel m1 dn i m2 j =
  Ret (if bool_decide (same_name ls ls') then (i + length (wire ls) - dn)%nat else O).
Proof.
  intros Hwf. revert fuel i j ls'. induction Hwf as [|l ls Hl _ IH]; intros [|fuel] i j ls' Hwf' Hs Hs' Hf Hd; cbn in Hf; try lia.
  - cbn [dnequal_loop]. rewrite (sub_wire_nil _ _ Hs). destruct Hwf' as [|l' ls' Hl' _].
    + rewrite (sub_wire_nil _ _ Hs'), bool_decide_eq_true_2 by constructor. cbn. f_equal. lia.
    + apply sub_wire_cons in Hs' as (-> & _). cbn [res_bind]. destruct Hl' as [? _].
      rewrite (proj2 (Z.eqb_neq _ _)) by lia. cbn [negb]. by rewrite bool_decide_eq_false_2 by inversion 1.
  - apply sub_wire_cons in Hs as (Hr & Ha & Hs). cbn [dnequal_loop]. rewrite Hr.
    destruct Hwf' as [|l' ls' Hl' Hwf'].
    { rewrite (sub_wire_nil _ _ Hs'). cbn [res_bind]. rewrite (wf_label_nonempty _ Hl). cbn [negb].
      by rewrite bool_decide_eq_false_2 by inversion 1. }
    apply sub_wire_cons in Hs' as (-> & Hb & Hs'). cbn [res_bind].
    destruct (Z.eqb_spec (Z.of_nat (length l)) (Z.of_nat (length l'))) as [He|He]; cbn [negb].
    + rewrite (wf_label_nonempty _ Hl), !Nat2Z.id. apply Nat2Z.inj in He.
      rewrite (dnequal_label_spec _ _ _ _ l l') by done. cbn [res_bind].
      case_bool_decide as Hsame.
      * replace (S i + length l)%nat with (i + 1 + length l)%nat by lia.
        replace (S j + length l)%nat with (j + 1 + length l')%nat by lia.
        rewrite (IH _ _ _ ls') by (done || lia). f_equal.
        rewrite (bool_decide_ext (same_name (l :: ls) (l' :: ls')) (same_name ls ls')).
        -- case_bool_decide; [|done]. rewrite wire_cons. cbn. rewrite length_app. lia.
        -- unfold same_name. rewrite Forall2_cons. naive_solver.
      * by rewrite bool_decide_eq_false_2 by by inversion 1.
    + f_equal. rewrite bool_decide_eq_false_2; [done|]. unfold same_name. rewrite Forall2_cons. intros [Hsame _].
      apply (f_equal length) in Hsame. rewrite !length_fmap in Hsame. lia.
Qed.

(** [dns_dnequal] compares names without regard to case. *)
Lemma dns_dnequal_wire m1 i m2 j ls ls' :
  Forall wf_label ls -> Forall wf_label ls' -> sub m1 i (wire ls) -> sub m2 j (wire ls') ->
  dns_dnequal m1 i m2 j = Ret (if bool_decide (same_name ls ls') then length (wire ls) else O).
Proof.
  intros. unfold dns_dnequal. rewrite (dnequal_loop_spec _ _ _ _ _ _ ls ls'); try done.
  - f_equal. case_bool_decide; lia.
  - by eapply sub_wire_fuel.
Qed.

Lemma memcpy_bytes m i src j l :
  sub src j l -> (i + length l <= length m)%nat -> memcpy m i src j (length l) = Ret (patch m i l).
Proof.
  intros Hs Hl. pose proof (memcpy_patch m i [] src j l Hs ltac:(cbn; lia)) as H. rewrite patch_nil in H. cbn in H.
  by rewrite Nat.add_0_r in H.
Qed.

(** [dns_dntodn] copies a name. *)
Lemma dns_dntodn_wire m i ls dst d siz :
  Forall wf_label ls -> sub m i (wire ls) -> (length (wire ls) <= siz)%nat -> (d + length (wire ls) <= length dst)%nat ->
  dns_dntodn m i dst d siz = Ret (length (wire ls), patch dst d (wire ls)).
Proof.
  intros Hwf Hs Hsiz Hroom. unfold dns_dntodn. rewrite (dns_dnlen_wire _ _ ls) by done. cbn [res_bind].
  rewrite (proj2 (Nat.ltb_ge _ _)) by done. by rewrite memcpy_bytes.
Qed.

Lemma Forall_patch (P : Z -> Prop) m i l : Forall P m -> Forall P l -> Forall P (patch m i l).
Proof. intros Hm Hl. unfold patch. rewrite !Forall_app. auto using Forall_take, Forall_drop. Qed.
