(* ===== verification/DnsText.v ===== *)
(** * Domain names in text form

    The conversions of [src/src/udns/udns_dn.c] between names in wire form and
    text: they stay inside their buffers, and one undoes the other. *)

From S2P Require Import Prelude DnsName.
Local Open Scope cpp_scope.
Local Open Scope Z_scope.

(** ** The text of a name *)

Definition esc (c : Z) : list Z :=
  if special c then [92; c]
  else if (c <=? 32) || (127 <=? c) then [92; 48 + c / 100; 48 + c mod 100 / 10; 48 + c mod 10]
  else [c].
Definition text (l : list Z) : list Z := concat (esc <$> l).

(** [acc] with one more label after it. *)
Definition dot (acc : list Z) : list Z := match acc with [] => [] | _ => acc ++ [46] end.
Definition add_label (acc l : list Z) : list Z := dot acc ++ text l.
Definition dotted_from (acc : list Z) (ls : list (list Z)) : list Z := foldl add_label acc ls.
Definition dotted (ls : list (list Z)) : list Z := dotted_from [] ls.

Lemma text_cons c l : text (c :: l) = esc c ++ text l.
Proof. done. Qed.

Lemma esc_length c : (1 <= length (esc c) <= 4)%nat.
Proof. unfold esc. case_match; [cbn; lia|]. case_match; cbn; lia. Qed.

Lemma text_nonempty l : l <> [] -> text l <> [].
Proof.
  destruct l as [|c l]; [done|]. intros _. rewrite text_cons. pose proof (esc_length c). by destruct (esc c); cbn in *; [lia|].
Qed.

(** The text only grows. *)
Lemma add_label_grows acc l : (length acc <= length (add_label acc l))%nat.
Proof. unfold add_label, dot. rewrite length_app. destruct acc; [cbn; lia|]. rewrite length_app. lia. Qed.
Lemma dotted_from_grows acc ls : (length acc <= length (dotted_from acc ls))%nat.
Proof.
  revert acc. induction ls as [|l ls IH]; intros acc; [done|]. unfold dotted_from in *. cbn.
  specialize (IH (add_label acc l)). pose proof (add_label_grows acc l). lia.
Qed.

(** ** Printing *)

(** How printing goes on from [acc] at [start] in [name], with room up to
    [start + siz]: the text [out] fits, or it does not and the output stops. *)
Definition printed (name : list Z) (start siz : nat) (out : list Z) (r : res (nat * list Z + list Z)) : Prop :=
  (r = Ret (inl (start + length out, patch name start out)%nat) /\ (length out <= siz)%nat) \/
  ((siz <= length out)%nat /\ exists name', r = Ret (inr name') /\ length name' = length name).

Section Print.
Context (m name : list Z) (start siz : nat).
Hypothesis Hroom : (start + siz <= length name)%nat.

Lemma dntop_label_spec l dn acc :
  sub m dn l -> (length acc <= siz)%nat ->
  printed name start siz (acc ++ text l)
    (dntop_label (length l) m dn (patch name start acc) (start + length acc) (start + siz)).
Proof.
  revert dn acc. induction l as [|c l IH]; intros dn acc Hs Ha.
  { cbn. left. by rewrite app_nil_r. }
  cbn [length dntop_label]. rewrite (sub_rd _ _ _ _ Hs). cbn [res_bind]. apply sub_tail in Hs.
  rewrite text_cons, app_assoc. unfold esc. destruct (special c); [|destruct ((c <=? 32) || (127 <=? c))].
  - destruct (Nat.ltb_spec (start + siz) (start + length acc + 2)).
    { right. rewrite !length_app. cbn. split; [lia|]. eexists. split; [done|]. apply length_patch. lia. }
    rewrite wr_all_patch by (cbn; lia). cbn [res_bind].
    replace (start + length acc + 2)%nat with (start + length (acc ++ [92%Z; c]))%nat by (rewrite length_app; cbn; lia).
    apply IH; [done|]. rewrite length_app. cbn. lia.
  - destruct (Nat.leb_spec (start + siz) (start + length acc + 4)).
    { right. rewrite !length_app. cbn. split; [lia|]. eexists. split; [done|]. apply length_patch. lia. }
    rewrite wr_all_patch by (cbn; lia). cbn [res_bind].
    match goal with |- context [patch name start (acc ++ ?l)] =>
      replace (start + length acc + 4)%nat with (start + length (acc ++ l))%nat by (rewrite length_app; cbn; lia) end.
    apply IH; [done|]. rewrite length_app. cbn. lia.
  - destruct (Nat.leb_spec (start + siz) (start + length acc)).
    { right. rewrite !length_app. cbn. split; [lia|]. eexists. split; [done|]. apply length_patch. lia. }
    rewrite wr_patch by lia. cbn [res_bind].
    replace (S (start + length acc))%nat with (start + length (acc ++ [c]))%nat by (rewrite length_app; cbn; lia).
    apply IH; [done|]. rewrite length_app. cbn. lia.
Qed.

Lemma dntop_one_spec l dn acc :
  sub m (S dn) l -> (length acc <= siz)%nat ->
  printed name start siz (add_label acc l)
    (dntop_one (length l) m dn (patch name start acc) start (start + length acc) (start + siz)).
Proof.
  intros Hs Ha. unfold dntop_one, add_label. destruct acc as [|x acc].
  - pose proof (dntop_label_spec l (S dn) [] Hs Ha) as Hp. cbn [length] in *.
    rewrite Nat.add_0_r in *. by rewrite Nat.eqb_refl.
  - rewrite (proj2 (Nat.eqb_neq _ _)) by (cbn; lia).
    destruct (Nat.leb_spec (start + siz) (start + length (x :: acc))).
    { right. cbn [dot]. rewrite !length_app. cbn in *. split; [lia|]. eexists. split; [done|]. apply length_patch. cbn. lia. }
    rewrite wr_patch by lia. cbn [res_bind dot].
    replace (S (start + length (x :: acc))) with (start + length ((x :: acc) ++ [46%Z]))%nat by (rewrite length_app; cbn; lia).
    apply dntop_label_spec; [done|]. rewrite length_app. cbn in *. lia.
Qed.

Lemma dntop_loop_spec ls fuel dn acc :
  Forall wf_label ls -> sub m dn (wire ls) -> (length ls < fuel)%nat -> (length acc <= siz)%nat ->
  printed name start siz (dotted_from acc ls)
    (dntop_loop fuel m dn (patch name start acc) start (start + length acc) (start + siz)).
Proof.
  intros Hwf. revert fuel dn acc. induction Hwf as [|l ls Hl _ IH]; intros [|fuel] dn acc Hs Hf Ha; cbn in Hf; try lia.
  { cbn [dntop_loop]. rewrite (sub_wire_nil _ _ Hs). cbn. by left. }
  apply sub_wire_cons in Hs as (Hr & Hl' & Hs). cbn [dntop_loop]. rewrite Hr. cbn [res_bind].
  rewrite (wf_label_nonempty _ Hl), Nat2Z.id. unfold dotted_from. cbn [foldl]. fold (dotted_from (add_label acc l) ls).
  pose proof (dotted_from_grows (add_label acc l) ls) as Hgrow.
  destruct (dntop_one_spec l dn acc Hl' Ha) as [[-> Hle]|(Hge & name' & -> & Hlen)]; cbn [res_bind].
  - replace (dn + length l + 1)%nat with (dn + 1 + length l)%nat by lia. apply IH; [done|lia|done].
  - right. split; [lia|eauto].
Qed.
End Print.

(** [dns_dntop] prints a name when there is room for it and for the zero byte. *)
Lemma dns_dntop_wire m dn ls name start siz :
  Forall wf_label ls -> sub m dn (wire ls) -> (start + siz <= length name)%nat ->
  if (length (dotted ls) <? siz)%nat
  then dns_dntop m dn name start siz = Ret (Z.of_nat (S (length (dotted ls))), patch name start (dotted ls ++ [0]))
  else exists name', dns_dntop m dn name start siz = Ret (if (DNS_MAXNAME <=? siz)%nat then -1 else 0, name') /\
         length name' = length name.
Proof.
  intros Hwf Hs Hroom. unfold dns_dntop.
  pose proof (dntop_loop_spec m name start siz Hroom ls (S (length m)) dn [] Hwf Hs (sub_wire_fuel _ _ _ Hs) ltac:(cbn; lia)) as Hp.
  rewrite patch_nil in Hp. cbn [length] in Hp. rewrite Nat.add_0_r in Hp. fold (dotted ls) in Hp.
  destruct Hp as [[-> Hle]|(Hge & name' & -> & Hlen)]; cbn [res_bind].
  - destruct (Nat.leb_spec (start + siz) (start + length (dotted ls))).
    + rewrite (proj2 (Nat.ltb_ge _ _)) by lia. eexists. split; [done|]. apply length_patch. lia.
    + rewrite (proj2 (Nat.ltb_lt _ _)) by lia. rewrite wr_patch by lia. cbn [res_bind]. do 2 f_equal. lia.
  - rewrite (proj2 (Nat.ltb_ge _ _)) by lia. eauto.
Qed.

(** A name that fits is printed even where the memory ends right after it. *)
Section Fits.
Context (m name : list Z) (start siz : nat).

Lemma dntop_label_fits l dn acc :
  sub m dn l -> (length (acc ++ text l) < siz)%nat -> (start + length (acc ++ text l) <= length name)%nat ->
  dntop_label (length l) m dn (patch name start acc) (start + length acc) (start + siz) =
  Ret (inl (start + length (acc ++ text l), patch name start (acc ++ text l))%nat).
Proof.
  revert dn acc. induction l as [|c l IH]; intros dn acc Hs Ha Hn; [by rewrite app_nil_r|].
  cbn [length dntop_label]. rewrite (sub_rd _ _ _ _ Hs). cbn [res_bind]. apply sub_tail in Hs.
  rewrite text_cons, app_assoc in *. rewrite <- (IH (S dn)) by done. rewrite length_app in Ha, Hn. revert Ha Hn. unfold esc.
  destruct (special c); [|destruct ((c <=? 32) || (127 <=? c))]; rewrite !length_app; cbn [length]; intros Ha Hn.
  - rewrite (proj2 (Nat.ltb_ge _ _)), wr_all_patch by (cbn; lia). cbn [res_bind]. f_equal; lia.
  - rewrite (proj2 (Nat.leb_gt _ _)), wr_all_patch by (cbn; lia). cbn [res_bind]. f_equal; lia.
  - rewrite (proj2 (Nat.leb_gt _ _)), wr_patch by (cbn; lia). cbn [res_bind]. f_equal; lia.
Qed.

Lemma dntop_one_fits l dn acc :
  sub m (S dn) l -> (length (add_label acc l) < siz)%nat -> (start + length (add_label acc l) <= length name)%nat ->
  dntop_one (length l) m dn (patch name start acc) start (start + length acc) (start + siz) =
  Ret (inl (start + length (add_label acc l), patch name start (add_label acc l))%nat).
Proof.
  intros Hs Ha Hn. unfold dntop_one, add_label in *. destruct acc as [|x acc].
  - cbn [length]. rewrite Nat.add_0_r, Nat.eqb_refl. rewrite <- (dntop_label_fits l (S dn)) by done. cbn [length dot]. by rewrite Nat.add_0_r.
  - rewrite (proj2 (Nat.eqb_neq _ _)) by (cbn; lia). rewrite <- (dntop_label_fits l (S dn)) by done. cbn [dot] in *.
    rewrite !length_app in Ha, Hn. cbn [length] in Ha, Hn. rewrite (proj2 (Nat.leb_gt _ _)), wr_patch by (cbn; lia). cbn [res_bind].
    rewrite length_app. cbn [length]. f_equal; lia.
Qed.

Lemma dntop_loop_fits ls fuel dn acc :
  Forall wf_label ls -> sub m dn (wire ls) -> (length ls < fuel)%nat ->
  (length (dotted_from acc ls) < siz)%nat -> (start + length (dotted_from acc ls) <= length name)%nat ->
  dntop_loop fuel m dn (patch name start acc) start (start + length acc) (start + siz) =
  Ret (inl (start + length (dotted_from acc ls), patch name start (dotted_from acc ls))%nat).
Proof.
  intros Hwf. revert fuel dn acc. induction Hwf as [|l ls Hl _ IH]; intros [|fuel] dn acc Hs Hf Ha Hn; cbn in Hf; try lia.
  { cbn [dntop_loop]. by rewrite (sub_wire_nil _ _ Hs). }
  apply sub_wire_cons in Hs as (Hr & Hl' & Hs). cbn [dntop_loop]. rewrite Hr. cbn [res_bind].
  rewrite (wf_label_nonempty _ Hl), Nat2Z.id. unfold dotted_from in *. cbn [foldl] in *. fold (dotted_from (add_label acc l) ls) in *.
  pose proof (dotted_from_grows (add_label acc l) ls) as Hgrow. rewrite dntop_one_fits by (done || lia). cbn [res_bind].
  replace (dn + length l + 1)%nat with (dn + 1 + length l)%nat by lia. by rewrite IH by (done || lia).
Qed.
End Fits.

Lemma dns_dntop_fits m dn ls name start siz :
  Forall wf_label ls -> sub m dn (wire ls) -> (length (dotted ls) < siz)%nat ->
  (start + S (length (dotted ls)) <= length name)%nat ->
  dns_dntop m dn name start siz = Ret (Z.of_nat (S (length (dotted ls))), patch name start (dotted ls ++ [0])).
Proof.
  intros Hwf Hs Hsiz Hroom. unfold dns_dntop.
  pose proof (dntop_loop_fits m name start siz ls (S (length m)) dn [] Hwf Hs (sub_wire_fuel _ _ _ Hs)) as H.
  rewrite patch_nil in H. cbn [length] in H. rewrite Nat.add_0_r in H. fold (dotted ls) in H. rewrite H by lia. cbn [res_bind].
  rewrite (proj2 (Nat.leb_gt _ _)), wr_patch by lia. cbn [res_bind]. do 2 f_equal. lia.
Qed.

(** ** The size of the text *)

Lemma dntop_size_label_spec m l dn size :
  sub m dn l -> dntop_size_label (length l) m dn size = Ret (size + length (text l))%nat.
Proof.
  revert dn size. induction l as [|c l IH]; intros dn size Hs; cbn [length dntop_size_label]; [by rewrite Nat.add_0_r|].
  rewrite (sub_rd _ _ _ _ Hs). cbn [res_bind]. rewrite IH by by eapply sub_tail.
  rewrite text_cons, length_app. unfold esc. f_equal. case_match; [cbn; lia|]. case_match; cbn; lia.
Qed.

Lemma add_label_length acc l :
  length (add_label acc l) = ((if (length acc =? 0)%nat then length acc else S (length acc)) + length (text l))%nat.
Proof. unfold add_label, dot. destruct acc; [done|]. rewrite !length_app. cbn. lia. Qed.

Lemma dntop_size_loop_spec m ls fuel dn acc :
  Forall wf_label ls -> sub m dn (wire ls) -> (length ls < fuel)%nat ->
  dntop_size_loop fuel m dn (length acc) = Ret (length (dotted_from acc ls)).
Proof.
  intros Hwf. revert fuel dn acc. induction Hwf as [|l ls Hl _ IH]; intros [|fuel] dn acc Hs Hf; cbn in Hf; try lia.
  { cbn. by rewrite (sub_wire_nil _ _ Hs). }
  apply sub_wire_cons in Hs as (Hr & Hl' & Hs). cbn [dntop_size_loop]. rewrite Hr. cbn [res_bind].
  rewrite (wf_label_nonempty _ Hl), Nat2Z.id, dntop_size_label_spec by done. cbn [res_bind].
  rewrite <- add_label_length. replace (dn + length l + 1)%nat with (dn + 1 + length l)%nat by lia. apply IH; [done|lia].
Qed.

(** The text of a name that fits a DNS packet fits [DNS_MAXNAME]. *)
Lemma text_length l : (length (text l) <= 4 * length l)%nat.
Proof. induction l as [|c l IH]; [done|]. rewrite text_cons, length_app. pose proof (esc_length c). cbn. lia. Qed.

Lemma dotted_from_length acc ls : (length (dotted_from acc ls) <= length acc + 4 * length (labels ls))%nat.
Proof.
  revert acc. induction ls as [|l ls IH]; intros acc; [cbn; lia|]. unfold dotted_from in *. cbn [foldl].
  specialize (IH (add_label acc l)). rewrite add_label_length in IH. rewrite labels_cons. cbn [length]. rewrite length_app.
  pose proof (text_length l). destruct (length acc =? 0)%nat; lia.
Qed.

Lemma dotted_fits ls : wf_name ls -> (length (dotted ls) < DNS_MAXNAME)%nat.
Proof.
  intros [_ Hl]. rewrite length_wire in Hl. pose proof (dotted_from_length [] ls) as H. unfold dotted.
  unfold DNS_MAXDN, DNS_MAXNAME in *. cbn in H. lia.
Qed.

Lemma dns_dntop_size_wire m dn ls :
  wf_name ls -> sub m dn (wire ls) -> dns_dntop_size m dn = Ret (S (length (dotted ls))).
Proof.
  intros Hwf Hs. unfold dns_dntop_size. pose proof (dotted_fits ls Hwf).
  rewrite (dntop_size_loop_spec m ls _ dn []); [|apply Hwf|done|by eapply sub_wire_fuel]. cbn [res_bind].
  fold (dotted ls). rewrite (proj2 (Nat.ltb_ge _ _)) by lia. f_equal. lia.
Qed.

(** ** Reading *)

Lemma rd_byte m i : Forall is_byte m -> (i < length m)%nat -> exists c, rd m i = Ret c /\ is_byte c.
Proof.
  intros Hm Hi. destruct (lookup_lt_is_Some_2 m i Hi) as [c Hc]. exists c. unfold rd. rewrite Hc.
  split; [done|]. by eapply Forall_lookup_1.
Qed.

Lemma u8_byte c : is_byte c -> u8 c = c.
Proof. intros Hc. unfold u8. apply Z.mod_small. unfold is_byte in Hc. lia. Qed.
Lemma u8_is_byte c : is_byte (u8 c).
Proof. unfold u8, is_byte. apply Z.mod_pos_bound. lia. Qed.

(** An escape stays inside the name and moves forward. *)
Lemma ptodn_escape_spec name ne np :
  Forall is_byte name -> (ne <= length name)%nat -> (np <= ne)%nat ->
  exists e, ptodn_escape name ne np = Ret e /\
    forall c np', e = Some (c, np') -> (np < np' <= ne)%nat.
Proof.
  intros Hb Hne Hnp. unfold ptodn_escape. destruct (Nat.eqb_spec np ne); [by exists None|].
  destruct (rd_byte name np Hb) as (a & -> & _); [lia|]. cbn [res_bind].
  destruct (isdigit a); [|eexists; split; [done|]; intros c np' [= <- <-]; lia].
  destruct (Nat.ltb_spec (S np) ne).
  - destruct (rd_byte name (S np) Hb) as (b & -> & _); [lia|]. cbn [res_bind andb].
    destruct (isdigit b); [|eexists; split; [done|]; intros c np' [= <- <-]; lia].
    destruct (Nat.ltb_spec (S (S np)) ne).
    + destruct (rd_byte name (S (S np)) Hb) as (d & -> & _); [lia|]. cbn [res_bind andb].
      destruct (isdigit d); [destruct (255 <? _)|]; eexists; (split; [done|]); [done|..]; intros c np' [= <- <-]; lia.
    + cbn. eexists. split; [done|]. intros c np' [= <- <-]. lia.
  - cbn. eexists. split; [done|]. intros c np' [= <- <-]. lia.
Qed.

Section Read.
Context (m : list Z) (dn dnsiz : nat).
Context (Hsiz : (1 <= dnsiz)%nat) (Hroom : (dn + dnsiz <= length m)%nat).
Let de : nat := (dn + Nat.min dnsiz DNS_MAXDN - 1)%nat.

(** The labels [ls] are done, [cur] is under way, and the memory holds them; the
    byte [x] in front of [cur] will be its length. *)
Definition building (ls : list (list Z)) (cur : list Z) (x : Z) (dp llab : nat) (m' : list Z) : Prop :=
  m' = patch m dn (labels ls ++ x :: cur) /\ Forall wf_label ls /\ Forall is_byte cur /\
  llab = (dn + length (labels ls) + 1)%nat /\ dp = (llab + length cur)%nat /\
  (dp <= if decide (cur = []) then S de else de)%nat.

Lemma building_room ls cur x dp llab m' :
  building ls cur x dp llab m' -> (dn + length (labels ls ++ x :: cur) <= length m)%nat.
Proof.
  intros (_ & _ & _ & -> & -> & Hdp). rewrite length_app. cbn. unfold de in Hdp. case_decide as Hc; [rewrite Hc; cbn|]; lia.
Qed.

(** The length of the label is written. *)
Lemma building_length ls cur x dp llab m' v :
  building ls cur x dp llab m' ->
  wr m' (llab - 1) v = Ret (patch m dn (labels ls ++ v :: cur)).
Proof.
  intros Hb. pose proof (building_room _ _ _ _ _ _ Hb). destruct Hb as (-> & _ & _ & -> & _).
  replace (dn + length (labels ls) + 1 - 1)%nat with (dn + length (labels ls))%nat by lia. by apply wr_patch_mid.
Qed.

(** A byte is added to the label. *)
Lemma building_byte ls cur x dp llab m' v :
  building ls cur x dp llab m' -> is_byte v -> (dp < de)%nat ->
  exists m'', wr m' dp v = Ret m'' /\ building ls (cur ++ [v]) x (S dp) llab m''.
Proof.
  intros Hb Hv Hlt. destruct Hb as (-> & Hls & Hcur & -> & -> & _).
  assert (dn + length (labels ls) + 1 + length cur = dn + length (labels ls ++ x :: cur))%nat as E
    by (rewrite length_app; cbn; lia).
  eexists. split; [rewrite E; apply wr_patch; unfold de in Hlt; lia|].
  split; [by rewrite <- app_assoc|]. split; [done|]. split; [by apply Forall_app; auto|]. split; [done|].
  rewrite length_app. cbn. split; [lia|]. rewrite decide_False by by destruct cur. lia.
Qed.

(** A label is finished. *)
Lemma building_dot ls cur x dp llab m' :
  building ls cur x dp llab m' -> wf_label cur ->
  exists m'' x', wr m' (llab - 1) (u8 (Z.of_nat (length cur))) = Ret m'' /\
    building (ls ++ [cur]) [] x' (S dp) (S dp) m''.
Proof.
  intros Hb Hcur. pose proof (building_length _ _ _ _ _ _ (u8 (Z.of_nat (length cur))) Hb) as Hw.
  pose proof Hcur as [Hlen Hbytes]. rewrite u8_byte in * by (unfold is_byte, DNS_MAXLABEL in *; lia).
  rewrite <- labels_snoc in Hw. destruct Hb as (_ & Hls & _ & Hl & Hd & Hdp).
  rewrite decide_False in Hdp by (by intros ->; cbn in Hlen; lia).
  destruct (patch_next m dn (labels (ls ++ [cur]))) as [x' Hx'].
  { rewrite labels_snoc, length_app. cbn. unfold de in Hdp. lia. }
  rewrite Hx' in Hw. eexists _, x'. split; [exact Hw|]. split; [done|].
  split; [by apply Forall_app; auto|]. split; [done|]. rewrite labels_snoc, length_app. cbn. rewrite Nat.add_0_r.
  split; [lia|]. split; [lia|]. rewrite decide_True by done. lia.
Qed.

(** The end of [dns_ptodn]. *)
Lemma ptodn_finish ls cur x dp llab m' :
  building ls cur x dp llab m' -> (length cur <= DNS_MAXLABEL)%nat ->
  exists m1 ls', wr m' (llab - 1) (u8 (Z.of_nat (length cur))) = Ret m1 /\ wf_name ls' /\
    (length (wire ls') <= dnsiz)%nat /\ ls' = (if (length cur =? 0)%nat then ls else ls ++ [cur]) /\
    if (length cur =? 0)%nat
    then m1 = patch m dn (wire ls') /\ (dp - dn)%nat = length (wire ls')
    else exists m2, wr m1 dp 0 = Ret m2 /\ m2 = patch m dn (wire ls') /\ (S dp - dn)%nat = length (wire ls').
Proof.
  intros Hb Hcur. pose proof (building_room _ _ _ _ _ _ Hb) as Hr.
  pose proof (building_length _ _ _ _ _ _ (u8 (Z.of_nat (length cur))) Hb) as Hw.
  rewrite u8_byte in * by (unfold is_byte, DNS_MAXLABEL in *; lia).
  destruct Hb as (_ & Hls & Hbytes & Hl & Hd & Hdp). rewrite length_app in Hr. cbn in Hr. unfold de, DNS_MAXDN in *.
  destruct (Nat.eqb_spec (length cur) 0) as [Hz|Hz].
  - apply nil_length_inv in Hz as ->. rewrite decide_True in Hdp by done. cbn [length] in *.
    exists (patch m dn (wire ls)), ls. split; [done|]. rewrite length_wire. unfold wf_name, DNS_MAXDN. rewrite length_wire.
    split; [split; [done|lia]|]. split; [lia|]. split; [done|]. split; [done|lia].
  - rewrite decide_False in Hdp by (by intros ->). rewrite <- labels_snoc in Hw.
    assert (length (labels (ls ++ [cur])) = length (labels ls) + S (length cur))%nat as Hll
      by (rewrite labels_snoc, length_app; done).
    exists (patch m dn (labels (ls ++ [cur]))), (ls ++ [cur]). split; [done|].
    unfold wf_name, DNS_MAXDN. rewrite length_wire, Hll.
    split; [split; [apply Forall_app; split; [done|]; apply Forall_singleton; split; [lia|done]|lia]|]. split; [lia|].
    split; [done|]. eexists. split; [|split; [done|lia]].
    replace dp with (dn + length (labels (ls ++ [cur])))%nat by (rewrite Hll; lia). apply wr_patch. rewrite Hll. lia.
Qed.
Context (name : list Z) (start ne : nat).
Context (Hname : Forall is_byte name) (Hne : (ne <= length name)%nat).

(** How the loop ends: with an error, or with a name under way. *)
Definition ptodn_ends (e : ptodn_end) : Prop :=
  match e with
  | PReturn r m' => (r = -1 \/ r = 0) /\ length m' = length m
  | PBreak dp llab m' => exists ls cur x, building ls cur x dp llab m'
  end.

Lemma building_length_m ls cur x dp llab m' : building ls cur x dp llab m' -> length m' = length m.
Proof. intros Hb. pose proof (building_room _ _ _ _ _ _ Hb). destruct Hb as (-> & _). by apply length_patch. Qed.

Lemma ptodn_loop_spec fuel np ls cur x dp llab m' :
  building ls cur x dp llab m' -> (ne - np <= fuel)%nat ->
  exists e, ptodn_loop fuel name start ne dnsiz de np dp llab m' = Ret e /\ ptodn_ends e.
Proof.
  revert np ls cur x dp llab m'. induction fuel as [|fuel IH]; intros np ls cur x dp llab m' Hb Hf.
  { cbn [ptodn_loop]. rewrite (proj2 (Nat.ltb_ge _ _)) by lia. eexists. split; [done|]. by exists ls, cur, x. }
  pose proof (building_length_m _ _ _ _ _ _ Hb) as Hlm. cbn [ptodn_loop].
  destruct (Nat.ltb_spec np ne) as [Hlt|Hge]; cbn [negb]; [|eexists; split; [done|]; by exists ls, cur, x].
  destruct (rd_byte name np Hname) as (ch & -> & Hch); [lia|]. cbn [res_bind].
  assert (dp - llab = length cur)%nat as Hc by (destruct Hb as (_ & _ & _ & _ & -> & _); lia).
  destruct (ch =? 46).
  { rewrite Hc. destruct (Nat.eqb_spec (length cur) 0).
    { destruct (_ && _); eexists; (split; [done|]); [by exists ls, cur, x|by split; [left|]]. }
    destruct (Nat.ltb_spec DNS_MAXLABEL (length cur)); [eexists; split; [done|]; by split; [left|]|].
    destruct (building_dot _ _ _ _ _ _ Hb) as (m'' & x' & -> & Hb'); [split; [lia|apply Hb]|].
    cbn [res_bind]. apply (IH _ _ _ _ _ _ _ Hb'). lia. }
  destruct (Nat.leb_spec de dp).
  { eexists. split; [done|]. split; [case_match; auto|done]. }
  destruct (ch =? 92); cbn [negb].
  - destruct (ptodn_escape_spec name ne (S np)) as (e & -> & He); [done|done|lia|]. cbn [res_bind].
    destruct e as [[c np']|]; [|eexists; split; [done|]; by split; [left|]].
    destruct (building_byte _ _ _ _ _ _ (u8 c) Hb) as (m'' & -> & Hb'); [apply u8_is_byte|lia|].
    cbn [res_bind]. apply (IH _ _ _ _ _ _ _ Hb'). specialize (He c np' eq_refl). lia.
  - destruct (building_byte _ _ _ _ _ _ ch Hb) as (m'' & -> & Hb'); [done|lia|].
    cbn [res_bind]. apply (IH _ _ _ _ _ _ _ Hb'). lia.
Qed.

End Read.

(** The name whose text is [name]: its bytes lie before [np + len], and if [len]
    is not given there is a zero byte after them. *)
Definition c_string (name : list Z) (np namelen : nat) : Prop :=
  Forall is_byte name /\
  if (namelen =? 0)%nat then exists len, strlen name np = Ret len /\ (np + len <= length name)%nat
  else (np + namelen <= length name)%nat.

(** [dns_ptodn] stays in bounds and makes a well-formed name, or refuses. *)
Lemma dns_ptodn_wire name np namelen m dn dnsiz :
  c_string name np namelen -> (dn + dnsiz <= length m)%nat ->
  exists r m' isabs, dns_ptodn name np namelen m dn dnsiz = Ret (r, m', isabs) /\ length m' = length m /\
    (r <= 0 \/ exists ls, wf_name ls /\ r = Z.of_nat (length (wire ls)) /\
       (length (wire ls) <= dnsiz)%nat /\ m' = patch m dn (wire ls)).
Proof.
  intros [Hb Hlen] Hroom. unfold dns_ptodn.
  assert (exists len, (if (namelen =? 0)%nat then strlen name np else Ret namelen) = Ret len /\
    (np + len <= length name)%nat) as (len & -> & Hle).
  { destruct (namelen =? 0)%nat; [done|]. by exists namelen. }
  cbn [res_bind]. destruct (Nat.eqb_spec dnsiz 0) as [->|Hsiz].
  { do 3 eexists. split; [done|]. split; [done|]. by left. }
  destruct (patch_next m dn []) as [x Hx]; [cbn; lia|].
  assert (building m dn dnsiz [] [] x (dn + 1) (dn + 1) m) as Hstart.
  { split; [by rewrite patch_nil in Hx|]. rewrite decide_True by done. unfold DNS_MAXDN. cbn. split_and!; [done|done|lia..]. }
  destruct (ptodn_loop_spec m dn dnsiz ltac:(lia) Hroom name np (np + len) Hb Hle len np _ _ _ _ _ _ Hstart)
    as (e & -> & He); [lia|]. cbn [res_bind]. destruct e as [r m'|dp llab m'].
  { destruct He as [Hr Hm']. do 3 eexists. split; [done|]. split; [done|]. left. lia. }
  destruct He as (ls & cur & y & Hbd).
  assert (dp - llab = length cur)%nat as -> by (destruct Hbd as (_ & _ & _ & _ & -> & _); lia).
  destruct (Nat.ltb_spec DNS_MAXLABEL (length cur)).
  { do 3 eexists. split; [done|]. split; [eapply (building_length_m m dn dnsiz ltac:(lia) Hroom), Hbd|]. by left. }
  destruct (ptodn_finish m dn dnsiz ltac:(lia) Hroom _ _ _ _ _ _ Hbd) as (m1 & ls' & -> & Hwf & Hfit & _ & Hend); [done|].
  cbn [res_bind]. destruct (Nat.eqb_spec (length cur) 0); cbn [negb].
  - destruct Hend as [-> ->]. do 3 eexists. split; [done|]. split; [apply length_patch; lia|]. right. by exists ls'.
  - destruct Hend as (m2 & -> & -> & ->). cbn [res_bind]. do 3 eexists. split; [done|].
    split; [apply length_patch; lia|]. right. by exists ls'.
Qed.

(** ** Reading what was printed *)

Lemma special_spec c : special c = true -> isdigit c = false /\ is_byte c.
Proof. unfold special, isdigit, is_byte. lia. Qed.

Section Back.
Context (m : list Z) (dn dnsiz : nat) (Hsiz : (1 <= dnsiz)%nat) (Hroom : (dn + dnsiz <= length m)%nat).
Context (name : list Z) (start ne : nat).
Let de : nat := (dn + Nat.min dnsiz DNS_MAXDN - 1)%nat.

(** A character that was escaped is read back. *)
Lemma ptodn_loop_esc fuel np dp llab m' c :
  is_byte c -> sub name np (esc c) -> (np + length (esc c) <= ne)%nat -> (dp < de)%nat ->
  ptodn_loop (S fuel) name start ne dnsiz de np dp llab m' =
  let! m := wr m' dp c in ptodn_loop fuel name start ne dnsiz de (np + length (esc c)) (S dp) llab m.
Proof.
  intros Hc Hs Hne Hdp. pose proof (esc_length c). cbn [ptodn_loop].
  rewrite (proj2 (Nat.ltb_lt np ne)) by lia. cbn [negb]. revert Hs Hne. unfold esc.
  destruct (special c) eqn:Hsp; [|destruct ((c <=? 32) || (127 <=? c)) eqn:Hd]; intros Hs Hne; cbn [length] in Hne.
  - rewrite (sub_rd _ _ _ _ Hs). apply sub_tail, sub_rd in Hs. cbn [res_bind].
    rewrite (proj2 (Nat.leb_gt de dp)) by lia. change (92 =? 46) with false. change (92 =? 92) with true. cbn [negb]. unfold ptodn_escape. rewrite (proj2 (Nat.eqb_neq _ _)) by lia. rewrite Hs. cbn [res_bind].
    apply special_spec in Hsp as [-> _]. cbn. rewrite u8_byte by done. do 3 f_equal. by rewrite Nat.add_comm.
  - pose proof (sub_rd _ _ _ _ Hs) as H0. apply sub_tail in Hs. pose proof (sub_rd _ _ _ _ Hs) as H1.
    apply sub_tail in Hs. pose proof (sub_rd _ _ _ _ Hs) as H2. apply sub_tail, sub_rd in Hs.
    rewrite H0. cbn [res_bind]. rewrite (proj2 (Nat.leb_gt de dp)) by lia. change (92 =? 46) with false. change (92 =? 92) with true. cbn [negb].
    assert (ptodn_escape name ne (S np) = Ret (Some (c, np + 4)%nat)) as ->; [|cbn [res_bind]; by rewrite u8_byte].
    unfold is_byte in Hc. assert (0 <= c / 100 <= 2 /\ 0 <= c mod 100 / 10 <= 9 /\ 0 <= c mod 10 <= 9) as (? & ? & ?).
    { split_and!; Z.to_euclidean_division_equations; lia. }
    unfold ptodn_escape. rewrite (proj2 (Nat.eqb_neq _ _)) by lia. rewrite H1. cbn [res_bind].
    assert (isdigit (48 + c / 100) = true) as -> by (unfold isdigit; lia).
    rewrite (proj2 (Nat.ltb_lt (S (S np)) ne)) by lia. rewrite H2. cbn [res_bind andb].
    assert (isdigit (48 + c mod 100 / 10) = true) as -> by (unfold isdigit; lia).
    rewrite (proj2 (Nat.ltb_lt (S (S (S np))) ne)) by lia. rewrite Hs. cbn [res_bind andb].
    assert (isdigit (48 + c mod 10) = true) as -> by (unfold isdigit; lia).
    assert (((48 + c / 100 - 48) * 10 + (48 + c mod 100 / 10) - 48) * 10 + (48 + c mod 10) - 48 = c) as ->.
    { Z.to_euclidean_division_equations. lia. }
    rewrite (proj2 (Z.ltb_ge _ _)) by lia. do 3 f_equal. lia.
  - rewrite (sub_rd _ _ _ _ Hs). cbn [res_bind]. unfold special in Hsp.
    assert ((c =? 46) = false) as -> by lia. assert ((c =? 92) = false) as -> by lia.
    rewrite (proj2 (Nat.leb_gt de dp)) by lia. cbn [negb]. cbn [length]. by rewrite Nat.add_1_r.
Qed.

(** A label that was printed is read back. *)
Lemma ptodn_loop_text l : forall fuel np ls cur x dp llab m',
  building m dn dnsiz ls cur x dp llab m' -> Forall is_byte l -> sub name np (text l) ->
  (np + length (text l) <= ne)%nat -> (dp + length l <= de)%nat -> (ne - np <= fuel)%nat ->
  exists fuel' m'', ptodn_loop fuel name start ne dnsiz de np dp llab m' =
      ptodn_loop fuel' name start ne dnsiz de (np + length (text l)) (dp + length l) llab m'' /\
    building m dn dnsiz ls (cur ++ l) x (dp + length l) llab m'' /\ (ne - (np + length (text l)) <= fuel')%nat.
Proof.
  induction l as [|c l IH]; intros fuel np ls cur x dp llab m' Hb Hl Hs Hne Hdp Hf.
  { exists fuel, m'. cbn. rewrite !Nat.add_0_r, app_nil_r. done. }
  rewrite text_cons in *. rewrite length_app in *. cbn [length] in *. apply Forall_cons in Hl as [Hc Hl].
  apply sub_app in Hs as [Hc' Hs]. pose proof (esc_length c). destruct fuel as [|fuel]; [lia|].
  rewrite (ptodn_loop_esc fuel np dp llab m' c) by (done || lia).
  destruct (building_byte m dn dnsiz Hsiz Hroom _ _ _ _ _ _ c Hb) as (m'' & -> & Hb'); [done|fold de; lia|]. cbn [res_bind].
  destruct (IH fuel _ _ _ _ _ _ _ Hb' Hl Hs) as (fuel' & m3 & -> & Hb3 & Hf'); [lia..|].
  exists fuel', m3. replace (S dp + length l)%nat with (dp + S (length l))%nat in * by lia.
  rewrite Nat.add_assoc. rewrite <- app_assoc in Hb3. done.
Qed.

(** The labels after the first one, each after its dot. *)
Definition dotted_rest (ls : list (list Z)) : list Z := concat ((fun l => 46 :: text l) <$> ls).

Lemma ptodn_loop_rest rest : forall fuel np ls cur x dp llab m',
  building m dn dnsiz ls cur x dp llab m' -> Forall wf_label (cur :: rest) -> sub name np (dotted_rest rest) ->
  (np + length (dotted_rest rest) = ne)%nat -> (dp + length (labels rest) <= de)%nat -> (ne - np <= fuel)%nat ->
  exists ls0 cur0 x0 dp0 llab0 m0, ptodn_loop fuel name start ne dnsiz de np dp llab m' = Ret (PBreak dp0 llab0 m0) /\
    building m dn dnsiz ls0 cur0 x0 dp0 llab0 m0 /\ ls0 ++ [cur0] = ls ++ cur :: rest /\ wf_label cur0.
Proof.
  induction rest as [|l rest IH]; intros fuel np ls cur x dp llab m' Hb Hwf Hs Hne Hdp Hf;
    apply Forall_cons in Hwf as [Hcur Hwf].
  { cbn in Hne. exists ls, cur, x, dp, llab, m'. split; [|done].
    destruct fuel; cbn [ptodn_loop]; by rewrite (proj2 (Nat.ltb_ge _ _)) by lia. }
  unfold dotted_rest in *. rewrite fmap_cons in *. cbn [concat] in *. cbn [app] in Hs, Hne.
  rewrite labels_cons in Hdp. cbn [length] in *. rewrite length_app in *. cbn [length] in *.
  fold (dotted_rest rest) in *. pose proof (sub_rd _ _ _ _ Hs) as Hdot. apply sub_tail, sub_app in Hs as [Hl Hs].
  destruct fuel as [|fuel]; [lia|]. cbn [ptodn_loop]. rewrite (proj2 (Nat.ltb_lt _ _)) by lia. cbn [negb].
  rewrite Hdot. cbn [res_bind]. change (46 =? 46) with true. cbn match.
  assert (dp - llab = length cur)%nat as -> by (destruct Hb as (_ & _ & _ & _ & -> & _); lia).
  pose proof Hcur as [Hlen _]. rewrite (proj2 (Nat.eqb_neq _ _)) by lia. rewrite (proj2 (Nat.ltb_ge _ _)) by lia.
  destruct (building_dot m dn dnsiz Hsiz Hroom _ _ _ _ _ _ Hb Hcur) as (m'' & x' & -> & Hb'). cbn [res_bind].
  destruct (ptodn_loop_text l fuel _ _ _ _ _ _ _ Hb' ltac:(by apply Forall_cons in Hwf as [[_ ?] _]) Hl)
    as (fuel' & m3 & -> & Hb3 & Hf'); [lia..|].
  destruct (IH fuel' _ _ _ _ _ _ _ Hb3 Hwf Hs) as (ls0 & cur0 & x0 & dp0 & llab0 & m0 & Hl0 & Hb0 & He0 & Hw0); [lia..|].
  exists ls0, cur0, x0, dp0, llab0, m0. split; [done|]. split; [done|]. split; [|done]. by rewrite He0, <- app_assoc.
Qed.
End Back.

Lemma dotted_from_rest acc ls : acc <> [] -> dotted_from acc ls = acc ++ dotted_rest ls.
Proof.
  revert acc. induction ls as [|l ls IH]; intros acc Hacc; [by rewrite app_nil_r|].
  unfold dotted_from in *. cbn [foldl]. rewrite IH.
  - unfold add_label, dot. destruct acc; [done|]. unfold dotted_rest. rewrite fmap_cons. cbn. by rewrite <- !app_assoc.
  - intros E. pose proof (add_label_grows acc l). rewrite E in *. destruct acc; cbn in *; [done|lia].
Qed.

Lemma dotted_cons l ls : l <> [] -> dotted (l :: ls) = text l ++ dotted_rest ls.
Proof. intros Hl. unfold dotted. change (dotted_from [] (l :: ls)) with (dotted_from (text l) ls). by apply dotted_from_rest, text_nonempty. Qed.

(** The text has no zero byte. *)
Lemma esc_nonzero c : is_byte c -> Forall (fun b => b <> 0) (esc c).
Proof.
  unfold esc, special, is_byte. intros Hc. case_match; [repeat constructor; lia|].
  case_match; repeat constructor; Z.to_euclidean_division_equations; lia.
Qed.
Lemma text_nonzero l : Forall is_byte l -> Forall (fun b => b <> 0) (text l).
Proof. induction 1 as [|c l Hc Hl IH]; [constructor|]. rewrite text_cons. apply Forall_app. split; [by apply esc_nonzero|done]. Qed.
Lemma dotted_nonzero ls : Forall wf_label ls -> Forall (fun b => b <> 0) (dotted ls).
Proof.
  intros Hls. destruct ls as [|l ls]; [constructor|]. apply Forall_cons in Hls as [[Hl Hb] Hls].
  rewrite dotted_cons by (intros ->; cbn in Hl; lia). apply Forall_app. split; [by apply text_nonzero|].
  unfold dotted_rest. induction Hls as [|l' ls' [_ Hb'] _ IH]; [constructor|]. rewrite fmap_cons. cbn. constructor; [lia|].
  apply Forall_app. split; [by apply text_nonzero|done].
Qed.

Lemma strlen_loop_spec l fuel m i :
  sub m i (l ++ [0]) -> Forall (fun b => b <> 0) l -> (length l < fuel)%nat -> strlen_loop fuel m i = Ret (length l).
Proof.
  revert fuel i. induction l as [|c l IH]; intros fuel i Hs Hl Hf; (destruct fuel as [|fuel]; [lia|]); cbn [strlen_loop].
  - by rewrite (sub_rd _ _ _ _ Hs).
  - apply Forall_cons in Hl as [Hc Hl]. cbn [app length] in *. rewrite (sub_rd _ _ _ _ Hs). cbn [res_bind].
    rewrite (proj2 (Z.eqb_neq _ _)) by done. rewrite IH; [done|by eapply sub_tail|done|lia].
Qed.
Lemma strlen_spec l m i : sub m i (l ++ [0]) -> Forall (fun b => b <> 0) l -> strlen m i = Ret (length l).
Proof. intros Hs Hl. apply strlen_loop_spec; [done..|]. apply sub_length in Hs. rewrite length_app in Hs. lia. Qed.

(** The text of a name, read, is the name. *)
Lemma dns_ptodn_dotted ls name np m dn dnsiz :
  wf_name ls -> sub name np (dotted ls ++ [0]) -> (dn + dnsiz <= length m)%nat -> (length (wire ls) <= dnsiz)%nat ->
  dns_ptodn name np 0 m dn dnsiz =
  Ret (Z.of_nat (length (wire ls)), patch m dn (wire ls), Some (bool_decide (ls = []))).
Proof.
  intros [Hwf Hl] Hs Hroom Hfit. rewrite length_wire in *. unfold dns_ptodn. cbn [Nat.eqb].
  rewrite (strlen_spec _ _ _ Hs (dotted_nonzero ls Hwf)). cbn [res_bind].
  rewrite (proj2 (Nat.eqb_neq dnsiz 0)) by lia. apply sub_app in Hs as [Hs _].
  destruct (patch_next m dn []) as [x Hx]; [cbn; lia|].
  assert (building m dn dnsiz [] [] x (dn + 1) (dn + 1) m) as Hstart.
  { split; [by rewrite patch_nil in Hx|]. rewrite decide_True by done. unfold DNS_MAXDN. cbn. split_and!; [done|done|lia..]. }
  assert (1 <= dnsiz)%nat as Hsiz by lia.
  destruct ls as [|l ls].
  { cbn [dotted dotted_from foldl length ptodn_loop]. rewrite Nat.add_0_r, Nat.ltb_irrefl. cbn [negb res_bind].
    destruct (ptodn_finish m dn dnsiz Hsiz Hroom _ _ _ _ _ _ Hstart) as (m1 & ls' & Hw & _ & _ & -> & -> & Hend); [cbn; lia|].
    rewrite Nat.sub_diag. cbn [Nat.ltb Nat.leb DNS_MAXLABEL]. cbn [length] in Hw. rewrite Hw. cbn [res_bind]. cbn. do 4 f_equal. lia. }
  apply Forall_cons in Hwf as [Hwl Hwf]. pose proof Hwl as [Hll Hlb]. rewrite labels_cons in *. cbn [length] in *. rewrite length_app in *.
  rewrite dotted_cons in * by (intros ->; cbn in Hll; lia). apply sub_app in Hs as [Hs Hr]. rewrite length_app.
  set (ne := (np + _)%nat). unfold DNS_MAXDN in Hl.
  destruct (ptodn_loop_text m dn dnsiz Hsiz Hroom name np ne l (length (text l) + length (dotted_rest ls)) np
    _ _ _ _ _ _ Hstart Hlb Hs) as (fuel & m1 & -> & Hb1 & Hf1); [unfold ne, DNS_MAXDN; lia..|]. cbn [app] in Hb1.
  destruct (ptodn_loop_rest m dn dnsiz Hsiz Hroom name np ne ls fuel (np + length (text l)) _ _ _ _ _ _ Hb1)
    as (ls0 & cur0 & x0 & dp0 & llab0 & m0 & -> & Hb0 & He0 & Hw0 & Hwb); [by constructor|done|unfold ne, DNS_MAXDN; lia..|]. cbn [res_bind].
  assert (dp0 - llab0 = length cur0)%nat as -> by (destruct Hb0 as (_ & _ & _ & _ & -> & _); lia).
  rewrite (proj2 (Nat.ltb_ge _ _)) by lia.
  destruct (ptodn_finish m dn dnsiz Hsiz Hroom _ _ _ _ _ _ Hb0) as (m2 & ls' & -> & _ & _ & Hls' & Hend); [lia|].
  rewrite (proj2 (Nat.eqb_neq _ 0)) in * by lia. rewrite He0 in Hls'. cbn [app] in Hls'. subst ls'.
  destruct Hend as (m3 & Hw3 & -> & Hlen). cbn [res_bind negb]. rewrite Hw3. cbn [res_bind]. rewrite Hlen, length_wire, labels_cons.
  cbn [length]. rewrite length_app. done.
Qed.

(** ** What is written are bytes *)

Lemma wr_bytes m i v m' : wr m i v = Ret m' -> is_byte v -> Forall is_byte m -> Forall is_byte m'.
Proof. unfold wr. intros H Hv Hm. destruct (i <? length m)%nat; [|done]. injection H as <-. by apply Forall_insert. Qed.

Definition end_mem (e : ptodn_end) : list Z := match e with PReturn _ m => m | PBreak _ _ m => m end.

Lemma ptodn_loop_bytes name start ne dnsiz de fuel : Forall is_byte name -> forall np dp llab m e,
  ptodn_loop fuel name start ne dnsiz de np dp llab m = Ret e -> Forall is_byte m -> Forall is_byte (end_mem e).
Proof.
  intros Hn. induction fuel as [|fuel IH]; intros np dp llab m e; cbn [ptodn_loop]; (destruct (negb _); [by intros [= <-]|]); [done|].
  unfold rd. destruct (name !! np) as [ch|] eqn:Hch; [|done]. cbn [res_bind]. assert (is_byte ch) as Hb by (by eapply Forall_lookup_1).
  destruct (ch =? 46).
  { destruct (_ =? 0)%nat; [destruct (_ && _); by intros [= <-]|]. destruct (_ <? _)%nat; [by intros [= <-]|].
    destruct (wr m _ _) as [m1| | |] eqn:Hw; try done. cbn [res_bind]. intros He Hm. apply (IH _ _ _ _ _ He). by eapply wr_bytes, Hm; [|apply u8_is_byte]. }
  destruct (_ <=? _)%nat; [by intros [= <-]|]. destruct (ch =? 92); cbn [negb].
  - destruct (ptodn_escape _ _ _) as [[[c np']|]| | |]; cbn [res_bind]; try done; [|by intros [= <-]].
    destruct (wr m _ _) as [m1| | |] eqn:Hw; try done. cbn [res_bind]. intros He Hm. apply (IH _ _ _ _ _ He). by eapply wr_bytes, Hm; [|apply u8_is_byte].
  - destruct (wr m _ _) as [m1| | |] eqn:Hw; try done. cbn [res_bind]. intros He Hm. apply (IH _ _ _ _ _ He). by eapply wr_bytes, Hm.
Qed.

Lemma dns_ptodn_bytes name np namelen m dn dnsiz r m' isabs :
  dns_ptodn name np namelen m dn dnsiz = Ret (r, m', isabs) -> Forall is_byte name -> Forall is_byte m -> Forall is_byte m'.
Proof.
  unfold dns_ptodn. intros H Hn Hm. destruct (if (namelen =? 0)%nat then _ else _) as [len| | |]; try done. cbn [res_bind] in H.
  destruct (_ =? 0)%nat; [by injection H as _ <- _|]. destruct (ptodn_loop _ _ _ _ _ _ _ _ _ _) as [e| | |] eqn:He; try done.
  pose proof (ptodn_loop_bytes _ _ _ _ _ _ Hn _ _ _ _ _ He Hm) as Hb. cbn [res_bind] in H. destruct e as [r1 m1|dp llab m1]; cbn [end_mem] in Hb.
  { by injection H as _ <- _. }
  destruct (_ <? _)%nat; [by injection H as _ <- _|]. destruct (wr m1 _ _) as [m2| | |] eqn:Hw; try done. cbn [res_bind] in H.
  pose proof (wr_bytes _ _ _ _ Hw (u8_is_byte _) Hb) as Hb2. destruct (negb _); [|by injection H as _ <- _].
  destruct (wr m2 _ _) as [m3| | |] eqn:Hw3; try done. injection H as _ <- _. eapply wr_bytes, Hb2; [done|]. unfold is_byte. lia.
Qed.

(** ** Writing does not change the length *)

Lemma res_bind_ret {A B} (m : res A) (k : A -> res B) b : res_bind m k = Ret b -> exists a, m = Ret a /\ k a = Ret b.
Proof. destruct m; try done. eauto. Qed.

Lemma length_wr m i v m' : wr m i v = Ret m' -> length m' = length m.
Proof. unfold wr. destruct (_ <? _)%nat; [|done]. intros [= <-]. apply length_insert. Qed.

Lemma length_wr_all l : forall m i m', wr_all m i l = Ret m' -> length m' = length m.
Proof.
  induction l as [|v l IH]; intros m i m'; cbn; [by intros [= <-]|]. intros (m1 & H1 & H)%res_bind_ret. rewrite (IH _ _ _ H). by eapply length_wr.
Qed.

Lemma length_memcpy n : forall m i src j m', memcpy m i src j n = Ret m' -> length m' = length m.
Proof.
  induction n as [|n IH]; intros m i src j m'; cbn; [by intros [= <-]|].
  intros (v & _ & (m1 & H1 & H)%res_bind_ret)%res_bind_ret. rewrite (IH _ _ _ _ _ H). by eapply length_wr.
Qed.

Definition text_mem (o : nat * list Z + list Z) : list Z := match o with inl (_, m) => m | inr m => m end.

Lemma length_dntop_label n : forall m dn name np ne o, dntop_label n m dn name np ne = Ret o -> length (text_mem o) = length name.
Proof.
  induction n as [|n IH]; intros m dn name np ne o; cbn [dntop_label]; [by intros [= <-]|]. intros (c & _ & H)%res_bind_ret.
  destruct (special c); [|destruct (_ || _)]; (destruct (_ <? _)%nat || destruct (_ <=? _)%nat);
    try (injection H as <-; done); apply res_bind_ret in H as (name1 & H1 & H); rewrite (IH _ _ _ _ _ _ H);
    first [by eapply length_wr_all|by eapply length_wr].
Qed.

Lemma length_dntop_loop fuel : forall m dn name start np ne o, dntop_loop fuel m dn name start np ne = Ret o -> length (text_mem o) = length name.
Proof.
  induction fuel as [|fuel IH]; intros m dn name start np ne o; [done|]. cbn [dntop_loop]. intros (c & _ & H)%res_bind_ret.
  destruct (c =? 0); [by injection H as <-|]. apply res_bind_ret in H as (o1 & H1 & H).
  assert (length (text_mem o1) = length name) as <-.
  { unfold dntop_one in H1. destruct (np =? start)%nat; [by eapply length_dntop_label|]. destruct (ne <=? np)%nat; [by injection H1 as <-|].
    apply res_bind_ret in H1 as (name1 & H0 & H1). rewrite (length_dntop_label _ _ _ _ _ _ _ H1). by eapply length_wr. }
  destruct o1 as [[np1 name1]|name1]; [by eapply IH|by injection H as <-].
Qed.

Lemma length_dns_dntop m dn name start size n name' : dns_dntop m dn name start size = Ret (n, name') -> length name' = length name.
Proof.
  unfold dns_dntop. intros (o & Ho & H)%res_bind_ret. rewrite <- (length_dntop_loop _ _ _ _ _ _ _ _ Ho). destruct o as [[np m1]|m1]; [|by simplify_eq].
  destruct (_ <=? _)%nat; [by simplify_eq|]. apply res_bind_ret in H as (m2 & H2 & H). simplify_eq. by eapply length_wr.
Qed.

(** C32: [dns_dntop] prints every name within [DNS_MAXNAME] bytes, inside its
    buffer, and [dns_ptodn] reads the text back as the same name, inside its
    buffer too; it tells the root, which has an empty text, from the others. *)
Theorem dns_text_roundtrip (ls : list (list Z)) (m : list Z) (dn : nat) (name : list Z) (start : nat) (buf : list Z) (i : nat) :
  wf_name ls -> sub m dn (wire ls) -> (start + DNS_MAXNAME <= length name)%nat -> (i + DNS_MAXDN <= length buf)%nat ->
  exists n name', dns_dntop m dn name start DNS_MAXNAME = Ret (Z.of_nat n, name') /\ (n <= DNS_MAXNAME)%nat /\
    dns_ptodn name' start 0 buf i DNS_MAXDN =
    Ret (Z.of_nat (length (wire ls)), patch buf i (wire ls), Some (bool_decide (ls = []))).
Proof.
  intros Hwf Hs Hroom Hbuf. pose proof (dotted_fits ls Hwf) as Hfit. pose proof Hwf as [Hl Hlen].
  exists (S (length (dotted ls))), (patch name start (dotted ls ++ [0])).
  split; [apply dns_dntop_fits; try done; lia|]. split; [lia|].
  apply dns_ptodn_dotted; try done. apply patch_sub. lia.
Qed.

Lemma dns_text_roundtrip_witness :
  exists n name', dns_dntop (wire [bytes "a.b"; bytes "c"]) 0 (repeat 1 1024) 0 DNS_MAXNAME = Ret (Z.of_nat n, name') /\ (n <= DNS_MAXNAME)%nat /\
    dns_ptodn name' 0 0 (repeat 1 255) 0 DNS_MAXDN =
    Ret (7, patch (repeat 1 255) 0 (wire [bytes "a.b"; bytes "c"]), Some false).
Proof.
  apply (dns_text_roundtrip [bytes "a.b"; bytes "c"]).
  - split; [|vm_compute; lia]. repeat constructor; try (cbn; unfold DNS_MAXLABEL; lia); vm_compute; done.
  - apply sub_self.
  - rewrite repeat_length. unfold DNS_MAXNAME. lia.
  - rewrite repeat_length. unfold DNS_MAXDN. lia.
Defined.
