(* ===== verification/DnsPacket.v ===== *)
(** * DNS packets

    [src/src/udns/udns_parse.c] and [src/src/udns/udns_rr_a.c]: the names of a
    packet, with compression, the records of its answer section, and the parsing
    routines for addresses.  A packet is the buffer it lies in, read up to [ne];
    a pointer into it is an index.  A write outside of a buffer, and a read
    outside of the packet's buffer, is an [Abort]. *)

From S2P Require Import Prelude DnsName DnsText.
Local Open Scope cpp_scope.
Local Open Scope Z_scope.

(** ** Header *)

(** [src/src/udns/udns.h:75-75] DNS_HSIZE *)
Definition DNS_HSIZE : nat := 12.
(** [src/src/udns/udns.h:83-83] DNS_C_IN *)
Definition DNS_C_IN : Z := 1.
(** [src/src/udns/udns.h:86-86] DNS_C_ANY *)
Definition DNS_C_ANY : Z := 255.
(** [src/src/udns/udns.h:91-91] DNS_T_A *)
Definition DNS_T_A : Z := 1.
(** [src/src/udns/udns.h:95-95] DNS_T_CNAME *)
Definition DNS_T_CNAME : Z := 5.
(** [src/src/udns/udns.h:118-118] DNS_T_AAAA *)
Definition DNS_T_AAAA : Z := 28.
(** [src/src/udns/udns.h:152-152] DNS_T_ANY *)
Definition DNS_T_ANY : Z := 255.

(** [src/src/udns/udns.h:250-252] dns_get16 *)
Definition dns_get16 (m : list Z) (s : nat) : res Z :=
  let! a := rd m s in let! b := rd m (s + 1) in Ret (Z.lor (Z.shiftl a 8) b).
(** [src/src/udns/udns.h:253-256] dns_get32 *)
Definition dns_get32 (m : list Z) (s : nat) : res Z :=
  let! a := rd m s in let! b := rd m (s + 1) in let! c := rd m (s + 2) in let! d := rd m (s + 3) in
  Ret (Z.lor (Z.lor (Z.lor (Z.shiftl a 24) (Z.shiftl b 16)) (Z.shiftl c 8)) d).
(** [src/src/udns/udns.h:305-305] dns_numan *)
Definition dns_numan (pkt : list Z) : res Z := dns_get16 pkt 6.
(** [src/src/udns/udns.h:316-316] dns_payload *)
Definition dns_payload : nat := DNS_HSIZE.

(** ** Names *)

(** [src/src/udns/udns_parse.c:29-39] dns_skipdn, loop *)
Fixpoint skipdn_loop (fuel : nat) (pkt : list Z) (cur ne : nat) : res (option nat) :=
  match fuel with
  | O => OutOfFuel
  | S fuel =>
      if (ne <=? cur)%nat then Ret None
      else let! c := rd pkt cur in
           let cur := S cur in
           if c =? 0 then Ret (Some cur)
           else if negb (Z.land c 192 =? 0) then Ret (if (ne <=? cur + 1)%nat then None else Some (cur + 1)%nat)
           else skipdn_loop fuel pkt (cur + Z.to_nat c) ne
  end.
(** [src/src/udns/udns_parse.c:28-40] dns_skipdn *)
Definition dns_skipdn (pkt : list Z) (cur ne : nat) : res (option nat) := skipdn_loop (S (ne - cur)) pkt cur ne.

(** The loop of [dns_getdn]: its result, the new [*cur] where it is set, and the
    buffer.  [jump] is the position after the first jump, [loop] the jumps left. *)
(** [src/src/udns/udns_parse.c:53-88] dns_getdn, loop *)
Fixpoint getdn_loop (fuel : nat) (pkt : list Z) (ne dn dnsiz de pp dp : nat) (jump : option nat) (loop : nat) (m : list Z)
  : res (Z * option nat * list Z) :=
  let noroom := if (dnsiz <? DNS_MAXDN)%nat then 0 else -1 in
  match fuel with
  | O => OutOfFuel
  | S fuel =>
      if (ne <=? pp)%nat then Ret (-1, None, m)
      else
        let! c := rd pkt pp in
        let pp := S pp in
        if c =? 0 then
          if (de <=? dn)%nat then Ret (noroom, None, m)
          else let! m := wr m dp 0 in Ret (Z.of_nat (S dp - dn), Some (default pp jump), m)
        else if negb (Z.land c 192 =? 0) then
          if (ne <=? pp)%nat then Ret (-1, None, m)
          else
            let go loop jump :=
              let! c2 := rd pkt pp in
              let c := Z.lor (Z.shiftl (Z.land c (Z.lnot 192)) 8) c2 in
              if c <? Z.of_nat DNS_HSIZE then Ret (-1, None, m)
              else getdn_loop fuel pkt ne dn dnsiz de (Z.to_nat c) dp (Some jump) loop m in
            match jump with
            | None => go loop (pp + 1)%nat
            | Some jump => if (loop - 1 =? 0)%nat then Ret (-1, None, m) else go (loop - 1)%nat jump
            end
        else
          let n := Z.to_nat c in
          if (DNS_MAXLABEL <? n)%nat then Ret (-1, None, m)
          else if (ne <? pp + n)%nat then Ret (-1, None, m)
          else if (de <? dp + n + 1)%nat then Ret (noroom, None, m)
          else
            let! m := wr m dp c in
            let! m := memcpy m (dp + 1) pkt pp n in
            getdn_loop fuel pkt ne dn dnsiz de (pp + n) (dp + 1 + n) jump loop m
  end.

(** At most 255 label bytes and 101 jumps are read, so 400 turns are enough. *)
(** [src/src/udns/udns_parse.c:42-89] dns_getdn *)
Definition dns_getdn (pkt : list Z) (cur ne : nat) (m : list Z) (dn dnsiz : nat) : res (Z * nat * list Z) :=
  let de := (dn + (if (dnsiz <? DNS_MAXDN)%nat then dnsiz else DNS_MAXDN))%nat in
  let! (r, cur', m) := getdn_loop 400 pkt ne dn dnsiz de cur dn None 100 m in
  Ret (r, default cur cur', m).

(** ** Records *)

(** [src/src/udns/udns.h:334-342] dns_rr *)
Record dns_rr := Rr {
  dnsrr_dn : list Z;
  dnsrr_cls : Z;
  dnsrr_typ : Z;
  dnsrr_ttl : Z;
  dnsrr_dsz : nat;
  dnsrr_dptr : nat;
  dnsrr_dend : nat
}.

(** The name that is looked for: none, one in other memory or in the packet, or
    the one in [dnsp_dnbuf]. *)
Inductive dn_ptr := DnNull | DnMem (m : list Z) (dn : nat) | DnPkt (dn : nat) | DnBuf.

(** [src/src/udns/udns.h:344-356] dns_parse *)
Record dns_parse := Parse {
  dnsp_pkt : list Z;
  dnsp_end : nat;
  dnsp_cur : nat;
  dnsp_ans : nat;
  dnsp_rrl : nat;
  dnsp_nrr : nat;
  dnsp_ttl : Z;
  dnsp_qdn : dn_ptr;
  dnsp_qcls : Z;
  dnsp_qtyp : Z;
  dnsp_dnbuf : list Z
}.

(** The memory and the position [dnsp_qdn] points to. *)
Definition qdn_mem (p : dns_parse) : option (list Z * nat) :=
  match dnsp_qdn p with
  | DnNull => None
  | DnMem m dn => Some (m, dn)
  | DnPkt dn => Some (dnsp_pkt p, dn)
  | DnBuf => Some (dnsp_dnbuf p, O)
  end.

(** [src/src/udns/udns_parse.c:91-97] dns_rewind *)
Definition dns_rewind (p : dns_parse) (qdn : dn_ptr) : res dns_parse :=
  let! n := dns_numan (dnsp_pkt p) in
  Ret (Parse (dnsp_pkt p) (dnsp_end p) (dnsp_ans p) (dnsp_ans p) (Z.to_nat n) 0 4294967295 qdn
         (dnsp_qcls p) (dnsp_qtyp p) (dnsp_dnbuf p)).

(** [dnbuf] is what the buffer of the structure held before. *)
(** [src/src/udns/udns_parse.c:99-112] dns_initparse *)
Definition dns_initparse (dnbuf : list Z) (qdn : dn_ptr) (pkt : list Z) (cur ne : nat) : res dns_parse :=
  let! n := dns_numan pkt in
  if (ne <? cur + 4)%nat then Abort "dns_initparse: assert(cur + 4 <= end)" else
  let! typ := dns_get16 pkt cur in
  let! cls := dns_get16 pkt (cur + 2) in
  Ret (Parse pkt ne (cur + 4) (cur + 4) (Z.to_nat n) 0 4294967295 qdn
         (if cls =? DNS_C_ANY then 0 else cls) (if typ =? DNS_T_ANY then 0 else typ) dnbuf).

Definition set_rrl (p : dns_parse) (n : nat) : dns_parse :=
  Parse (dnsp_pkt p) (dnsp_end p) (dnsp_cur p) (dnsp_ans p) n (dnsp_nrr p) (dnsp_ttl p) (dnsp_qdn p)
    (dnsp_qcls p) (dnsp_qtyp p) (dnsp_dnbuf p).
Definition set_cur (p : dns_parse) (c : nat) : dns_parse :=
  Parse (dnsp_pkt p) (dnsp_end p) c (dnsp_ans p) (dnsp_rrl p) (dnsp_nrr p) (dnsp_ttl p) (dnsp_qdn p)
    (dnsp_qcls p) (dnsp_qtyp p) (dnsp_dnbuf p).
Definition set_found (p : dns_parse) (c : nat) (ttl : Z) : dns_parse :=
  Parse (dnsp_pkt p) (dnsp_end p) c (dnsp_ans p) (dnsp_rrl p) (S (dnsp_nrr p))
    (if ttl <? dnsp_ttl p then ttl else dnsp_ttl p) (dnsp_qdn p) (dnsp_qcls p) (dnsp_qtyp p) (dnsp_dnbuf p).
Definition set_cname (p : dns_parse) (buf : list Z) (ttl : Z) : dns_parse :=
  Parse (dnsp_pkt p) (dnsp_end p) (dnsp_cur p) (dnsp_ans p) (dnsp_rrl p) (dnsp_nrr p)
    (if ttl <? dnsp_ttl p then ttl else dnsp_ttl p) DnBuf (dnsp_qcls p) (dnsp_qtyp p) buf.
Definition set_dnbuf (p : dns_parse) (buf : list Z) : dns_parse :=
  Parse (dnsp_pkt p) (dnsp_end p) (dnsp_cur p) (dnsp_ans p) (dnsp_rrl p) (dnsp_nrr p) (dnsp_ttl p) (dnsp_qdn p)
    (dnsp_qcls p) (dnsp_qtyp p) buf.

(** The record at [cur]: none if it is malformed. *)
(** [src/src/udns/udns_parse.c:118-130] dns_nextrr, a record *)
Definition nextrr_read (p : dns_parse) (rr : dns_rr) (cur : nat) : res (option (dns_rr)) :=
  let! (r, cur, dn) := dns_getdn (dnsp_pkt p) cur (dnsp_end p) (dnsrr_dn rr) 0 DNS_MAXDN in
  if r <=? 0 then Ret None
  else if (dnsp_end p <? cur + 10)%nat then Ret None
  else
    let! typ := dns_get16 (dnsp_pkt p) cur in
    let! cls := dns_get16 (dnsp_pkt p) (cur + 2) in
    let! ttl := dns_get32 (dnsp_pkt p) (cur + 4) in
    let! dsz := dns_get16 (dnsp_pkt p) (cur + 8) in
    let dptr := (cur + 10)%nat in
    let dend := (dptr + Z.to_nat dsz)%nat in
    if (dnsp_end p <? dend)%nat then Ret None
    else Ret (Some (Rr dn cls typ ttl (Z.to_nat dsz) dptr dend)).

(** [src/src/udns/udns_parse.c:131-132] dns_nextrr, the name *)
Definition nextrr_other (p : dns_parse) (rr : dns_rr) : res bool :=
  match qdn_mem p with
  | None => Ret false
  | Some (m, i) => let! n := dns_dnequal m i (dnsrr_dn rr) 0 in Ret (n =? 0)%nat
  end.

Definition set_dptr (rr : dns_rr) (dptr : nat) : dns_rr :=
  Rr (dnsrr_dn rr) (dnsrr_cls rr) (dnsrr_typ rr) (dnsrr_ttl rr) (dnsrr_dsz rr) dptr (dnsrr_dend rr).

Definition has_qdn (p : dns_parse) : bool := match dnsp_qdn p with DnNull => false | _ => true end.

(** What is returned, the parsing state, and the last record (the one before it
    if the last one is malformed). *)
(** [src/src/udns/udns_parse.c:114-151] dns_nextrr, loop *)
Fixpoint nextrr_loop (rrl : nat) (p : dns_parse) (rr : dns_rr) (cur : nat) : res (Z * dns_parse * dns_rr) :=
  match rrl with
  | O => Ret (0, set_cur p cur, rr)
  | S rrl =>
      let p := set_rrl p rrl in
      let! o := nextrr_read p rr cur in
      match o with
      | None => Ret (-1, p, rr)
      | Some rr =>
          let cur := dnsrr_dend rr in
          let! other := nextrr_other p rr in
          if other then nextrr_loop rrl p rr cur
          else if ((dnsp_qcls p =? 0) || (dnsp_qcls p =? dnsrr_cls rr)) &&
                  ((dnsp_qtyp p =? 0) || (dnsp_qtyp p =? dnsrr_typ rr)) then
            Ret (1, set_found p cur (dnsrr_ttl rr), rr)
          else if has_qdn p && (dnsrr_typ rr =? DNS_T_CNAME) && (dnsp_nrr p =? 0)%nat then
            let! (r, dptr, buf) := dns_getdn (dnsp_pkt p) (dnsrr_dptr rr) (dnsp_end p) (dnsp_dnbuf p) 0 DNS_MAXDN in
            if (r <=? 0) || negb (dptr =? dnsrr_dend rr)%nat then Ret (-1, set_dnbuf p buf, set_dptr rr dptr)
            else nextrr_loop rrl (set_cname p buf (dnsrr_ttl rr)) (set_dptr rr dptr) cur
          else nextrr_loop rrl p rr cur
      end
  end.
(** [src/src/udns/udns_parse.c:114-151] dns_nextrr *)
Definition dns_nextrr (p : dns_parse) (rr : dns_rr) : res (Z * dns_parse * dns_rr) :=
  nextrr_loop (dnsp_rrl p) p rr (dnsp_cur p).

(** [src/src/udns/udns_parse.c:153-158] dns_stdrr_size *)
Definition dns_stdrr_size (p : dns_parse) : res nat :=
  match qdn_mem p with
  | None => Abort "dns_dntop_size: null name"
  | Some (m, i) =>
      let! a := dns_dntop_size m i in
      match dnsp_qdn p with
      | DnPkt i => if (i =? dns_payload)%nat then Ret a else
                   let! b := dns_dntop_size (dnsp_pkt p) dns_payload in Ret (a + b)%nat
      | _ => let! b := dns_dntop_size (dnsp_pkt p) dns_payload in Ret (a + b)%nat
      end
  end.

(** A result: what precedes [ret + 1], with pointers into the rest of the block,
    and that rest. *)
(** [src/src/udns/udns_rr_a.c:37-40] dns_rr_a *)
Record dns_rr_a := RrA {
  dnsa_cname : Z;
  dnsa_qname : Z;
  dnsa_ttl : Z;
  dnsa_nrr : nat;
  dnsa_block : list Z
}.

(** The result of [dns_dntop] is added to [cp] as it is. *)
(** [src/src/udns/udns_parse.c:160-169] dns_stdrr_finish *)
Definition dns_stdrr_finish (nrr : nat) (block : list Z) (cp : nat) (p : dns_parse) : res dns_rr_a :=
  match qdn_mem p with
  | None => Abort "dns_dntop: null name"
  | Some (m, i) =>
      let! (n, block) := dns_dntop m i block cp DNS_MAXNAME in
      let second :=
        let cp' := Z.of_nat cp + n in
        if cp' <? 0 then Abort "dns_stdrr_finish: name before the block" else
        let! (_, block) := dns_dntop (dnsp_pkt p) dns_payload block (Z.to_nat cp') DNS_MAXNAME in
        Ret (RrA (Z.of_nat cp) cp' (dnsp_ttl p) nrr block) in
      match dnsp_qdn p with
      | DnPkt i => if (i =? dns_payload)%nat then Ret (RrA (Z.of_nat cp) (Z.of_nat cp) (dnsp_ttl p) nrr block) else second
      | _ => second
      end
  end.

(** ** Addresses *)

(** [src/src/udns/udns.h:488-488] DNS_E_PROTOCOL *)
Definition DNS_E_PROTOCOL : Z := -2.
(** [src/src/udns/udns.h:490-490] DNS_E_NODATA *)
Definition DNS_E_NODATA : Z := -4.
(** [src/src/udns/udns.h:491-491] DNS_E_NOMEM *)
Definition DNS_E_NOMEM : Z := -5.

(** [src/src/udns/udns_rr_a.c:52-54] dns_parse_a, count *)
Fixpoint parse_a_count (fuel : nat) (p : dns_parse) (rr : dns_rr) (dsize : nat) : res (Z * dns_parse * dns_rr) :=
  match fuel with
  | O => OutOfFuel
  | S fuel =>
      let! (r, p, rr) := dns_nextrr p rr in
      if 0 <? r then
        if negb (dnsrr_dsz rr =? dsize)%nat then Ret (-1, p, rr) else parse_a_count fuel p rr dsize
      else Ret (r, p, rr)
  end.

(** [src/src/udns/udns_rr_a.c:68-69] dns_parse_a, copy *)
Fixpoint parse_a_copy (fuel : nat) (p : dns_parse) (rr : dns_rr) (dsize r : nat) (block : list Z)
  : res (dns_parse * list Z) :=
  match fuel with
  | O => OutOfFuel
  | S fuel =>
      let! (more, p, rr) := dns_nextrr p rr in
      if more =? 0 then Ret (p, block)
      else let! block := memcpy block (dsize * r) (dnsp_pkt p) (dnsrr_dptr rr) dsize in
           parse_a_copy fuel p rr dsize (S r) block
  end.

(** Memory that was not written yet. *)
Definition blank (n : nat) : list Z := repeat 0 n.

(** [malloc n] is whether there is room for a block of [n] bytes after the
    structure.  Every turn of the two loops uses a record of the answer section. *)
(** [src/src/udns/udns_rr_a.c:42-75] dns_parse_a *)
Definition dns_parse_a (malloc : nat -> bool) (qdn : dn_ptr) (pkt : list Z) (cur ne dsize : nat) : res (Z * option dns_rr_a) :=
  let rr := Rr (blank DNS_MAXDN) 0 0 0 0 0 0 in
  let! p := dns_initparse (blank DNS_MAXDN) qdn pkt cur ne in
  let! (r, p, rr) := parse_a_count (S (dnsp_rrl p)) p rr dsize in
  if r <? 0 then Ret (DNS_E_PROTOCOL, None)
  else if (dnsp_nrr p =? 0)%nat then Ret (DNS_E_NODATA, None)
  else
    let! size := dns_stdrr_size p in
    let nrr := dnsp_nrr p in
    let n := (dsize * nrr + size)%nat in
    if negb (malloc n) then Ret (DNS_E_NOMEM, None)
    else
      let! p := dns_rewind p qdn in
      let! (p, block) := parse_a_copy (S (dnsp_rrl p)) p rr dsize 0 (blank n) in
      let! ret := dns_stdrr_finish nrr block (dsize * dnsp_nrr p) p in
      Ret (0, Some ret).

(** [src/src/udns/udns_rr_a.c:77-85] dns_parse_a4 *)
Definition dns_parse_a4 (malloc : nat -> bool) (qdn : dn_ptr) (pkt : list Z) (cur ne : nat) : res (Z * option dns_rr_a) :=
  let! cls := dns_get16 pkt (cur + 2) in
  let! typ := dns_get16 pkt cur in
  if negb ((cls =? DNS_C_IN) && (typ =? DNS_T_A)) then Abort "dns_parse_a4: assert" else
  dns_parse_a malloc qdn pkt cur ne 4.

(** [src/src/udns/udns_rr_a.c:101-109] dns_parse_a6 *)
Definition dns_parse_a6 (malloc : nat -> bool) (qdn : dn_ptr) (pkt : list Z) (cur ne : nat) : res (Z * option dns_rr_a) :=
  let! cls := dns_get16 pkt (cur + 2) in
  let! typ := dns_get16 pkt cur in
  if negb ((cls =? DNS_C_IN) && (typ =? DNS_T_AAAA)) then Abort "dns_parse_a6: assert" else
  dns_parse_a malloc qdn pkt cur ne 16.

(** ** The names of a packet *)

Definition jump_to (c c2 : Z) : nat := Z.to_nat (Z.lor (Z.shiftl (Z.land c (Z.lnot 192)) 8) c2).

(** A name starts at a position: the number of its jumps, its labels, and the
    position after it. *)
Inductive name_at (pkt : list Z) (ne : nat) : nat -> nat -> list (list Z) -> nat -> Prop :=
| name_end p : (p < ne)%nat -> rd pkt p = Ret 0 -> name_at pkt ne p 0 [] (S p)
| name_label p l j ls q :
    (p < ne)%nat -> rd pkt p = Ret (Z.of_nat (length l)) -> (1 <= length l <= DNS_MAXLABEL)%nat ->
    sub pkt (S p) l -> (S p + length l <= ne)%nat -> name_at pkt ne (S p + length l) j ls q ->
    name_at pkt ne p j (l :: ls) q
| name_jump p c c2 j ls q :
    (S p < ne)%nat -> rd pkt p = Ret c -> Z.land c 192 <> 0 -> rd pkt (S p) = Ret c2 ->
    (DNS_HSIZE <= jump_to c c2)%nat -> name_at pkt ne (jump_to c c2) j ls q ->
    name_at pkt ne p (S j) ls (S (S p)).

Lemma not_jump c : is_byte c -> (Z.land c 192 =? 0) = (c <? 64).
Proof.
  intros Hc. unfold is_byte in Hc.
  assert (forallb (fun n => Bool.eqb (Z.land (Z.of_nat n) 192 =? 0) (Z.of_nat n <? 64)) (seq 0 256) = true) as H by reflexivity.
  rewrite forallb_forall in H. specialize (H (Z.to_nat c)). rewrite Z2Nat.id in H by lia.
  apply Bool.eqb_prop, H, in_seq. lia.
Qed.

Lemma jump_to_lt c c2 : is_byte c -> is_byte c2 ->
  (Z.lor (Z.shiftl (Z.land c (Z.lnot 192)) 8) c2 <? Z.of_nat DNS_HSIZE) = (jump_to c c2 <? DNS_HSIZE)%nat.
Proof.
  intros Hc Hc2. unfold jump_to. assert (0 <= Z.lor (Z.shiftl (Z.land c (Z.lnot 192)) 8) c2).
  { apply Z.lor_nonneg. unfold is_byte in *. split; [|lia]. apply Z.shiftl_nonneg, Z.land_nonneg. lia. }
  destruct (Z.ltb_spec (Z.lor (Z.shiftl (Z.land c (Z.lnot 192)) 8) c2) (Z.of_nat DNS_HSIZE)), (Nat.ltb_spec (Z.to_nat (Z.lor (Z.shiftl (Z.land c (Z.lnot 192)) 8) c2)) DNS_HSIZE); lia.
Qed.

Lemma sub_slice m i n : (i + n <= length m)%nat -> sub m i (take n (drop i m)) /\ length (take n (drop i m)) = n.
Proof.
  intros H. split; [|rewrite length_take, length_drop; lia]. exists (take i m), (drop n (drop i m)).
  rewrite take_drop, take_drop, length_take. split; [done|lia].
Qed.
Lemma sub_bytes m i l : Forall is_byte m -> sub m i l -> Forall is_byte l.
Proof. intros Hm (pre & post & -> & _). rewrite !Forall_app in Hm. apply Hm. Qed.

Section Getdn.
Context (pkt : list Z) (ne : nat) (m0 : list Z) (dn dnsiz : nat).
Context (Hpkt : Forall is_byte pkt) (Hne : (ne <= length pkt)%nat).
Let de : nat := (dn + if (dnsiz <? DNS_MAXDN)%nat then dnsiz else DNS_MAXDN)%nat.

Lemma name_at_wf p j ls q : name_at pkt ne p j ls q -> Forall wf_label ls.
Proof. induction 1; [constructor| |done]. constructor; [|done]. split; [done|]. by eapply sub_bytes. Qed.

(** The jumps that are left. *)
Definition jumps_left (jump : option nat) (loop : nat) : nat :=
  match jump with None => loop | Some _ => (loop - 1)%nat end.

Context (Hsiz : (1 <= dnsiz)%nat) (Hroom : (dn + dnsiz <= length m0)%nat).

(** A name that fits is copied; at its end a zero byte is written, be there room
    for it or not. *)
Lemma getdn_loop_name pp j ls q : name_at pkt ne pp j ls q -> forall fuel acc jump loop,
  (j <= jumps_left jump loop)%nat -> (dn + length acc + length (labels ls) <= de)%nat ->
  (de - (dn + length acc) + j < fuel)%nat ->
  getdn_loop fuel pkt ne dn dnsiz de pp (dn + length acc) jump loop (patch m0 dn acc) =
  let! m := wr (patch m0 dn (acc ++ labels ls)) (dn + length acc + length (labels ls)) 0 in
  Ret (Z.of_nat (S (length acc + length (labels ls))), Some (default q jump), m).
Proof.
  induction 1 as [p Hp H0|p l j ls q Hp Hl Hlen Hs Hfit Hname IH|p c c2 j ls q Hp Hc Hj Hc2 Hto Hname IH];
    intros fuel acc jump loop Hjump Hde Hf; (destruct fuel as [|fuel]; [lia|]); cbn [getdn_loop];
    rewrite (proj2 (Nat.leb_gt ne p)) by lia.
  - rewrite H0. cbn [res_bind]. rewrite Z.eqb_refl. rewrite (proj2 (Nat.leb_gt de dn)) by (unfold de, DNS_MAXDN; case_match; lia).
    rewrite app_nil_r. cbn [length labels fmap list_fmap concat]. rewrite !Nat.add_0_r. destruct (wr _ _ _); try done.
    cbn [res_bind]. do 3 f_equal. lia.
  - rewrite Hl. cbn [res_bind]. rewrite (proj2 (Z.eqb_neq _ 0)) by lia.
    unfold DNS_MAXLABEL in Hlen. rewrite not_jump by (unfold is_byte; lia). rewrite (proj2 (Z.ltb_lt _ 64)) by lia. cbn [negb].
    rewrite Nat2Z.id. rewrite (proj2 (Nat.ltb_ge DNS_MAXLABEL _)) by (unfold DNS_MAXLABEL; lia).
    rewrite (proj2 (Nat.ltb_ge ne _)) by lia. rewrite labels_cons in *. cbn [length] in *. rewrite length_app in *.
    rewrite (proj2 (Nat.ltb_ge de _)) by lia.
    assert (de <= length m0)%nat as Hm0 by (unfold de, DNS_MAXDN; destruct (Nat.ltb_spec dnsiz 255); lia).
    rewrite wr_patch by lia. cbn [res_bind].
    replace (dn + length acc + 1)%nat with (dn + length (acc ++ [Z.of_nat (length l)]))%nat by (rewrite length_app; cbn; lia).
    rewrite memcpy_patch by (done || (rewrite length_app; cbn; lia)). cbn [res_bind].
    replace (dn + length (acc ++ [Z.of_nat (length l)]) + length l)%nat
      with (dn + length ((acc ++ [Z.of_nat (length l)]) ++ l))%nat by (rewrite !length_app; lia).
    rewrite (IH fuel) by (rewrite ?length_app; cbn; lia).
    rewrite <- !app_assoc, !length_app. cbn [length app].
    replace (dn + (length acc + (1 + length l)) + length (labels ls))%nat
      with (dn + length acc + S (length l + length (labels ls)))%nat by lia.
    destruct (wr _ _ _); try done. cbn [res_bind]. do 3 f_equal. lia.
  - rewrite Hc. cbn [res_bind]. rewrite (proj2 (Z.eqb_neq c 0)) by (by intros ->). rewrite (proj2 (Z.eqb_neq _ 0)) by done. cbn [negb].
    rewrite (proj2 (Nat.leb_gt ne (S p))) by lia. rewrite Hc2. cbn [res_bind].
    assert (is_byte c /\ is_byte c2) as [Hb Hb2].
    { destruct (rd_byte pkt p Hpkt) as (? & E & ?); [lia|]. destruct (rd_byte pkt (S p) Hpkt) as (? & E2 & ?); [lia|].
      rewrite Hc in E. rewrite Hc2 in E2. by simplify_eq. }
    rewrite jump_to_lt by done. rewrite (proj2 (Nat.ltb_ge _ _)) by lia. fold (jump_to c c2). destruct jump as [jump|]; cbn [jumps_left] in Hjump.
    + rewrite (proj2 (Nat.eqb_neq _ 0)) by lia. apply (IH fuel acc (Some jump)); cbn [jumps_left]; lia.
    + replace (S p + 1)%nat with (S (S p)) by lia. apply (IH fuel acc (Some (S (S p)))); cbn [jumps_left]; lia.
Qed.

(** Otherwise the packet is refused, and nothing is written outside. *)
Lemma getdn_loop_total fuel : forall pp acc jump loop,
  (1 <= loop)%nat -> (dn + length acc <= de)%nat -> (de - (dn + length acc) + jumps_left jump loop < fuel)%nat ->
  (exists j ls q, name_at pkt ne pp j ls q /\ (j <= jumps_left jump loop)%nat /\
     (dn + length acc + length (labels ls) <= de)%nat) \/
  (exists r m', getdn_loop fuel pkt ne dn dnsiz de pp (dn + length acc) jump loop (patch m0 dn acc) = Ret (r, None, m') /\
     r <= (if (dnsiz <? DNS_MAXDN)%nat then 0 else -1) /\ length m' = length m0).
Proof.
  assert (de <= length m0)%nat as Hm0 by (unfold de, DNS_MAXDN; destruct (Nat.ltb_spec dnsiz 255); lia).
  set (rmax := if (dnsiz <? DNS_MAXDN)%nat then 0 else -1). assert (-1 <= rmax <= rmax) as [Hr1 Hr2] by (unfold rmax; case_match; lia).
  induction fuel as [|fuel IH]; intros pp acc jump loop Hloop Hde Hf; [lia|]. cbn [getdn_loop].
  assert (length (patch m0 dn acc) = length m0) as Hlm by (apply length_patch; lia).
  destruct (Nat.leb_spec ne pp) as [?|Hpp]; [right; eauto with lia|].
  destruct (rd_byte pkt pp Hpkt) as (c & Hc & Hb); [lia|]. rewrite Hc. cbn [res_bind].
  destruct (Z.eqb_spec c 0) as [->|Hc0].
  { left. exists O, [], (S pp). split; [by constructor|]. cbn. lia. }
  rewrite not_jump by done. destruct (Z.ltb_spec c 64) as [Hlt|Hge]; cbn [negb].
  - destruct (Nat.ltb_spec DNS_MAXLABEL (Z.to_nat c)); [right; eauto with lia|].
    destruct (Nat.ltb_spec ne (S pp + Z.to_nat c)); [right; eauto with lia|].
    destruct (Nat.ltb_spec de (dn + length acc + Z.to_nat c + 1)); [right; eauto with lia|].
    assert (exists l, sub pkt (S pp) l /\ length l = Z.to_nat c) as (l & Hs & Hl) by (eexists; apply sub_slice; lia).
    unfold is_byte in Hb. rewrite <- Hl in *. assert (c = Z.of_nat (length l)) as -> by lia. rewrite wr_patch by lia. cbn [res_bind].
    replace (dn + length acc + 1)%nat with (dn + length (acc ++ [Z.of_nat (length l)]))%nat by (rewrite length_app; cbn; lia).
    rewrite memcpy_patch by (done || (rewrite length_app; cbn; lia)). cbn [res_bind].
    rewrite <- (Nat.add_assoc dn), <- length_app.
    destruct (IH (S pp + length l)%nat ((acc ++ [Z.of_nat (length l)]) ++ l) jump loop) as [(j & ls & q & Hn & Hj & Hfit)|?];
      [done|rewrite !length_app; cbn; lia..| |by right].
    left. exists j, (l :: ls), q. split; [by constructor; first [done|lia]|]. split; [done|].
    rewrite labels_cons. cbn. rewrite !length_app in *. cbn in Hfit. lia.
  - destruct (Nat.leb_spec ne (S pp)); [right; eauto with lia|].
    destruct (rd_byte pkt (S pp) Hpkt) as (c2 & Hc2 & Hb2); [lia|]. rewrite Hc2. cbn [res_bind]. rewrite jump_to_lt by done.
    fold (jump_to c c2).
    assert (forall j ls q n, name_at pkt ne (jump_to c c2) j ls q /\ (j <= n)%nat /\ (dn + length acc + length (labels ls) <= de)%nat ->
      (DNS_HSIZE <= jump_to c c2)%nat -> exists j ls q, name_at pkt ne pp j ls q /\ (j <= S n)%nat /\ (dn + length acc + length (labels ls) <= de)%nat) as Hstep.
    { intros j ls q n (Hn & Hj & Hfit) Hto. exists (S j), ls, (S (S pp)). split; [|split; [lia|done]].
      econstructor; try done. intros E. rewrite <- Z.eqb_eq, not_jump in E by done. lia. }
    destruct jump as [jump|]; cbn [jumps_left] in *.
    + destruct (Nat.eqb_spec (loop - 1) 0); [right; eauto with lia|].
      destruct (Nat.ltb_spec (jump_to c c2) DNS_HSIZE); [right; eauto with lia|].
      destruct (IH (jump_to c c2) acc (Some jump) (loop - 1)%nat) as [(j & ls & q & Hn)|?]; [lia|lia|cbn; lia| |by right].
      left. replace (loop - 1)%nat with (S (jumps_left (Some jump) (loop - 1))) by (cbn; lia). by eapply Hstep.
    + destruct (Nat.ltb_spec (jump_to c c2) DNS_HSIZE); [right; eauto with lia|].
      destruct (IH (jump_to c c2) acc (Some (S pp + 1)%nat) loop) as [(j & ls & q & Hn)|?]; [lia|lia|cbn; lia| |by right].
      left. replace loop with (S (jumps_left (Some 0%nat) loop)) by (cbn; lia). by eapply Hstep.
Qed.
End Getdn.

(** ** [dns_getdn] *)

(** The name that starts at [cur], if [dns_getdn] follows all of its jumps and it
    has at most [n] bytes without the last one. *)
Definition readable (pkt : list Z) (ne cur n : nat) (ls : list (list Z)) (q : nat) : Prop :=
  exists j, name_at pkt ne cur j ls q /\ (j <= 100)%nat /\ (length (labels ls) <= n)%nat.

Section Getdn_spec.
Context (pkt : list Z) (ne : nat) (m : list Z) (dn dnsiz : nat).
Context (Hpkt : Forall is_byte pkt) (Hne : (ne <= length pkt)%nat).
Context (Hsiz : (1 <= dnsiz)%nat) (Hroom : (dn + dnsiz <= length m)%nat).

Lemma getdn_end : (dn + (if (dnsiz <? DNS_MAXDN)%nat then dnsiz else DNS_MAXDN) = dn + Nat.min dnsiz DNS_MAXDN)%nat.
Proof. destruct (Nat.ltb_spec dnsiz DNS_MAXDN); lia. Qed.

Lemma dns_getdn_name cur ls q :
  readable pkt ne cur (Nat.min dnsiz DNS_MAXDN) ls q ->
  dns_getdn pkt cur ne m dn dnsiz =
  let! m := wr (patch m dn (labels ls)) (dn + length (labels ls)) 0 in Ret (Z.of_nat (length (wire ls)), q, m).
Proof.
  intros (j & Hn & Hj & Hfit). unfold dns_getdn. pose proof getdn_end as E.
  pose proof (getdn_loop_name pkt ne m dn dnsiz Hpkt Hne Hsiz Hroom cur j ls q Hn 400 [] None 100 Hj) as H.
  rewrite E in *. cbn [length] in H. rewrite Nat.add_0_r, patch_nil in H. unfold DNS_MAXDN in *. rewrite H by lia.
  rewrite length_wire. cbn [app]. destruct (wr _ _ _); done.
Qed.

Lemma dns_getdn_cases cur :
  (exists ls q, readable pkt ne cur (Nat.min dnsiz DNS_MAXDN) ls q) \/
  ((forall ls q, ~ readable pkt ne cur (Nat.min dnsiz DNS_MAXDN) ls q) /\
   exists r m', dns_getdn pkt cur ne m dn dnsiz = Ret (r, cur, m') /\
     r <= (if (dnsiz <? DNS_MAXDN)%nat then 0 else -1) /\ length m' = length m).
Proof.
  pose proof getdn_end as E.
  pose proof (getdn_loop_total pkt ne m dn dnsiz Hpkt Hne Hsiz Hroom 400 cur [] None 100 ltac:(lia)) as H.
  rewrite E in H. cbn [length] in H. rewrite Nat.add_0_r, patch_nil in H. cbn [jumps_left] in H.
  destruct H as [(j & ls & q & Hn & Hj & Hfit)|(r & m' & Hr & Hneg & Hl)]; [unfold DNS_MAXDN; lia..| |].
  - left. exists ls, q, j. split; [done|]. lia.
  - right. assert (dns_getdn pkt cur ne m dn dnsiz = Ret (r, cur, m')) as Hg by (unfold dns_getdn; by rewrite E, Hr).
    split; [|by exists r, m']. intros ls q Hn%dns_getdn_name. rewrite Hg in Hn. destruct (wr _ _ _); try done.
    injection Hn as Hn _ _. rewrite length_wire in Hn. destruct (_ <? _)%nat; lia.
Qed.

(** With room for the last byte, the name lies in the buffer. *)
Lemma dns_getdn_fits cur ls q :
  readable pkt ne cur (Nat.min dnsiz DNS_MAXDN - 1) ls q ->
  dns_getdn pkt cur ne m dn dnsiz = Ret (Z.of_nat (length (wire ls)), q, patch m dn (wire ls)).
Proof.
  intros (j & Hn & Hj & Hfit). rewrite (dns_getdn_name cur ls q) by (exists j; split; [done|]; lia).
  rewrite wr_patch by lia. done.
Qed.
End Getdn_spec.
