(* ===== verification/DnsAnswer.v ===== *)
(** * The answers of a DNS packet

    What [dns_nextrr] and [dns_parse_a] of [src/src/udns/udns_parse.c] and
    [src/src/udns/udns_rr_a.c] find in a packet: the records of its answer
    section, searched for a name along its chain of aliases. *)

From S2P Require Import Prelude DnsName DnsText DnsPacket.
Local Open Scope cpp_scope.
Local Open Scope Z_scope.
#[local] Opaque dns_getdn.

(** ** Records *)

(** [an_cname] is the name that the data of the record is, if it is one. *)
Record answer := Answer {
  an_name : list (list Z);
  an_cls : Z;
  an_typ : Z;
  an_ttl : Z;
  an_data : list Z;
  an_cname : option (list (list Z))
}.

Section Answers.
Context (pkt : list Z) (ne : nat).

(** The answer [a] starts at [cur]; its data starts at [dptr]. *)
Definition answer_at (cur : nat) (a : answer) (dptr : nat) : Prop :=
  exists q, readable pkt ne cur (DNS_MAXDN - 1) (an_name a) q /\ dptr = (q + 10)%nat /\
    dns_get16 pkt q = Ret (an_typ a) /\ dns_get16 pkt (q + 2) = Ret (an_cls a) /\
    dns_get32 pkt (q + 4) = Ret (an_ttl a) /\ dns_get16 pkt (q + 8) = Ret (Z.of_nat (length (an_data a))) /\
    sub pkt dptr (an_data a) /\ (dptr + length (an_data a) <= ne)%nat /\
    forall ls, an_cname a = Some ls <-> readable pkt ne dptr (DNS_MAXDN - 1) ls (dptr + length (an_data a)).

(** [n] records from [cur] on, up to the first one that is malformed. *)
Inductive answers : nat -> nat -> list answer -> bool -> Prop :=
| answers_end cur : answers 0 cur [] true
| answers_bad n cur : (forall a dptr, ~ answer_at cur a dptr) -> answers (S n) cur [] false
| answers_cons n cur a dptr as' ok :
    answer_at cur a dptr -> answers n (dptr + length (an_data a)) as' ok -> answers (S n) cur (a :: as') ok.
End Answers.

(** ** The search *)

Section Search.
Context (cls typ : Z).

Definition wanted (a : answer) : bool :=
  ((cls =? 0) || (cls =? an_cls a)) && ((typ =? 0) || (typ =? an_typ a)).

(** The search for [qn], with [nrr] records found: the next record found with the
    ones after it, the end, or an alias that is malformed.  The name and the time
    to live change with the aliases. *)
Inductive found := Found (a : answer) (rest : list answer) (qn : list (list Z)) (ttl : Z)
  | NotFound (qn : list (list Z)) (ttl : Z) | BadAlias.

Fixpoint next (qn : list (list Z)) (nrr : nat) (ttl : Z) (l : list answer) : found :=
  match l with
  | [] => NotFound qn ttl
  | a :: l =>
      if negb (bool_decide (same_name qn (an_name a))) then next qn nrr ttl l
      else if wanted a then Found a l qn (Z.min ttl (an_ttl a))
      else if (an_typ a =? DNS_T_CNAME) && (nrr =? 0)%nat then
        match an_cname a with Some qn => next qn nrr (Z.min ttl (an_ttl a)) l | None => BadAlias end
      else next qn nrr ttl l
  end.

(** All the records that are found, and the last name and time to live, unless an
    alias is malformed. *)
Fixpoint search (qn : list (list Z)) (nrr : nat) (ttl : Z) (l : list answer) : option (list answer * list (list Z) * Z) :=
  match l with
  | [] => Some ([], qn, ttl)
  | a :: l =>
      if negb (bool_decide (same_name qn (an_name a))) then search qn nrr ttl l
      else if wanted a then
        '(l, qn, ttl) ← search qn (S nrr) (Z.min ttl (an_ttl a)) l; Some (a :: l, qn, ttl)
      else if (an_typ a =? DNS_T_CNAME) && (nrr =? 0)%nat then
        match an_cname a with Some qn => search qn nrr (Z.min ttl (an_ttl a)) l | None => None end
      else search qn nrr ttl l
  end.

Lemma search_next qn nrr ttl l :
  search qn nrr ttl l =
  match next qn nrr ttl l with
  | Found a rest qn ttl => '(l, qn, ttl) ← search qn (S nrr) ttl rest; Some (a :: l, qn, ttl)
  | NotFound qn ttl => Some ([], qn, ttl)
  | BadAlias => None
  end.
Proof.
  revert qn ttl. induction l as [|a l IH]; intros qn ttl; [done|]. cbn [search next].
  destruct (negb _); [apply IH|]. destruct (wanted a); [done|]. destruct (_ && _); [|apply IH].
  destruct (an_cname a); [apply IH|done].
Qed.
End Search.

(** ** Reading a record *)

Lemma dns_get16_byte pkt s : Forall is_byte pkt -> (s + 2 <= length pkt)%nat ->
  exists v, dns_get16 pkt s = Ret v /\ 0 <= v.
Proof.
  intros Hb Hs. unfold dns_get16. destruct (rd_byte pkt s Hb) as (a & -> & Ha); [lia|].
  destruct (rd_byte pkt (s + 1) Hb) as (b & -> & Hb'); [lia|]. cbn. eexists. split; [done|].
  unfold is_byte in *. apply Z.lor_nonneg. split; [apply Z.shiftl_nonneg|]; lia.
Qed.
Lemma dns_get32_byte pkt s : Forall is_byte pkt -> (s + 4 <= length pkt)%nat -> exists v, dns_get32 pkt s = Ret v.
Proof.
  intros Hb Hs. unfold dns_get32. destruct (rd_byte pkt s Hb) as (a & -> & _); [lia|].
  destruct (rd_byte pkt (s + 1) Hb) as (b & -> & _); [lia|]. destruct (rd_byte pkt (s + 2) Hb) as (c & -> & _); [lia|].
  destruct (rd_byte pkt (s + 3) Hb) as (d & -> & _); [lia|]. cbn. eauto.
Qed.

Lemma name_at_next pkt ne p j ls q : name_at pkt ne p j ls q -> (p < q <= ne)%nat.
Proof. induction 1; lia. Qed.

(** Two readings of a position agree. *)
Ltac rd_inj := repeat match goal with
  | H : rd ?m ?p = Ret ?a, H' : rd ?m ?p = Ret ?b |- _ => rewrite H in H'; injection H' as H'; try subst
  end.

Lemma small_not_jump c : 0 <= c <= Z.of_nat DNS_MAXLABEL -> Z.land c 192 = 0.
Proof. intros Hc. unfold DNS_MAXLABEL in Hc. apply Z.eqb_eq. rewrite not_jump; unfold is_byte; lia. Qed.

Lemma sub_unique m i l l' : sub m i l -> sub m i l' -> length l = length l' -> l = l'.
Proof.
  intros (a & b & -> & Ha) (a' & b' & E & Ha') Hl. rewrite <- Ha in Ha'.
  apply app_inj_1 in E as [_ E]; [|done]. by apply app_inj_1 in E as [-> _].
Qed.

(** A position holds one name. *)
Lemma name_at_unique pkt ne p j ls q : name_at pkt ne p j ls q ->
  forall j' ls' q', name_at pkt ne p j' ls' q' -> j' = j /\ ls' = ls /\ q' = q.
Proof.
  induction 1 as [p Hp H0|p l j ls q Hp Hl Hlen Hs Hfit Hn IH|p c c2 j ls q Hp Hc Hj Hc2 Hto Hn IH];
    intros j' ls' q' Hn'; inversion Hn' as [|? l' ? ? ? ? Hl' ? Hs'|? ? ? ? ? ? ? ? Hj']; simplify_eq; rd_inj.
  - done.
  - lia.
  - by destruct Hj'.
  - lia.
  - assert (l = l') as <- by (eapply sub_unique; [done|done|lia]). match goal with H : name_at _ _ _ _ _ _ |- _ => by destruct (IH _ _ _ H) as (? & ? & ?); subst end.
  - destruct Hj'. apply small_not_jump. lia.
  - by destruct Hj.
  - destruct Hj. apply small_not_jump. lia.
  - match goal with H : name_at _ _ _ _ _ _ |- _ => by destruct (IH _ _ _ H) as (? & ? & ?); subst end.
Qed.

Lemma readable_unique pkt ne p n ls q n' ls' q' :
  readable pkt ne p n ls q -> readable pkt ne p n' ls' q' -> ls' = ls /\ q' = q.
Proof. intros (j & Hn & _) (j' & Hn' & _). by destruct (name_at_unique _ _ _ _ _ _ Hn _ _ _ Hn') as (_ & ? & ?). Qed.

(** No name has 255 bytes without its last one. *)
Definition no_long_name (pkt : list Z) (ne : nat) : Prop :=
  forall cur ls q, readable pkt ne cur DNS_MAXDN ls q -> (length (labels ls) < DNS_MAXDN)%nat.

Section Read.
Context (pkt : list Z) (ne : nat).
Context (Hpkt : Forall is_byte pkt) (Hne : (ne <= length pkt)%nat) (Hlong : no_long_name pkt ne).

Lemma readable_wf cur n ls q : (n < DNS_MAXDN)%nat -> readable pkt ne cur n ls q -> wf_name ls.
Proof.
  intros Hn (j & H & _ & Hl). split; [by eapply name_at_wf|]. rewrite length_wire. lia.
Qed.

(** A buffer of 255 bytes has room for every name. *)
Lemma dns_getdn_buf buf cur : length buf = DNS_MAXDN ->
  (exists ls q, readable pkt ne cur (DNS_MAXDN - 1) ls q /\
     dns_getdn pkt cur ne buf 0 DNS_MAXDN = Ret (Z.of_nat (length (wire ls)), q, patch buf 0 (wire ls))) \/
  ((forall ls q, ~ readable pkt ne cur (DNS_MAXDN - 1) ls q) /\
   exists r buf', dns_getdn pkt cur ne buf 0 DNS_MAXDN = Ret (r, cur, buf') /\ r < 0 /\ length buf' = DNS_MAXDN).
Proof.
  intros Hbuf. assert (1 <= DNS_MAXDN)%nat as H1 by (unfold DNS_MAXDN; lia).
  assert (0 + DNS_MAXDN <= length buf)%nat as H2 by lia.
  destruct (dns_getdn_cases pkt ne buf 0 DNS_MAXDN Hpkt Hne H1 H2 cur) as [(ls & q & Hr)|[Hno (r & m' & Hr)]];
    rewrite Nat.min_id in *.
  - left. exists ls, q. pose proof (Hlong _ _ _ Hr). destruct Hr as (j & Hn & Hj & _).
    assert (readable pkt ne cur (DNS_MAXDN - 1) ls q) as Hr by (exists j; split; [done|lia]).
    split; [done|]. by apply dns_getdn_fits; rewrite ?Nat.min_id.
  - right. split; [|destruct Hr as (Hr & Hneg & ?); rewrite Nat.ltb_irrefl in Hneg; exists r, m'; split; [exact Hr|lia]]. intros ls q (j & Hn & Hj & Hl). apply (Hno ls q). exists j. split; [done|lia].
Qed.

Lemma cname_exists dptr dend :
  exists o, forall ls, o = Some ls <-> readable pkt ne dptr (DNS_MAXDN - 1) ls dend.
Proof.
  destruct (dns_getdn_buf (blank DNS_MAXDN) dptr) as [(ls & q & Hr & _)|[Hno _]]; [done| |].
  - destruct (decide (q = dend)) as [->|Hq].
    + exists (Some ls). intros ls'. split; [by intros [= <-]|]. intros Hr'. by destruct (readable_unique _ _ _ _ _ _ _ _ _ Hr Hr') as [-> _].
    + exists None. intros ls'. split; [done|]. intros Hr'. by destruct (readable_unique _ _ _ _ _ _ _ _ _ Hr Hr') as [_ ->].
  - exists None. intros ls. split; [done|]. by intros ?%Hno.
Qed.

Definition rr_of (dn : list Z) (a : answer) (dptr : nat) : dns_rr :=
  Rr (patch dn 0 (wire (an_name a))) (an_cls a) (an_typ a) (an_ttl a) (length (an_data a)) dptr (dptr + length (an_data a)).

Lemma nextrr_read_spec p rr cur :
  dnsp_pkt p = pkt -> dnsp_end p = ne -> length (dnsrr_dn rr) = DNS_MAXDN ->
  (exists a dptr, answer_at pkt ne cur a dptr /\ nextrr_read p rr cur = Ret (Some (rr_of (dnsrr_dn rr) a dptr))) \/
  ((forall a dptr, ~ answer_at pkt ne cur a dptr) /\ nextrr_read p rr cur = Ret None).
Proof.
  intros Hp He Hrr. unfold nextrr_read. rewrite Hp, He.
  destruct (dns_getdn_buf (dnsrr_dn rr) cur Hrr) as [(ls & q & Hr & ->)|[Hno (r & buf & -> & Hr & _)]]; cbn [res_bind].
  2:{ right. split; [|by rewrite (proj2 (Z.leb_le _ _)) by lia]. intros a dptr (q & Hq & _). by eapply Hno. }
  rewrite (proj2 (Z.leb_gt _ _)) by (rewrite length_wire; lia).
  assert (forall a dptr, answer_at pkt ne cur a dptr -> dptr = (q + 10)%nat /\ (q + 10 + length (an_data a) <= ne)%nat /\
    dns_get16 pkt (q + 8) = Ret (Z.of_nat (length (an_data a)))) as Huniq.
  { intros a dptr (q' & Hq' & -> & _ & _ & _ & Hd & _ & Hfit & _).
    by destruct (readable_unique _ _ _ _ _ _ _ _ _ Hr Hq') as [_ ->]. }
  destruct (Nat.ltb_spec ne (q + 10)) as [Hlt|Hle].
  { right. split; [|done]. intros a dptr (_ & ? & _)%Huniq. lia. }
  destruct (dns_get16_byte pkt q Hpkt) as (typ & Ht & _); [lia|]. destruct (dns_get16_byte pkt (q + 2) Hpkt) as (cls & Hc & _); [lia|].
  destruct (dns_get32_byte pkt (q + 4) Hpkt) as (ttl & Htl); [lia|]. destruct (dns_get16_byte pkt (q + 8) Hpkt) as (dsz & Hd & Hd0); [lia|].
  rewrite Ht, Hc, Htl, Hd. cbn [res_bind]. destruct (Nat.ltb_spec ne (q + 10 + Z.to_nat dsz)) as [Hlt|Hle'].
  { right. split; [|done]. intros a dptr (_ & ? & E)%Huniq. rewrite Hd in E. injection E as ->. lia. }
  destruct (sub_slice pkt (q + 10) (Z.to_nat dsz)) as [Hs Hsl]; [lia|]. set (data := take _ _) in *.
  destruct (cname_exists (q + 10) (q + 10 + length data)) as [o Ho].
  left. exists (Answer ls cls typ ttl data o), (q + 10)%nat. split; [|unfold rr_of; cbn; by rewrite Hsl].
  exists q. cbn [an_name an_cls an_typ an_ttl an_data an_cname]. rewrite Hsl in *. rewrite Z2Nat.id by lia. by split_and!.
Qed.

Lemma answer_at_unique cur a dptr a' dptr' :
  answer_at pkt ne cur a dptr -> answer_at pkt ne cur a' dptr' -> a' = a /\ dptr' = dptr.
Proof.
  intros (q & Hr & -> & Ht & Hc & Htl & Hd & Hs & _ & Hn) (q' & Hr' & -> & Ht' & Hc' & Htl' & Hd' & Hs' & _ & Hn').
  destruct (readable_unique _ _ _ _ _ _ _ _ _ Hr Hr') as [Hname ->]. split; [|done].
  rewrite Ht in Ht'. rewrite Hc in Hc'. rewrite Htl in Htl'. rewrite Hd in Hd'.
  injection Hd' as Hd'%Nat2Z.inj. pose proof (sub_unique _ _ _ _ Hs Hs' Hd') as Hdata.
  destruct a as [name cl ty tl data cn], a' as [name' cl' ty' tl' data' cn']. cbn in *. simplify_eq. f_equal.
  destruct cn as [ls|]; [by apply Hn', Hn|]. destruct cn' as [ls'|]; [|done]. symmetry. by apply Hn, Hn'.
Qed.

(** ** [dns_nextrr] *)

Context (cls typ : Z) (ans : nat).

(** The name is not in the packet. *)
Definition own_qdn (p : dns_parse) : bool := match dnsp_qdn p with DnMem _ _ | DnBuf => true | _ => false end.
Lemma own_has_qdn p : own_qdn p = true -> has_qdn p = true.
Proof. unfold own_qdn, has_qdn. by destruct (dnsp_qdn p). Qed.

(** The parsing state searches for [qn]. *)
Definition searching (p : dns_parse) (qn : list (list Z)) : Prop :=
  dnsp_pkt p = pkt /\ dnsp_end p = ne /\ dnsp_ans p = ans /\ dnsp_qcls p = cls /\ dnsp_qtyp p = typ /\
  length (dnsp_dnbuf p) = DNS_MAXDN /\ wf_name qn /\ own_qdn p = true /\
  exists m i, qdn_mem p = Some (m, i) /\ sub m i (wire qn).

Lemma nextrr_other_spec p dn a dptr qn :
  searching p qn -> length dn = DNS_MAXDN -> wf_name (an_name a) ->
  nextrr_other p (rr_of dn a dptr) = Ret (negb (bool_decide (same_name qn (an_name a)))).
Proof.
  intros (_ & _ & _ & _ & _ & _ & [Hqn _] & _ & m & i & Hq & Hs) Hdn [Ha Hl]. unfold nextrr_other. rewrite Hq.
  rewrite (dns_dnequal_wire _ _ _ _ qn (an_name a)); [|done|done|done|apply patch_sub; lia]. cbn [res_bind].
  case_bool_decide; [|done]. by rewrite length_wire.
Qed.

Lemma length_rr_of dn a dptr : length dn = DNS_MAXDN -> wf_name (an_name a) -> length (dnsrr_dn (rr_of dn a dptr)) = DNS_MAXDN.
Proof. intros Hdn [_ Hl]. cbn. rewrite length_patch; lia. Qed.

Lemma min_ttl a b : (if a <? b then a else b) = Z.min b a.
Proof. destruct (Z.ltb_spec a b); lia. Qed.

(** The target of an alias becomes the name that is searched for. *)
Lemma searching_cname p qn ls ttl :
  searching p qn -> wf_name ls -> searching (set_cname p (patch (dnsp_dnbuf p) 0 (wire ls)) ttl) ls.
Proof.
  intros (Hp & He & Ha & Hc & Ht & Hb & _) [Hwf Hl]. do 5 (split; [done|]). cbn. split; [rewrite length_patch; lia|].
  split; [done|]. split; [done|]. eexists _, _. split; [done|]. apply patch_sub. lia.
Qed.

Lemma answer_at_wf cur a dptr : answer_at pkt ne cur a dptr -> wf_name (an_name a).
Proof. intros (q & Hr & _). eapply readable_wf, Hr. unfold DNS_MAXDN. lia. Qed.

(** What a call finds, from the [n] records that are left. *)
Definition next_spec (f : found) (ok : bool) (nrr n : nat) (r : res (Z * dns_parse * dns_rr)) : Prop :=
  match f with
  | Found a rest qn' ttl' => exists p' dptr dn,
      r = Ret (1, p', rr_of dn a dptr) /\ searching p' qn' /\
      dnsp_nrr p' = S nrr /\ dnsp_ttl p' = ttl' /\ length (dnsrr_dn (rr_of dn a dptr)) = DNS_MAXDN /\
      sub pkt dptr (an_data a) /\ answers pkt ne (dnsp_rrl p') (dnsp_cur p') rest ok /\ (dnsp_rrl p' < n)%nat
  | NotFound qn' ttl' =>
      if ok then exists p' rr', r = Ret (0, p', rr') /\ searching p' qn' /\
                   dnsp_nrr p' = nrr /\ dnsp_ttl p' = ttl' /\ length (dnsrr_dn rr') = DNS_MAXDN
      else exists p' rr', r = Ret (-1, p', rr')
  | BadAlias => exists p' rr', r = Ret (-1, p', rr')
  end.

Lemma next_spec_S f ok nrr n r : next_spec f ok nrr n r -> next_spec f ok nrr (S n) r.
Proof. destruct f; [|done|done]. intros (p' & dptr & dn & ? & ? & ? & ? & ? & ? & ? & ?). exists p', dptr, dn. auto 10 with lia. Qed.

Lemma answers_S n cur l ok : answers pkt ne (S n) cur l ok ->
  (l = [] /\ ok = false /\ forall a dptr, ~ answer_at pkt ne cur a dptr) \/
  (exists a dptr l', l = a :: l' /\ answer_at pkt ne cur a dptr /\ answers pkt ne n (dptr + length (an_data a)) l' ok).
Proof. inversion 1; subst; [by left|]. right. eauto 10. Qed.

Lemma nextrr_loop_spec n : forall p rr cur l ok qn,
  answers pkt ne n cur l ok -> searching p qn -> length (dnsrr_dn rr) = DNS_MAXDN ->
  next_spec (next cls typ qn (dnsp_nrr p) (dnsp_ttl p) l) ok (dnsp_nrr p) n (nextrr_loop n p rr cur).
Proof.
  induction n as [|n IH]; intros p rr cur l ok qn Has Hs Hrr.
  { inversion Has. cbn. by exists (set_cur p cur), rr. }
  cbn [nextrr_loop]. assert (searching (set_rrl p n) qn) as Hs' by exact Hs. pose proof Hs as (Hp & He & _ & Hc & Ht & Hb & Hqn & Hq & _).
  destruct (nextrr_read_spec (set_rrl p n) rr cur Hp He Hrr) as [(a & dptr & Ha & ->)|[Hno ->]]; cbn [res_bind].
  2:{ apply answers_S in Has as [(-> & -> & _)|(a & dptr & l' & _ & Ha & _)]; [|by destruct (Hno a dptr)]. cbn. eauto. }
  apply answers_S in Has as [(_ & _ & Hno)|(a' & dptr' & l' & -> & Ha' & Has')]; [by destruct (Hno a dptr)|].
  assert (a' = a /\ dptr' = dptr) as [-> ->] by (by eapply answer_at_unique).
  pose proof (answer_at_wf _ _ _ Ha) as Hwf. rewrite (nextrr_other_spec _ _ _ _ qn Hs' Hrr Hwf). cbn [res_bind next].
  pose proof (length_rr_of (dnsrr_dn rr) a dptr Hrr Hwf) as Hrr'.
  assert (next_spec (next cls typ qn (dnsp_nrr p) (dnsp_ttl p) l') ok (dnsp_nrr p) (S n)
    (nextrr_loop n (set_rrl p n) (rr_of (dnsrr_dn rr) a dptr) (dnsrr_dend (rr_of (dnsrr_dn rr) a dptr)))) as Hskip
    by (apply next_spec_S, (IH (set_rrl p n)); done).
  destruct (negb (bool_decide (same_name qn (an_name a)))); [exact Hskip|]. cbn [set_rrl dnsp_qcls dnsp_qtyp].
  rewrite Hc, Ht. cbn [rr_of dnsrr_cls dnsrr_typ]. fold (wanted cls typ a) (rr_of (dnsrr_dn rr) a dptr). destruct (wanted _ _ a).
  { eexists _, dptr, (dnsrr_dn rr). split; [reflexivity|]. cbn [set_found dnsp_nrr dnsp_ttl dnsp_rrl dnsp_cur set_rrl dnsrr_ttl rr_of].
    split; [exact Hs|]. rewrite min_ttl. destruct Ha as (q & _ & _ & _ & _ & _ & _ & Hd & _). auto 10 with lia. }
  change (has_qdn (set_rrl p n)) with (has_qdn p). rewrite (own_has_qdn _ Hq). cbn [andb]. change (dnsrr_typ (rr_of _ a _)) with (an_typ a).
  cbn [dnsp_nrr]. destruct (_ && _); [|exact Hskip]. destruct Ha as (q & _ & _ & _ & _ & _ & _ & Hd & _ & Hcn).
  cbn [dnsp_pkt dnsp_end dnsp_dnbuf rr_of dnsrr_dptr dnsrr_dend set_rrl] in *.
  rewrite Hp, He. destruct (dns_getdn_buf (dnsp_dnbuf p) dptr Hb) as [(ls & q' & Hr & ->)|[Hno (r & buf & -> & Hr & _)]]; cbn [res_bind].
  2:{ rewrite (proj2 (Z.leb_le _ _)) by lia. cbn [orb]. destruct (an_cname a) as [ls|]; [|cbn; eauto].
      destruct (Hno ls (dptr + length (an_data a))%nat). by apply Hcn. }
  rewrite (proj2 (Z.leb_gt _ _)) by (rewrite length_wire; lia). cbn [orb].
  destruct (Nat.eqb_spec q' (dptr + length (an_data a))) as [->|Hq']; cbn [negb].
  - rewrite (proj2 (Hcn ls) Hr). apply next_spec_S.
    assert (wf_name ls) as Hwl by (eapply readable_wf, Hr; unfold DNS_MAXDN; lia).
    pose proof (IH (set_cname (set_rrl p n) (patch (dnsp_dnbuf p) 0 (wire ls)) (an_ttl a)) (set_dptr (rr_of (dnsrr_dn rr) a dptr) (dptr + length (an_data a)))
      _ l' ok ls Has' (searching_cname _ _ _ _ Hs' Hwl) Hrr') as H.
    cbn [set_cname dnsp_nrr dnsp_ttl set_rrl] in H. rewrite min_ttl in H. exact H.
  - destruct (an_cname a) as [ls'|]; [|cbn; eauto]. pose proof (proj1 (Hcn ls') eq_refl) as Hr'.
    by destruct (readable_unique _ _ _ _ _ _ _ _ _ Hr Hr') as [_ ?].
Qed.

(** ** [dns_parse_a] *)

Context (dsize : nat).
Definition right_size (a : answer) : bool := (length (an_data a) =? dsize)%nat.

Lemma parse_a_count_spec fuel : forall p rr l ok qn,
  answers pkt ne (dnsp_rrl p) (dnsp_cur p) l ok -> searching p qn -> length (dnsrr_dn rr) = DNS_MAXDN ->
  (dnsp_rrl p < fuel)%nat ->
  match search cls typ qn (dnsp_nrr p) (dnsp_ttl p) l with
  | Some (f, qn', ttl') =>
      if ok && forallb right_size f then
        exists p' rr', parse_a_count fuel p rr dsize = Ret (0, p', rr') /\ searching p' qn' /\
          dnsp_nrr p' = (dnsp_nrr p + length f)%nat /\ dnsp_ttl p' = ttl' /\ length (dnsrr_dn rr') = DNS_MAXDN
      else exists p' rr', parse_a_count fuel p rr dsize = Ret (-1, p', rr')
  | None => exists p' rr', parse_a_count fuel p rr dsize = Ret (-1, p', rr')
  end.
Proof.
  induction fuel as [|fuel IH]; intros p rr l ok qn Has Hs Hrr Hf; [lia|]. cbn [parse_a_count]. unfold dns_nextrr.
  pose proof (nextrr_loop_spec _ _ _ _ _ _ _ Has Hs Hrr) as Hn. rewrite search_next.
  destruct (next _ _ _ _ _ _) as [a rest qn' ttl'|qn' ttl'|]; cbn [next_spec] in Hn.
  - destruct Hn as (p' & dptr & dn & -> & Hs' & Hnrr & Httl & Hdn & Hd & Has' & Hlt). cbn [res_bind].
    cbn [Z.ltb Z.compare dnsrr_dsz rr_of]. fold (rr_of dn a dptr). specialize (IH p' (rr_of dn a dptr) rest ok qn' Has' Hs' Hdn ltac:(lia)).
    rewrite Hnrr, Httl in IH. fold (right_size a).
    destruct (search _ _ _ _ _ _) as [[[f qn''] ttl'']|]; cbn [mbind option_bind].
    + cbn [forallb length]. destruct (right_size a) eqn:Ha; cbn [negb andb]; [|rewrite andb_false_r; eauto].
      destruct (ok && forallb right_size f); [|done]. by rewrite Nat.add_succ_r.
    + destruct (right_size a); cbn [negb]; eauto.
  - cbn [forallb length]. rewrite Nat.add_0_r, andb_true_r. destruct ok; [|by destruct Hn as (p' & rr' & ->); cbn; eauto].
    destruct Hn as (p' & rr' & -> & ?). cbn. eauto.
  - destruct Hn as (p' & rr' & ->). cbn. eauto.
Qed.

Lemma parse_a_copy_spec fuel b0 : forall p rr l qn acc r f qn' ttl',
  answers pkt ne (dnsp_rrl p) (dnsp_cur p) l true -> searching p qn -> length (dnsrr_dn rr) = DNS_MAXDN ->
  (dnsp_rrl p < fuel)%nat -> search cls typ qn (dnsp_nrr p) (dnsp_ttl p) l = Some (f, qn', ttl') ->
  forallb right_size f = true -> length acc = (dsize * r)%nat -> (length acc + dsize * length f <= length b0)%nat ->
  exists p', parse_a_copy fuel p rr dsize r (patch b0 0 acc) = Ret (p', patch b0 0 (acc ++ concat (an_data <$> f))) /\
    searching p' qn' /\ dnsp_nrr p' = (dnsp_nrr p + length f)%nat /\ dnsp_ttl p' = ttl'.
Proof.
  induction fuel as [|fuel IH]; intros p rr l qn acc r f qn' ttl' Has Hs Hrr Hf Hse Hg Hacc Hroom; [lia|].
  cbn [parse_a_copy]. unfold dns_nextrr. pose proof (nextrr_loop_spec _ _ _ _ _ _ _ Has Hs Hrr) as Hn. rewrite search_next in Hse.
  destruct (next _ _ _ _ _ _) as [a rest qn1 ttl1|qn1 ttl1|]; cbn [next_spec] in Hn; [|simplify_eq|done].
  - destruct Hn as (p' & dptr & dn & -> & Hs' & Hnrr & Httl & Hdn & Hd & Has' & Hlt). cbn [res_bind Z.eqb].
    rewrite <- Httl in Hse. destruct (search cls typ qn1 (S (dnsp_nrr p)) (dnsp_ttl p') rest) as [[[f' qn''] ttl'']|] eqn:Hse'; [|done].
    cbn in Hse. injection Hse as <- <- <-. cbn [forallb length] in *. apply andb_true_iff in Hg as [Ha Hg]. apply Nat.eqb_eq in Ha.
    cbn [rr_of dnsrr_dptr]. destruct Hs' as [Hp Hs']. rewrite Hp. rewrite <- Hnrr in Hse'.
    pose proof (memcpy_patch b0 0 acc pkt dptr (an_data a) Hd ltac:(lia)) as Hm. cbn [Nat.add] in Hm. rewrite Hacc, Ha in Hm. rewrite Hm. cbn [res_bind].
    destruct (IH p' (rr_of dn a dptr) rest qn1 (acc ++ an_data a) (S r) f' qn'' ttl'' Has' ltac:(split; done) Hdn ltac:(lia) Hse' Hg)
      as (p2 & Hp2 & Hs2 & Hn2 & Ht2); [rewrite length_app; lia..|].
    exists p2. rewrite <- app_assoc in Hp2. split; [exact Hp2|]. split; [done|]. split; [|done]. lia.
  - destruct Hn as (p' & rr' & -> & Hs' & Hnrr & Httl & _). cbn. exists p'. rewrite app_nil_r. split; [done|]. split; [done|]. lia.
Qed.

Context (qs : list (list Z)) (Hqs : wf_name qs) (Hpay : sub pkt dns_payload (wire qs)).

Lemma dns_stdrr_size_spec p qn :
  searching p qn -> dns_stdrr_size p = Ret (S (length (dotted qn)) + S (length (dotted qs)))%nat.
Proof.
  intros (Hp & _ & _ & _ & _ & _ & Hqn & Hq & m & i & Hm & Hs). unfold dns_stdrr_size. rewrite Hm, (dns_dntop_size_wire _ _ qn Hqn Hs).
  cbn [res_bind]. unfold own_qdn in Hq. destruct (dnsp_qdn p); try done; by rewrite Hp, (dns_dntop_size_wire _ _ qs Hqs Hpay).
Qed.

Lemma dns_stdrr_finish_spec p qn nrr b0 data :
  searching p qn -> length b0 = (length data + (S (length (dotted qn)) + S (length (dotted qs))))%nat ->
  dns_stdrr_finish nrr (patch b0 0 data) (length data) p =
  Ret (RrA (Z.of_nat (length data)) (Z.of_nat (length data + S (length (dotted qn)))) (dnsp_ttl p) nrr
         (data ++ dotted qn ++ [0] ++ dotted qs ++ [0])).
Proof.
  intros (Hp & _ & _ & _ & _ & _ & Hqn & Hq & m & i & Hm & Hs) Hb. unfold dns_stdrr_finish. rewrite Hm.
  assert (length (patch b0 0 data) = length b0) as Hl by (apply length_patch; lia).
  rewrite (dns_dntop_fits m i qn) by (first [apply Hqn|done|by apply dotted_fits|lia]). cbn [res_bind].
  pose proof (patch_patch b0 0 data (dotted qn ++ [0]) ltac:(rewrite length_app; cbn; lia)) as E. cbn [Nat.add] in E. rewrite E.
  rewrite (proj2 (Z.ltb_ge _ 0)) by lia. rewrite Hp, <- Nat2Z.inj_add, Nat2Z.id.
  assert (length (data ++ dotted qn ++ [0%Z]) = length data + S (length (dotted qn)))%nat as E1 by (rewrite !length_app; cbn; lia).
  rewrite (dns_dntop_fits pkt dns_payload qs) by (first [apply Hqs|done|by apply dotted_fits|rewrite length_patch; lia]). cbn [res_bind].
  pose proof (patch_patch b0 0 (data ++ dotted qn ++ [0]) (dotted qs ++ [0]) ltac:(rewrite E1, length_app; cbn; lia)) as E2.
  cbn [Nat.add] in E2. rewrite E1 in E2. rewrite E2, patch_full by (rewrite length_app, E1, length_app; cbn; lia).
  rewrite <- !app_assoc. unfold own_qdn in Hq. by destruct (dnsp_qdn p).
Qed.
End Read.

(** Every answer section is read. *)
Lemma answers_total pkt ne n cur :
  Forall is_byte pkt -> (ne <= length pkt)%nat -> no_long_name pkt ne -> exists l ok, answers pkt ne n cur l ok.
Proof.
  intros Hb Hne Hlong. revert cur. induction n as [|n IH]; intros cur; [by exists [], true; constructor|].
  set (p := Parse pkt ne 0 0 0 0 0 DnNull 0 0 []). set (rr := Rr (blank DNS_MAXDN) 0 0 0 0 0 0).
  destruct (nextrr_read_spec pkt ne Hb Hne Hlong p rr cur) as [(a & dptr & Ha & _)|[Hno _]]; [done..| |].
  - destruct (IH (dptr + length (an_data a))%nat) as (l & ok & Hl). exists (a :: l), ok. by econstructor.
  - exists [], false. by constructor.
Qed.

(** The class or the type that is asked for; any one is [0]. *)
Definition any_of (any v : Z) : Z := if v =? any then 0 else v.

(** What [dns_parse_a] makes of the search: addresses of [dsize] bytes, the name
    they belong to, and the name of the question [qs]. *)
Definition address_reply (malloc : nat -> bool) (dsize : nat) (qs : list (list Z)) (ok : bool)
    (found : option (list answer * list (list Z) * Z)) : res (Z * option dns_rr_a) :=
  match found with
  | Some (f, cname, ttl) =>
      if negb (ok && forallb (right_size dsize) f) then Ret (DNS_E_PROTOCOL, None)
      else if (length f =? 0)%nat then Ret (DNS_E_NODATA, None)
      else let addrs := concat (an_data <$> f) in
           let block := addrs ++ dotted cname ++ [0] ++ dotted qs ++ [0] in
           if negb (malloc (length block)) then Ret (DNS_E_NOMEM, None)
           else Ret (0, Some (RrA (Z.of_nat (length addrs)) (Z.of_nat (length addrs + S (length (dotted cname)))) ttl (length f) block))
  | None => Ret (DNS_E_PROTOCOL, None)
  end.

Lemma concat_right_size dsize f :
  forallb (right_size dsize) f = true -> length (concat (an_data <$> f)) = (dsize * length f)%nat.
Proof.
  induction f as [|a f IH]; cbn; [lia|]. intros [Ha Hf]%andb_true_iff. apply Nat.eqb_eq in Ha. rewrite length_app.
  fold (an_data <$> f). rewrite IH by done. lia.
Qed.

Lemma dns_parse_a_answers malloc qm qi qn qs pkt cur ne dsize typ cls n l ok :
  Forall is_byte pkt -> (ne <= length pkt)%nat -> no_long_name pkt ne -> (cur + 4 <= ne)%nat ->
  wf_name qn -> sub qm qi (wire qn) -> wf_name qs -> sub pkt dns_payload (wire qs) ->
  dns_get16 pkt cur = Ret typ -> dns_get16 pkt (cur + 2) = Ret cls -> dns_numan pkt = Ret n ->
  answers pkt ne (Z.to_nat n) (cur + 4) l ok ->
  dns_parse_a malloc (DnMem qm qi) pkt cur ne dsize =
  address_reply malloc dsize qs ok (search (any_of DNS_C_ANY cls) (any_of DNS_T_ANY typ) qn 0 4294967295 l).
Proof.
  intros Hb Hne Hlong Hcur Hqn Hq Hqs Hpay Htyp Hcls Hn Hl. unfold dns_parse_a, dns_initparse. rewrite Hn. cbn [res_bind].
  rewrite (proj2 (Nat.ltb_ge _ _)) by lia. rewrite Htyp, Hcls. cbn [res_bind].
  fold (any_of DNS_C_ANY cls) (any_of DNS_T_ANY typ). set (c := any_of _ cls). set (t := any_of _ typ). set (rr0 := Rr _ _ _ _ _ _ _).
  assert (forall buf, length buf = DNS_MAXDN -> searching pkt ne c t (cur + 4)
    (Parse pkt ne (cur + 4) (cur + 4) (Z.to_nat n) 0 4294967295 (DnMem qm qi) c t buf) qn) as Hs0.
  { intros buf Hbuf. do 6 (split; [done|]). split; [done|]. split; [done|]. by exists qm, qi. }
  set (p0 := Parse _ _ _ _ _ _ _ _ _ _ (blank _)). specialize (Hs0 (blank DNS_MAXDN) eq_refl) as Hs.
  pose proof (parse_a_count_spec pkt ne Hb Hne Hlong c t (cur + 4) dsize (S (dnsp_rrl p0)) p0 rr0 l ok qn Hl Hs eq_refl ltac:(lia)) as Hc.
  cbn [dnsp_nrr dnsp_ttl p0] in Hc. unfold address_reply.
  destruct (search c t qn 0 4294967295 l) as [[[f cn] ttl]|] eqn:Hsearch; [|by destruct Hc as (p & rr & ->)].
  destruct (ok && forallb (right_size dsize) f) eqn:Hok; cbn [negb]; [|by destruct Hc as (p & rr & ->)].
  apply andb_true_iff in Hok as [-> Hgood]. destruct Hc as (p & rr & -> & Hsp & Hnrr & Httl & Hrr). cbn [res_bind]. cbn [Z.ltb Z.compare].
  rewrite Hnrr. cbn [Nat.add]. destruct (Nat.eqb_spec (length f) 0) as [|Hf]; [done|].
  rewrite (dns_stdrr_size_spec pkt ne c t (cur + 4) qs Hqs Hpay p cn Hsp). cbn [res_bind].
  pose proof (concat_right_size dsize f Hgood) as Hconcat. rewrite <- Hconcat.
  replace (length (concat (an_data <$> f) ++ dotted cn ++ [0] ++ dotted qs ++ [0]))
    with (length (concat (an_data <$> f)) + (S (length (dotted cn)) + S (length (dotted qs))))%nat by (rewrite !length_app; cbn; lia).
  destruct (negb (malloc _)); [done|]. pose proof Hsp as (Hp & He & Ha & Hcl & Hty & Hbuf & _).
  unfold dns_rewind. rewrite Hp, Hn, He, Ha, Hcl, Hty. cbn [res_bind dnsp_rrl]. set (b0 := blank _).
  assert (length b0 = length (concat (an_data <$> f)) + (S (length (dotted cn)) + S (length (dotted qs))))%nat as Hb0 by apply repeat_length.
  destruct (parse_a_copy_spec pkt ne Hb Hne Hlong c t (cur + 4) dsize (S (Z.to_nat n)) b0
    (Parse pkt ne (cur + 4) (cur + 4) (Z.to_nat n) 0 4294967295 (DnMem qm qi) c t (dnsp_dnbuf p)) rr l qn [] 0 f cn ttl Hl (Hs0 _ Hbuf) Hrr)
    as (p' & Hcopy & Hs' & Hnrr' & Httl'); [cbn; lia|exact Hsearch|done|cbn; lia|cbn [length]; lia|].
  rewrite patch_nil in Hcopy. rewrite Hcopy. cbn [res_bind]. rewrite Hnrr'. cbn [dnsp_nrr Nat.add app]. rewrite <- Hconcat.
  rewrite (dns_stdrr_finish_spec pkt ne Hne c t (cur + 4) qs Hqs Hpay p' cn _ _ _ Hs' Hb0). cbn [res_bind]. by rewrite Httl'.
Qed.

(** ** Checks *)

(** A name without jumps that lies in the packet. *)
Lemma name_at_wire pkt ne p ls :
  Forall wf_label ls -> sub pkt p (wire ls) -> (p + length (wire ls) <= ne)%nat -> name_at pkt ne p 0 ls (p + length (wire ls)).
Proof.
  intros Hwf. revert p. induction Hwf as [|l ls [Hl Hb] _ IH]; intros p Hs Hne.
  - cbn in *. rewrite Nat.add_1_r. constructor; [lia|by apply sub_wire_nil].
  - apply sub_wire_cons in Hs as (Hr & Hsl & Hs). rewrite wire_cons in *. cbn [length] in *. rewrite length_app in *.
    replace (p + S (length l + length (wire ls)))%nat with (S p + length l + length (wire ls))%nat by lia.
    constructor; try done; [lia|lia|]. apply IH; [|lia]. by replace (S p + length l)%nat with (p + 1 + length l)%nat by lia.
Qed.

(** Every name that ends has fewer than 255 bytes without the last one. *)
Definition short_names (pkt : list Z) (ne : nat) : bool :=
  forallb (fun cur => match dns_getdn pkt cur ne (blank (S DNS_MAXDN)) 0 DNS_MAXDN with
                      | Ret (r, _, _) => r <=? Z.of_nat DNS_MAXDN | _ => false end) (seq 0 ne).

Lemma name_at_lt pkt ne p j ls q : name_at pkt ne p j ls q -> (p < ne)%nat.
Proof. inversion 1; subst; lia. Qed.

Lemma short_names_spec pkt ne :
  Forall is_byte pkt -> (ne <= length pkt)%nat -> short_names pkt ne = true -> no_long_name pkt ne.
Proof.
  intros Hb Hne Hs cur ls q Hr. unfold short_names in Hs. rewrite forallb_forall in Hs. specialize (Hs cur).
  assert (cur < ne)%nat as Hcur by (destruct Hr as (j & Hn & _); by eapply name_at_lt).
  assert (0 + DNS_MAXDN <= length (blank (S DNS_MAXDN)))%nat as Hroom by (unfold blank; rewrite repeat_length; lia).
  rewrite (dns_getdn_name pkt ne (blank (S DNS_MAXDN)) 0 DNS_MAXDN Hb Hne ltac:(unfold DNS_MAXDN; lia) Hroom cur ls q) in Hs
    by (by rewrite Nat.min_id).
  destruct Hr as (j & _ & _ & Hl). rewrite wr_patch in Hs by (unfold blank; rewrite repeat_length; lia). cbn [res_bind] in Hs.
  rewrite length_wire in Hs. specialize (Hs ltac:(apply in_seq; lia)). apply Z.leb_le in Hs. lia.
Qed.

Lemma length_parse_a_copy fuel : forall p rr dsize r block p' block', parse_a_copy fuel p rr dsize r block = Ret (p', block') -> length block' = length block.
Proof.
  induction fuel as [|fuel IH]; intros p rr dsize r block p' block'; [done|]. cbn [parse_a_copy]. intros ([[more p1] rr1] & _ & H)%res_bind_ret.
  destruct (more =? 0); [by simplify_eq|]. apply res_bind_ret in H as (b1 & H1 & H). rewrite (IH _ _ _ _ _ _ _ H). by eapply length_memcpy.
Qed.

(** The addresses of a result are in its block. *)
Lemma dns_parse_a_block malloc qdn pkt cur ne dsize s r :
  dns_parse_a malloc qdn pkt cur ne dsize = Ret (s, Some r) -> s = 0 /\ (dsize * dnsa_nrr r <= length (dnsa_block r))%nat.
Proof.
  unfold dns_parse_a. intros (p & _ & ([[k p1] rr] & _ & H)%res_bind_ret)%res_bind_ret. destruct (k <? 0); [done|].
  destruct (dnsp_nrr p1 =? 0)%nat; [done|]. apply res_bind_ret in H as (size & _ & H). destruct (negb _); [done|].
  apply res_bind_ret in H as (p2 & _ & ([p3 block] & Hb & (ret & Hf & H)%res_bind_ret)%res_bind_ret). injection H as <- ->. split; [done|].
  apply length_parse_a_copy in Hb. unfold blank in Hb. rewrite repeat_length in Hb. revert Hf. unfold dns_stdrr_finish.
  generalize (dsize * dnsp_nrr p3)%nat as cp. intros cp. destruct (qdn_mem p3) as [[m i]|]; [|done]. intros ([n b1] & H1 & H)%res_bind_ret.
  apply length_dns_dntop in H1.
  assert (r = RrA (Z.of_nat cp) (Z.of_nat cp) (dnsp_ttl p3) (dnsp_nrr p1) b1 \/
    exists b2 q, length b2 = length b1 /\ r = RrA (Z.of_nat cp) q (dnsp_ttl p3) (dnsp_nrr p1) b2) as [->|(b2 & q & Hb2 & ->)]; [|cbn; lia..].
  destruct (dnsp_qdn p3); try (destruct (_ =? dns_payload)%nat; [left; by injection H as <-|]); right;
    (destruct (_ <? 0); [done|]); apply res_bind_ret in H as ([n2 b2] & H2%length_dns_dntop & H); injection H as <-; eauto.
Qed.


Definition sample_name : list Z := blank 12 ++ [1; 97; 192; 16; 1; 98; 0].


(** The terminator of a name whose labels have 255 bytes is written after the
    buffer. *)
Example dns_getdn_overflow :
  let pkt := blank 12 ++ concat (repeat (63 :: repeat 97 63) 3) ++ (62 :: repeat 97 62) ++ [0] in
  dns_getdn pkt 12 (length pkt) (blank DNS_MAXDN) 0 DNS_MAXDN = Abort "write out of bounds".
Proof. vm_compute. reflexivity. Qed.
