(* ===== verification/DnsQlist.v ===== *)
(** * The list of active queries

    The doubly linked list of [src/src/udns/udns_resolver.c], over a heap of
    queries, and that its operations are those of a list. *)

From S2P Require Import Prelude.
From stdpp Require Import gmap.
Local Open Scope cpp_scope.
Local Open Scope Z_scope.

(** The links of a query, and its deadline. *)
(** [src/src/udns/udns_resolver.c:69-80] dns_query, links *)
Record qnode := QNode { dnsq_next : option nat; dnsq_prev : option nat; qn_deadline : Z }.
Definition set_next (n : qnode) (x : option nat) : qnode := QNode x (dnsq_prev n) (qn_deadline n).
Definition set_prev (n : qnode) (x : option nat) : qnode := QNode (dnsq_next n) x (qn_deadline n).

(** [src/src/udns/udns_resolver.c:65-67] dns_qlist *)
Record dns_qlist := QList { ql_head : option nat; ql_tail : option nat }.

Abbreviation qheap := (gmap nat qnode).

Definition deref (h : qheap) (x : nat) : res qnode :=
  match h !! x with Some n => Ret n | None => Abort "dangling query" end.
Definition upd (h : qheap) (x : nat) (f : qnode -> qnode) : res qheap :=
  let! n := deref h x in Ret (<[x := f n]> h).

(** [src/src/udns/udns_resolver.c:95-97] qlist_init *)
Definition qlist_init : dns_qlist := QList None None.

(** [src/src/udns/udns_resolver.c:99-104] qlist_remove *)
Definition qlist_remove (h : qheap) (l : dns_qlist) (q : nat) : res (qheap * dns_qlist) :=
  let! n := deref h q in
  let! (h, l) := match dnsq_prev n with
                 | Some p => let! h := upd h p (fun m => set_next m (dnsq_next n)) in Ret (h, l)
                 | None => Ret (h, QList (dnsq_next n) (ql_tail l))
                 end in
  match dnsq_next n with
  | Some x => let! h := upd h x (fun m => set_prev m (dnsq_prev n)) in Ret (h, l)
  | None => Ret (h, QList (ql_head l) (dnsq_prev n))
  end.

(** [src/src/udns/udns_resolver.c:106-113] qlist_add_head *)
Definition qlist_add_head (h : qheap) (l : dns_qlist) (q : nat) : res (qheap * dns_qlist) :=
  let! h := upd h q (fun n => set_next n (ql_head l)) in
  let! (h, l) := match ql_head l with
                 | Some x => let! h := upd h x (fun n => set_prev n (Some q)) in Ret (h, l)
                 | None => Ret (h, QList None (Some q))
                 end in
  let! h := upd h q (fun n => set_prev n None) in
  Ret (h, QList (Some q) (ql_tail l)).

(** [src/src/udns/udns_resolver.c:115-127] qlist_insert_after *)
Definition qlist_insert_after (h : qheap) (l : dns_qlist) (q : nat) (prev : option nat) : res (qheap * dns_qlist) :=
  let! h := upd h q (fun n => set_prev n prev) in
  match prev with
  | Some p =>
      let! pn := deref h p in
      let! h := upd h q (fun n => set_next n (dnsq_next pn)) in
      let! (h, l) := match dnsq_next pn with
                     | Some x => let! h := upd h x (fun n => set_prev n (Some q)) in Ret (h, l)
                     | None => Ret (h, QList (ql_head l) (Some q))
                     end in
      let! h := upd h p (fun n => set_next n (Some q)) in
      Ret (h, l)
  | None => qlist_add_head h l q
  end.

(** The place for a deadline, from the tail. *)
(** [src/src/udns/udns_resolver.c:828-830] dns_send_this, place *)
Fixpoint find_place (fuel : nat) (h : qheap) (p : option nat) (deadline : Z) : res (option nat) :=
  match p with
  | None => Ret None
  | Some x =>
      match fuel with
      | O => OutOfFuel
      | S fuel => let! n := deref h x in
                  if qn_deadline n <=? deadline then Ret (Some x) else find_place fuel h (dnsq_prev n) deadline
      end
  end.

(** [src/src/udns/udns_resolver.c:825-832] dns_send_this, move *)
Definition qlist_move (h : qheap) (l : dns_qlist) (q : nat) : res (qheap * dns_qlist) :=
  let! (h, l) := qlist_remove h l q in
  let! n := deref h q in
  let! p := find_place (size h) h (ql_tail l) (qn_deadline n) in
  qlist_insert_after h l q p.

(** A list cut after the last element whose deadline is not after [d]. *)
Fixpoint place {A} (deadline : A -> Z) (d : Z) (l : list A) : list A * list A :=
  match l with
  | [] => ([], [])
  | x :: l => match place deadline d l with
              | ([], e) => if deadline x <=? d then ([x], e) else ([], x :: e)
              | (c, e) => (x :: c, e)
              end
  end.

(** ** The list that the links make *)

Definition fst_or (l : list nat) (nx : option nat) : option nat := match l with [] => nx | x :: _ => Some x end.
Definition lst_or (l : list nat) (p : option nat) : option nat := match last l with Some x => Some x | None => p end.

(** The nodes of [l] between [p] and [nx]. *)
Fixpoint seg (h : qheap) (p : option nat) (l : list nat) (nx : option nat) : Prop :=
  match l with
  | [] => True
  | x :: l => (exists d, h !! x = Some (QNode (fst_or l nx) p d)) /\ seg h (Some x) l nx
  end.

Definition chain (h : qheap) (ql : dns_qlist) (l : list nat) : Prop :=
  NoDup l /\ ql = QList (fst_or l None) (lst_or l None) /\ seg h None l None.

Definition deadline_of (h : qheap) (x : nat) : Z := match h !! x with Some n => qn_deadline n | None => 0 end.

Lemma lst_or_snoc l x p : lst_or (l ++ [x]) p = Some x.
Proof. unfold lst_or. by rewrite last_snoc. Qed.
Lemma lst_or_cons x l p : lst_or (x :: l) p = lst_or l (Some x).
Proof. unfold lst_or. rewrite last_cons. by destruct (last l). Qed.
Lemma lst_or_app a b p : lst_or (a ++ b) p = lst_or b (lst_or a p).
Proof. unfold lst_or. rewrite last_app. by destruct (last b). Qed.
Lemma fst_or_app a b nx : fst_or (a ++ b) nx = fst_or a (fst_or b nx).
Proof. by destruct a. Qed.

Lemma seg_app h p a b nx : seg h p (a ++ b) nx <-> seg h p a (fst_or b nx) /\ seg h (lst_or a p) b nx.
Proof.
  revert p. induction a as [|x a IH]; intros p; cbn [app seg]; [naive_solver|].
  rewrite IH, fst_or_app, lst_or_cons. naive_solver.
Qed.

Lemma seg_insert h p l nx y n : y ∉ l -> seg h p l nx -> seg (<[y := n]> h) p l nx.
Proof.
  revert p. induction l as [|x l IH]; intros p Hy; [done|]. apply not_elem_of_cons in Hy as [Hx Hy]. cbn.
  intros [[d Hd] Hs]. split; [|by apply IH]. exists d. by rewrite lookup_insert_ne by done.
Qed.

(** The links at the ends of a segment. *)
Lemma seg_set_next h p a y nx nx' :
  NoDup (a ++ [y]) -> seg h p (a ++ [y]) nx ->
  exists h', upd h y (fun n => set_next n nx') = Ret h' /\ seg h' p (a ++ [y]) nx' /\
    (forall q l nx, y ∉ l -> seg h q l nx -> seg h' q l nx) /\ (forall x, x <> y -> h' !! x = h !! x) /\
    forall x, deadline_of h' x = deadline_of h x.
Proof.
  intros Hnd (Ha & (d & Hd) & _)%seg_app. apply NoDup_app in Hnd as (_ & Hy & _). unfold upd, deref. rewrite Hd. cbn [res_bind].
  eexists. split; [reflexivity|]. unfold set_next, set_prev. cbn [dnsq_next dnsq_prev qn_deadline]. split; [|split; [|split]].
  - apply seg_app. split; [|cbn; split; [|done]; exists d; by rewrite lookup_insert_eq].
    apply seg_insert; [|done]. intros Hin. by apply (Hy y Hin), list_elem_of_singleton.
  - intros q l nx0. apply seg_insert.
  - intros x Hx. by rewrite lookup_insert_ne by done.
  - intros x. unfold deadline_of. destruct (decide (x = y)) as [->|]; [by rewrite lookup_insert_eq, Hd|by rewrite lookup_insert_ne by done].
Qed.

Lemma seg_set_prev h p y b nx p' :
  NoDup (y :: b) -> seg h p (y :: b) nx ->
  exists h', upd h y (fun n => set_prev n p') = Ret h' /\ seg h' p' (y :: b) nx /\
    (forall q l nx, y ∉ l -> seg h q l nx -> seg h' q l nx) /\ (forall x, x <> y -> h' !! x = h !! x) /\
    forall x, deadline_of h' x = deadline_of h x.
Proof.
  intros [Hy _]%NoDup_cons [[d Hd] Hb]. unfold upd, deref. rewrite Hd. cbn [res_bind].
  eexists. split; [reflexivity|]. unfold set_next, set_prev. cbn [dnsq_next dnsq_prev qn_deadline]. split; [|split; [|split]].
  - split; [exists d; by rewrite lookup_insert_eq|]. by apply seg_insert.
  - intros q l nx0. apply seg_insert.
  - intros x Hx. by rewrite lookup_insert_ne by done.
  - intros x. unfold deadline_of. destruct (decide (x = y)) as [->|]; [by rewrite lookup_insert_eq, Hd|by rewrite lookup_insert_ne by done].
Qed.

(** ** The operations *)

Lemma qlist_remove_spec h ql a q b :
  chain h ql (a ++ q :: b) ->
  exists h' ql', qlist_remove h ql q = Ret (h', ql') /\ chain h' ql' (a ++ b) /\ h' !! q = h !! q /\
    forall x, deadline_of h' x = deadline_of h x.
Proof.
  intros (Hnd & -> & Hseg). apply seg_app in Hseg as [Ha [[d Hq] Hb]]. cbn [fst_or] in *.
  apply NoDup_app in Hnd as (Hna & Hab & [Hqb Hnb]%NoDup_cons).
  assert ((q ∉ a) /\ (forall x, x ∈ a -> x ∉ b)) as [Hqa Hdis].
  { split; [intros Hin; by apply (Hab q Hin), list_elem_of_here|]. intros x Hx Hxb. by apply (Hab x Hx), list_elem_of_further. }
  assert (NoDup (a ++ b)) as Hnd by (apply NoDup_app; auto).
  unfold qlist_remove, deref. rewrite Hq. cbn [res_bind dnsq_prev dnsq_next ql_head ql_tail].
  assert (exists h1, (match lst_or a None with
            | Some p => let! h := upd h p (fun m => set_next m (fst_or b None)) in Ret (h, QList (fst_or (a ++ q :: b) None) (lst_or (a ++ q :: b) None))
            | None => Ret (h, QList (fst_or b None) (lst_or (a ++ q :: b) None)) end) =
          Ret (h1, QList (fst_or (a ++ b) None) (lst_or (a ++ q :: b) None)) /\
          seg h1 None a (fst_or b None) /\ seg h1 (Some q) b None /\ h1 !! q = h !! q /\ forall x, deadline_of h1 x = deadline_of h x)
    as (h1 & -> & Ha1 & Hb1 & Hq1 & Hd1).
  { destruct a as [|y a _] using rev_ind; [by exists h|]. rewrite lst_or_snoc.
    destruct (seg_set_next _ _ _ _ _ (fst_or b None) Hna Ha) as (h1 & -> & Ha1 & Hfr & Hne & Hdl). exists h1. cbn [res_bind].
    split; [by destruct a|]. split; [done|]. split; [apply Hfr; [apply Hdis; set_solver|done]|]. split; [apply Hne; set_solver|done]. }
  cbn [res_bind ql_head ql_tail]. destruct b as [|y b]; cbn [fst_or] in *.
  - exists h1. eexists. split; [reflexivity|]. split; [|by rewrite Hq1]. rewrite app_nil_r in *. split; [done|]. split; [done|done].
  - destruct (seg_set_prev _ _ _ _ _ (lst_or a None) Hnb Hb1) as (h2 & -> & Hb2 & Hfr & Hne & Hdl). cbn [res_bind].
    exists h2. eexists. split; [reflexivity|]. split.
    + split; [done|]. split; [by rewrite !lst_or_app, !lst_or_cons|]. apply seg_app. split; [|done].
      apply Hfr; [|done]. intros Hin. apply (Hdis y Hin). set_solver.
    + split; [rewrite <- Hq, <- Hq1; apply Hne; set_solver|]. intros x. by rewrite Hdl.
Qed.

Lemma upd_fresh h q n f l p nx :
  h !! q = Some n -> q ∉ l -> seg h p l nx -> upd h q f = Ret (<[q := f n]> h) /\ seg (<[q := f n]> h) p l nx.
Proof. intros Hq Hl Hs. unfold upd, deref. rewrite Hq. split; [done|]. by apply seg_insert. Qed.

Lemma deadline_insert h q n n' x :
  h !! q = Some n -> qn_deadline n' = qn_deadline n -> deadline_of (<[q := n']> h) x = deadline_of h x.
Proof.
  intros Hq Hn. unfold deadline_of. destruct (decide (x = q)) as [->|]; [by rewrite lookup_insert_eq, Hq|by rewrite lookup_insert_ne by done].
Qed.

Lemma qlist_add_head_spec h ql l q n :
  chain h ql l -> q ∉ l -> h !! q = Some n ->
  exists h' ql', qlist_add_head h ql q = Ret (h', ql') /\ chain h' ql' (q :: l) /\
    forall x, deadline_of h' x = deadline_of h x.
Proof.
  intros (Hnd & -> & Hseg) Hl Hq. unfold qlist_add_head. cbn [ql_head ql_tail].
  destruct (upd_fresh h q n (fun n => set_next n (fst_or l None)) l None None Hq Hl Hseg) as [-> Hs1]. cbn [res_bind].
  set (h1 := <[q := _]> h) in *. assert (h1 !! q = Some (set_next n (fst_or l None))) as Hq1 by apply lookup_insert_eq.
  assert (forall x, deadline_of h1 x = deadline_of h x) as Hd1 by (intros x; by eapply deadline_insert).
  destruct l as [|y l]; cbn [fst_or].
  - cbn [res_bind ql_tail]. unfold upd, deref. cbn [fst_or] in Hq1. rewrite Hq1. cbn [res_bind]. eexists _, _. split; [reflexivity|].
    split; [|intros x; rewrite <- Hd1; by eapply deadline_insert]. split; [by apply NoDup_singleton|]. split; [done|]. cbn.
    split; [|done]. eexists. apply lookup_insert_eq.
  - destruct (seg_set_prev _ _ _ _ _ (Some q) Hnd Hs1) as (h2 & -> & Hs2 & _ & Hne & Hd2). cbn [res_bind].
    assert (h2 !! q = h1 !! q) as Hq2 by (apply Hne; set_solver). rewrite Hq1 in Hq2. unfold upd, deref. rewrite Hq2. cbn [res_bind].
    eexists _, _. split; [reflexivity|]. split; [|intros x; rewrite <- Hd1, <- Hd2; by eapply deadline_insert].
    split; [by apply NoDup_cons|]. split; [cbn; by rewrite !lst_or_cons|]. split; [|by apply seg_insert].
    eexists. apply lookup_insert_eq.
Qed.

Lemma qlist_insert_after_spec h ql a p b q n :
  chain h ql (a ++ p :: b) -> q ∉ a ++ p :: b -> h !! q = Some n ->
  exists h' ql', qlist_insert_after h ql q (Some p) = Ret (h', ql') /\ chain h' ql' (a ++ p :: q :: b) /\
    forall x, deadline_of h' x = deadline_of h x.
Proof.
  intros (Hnd & -> & Hseg) Hl Hq. unfold qlist_insert_after.
  destruct (upd_fresh h q n (fun n => set_prev n (Some p)) _ None None Hq Hl Hseg) as [-> Hs1]. cbn [res_bind].
  set (h1 := <[q := _]> h) in *. assert (h1 !! q = Some (set_prev n (Some p))) as Hq1 by apply lookup_insert_eq.
  assert (forall x, deadline_of h1 x = deadline_of h x) as Hd1 by (intros x; by eapply deadline_insert).
  assert (exists d, h1 !! p = Some (QNode (fst_or b None) (lst_or a None) d)) as (dp & Hp) by (by apply seg_app in Hs1 as [_ [? _]]).
  unfold deref at 1. rewrite Hp. cbn [res_bind dnsq_next ql_head ql_tail].
  destruct (upd_fresh h1 q _ (fun n => set_next n (fst_or b None)) _ None None Hq1 Hl Hs1) as [-> Hs2]. cbn [res_bind].
  set (h2 := <[q := _]> h1) in *. assert (h2 !! q = Some (QNode (fst_or b None) (Some p) (qn_deadline n))) as Hq2 by apply lookup_insert_eq.
  assert (forall x, deadline_of h2 x = deadline_of h x) as Hd2 by (intros x; rewrite <- Hd1; by eapply deadline_insert).
  replace (a ++ p :: b) with ((a ++ [p]) ++ b) in Hs2, Hnd by (by rewrite <- app_assoc).
  apply seg_app in Hs2 as [Ha Hb]. rewrite lst_or_snoc in Hb. pose proof Hnd as (Hna & Hab & Hnb)%NoDup_app.
  assert (exists h3, (match fst_or b None with
            | Some x => let! h := upd h2 x (fun n => set_prev n (Some q)) in Ret (h, QList (fst_or (a ++ p :: b) None) (lst_or (a ++ p :: b) None))
            | None => Ret (h2, QList (fst_or (a ++ p :: b) None) (Some q)) end) =
          Ret (h3, QList (fst_or (a ++ p :: q :: b) None) (lst_or (a ++ p :: q :: b) None)) /\
          seg h3 None (a ++ [p]) (fst_or b None) /\ seg h3 (Some q) b None /\ h3 !! q = h2 !! q /\ forall x, deadline_of h3 x = deadline_of h2 x)
    as (h3 & -> & Ha3 & Hb3 & Hq3 & Hd3).
  { assert (fst_or (a ++ p :: q :: b) None = fst_or (a ++ p :: b) None) as -> by (by destruct a).
    rewrite !lst_or_app, !lst_or_cons. destruct b as [|y b]; [by exists h2|]. cbn [fst_or].
    destruct (seg_set_prev _ _ _ _ _ (Some q) Hnb Hb) as (h3 & -> & Hb3 & Hfr & Hne & Hd3). exists h3. cbn [res_bind].
    rewrite !lst_or_cons. split; [done|]. split; [|split; [done|split; [apply Hne; set_solver|done]]].
    apply Hfr; [|done]. intros Hin. by apply (Hab y Hin), list_elem_of_here. }
  cbn [res_bind]. destruct (seg_set_next _ _ _ _ _ (Some q) Hna Ha3) as (h4 & -> & Ha4 & Hfr & Hne & Hd4). cbn [res_bind].
  eexists _, _. split; [reflexivity|]. split; [|intros x; by rewrite Hd4, Hd3, Hd2]. split; [|split; [done|]].
  - rewrite <- app_assoc in Hnd. cbn in Hnd. replace (a ++ p :: q :: b) with ((a ++ [p]) ++ q :: b) by (by rewrite <- app_assoc).
    rewrite <- Permutation_middle. apply NoDup_cons. split; [by rewrite <- app_assoc|by rewrite <- app_assoc].
  - replace (a ++ p :: q :: b) with ((a ++ [p]) ++ q :: b) by (by rewrite <- app_assoc). apply seg_app. split; [done|].
    rewrite lst_or_snoc. split; [|apply Hfr; [|done]].
    + exists (qn_deadline n). rewrite Hne, Hq3 by set_solver. done.
    + intros Hin. apply (Hab p); [set_solver|done].
Qed.

Lemma seg_lookup h p a x b nx : seg h p (a ++ x :: b) nx -> exists d, h !! x = Some (QNode (fst_or b nx) (lst_or a p) d).
Proof. by intros [_ [? _]]%seg_app. Qed.

(** The place is after the last query whose deadline is not later. *)
Lemma find_place_spec h l r fuel d :
  seg h None (l ++ r) None -> (length l <= fuel)%nat ->
  exists a b, l = a ++ b /\ find_place fuel h (lst_or l None) d = Ret (lst_or a None) /\
    Forall (fun x => d < deadline_of h x) b /\ (forall x, last a = Some x -> deadline_of h x <= d).
Proof.
  revert r fuel. induction l as [|x l IH] using rev_ind; intros r fuel Hs Hf.
  { exists [], []. split; [done|]. split; [by destruct fuel|]. split; [constructor|done]. }
  rewrite length_app in Hf. cbn in Hf. destruct fuel as [|fuel]; [lia|]. rewrite lst_or_snoc. cbn [find_place].
  rewrite <- app_assoc in Hs. destruct (seg_lookup _ _ _ _ _ _ Hs) as [dx Hx]. unfold deref. rewrite Hx. cbn [res_bind qn_deadline dnsq_prev].
  assert (deadline_of h x = dx) as Hdx by (unfold deadline_of; by rewrite Hx).
  destruct (Z.leb_spec dx d).
  - exists (l ++ [x]), []. rewrite app_nil_r, lst_or_snoc. split; [done|]. split; [done|]. split; [constructor|].
    intros y. rewrite last_snoc. intros [= <-]. lia.
  - destruct (IH ([x] ++ r) fuel Hs) as (a & b & -> & -> & Hb & Ha); [lia|]. exists a, (b ++ [x]). rewrite app_assoc.
    split; [done|]. split; [done|]. split; [|done]. apply Forall_app. split; [done|]. constructor; [lia|done].
Qed.

Definition ordered {A} (deadline : A -> Z) (x y : A) : Prop := deadline x <= deadline y.
Definition before (h : qheap) : nat -> nat -> Prop := ordered (deadline_of h).

Lemma chain_size h ql l : chain h ql l -> (length l <= size h)%nat.
Proof.
  intros (Hnd & _ & Hs). assert (list_to_set l ⊆ (dom h : gset nat)) as Hsub.
  { intros x [a [b ->]]%elem_of_list_to_set%list_elem_of_split. apply seg_lookup in Hs as [d Hd]. apply elem_of_dom. by exists (QNode (fst_or b None) (lst_or a None) d). }
  apply subseteq_size in Hsub. by rewrite size_list_to_set, size_dom in Hsub.
Qed.

Lemma before_ext h h' l :
  (forall x, deadline_of h' x = deadline_of h x) -> StronglySorted (before h) l -> StronglySorted (before h') l.
Proof.
  intros Hd. induction 1 as [|x l Hl IH Hx]; constructor; [done|]. eapply Forall_impl; [done|]. unfold before, ordered. intros y. by rewrite !Hd.
Qed.

Lemma sorted_insert {A} (deadline : A -> Z) a b q :
  StronglySorted (ordered deadline) (a ++ b) -> Forall (fun x => deadline q < deadline x) b ->
  (forall x, last a = Some x -> deadline x <= deadline q) -> StronglySorted (ordered deadline) (a ++ q :: b).
Proof.
  intros Hs Hb Ha. apply StronglySorted_app in Hs as (Hab & Hsa & Hsb). apply StronglySorted_app. split; [|split; [done|]].
  - intros x y Hx [->|Hy]%elem_of_cons; [|by apply Hab]. unfold ordered.
    destruct a as [|z a _] using rev_ind; [by apply elem_of_nil in Hx|]. specialize (Ha z ltac:(by rewrite last_snoc)).
    apply StronglySorted_app in Hsa as (Haz & _ & _). apply elem_of_app in Hx as [Hx|Hx]; [|by apply list_elem_of_singleton in Hx as ->].
    specialize (Haz x z Hx ltac:(by apply list_elem_of_singleton)). unfold ordered in Haz. lia.
  - constructor; [done|]. eapply Forall_impl; [done|]. cbn. unfold ordered. lia.
Qed.

Lemma place_spec {A} (deadline : A -> Z) d l :
  let '(c, e) := place deadline d l in
  l = c ++ e /\ Forall (fun x => d < deadline x) e /\ forall x, last c = Some x -> deadline x <= d.
Proof.
  induction l as [|y l IH]; [by split_and!; [|constructor|]|]. cbn [place]. destruct (place deadline d l) as [[|z c] e].
  - destruct IH as (-> & He & _). destruct (Z.leb_spec (deadline y) d); split_and!; try done; [|by constructor].
    by intros x [= <-].
  - destruct IH as (-> & He & Hc). by split_and!.
Qed.

Lemma place_unique {A} (deadline : A -> Z) d c e :
  Forall (fun x => d < deadline x) e -> (forall x, last c = Some x -> deadline x <= d) -> place deadline d (c ++ e) = (c, e).
Proof.
  intros He Hc. induction c as [|y c IH].
  - cbn [app]. induction He as [|z e Hz _ IH]; [done|]. cbn [place]. rewrite IH. by rewrite (proj2 (Z.leb_gt _ _)).
  - cbn [app place]. destruct c as [|z c].
    + cbn [app] in *. rewrite IH by done. by rewrite (proj2 (Z.leb_le _ _)) by (by apply Hc).
    + rewrite IH; [done|]. intros x Hx. apply Hc. by rewrite last_cons, Hx.
Qed.

(** Moving a query keeps the list sorted by deadline. *)
Lemma qlist_move_spec h ql a q b :
  chain h ql (a ++ q :: b) -> StronglySorted (before h) (a ++ b) ->
  exists h' ql', let '(c, e) := place (deadline_of h) (deadline_of h q) (a ++ b) in
    qlist_move h ql q = Ret (h', ql') /\ chain h' ql' (c ++ q :: e) /\
    StronglySorted (before h') (c ++ q :: e) /\ forall x, deadline_of h' x = deadline_of h x.
Proof.
  intros Hc Hs. unfold qlist_move. pose proof Hc as (Hnd & _ & Hseg). rewrite <- Permutation_middle in Hnd. apply NoDup_cons in Hnd as [Hq _].
  destruct (seg_lookup _ _ _ _ _ _ Hseg) as [d Hlq].
  destruct (qlist_remove_spec _ _ _ _ _ Hc) as (h1 & ql1 & -> & Hc1 & Hq1 & Hd1). cbn [res_bind]. rewrite Hlq in Hq1.
  unfold deref. rewrite Hq1. cbn [res_bind qn_deadline]. pose proof (chain_size _ _ _ Hc1) as Hsz. pose proof Hc1 as (_ & Eql & Hseg1).
  assert (deadline_of h q = d) as Hdq by (unfold deadline_of; by rewrite Hlq). rewrite <- (app_nil_r (a ++ b)) in Hseg1.
  destruct (find_place_spec h1 (a ++ b) [] (size h1) d Hseg1 Hsz) as (c & e & Hce & Hfind & He & Hlast).
  rewrite Eql. cbn [ql_tail]. rewrite Hfind. cbn [res_bind]. rewrite <- Eql. rewrite Hce in *.
  assert (exists h2 ql2, qlist_insert_after h1 ql1 q (lst_or c None) = Ret (h2, ql2) /\ chain h2 ql2 (c ++ q :: e) /\
    forall x, deadline_of h2 x = deadline_of h1 x) as (h2 & ql2 & -> & Hc2 & Hd2).
  { destruct c as [|y c _] using rev_ind.
    - cbn [lst_or last]. unfold qlist_insert_after. destruct Hc1 as (Hnd1 & Hql1 & Hs1).
      destruct (upd_fresh h1 q _ (fun n => set_prev n None) _ None None Hq1 Hq Hs1) as [-> Hs2]. cbn [res_bind].
      destruct (qlist_add_head_spec _ ql1 e q _ (conj Hnd1 (conj Hql1 Hs2)) Hq ltac:(apply lookup_insert_eq)) as (h2 & ql2 & Hr & Hc2 & Hd2).
      exists h2, ql2. split; [exact Hr|]. split; [done|]. intros x. rewrite Hd2. by eapply deadline_insert.
    - rewrite lst_or_snoc. rewrite <- !app_assoc in *. cbn [app] in *. by apply (qlist_insert_after_spec _ _ _ _ _ _ _ Hc1 Hq Hq1). }
  assert (forall x, deadline_of h2 x = deadline_of h x) as Hd by (intros x; by rewrite Hd2).
  exists h2, ql2.
  assert (Forall (fun x => deadline_of h q < deadline_of h x) e) as He' by (eapply Forall_impl; [done|]; cbn; intros x; rewrite Hd1, Hdq; done).
  assert (forall x, last c = Some x -> deadline_of h x <= deadline_of h q) as Hl' by (intros x Hx%Hlast; rewrite Hd1 in Hx; by rewrite Hdq).
  rewrite place_unique by done. split; [done|]. split; [done|]. split; [|done]. apply (sorted_insert (deadline_of h2)).
  - eapply before_ext; [|exact Hs]. done.
  - eapply Forall_impl; [done|]. cbn. intros x. by rewrite !Hd.
  - intros x Hx. rewrite !Hd. by apply Hl'.
Qed.

(** C31: The doubly linked list of active queries is a list.  Taking a query out,
    adding one at the head, and moving one to the place of its deadline, found by
    walking from the tail, do to the links what they do to the list; no dangling
    pointer is followed, and the list stays sorted by deadline. *)
Theorem qlist_refines (h : qheap) (ql : dns_qlist) (a : list nat) (q : nat) (b : list nat) (new : nat) (n : qnode) :
  chain h ql (a ++ q :: b) -> StronglySorted (before h) (a ++ b) -> h !! new = Some n -> new ∉ a ++ q :: b ->
  (exists h' ql', qlist_remove h ql q = Ret (h', ql') /\ chain h' ql' (a ++ b)) /\
  (exists h' ql', qlist_add_head h ql new = Ret (h', ql') /\ chain h' ql' (new :: a ++ q :: b)) /\
  (exists h' ql', let '(c, e) := place (deadline_of h) (deadline_of h q) (a ++ b) in
     qlist_move h ql q = Ret (h', ql') /\ chain h' ql' (c ++ q :: e) /\ StronglySorted (before h') (c ++ q :: e)).
Proof.
  intros Hc Hs Hn Hnew. split; [|split].
  - destruct (qlist_remove_spec _ _ _ _ _ Hc) as (h' & ql' & ? & ? & _). by exists h', ql'.
  - destruct (qlist_add_head_spec _ _ _ _ _ Hc Hnew Hn) as (h' & ql' & ? & ? & _). by exists h', ql'.
  - destruct (qlist_move_spec _ _ _ _ _ Hc Hs) as (h' & ql' & H). exists h', ql'. destruct (place _ _ _). naive_solver.
Qed.

Lemma qlist_refines_witness :
  let h : qheap := {[1%nat := QNode (Some 2%nat) None 9; 2%nat := QNode None (Some 1%nat) 7; 3%nat := QNode None None 0]} in
  exists h' ql', qlist_move h (QList (Some 1%nat) (Some 2%nat)) 1 = Ret (h', ql') /\ chain h' ql' [2%nat; 1%nat].
Proof.
  intros h. destruct (qlist_refines h (QList (Some 1%nat) (Some 2%nat)) [] 1 [2%nat] 3 (QNode None None 0)) as (_ & _ & h' & ql' & H).
  - split; [repeat constructor; set_solver|]. split; [done|]. split; [by exists 9|]. split; [by exists 7|done].
  - repeat constructor.
  - done.
  - set_solver.
  - exists h', ql'. cbn in H. by destruct H as (? & ? & _).
Defined.
