(* ===== verification/DnsResolver.v ===== *)
(** * The DNS resolver

    [src/src/udns/udns_resolver.c]: the queries that are under way, sent over UDP
    to the name servers and answered by their packets.  The active list is a list
    of queries; [DnsQlist] has its links.  What the system calls do is an argument:
    whether [sendto] succeeds, the packets [recvfrom] gets, the time, and whether
    there is memory.  The calls of the callbacks, and the packets that are sent,
    are recorded in the order they happen. *)

From S2P Require Import Prelude DnsName DnsText DnsPacket DnsQlist.
Local Open Scope cpp_scope.
Local Open Scope Z_scope.

(** ** Constants *)

(** [src/src/udns/udns.h:423-423] DNS_NOSRCH *)
Definition DNS_NOSRCH : Z := 65536.
(** [src/src/udns/udns.h:424-424] DNS_NORD *)
Definition DNS_NORD : Z := 131072.
(** [src/src/udns/udns.h:425-425] DNS_AAONLY *)
Definition DNS_AAONLY : Z := 262144.
(** [src/src/udns/udns.h:426-426] DNS_SET_DO *)
Definition DNS_SET_DO : Z := 524288.
(** [src/src/udns/udns.h:427-427] DNS_SET_CD *)
Definition DNS_SET_CD : Z := 1048576.
(** [src/src/udns/udns_resolver.c:226-226] DNS_INTERNAL *)
Definition DNS_INTERNAL : Z := 65535.
(** [src/src/udns/udns_resolver.c:228-228] DNS_ASIS_DONE *)
Definition DNS_ASIS_DONE : Z := 2.
(** [src/src/udns/udns_resolver.c:229-229] DNS_SEEN_NODATA *)
Definition DNS_SEEN_NODATA : Z := 4.
(** [src/src/udns/udns.h:78-78] DNS_MAXPACKET *)
Definition DNS_MAXPACKET : nat := 512.
(** [src/src/udns/udns.h:72-72] DNS_DNPAD *)
Definition DNS_DNPAD : nat := 1.
(** [src/src/udns/udns.h:131-131] DNS_T_OPT *)
Definition DNS_T_OPT : Z := 41.
(** [src/src/udns/udns.h:487-487] DNS_E_TEMPFAIL *)
Definition DNS_E_TEMPFAIL : Z := -1.
(** [src/src/udns/udns.h:489-489] DNS_E_NXDOMAIN *)
Definition DNS_E_NXDOMAIN : Z := -3.
(** [src/src/udns/udns.h:492-492] DNS_E_BADQUERY *)
Definition DNS_E_BADQUERY : Z := -6.
(** [src/src/udns/udns.h:231-231] DNS_R_NOERROR *)
Definition DNS_R_NOERROR : Z := 0.
(** [src/src/udns/udns.h:232-232] DNS_R_FORMERR *)
Definition DNS_R_FORMERR : Z := 1.
(** [src/src/udns/udns.h:234-234] DNS_R_NXDOMAIN *)
Definition DNS_R_NXDOMAIN : Z := 3.
(** [src/src/udns/udns.h:235-235] DNS_R_NOTIMPL *)
Definition DNS_R_NOTIMPL : Z := 4.

(** [flags & bit] *)
Definition has (flags bit : Z) : bool := negb (Z.land flags bit =? 0).
(** [1 << i] *)
Definition bit (i : nat) : Z := Z.shiftl 1 (Z.of_nat i).

(** [src/src/udns/udns.h:257-259] dns_put16 *)
Definition dns_put16 (n : Z) : list Z := [Z.land (Z.shiftr n 8) 255; Z.land n 255].

(** ** Random numbers *)

(** [src/src/udns/udns.h:762-764] udns_jranctx *)
Record udns_jranctx := Jran { jr_a : Z; jr_b : Z; jr_c : Z; jr_d : Z }.

(** [src/src/udns/udns_jran.c:8-8] rot32 *)
Definition rot32 (x k : Z) : Z := Z.lor (u32 (Z.shiftl x k)) (Z.shiftr x (32 - k)).

(** [src/src/udns/udns_jran.c:12-44] udns_jranval *)
Definition udns_jranval (x : udns_jranctx) : Z * udns_jranctx :=
  let e := u32 (jr_a x - rot32 (jr_b x) 27) in
  let a := u32 (Z.lxor (jr_b x) (rot32 (jr_c x) 17)) in
  let b := u32 (jr_c x + jr_d x) in
  let c := u32 (jr_d x + e) in
  let d := u32 (e + a) in
  (d, Jran a b c d).

(** [src/src/udns/udns_jran.c:46-52] udns_jraninit *)
Definition udns_jraninit (seed : Z) : udns_jranctx :=
  Nat.iter 20 (fun x => snd (udns_jranval x)) (Jran 4058668781 seed seed seed).

(** ** Queries and the context *)

(** An address of a name server: family, port and address. *)
(** [src/src/udns/udns_resolver.c:129-142] sockaddr_ns *)
Record sockaddr_ns := Sockaddr { sa_inet6 : bool; sa_port : Z; sa_addr : list Z }.

(** What a callback gets: a parsed reply or a copy of it. *)
Inductive query_result := Parsed (r : dns_rr_a) | Raw (pkt : list Z).

Definition dns_parse_fn : Type := dn_ptr -> list Z -> nat -> nat -> res (Z * option dns_rr_a).

(** [dnsq_addr] is the address of the structure, [dnsq_cbdata] says which callback
    is called and with what. *)
(** [src/src/udns/udns_resolver.c:69-91] dns_query *)
Record dns_query := Query {
  dnsq_addr : nat;
  dnsq_origdnl0 : nat;
  dnsq_flags : Z;
  dnsq_servi : nat;
  dnsq_servwait : Z;
  dnsq_servskip : Z;
  dnsq_servnEDNS0 : Z;
  dnsq_try : nat;
  dnsq_nxtsrch : nat;
  dnsq_deadline : Z;
  dnsq_parse : option dns_parse_fn;
  dnsq_cbdata : nat;
  dnsq_id : Z * Z;
  dnsq_typcls : list Z;
  dnsq_dn : list Z
}.

(** The settings, which do not change while there are queries. *)
(** [src/src/udns/udns_resolver.c:144-161] dns_ctx, settings *)
Record dns_conf := Conf {
  dnsc_flags : Z;
  dnsc_timeout : Z;
  dnsc_ntries : nat;
  dnsc_ndots : nat;
  dnsc_udpbuf : nat;
  dnsc_serv : list sockaddr_ns;
  dnsc_srchbuf : list Z;
  dnsc_srchend : nat;
  dnsc_utmfn : bool
}.
Definition dnsc_nserv (cf : dns_conf) : nat := length (dnsc_serv cf).

(** What the program sees of the resolver. *)
Inductive event :=
| Sent (serv : nat) (pkt : list Z)
| Callback (cbdata : nat) (status : Z) (result : option query_result)
| Timer (timeout : Z).

(** [src/src/udns/udns_resolver.c:166-172] dns_ctx, dynamic data *)
Record dns_ctx := Ctx {
  dnsc_jran : udns_jranctx;
  dnsc_nextid : Z;
  dnsc_pbuf : list Z;
  dnsc_qactive : list dns_query;
  dnsc_nactive : Z;
  dnsc_qstatus : Z;
  dnsc_utmexp : Z;
  sendto_fails : list bool;
  dnsc_events : list event
}.

Definition set_rng (c : dns_ctx) (j : udns_jranctx) (id : Z) : dns_ctx :=
  Ctx j id (dnsc_pbuf c) (dnsc_qactive c) (dnsc_nactive c) (dnsc_qstatus c) (dnsc_utmexp c) (sendto_fails c) (dnsc_events c).
Definition set_pbuf (c : dns_ctx) (p : list Z) : dns_ctx :=
  Ctx (dnsc_jran c) (dnsc_nextid c) p (dnsc_qactive c) (dnsc_nactive c) (dnsc_qstatus c) (dnsc_utmexp c) (sendto_fails c) (dnsc_events c).
Definition set_active (c : dns_ctx) (l : list dns_query) (n : Z) : dns_ctx :=
  Ctx (dnsc_jran c) (dnsc_nextid c) (dnsc_pbuf c) l n (dnsc_qstatus c) (dnsc_utmexp c) (sendto_fails c) (dnsc_events c).
Definition set_status (c : dns_ctx) (s : Z) : dns_ctx :=
  Ctx (dnsc_jran c) (dnsc_nextid c) (dnsc_pbuf c) (dnsc_qactive c) (dnsc_nactive c) s (dnsc_utmexp c) (sendto_fails c) (dnsc_events c).
Definition set_utmexp (c : dns_ctx) (d : Z) : dns_ctx :=
  Ctx (dnsc_jran c) (dnsc_nextid c) (dnsc_pbuf c) (dnsc_qactive c) (dnsc_nactive c) (dnsc_qstatus c) d (sendto_fails c) (dnsc_events c).
Definition set_sendto (c : dns_ctx) (l : list bool) : dns_ctx :=
  Ctx (dnsc_jran c) (dnsc_nextid c) (dnsc_pbuf c) (dnsc_qactive c) (dnsc_nactive c) (dnsc_qstatus c) (dnsc_utmexp c) l (dnsc_events c).
Definition emit (c : dns_ctx) (e : event) : dns_ctx :=
  Ctx (dnsc_jran c) (dnsc_nextid c) (dnsc_pbuf c) (dnsc_qactive c) (dnsc_nactive c) (dnsc_qstatus c) (dnsc_utmexp c) (sendto_fails c)
    (dnsc_events c ++ [e]).

(** The list without the query at an address, and the query written back. *)
Definition without (a : nat) (l : list dns_query) : list dns_query := filter (fun x => dnsq_addr x <> a) l.
Definition store (c : dns_ctx) (q : dns_query) : dns_ctx :=
  set_active c ((fun x => if (dnsq_addr x =? dnsq_addr q)%nat then q else x) <$> dnsc_qactive c) (dnsc_nactive c).

Section Resolver.
Context (cf : dns_conf).

(** ** Timers *)

(** [src/src/udns/udns_resolver.c:355-378] dns_request_utm *)
Definition dns_request_utm (c : dns_ctx) (now : Z) : dns_ctx :=
  if dnsc_utmfn cf then
    let '(deadline, timeout) :=
      match dnsc_qactive c with
      | [] => (-1, -1)
      | q :: _ => if (now =? 0) || (dnsq_deadline q <=? now) then (0, 0) else (dnsq_deadline q, i32 (dnsq_deadline q - now))
      end in
    if dnsc_utmexp c =? deadline then c else set_utmexp (emit c (Timer timeout)) deadline
  else c.

(** ** Ending a query *)

(** [src/src/udns/udns_resolver.c:606-625] dns_end_query *)
Definition dns_end_query (c : dns_ctx) (q : dns_query) (status : Z) (result : option query_result) : res dns_ctx :=
  let c := set_status c status in
  if Bool.eqb (status <? 0) (match result with Some _ => true | None => false end)
  then Abort "dns_end_query: assert(status)"
  else if dnsc_nactive c <=? 0 then Abort "dns_end_query: assert(nactive > 0)"
  else let c := set_active c (without (dnsq_addr q) (dnsc_qactive c)) (dnsc_nactive c - 1) in
       Ret (emit c (Callback (dnsq_cbdata q) status result)).

(** ** Sending *)

(** The identifiers in use. *)
(** [src/src/udns/udns_resolver.c:710-712] dns_newid, loop over the queries *)
Definition id_used (c : dns_ctx) (id : Z * Z) : bool :=
  existsb (fun x => (fst (dnsq_id x) =? fst id) && (snd (dnsq_id x) =? snd id)) (dnsc_qactive c).

(** [src/src/udns/udns_resolver.c:703-715] dns_newid, loop *)
Fixpoint newid_loop (loop : nat) (c : dns_ctx) (id : Z * Z) : dns_ctx * (Z * Z) :=
  match loop with
  | O => (c, id)
  | S loop =>
      let c := if dnsc_nextid c =? 0 then let '(v, j) := udns_jranval (dnsc_jran c) in set_rng c j v else c in
      let id := (Z.land (dnsc_nextid c) 255, Z.land (Z.shiftr (dnsc_nextid c) 8) 255) in
      let c := set_rng c (dnsc_jran c) (Z.shiftr (dnsc_nextid c) 16) in
      if id_used c id then newid_loop loop c id else (c, id)
  end.

(** [src/src/udns/udns_resolver.c:698-724] dns_newid *)
Definition dns_newid (c : dns_ctx) (q : dns_query) : dns_ctx * dns_query :=
  let '(c, id) := newid_loop 5 c (0, 0) in
  (c, Query (dnsq_addr q) (dnsq_origdnl0 q) (dnsq_flags q) 0 0 0 0 0 (dnsq_nxtsrch q) (dnsq_deadline q)
        (dnsq_parse q) (dnsq_cbdata q) id (dnsq_typcls q) (dnsq_dn q)).

(** The next entry of the search list that can be used, its length, and whether
    it is the end. *)
(** [src/src/udns/udns_resolver.c:731-739] dns_next_srch, loop *)
Fixpoint next_srch_loop (fuel : nat) (q : dns_query) (nxt : nat) : res (nat * option (nat * bool)) :=
  match fuel with
  | O => OutOfFuel
  | S fuel =>
      if (dnsc_srchend cf <? nxt)%nat then Ret (nxt, None)
      else
        let! dnl := dns_dnlen (dnsc_srchbuf cf) nxt in
        let! c := rd (dnsc_srchbuf cf) nxt in
        if (dnl + dnsq_origdnl0 q <=? DNS_MAXDN)%nat && (negb (c =? 0) || negb (has (dnsq_flags q) DNS_ASIS_DONE))
        then Ret (nxt, Some (dnl, c =? 0))
        else next_srch_loop fuel q (nxt + dnl)
  end.

(** [src/src/udns/udns_resolver.c:728-746] dns_next_srch *)
Definition dns_next_srch (c : dns_ctx) (q : dns_query) : res (bool * dns_ctx * dns_query) :=
  let! (nxt, o) := next_srch_loop (S (S (dnsc_srchend cf))) q (dnsq_nxtsrch q) in
  let set nxt flags dn :=
    Query (dnsq_addr q) (dnsq_origdnl0 q) flags (dnsq_servi q) (dnsq_servwait q) (dnsq_servskip q) (dnsq_servnEDNS0 q)
      (dnsq_try q) nxt (dnsq_deadline q) (dnsq_parse q) (dnsq_cbdata q) (dnsq_id q) (dnsq_typcls q) dn in
  match o with
  | None => Ret (false, c, set nxt (dnsq_flags q) (dnsq_dn q))
  | Some (dnl, last) =>
      let! dn := memcpy (dnsq_dn q) (dnsq_origdnl0 q) (dnsc_srchbuf cf) nxt dnl in
      let flags := if last then Z.lor (dnsq_flags q) DNS_ASIS_DONE else dnsq_flags q in
      let '(c, q) := dns_newid c (set (nxt + dnl)%nat flags dn) in
      Ret (true, c, q)
  end.

Definition set_servi (q : dns_query) (i : nat) : dns_query :=
  Query (dnsq_addr q) (dnsq_origdnl0 q) (dnsq_flags q) i (dnsq_servwait q) (dnsq_servskip q) (dnsq_servnEDNS0 q)
    (dnsq_try q) (dnsq_nxtsrch q) (dnsq_deadline q) (dnsq_parse q) (dnsq_cbdata q) (dnsq_id q) (dnsq_typcls q) (dnsq_dn q).

(** The first server from [servi] on that is not skipped; [n] servers are left. *)
(** [src/src/udns/udns_resolver.c:754-758] dns_find_serv, loop *)
Fixpoint find_serv (n servi : nat) (skip : Z) : nat :=
  match n with
  | O => servi
  | S n => if has skip (bit servi) then find_serv n (S servi) skip else servi
  end.

(** [src/src/udns/udns_resolver.c:753-760] dns_find_serv *)
Definition dns_find_serv (q : dns_query) : bool * dns_query :=
  let i := find_serv (dnsc_nserv cf - dnsq_servi q) (dnsq_servi q) (dnsq_servskip q) in
  ((i <? dnsc_nserv cf)%nat, set_servi q i).

(** The packet of a query, in the packet buffer, and its length. *)
(** [src/src/udns/udns_resolver.c:772-800] dns_send_this, format *)
Definition send_format (pbuf : list Z) (q : dns_query) (servi : nat) : res (list Z * nat) :=
  let f1 := Z.lor (if has (dnsq_flags q) DNS_NORD then 0 else 1) (if has (dnsq_flags q) DNS_AAONLY then 4 else 0) in
  let f2 := if has (dnsq_flags q) DNS_SET_CD then 16 else 0 in
  let! pbuf := wr_all pbuf 0 [fst (dnsq_id q); snd (dnsq_id q); f1; f2; 0; 1; 0; 0; 0; 0; 0; 0] in
  let! (n, pbuf) := dns_dntodn (dnsq_dn q) 0 pbuf dns_payload DNS_MAXDN in
  let p := (dns_payload + n)%nat in
  let! pbuf := memcpy pbuf p (dnsq_typcls q) 0 4 in
  let p := (p + 4)%nat in
  let! (pbuf, p) :=
    if has (dnsq_flags q) DNS_SET_DO ||
       ((DNS_MAXPACKET <? dnsc_udpbuf cf)%nat && negb (has (dnsq_servnEDNS0 q) (bit servi))) then
      let! pbuf := wr_all pbuf p (0 :: dns_put16 DNS_T_OPT ++ dns_put16 (Z.of_nat (dnsc_udpbuf cf)) ++
                                 [0; 0; if has (dnsq_flags q) DNS_SET_DO then 128 else 0; 0; 0; 0]) in
      let! pbuf := wr pbuf 11 1 in
      Ret (pbuf, p + 11)%nat
    else Ret (pbuf, p) in
  if (dnsc_udpbuf cf <? p)%nat then Abort "dns_send_this: assert(qlen <= udpbuf)" else Ret (pbuf, p).

(** The calls of [sendto]: whether one succeeds, and the results that are left.
    When none are left, they succeed. *)
(** [src/src/udns/udns_resolver.c:802-815] dns_send_this, send *)
Fixpoint send_loop (tries : nat) (fails : list bool) : bool * list bool :=
  match tries with
  | O => (false, fails)
  | S tries => match fails with
               | true :: fails => send_loop tries fails
               | false :: fails => (true, fails)
               | [] => (true, [])
               end
  end.

(** [timeout << try], an unsigned integer of 32 bits *)
Definition shift_timeout (try : nat) : res Z :=
  if (32 <=? try)%nat then Abort "shift count" else Ret (u32 (Z.shiftl (dnsc_timeout cf) (Z.of_nat try))).

Definition set_sent (q : dns_query) (wait deadline : Z) : dns_query :=
  Query (dnsq_addr q) (dnsq_origdnl0 q) (dnsq_flags q) (dnsq_servi q) wait (dnsq_servskip q) (dnsq_servnEDNS0 q)
    (dnsq_try q) (dnsq_nxtsrch q) deadline (dnsq_parse q) (dnsq_cbdata q) (dnsq_id q) (dnsq_typcls q) (dnsq_dn q).

(** [src/src/udns/udns_resolver.c:766-835] dns_send_this *)
Definition dns_send_this (c : dns_ctx) (q : dns_query) (servi : nat) (now : Z) : res dns_ctx :=
  let! (pbuf, qlen) := send_format (dnsc_pbuf c) q servi in
  let '(ok, fails) := send_loop 10 (sendto_fails c) in
  let c := set_sendto (set_pbuf c pbuf) fails in
  if negb ok then dns_end_query c q DNS_E_TEMPFAIL None
  else
    let c := emit c (Sent servi (take qlen pbuf)) in
    let wait := Z.lor (dnsq_servwait q) (bit servi) in
    let '(more, q) := dns_find_serv q in
    let! wait_time := if more then Ret 1 else shift_timeout (dnsq_try q) in
    let q := set_sent q wait (now + wait_time) in
    let '(a, b) := place dnsq_deadline (dnsq_deadline q) (without (dnsq_addr q) (dnsc_qactive c)) in
    Ret (set_active c (a ++ q :: b) (dnsc_nactive c)).

Definition set_try (q : dns_query) (n : nat) : dns_query :=
  Query (dnsq_addr q) (dnsq_origdnl0 q) (dnsq_flags q) 0 (dnsq_servwait q) (dnsq_servskip q) (dnsq_servnEDNS0 q)
    n (dnsq_nxtsrch q) (dnsq_deadline q) (dnsq_parse q) (dnsq_cbdata q) (dnsq_id q) (dnsq_typcls q) (dnsq_dn q).

(** [src/src/udns/udns_resolver.c:841-866] dns_send *)
Definition dns_send (c : dns_ctx) (q : dns_query) (now : Z) : res dns_ctx :=
  let go q := dns_send_this c (set_servi q (S (dnsq_servi q))) (dnsq_servi q) now in
  let '(found, q) := dns_find_serv q in
  if found then go q
  else
    let q := set_try q (S (dnsq_try q)) in
    if (dnsc_ntries cf <=? dnsq_try q)%nat then dns_end_query c q DNS_E_TEMPFAIL None
    else let '(found, q) := dns_find_serv q in
         if found then go q else dns_end_query c q DNS_E_TEMPFAIL None.

(** ** Submitting *)

Definition set_search (q : dns_query) (nxt : nat) (fl : Z) : dns_query :=
  Query (dnsq_addr q) (dnsq_origdnl0 q) fl (dnsq_servi q) (dnsq_servwait q) (dnsq_servskip q) (dnsq_servnEDNS0 q)
    (dnsq_try q) nxt (dnsq_deadline q) (dnsq_parse q) (dnsq_cbdata q) (dnsq_id q) (dnsq_typcls q) (dnsq_dn q).

(** The name that is asked for first. *)
(** [src/src/udns/udns_resolver.c:909-920] dns_submit_dn, first name *)
Definition submit_first (c : dns_ctx) (flags : Z) (q : dns_query) : res (dns_ctx * dns_query) :=
  let! labels := if has flags DNS_NOSRCH then Ret O else dns_dnlabels (dnsq_dn q) 0 in
  if has flags DNS_NOSRCH || (dnsc_ndots cf <? labels)%nat then
    Ret (dns_newid c (set_search q (if has flags DNS_NOSRCH then dnsc_srchend cf else O) (Z.lor (dnsq_flags q) DNS_ASIS_DONE)))
  else let! (_, c, q) := dns_next_srch c (set_search q 0 (dnsq_flags q)) in Ret (c, q).

(** [calloc] is the address of the new query, if there is memory. *)
(** [src/src/udns/udns_resolver.c:881-932] dns_submit_dn *)
Definition dns_submit_dn (c : dns_ctx) (calloc : option nat) (dn : list Z) (i : nat) (qcls qtyp flags : Z)
    (parse : option dns_parse_fn) (data : nat) : res (option nat * dns_ctx) :=
  match calloc with
  | None => Ret (None, set_status c DNS_E_NOMEM)
  | Some addr =>
      let! (n, qdn) := dns_dntodn dn i (blank (DNS_MAXDN + DNS_DNPAD)) 0 (DNS_MAXDN + DNS_DNPAD) in
      if (n =? 0)%nat then Abort "dns_submit_dn: assert(origdnl0 > 0)" else
      let fl := Z.land (Z.lor flags (dnsc_flags cf)) (Z.lnot DNS_INTERNAL) in
      let! (c, q) := submit_first c flags
        (Query addr (n - 1) fl 0 0 0 0 0 0 0 parse data (0, 0) (dns_put16 qtyp ++ dns_put16 qcls) qdn) in
      let c := set_active c (q :: dnsc_qactive c) (dnsc_nactive c + 1) in
      Ret (Some addr, dns_request_utm c 0)
  end.

(** [src/src/udns/udns_resolver.c:934-948] dns_submit_p *)
Definition dns_submit_p (c : dns_ctx) (calloc : option nat) (name : list Z) (qcls qtyp flags : Z)
    (parse : option dns_parse_fn) (data : nat) : res (option nat * dns_ctx) :=
  let! (r, pbuf, isabs) := dns_ptodn name 0 0 (dnsc_pbuf c) 0 DNS_MAXDN in
  let c := set_pbuf c pbuf in
  if r <=? 0 then Ret (None, set_status c DNS_E_BADQUERY)
  else let flags := if default false isabs then Z.lor flags DNS_NOSRCH else flags in
       dns_submit_dn c calloc pbuf 0 qcls qtyp flags parse data.

(** [src/src/udns/udns_rr_a.c:87-93] dns_submit_a4 *)
Definition dns_submit_a4 (malloc : nat -> bool) (c : dns_ctx) (calloc : option nat) (name : list Z) (flags : Z) (data : nat)
  : res (option nat * dns_ctx) :=
  dns_submit_p c calloc name DNS_C_IN DNS_T_A flags (Some (dns_parse_a4 malloc)) data.

(** [src/src/udns/udns_rr_a.c:111-117] dns_submit_a6 *)
Definition dns_submit_a6 (malloc : nat -> bool) (c : dns_ctx) (calloc : option nat) (name : list Z) (flags : Z) (data : nat)
  : res (option nat * dns_ctx) :=
  dns_submit_p c calloc name DNS_C_IN DNS_T_AAAA flags (Some (dns_parse_a6 malloc)) data.

(** ** Timeouts *)

(** [src/src/udns/udns_resolver.c:1221-1232] dns_timeouts, loop *)
Fixpoint timeouts_loop (fuel : nat) (c : dns_ctx) (maxwait now : Z) : res (Z * dns_ctx) :=
  match dnsc_qactive c with
  | [] => Ret (maxwait, c)
  | q :: _ =>
      if now <? dnsq_deadline q then
        let w := i32 (dnsq_deadline q - now) in
        Ret (if (maxwait <? 0) || (w <? maxwait) then w else maxwait, c)
      else match fuel with
           | O => OutOfFuel
           | S fuel => let! c := dns_send c q now in timeouts_loop fuel c maxwait now
           end
  end.

(** The time is [now]; every query is sent at most once, if the timeout is not
    zero. *)
(** [src/src/udns/udns_resolver.c:1203-1236] dns_timeouts *)
Definition dns_timeouts (c : dns_ctx) (maxwait now : Z) : res (Z * dns_ctx) :=
  match dnsc_qactive c with
  | [] => Ret (maxwait, c)
  | _ => let! (w, c) := timeouts_loop (length (dnsc_qactive c)) c maxwait now in
         Ret (w, dns_request_utm c now)
  end.

(** ** Replies *)

(** A packet and where it comes from. *)
Record datagram := Datagram { dg_from : option sockaddr_ns; dg_data : list Z }.

(** [src/src/udns/udns.h:277-277] dns_opcode *)
Definition dns_opcode (pkt : list Z) : res Z := let! f := rd pkt 2 in Ret (Z.shiftr (Z.land f 120) 3).
(** [src/src/udns/udns.h:281-281] dns_tc *)
Definition dns_tc (pkt : list Z) : res Z := let! f := rd pkt 2 in Ret (Z.land f 2).
(** [src/src/udns/udns.h:295-295] dns_rcode *)
Definition dns_rcode (pkt : list Z) : res Z := let! f := rd pkt 3 in Ret (Z.land f 15).
(** [src/src/udns/udns.h:300-300] dns_numqd *)
Definition dns_numqd (pkt : list Z) : res Z := dns_get16 pkt 4.

(** [memcmp(a + i, b, 4) == 0] *)
Definition same4 (a : list Z) (i : nat) (b : list Z) : bool := bool_decide (take 4 (drop i a) = take 4 b).

(** [src/src/udns/udns_resolver.c:137-142] sin_eq, sin6_eq *)
Definition sin_eq (a b : sockaddr_ns) : bool := (sa_port a =? sa_port b) && bool_decide (sa_addr a = sa_addr b).

(** The server a packet comes from; [nserv] if it is none. *)
(** [src/src/udns/udns_resolver.c:1054-1069] dns_ioevent, find server *)
Fixpoint find_server (l : list sockaddr_ns) (from : sockaddr_ns) : nat :=
  match l with [] => O | s :: l => if sin_eq s from then O else S (find_server l from) end.

(** The active query with an identifier. *)
(** [src/src/udns/udns_resolver.c:1015-1025] dns_ioevent, find query *)
Definition find_query (c : dns_ctx) (id0 id1 : Z) : option dns_query :=
  List.find (fun q => (id0 =? fst (dnsq_id q)) && (id1 =? snd (dnsq_id q))) (dnsc_qactive c).

(** Whether the question of a packet is the one of [q], and where it ends. *)
(** [src/src/udns/udns_resolver.c:1027-1052] dns_ioevent, compare *)
Definition match_question (pbuf : list Z) (pend : nat) (q : dns_query) : res (option nat) :=
  let! n := dns_numqd pbuf in
  if negb (n =? 0) then
    let! (r, pcur, dn) := dns_getdn pbuf dns_payload pend (blank DNS_MAXDN) 0 DNS_MAXDN in
    if (r <? 0) || (pend <? pcur + 4)%nat then Ret None
    else let! eq := dns_dnequal dn 0 (dnsq_dn q) 0 in
         if (eq =? 0)%nat || negb (same4 pbuf pcur (dnsq_typcls q)) then Ret None
         else Ret (Some pcur)
  else let! rcode := dns_rcode pbuf in
       if negb (rcode =? DNS_R_FORMERR) then Ret None else Ret (Some dns_payload).

Definition set_serv (q : dns_query) (wait skip nedns : Z) : dns_query :=
  Query (dnsq_addr q) (dnsq_origdnl0 q) (dnsq_flags q) (dnsq_servi q) wait skip nedns
    (dnsq_try q) (dnsq_nxtsrch q) (dnsq_deadline q) (dnsq_parse q) (dnsq_cbdata q) (dnsq_id q) (dnsq_typcls q) (dnsq_dn q).
Definition set_flags (q : dns_query) (fl : Z) : dns_query :=
  Query (dnsq_addr q) (dnsq_origdnl0 q) fl (dnsq_servi q) (dnsq_servwait q) (dnsq_servskip q) (dnsq_servnEDNS0 q)
    (dnsq_try q) (dnsq_nxtsrch q) (dnsq_deadline q) (dnsq_parse q) (dnsq_cbdata q) (dnsq_id q) (dnsq_typcls q) (dnsq_dn q).

(** The reply is not an answer: another server is tried, unless one is awaited. *)
(** [src/src/udns/udns_resolver.c:1170-1199] dns_ioevent, unexpected reply *)
Definition reply_skip (c : dns_ctx) (q : dns_query) (servi : nat) (now : Z) : res dns_ctx :=
  let q := set_serv q (dnsq_servwait q) (Z.lor (dnsq_servskip q) (bit servi)) (dnsq_servnEDNS0 q) in
  if dnsq_servwait q =? 0 then dns_send c q now else Ret (store c q).

(** An answer without errors. *)
(** [src/src/udns/udns_resolver.c:1097-1127] dns_ioevent, DNS_R_NOERROR *)
Definition reply_noerror (malloc : nat -> bool) (c : dns_ctx) (q : dns_query) (pcur r : nat) (now : Z) : res dns_ctx :=
  let pbuf := dnsc_pbuf c in
  let! n := dns_numan pbuf in
  if n =? 0 then
    let! (more, c, q) := dns_next_srch c q in
    if more then dns_send c (set_flags q (Z.lor (dnsq_flags q) DNS_SEEN_NODATA)) now
    else dns_end_query c q DNS_E_NODATA None
  else match dnsq_parse q with
       | Some parse =>
           let! (s, result) := parse (DnMem (dnsq_dn q) 0) pbuf pcur r in
           dns_end_query c q s (if s <? 0 then None else Parsed <$> result)
       | None =>
           if malloc r then dns_end_query c q (Z.of_nat r) (Some (Raw (take r pbuf)))
           else dns_end_query c q DNS_E_NOMEM None
       end.

(** What is done for the query [q] that a packet of [r] bytes answers. *)
(** [src/src/udns/udns_resolver.c:1081-1168] dns_ioevent, RCODE *)
Definition reply_rcode (malloc : nat -> bool) (c : dns_ctx) (q : dns_query) (servi pcur r : nat) (now : Z) : res dns_ctx :=
  let pbuf := dnsc_pbuf c in
  let q := set_serv q (Z.land (dnsq_servwait q) (Z.lnot (bit servi))) (dnsq_servskip q) (dnsq_servnEDNS0 q) in
  let! rcode := dns_rcode pbuf in
  if rcode =? DNS_R_NOERROR then
    let! tc := dns_tc pbuf in
    if negb (tc =? 0) then reply_skip c q servi now else reply_noerror malloc c q pcur r now
  else if rcode =? DNS_R_NXDOMAIN then
    let! (more, c, q) := dns_next_srch c q in
    if more then dns_send c q now
    else dns_end_query c q (if has (dnsq_flags q) DNS_SEEN_NODATA then DNS_E_NODATA else DNS_E_NXDOMAIN) None
  else if ((rcode =? DNS_R_FORMERR) || (rcode =? DNS_R_NOTIMPL)) &&
          (DNS_MAXPACKET <? dnsc_udpbuf cf)%nat && negb (has (dnsq_servnEDNS0 q) (bit servi)) then
    dns_send_this c (set_serv q (dnsq_servwait q) (dnsq_servskip q) (Z.lor (dnsq_servnEDNS0 q) (bit servi))) servi now
  else reply_skip c q servi now.

(** One packet. *)
(** [src/src/udns/udns_resolver.c:979-1199] dns_ioevent, a packet *)
Definition dns_reply (malloc : nat -> bool) (c : dns_ctx) (d : datagram) (now : Z) : res dns_ctx :=
  let data := take (dnsc_udpbuf cf) (dg_data d) in
  let! pbuf := wr_all (dnsc_pbuf c) 0 data in
  let c := set_pbuf c pbuf in
  let r := length data in
  if (r <? dns_payload)%nat then Ret c else
  let! numqd := dns_numqd pbuf in
  let! opcode := dns_opcode pbuf in
  if (1 <? numqd) || negb (opcode =? 0) then Ret c else
  let! id0 := rd pbuf 0 in
  let! id1 := rd pbuf 1 in
  match find_query c id0 id1 with
  | None => Ret c
  | Some q =>
      let! o := match_question pbuf r q in
      match o with
      | None => Ret c
      | Some pcur =>
          let servi := match dg_from d with Some s => find_server (dnsc_serv cf) s | None => dnsc_nserv cf end in
          if negb (has (dnsq_servwait q) (bit servi)) then Ret c
          else reply_rcode malloc c q servi pcur r now
      end
  end.

(** The packets that are there, until there are no more. *)
(** [src/src/udns/udns_resolver.c:961-1200] dns_ioevent *)
Fixpoint dns_ioevent (malloc : nat -> bool) (c : dns_ctx) (l : list datagram) (now : Z) : res dns_ctx :=
  match l with
  | [] => Ret (dns_request_utm c now)
  | d :: l => let! c := dns_reply malloc c d now in dns_ioevent malloc c l now
  end.

(** ** Cancelling *)

(** [src/src/udns/udns_resolver.c:1310-1322] dns_cancel *)
Definition dns_cancel (c : dns_ctx) (addr : nat) : res dns_ctx :=
  if existsb (fun q => (dnsq_addr q =? addr)%nat) (dnsc_qactive c) then
    Ret (dns_request_utm (set_active c (without addr (dnsc_qactive c)) (dnsc_nactive c - 1)) 0)
  else Abort "dns_cancel: assert(q->dnsq_ctx == ctx)".
End Resolver.
