(* ===== verification/DnsResolverInv.v ===== *)
(** * The DNS resolver works

    Invariants of the resolver of [src/src/udns/udns_resolver.c]: whatever is
    submitted, cancelled, timed out or received, its list stays sorted and
    consistent, and every query is answered once. *)

From S2P Require Import Prelude DnsName DnsText DnsPacket DnsAnswer DnsQlist DnsResolver.
Local Open Scope cpp_scope.
Local Open Scope Z_scope.
#[local] Opaque dns_getdn.

(** ** Bits *)

Lemma has_testbit w i : has w (bit i) = Z.testbit w (Z.of_nat i).
Proof.
  unfold has, bit. rewrite Z.shiftl_1_l. destruct (Z.testbit w (Z.of_nat i)) eqn:E.
  - apply negb_true_iff, Z.eqb_neq. intros H. apply (f_equal (fun v => Z.testbit v (Z.of_nat i))) in H.
    rewrite Z.land_spec, Z.pow2_bits_true, E, Z.bits_0 in H by lia. done.
  - apply negb_false_iff, Z.eqb_eq. apply Z.bits_inj'. intros j Hj. rewrite Z.land_spec, Z.bits_0.
    destruct (decide (j = Z.of_nat i)) as [->|Hne]; [by rewrite E|]. by rewrite Z.pow2_bits_false, andb_false_r by lia.
Qed.
Lemma testbit_bit i j : Z.testbit (bit i) (Z.of_nat j) = (i =? j)%nat.
Proof.
  unfold bit. rewrite Z.shiftl_1_l. destruct (Nat.eqb_spec i j) as [->|Hne]; [by apply Z.pow2_bits_true; lia|].
  apply Z.pow2_bits_false. lia.
Qed.

(** ** Replies that are parsed *)

(** The name of the question has no jumps. *)
Definition uncompressed (pkt : list Z) (r : nat) : Prop := forall j ls q, name_at pkt r dns_payload j ls q -> j = O.

(** A parsing routine stays in bounds, on replies to queries of a type and class
    whose question has no jumps, and gives a result or an error. *)
Definition parser_ok (f : dns_parse_fn) (typcls : list Z) : Prop :=
  forall pkt r dn qn qs pcur,
  Forall is_byte pkt -> (r <= length pkt)%nat -> no_long_name pkt r -> wf_name qn -> sub dn 0 (wire qn) ->
  wf_name qs -> sub pkt dns_payload (wire qs) -> (pcur + 4 <= r)%nat -> sub pkt pcur typcls ->
  exists s o, f (DnMem dn 0) pkt pcur r = Ret (s, o) /\ (s < 0 \/ is_Some o).

(** ** The search list *)

Section Inv.
Context (cf : dns_conf) (srch : list (list (list Z))).

(** The entries, the last of which is the end of the list. *)
Definition entries : list (list (list Z)) := srch ++ [[]].
Definition entry_pos (k : nat) : nat := length (concat (wire <$> take k entries)).

Record conf_ok : Prop := {
  ok_srch : Forall wf_name srch;
  ok_srchbuf : exists junk, dnsc_srchbuf cf = concat (wire <$> entries) ++ junk;
  ok_srchend : dnsc_srchend cf = length (concat (wire <$> srch));
  ok_udpbuf : (DNS_MAXPACKET <= dnsc_udpbuf cf)%nat;
  ok_ntries : (1 <= dnsc_ntries cf <= 32)%nat;
  ok_timeout : 1 <= dnsc_timeout cf /\ dnsc_timeout cf * 2 ^ Z.of_nat (dnsc_ntries cf - 1) < 2 ^ 32
}.
Context (Hcf : conf_ok).

Lemma entries_wf : Forall wf_name entries.
Proof. apply Forall_app. split; [apply ok_srch, Hcf|]. repeat constructor. Qed.

Lemma entry_pos_S k e : entries !! k = Some e -> entry_pos (S k) = (entry_pos k + length (wire e))%nat.
Proof. intros He. unfold entry_pos. rewrite (take_S_r _ _ _ He), fmap_app, concat_app, length_app. cbn. by rewrite app_nil_r. Qed.

Lemma entry_sub k e : entries !! k = Some e -> sub (dnsc_srchbuf cf) (entry_pos k) (wire e).
Proof.
  intros He. destruct (ok_srchbuf Hcf) as [junk ->]. exists (concat (wire <$> take k entries)), (concat (wire <$> drop (S k) entries) ++ junk).
  split; [|done]. rewrite <- (take_drop_middle _ _ _ He) at 1. rewrite fmap_app, concat_app. cbn. by rewrite <- !app_assoc.
Qed.

Lemma entry_pos_mono k k' : (k <= k')%nat -> (entry_pos k <= entry_pos k')%nat.
Proof.
  intros Hk. unfold entry_pos. rewrite <- (take_drop k (take k' entries)), take_take, Nat.min_l by lia.
  rewrite fmap_app, concat_app, length_app. lia.
Qed.

Lemma entry_pos_end : entry_pos (length srch) = dnsc_srchend cf.
Proof. unfold entry_pos, entries. rewrite take_app_length. symmetry. apply Hcf. Qed.

Lemma length_entries : length entries = S (length srch).
Proof. unfold entries. rewrite length_app. cbn. lia. Qed.

Lemma entry_pos_last : (dnsc_srchend cf < entry_pos (length entries))%nat.
Proof.
  rewrite length_entries, (entry_pos_S _ []), entry_pos_end; [cbn; lia|]. unfold entries. by rewrite list_lookup_middle.
Qed.

(** The entries that a query can use. *)
Definition usable (q : dns_query) (e : list (list Z)) : bool :=
  (length (wire e) + dnsq_origdnl0 q <=? DNS_MAXDN)%nat && (bool_decide (e <> []) || negb (has (dnsq_flags q) DNS_ASIS_DONE)).

Lemma wire_first e m i : Forall wf_label e -> sub m i (wire e) -> exists c, rd m i = Ret c /\ (c =? 0) = bool_decide (e = []).
Proof.
  intros Hwf Hs. destruct Hwf as [|l e Hl _]; [by exists 0; rewrite (sub_wire_nil _ _ Hs)|].
  apply sub_wire_cons in Hs as (-> & _). eexists. split; [done|]. by rewrite (wf_label_nonempty _ Hl).
Qed.

Lemma next_srch_loop_spec q : forall fuel k, (k <= length entries)%nat -> (length entries - k < fuel)%nat ->
  (exists k', (k <= k')%nat /\ k' = length entries /\ next_srch_loop cf fuel q (entry_pos k) = Ret (entry_pos k', None) /\
     forall i e, (k <= i)%nat -> entries !! i = Some e -> usable q e = false) \/
  (exists k' e, (k <= k')%nat /\ entries !! k' = Some e /\ usable q e = true /\
     next_srch_loop cf fuel q (entry_pos k) = Ret (entry_pos k', Some (length (wire e), bool_decide (e = [])))).
Proof.
  induction fuel as [|fuel IH]; intros k Hk Hf; [lia|]. cbn [next_srch_loop]. destruct (decide (k = length entries)) as [->|Hne].
  { left. exists (length entries). rewrite (proj2 (Nat.ltb_lt _ _)) by apply entry_pos_last. split_and!; try done.
    intros i e Hi He. apply lookup_lt_Some in He. lia. }
  destruct (lookup_lt_is_Some_2 entries k) as [e He]; [lia|]. pose proof (entry_sub _ _ He) as Hs.
  pose proof (Forall_lookup_1 _ _ _ _ entries_wf He) as [Hwf _].
  rewrite (proj2 (Nat.ltb_ge _ _)) by (rewrite <- entry_pos_end; apply entry_pos_mono; pose proof length_entries; lia).
  rewrite (dns_dnlen_wire _ _ e) by done. destruct (wire_first _ _ _ Hwf Hs) as (c & -> & Hc). cbn [res_bind]. rewrite Hc.
  assert ((length (wire e) + dnsq_origdnl0 q <=? DNS_MAXDN)%nat &&
    (negb (bool_decide (e = [])) || negb (has (dnsq_flags q) DNS_ASIS_DONE)) = usable q e) as ->
    by (unfold usable; by rewrite bool_decide_not).
  destruct (usable q e) eqn:Hu; [right; exists k, e; by split_and!|]. rewrite <- (entry_pos_S _ _ He).
  destruct (IH (S k)) as [(k' & ? & ? & ? & Hno)|(k' & e' & ? & ? & ? & ?)]; [pose proof length_entries; lia..| |].
  - left. exists k'. split_and!; try done; [lia|]. intros i e' Hi Hi'. destruct (decide (i = k)) as [->|]; [by simplify_eq|].
    apply (Hno i e'); [lia|done].
  - right. exists k', e'. split_and!; try done. lia.
Qed.

(** ** Consistency *)

(** [q] asks for the name [cur], which starts with the labels [orig]. *)
Definition query_name (q : dns_query) (orig cur : list (list Z)) : Prop :=
  wf_name orig /\ dnsq_origdnl0 q = length (labels orig) /\ sub (dnsq_dn q) 0 (labels orig) /\
  wf_name cur /\ sub (dnsq_dn q) 0 (wire cur).

Record query_ok (q : dns_query) : Prop := {
  qk_name : exists orig cur, query_name q orig cur;
  qk_dn : length (dnsq_dn q) = (DNS_MAXDN + DNS_DNPAD)%nat /\ Forall is_byte (dnsq_dn q);
  qk_typcls : length (dnsq_typcls q) = 4%nat /\ Forall is_byte (dnsq_typcls q);
  qk_id : is_byte (fst (dnsq_id q)) /\ is_byte (snd (dnsq_id q));
  qk_try : (dnsq_try q < dnsc_ntries cf)%nat;
  qk_wait : forall i, (dnsc_nserv cf <= i)%nat -> has (dnsq_servwait q) (bit i) = false;
  qk_srch : exists k, (k <= length entries)%nat /\ dnsq_nxtsrch q = entry_pos k;
  qk_deadline : 0 <= dnsq_deadline q;
  qk_parse : forall f, dnsq_parse q = Some f -> parser_ok f (dnsq_typcls q)
}.

Abbreviation earlier := (ordered dnsq_deadline).

Record ctx_ok (c : dns_ctx) : Prop := {
  ck_nodup : NoDup (dnsq_addr <$> dnsc_qactive c);
  ck_count : dnsc_nactive c = Z.of_nat (length (dnsc_qactive c));
  ck_sorted : StronglySorted earlier (dnsc_qactive c);
  ck_queries : Forall query_ok (dnsc_qactive c);
  ck_pbuf : length (dnsc_pbuf c) = dnsc_udpbuf cf /\ Forall is_byte (dnsc_pbuf c)
}.

(** The callbacks that were called and those that are still to be called. *)
Definition called (c : dns_ctx) : list nat :=
  omap (fun e => match e with Callback d _ _ => Some d | _ => None end) (dnsc_events c).
Definition pending (c : dns_ctx) : list nat := dnsq_cbdata <$> dnsc_qactive c.

(** The queries that are active were active before, with the same callbacks. *)
Definition kept (c c' : dns_ctx) : Prop :=
  forall x', x' ∈ dnsc_qactive c' -> exists x, x ∈ dnsc_qactive c /\ dnsq_addr x' = dnsq_addr x /\ dnsq_cbdata x' = dnsq_cbdata x /\
    dnsq_parse x' = dnsq_parse x.

(** The result of a query is what its parsing routine gave, or a copy of the
    reply if it has none. *)
Definition result_of (x : dns_query) (s : Z) (result : option query_result) : Prop :=
  match result with
  | None => True
  | Some (Parsed rr) => exists f dn pkt cur ne, dnsq_parse x = Some f /\ f dn pkt cur ne = Ret (s, Some rr)
  | Some (Raw _) => dnsq_parse x = None
  end.

(** A callback is called for a query that was active. *)
Definition explained (c c' : dns_ctx) : Prop :=
  forall d s result, Callback d s result ∈ dnsc_events c' -> Callback d s result ∈ dnsc_events c \/
    exists x, x ∈ dnsc_qactive c /\ dnsq_cbdata x = d /\ result_of x s result.

Definition evolves (c c' : dns_ctx) : Prop :=
  ctx_ok c' /\ called c' ++ pending c' ≡ₚ called c ++ pending c /\ kept c c' /\ explained c c'.

(** [q] is an active query, changed but for its address and its callback. *)
Definition member (c : dns_ctx) (q : dns_query) : Prop :=
  exists a x b, dnsc_qactive c = a ++ x :: b /\ dnsq_addr q = dnsq_addr x /\ dnsq_cbdata q = dnsq_cbdata x /\ dnsq_parse q = dnsq_parse x.

Lemma without_split a x b : NoDup (dnsq_addr <$> (a ++ x :: b)) -> without (dnsq_addr x) (a ++ x :: b) = a ++ b.
Proof.
  rewrite fmap_app. cbn. intros (Ha & Hab & [Hx Hb]%NoDup_cons)%NoDup_app. unfold without.
  rewrite filter_app, filter_cons, decide_False by naive_solver. f_equal.
  - assert (Forall (fun y => dnsq_addr y <> dnsq_addr x) a) as H.
    { apply Forall_forall. intros y Hy E. apply (Hab (dnsq_addr y)); [by apply list_elem_of_fmap_2|]. rewrite E. apply list_elem_of_here. }
    induction H; [done|]. rewrite filter_cons, decide_True by done. f_equal. apply IHForall.
    + by apply NoDup_cons in Ha as [_ ?].
    + intros z Hz. apply Hab. by apply list_elem_of_further.
  - assert (Forall (fun y => dnsq_addr y <> dnsq_addr x) b) as H.
    { apply Forall_forall. intros y Hy E. apply Hx. rewrite <- E. by apply list_elem_of_fmap_2. }
    clear -H. induction H; [done|]. rewrite filter_cons, decide_True by done. by f_equal.
Qed.

Lemma sorted_drop a (x : dns_query) b : StronglySorted earlier (a ++ x :: b) -> StronglySorted earlier (a ++ b).
Proof.
  intros (Hab & Ha & Hb)%StronglySorted_app. apply StronglySorted_app. split; [|split; [done|by inversion Hb]].
  intros y z Hy Hz. apply Hab; [done|by apply list_elem_of_further].
Qed.

Lemma kept_without c a c' : dnsc_qactive c' = without a (dnsc_qactive c) -> kept c c'.
Proof. intros E x. rewrite E. intros [_ Hx]%list_elem_of_filter. by exists x. Qed.
Lemma explained_event c c' e :
  dnsc_events c' = dnsc_events c ++ [e] -> (forall d s r, e = Callback d s r -> exists x, x ∈ dnsc_qactive c /\ dnsq_cbdata x = d /\ result_of x s r) ->
  explained c c'.
Proof. intros He Hx d s r. rewrite He, elem_of_app, list_elem_of_singleton. intros [?|<-]; [by left|right; by apply Hx]. Qed.
Lemma explained_same c c' : dnsc_events c' = dnsc_events c -> explained c c'.
Proof. intros He d s r. rewrite He. by left. Qed.
Lemma member_elem c q : member c q -> exists x, x ∈ dnsc_qactive c /\ dnsq_addr q = dnsq_addr x /\ dnsq_cbdata q = dnsq_cbdata x /\ dnsq_parse q = dnsq_parse x.
Proof. intros (a & x & b & E & H). exists x. split; [rewrite E; apply elem_of_app; right; apply list_elem_of_here|done]. Qed.
Lemma kept_same c c' : dnsc_qactive c' = dnsc_qactive c -> kept c c'.
Proof. intros E x. rewrite E. by exists x. Qed.

(** What is left when a query is taken out. *)
Lemma member_without c q : ctx_ok c -> member c q ->
  let l := without (dnsq_addr q) (dnsc_qactive c) in
  NoDup (dnsq_addr <$> l) /\ (dnsq_addr q ∉ dnsq_addr <$> l) /\ Z.of_nat (length l) = dnsc_nactive c - 1 /\
  StronglySorted earlier l /\ Forall query_ok l /\ pending c ≡ₚ dnsq_cbdata q :: (dnsq_cbdata <$> l).
Proof.
  intros [Hnd Hcnt Hs Hq _] (a & x & b & E & Ha & Hd & _). unfold pending. rewrite Ha, Hd. rewrite E in *. cbn zeta. rewrite without_split by done.
  rewrite Hcnt, fmap_app, !length_app in *. cbn in *. pose proof Hnd as Hnd'. rewrite <- Permutation_middle in Hnd'. apply NoDup_cons in Hnd' as [Hx Hnd'].
  split; [done|]. split; [done|]. split; [lia|]. split; [by eapply sorted_drop|].
  split; [apply Forall_app in Hq as [? [? ?]%Forall_cons]; by apply Forall_app|].
  rewrite fmap_app, fmap_app. cbn. symmetry. apply Permutation_middle.
Qed.

Lemma dns_end_query_ok c q status result :
  ctx_ok c -> member c q -> (status <? 0) = negb (bool_decide (is_Some result)) -> result_of q status result ->
  exists c', dns_end_query c q status result = Ret c' /\ evolves c c' /\
    dnsc_qactive c' = without (dnsq_addr q) (dnsc_qactive c) /\
    dnsc_events c' = dnsc_events c ++ [Callback (dnsq_cbdata q) status result].
Proof.
  intros Hc Hm Hst Hres. pose proof (member_without c q Hc Hm) as (Hnd & _ & Hlen & Hs & Hq & Hp). unfold dns_end_query.
  replace (Bool.eqb (status <? 0) _) with false by (rewrite Hst; by destruct result). cbn [dnsc_nactive set_status].
  rewrite (proj2 (Z.leb_gt _ _)) by lia. eexists. split; [reflexivity|]. split; [|done]. split_and!.
  - split; cbn; first [done|lia|apply Hc].
  - unfold called, pending in *. cbn. rewrite omap_app. cbn. rewrite Hp, <- app_assoc. done.
  - by eapply kept_without.
  - apply member_elem in Hm as (x & Hx & _ & Hd & Hpa). eapply explained_event; [reflexivity|]. intros ? ? ? [= <- <- <-]. exists x.
    split; [done|]. split; [done|]. unfold result_of in *. by rewrite <- Hpa.
Qed.

(** ** Packets *)

(** The packet of a query for [cur]: a header, the question, and a record for
    larger packets. *)
Definition edns (q : dns_query) (servi : nat) : bool :=
  has (dnsq_flags q) DNS_SET_DO || ((DNS_MAXPACKET <? dnsc_udpbuf cf)%nat && negb (has (dnsq_servnEDNS0 q) (bit servi))).
Definition query_header (q : dns_query) (extra : bool) : list Z :=
  [fst (dnsq_id q); snd (dnsq_id q);
   Z.lor (if has (dnsq_flags q) DNS_NORD then 0 else 1) (if has (dnsq_flags q) DNS_AAONLY then 4 else 0);
   if has (dnsq_flags q) DNS_SET_CD then 16 else 0; 0; 1; 0; 0; 0; 0; 0; if extra then 1 else 0].
Definition query_packet (q : dns_query) (servi : nat) (cur : list (list Z)) : list Z :=
  query_header q (edns q servi) ++ wire cur ++ dnsq_typcls q ++
  if edns q servi then 0 :: dns_put16 DNS_T_OPT ++ dns_put16 (Z.of_nat (dnsc_udpbuf cf)) ++
    [0; 0; if has (dnsq_flags q) DNS_SET_DO then 128 else 0; 0; 0; 0] else [].

Lemma wr_all_bytes m l : (length l <= length m)%nat -> wr_all m 0 l = Ret (patch m 0 l).
Proof. intros H. pose proof (wr_all_patch m 0 [] l ltac:(cbn; lia)) as E. by rewrite patch_nil in E. Qed.

Lemma patch_patch0 m l l' : (length l + length l' <= length m)%nat -> patch (patch m 0 l) (length l) l' = patch m 0 (l ++ l').
Proof. intros H. by rewrite <- (patch_patch m 0 l l') by lia. Qed.

Lemma length_query_packet q servi cur :
  length (dnsq_typcls q) = 4%nat -> (length (query_packet q servi cur) = 16 + length (wire cur) + if edns q servi then 11 else 0)%nat.
Proof. intros Ht. unfold query_packet, query_header. rewrite !length_app, Ht. destruct (edns q servi); cbn; lia. Qed.

Lemma send_format_spec pbuf q servi orig cur :
  query_ok q -> query_name q orig cur -> length pbuf = dnsc_udpbuf cf ->
  send_format cf pbuf q servi = Ret (patch pbuf 0 (query_packet q servi cur), length (query_packet q servi cur)).
Proof.
  intros Hq (_ & _ & _ & [Hwf Hlen] & Hs) Hp. destruct (qk_typcls q Hq) as [Ht _]. pose proof (ok_udpbuf Hcf) as Hu.
  unfold DNS_MAXPACKET, DNS_MAXDN in *. unfold send_format. rewrite wr_all_bytes by (cbn; lia). cbn [res_bind].
  fold (query_header q false). rewrite (dns_dntodn_wire _ _ cur) by (first [done|unfold DNS_MAXDN; lia|rewrite length_patch; cbn; lia]).
  cbn [res_bind]. change dns_payload with (length (query_header q false)). rewrite patch_patch0 by (cbn; lia).
  rewrite <- length_app. set (hw := query_header q false ++ wire cur).
  assert (length hw + 4 <= length pbuf)%nat as Hhw by (unfold hw; rewrite length_app; cbn; lia).
  pose proof (memcpy_bytes (patch pbuf 0 hw) (length hw) (dnsq_typcls q) 0 (dnsq_typcls q) (sub_self _) ltac:(rewrite length_patch; lia)) as Hm.
  rewrite Ht in Hm. rewrite Hm. cbn [res_bind]. rewrite patch_patch0 by lia.
  replace (length hw + 4)%nat with (length (hw ++ dnsq_typcls q)) by (rewrite length_app; lia). unfold hw in *. clear hw Hhw Hm.
  fold (edns q servi). unfold query_packet. destruct (edns q servi) eqn:He.
  - set (rec := 0 :: _). assert (length rec = 11)%nat as Hrec by (unfold rec; destruct (has _ _); done).
    assert (length ((query_header q false ++ wire cur) ++ dnsq_typcls q) + length rec <= length pbuf)%nat as Hfit
      by (rewrite !length_app, Ht, Hrec; cbn; lia).
    set (a := (query_header q false ++ wire cur) ++ dnsq_typcls q) in *.
    pose proof (wr_all_patch pbuf 0 a rec Hfit) as Hw. cbn [Nat.add] in Hw. rewrite Hw. cbn [res_bind].
    assert (wr (patch pbuf 0 (a ++ rec)) 11 1 = Ret (patch pbuf 0 (query_header q true ++ wire cur ++ dnsq_typcls q ++ rec))) as ->.
    { assert (a ++ rec = take 11 (query_header q false) ++ 0 :: wire cur ++ dnsq_typcls q ++ rec) as Ha by (unfold a; cbn; by rewrite <- !app_assoc).
      rewrite Ha. apply (wr_patch_mid pbuf 0 (take 11 (query_header q false))). rewrite <- Ha, length_app. lia. }
    cbn [res_bind]. rewrite (proj2 (Nat.ltb_ge _ _)) by (rewrite <- Hp, <- Hrec; done). do 2 f_equal.
    unfold a. rewrite !length_app, Hrec. cbn. lia.
  - cbn [res_bind]. rewrite !app_nil_r, <- !app_assoc. rewrite (proj2 (Nat.ltb_ge _ _)); [done|]. rewrite !length_app, Ht. cbn. lia.
Qed.

(** ** Sending *)

(** The longest time a query waits for a reply. *)
Definition max_wait : Z := dnsc_timeout cf * 2 ^ Z.of_nat (dnsc_ntries cf - 1).

Lemma max_wait_pos : 1 <= max_wait.
Proof. destruct (ok_timeout Hcf) as [H1 _]. unfold max_wait. assert (2 ^ 0 <= 2 ^ Z.of_nat (dnsc_ntries cf - 1)) by (apply Z.pow_le_mono_r; lia). nia. Qed.

Lemma shift_timeout_ok q : query_ok q -> exists w, shift_timeout cf (dnsq_try q) = Ret w /\ 1 <= w <= max_wait.
Proof.
  intros Hq. pose proof (qk_try q Hq) as Ht. destruct (ok_timeout Hcf) as [H1 H2]. pose proof (ok_ntries Hcf) as Hn. unfold shift_timeout.
  rewrite (proj2 (Nat.leb_gt _ _)) by lia. eexists. split; [reflexivity|]. rewrite Z.shiftl_mul_pow2 by lia.
  assert (1 <= 2 ^ Z.of_nat (dnsq_try q) <= 2 ^ Z.of_nat (dnsc_ntries cf - 1)) as [Hp1 Hp2].
  { split; [apply (Z.pow_le_mono_r 2 0); lia|apply Z.pow_le_mono_r; lia]. }
  unfold u32, max_wait. rewrite Z.mod_small; nia.
Qed.

Lemma find_serv_spec skip n : forall i, (i <= find_serv n i skip <= i + n)%nat.
Proof. induction n as [|n IH]; intros i; cbn; [lia|]. case_match; [specialize (IH (S i))|]; lia. Qed.

(** [q'] is [q] but for what sending changes. *)
Record same_query (q q' : dns_query) : Prop := {
  sq_addr : dnsq_addr q' = dnsq_addr q;
  sq_cbdata : dnsq_cbdata q' = dnsq_cbdata q;
  sq_dn : dnsq_dn q' = dnsq_dn q;
  sq_orig : dnsq_origdnl0 q' = dnsq_origdnl0 q;
  sq_id : dnsq_id q' = dnsq_id q;
  sq_typcls : dnsq_typcls q' = dnsq_typcls q;
  sq_nxtsrch : dnsq_nxtsrch q' = dnsq_nxtsrch q;
  sq_parse : dnsq_parse q' = dnsq_parse q
}.

Lemma query_ok_same q q' :
  query_ok q -> same_query q q' -> (dnsq_try q' < dnsc_ntries cf)%nat ->
  (forall i, (dnsc_nserv cf <= i)%nat -> has (dnsq_servwait q') (bit i) = false) -> 0 <= dnsq_deadline q' -> query_ok q'.
Proof.
  intros [(orig & cur & Hn) Hd Ht Hi _ _ Hs _ Hpa] [E1 E2 E3 E4 E5 E6 E7 E8] Htry Hw Hdl.
  split; rewrite ?E3, ?E5, ?E6, ?E7, ?E8; try done. exists orig, cur. unfold query_name. by rewrite E3, E4.
Qed.

(** The query is over, or it waits until after [now]. *)
Definition sent (c : dns_ctx) (q : dns_query) (now : Z) (c' : dns_ctx) : Prop :=
  dnsc_qactive c' = without (dnsq_addr q) (dnsc_qactive c) \/
  exists q', dnsc_qactive c' ≡ₚ q' :: without (dnsq_addr q) (dnsc_qactive c) /\ same_query q q' /\ now < dnsq_deadline q' <= now + max_wait /\
    dnsq_try q' = dnsq_try q /\ (dnsq_servi q <= dnsq_servi q')%nat.

Lemma ctx_ok_pbuf c p s : ctx_ok c -> length p = dnsc_udpbuf cf -> Forall is_byte p -> ctx_ok (set_sendto (set_pbuf c p) s).
Proof. intros [? ? ? ? _] ? ?. by split. Qed.

Lemma is_byte_land255 v : is_byte (Z.land v 255).
Proof. unfold is_byte. change 255 with (Z.ones 8). rewrite Z.land_ones by lia. apply Z.mod_pos_bound. lia. Qed.

Lemma query_packet_bytes q servi orig cur : query_ok q -> query_name q orig cur -> Forall is_byte (query_packet q servi cur).
Proof.
  intros Hq (_ & _ & _ & _ & Hs). destruct (qk_id q Hq) as [? ?]. destruct (qk_dn q Hq) as [_ Hb]. destruct (qk_typcls q Hq) as [_ ?].
  unfold query_packet, query_header. rewrite !Forall_app. split_and!; [|exact (sub_bytes _ _ _ Hb Hs)|done|].
  - repeat first [exact (Forall_nil_2 _)|apply Forall_cons_2]; try done; repeat case_match; first [unfold is_byte; lia|split; [discriminate|reflexivity]].
  - case_match; [|constructor]. cbn [app dns_put16].
    repeat first [exact (Forall_nil_2 _)|apply Forall_cons_2|apply is_byte_land255]; repeat case_match; unfold is_byte; lia.
Qed.

Lemma bit_lor_false w i j : has w (bit j) = false -> i <> j -> has (Z.lor w (bit i)) (bit j) = false.
Proof. rewrite !has_testbit, Z.lor_spec, testbit_bit. intros ->. intros ?%Nat.eqb_neq. done. Qed.

Lemma dns_send_this_ok c q servi now :
  ctx_ok c -> member c q -> query_ok q -> (servi < dnsc_nserv cf)%nat -> 0 <= now ->
  exists c', dns_send_this cf c q servi now = Ret c' /\ evolves c c' /\ sent c q now c' /\
    (dnsc_events c' = dnsc_events c ++ [Callback (dnsq_cbdata q) DNS_E_TEMPFAIL None] \/
     exists orig cur, query_name q orig cur /\ dnsc_events c' = dnsc_events c ++ [Sent servi (query_packet q servi cur)]).
Proof.
  intros Hc Hm Hq Hsv Hnow. unfold dns_send_this. destruct (qk_name q Hq) as (orig & cur & Hname). destruct (ck_pbuf c Hc) as [Hpl Hpb].
  rewrite (send_format_spec _ _ _ orig cur Hq Hname Hpl). cbn [res_bind]. destruct (send_loop 10 (sendto_fails c)) as [ok fails].
  set (pkt := query_packet q servi cur).
  assert (length pkt <= dnsc_udpbuf cf)%nat as Hfit.
  { unfold pkt. rewrite length_query_packet by apply Hq. destruct Hname as (_ & _ & _ & [_ Hl] & _). pose proof (ok_udpbuf Hcf).
    unfold DNS_MAXPACKET, DNS_MAXDN in *. case_match; lia. }
  pose proof (ctx_ok_pbuf c (patch (dnsc_pbuf c) 0 pkt) fails Hc ltac:(rewrite length_patch; lia)
    ltac:(apply Forall_patch; [done|by eapply query_packet_bytes])) as Hc1.
  destruct ok; cbn [negb].
  2:{ destruct (dns_end_query_ok _ q DNS_E_TEMPFAIL None Hc1 Hm eq_refl I) as (c' & Hr & Hev & Ha & He). exists c'.
      split; [exact Hr|]. split; [exact Hev|]. split; [by left|]. by left. }
  assert (exists w, (if fst (dns_find_serv cf q) then Ret 1 else shift_timeout cf (dnsq_try q)) = Ret w /\ 1 <= w <= max_wait) as (w & Hw & Hw1).
  { pose proof max_wait_pos. case_match; [by exists 1|]. by apply shift_timeout_ok. }
  unfold dns_find_serv in *. cbn [fst] in Hw. set (i := find_serv _ _ _) in *. pose proof (find_serv_spec (dnsq_servskip q) (dnsc_nserv cf - dnsq_servi q) (dnsq_servi q)) as Hi. fold i in Hi.
  change (dnsq_try (set_servi q i)) with (dnsq_try q). rewrite Hw. cbn [res_bind]. set (q' := set_sent _ _ _). cbn [dnsc_qactive emit set_sendto set_pbuf].
  change (dnsq_addr q') with (dnsq_addr q). change (dnsq_deadline q') with (now + w).
  pose proof (place_spec dnsq_deadline (now + w) (without (dnsq_addr q) (dnsc_qactive c))) as Hpl'.
  destruct (place _ _ _) as [a b]. destruct Hpl' as (Eab & Hb & Ha). eexists. split; [reflexivity|].
  destruct (member_without c q Hc Hm) as (Hnd & Hni & Hlen & Hso & Hqs & Hp). rewrite Eab in Hnd, Hni, Hlen, Hso, Hqs, Hp.
  assert (same_query q q') as Hsame by (by split).
  assert (query_ok q') as Hq'.
  { apply (query_ok_same q); [done|done|apply Hq| |cbn; lia]. intros j Hj. cbn. apply bit_lor_false; [by apply Hq|lia]. }
  assert (a ++ q' :: b ≡ₚ q' :: without (dnsq_addr q) (dnsc_qactive c)) as Hperm by (rewrite Eab; symmetry; apply Permutation_middle).
  split; [split_and!|split].
  - split; cbn; [| |by apply sorted_insert| |apply Hc1].
    + rewrite Hperm. cbn. apply NoDup_cons. by rewrite Eab.
    + rewrite Hperm. cbn. rewrite Eab. lia.
    + rewrite Forall_app in *. destruct Hqs. auto.
  - unfold called, pending. cbn. rewrite omap_app. cbn. rewrite app_nil_r. f_equiv. rewrite Hperm. cbn. rewrite Eab. by rewrite <- Hp.
  - apply member_elem in Hm. intros y. cbn. rewrite Hperm. intros [->|[_ Hy]%list_elem_of_filter]%elem_of_cons; [done|by exists y].
  - by eapply explained_event.
  - right. exists q'. split; [done|]. split; [done|]. cbn. split_and!; first [lia|done].
  - right. exists orig, cur. split; [done|]. cbn. do 3 f_equal. unfold patch. rewrite take_0. cbn. by rewrite take_app_length.
Qed.

(** The attempts that are left to a query. *)
Definition potential (q : dns_query) : nat :=
  ((dnsc_ntries cf - 1 - dnsq_try q) * S (dnsc_nserv cf) + (dnsc_nserv cf - dnsq_servi q))%nat.

(** The query is over, or it waits until after [now] with fewer attempts left. *)
Definition progress (c : dns_ctx) (q : dns_query) (now : Z) (c' : dns_ctx) : Prop :=
  dnsc_qactive c' = without (dnsq_addr q) (dnsc_qactive c) \/
  exists q', dnsc_qactive c' ≡ₚ q' :: without (dnsq_addr q) (dnsc_qactive c) /\ same_query q q' /\ now < dnsq_deadline q' <= now + max_wait /\
    (potential q' < potential q)%nat.

(** What sending adds to the events. *)
Definition send_event (c : dns_ctx) (q : dns_query) (c' : dns_ctx) : Prop :=
  dnsc_events c' = dnsc_events c ++ [Callback (dnsq_cbdata q) DNS_E_TEMPFAIL None] \/
  exists servi pkt, dnsc_events c' = dnsc_events c ++ [Sent servi pkt].

Lemma send_go_ok c q i now :
  ctx_ok c -> member c q -> query_ok q -> 0 <= now -> (dnsq_servi q <= i < dnsc_nserv cf)%nat ->
  exists c', dns_send_this cf c (set_servi q (S i)) i now = Ret c' /\ evolves c c' /\ progress c q now c' /\ send_event c q c'.
Proof.
  intros Hc Hm Hq Hnow Hi. assert (same_query q (set_servi q (S i))) as Hsame by (by split).
  assert (query_ok (set_servi q (S i))) as Hq' by (apply (query_ok_same q); [done|done|apply Hq|apply Hq|apply Hq]).
  destruct (dns_send_this_ok c (set_servi q (S i)) i now Hc Hm Hq' ltac:(lia) Hnow) as (c' & -> & Hev & Hs & He). exists c'.
  split; [done|]. split; [done|]. split.
  - destruct Hs as [Hs|(q' & Hp & Hsq & Hd & Htry & Hsv)]; [by left|]. right. exists q'. split; [exact Hp|]. split; [|split; [done|]].
    + destruct Hsq. by split.
    + unfold potential. cbn in *. rewrite Htry. lia.
  - destruct He as [He|(orig & cur & _ & He)]; [by left|]. right. eauto.
Qed.

Lemma dns_send_ok c q now :
  ctx_ok c -> member c q -> query_ok q -> 0 <= now ->
  exists c', dns_send cf c q now = Ret c' /\ evolves c c' /\ progress c q now c' /\ send_event c q c'.
Proof.
  intros Hc Hm Hq Hnow. unfold dns_send, dns_find_serv.
  assert (forall q', dnsq_addr q' = dnsq_addr q -> dnsq_cbdata q' = dnsq_cbdata q -> dnsq_parse q' = dnsq_parse q -> exists c', dns_end_query c q' DNS_E_TEMPFAIL None = Ret c' /\ evolves c c' /\ progress c q now c' /\ send_event c q c') as Hend.
  { intros q' Ha Hd Hpa. assert (member c q') as Hm' by (destruct Hm as (a & x & b & ? & ? & ?); exists a, x, b; by rewrite Ha, Hd, Hpa).
    destruct (dns_end_query_ok c q' DNS_E_TEMPFAIL None Hc Hm' eq_refl I) as (c' & -> & Hev & Hact & He). exists c'.
    rewrite Ha in Hact. rewrite Hd in He. split; [done|]. split; [done|]. split; by left. }
  set (i := find_serv _ _ _). pose proof (find_serv_spec (dnsq_servskip q) (dnsc_nserv cf - dnsq_servi q) (dnsq_servi q)) as Hi. fold i in Hi.
  destruct (Nat.ltb_spec i (dnsc_nserv cf)).
  { exact (send_go_ok c q i now Hc Hm Hq Hnow ltac:(lia)). }
  cbn [dnsq_try set_try set_servi]. destruct (Nat.leb_spec (dnsc_ntries cf) (S (dnsq_try q))); [by apply Hend|].
  cbn [dnsq_servi dnsq_servskip]. rewrite Nat.sub_0_r. set (j := find_serv _ _ _).
  destruct (Nat.ltb_spec j (dnsc_nserv cf)); [|by apply Hend].
  set (q1 := set_try (set_servi q i) (S (dnsq_try q))).
  assert (query_ok q1) as Hq1 by (apply (query_ok_same q); [done|by split|done|apply Hq|apply Hq]).
  destruct (send_go_ok c q1 j now Hc Hm Hq1 Hnow) as (c' & Hr & Hev & Hp & He); [cbn; lia|].
  exists c'. split; [exact Hr|]. split; [done|]. split; [|exact He].
  destruct Hp as [Hp|(q' & Hp & [] & Hd & Hpot)]; [by left|]. right. exists q'. split; [exact Hp|]. split; [by split|]. split; [done|].
  unfold potential in *. cbn in Hpot. assert (1 <= dnsc_ntries cf - 1 - dnsq_try q)%nat by lia. nia.
Qed.

(** ** Timeouts *)

Definition expired (now : Z) (l : list dns_query) : nat := length (filter (fun q => dnsq_deadline q <= now) l).

Lemma evolves_same c c' : ctx_ok c' -> dnsc_events c' = dnsc_events c -> dnsc_qactive c' = dnsc_qactive c -> evolves c c'.
Proof. intros Hc He Ha. split; [done|]. split; [unfold called, pending; by rewrite He, Ha|]. split; [by apply kept_same|by apply explained_same]. Qed.

Lemma evolves_trans c1 c2 c3 : evolves c1 c2 -> evolves c2 c3 -> evolves c1 c3.
Proof.
  intros (_ & H12 & K12 & E12) (Hc3 & H23 & K23 & E23). split; [done|]. split; [by rewrite H23|]. split.
  - intros x'' (x' & (x & Hx & -> & -> & ->)%K12 & -> & -> & ->)%K23. by exists x.
  - intros d s r [H|(x' & (x & Hx & _ & -> & Hpa)%K12 & <- & Hr)]%E23; [by apply E12|]. right. exists x. unfold result_of in *. by rewrite <- Hpa.
Qed.

Lemma member_head c q l : dnsc_qactive c = q :: l -> member c q.
Proof. intros E. by exists [], q, l. Qed.

Lemma without_head q l : NoDup (dnsq_addr <$> (q :: l)) -> without (dnsq_addr q) (q :: l) = l.
Proof. intros H. apply (without_split [] q l H). Qed.

Lemma expired_send now c c' q l :
  ctx_ok c -> dnsc_qactive c = q :: l -> dnsq_deadline q <= now -> progress c q now c' ->
  expired now (dnsc_qactive c) = S (expired now (dnsc_qactive c')).
Proof.
  intros Hc E Hd Hp. pose proof (ck_nodup c Hc) as Hnd. unfold progress in Hp. rewrite E in *. rewrite without_head in Hp by done.
  unfold expired. rewrite filter_cons, decide_True by done. cbn [length]. f_equal.
  destruct Hp as [->|(q' & Hp & _ & Hd' & _)]; [done|]. rewrite Hp, filter_cons, decide_False by lia. done.
Qed.

(** Queries that were not sent again, or have fewer attempts left. *)
Definition waits (now : Z) (c c' : dns_ctx) : Prop :=
  forall q', q' ∈ dnsc_qactive c' -> now < dnsq_deadline q' /\
    (q' ∈ dnsc_qactive c \/ (dnsq_deadline q' <= now + max_wait /\ exists q, q ∈ dnsc_qactive c /\ (potential q' < potential q)%nat)).

Lemma timeouts_loop_ok fuel maxwait now : forall c,
  ctx_ok c -> 0 <= now -> (expired now (dnsc_qactive c) <= fuel)%nat ->
  exists w c', timeouts_loop cf fuel c maxwait now = Ret (w, c') /\ evolves c c' /\ waits now c c'.
Proof.
  induction fuel as [|fuel IH]; intros c Hc Hnow Hf;
    (destruct (dnsc_qactive c) as [|q l] eqn:E;
      [exists maxwait, c; cbn [timeouts_loop]; rewrite E; split; [by try destruct fuel|]; split; [by apply evolves_same|]; intros q'; rewrite E; by intros ?%elem_of_nil|]);
    cbn [timeouts_loop]; rewrite E; (destruct (Z.ltb_spec now (dnsq_deadline q)) as [Hlt|Hle];
      [eexists _, c; split; [reflexivity|]; split; [by apply evolves_same|]; intros q' Hq'; split; [|by left];
       pose proof (ck_sorted c Hc) as Hs; rewrite E in Hs, Hq'; inversion Hs as [|? ? _ Hall]; subst;
       apply elem_of_cons in Hq' as [->|Hq']; [done|]; rewrite Forall_forall in Hall; specialize (Hall q' Hq'); unfold ordered in Hall; lia|]).
  - unfold expired in Hf. rewrite filter_cons, decide_True in Hf by done. cbn in Hf. lia.
  - assert (query_ok q) as Hq by (pose proof (ck_queries c Hc) as H; rewrite E in H; by apply Forall_cons in H as [? _]).
    destruct (dns_send_ok c q now Hc (member_head _ _ _ E) Hq Hnow) as (c1 & -> & Hev & Hp & _). cbn [res_bind].
    pose proof (expired_send now c c1 q l Hc E Hle Hp) as Hex. rewrite E in Hex.
    destruct (IH c1) as (w & c' & -> & Hev' & Hw); [apply Hev|done|lia|]. exists w, c'. split; [done|]. split; [by eapply evolves_trans|].
    assert (forall x, x ∈ dnsc_qactive c1 -> x ∈ dnsc_qactive c \/ (dnsq_deadline x <= now + max_wait /\ exists y, y ∈ dnsc_qactive c /\ (potential x < potential y)%nat)) as Hx.
    { intros x Hx. unfold progress in Hp. rewrite E in *. rewrite without_head in Hp by (rewrite <- E; apply Hc).
      destruct Hp as [Hp|(q' & Hp & _ & Hdl & Hpot)]; rewrite Hp in Hx; [left; by apply list_elem_of_further|].
      apply elem_of_cons in Hx as [->|Hx]; [right; split; [lia|]; exists q; split; [apply list_elem_of_here|done]|left; by apply list_elem_of_further]. }
    intros q' Hq'. destruct (Hw q' Hq') as [Hd [H1|(Hdl & y & Hy & Hpot)]]; (split; [done|]); [by apply Hx|].
    right. split; [done|]. destruct (Hx y Hy) as [?|(_ & z & Hz & Hpz)]; [by exists y|]. exists z. split; [done|lia].
Qed.

Lemma request_utm_called c now : called (dns_request_utm cf c now) = called c.
Proof.
  unfold dns_request_utm. destruct (dnsc_utmfn cf); [|done]. destruct (match dnsc_qactive c with [] => _ | _ => _ end).
  destruct (_ =? _); [done|]. unfold called. cbn. rewrite omap_app. apply app_nil_r.
Qed.

Lemma request_utm_evolves c now : ctx_ok c -> evolves c (dns_request_utm cf c now).
Proof.
  intros Hc. unfold dns_request_utm. destruct (dnsc_utmfn cf); [|by apply evolves_same]. destruct (match dnsc_qactive c with [] => _ | _ => _ end) as [d t].
  destruct (_ =? _); [by apply evolves_same|]. destruct Hc. split; [by split|]. split; [|split; [by apply kept_same|by eapply explained_event]].
  unfold called, pending. cbn. rewrite omap_app. cbn. by rewrite app_nil_r.
Qed.

Lemma request_utm_active c now : dnsc_qactive (dns_request_utm cf c now) = dnsc_qactive c.
Proof. unfold dns_request_utm. destruct (dnsc_utmfn cf); [|done]. destruct (match dnsc_qactive c with [] => _ | _ => _ end). by destruct (_ =? _). Qed.

Lemma dns_timeouts_ok c maxwait now :
  ctx_ok c -> 0 <= now -> exists w c', dns_timeouts cf c maxwait now = Ret (w, c') /\ evolves c c' /\ waits now c c'.
Proof.
  intros Hc Hnow. unfold dns_timeouts. destruct (dnsc_qactive c) as [|q l] eqn:E.
  { exists maxwait, c. split; [done|]. split; [by apply evolves_same|]. intros q'. rewrite E. by intros ?%elem_of_nil. }
  destruct (timeouts_loop_ok (length (q :: l)) maxwait now c Hc Hnow) as (w & c' & -> & Hev & Hw).
  { unfold expired. rewrite E. apply length_filter. }
  cbn [res_bind]. exists w, (dns_request_utm cf c' now). split; [done|]. split.
  - eapply evolves_trans; [done|]. apply request_utm_evolves, Hev.
  - intros q'. rewrite request_utm_active. apply Hw.
Qed.

(** ** The next name *)

Lemma newid_loop_spec n : forall c id, is_byte (fst id) -> is_byte (snd id) ->
  exists j i id', newid_loop n c id = (set_rng c j i, id') /\ is_byte (fst id') /\ is_byte (snd id').
Proof.
  induction n as [|n IH]; intros c id H1 H2; cbn [newid_loop].
  { exists (dnsc_jran c), (dnsc_nextid c), id. by destruct c. }
  set (c1 := if dnsc_nextid c =? 0 then _ else _). assert (exists j i, c1 = set_rng c j i) as (j & i & E).
  { unfold c1. destruct (_ =? 0); [destruct (udns_jranval _) as [v j]; by exists j, v|]. exists (dnsc_jran c), (dnsc_nextid c). by destruct c. }
  rewrite E. destruct (id_used _ _).
  - destruct (IH (set_rng (set_rng c j i) j (Z.shiftr i 16)) (Z.land i 255, Z.land (Z.shiftr i 8) 255)) as (j' & i' & id' & E' & ?);
      [apply is_byte_land255..|]. exists j', i', id'. split; [exact E'|done].
  - eexists _, _, _. split; [reflexivity|]. split; apply is_byte_land255.
Qed.

Lemma wire_is_bytes e : Forall wf_label e -> Forall is_byte (wire e).
Proof.
  induction 1 as [|l e [Hl Hb] _ IH]; [by repeat constructor|]. rewrite wire_cons. constructor; [unfold is_byte, DNS_MAXLABEL in *; lia|].
  by apply Forall_app.
Qed.

Lemma sub_patch_tail m a b : sub m 0 a -> sub (patch m (length a) b) 0 (a ++ b).
Proof.
  intros (pre & post & -> & Hpre). destruct pre; [|done]. cbn [app]. unfold patch. rewrite take_app_length.
  exists [], (drop (length a + length b) (a ++ post)). by rewrite <- app_assoc.
Qed.

(** What the next entry of the search list changes. *)
Record next_query (q q' : dns_query) : Prop := {
  nq_addr : dnsq_addr q' = dnsq_addr q;
  nq_cbdata : dnsq_cbdata q' = dnsq_cbdata q;
  nq_typcls : dnsq_typcls q' = dnsq_typcls q;
  nq_parse : dnsq_parse q' = dnsq_parse q;
  nq_orig : dnsq_origdnl0 q' = dnsq_origdnl0 q;
  nq_deadline : dnsq_deadline q' = dnsq_deadline q
}.

Lemma dns_next_srch_ok c q orig cur : query_ok q -> query_name q orig cur ->
  exists more j i q', dns_next_srch cf c q = Ret (more, set_rng c j i, q') /\ query_ok q' /\ next_query q q' /\
    if more : bool then exists e, e ∈ entries /\ usable q e = true /\ query_name q' orig (orig ++ e) else query_name q' orig cur.
Proof.
  intros Hq Hname. destruct (qk_srch q Hq) as (k & Hk & Hnxt). unfold dns_next_srch. rewrite Hnxt.
  assert (length entries - k < S (S (dnsc_srchend cf)))%nat as Hfuel.
  { rewrite length_entries. rewrite (ok_srchend Hcf). assert (length srch <= length (concat (wire <$> srch)))%nat; [|lia].
    clear. induction srch as [|e l IH]; [done|]. cbn. rewrite length_app, length_wire. fold (wire <$> l). lia. }
  destruct (next_srch_loop_spec q _ k Hk Hfuel) as [(k' & Hkk & Hk' & -> & _)|(k' & e & Hkk & He & Hu & ->)]; cbn [res_bind].
  { exists false, (dnsc_jran c), (dnsc_nextid c). eexists. split; [by destruct c|]. split; [|by split].
    destruct Hq as [_ ? ? ? ? ? ? ? ?]. split; try done. - by exists orig, cur. - exists k'. split; [lia|done]. }
  pose proof Hname as (Hworig & Horig & Hsub & _). pose proof (Forall_lookup_1 _ _ _ _ entries_wf He) as [Hwe Hle].
  destruct (qk_dn q Hq) as [Hdl Hdb]. pose proof Hu as Hu'. unfold usable in Hu'. apply andb_true_iff in Hu' as [Hfit _]. apply Nat.leb_le in Hfit.
  rewrite memcpy_bytes by (first [by apply entry_sub|unfold DNS_DNPAD in *; lia]). cbn [res_bind]. unfold dns_newid.
  destruct (newid_loop_spec 5 c (0, 0)) as (j & i & id & -> & Hid); [by unfold is_byte|by unfold is_byte|].
  eexists true, j, i, _. split; [reflexivity|].
  assert (wf_name (orig ++ e)) as Hwn.
  { split; [apply Forall_app; split; [apply Hworig|done]|]. unfold wire. rewrite labels_app, !length_app in *. unfold wire in Hfit. rewrite length_app in Hfit. lia. }
  assert (sub (patch (dnsq_dn q) (dnsq_origdnl0 q) (wire e)) 0 (wire (orig ++ e))) as Hsub'.
  { rewrite Horig. unfold wire at 2. rewrite labels_app, <- app_assoc. by apply sub_patch_tail. }
  set (q' := Query _ _ _ _ _ _ _ _ _ _ _ _ _ _ _).
  assert (query_name q' orig (orig ++ e)) as Hqn.
  { split; [done|]. split; [done|]. split; [|done]. unfold wire in Hsub'. rewrite labels_app, <- app_assoc in Hsub'. by apply sub_app in Hsub' as [? _]. }
  split; [|split; [by split|]].
  - split; try done.
    + by exists orig, (orig ++ e).
    + cbn. rewrite length_patch by (unfold DNS_DNPAD in *; lia). split; [done|]. apply Forall_patch; [done|by apply wire_is_bytes].
    + apply Hq.
    + pose proof (ok_ntries Hcf). cbn. lia.
    + exists (S k'). split; [by apply lookup_lt_Some in He|]. cbn. by rewrite (entry_pos_S _ _ He).
    + apply Hq.
    + apply Hq.
  - exists e. split; [by eapply list_elem_of_lookup_2|done].
Qed.
End Inv.
