(* ===== verification/DnsResolverSpec.v ===== *)
(** * What the DNS resolver does

    Submitting, cancelling and answering the queries of
    [src/src/udns/udns_resolver.c], and runs of the resolver. *)

From S2P Require Import Prelude DnsName DnsText DnsPacket DnsAnswer DnsQlist DnsResolver DnsResolverInv.
Local Open Scope cpp_scope.
Local Open Scope Z_scope.
#[local] Opaque dns_getdn.

Section Spec.
Context (cf : dns_conf) (srch : list (list (list Z))) (Hcf : conf_ok cf srch).

(** ** Submitting *)

Lemma put16_bytes v : Forall is_byte (dns_put16 v).
Proof. repeat constructor; apply is_byte_land255. Qed.

Lemma has_0 w : has 0 w = false.
Proof. done. Qed.

(** A new query joins the list. *)
Lemma active_cons c q :
  ctx_ok cf srch c -> query_ok cf srch q -> (dnsq_addr q ∉ dnsq_addr <$> dnsc_qactive c) -> dnsq_deadline q = 0 ->
  ctx_ok cf srch (set_active c (q :: dnsc_qactive c) (dnsc_nactive c + 1)).
Proof.
  intros [Hnd Hcnt Hs Hq Hp] Hq' Hni Hd. split; cbn; [by apply NoDup_cons|lia| |by constructor|done].
  constructor; [done|]. eapply Forall_impl; [done|]. intros x Hx. unfold ordered. rewrite Hd. apply Hx.
Qed.

(** The query that was submitted, for the name [ls]. *)
Definition submitted (c : dns_ctx) (addr : nat) (ls : list (list Z)) (typ cls : Z) (parse : option dns_parse_fn) (data : nat) (c' : dns_ctx) : Prop :=
  exists q, dnsc_qactive c' = q :: dnsc_qactive c /\ dnsq_addr q = addr /\ dnsq_cbdata q = data /\ dnsq_parse q = parse /\
    dnsq_typcls q = dns_put16 typ ++ dns_put16 cls /\ exists cur, query_name q ls cur.

Lemma entry_pos_0 : entry_pos srch 0 = 0%nat.
Proof. done. Qed.

Lemma submit_first_ok c flags q ls :
  query_ok cf srch q -> query_name q ls ls ->
  exists j i q', submit_first cf c flags q = Ret (set_rng c j i, q') /\ query_ok cf srch q' /\ next_query q q' /\
    exists cur, query_name q' ls cur.
Proof.
  intros Hq Hn. unfold submit_first. pose proof Hn as ([Hwf _] & _ & _ & _ & Hs).
  assert (forall k fl, (k <= length (entries srch))%nat -> query_ok cf srch (set_search q (entry_pos srch k) fl)) as Hset.
  { intros k fl Hk. destruct Hq as [Hname ? ? ? ? ? ? ? ?]. split; try done. by exists k. }
  rewrite (dns_dnlabels_wire _ _ ls) by done.
  assert ((if has flags DNS_NOSRCH then Ret 0%nat else Ret (length ls)) = Ret (if has flags DNS_NOSRCH then 0%nat else length ls)) as -> by (by case_match).
  cbn [res_bind]. destruct (_ || _).
  - unfold dns_newid. destruct (newid_loop_spec 5 c (0, 0)) as (j & i & id & -> & Hid1 & Hid2); [by unfold is_byte|by unfold is_byte|].
    eexists j, i, _. split; [reflexivity|]. split; [|split; [by split|by exists ls]].
    assert (exists k, (k <= length (entries srch))%nat /\ (if has flags DNS_NOSRCH then dnsc_srchend cf else 0%nat) = entry_pos srch k) as (k & Hk & ->).
    { destruct (has flags DNS_NOSRCH); [exists (length srch)|by exists 0%nat; rewrite entry_pos_0; split; [lia|]].
      rewrite (entry_pos_end cf srch Hcf), (length_entries srch). split; [lia|done]. }
    destruct (Hset k (Z.lor (dnsq_flags q) DNS_ASIS_DONE) Hk) as [Hname ? ? ? ? ? ? ? ?]. split; try done.
    pose proof (ok_ntries _ _ Hcf). cbn. lia.
  - destruct (dns_next_srch_ok cf srch Hcf c (set_search q 0 (dnsq_flags q)) ls ls) as (more & j & i & q' & -> & Hq' & Hnq & Hn').
    { rewrite <- entry_pos_0. apply Hset. lia. }
    { done. }
    cbn [res_bind]. exists j, i, q'. split; [done|]. split; [done|]. split; [by destruct Hnq; split|].
    destruct more; [destruct Hn' as (e & _ & _ & Hn')|]; eauto.
Qed.

Lemma dns_submit_dn_ok c addr dn i ls qcls qtyp flags parse data :
  ctx_ok cf srch c -> (addr ∉ dnsq_addr <$> dnsc_qactive c) -> wf_name ls -> sub dn i (wire ls) ->
  (forall f, parse = Some f -> parser_ok f (dns_put16 qtyp ++ dns_put16 qcls)) ->
  exists c', dns_submit_dn cf c (Some addr) dn i qcls qtyp flags parse data = Ret (Some addr, c') /\ ctx_ok cf srch c' /\
    called c' = called c /\ pending c' = data :: pending c /\ submitted c addr ls qtyp qcls parse data c'.
Proof.
  intros Hc Hni Hw Hs Hpa. pose proof Hw as [Hwf Hlen]. unfold dns_submit_dn. pose proof (length_wire ls) as Hlw.
  rewrite (dns_dntodn_wire _ _ ls) by (first [done|unfold DNS_DNPAD; lia|unfold blank; rewrite repeat_length; unfold DNS_DNPAD; lia]).
  cbn [res_bind]. rewrite (proj2 (Nat.eqb_neq _ 0)) by lia. set (qdn := patch _ 0 (wire ls)). set (q := Query addr _ _ _ _ _ _ _ _ _ _ _ _ _ _).
  assert (sub qdn 0 (wire ls)) as Hsub by (apply patch_sub; lia).
  assert (query_name q ls ls) as Hqn.
  { split; [done|]. split; [cbn; lia|]. split; [by apply sub_app in Hsub as [? _]|]. done. }
  assert (query_ok cf srch q) as Hq.
  { split; try done.
    - by exists ls, ls.
    - unfold q, qdn, blank. cbn [dnsq_dn]. rewrite length_patch by (rewrite repeat_length; unfold DNS_DNPAD; lia). split; [apply repeat_length|].
      apply Forall_patch; [|by apply wire_is_bytes]. apply Forall_forall. intros x Hx%list_elem_of_In%repeat_spec. subst. by unfold is_byte.
    - split; [done|]. apply Forall_app. split; apply put16_bytes.
    - pose proof (ok_ntries _ _ Hcf). cbn. lia.
    - exists 0%nat. rewrite entry_pos_0. split; [lia|done]. }
  destruct (submit_first_ok c flags q ls Hq Hqn) as (j & i' & q' & -> & Hq' & Hnq & cur & Hn). cbn [res_bind].
  destruct Hnq as [Ha Hd Ht Hp Ho Hdl]. cbn in Ha, Hd, Ht, Hp, Hdl.
  assert (ctx_ok cf srch (set_active (set_rng c j i') (q' :: dnsc_qactive c) (dnsc_nactive c + 1))) as Hc'.
  { apply (active_cons (set_rng c j i')); [by destruct Hc|done|by rewrite Ha|done]. }
  eexists. split; [reflexivity|]. pose proof (request_utm_evolves cf srch _ 0 Hc') as [Hok _]. split; [exact Hok|].
  rewrite request_utm_called. split; [done|]. unfold pending. rewrite request_utm_active. cbn. rewrite Hd. split; [done|].
  exists q'. rewrite request_utm_active. split_and!; try done. by exists cur.
Qed.

Lemma dns_submit_p_ok c addr name qcls qtyp flags parse data :
  ctx_ok cf srch c -> (addr ∉ dnsq_addr <$> dnsc_qactive c) -> c_string name 0 0 ->
  (forall f, parse = Some f -> parser_ok f (dns_put16 qtyp ++ dns_put16 qcls)) ->
  exists o c', dns_submit_p cf c (Some addr) name qcls qtyp flags parse data = Ret (o, c') /\ ctx_ok cf srch c' /\ called c' = called c /\
    match o with
    | Some a => a = addr /\ pending c' = data :: pending c /\ exists ls, submitted c addr ls qtyp qcls parse data c'
    | None => dnsc_qactive c' = dnsc_qactive c /\ dnsc_qstatus c' = DNS_E_BADQUERY
    end.
Proof.
  intros Hc Hni Hname Hpa. unfold dns_submit_p. destruct (ck_pbuf _ _ _ Hc) as [Hpl Hpb]. pose proof (ok_udpbuf _ _ Hcf) as Hu.
  destruct (dns_ptodn_wire name 0 0 (dnsc_pbuf c) 0 DNS_MAXDN Hname) as (r & m' & isabs & Hr & Hl & Hcase);
    [unfold DNS_MAXPACKET, DNS_MAXDN in *; lia|]. rewrite Hr. cbn [res_bind].
  pose proof (dns_ptodn_bytes _ _ _ _ _ _ _ _ _ Hr (proj1 Hname) Hpb) as Hmb.
  assert (ctx_ok cf srch (set_pbuf c m')) as Hc1 by (destruct Hc; split; try done; by rewrite <- Hpl).
  destruct (Z.leb_spec r 0) as [Hle|Hgt].
  { eexists None, _. split; [reflexivity|]. destruct Hc1. split; [by split|]. done. }
  destruct Hcase as [?|(ls & Hwf & Hrl & _ & ->)]; [lia|].
  destruct (dns_submit_dn_ok (set_pbuf c (patch (dnsc_pbuf c) 0 (wire ls))) addr (patch (dnsc_pbuf c) 0 (wire ls)) 0 ls qcls qtyp
    (if default false isabs then Z.lor flags DNS_NOSRCH else flags) parse data Hc1 Hni Hwf) as (c' & -> & Hc' & Hcall & Hpend & Hsub);
    [apply patch_sub; lia|done|].
  exists (Some addr), c'. split; [done|]. split; [done|]. split; [done|]. split; [done|]. split; [done|]. by exists ls.
Qed.

(** ** Cancelling *)

Lemma dns_cancel_ok c q : ctx_ok cf srch c -> q ∈ dnsc_qactive c ->
  exists c', dns_cancel cf c (dnsq_addr q) = Ret c' /\ ctx_ok cf srch c' /\ called c' = called c /\
    pending c ≡ₚ dnsq_cbdata q :: pending c' /\ dnsc_qactive c' = without (dnsq_addr q) (dnsc_qactive c).
Proof.
  intros Hc Hq. unfold dns_cancel. assert (existsb (fun x => (dnsq_addr x =? dnsq_addr q)%nat) (dnsc_qactive c) = true) as ->.
  { apply existsb_exists. exists q. split; [by apply list_elem_of_In|apply Nat.eqb_refl]. }
  assert (member c q) as Hm by (apply list_elem_of_split in Hq as (a & b & E); by exists a, q, b).
  destruct (member_without cf srch c q Hc Hm) as (Hnd & Hni & Hlen & Hs & Hqs & Hp).
  eexists. split; [reflexivity|]. rewrite request_utm_called. unfold pending at 2. rewrite request_utm_active.
  split; [|done]. apply request_utm_evolves. destruct Hc. by split.
Qed.


(** ** Replies *)

(** A query is changed in place. *)
Lemma store_ok c a x b q :
  ctx_ok cf srch c -> dnsc_qactive c = a ++ x :: b -> query_ok cf srch q ->
  dnsq_addr q = dnsq_addr x -> dnsq_cbdata q = dnsq_cbdata x -> dnsq_parse q = dnsq_parse x -> dnsq_deadline q = dnsq_deadline x ->
  evolves cf srch c (store c q).
Proof.
  intros Hc E Hq Ha Hd Hpa Hdl. pose proof (ck_nodup _ _ _ Hc) as Hnd. rewrite E in Hnd.
  assert ((fun y => if (dnsq_addr y =? dnsq_addr q)%nat then q else y) <$> (a ++ x :: b) = a ++ q :: b) as Hmap.
  { rewrite fmap_app in Hnd. cbn in Hnd. apply NoDup_app in Hnd as (_ & Hab & [Hx _]%NoDup_cons).
    assert (forall l : list dns_query, (dnsq_addr x ∉ dnsq_addr <$> l) -> (fun y => if (dnsq_addr y =? dnsq_addr q)%nat then q else y) <$> l = l) as Hid.
    { clear -Ha. induction l as [|y l IH]; [done|]. cbn. intros [Hy Hl]%not_elem_of_cons. rewrite (proj2 (Nat.eqb_neq _ _)) by congruence. f_equal. by apply IH. }
    rewrite fmap_app. cbn. rewrite Ha, Nat.eqb_refl. rewrite <- Ha, !Hid by (try done; intros Hin; by apply (Hab _ Hin), list_elem_of_here). done. }
  assert (dnsc_qactive (store c q) = a ++ q :: b) as Es by (unfold store; cbn; by rewrite E).
  destruct Hc as [Hnd' Hcnt Hs Hqs Hp]. split_and!.
  - split; rewrite ?Es; try done.
    + rewrite fmap_app. cbn. rewrite Ha. by rewrite fmap_app in Hnd.
    + unfold store. cbn. rewrite Hcnt, E, !length_app. done.
    + rewrite E in Hs. clear -Hs Hdl. apply StronglySorted_app in Hs as (Hab & Hsa & Hsb). apply StronglySorted_app. inversion Hsb as [|? ? Hb Hall]; subst.
      split; [|split; [done|]].
      * intros y z Hy [->|Hz]%elem_of_cons; [|by apply Hab; [|apply list_elem_of_further]]. unfold ordered. rewrite Hdl. apply Hab; [done|apply list_elem_of_here].
      * constructor; [done|]. unfold ordered in *. by rewrite Hdl.
    + rewrite E in Hqs. rewrite Forall_app, Forall_cons in *. naive_solver.
  - unfold called, pending. rewrite Es, E. unfold store. cbn. by rewrite !fmap_app, !fmap_cons, Hd.
  - intros y. rewrite Es, E, elem_of_app, elem_of_cons. intros [Hy|[->|Hy]]; [exists y|exists x|exists y]; rewrite elem_of_app, elem_of_cons; eauto 8.
  - by apply explained_same.
Qed.

(** What precedes the answer: the query is active and is changed only in what the
    reply changes. *)
Definition touched (c : dns_ctx) (q : dns_query) : Prop :=
  exists a x b, dnsc_qactive c = a ++ x :: b /\ dnsq_addr q = dnsq_addr x /\ dnsq_cbdata q = dnsq_cbdata x /\
    dnsq_parse q = dnsq_parse x /\ dnsq_deadline q = dnsq_deadline x.

Lemma touched_member c q : touched c q -> member c q.
Proof. intros (a & x & b & ? & ? & ? & ? & _). by exists a, x, b. Qed.

(** The event that a reply causes. *)
Definition reply_event (q : dns_query) (c c' : dns_ctx) : Prop :=
  dnsc_events c' = dnsc_events c \/ (exists servi pkt, dnsc_events c' = dnsc_events c ++ [Sent servi pkt]) \/
  exists s, s < 0 /\ dnsc_events c' = dnsc_events c ++ [Callback (dnsq_cbdata q) s None].

Lemma send_reply_event q q' c c' : dnsq_cbdata q' = dnsq_cbdata q -> send_event c q' c' -> reply_event q c c'.
Proof. intros Hd [He|He]; right; [right; exists DNS_E_TEMPFAIL; rewrite <- Hd; done|by left]. Qed.

Lemma query_ok_serv q w s n :
  query_ok cf srch q -> (forall i, (dnsc_nserv cf <= i)%nat -> has w (bit i) = false) -> query_ok cf srch (set_serv q w s n).
Proof. intros Hq Hw. apply (query_ok_same cf srch q); [done|by split|apply Hq|done|apply Hq]. Qed.

Lemma touched_serv c q w s n : touched c q -> touched c (set_serv q w s n).
Proof. intros (a & x & b & ? & ? & ? & ?). by exists a, x, b. Qed.

Lemma reply_skip_ok c q servi now :
  ctx_ok cf srch c -> query_ok cf srch q -> touched c q -> 0 <= now ->
  exists c', reply_skip cf c q servi now = Ret c' /\ evolves cf srch c c' /\ reply_event q c c'.
Proof.
  intros Hc Hq Hm Hnow. unfold reply_skip. set (q' := set_serv _ _ _ _).
  assert (query_ok cf srch q') as Hq' by (apply query_ok_serv; [done|apply Hq]). assert (touched c q') as Hm' by by apply touched_serv.
  destruct (_ =? 0).
  - destruct (dns_send_ok cf srch Hcf c q' now Hc (touched_member _ _ Hm') Hq' Hnow) as (c' & -> & Hev & _ & He). exists c'.
    split; [done|]. split; [done|]. by eapply send_reply_event.
  - destruct Hm' as (a & x & b & E & Ha & Hd & Hpa & Hdl). exists (store c q'). split; [done|]. split; [by eapply store_ok|by left].
Qed.

(** The next name of the search list is sent, or the query ends. *)
Lemma reply_next_ok c q now status f :
  ctx_ok cf srch c -> query_ok cf srch q -> touched c q -> 0 <= now -> (forall q, status q < 0) ->
  exists c', (let! (more, c, q) := dns_next_srch cf c q in
              if more then dns_send cf c (set_flags q (f q)) now else dns_end_query c q (status q) None) = Ret c' /\
    evolves cf srch c c' /\ reply_event q c c'.
Proof.
  intros Hc Hq (a & x & b & E & Ha & Hd & Hpa & Hdl) Hnow Hst. destruct (qk_name _ _ _ Hq) as (orig & cur & Hn).
  destruct (dns_next_srch_ok cf srch Hcf c q orig cur Hq Hn) as (more & j & i & q' & -> & Hq' & [Na Nd Nt Np No Ndl] & _). cbn [res_bind].
  assert (ctx_ok cf srch (set_rng c j i)) as Hc1 by (by destruct Hc).
  assert (member (set_rng c j i) q') as Hm by (exists a, x, b; by rewrite Na, Nd, Np).
  destruct more.
  - destruct (dns_send_ok cf srch Hcf (set_rng c j i) (set_flags q' (f q')) now Hc1 Hm) as (c' & -> & Hev & _ & He); [|done|].
    { apply (query_ok_same cf srch q'); [done|by split|apply Hq'|apply Hq'|apply Hq']. }
    exists c'. split; [done|]. split; [exact Hev|]. exact (send_reply_event q _ (set_rng c j i) c' Nd He).
  - destruct (dns_end_query_ok cf srch (set_rng c j i) q' (status q') None Hc1 Hm) as (c' & -> & Hev & _ & He).
    { rewrite (proj2 (Z.ltb_lt _ _)) by apply Hst. done. }
    { done. }
    exists c'. split; [done|]. split; [exact Hev|]. right. right. exists (status q'). split; [done|]. by rewrite <- Nd.
Qed.

(** ** The question *)

Lemma sub_iff m i l : sub m i l <-> take (length l) (drop i m) = l /\ (i + length l <= length m)%nat.
Proof.
  split.
  - intros (pre & post & -> & <-). rewrite drop_app_length, take_app_length, !length_app. split; [done|lia].
  - intros [H Hl]. rewrite <- H. apply sub_slice. done.
Qed.

(** Only the packet counts, not what is after it in the buffer. *)
Lemma sub_prefix data junk i l : (i + length l <= length data)%nat -> sub (data ++ junk) i l <-> sub data i l.
Proof.
  intros H. rewrite !sub_iff, length_app, drop_app_le by lia. rewrite take_app_le by (rewrite length_drop; lia).
  split; intros [? _]; (split; [done|lia]).
Qed.
Lemma rd_prefix data junk i : (i < length data)%nat -> rd (data ++ junk) i = rd data i.
Proof. intros H. unfold rd. by rewrite lookup_app_l. Qed.

Lemma name_at_prefix data junk p j ls q : name_at (data ++ junk) (length data) p j ls q <-> name_at data (length data) p j ls q.
Proof.
  split; induction 1 as [p Hp H0|p l j ls q Hp Hl Hlen Hs Hfit Hn IH|p c c2 j ls q Hp Hc Hj Hc2 Hto Hn IH];
    first [rewrite rd_prefix in H0 by lia|rewrite rd_prefix in Hl by lia; apply sub_prefix in Hs; [|lia]|
           rewrite rd_prefix in Hc by lia; rewrite rd_prefix in Hc2 by lia|
           rewrite <- (rd_prefix _ junk) in H0 by lia|rewrite <- (rd_prefix _ junk) in Hl by lia; apply (sub_prefix _ junk) in Hs; [|lia]|
           rewrite <- (rd_prefix _ junk) in Hc by lia; rewrite <- (rd_prefix _ junk) in Hc2 by lia];
    by econstructor.
Qed.

Lemma no_long_prefix data junk : no_long_name data (length data) -> no_long_name (data ++ junk) (length data).
Proof. intros H cur ls q (j & Hn & Hj). apply (H cur ls q). exists j. by rewrite name_at_prefix in Hn. Qed.
Lemma uncompressed_prefix data junk : uncompressed data (length data) -> uncompressed (data ++ junk) (length data).
Proof. intros H j ls q Hn. eapply H. by apply (name_at_prefix data junk). Qed.

(** A name without jumps lies in the packet. *)
Lemma name_at_flat pkt ne p ls q : name_at pkt ne p 0 ls q -> sub pkt p (wire ls).
Proof.
  intros H. remember 0%nat as j eqn:Hj. revert Hj. induction H as [p Hp H0|p l j ls q Hp Hl Hlen Hs Hfit Hn IH|]; intros Hj; [..|done].
  - unfold rd in H0. destruct (pkt !! p) eqn:E; [|done]. injection H0 as ->. apply sub_iff. cbn. rewrite (drop_S _ _ _ E). split; [done|]. apply lookup_lt_Some in E. lia.
  - specialize (IH Hj). unfold rd in Hl. destruct (pkt !! p) eqn:E; [|done]. injection Hl as ->. rewrite wire_cons.
    apply sub_iff in Hs as [Hs1 Hs2]. apply sub_iff in IH as [Hi1 Hi2]. apply sub_iff. cbn [length]. rewrite length_app. split; [|lia].
    rewrite (drop_S _ _ _ E). cbn [take]. f_equal. rewrite <- (firstn_skipn (length l) (drop (S p) pkt)) at 1. rewrite Hs1, take_app_add, drop_drop.
    f_equal. rewrite <- Hi1 at 2. done.
Qed.

(** The question of the packet is the one of [q]. *)
Definition same_question (pkt : list Z) (r pcur : nat) (q : dns_query) : Prop :=
  exists orig cur qs, query_name q orig cur /\ readable pkt r dns_payload (DNS_MAXDN - 1) qs pcur /\ same_name qs cur /\
    (pcur + 4 <= r)%nat /\ sub pkt pcur (dnsq_typcls q).

Lemma match_question_spec pkt r q :
  Forall is_byte pkt -> (12 <= r <= length pkt)%nat -> no_long_name pkt r -> query_ok cf srch q ->
  exists o rcode, match_question pkt r q = Ret o /\ dns_rcode pkt = Ret rcode /\
    match o with
    | Some pcur => same_question pkt r pcur q \/ (dns_numqd pkt = Ret 0 /\ rcode = DNS_R_FORMERR)
    | None => True
    end.
Proof.
  intros Hb Hr Hlong Hq. unfold match_question. destruct (dns_get16_byte pkt 4 Hb) as (n & Hn & _); [lia|]. unfold dns_numqd in *. rewrite Hn.
  destruct (rd_byte pkt 3 Hb) as (f & Hf & _); [lia|]. unfold dns_rcode. rewrite Hf. cbn [res_bind].
  destruct (Z.eqb_spec n 0) as [->|Hn0]; cbn [negb].
  { destruct (Z.eqb_spec (Z.land f 15) DNS_R_FORMERR) as [E|]; cbn [negb]; eexists _, _; (split; [done|]); (split; [done|]); [|done]. right. done. }
  destruct (dns_getdn_buf pkt r Hb ltac:(lia) Hlong (blank DNS_MAXDN) dns_payload ltac:(done)) as [(qs & pcur & Hrd & ->)|[_ (s & buf & -> & Hs & _)]]; cbn [res_bind].
  - rewrite (proj2 (Z.ltb_ge _ _)) by lia. cbn [orb]. destruct (Nat.ltb_spec r (pcur + 4)); [by eexists _, _|].
    destruct (qk_name _ _ _ Hq) as (orig & cur & Hname). pose proof Hname as (_ & _ & _ & [Hwf _] & Hsub).
    assert (wf_name qs) as [Hwqs Hlqs] by (eapply readable_wf, Hrd; [done|lia|unfold DNS_MAXDN; lia]).
    rewrite (dns_dnequal_wire _ _ _ _ qs cur); [|done|done|apply patch_sub; lia|done]. cbn [res_bind].
    case_bool_decide as Hsame; [|by eexists _, _]. rewrite (proj2 (Nat.eqb_neq _ 0)) by (rewrite length_wire; lia). cbn [orb].
    destruct (same4 pkt pcur (dnsq_typcls q)) eqn:H4; cbn [negb]; [|by eexists _, _]. eexists _, _. split; [done|]. split; [done|]. left.
    exists orig, cur, qs. split_and!; try done. unfold same4 in H4. apply bool_decide_eq_true in H4. destruct (qk_typcls _ _ _ Hq) as [Ht _].
    apply sub_iff. rewrite Ht. split; [|lia]. rewrite H4. apply take_ge. lia.
  - rewrite (proj2 (Z.ltb_lt s 0)) by lia. cbn [orb]. by eexists _, _.
Qed.

(** ** The answer *)

Context (malloc : nat -> bool).

(** The callback gets what the reply of [r] bytes holds for the query. *)
Definition answered (pkt : list Z) (r pcur : nat) (q : dns_query) (c c' : dns_ctx) : Prop :=
  exists s res, dnsc_events c' = dnsc_events c ++ [Callback (dnsq_cbdata q) s res] /\
    match res with
    | None => s < 0
    | Some (Parsed rr) => 0 <= s /\ exists f, dnsq_parse q = Some f /\ f (DnMem (dnsq_dn q) 0) pkt pcur r = Ret (s, Some rr)
    | Some (Raw p) => dnsq_parse q = None /\ p = take r pkt /\ s = Z.of_nat r
    end.

Lemma end_answer c q s (res : option query_result) :
  ctx_ok cf srch c -> touched c q -> (s <? 0) = negb (bool_decide (is_Some res)) -> result_of q s res ->
  exists c', dns_end_query c q s res = Ret c' /\ evolves cf srch c c' /\ dnsc_events c' = dnsc_events c ++ [Callback (dnsq_cbdata q) s res].
Proof.
  intros Hc Hm Hs Hres. destruct (dns_end_query_ok cf srch c q s res Hc (touched_member _ _ Hm) Hs Hres) as (c' & -> & Hev & _ & He). by exists c'.
Qed.

Lemma reply_noerror_ok c q pcur r now :
  ctx_ok cf srch c -> query_ok cf srch q -> touched c q -> 0 <= now -> (12 <= r <= length (dnsc_pbuf c))%nat ->
  no_long_name (dnsc_pbuf c) r -> uncompressed (dnsc_pbuf c) r -> same_question (dnsc_pbuf c) r pcur q ->
  exists c', reply_noerror cf malloc c q pcur r now = Ret c' /\ evolves cf srch c c' /\
    (reply_event q c c' \/ answered (dnsc_pbuf c) r pcur q c c').
Proof.
  intros Hc Hq Hm Hnow Hr Hlong Hunc (orig & cur & qs & (_ & _ & _ & Hwcur & Hscur) & (j & Hname & Hj & Hl) & _ & Hp4 & Htc).
  destruct (ck_pbuf _ _ _ Hc) as [_ Hb]. unfold reply_noerror. destruct (dns_get16_byte (dnsc_pbuf c) 6 Hb) as (n & Hn & _); [lia|].
  unfold dns_numan. rewrite Hn. cbn [res_bind]. destruct (n =? 0).
  { destruct (reply_next_ok c q now (fun _ => DNS_E_NODATA) (fun q => Z.lor (dnsq_flags q) DNS_SEEN_NODATA) Hc Hq Hm Hnow) as (c' & -> & Hev & He);
      [done|]. exists c'. split; [done|]. split; [done|by left]. }
  pose proof (Hunc _ _ _ Hname) as ->.
  assert (wf_name qs) as Hwqs by (split; [by eapply name_at_wf|rewrite length_wire; unfold DNS_MAXDN in *; lia]).
  destruct (dnsq_parse q) as [f|] eqn:Hf.
  - destruct (qk_parse _ _ _ Hq f Hf (dnsc_pbuf c) r (dnsq_dn q) cur qs pcur) as (s & o & Hfr & Hso); try done; [lia|by eapply name_at_flat|].
    rewrite Hfr. cbn [res_bind]. destruct (Z.ltb_spec s 0) as [Hs|Hs].
    + destruct (end_answer c q s None Hc Hm) as (c' & -> & Hev & He); [by rewrite (proj2 (Z.ltb_lt _ _))|done|]. exists c'.
      split; [done|]. split; [done|]. right. by exists s, None.
    + destruct o as [rr|]; [|by destruct Hso as [?|[? ?]]; [lia|]]. cbn [fmap option_fmap option_map].
      destruct (end_answer c q s (Some (Parsed rr)) Hc Hm) as (c' & -> & Hev & He); [rewrite (proj2 (Z.ltb_ge _ _)) by done; done|by eexists f, _, _, _, _|].
      exists c'.
      split; [done|]. split; [done|]. right. exists s, (Some (Parsed rr)). split; [done|]. split; [done|]. by exists f.
  - destruct (malloc r).
    + destruct (end_answer c q (Z.of_nat r) (Some (Raw (take r (dnsc_pbuf c)))) Hc Hm) as (c' & -> & Hev & He);
        [rewrite (proj2 (Z.ltb_ge _ _)) by lia; done|done|]. exists c'. split; [done|]. split; [done|]. right. eexists _, _. split; [exact He|]. done.
    + destruct (end_answer c q DNS_E_NOMEM None Hc Hm) as (c' & -> & Hev & He); [done|done|]. exists c'. split; [done|]. split; [done|]. right.
      eexists _, None. split; [exact He|]. done.
Qed.

Lemma reply_rcode_ok c q servi pcur r now :
  ctx_ok cf srch c -> q ∈ dnsc_qactive c -> 0 <= now -> (12 <= r <= length (dnsc_pbuf c))%nat -> (servi < dnsc_nserv cf)%nat ->
  no_long_name (dnsc_pbuf c) r -> uncompressed (dnsc_pbuf c) r ->
  (same_question (dnsc_pbuf c) r pcur q \/ dns_rcode (dnsc_pbuf c) = Ret DNS_R_FORMERR) ->
  exists c', reply_rcode cf malloc c q servi pcur r now = Ret c' /\ evolves cf srch c c' /\
    (reply_event q c c' \/ answered (dnsc_pbuf c) r pcur q c c').
Proof.
  intros Hc Hin Hnow Hr Hsv Hlong Hunc Hquest. destruct (ck_pbuf _ _ _ Hc) as [_ Hb]. unfold reply_rcode.
  assert (query_ok cf srch q) as Hq0 by (pose proof (ck_queries _ _ _ Hc) as H; rewrite Forall_forall in H; by apply H).
  assert (touched c q) as Hm0 by (apply list_elem_of_split in Hin as (a & b & E); by exists a, q, b).
  set (q1 := set_serv q _ _ _).
  assert (query_ok cf srch q1) as Hq.
  { apply query_ok_serv; [done|]. intros i Hi. rewrite has_testbit, Z.land_spec. rewrite <- has_testbit. by rewrite (qk_wait _ _ _ Hq0 i Hi). }
  assert (touched c q1) as Hm by by apply touched_serv.
  destruct (rd_byte (dnsc_pbuf c) 3 Hb) as (f2 & Hf2 & _); [lia|]. destruct (rd_byte (dnsc_pbuf c) 2 Hb) as (f1 & Hf1 & _); [lia|].
  unfold dns_rcode, dns_tc in *. rewrite Hf2 in *. rewrite Hf1. cbn [res_bind] in *.
  assert (forall c', reply_event q1 c c' -> reply_event q c c') as Hev1 by done.
  assert (forall c', answered (dnsc_pbuf c) r pcur q1 c c' -> answered (dnsc_pbuf c) r pcur q c c') as Hev2 by done.
  destruct (Z.eqb_spec (Z.land f2 15) DNS_R_NOERROR) as [E0|_].
  - destruct Hquest as [Hquest|[= E]]; [|rewrite E in E0; done]. destruct (Z.land f1 2 =? 0); cbn [negb].
    + destruct (reply_noerror_ok c q1 pcur r now Hc Hq Hm Hnow Hr Hlong Hunc) as (c' & -> & Hev & He); [done|]. exists c'.
      split; [done|]. split; [done|]. by destruct He; [left|right].
    + destruct (reply_skip_ok c q1 servi now Hc Hq Hm Hnow) as (c' & -> & Hev & He). exists c'. split; [done|]. split; [done|]. by left.
  - destruct (_ =? DNS_R_NXDOMAIN).
    + destruct (reply_next_ok c q1 now (fun q => if has (dnsq_flags q) DNS_SEEN_NODATA then DNS_E_NODATA else DNS_E_NXDOMAIN) dnsq_flags Hc Hq Hm Hnow)
        as (c' & Hr' & Hev & He); [intros; by case_match|]. exists c'. split; [|split; [done|by left]]. rewrite <- Hr'.
      destruct (dns_next_srch cf c q1) as [[[[|] c1] []]| | |]; done.
    + destruct (_ && _).
      * destruct (dns_send_this_ok cf srch Hcf c (set_serv q1 (dnsq_servwait q1) (dnsq_servskip q1) (Z.lor (dnsq_servnEDNS0 q1) (bit servi))) servi now Hc)
          as (c' & -> & Hev & _ & He); [by apply touched_member, touched_serv|apply query_ok_serv; [done|apply Hq]|done|done|].
        exists c'. split; [done|]. split; [done|]. left. destruct He as [He|(o & cu & _ & He)]; right; [right; by exists DNS_E_TEMPFAIL|left; eauto].
      * destruct (reply_skip_ok c q1 servi now Hc Hq Hm Hnow) as (c' & -> & Hev & He). exists c'. split; [done|]. split; [done|]. by left.
Qed.

(** ** Packets that are received *)

Definition received (d : datagram) : list Z := take (dnsc_udpbuf cf) (dg_data d).

(** Replies without a name of 255 bytes and without jumps in the question. *)
Definition good_datagram (d : datagram) : Prop :=
  Forall is_byte (dg_data d) /\ no_long_name (received d) (length (received d)) /\ uncompressed (received d) (length (received d)).

(** The reply comes from a server that was asked, and its identifier and its
    question are the ones of the query, unless it is the refusal of a request
    without a question. *)
Definition genuine (d : datagram) (pcur : nat) (q : dns_query) : Prop :=
  rd (received d) 0 = Ret (fst (dnsq_id q)) /\ rd (received d) 1 = Ret (snd (dnsq_id q)) /\
  (exists servi from s, dg_from d = Some from /\ dnsc_serv cf !! servi = Some s /\ sin_eq s from = true /\ has (dnsq_servwait q) (bit servi) = true) /\
  (same_question (received d) (length (received d)) pcur q \/
   (dns_numqd (received d) = Ret 0 /\ dns_rcode (received d) = Ret DNS_R_FORMERR)).

Lemma find_server_spec l from : (find_server l from < length l)%nat -> exists s, l !! find_server l from = Some s /\ sin_eq s from = true.
Proof.
  induction l as [|s l IH]; cbn; [lia|]. destruct (sin_eq s from) eqn:E; intros H; [by exists s|]. apply IH. lia.
Qed.

Lemma find_server_le l from : (find_server l from <= length l)%nat.
Proof. induction l as [|s l IH]; cbn; [lia|]. case_match; lia. Qed.

Lemma get16_prefix data junk i : (i + 1 < length data)%nat -> dns_get16 (data ++ junk) i = dns_get16 data i.
Proof. intros H. unfold dns_get16. by rewrite !rd_prefix by lia. Qed.

Lemma same_question_prefix data junk pcur q : (length data <= length (data ++ junk))%nat -> query_ok cf srch q ->
  same_question (data ++ junk) (length data) pcur q -> same_question data (length data) pcur q.
Proof.
  intros _ Hq (orig & cur & qs & Hn & (j & Hna & Hj) & Hs & Hp & Htc). exists orig, cur, qs. split; [done|].
  split; [exists j; by rewrite name_at_prefix in Hna|]. split; [done|]. split; [done|]. destruct (qk_typcls _ _ _ Hq) as [Ht _].
  apply (sub_prefix data junk); [lia|done].
Qed.

(** What a packet does: nothing, or it is the reply to a query. *)
Definition reply_outcome (d : datagram) (c c' : dns_ctx) : Prop :=
  (dnsc_qactive c' = dnsc_qactive c /\ dnsc_events c' = dnsc_events c) \/
  exists q pcur junk, q ∈ dnsc_qactive c /\ genuine d pcur q /\
    (reply_event q c c' \/ answered (received d ++ junk) (length (received d)) pcur q c c').

Lemma patch_front m l : (length l <= length m)%nat -> patch m 0 l = l ++ drop (length l) m.
Proof. done. Qed.

Lemma dns_reply_ok c d now :
  ctx_ok cf srch c -> good_datagram d -> 0 <= now ->
  exists c', dns_reply cf malloc c d now = Ret c' /\ evolves cf srch c c' /\ reply_outcome d c c'.
Proof.
  intros Hc (Hdb & Hlong & Hunc) Hnow. unfold dns_reply. fold (received d). set (data := received d) in *.
  destruct (ck_pbuf _ _ _ Hc) as [Hpl Hpb].
  assert (length data <= length (dnsc_pbuf c))%nat as Hlen by (rewrite Hpl; unfold data, received; rewrite length_take; lia).
  rewrite wr_all_bytes by done. cbn [res_bind]. rewrite patch_front by done. set (junk := drop (length data) (dnsc_pbuf c)).
  assert (Forall is_byte (data ++ junk)) as Hb by (apply Forall_app; split; [by apply Forall_take|by apply Forall_drop]).
  assert (length (data ++ junk) = dnsc_udpbuf cf) as Hl by (unfold junk; rewrite length_app, length_drop; lia).
  set (c1 := set_pbuf c (data ++ junk)). assert (ctx_ok cf srch c1) as Hc1 by (destruct Hc; by split).
  assert (exists c', Ret c1 = Ret c' /\ evolves cf srch c c' /\ reply_outcome d c c') as Hdrop by (exists c1; split; [done|]; split; [by apply evolves_same|by left]).
  destruct (Nat.ltb_spec (length data) dns_payload) as [|Hge]; [done|]. unfold dns_payload, DNS_HSIZE in Hge.
  destruct (dns_get16_byte (data ++ junk) 4 Hb) as (nq & Hnq & _); [lia|]. unfold dns_numqd at 1. rewrite Hnq. cbn [res_bind].
  destruct (rd_byte (data ++ junk) 2 Hb) as (f1 & Hf1 & _); [lia|]. unfold dns_opcode. rewrite Hf1. cbn [res_bind].
  destruct (_ || _); [done|]. destruct (rd_byte (data ++ junk) 0 Hb) as (i0 & Hi0 & _); [lia|]. destruct (rd_byte (data ++ junk) 1 Hb) as (i1 & Hi1 & _); [lia|].
  rewrite Hi0, Hi1. cbn [res_bind]. destruct (find_query c1 i0 i1) as [q|] eqn:Hfind; [|done].
  apply find_some in Hfind as [Hin Hid]. apply list_elem_of_In in Hin. apply andb_true_iff in Hid as [E0%Z.eqb_eq E1%Z.eqb_eq].
  assert (query_ok cf srch q) as Hq by (pose proof (ck_queries _ _ _ Hc1) as H; rewrite Forall_forall in H; by apply H).
  pose proof (no_long_prefix data junk Hlong) as Hlong'. pose proof (uncompressed_prefix data junk Hunc) as Hunc'.
  destruct (match_question_spec (data ++ junk) (length data) q Hb ltac:(lia) Hlong' Hq) as (o & rcode & -> & Hrc & Ho). cbn [res_bind].
  destruct o as [pcur|]; [|done]. set (servi := match dg_from d with Some s => _ | None => _ end).
  destruct (has (dnsq_servwait q) (bit servi)) eqn:Hw; cbn [negb]; [|done].
  assert (servi < dnsc_nserv cf)%nat as Hsv.
  { destruct (Nat.lt_ge_cases servi (dnsc_nserv cf)) as [|Hge']; [done|]. rewrite (qk_wait _ _ _ Hq servi Hge') in Hw. done. }
  destruct (reply_rcode_ok c1 q servi pcur (length data) now Hc1 Hin Hnow) as (c' & Hr & Hev & He); try done; [cbn; lia|by destruct Ho as [?|[_ ->]]; [left|right]|].
  exists c'. split; [exact Hr|]. split; [exact Hev|]. right. exists q, pcur, junk. split; [exact Hin|]. split; [|exact He].
  rewrite rd_prefix in Hi0, Hi1 by lia. rewrite E0 in Hi0. rewrite E1 in Hi1. split; [done|]. split; [done|]. split.
  - unfold servi in *. destruct (dg_from d) as [from|]; [|lia]. destruct (find_server_spec (dnsc_serv cf) from Hsv) as (s & Hs & Heq). by eexists _, from, s.
  - destruct Ho as [Ho|[Hn ->]]; [left; by eapply same_question_prefix; [|..]; [rewrite length_app; lia|..]|right].
    unfold dns_numqd in *. rewrite get16_prefix in Hn by lia. split; [done|]. unfold dns_rcode in *. by rewrite rd_prefix in Hrc by lia.
Qed.

Lemma dns_ioevent_ok l now : forall c,
  ctx_ok cf srch c -> Forall good_datagram l -> 0 <= now -> exists c', dns_ioevent cf malloc c l now = Ret c' /\ evolves cf srch c c'.
Proof.
  induction l as [|d l IH]; intros c Hc Hl Hnow; cbn [dns_ioevent].
  { eexists. split; [done|]. by apply request_utm_evolves. }
  apply Forall_cons in Hl as [Hd Hl]. destruct (dns_reply_ok c d now Hc Hd Hnow) as (c1 & -> & Hev & _). cbn [res_bind].
  destruct (IH c1) as (c' & -> & Hev'); [apply Hev|done|done|]. exists c'. split; [done|]. by eapply evolves_trans.
Qed.
End Spec.

(** ** Addresses *)

Lemma get16_put16 pkt i v post : sub pkt i (dns_put16 v ++ post) -> dns_get16 pkt i = Ret (v mod 65536).
Proof.
  intros Hs. unfold dns_get16, dns_put16 in *. cbn [app] in Hs. rewrite (sub_rd _ _ _ _ Hs). apply sub_tail, sub_rd in Hs.
  rewrite Nat.add_1_r, Hs. cbn [res_bind]. f_equal. change 255 with (Z.ones 8). rewrite !Z.land_ones by lia. change (2 ^ 8) with 256.
  rewrite Z.shiftr_div_pow2, Z.shiftl_mul_pow2 by lia. change (2 ^ 8) with 256.
  assert (Z.lor ((v / 256) mod 256 * 256) (v mod 256) = (v / 256) mod 256 * 256 + v mod 256) as ->.
  { assert (Z.land ((v / 256) mod 256 * 256) (v mod 256) = 0) as Hland; [|rewrite <- Z.lxor_lor by done; symmetry; by apply Z.add_nocarry_lxor].
    apply Z.bits_inj'. intros j Hj. rewrite Z.land_spec, Z.bits_0. change 256 with (2 ^ 8). destruct (Z.lt_ge_cases j 8).
    - by rewrite Z.mul_pow2_bits_low by lia.
    - rewrite Z.mod_pow2_bits_high by lia. apply andb_false_r. }
  Z.to_euclidean_division_equations. lia.
Qed.

Lemma address_reply_result malloc dsize qs ok f :
  exists s o, address_reply malloc dsize qs ok f = Ret (s, o) /\ (s < 0 \/ is_Some o).
Proof.
  unfold address_reply. destruct f as [[[f cn] ttl]|]; [|eexists _, _; split; [done|]; left; by unfold DNS_E_PROTOCOL].
  repeat case_match; eexists _, _; (split; [done|]); first [left; by unfold DNS_E_PROTOCOL, DNS_E_NODATA, DNS_E_NOMEM|right; by eexists].
Qed.

(** What a routine for addresses makes of a reply. *)
Definition address_answer (malloc : nat -> bool) (dsize : nat) (typ : Z) (qn qs : list (list Z)) (pkt : list Z) (r pcur : nat)
    (res : res (Z * option dns_rr_a)) : Prop :=
  exists n l ok, dns_numan pkt = Ret n /\ answers pkt r (Z.to_nat n) (pcur + 4) l ok /\
    res = address_reply malloc dsize qs ok (search DNS_C_IN typ qn 0 4294967295 l).

Lemma dns_parse_a_spec malloc dsize typ pkt r dn qn qs pcur :
  0 <= typ < 65536 -> typ <> DNS_T_ANY ->
  Forall is_byte pkt -> (r <= length pkt)%nat -> no_long_name pkt r -> wf_name qn -> sub dn 0 (wire qn) ->
  wf_name qs -> sub pkt dns_payload (wire qs) -> (pcur + 4 <= r)%nat -> sub pkt pcur (dns_put16 typ ++ dns_put16 DNS_C_IN) ->
  dns_get16 pkt pcur = Ret typ /\ dns_get16 pkt (pcur + 2) = Ret DNS_C_IN /\
  address_answer malloc dsize typ qn qs pkt r pcur (dns_parse_a malloc (DnMem dn 0) pkt pcur r dsize).
Proof.
  intros Htyp Hany Hb Hr Hlong Hqn Hs Hqs Hpay Hpc Htc. pose proof (get16_put16 _ _ _ _ Htc) as H1. apply sub_app in Htc as [_ Htc].
  rewrite <- (app_nil_r (dns_put16 DNS_C_IN)) in Htc. pose proof (get16_put16 _ _ _ _ Htc) as H2. cbn [length dns_put16] in H2.
  rewrite Z.mod_small in H1 by lia. change (DNS_C_IN mod 65536) with DNS_C_IN in H2. split; [done|]. split; [done|].
  assert (length (wire qs) + 12 <= length pkt)%nat as Hl by (apply sub_length in Hpay; unfold dns_payload, DNS_HSIZE in Hpay; lia).
  destruct (dns_get16_byte pkt 6 Hb) as (n & Hn & _); [lia|]. destruct (answers_total pkt r (Z.to_nat n) (pcur + 4) Hb Hr Hlong) as (l & ok & Hans).
  exists n, l, ok. split; [done|]. split; [done|].
  rewrite (dns_parse_a_answers malloc dn 0 qn qs pkt pcur r dsize typ DNS_C_IN n l ok) by done.
  unfold any_of at 2. by rewrite (proj2 (Z.eqb_neq typ DNS_T_ANY)) by done.
Qed.

Lemma parse_a4_ok malloc : parser_ok (dns_parse_a4 malloc) (dns_put16 DNS_T_A ++ dns_put16 DNS_C_IN).
Proof.
  intros pkt r dn qn qs pcur Hb Hr Hlong Hqn Hs Hqs Hpay Hpc Htc. unfold dns_parse_a4.
  destruct (dns_parse_a_spec malloc 4 DNS_T_A pkt r dn qn qs pcur) as (H1 & H2 & n & l & ok & _ & _ & E); try done.
  rewrite H1, H2. cbn [res_bind]. cbn. rewrite E. apply address_reply_result.
Qed.

Lemma parse_a6_ok malloc : parser_ok (dns_parse_a6 malloc) (dns_put16 DNS_T_AAAA ++ dns_put16 DNS_C_IN).
Proof.
  intros pkt r dn qn qs pcur Hb Hr Hlong Hqn Hs Hqs Hpay Hpc Htc. unfold dns_parse_a6.
  destruct (dns_parse_a_spec malloc 16 DNS_T_AAAA pkt r dn qn qs pcur) as (H1 & H2 & n & l & ok & _ & _ & E); try done.
  rewrite H1, H2. cbn [res_bind]. cbn. rewrite E. apply address_reply_result.
Qed.


(** A reply: "a" is an alias of "b", whose address is 10.0.0.1. *)
Definition sample_reply : list Z :=
  [0; 1; 128; 0; 0; 1; 0; 2; 0; 0; 0; 0; 1; 97; 0; 0; 1; 0; 1;
   192; 12; 0; 5; 0; 1; 0; 0; 0; 9; 0; 3; 1; 98; 0;
   192; 31; 0; 1; 0; 1; 0; 0; 0; 60; 0; 4; 10; 0; 0; 1].


(** A reply whose question is a jump: the text of the raw question is longer than
    what is allocated, and the result is written past its end. *)
Definition jump_reply : list Z :=
  [0; 1; 128; 0; 0; 1; 0; 1; 0; 0; 0; 0; 192; 34; 0; 1; 0; 1;
   192; 34; 0; 1; 0; 1; 0; 0; 0; 60; 0; 4; 10; 0; 0; 1; 1; 97; 0] ++ repeat 0 168 ++ [192] ++ repeat 0 306.

Example dns_parse_a4_overflow :
  dns_parse_a4 (fun _ => true) (DnMem [1; 97; 0] 0) jump_reply 14 512 = Abort "write out of bounds".
Proof. vm_compute. reflexivity. Qed.
