(* ===== verification/DnsRuns.v ===== *)
(** * Runs of the DNS resolver

    The resolver of [src/src/udns/udns_resolver.c] from its start: every query is
    answered exactly once, replies are checked, and without replies every query
    ends. *)

From S2P Require Import Prelude DnsName DnsText DnsPacket DnsAnswer DnsQlist DnsResolver DnsResolverInv DnsResolverSpec.
Local Open Scope cpp_scope.
Local Open Scope Z_scope.
#[local] Opaque dns_getdn.

(** A context after [dns_open]. *)
Definition opened (cf : dns_conf) (c : dns_ctx) : Prop :=
  dnsc_qactive c = [] /\ dnsc_nactive c = 0 /\ dnsc_events c = [] /\
  length (dnsc_pbuf c) = dnsc_udpbuf cf /\ Forall is_byte (dnsc_pbuf c).

Section Runs.
Context (cf : dns_conf) (malloc : nat -> bool).

(** What the program does with the resolver: the state, the callbacks of the
    queries that were submitted, and those of the queries that were cancelled. *)
Inductive reachable : dns_ctx -> list nat -> list nat -> Prop :=
| reach_open c : opened cf c -> reachable c [] []
| reach_a4 c sub can addr name flags data o c' :
    reachable c sub can -> addr ∉ dnsq_addr <$> dnsc_qactive c -> c_string name 0 0 ->
    dns_submit_a4 cf malloc c (Some addr) name flags data = Ret (o, c') ->
    reachable c' (match o with Some _ => data :: sub | None => sub end) can
| reach_a6 c sub can addr name flags data o c' :
    reachable c sub can -> addr ∉ dnsq_addr <$> dnsc_qactive c -> c_string name 0 0 ->
    dns_submit_a6 cf malloc c (Some addr) name flags data = Ret (o, c') ->
    reachable c' (match o with Some _ => data :: sub | None => sub end) can
| reach_timeouts c sub can maxwait now w c' :
    reachable c sub can -> 0 <= now -> dns_timeouts cf c maxwait now = Ret (w, c') -> reachable c' sub can
| reach_ioevent c sub can l now c' :
    reachable c sub can -> 0 <= now -> Forall (good_datagram cf) l -> dns_ioevent cf malloc c l now = Ret c' -> reachable c' sub can
| reach_cancel c sub can q c' :
    reachable c sub can -> q ∈ dnsc_qactive c -> dns_cancel cf c (dnsq_addr q) = Ret c' -> reachable c' sub (dnsq_cbdata q :: can).

Context (srch : list (list (list Z))) (Hcf : conf_ok cf srch).

Lemma opened_ok c : opened cf c -> ctx_ok cf srch c.
Proof. intros (Ha & Hn & _ & Hp & Hb). split; rewrite ?Ha; try done; constructor. Qed.

Lemma a4_typcls f : Some (dns_parse_a4 malloc) = Some f -> parser_ok f (dns_put16 DNS_T_A ++ dns_put16 DNS_C_IN).
Proof. intros [= <-]. apply parse_a4_ok. Qed.
Lemma a6_typcls f : Some (dns_parse_a6 malloc) = Some f -> parser_ok f (dns_put16 DNS_T_AAAA ++ dns_put16 DNS_C_IN).
Proof. intros [= <-]. apply parse_a6_ok. Qed.

Lemma resolver_reachable_ok c sub can : reachable c sub can -> ctx_ok cf srch c /\ called c ++ pending c ++ can ≡ₚ sub.
Proof.
  induction 1 as [c Ho|c sub can addr name flags data o c' _ [Hc IH] Hni Hname Hr|c sub can addr name flags data o c' _ [Hc IH] Hni Hname Hr
    |c sub can maxwait now w c' _ [Hc IH] Hnow Hr|c sub can l now c' _ [Hc IH] Hnow Hl Hr|c sub can q c' _ [Hc IH] Hq Hr].
  - split; [by apply opened_ok|]. destruct Ho as (Ha & _ & He & _). unfold called, pending. by rewrite He, Ha.
  - destruct (dns_submit_p_ok cf srch Hcf c addr name DNS_C_IN DNS_T_A flags _ data Hc Hni Hname a4_typcls) as (o' & c1 & E & Hc1 & Hcall & Ho).
    unfold dns_submit_a4 in Hr. rewrite E in Hr. injection Hr as -> ->. split; [done|]. rewrite Hcall. destruct o as [a|].
    + destruct Ho as (_ & -> & _). rewrite <- IH. cbn. by rewrite <- Permutation_middle.
    + destruct Ho as [Ha _]. unfold pending in *. by rewrite Ha.
  - destruct (dns_submit_p_ok cf srch Hcf c addr name DNS_C_IN DNS_T_AAAA flags _ data Hc Hni Hname a6_typcls) as (o' & c1 & E & Hc1 & Hcall & Ho).
    unfold dns_submit_a6 in Hr. rewrite E in Hr. injection Hr as -> ->. split; [done|]. rewrite Hcall. destruct o as [a|].
    + destruct Ho as (_ & -> & _). rewrite <- IH. cbn. by rewrite <- Permutation_middle.
    + destruct Ho as [Ha _]. unfold pending in *. by rewrite Ha.
  - destruct (dns_timeouts_ok cf srch Hcf c maxwait now Hc Hnow) as (w' & c1 & E & (Hc1 & Hp & _) & _). rewrite E in Hr. injection Hr as -> ->.
    split; [done|]. by rewrite app_assoc, Hp, <- app_assoc.
  - destruct (dns_ioevent_ok cf srch Hcf malloc l now c Hc Hl Hnow) as (c1 & E & (Hc1 & Hp & _)). rewrite E in Hr. injection Hr as ->.
    split; [done|]. by rewrite app_assoc, Hp, <- app_assoc.
  - destruct (dns_cancel_ok cf srch c q Hc Hq) as (c1 & E & Hc1 & Hcall & Hp & _). rewrite E in Hr. injection Hr as ->.
    split; [done|]. rewrite <- IH, Hcall, Hp. cbn. by rewrite <- Permutation_middle.
Qed.

(** ** Without replies *)

(** [dns_timeouts] at each of the times. *)
Fixpoint time_out (c : dns_ctx) (times : list Z) : res dns_ctx :=
  match times with
  | [] => Ret c
  | now :: times => let! (_, c) := dns_timeouts cf c (-1) now in time_out c times
  end.

(** The times are so far apart that everything has expired. *)
Fixpoint spaced (from : Z) (times : list Z) : Prop :=
  match times with [] => True | now :: times => from <= now /\ spaced (now + max_wait cf) times end.

Lemma time_out_ok times : forall c n from,
  ctx_ok cf srch c -> 0 <= from -> spaced from times -> (n <= length times)%nat ->
  Forall (fun q => dnsq_deadline q <= from /\ (potential cf q < n)%nat) (dnsc_qactive c) ->
  exists c', time_out c times = Ret c' /\ evolves cf srch c c' /\ dnsc_qactive c' = [].
Proof.
  induction times as [|now times IH]; intros c n from Hc Hfrom Hsp Hn Hall; cbn in *.
  { exists c. split; [done|]. split; [by apply evolves_same|]. destruct (dnsc_qactive c) as [|q l]; [done|]. apply Forall_cons in Hall as [[_ H] _]. lia. }
  destruct Hsp as [Hfn Hsp]. destruct (dns_timeouts_ok cf srch Hcf c (-1) now Hc ltac:(lia)) as (w & c1 & -> & Hev & Hw). cbn [res_bind].
  pose proof (max_wait_pos cf srch Hcf) as Hmw.
  destruct (IH c1 (n - 1)%nat (now + max_wait cf)) as (c' & -> & Hev' & Ha'); [apply Hev|lia|done|lia| |].
  - apply Forall_forall. intros q' Hq'. rewrite Forall_forall in Hall. destruct (Hw q' Hq') as [Hd [Hin|(Hdl & q & Hq & Hpot)]].
    + destruct (Hall q' Hin). lia.
    + split; [done|]. destruct (Hall q Hq). lia.
  - exists c'. split; [done|]. split; [by eapply evolves_trans|done].
Qed.

Lemma potential_bound q : ctx_ok cf srch q -> forall x, x ∈ dnsc_qactive q -> (potential cf x < dnsc_ntries cf * S (dnsc_nserv cf))%nat.
Proof. intros _ x _. pose proof (ok_ntries _ _ Hcf). unfold potential. nia. Qed.
End Runs.

(** ** The properties *)



(** C29: A packet changes nothing for the program unless it is the reply to an
    active query: it comes from a server that the query waits for, with the
    query's identifier, and its question has the query's name, type and class
    (or there is none, in a refusal).  Then at most one event follows: a packet
    that is sent, an error, or what the parsing routine of the query makes of
    the reply.  No packet without jumps in its question and without a name of
    255 bytes leads out of bounds. *)
Theorem dns_reply_spec (cf : dns_conf) (malloc : nat -> bool) (srch : list (list (list Z))) (c : dns_ctx) (sub can : list nat) (d : datagram) (now : Z) :
  conf_ok cf srch -> reachable cf malloc c sub can -> good_datagram cf d -> 0 <= now ->
  exists c', dns_reply cf malloc c d now = Ret c' /\ called c' ++ pending c' ≡ₚ called c ++ pending c /\ reply_outcome cf d c c'.
Proof.
  intros Hcf Hr Hd Hnow. destruct (resolver_reachable_ok cf malloc srch Hcf c sub can Hr) as [Hc _].
  destruct (dns_reply_ok cf srch Hcf malloc c d now Hc Hd Hnow) as (c' & -> & (_ & Hp & _) & Ho). by exists c'.
Qed.

(** ** An example *)

Definition sample_conf : dns_conf := Conf 0 4 3 1 512 [Sockaddr false 53 [127; 0; 0; 1]] [0] 0 false.
Definition sample_ctx : dns_ctx := Ctx (Jran 1 2 3 4) 256 (blank 512) [] 0 0 0 [] [].

Lemma sample_conf_ok : conf_ok sample_conf [].
Proof. split; cbn; try done; [by exists []|lia]. Qed.

Lemma sample_opened : opened sample_conf sample_ctx.
Proof.
  unfold opened. cbn [sample_ctx dnsc_qactive dnsc_nactive dnsc_events dnsc_pbuf sample_conf dnsc_udpbuf]. split_and!; try done.
  unfold blank. apply Forall_forall. intros x Hx%list_elem_of_In%repeat_spec. subst. by unfold is_byte.
Qed.

Definition after {A} (d : A) (m : res A) : A := match m with Ret a => a | _ => d end.

(** A query for "a" is submitted, and sent. *)
Definition sample_query : dns_ctx := (after (None, sample_ctx) (dns_submit_a4 sample_conf (fun _ => true) sample_ctx (Some 1%nat) [97; 0] 0 7)).2.
Definition sample_sent : dns_ctx := (after (0, sample_ctx) (dns_timeouts sample_conf sample_query (-1) 0)).2.
Definition sample_answer : list Z :=
  match dnsc_qactive sample_sent with q :: _ => fst (dnsq_id q) :: snd (dnsq_id q) :: drop 2 sample_reply | [] => [] end.
Definition sample_datagram : datagram := Datagram (Some (Sockaddr false 53 [127; 0; 0; 1])) sample_answer.

Lemma sample_query_reachable : reachable sample_conf (fun _ => true) sample_query [7%nat] [].
Proof.
  assert (c_string [97; 0] 0 0) as Hn.
  { split; [repeat constructor; vm_compute; done|]. cbn [Nat.eqb]. exists 1%nat. split; [by vm_compute|cbn; lia]. }
  assert (1%nat ∉ dnsq_addr <$> dnsc_qactive sample_ctx) as Hni by apply not_elem_of_nil.
  destruct (dns_submit_p_ok sample_conf [] sample_conf_ok sample_ctx 1 [97; 0] DNS_C_IN DNS_T_A 0 _ 7
    (opened_ok _ _ _ sample_opened) Hni Hn (a4_typcls (fun _ => true))) as (o & c & E & _).
  fold (dns_submit_a4 sample_conf (fun _ => true) sample_ctx (Some 1%nat) [97; 0] 0 7) in E.
  assert (o = Some 1%nat) as ->.
  { transitivity (after (None, sample_ctx) (dns_submit_a4 sample_conf (fun _ => true) sample_ctx (Some 1%nat) [97; 0] 0 7)).1; [by rewrite E|by vm_compute]. }
  apply (reach_a4 sample_conf (fun _ => true) sample_ctx [] [] 1 [97; 0] 0 7 (Some 1%nat)); [by constructor; apply sample_opened|done|done|].
  unfold sample_query. by rewrite E.
Qed.

Lemma sample_sent_reachable : reachable sample_conf (fun _ => true) sample_sent [7%nat] [].
Proof.
  destruct (resolver_reachable_ok _ _ _ sample_conf_ok _ _ _ sample_query_reachable) as [Hc _].
  destruct (dns_timeouts_ok sample_conf [] sample_conf_ok sample_query (-1) 0 Hc ltac:(lia)) as (w & c' & E & _).
  apply (reach_timeouts _ _ sample_query _ _ (-1) 0 w); [apply sample_query_reachable|lia|]. unfold sample_sent. by rewrite E.
Qed.

Lemma sample_datagram_good : good_datagram sample_conf sample_datagram.
Proof.
  assert (received sample_conf sample_datagram = sample_answer) as E by (vm_compute; reflexivity).
  assert (Forall is_byte sample_answer) as Hb.
  { replace sample_answer with (0 :: 1 :: drop 2 sample_reply) by (vm_compute; reflexivity). repeat constructor; vm_compute; done. }
  split; [done|]. rewrite E. split; [apply short_names_spec; [done|done|vm_compute; reflexivity]|].
  intros j ls q Hn. assert (name_at sample_answer (length sample_answer) dns_payload 0 [[97]] (dns_payload + length (wire [[97]]))) as Hn'.
  { apply name_at_wire; [repeat constructor; vm_compute; done| |vm_compute; lia].
    exists (take 12 sample_answer), (drop 15 sample_answer). split; vm_compute; reflexivity. }
  by destruct (name_at_unique _ _ _ _ _ _ Hn' _ _ _ Hn).
Qed.



(** The answer calls back with the address. *)
Lemma dns_reply_spec_witness :
  last (dnsc_events (after sample_ctx (dns_reply sample_conf (fun _ => true) sample_sent sample_datagram 0))) =
    Some (Callback 7 0 (Some (Parsed (RrA 4 6 9 1 [10; 0; 0; 1; 98; 0; 97; 0])))) /\
  exists c', dns_reply sample_conf (fun _ => true) sample_sent sample_datagram 0 = Ret c' /\
    called c' ++ pending c' ≡ₚ called sample_sent ++ pending sample_sent /\ reply_outcome sample_conf sample_datagram sample_sent c'.
Proof.
  split; [vm_compute; reflexivity|].
  apply (dns_reply_spec sample_conf (fun _ => true) [] sample_sent [7%nat] [] sample_datagram 0 sample_conf_ok sample_sent_reachable sample_datagram_good).
  lia.
Defined.
