(* ===== verification/AsyncResolver.v ===== *)
(** * The asynchronous resolver

    Models [src/src/Resolver.cpp], [src/include/futures/dns/Resolver.h] and
    [src/include/futures/dns/ResolverFuture.h]: futures for the addresses of a
    host, over the resolver of [src/src/udns/] and the completion tokens of
    [IoObject].  A callback of the resolver changes a token and wakes its task but
    does not call the resolver, so the callbacks of a call run after it, in their
    order.  A callback for a token that is gone is an [Abort]. *)

From S2P Require Import Prelude Core Channels IoObject DnsName DnsText DnsPacket DnsAnswer DnsQlist DnsResolver DnsResolverInv DnsResolverSpec DnsRuns.
Local Open Scope cpp_scope.
#[local] Opaque dns_getdn.

(** [src/include/futures/dns/Resolver.h:31-34] AsyncResolver::RecordType *)
Inductive RecordType := TypeA4 | TypeA6.
#[global] Instance RecordType_eq_dec : EqDecision RecordType.
Proof. solve_decision. Defined.

(** [src/include/futures/dns/Resolver.h:36-39] AsyncResolver::ResolveFlags *)
Definition EnableTypeA4 : Z := 1.
Definition EnableTypeA6 : Z := 2.

Definition slot (ty : RecordType) : nat := match ty with TypeA4 => 0 | TypeA6 => 1 end.

Inductive IPAddress := IPAddressV4 (a : list Z) | IPAddressV6 (a : list Z).

(** The queries in progress, by the address of their structure. *)
(** [src/include/futures/dns/Resolver.h:49-51] AsyncResolver::CompletionToken *)
Record Resolve := mkResolve { queries : list (option nat); addrs_ : list IPAddress }.
(** [src/include/futures/dns/Resolver.h:53-56] CompletionToken::CompletionToken *)
Definition newResolve : Resolve := mkResolve (replicate 4 None) [].

(** [src/include/futures/dns/Resolver.h:104-110] AsyncResolver *)
Record AsyncResolver := mkResolver { obj : IOObject Resolve; ctx_ : dns_ctx }.

(** What is registered with a query: one of the two callbacks, and the token. *)
Definition callback_of (ty : RecordType) (i : nat) : nat := 2 * i + slot ty.
Definition callback_type (d : nat) : RecordType := if Nat.even d then TypeA4 else TypeA6.
Definition callback_token (d : nat) : nat := Nat.div2 d.

Section Resolver.
Context (cf : dns_conf) (malloc : nat -> bool).

(** ** The token *)

(** [src/include/futures/dns/Resolver.h:92-96] CompletionToken::hasPending *)
Definition tok_hasPending (d : Resolve) : bool := existsb (fun e => match e with Some _ => true | None => false end) (queries d).

(** [src/include/futures/dns/Resolver.h:58-63] CompletionToken::checkPending *)
Definition checkPending (i : nat) (o : IOObject Resolve) : res (IOObject Resolve) :=
  with_tok i o (fun t => if tok_hasPending (data t) then Ret o else notifyDone i o).

(** [q[k] = v] *)
Definition set_query (k : nat) (v : option nat) (d : Resolve) : Resolve := mkResolve (<[k := v]> (queries d)) (addrs_ d).

(** The addresses are moved out. *)
(** [src/include/futures/dns/Resolver.h:65-75] CompletionToken::poll *)
Definition tok_poll (cur : option Task) (i : nat) (s : AsyncResolver) : res (Poll (list IPAddress) * AsyncResolver) :=
  with_tok i (obj s) (fun t =>
    match s_ t with
    | STARTED => let! o := park cur i (obj s) in Ret (not_ready, mkResolver o (ctx_ s))
    | DONE => let! o := setData (mkResolve (queries (data t)) []) i (obj s) in
              Ret (makePollReady (addrs_ (data t)), mkResolver o (ctx_ s))
    | CANCELLED => Ret (EXCEPTION (Some (FutureCancelledException CR_Unknown)), s)
    end).

(** [dns_cancel] of an active query returns 0, and the query is freed. *)
(** [src/src/Resolver.cpp:83-90] AsyncResolver::doCancel *)
Definition doCancel (a : nat) (s : AsyncResolver) : res AsyncResolver :=
  let! c := dns_cancel cf (ctx_ s) a in Ret (mkResolver (obj s) c).

(** [src/include/futures/dns/Resolver.h:78-83] CompletionToken::onCancel, loop from [k] *)
Fixpoint cancel_from (n k i : nat) (s : AsyncResolver) : res AsyncResolver :=
  match n with
  | 0 => Ret s
  | S n =>
      let! s := with_tok i (obj s) (fun t =>
        match queries (data t) !! k with
        | Some (Some a) =>
            if parent_ t then
              let! s := doCancel a s in
              let! o := setData (set_query k None (data t)) i (obj s) in Ret (mkResolver o (ctx_ s))
            else Abort "null pointer"
        | _ => Ret s
        end) in
      cancel_from n (S k) i s
  end.

(** [src/include/futures/dns/Resolver.h:77-84] CompletionToken::onCancel *)
Definition tok_onCancel (i : nat) (s : AsyncResolver) : res AsyncResolver := cancel_from 4 0 i s.

(** [src/include/futures/io/WaitHandleBase.h:87-93] CompletionToken::cleanup *)
Definition resolve_cleanup (i : nat) (s : AsyncResolver) : res AsyncResolver :=
  with_tok i (obj s) (fun t =>
    if decide (s_ t = STARTED) then
      let! s := tok_onCancel i s in
      let! o := finish CANCELLED i (obj s) in Ret (mkResolver o (ctx_ s))
    else Ret s).

(** [src/include/futures/dns/Resolver.h:87-89] CompletionToken::~CompletionToken *)
Definition resolve_destroy (i : nat) (s : AsyncResolver) : res AsyncResolver :=
  let! s := resolve_cleanup i s in
  let! o := destroy i (obj s) in Ret (mkResolver o (ctx_ s)).

(** Every token of the resolver is one of [OpRead]; the other lists are empty. *)
(** [src/include/futures/io/WaitHandleBase.h:22-28] IOObject::cleanup *)
Fixpoint cleanup_loop (fuel : nat) (op : Operation) (s : AsyncResolver) : res AsyncResolver :=
  match getPending op (obj s) with
  | [] => Ret s
  | i :: _ =>
      match fuel with
      | 0 => OutOfFuel
      | S fuel => let! s := resolve_cleanup i s in cleanup_loop fuel op s
      end
  end.
Definition resolver_cleanup (s : AsyncResolver) : res AsyncResolver :=
  let! s := cleanup_loop (length (pConnect (obj s))) OpConnect s in
  let! s := cleanup_loop (length (pRead (obj s))) OpRead s in
  cleanup_loop (length (pWrite (obj s))) OpWrite s.

(** ** Submitting *)

(** The result of [dns_submit_a4] or [dns_submit_a6] is stored in the token. *)
Definition submit (ty : RecordType) (i : nat) (calloc : option nat) (hostname : list Z) (s : AsyncResolver) : res AsyncResolver :=
  let name := hostname ++ [0%Z] in
  let! (q, c) := match ty with
                 | TypeA4 => dns_submit_a4 cf malloc (ctx_ s) calloc name 0 (callback_of ty i)
                 | TypeA6 => dns_submit_a6 cf malloc (ctx_ s) calloc name 0 (callback_of ty i)
                 end in
  let! o := with_tok i (obj s) (fun t => setData (set_query (slot ty) q (data t)) i (obj s)) in
  Ret (mkResolver o c).

(** [i] is the new token, [calloc4] and [calloc6] are the addresses of the queries. *)
(** [src/src/Resolver.cpp:66-81] AsyncResolver::doResolve *)
Definition doResolve (i : nat) (calloc4 calloc6 : option nat) (hostname : list Z) (flags : Z) (s : AsyncResolver) : res AsyncResolver :=
  if (flags =? 0)%Z then Throw (std_invalid_argument "empty resolve flags")
  else
    let! o := attach i (newTok i OpRead newResolve (obj s)) in
    let s := mkResolver o (ctx_ s) in
    let! s := if has flags EnableTypeA4 then submit TypeA4 i calloc4 hostname s else Ret s in
    let! s := if has flags EnableTypeA6 then submit TypeA6 i calloc6 hostname s else Ret s in
    let! o := checkPending i (obj s) in
    Ret (mkResolver o (ctx_ s)).

(** ** Callbacks *)

(** The address [k] of a result. *)
Definition address_at (mk : list Z -> IPAddress) (size : nat) (r : dns_rr_a) (k : nat) : res IPAddress :=
  if (size * S k <=? length (dnsa_block r))%nat then Ret (mk (take size (drop (size * k) (dnsa_block r))))
  else Abort "read out of bounds".

(** The loop over the addresses, from [k]. *)
(** [src/src/Resolver.cpp:109-111] AsyncResolver::queryA4Callback, loop *)
Fixpoint push_addresses (mk : list Z -> IPAddress) (size : nat) (r : dns_rr_a) (n k : nat) (l : list IPAddress) : res (list IPAddress) :=
  match n with
  | 0 => Ret l
  | S n => let! a := address_at mk size r k in push_addresses mk size r n (S k) (l ++ [a])
  end.

(** Both callbacks; [result] is what the resolver passes, of the type of the query. *)
Definition query_callback (ty : RecordType) (mk : list Z -> IPAddress) (size : nat) (status : Z) (result : option query_result) (i : nat)
    (o : IOObject Resolve) : res (IOObject Resolve) :=
  with_tok i o (fun t =>
    let! l := match result with
              | Some (Parsed r) => if (status =? 0)%Z then push_addresses mk size r (dnsa_nrr r) 0 (addrs_ (data t)) else Ret (addrs_ (data t))
              | Some (Raw _) => Abort "not a parsed reply"
              | None => Ret (addrs_ (data t))
              end in
    let! o := setData (mkResolve (<[slot ty := None]> (queries (data t))) l) i o in
    checkPending i o).

(** [src/src/Resolver.cpp:102-117] AsyncResolver::queryA4Callback *)
Definition queryA4Callback : Z -> option query_result -> nat -> IOObject Resolve -> res (IOObject Resolve) :=
  query_callback TypeA4 IPAddressV4 4.
(** [src/src/Resolver.cpp:119-134] AsyncResolver::queryA6Callback *)
Definition queryA6Callback : Z -> option query_result -> nat -> IOObject Resolve -> res (IOObject Resolve) :=
  query_callback TypeA6 IPAddressV6 16.

(** The callbacks among the events of a call. *)
Fixpoint dispatch (l : list event) (o : IOObject Resolve) : res (IOObject Resolve) :=
  match l with
  | [] => Ret o
  | Callback d status result :: l =>
      let! o := match callback_type d with
                | TypeA4 => queryA4Callback status result (callback_token d) o
                | TypeA6 => queryA6Callback status result (callback_token d) o
                end in
      dispatch l o
  | _ :: l => dispatch l o
  end.

(** The context without the events of earlier calls. *)
Definition quiet (c : dns_ctx) : dns_ctx :=
  Ctx (dnsc_jran c) (dnsc_nextid c) (dnsc_pbuf c) (dnsc_qactive c) (dnsc_nactive c) (dnsc_qstatus c) (dnsc_utmexp c) (sendto_fails c) [].

(** A call that can call back. *)
Definition call (f : dns_ctx -> res dns_ctx) (s : AsyncResolver) : res AsyncResolver :=
  let! c := f (quiet (ctx_ s)) in
  let! o := dispatch (dnsc_events c) (obj s) in
  Ret (mkResolver o c).

(** ** Events of the loop: [err] and [ready] are the bits of [revent] *)

(** [src/src/Resolver.cpp:45-50] AsyncResolver::onEvent *)
Definition onEvent (err ready : bool) (l : list datagram) (now : Z) (s : AsyncResolver) : res AsyncResolver :=
  if err then Throw (std_runtime_error "syscall error")
  else if ready then call (fun c => dns_ioevent cf malloc c l now) s else Ret s.

(** [src/src/Resolver.cpp:52-58] AsyncResolver::onTimer *)
Definition onTimer (err ready : bool) (now : Z) (s : AsyncResolver) : res AsyncResolver :=
  if err then Throw (std_runtime_error "syscall error")
  else if ready then call (fun c => let! (_, c) := dns_timeouts cf c 30 now in Ret c) s else Ret s.

(** [src/src/Resolver.cpp:60-64] AsyncResolver::onPrepare *)
Definition onPrepare (ready : bool) (now : Z) (s : AsyncResolver) : res AsyncResolver :=
  if ready then call (fun c => let! (_, c) := dns_timeouts cf c 30 now in Ret c) s else Ret s.

(** ** The future *)

(** [src/include/futures/dns/ResolverFuture.h:22-26] ResolverFuture *)
Record ResolverFuture := mkFuture { hostname_ : list Z; flags_ : Z; token_ : option nat }.

(** [i] is the token if there is none yet. *)
(** [src/include/futures/dns/ResolverFuture.h:16-20] ResolverFuture::poll *)
Definition future_poll (cur : option Task) (i : nat) (calloc4 calloc6 : option nat) (f : ResolverFuture) (s : AsyncResolver)
  : res (Poll (list IPAddress) * ResolverFuture * AsyncResolver) :=
  match token_ f with
  | Some j => let! (p, s) := tok_poll cur j s in Ret (p, f, s)
  | None =>
      let! s := doResolve i calloc4 calloc6 (hostname_ f) (flags_ f) s in
      let! (p, s) := tok_poll cur i s in
      Ret (p, mkFuture (hostname_ f) (flags_ f) (Some i), s)
  end.

(** The token is released. *)
Definition future_drop (f : ResolverFuture) (s : AsyncResolver) : res AsyncResolver :=
  match token_ f with Some i => resolve_destroy i s | None => Ret s end.
End Resolver.

(** ** Results *)

Definition mk_of (ty : RecordType) : list Z -> IPAddress := match ty with TypeA4 => IPAddressV4 | TypeA6 => IPAddressV6 end.
Definition size_of (ty : RecordType) : nat := match ty with TypeA4 => 4 | TypeA6 => 16 end.
Definition parser_of (malloc : nat -> bool) (ty : RecordType) : dns_parse_fn :=
  match ty with TypeA4 => dns_parse_a4 malloc | TypeA6 => dns_parse_a6 malloc end.

(** The addresses that a callback gets. *)
Definition addresses (ty : RecordType) (status : Z) (result : option query_result) : list IPAddress :=
  match result with
  | Some (Parsed r) =>
      if (status =? 0)%Z then (fun k => mk_of ty (take (size_of ty) (drop (size_of ty * k) (dnsa_block r)))) <$> seq 0 (dnsa_nrr r) else []
  | _ => []
  end.

(** They are in the block. *)
Definition result_fits (ty : RecordType) (result : option query_result) : Prop :=
  match result with
  | Some (Parsed r) => size_of ty * dnsa_nrr r <= length (dnsa_block r)
  | Some (Raw _) => False
  | None => True
  end.

Lemma push_addresses_spec ty r n k l :
  size_of ty * (k + n) <= length (dnsa_block r) ->
  push_addresses (mk_of ty) (size_of ty) r n k l =
    Ret (l ++ ((fun k => mk_of ty (take (size_of ty) (drop (size_of ty * k) (dnsa_block r)))) <$> seq k n)).
Proof.
  revert k l. induction n as [|n IH]; intros k l Hk; cbn [push_addresses seq fmap list_fmap]; [by rewrite app_nil_r|].
  unfold address_at. rewrite (proj2 (Nat.leb_le _ _)) by nia. cbn [res_bind]. rewrite IH by nia. by rewrite <- app_assoc.
Qed.

(** ** Tokens *)

(** A token is in progress exactly while it has queries. *)
Record tok_ok (t : CompletionToken Resolve) : Prop := {
  to_queries : exists a b, queries (data t) = [a; b; None; None];
  to_op : op_ t = OpRead;
  to_started : s_ t = STARTED <-> tok_hasPending (data t) = true;
  to_parent : parent_ t = tok_hasPending (data t)
}.

Definition toks_ok (o : IOObject Resolve) : Prop := io_ok o /\ forall i t, toks o !! i = Some t -> tok_ok t.

(** The query that a callback is waited for from. *)
Definition slot_of (o : IOObject Resolve) (d : nat) : option nat :=
  t ← toks o !! callback_token d; mjoin (queries (data t) !! slot (callback_type d)).

Lemma callback_type_of ty i : callback_type (callback_of ty i) = ty.
Proof. unfold callback_type, callback_of. destruct ty; cbn [slot]; rewrite Nat.even_add, Nat.even_mul; done. Qed.
Lemma callback_token_of ty i : callback_token (callback_of ty i) = i.
Proof. unfold callback_token, callback_of. destruct ty; cbn [slot]; [rewrite Nat.add_0_r; apply Nat.div2_double|]. rewrite Nat.add_1_r. apply Nat.div2_succ_double. Qed.
Lemma callback_of_eta d : callback_of (callback_type d) (callback_token d) = d.
Proof.
  unfold callback_of, callback_type, callback_token. destruct (Nat.even d) eqn:E; cbn [slot].
  - apply Nat.even_spec in E as [k ->]. rewrite Nat.div2_double. lia.
  - assert (Nat.odd d = true) as [k ->]%Nat.odd_spec by (unfold Nat.odd; by rewrite E). rewrite !Nat.add_1_r, Nat.div2_succ_double. lia.
Qed.

(** What happens to a token: it goes on, or it is done and its task is woken. *)
Definition advances (t t' : CompletionToken Resolve) (w : list Task) : Prop :=
  (s_ t' = s_ t /\ task_ t' = task_ t) \/ (s_ t = STARTED /\ s_ t' = DONE /\ forall k, task_ t = Some k -> k ∈ w).

Lemma checkPending_ok i t o :
  io_ok o -> toks o !! i = Some t -> s_ t = STARTED -> parent_ t = true -> op_ t = OpRead -> (exists a b, queries (data t) = [a; b; None; None]) ->
  exists o' t' w, checkPending i o = Ret o' /\ io_ok o' /\ toks o' = <[i := t']> (toks o) /\ data t' = data t /\ tok_ok t' /\
    woken o' = woken o ++ w /\ advances t t' w.
Proof.
  intros Hok Hi Hs Hp Hop Hq. unfold checkPending, with_tok. rewrite Hi. destruct (tok_hasPending (data t)) eqn:E.
  - exists o, t, []. split_and!; try done; [by rewrite insert_id|split; try done; by rewrite E|by rewrite app_nil_r|by left].
  - destruct (notifyDone_ok i t o Hok Hi Hs) as (o' & -> & Hok' & Ht & _ & Hw). eexists o', _, _. split_and!; try done.
    + split; try done. cbn. by rewrite E.
    + right. split; [done|]. split; [done|]. intros k ->. apply list_elem_of_here.
Qed.

Lemma query_callback_ok ty status result i t a o :
  toks_ok o -> toks o !! i = Some t -> queries (data t) !! slot ty = Some (Some a) -> result_fits ty result ->
  exists o' t' w, query_callback ty (mk_of ty) (size_of ty) status result i o = Ret o' /\ toks_ok o' /\ toks o' = <[i := t']> (toks o) /\
    queries (data t') = <[slot ty := None]> (queries (data t)) /\ addrs_ (data t') = addrs_ (data t) ++ addresses ty status result /\
    woken o' = woken o ++ w /\ advances t t' w.
Proof.
  intros [Hok Htok] Hi Hq Hfit. unfold query_callback, with_tok. rewrite Hi.
  destruct (Htok i t Hi) as [(x & y & Hxy) Hop Hst Hpar].
  assert (tok_hasPending (data t) = true) as Hpend.
  { unfold tok_hasPending. rewrite Hxy in *. destruct ty; cbn in *; injection Hq as ->; [done|]. by destruct x. }
  assert ((match result with
           | Some (Parsed r) => if (status =? 0)%Z then push_addresses (mk_of ty) (size_of ty) r (dnsa_nrr r) 0 (addrs_ (data t)) else Ret (addrs_ (data t))
           | Some (Raw _) => Abort "not a parsed reply"
           | None => Ret (addrs_ (data t))
           end) = Ret (addrs_ (data t) ++ addresses ty status result)) as ->.
  { unfold addresses. destruct result as [[r|]|]; [|done|by rewrite app_nil_r]. destruct (status =? 0)%Z; [|by rewrite app_nil_r]. by apply push_addresses_spec. }
  cbn [res_bind]. set (d := mkResolve _ _). destruct (setData_ok d i t o Hok Hi) as [-> Hok1]. cbn [res_bind].
  set (t1 := mkToken _ _ _ _ d) in *.
  destruct (checkPending_ok i t1 (setTok i t1 o) Hok1) as (o' & t' & w & -> & Hok' & Ht' & Hd' & Hto & Hw & Hadv).
  - cbn. apply lookup_insert_eq.
  - by apply Hst.
  - cbn. by rewrite Hpar.
  - done.
  - cbn. rewrite Hxy. destruct ty; cbn; eauto.
  - cbn in Ht'. rewrite insert_insert_eq in Ht'. exists o', t', w. rewrite Ht', Hd'. split_and!; try done.
    split; [done|]. intros j u. rewrite Ht', lookup_insert_Some. intros [[-> <-]|[_ Hu]]; [done|by eapply Htok].
Qed.

(** ** Callbacks of a call *)

Definition calls (l : list event) : list nat := omap (fun e => match e with Callback d _ _ => Some d | _ => None end) l.

(** The addresses for a token, in the order of the callbacks. *)
Definition answers_for (i : nat) (l : list event) : list IPAddress :=
  l ≫= fun e => match e with
               | Callback d st r => if decide (callback_token d = i) then addresses (callback_type d) st r else []
               | _ => []
               end.

Lemma slot_of_insert i t t' o o' ty v d :
  toks o !! i = Some t -> toks o' = <[i := t']> (toks o) -> queries (data t') = <[slot ty := v]> (queries (data t)) ->
  slot ty < length (queries (data t)) ->
  slot_of o' d = if decide (d = callback_of ty i) then v else slot_of o d.
Proof.
  intros Hi Ht' Hq Hlen. unfold slot_of. rewrite Ht'. destruct (decide (d = callback_of ty i)) as [->|Hne].
  - rewrite callback_token_of, callback_type_of, lookup_insert_eq. cbn. by rewrite Hq, list_lookup_insert_eq by done.
  - destruct (decide (callback_token d = i)) as [<-|Hi']; [|by rewrite lookup_insert_ne]. rewrite lookup_insert_eq, Hi. cbn. rewrite Hq.
    rewrite list_lookup_insert_ne; [done|]. intros Hs. apply Hne. rewrite <- (callback_of_eta d) at 1.
    f_equal. by destruct (callback_type d), ty.
Qed.

Lemma slot_of_tok o d a :
  slot_of o d = Some a -> exists t, toks o !! callback_token d = Some t /\ queries (data t) !! slot (callback_type d) = Some (Some a).
Proof. unfold slot_of. intros (t & Ht & (x & Hx & E)%bind_Some)%bind_Some. cbn in E. subst x. by exists t. Qed.

Lemma advances_trans t1 t2 t3 w1 w2 : advances t1 t2 w1 -> advances t2 t3 w2 -> advances t1 t3 (w1 ++ w2).
Proof.
  intros [[S1 T1]|(S1 & S1' & T1)] [[S2 T2]|(S2 & S2' & T2)]; [left|right|right|congruence].
  - split; congruence.
  - split; [congruence|]. split; [done|]. intros k Hk. apply elem_of_app. right. apply T2. congruence.
  - split; [done|]. split; [congruence|]. intros k Hk. apply elem_of_app. left. auto.
Qed.

Definition progresses (l : list event) (o o' : IOObject Resolve) : Prop :=
  exists w, woken o' = woken o ++ w /\ forall i,
    match toks o !! i with
    | None => toks o' !! i = None /\ answers_for i l = []
    | Some t => exists t', toks o' !! i = Some t' /\ addrs_ (data t') = addrs_ (data t) ++ answers_for i l /\ advances t t' w
    end.

Lemma dispatch_ok l : forall o,
  toks_ok o -> NoDup (calls l) ->
  (forall d st r, Callback d st r ∈ l -> is_Some (slot_of o d) /\ result_fits (callback_type d) r) ->
  exists o', dispatch l o = Ret o' /\ toks_ok o' /\ progresses l o o' /\
    forall d, slot_of o' d = if decide (d ∈ calls l) then None else slot_of o d.
Proof.
  induction l as [|e l IH]; intros o Hok Hnd Hall.
  { exists o. split; [done|]. split; [done|]. split; [|intros d; by rewrite decide_False by apply not_elem_of_nil].
    exists []. rewrite app_nil_r. split; [done|]. intros i. destruct (toks o !! i) as [t|]; [|done]. exists t. rewrite app_nil_r. split; [done|]. split; [done|by left]. }
  assert (forall d st r, Callback d st r ∈ l -> is_Some (slot_of o d) /\ result_fits (callback_type d) r) as Htl
    by (intros d st r H; apply (Hall d st r); by apply list_elem_of_further).
  destruct e as [|d st r|]; [by apply IH| |by apply IH].
  cbn [calls omap list_omap] in Hnd. apply NoDup_cons in Hnd as [Hni Hnd].
  destruct (Hall d st r (list_elem_of_here _ _)) as [[a Ha] Hfit]. destruct (slot_of_tok _ _ _ Ha) as (t & Ht & Hq).
  destruct (query_callback_ok (callback_type d) st r (callback_token d) t a o Hok Ht Hq Hfit) as (o1 & t1 & w1 & E & Hok1 & Ht1 & Hq1 & Ha1 & Hw1 & Hadv).
  assert (forall d', slot_of o1 d' = if decide (d' = d) then None else slot_of o d') as Hs1.
  { intros d'. pose proof (slot_of_insert _ t t1 o o1 (callback_type d) None d' Ht Ht1 Hq1 (lookup_lt_Some _ _ _ Hq)) as H. by rewrite callback_of_eta in H. }
  assert ((match callback_type d with
           | TypeA4 => queryA4Callback st r (callback_token d) o
           | TypeA6 => queryA6Callback st r (callback_token d) o
           end) = Ret o1) as Hcb by (by destruct (callback_type d)).
  destruct (IH o1 Hok1 Hnd) as (o2 & Hd2 & Hok2 & (w2 & Hw2 & Htoks) & Hs2).
  { intros d' st' r' Hin. destruct (Htl _ _ _ Hin) as [Hs Hf]. split; [|done]. rewrite Hs1, decide_False; [done|].
    intros ->. apply Hni. apply list_elem_of_omap. eauto. }
  exists o2. cbn [dispatch]. rewrite Hcb. cbn [res_bind]. split; [done|]. split; [done|]. split.
  - exists (w1 ++ w2). split; [by rewrite Hw2, Hw1, app_assoc|]. intros i. specialize (Htoks i). rewrite Ht1 in Htoks.
    destruct (decide (i = callback_token d)) as [->|Hne].
    + rewrite lookup_insert_eq in Htoks. rewrite Ht. destruct Htoks as (t' & ? & Hadr & Hadv'). exists t'. split; [done|].
      split; [|by eapply advances_trans]. rewrite Hadr, Ha1. cbn. rewrite decide_True by done. by rewrite app_assoc.
    + rewrite lookup_insert_ne in Htoks by done. destruct (toks o !! i) as [u|]; [|cbn; by rewrite decide_False by done].
      destruct Htoks as (t' & ? & Hadr & Hadv').
      exists t'. split; [done|]. split; [cbn; by rewrite decide_False by done|]. apply (advances_trans u u t' w1 w2); [by left|done].
  - intros d'. rewrite Hs2, Hs1. cbn [calls omap list_omap]. destruct (decide (d' = d)) as [->|Hne].
    + rewrite (decide_True (P := d ∈ d :: _)) by apply list_elem_of_here. by case_decide.
    + repeat case_decide; try done; rewrite elem_of_cons in *; naive_solver.
Qed.

(** ** The resolver *)
Section Laws.
Context (cf : dns_conf) (malloc : nat -> bool) (srch : list (list (list Z))) (Hcf : conf_ok cf srch).

(** The active queries are the ones that the tokens wait for, and they have the
    parsing routine of their callback. *)
Record registered (o : IOObject Resolve) (c : dns_ctx) : Prop := {
  rg_ctx : ctx_ok cf srch c;
  rg_parse : forall x, x ∈ dnsc_qactive c -> dnsq_parse x = Some (parser_of malloc (callback_type (dnsq_cbdata x)));
  rg_slot : forall d a, slot_of o d = Some a <-> exists x, x ∈ dnsc_qactive c /\ dnsq_addr x = a /\ dnsq_cbdata x = d
}.

Definition resolver_ok (s : AsyncResolver) : Prop := toks_ok (obj s) /\ registered (obj s) (ctx_ s).

Lemma nodup_finer {A} (f g : A -> nat) (l : list A) :
  NoDup (f <$> l) -> (forall x y, x ∈ l -> y ∈ l -> g x = g y -> f x = f y) -> NoDup (g <$> l).
Proof.
  induction l as [|x l IH]; cbn; [done|]. intros [Hx Hnd]%NoDup_cons Hfg. apply NoDup_cons. split.
  - intros (y & E & Hy)%list_elem_of_fmap. apply Hx. apply list_elem_of_fmap. exists y. split; [|done].
    apply Hfg; [apply list_elem_of_here|by apply list_elem_of_further|done].
  - apply IH; [done|]. intros y z Hy Hz. apply Hfg; by apply list_elem_of_further.
Qed.

Lemma pending_nodup o c : registered o c -> NoDup (pending c).
Proof.
  intros [Hc _ Hs]. apply (nodup_finer dnsq_addr); [apply Hc|]. intros x y Hx Hy E.
  assert (slot_of o (dnsq_cbdata x) = Some (dnsq_addr x)) as H1 by (apply Hs; eauto).
  assert (slot_of o (dnsq_cbdata x) = Some (dnsq_addr y)) as H2 by (apply Hs; eauto). congruence.
Qed.

Lemma parser_of_fits ty dn pkt cur ne s rr : parser_of malloc ty dn pkt cur ne = Ret (s, Some rr) -> result_fits ty (Some (Parsed rr)).
Proof.
  destruct ty; cbn; unfold dns_parse_a4, dns_parse_a6; intros (cls & _ & (typ & _ & H)%res_bind_ret)%res_bind_ret;
    (destruct (negb _); [done|]); by apply dns_parse_a_block in H as [_ ?].
Qed.

Lemma result_of_fits x s r ty : dnsq_parse x = Some (parser_of malloc ty) -> result_of x s r -> result_fits ty r.
Proof.
  intros Hp. unfold result_of. destruct r as [[rr|]|]; [|congruence|done]. intros (f & dn & pkt & cur & ne & Hf & E). rewrite Hp in Hf.
  injection Hf as <-. by eapply parser_of_fits.
Qed.

(** A call leaves the tokens and the queries in step. *)
Lemma call_ok f s :
  resolver_ok s -> (exists c, f (quiet (ctx_ s)) = Ret c /\ evolves cf srch (quiet (ctx_ s)) c) ->
  exists s', call f s = Ret s' /\ resolver_ok s' /\ progresses (dnsc_events (ctx_ s')) (obj s) (obj s').
Proof.
  intros [Htk Hrg] (c & Hf & Hc & Hcalls & Hkept & Hexp). pose proof (pending_nodup _ _ Hrg) as Hnd. pose proof Hrg as [_ Hpa Hslot].
  assert (calls (dnsc_events c) ++ pending c ≡ₚ pending (ctx_ s)) as Hperm by exact Hcalls.
  assert (NoDup (calls (dnsc_events c) ++ pending c)) as (Hndc & Hdis & _)%NoDup_app by (by rewrite Hperm).
  destruct (dispatch_ok (dnsc_events c) (obj s) Htk Hndc) as (o & Hd & Htk' & Hprog & Hs').
  { intros d st r Hin. destruct (Hexp d st r Hin) as [?%elem_of_nil|(x & Hx & <- & Hr)]; [done|]. split; [exists (dnsq_addr x); apply Hslot; eauto|].
    eapply result_of_fits; [by apply Hpa|done]. }
  exists (mkResolver o c). unfold call. rewrite Hf. cbn [res_bind]. rewrite Hd. split; [done|]. split; [|done]. split; [done|]. cbn [obj ctx_]. split.
  - done.
  - intros x' (x & Hx & _ & -> & ->)%Hkept. by apply Hpa.
  - intros d a. rewrite Hs'. split.
    + case_decide as Hd'; [done|]. intros (x & Hx & <- & <-)%Hslot.
      assert (dnsq_cbdata x ∈ calls (dnsc_events c) ++ pending c) as Hin by (rewrite Hperm; by apply list_elem_of_fmap_2).
      apply elem_of_app in Hin as [?|Hin]; [done|]. apply list_elem_of_fmap in Hin as (x' & E & Hx'). exists x'. split; [done|]. split; [|done].
      destruct (Hkept x' Hx') as (y & Hy & -> & Ey & _).
      assert (slot_of (obj s) (dnsq_cbdata x) = Some (dnsq_addr x)) as H1 by (apply Hslot; eauto).
      assert (slot_of (obj s) (dnsq_cbdata x) = Some (dnsq_addr y)) as H2 by (apply Hslot; exists y; split_and!; [done|done|congruence]). congruence.
    + intros (x' & Hx' & <- & <-). rewrite decide_False by (intros H; apply (Hdis _ H); by apply list_elem_of_fmap_2).
      apply Hslot. destruct (Hkept x' Hx') as (y & Hy & -> & -> & _). eauto.
Qed.

(** ** One token at a time *)

(** The token [i] is in progress, whether or not it has queries yet. *)
Record mid (i : nat) (t : CompletionToken Resolve) (s : AsyncResolver) : Prop := {
  mid_io : io_ok (obj s);
  mid_tok : toks (obj s) !! i = Some t;
  mid_started : s_ t = STARTED /\ parent_ t = true /\ op_ t = OpRead;
  mid_queries : exists a b, queries (data t) = [a; b; None; None];
  mid_others : forall j u, j <> i -> toks (obj s) !! j = Some u -> tok_ok u;
  mid_registered : registered (obj s) (ctx_ s)
}.

Lemma mid_of i t s : resolver_ok s -> toks (obj s) !! i = Some t -> s_ t = STARTED -> mid i t s.
Proof.
  intros [[Hio Htk] Hrg] Hi Hs. destruct (Htk i t Hi) as [Hq Hop Hst Hpar]. split; try done; [|by intros; eapply Htk].
  split; [done|]. split; [|done]. rewrite Hpar. by apply Hst.
Qed.

Lemma registered_slots o o' c : (forall d, slot_of o' d = slot_of o d) -> registered o c -> registered o' c.
Proof. intros E [? ? Hs]. split; [done|done|]. intros d a. by rewrite E. Qed.

(** A token whose data are replaced. *)
Definition with_data (t : CompletionToken Resolve) (d : Resolve) : CompletionToken Resolve := mkToken (parent_ t) (task_ t) (s_ t) (op_ t) d.

Lemma mid_set i t s ty v c :
  mid i t s -> registered (setTok i (with_data t (set_query (slot ty) v (data t))) (obj s)) c ->
  mid i (with_data t (set_query (slot ty) v (data t))) (mkResolver (setTok i (with_data t (set_query (slot ty) v (data t))) (obj s)) c).
Proof.
  intros [Hio Hi Hst (a & b & Hq) Hoth _] Hrg. split; try done.
  - cbn. by apply (setData_ok _ i t (obj s) Hio Hi).
  - cbn. by rewrite lookup_insert_eq.
  - cbn. rewrite Hq. destruct ty; cbn; eauto.
  - intros j u Hj. cbn. rewrite lookup_insert_ne by done. by apply Hoth.
Qed.

Lemma slot_lt i t s ty : mid i t s -> slot ty < length (queries (data t)).
Proof. intros [_ _ _ (a & b & ->) _ _]. destruct ty; cbn; lia. Qed.

Lemma slot_set i t s ty v d :
  mid i t s -> slot_of (setTok i (with_data t (set_query (slot ty) v (data t))) (obj s)) d = if decide (d = callback_of ty i) then v else slot_of (obj s) d.
Proof. intros Hm. apply (slot_of_insert i t (with_data t (set_query (slot ty) v (data t)))); [apply Hm|done|done|by eapply slot_lt]. Qed.

Lemma addr_inj (l : list dns_query) x y : NoDup (dnsq_addr <$> l) -> x ∈ l -> y ∈ l -> dnsq_addr x = dnsq_addr y -> x = y.
Proof.
  induction l as [|z l IH]; cbn; [by intros _ ?%elem_of_nil|]. intros [Hz Hnd]%NoDup_cons [->|Hx]%elem_of_cons [->|Hy]%elem_of_cons E; [done|..|by apply IH].
  - destruct Hz. rewrite E. by apply list_elem_of_fmap_2.
  - destruct Hz. rewrite <- E. by apply list_elem_of_fmap_2.
Qed.

(** A query is cancelled. *)
Lemma cancel_one ty i t a s :
  mid i t s -> queries (data t) !! slot ty = Some (Some a) ->
  exists c, dns_cancel cf (ctx_ s) a = Ret c /\ registered (setTok i (with_data t (set_query (slot ty) None (data t))) (obj s)) c.
Proof.
  intros Hm Hq. pose proof Hm as [_ Hi _ _ _ [Hc Hpa Hs]].
  assert (slot_of (obj s) (callback_of ty i) = Some a) as Hsl by (unfold slot_of; rewrite callback_token_of, callback_type_of, Hi; cbn; by rewrite Hq).
  destruct (proj1 (Hs _ _) Hsl) as (x & Hx & <- & Hd). destruct (dns_cancel_ok cf srch (ctx_ s) x Hc Hx) as (c & -> & Hc' & _ & _ & Ha).
  exists c. split; [done|]. split; [done| |].
  - intros y. rewrite Ha. intros [_ Hy]%list_elem_of_filter. by apply Hpa.
  - intros d b. rewrite (slot_set i t s ty None d Hm), Ha. setoid_rewrite list_elem_of_filter. split.
    + case_decide as Hne; [done|]. intros (y & Hy & <- & <-)%Hs. exists y. split_and!; try done. intros E. apply Hne. rewrite <- Hd. f_equal.
      by apply (addr_inj (dnsc_qactive (ctx_ s))); [apply Hc|..].
    + intros (y & [Hne Hy] & <- & <-). rewrite decide_False; [apply Hs; eauto|]. intros E.
      assert (slot_of (obj s) (dnsq_cbdata y) = Some (dnsq_addr y)) as H by (apply Hs; eauto). rewrite E in H. congruence.
Qed.

(** Queries are submitted. *)
Lemma dns_submit_p_nomem c name qcls qtyp flags parse d :
  ctx_ok cf srch c -> c_string name 0 0 ->
  exists c', dns_submit_p cf c None name qcls qtyp flags parse d = Ret (None, c') /\ ctx_ok cf srch c' /\ dnsc_qactive c' = dnsc_qactive c.
Proof.
  intros Hc Hname. unfold dns_submit_p. destruct (ck_pbuf _ _ _ Hc) as [Hpl Hpb]. pose proof (ok_udpbuf _ _ Hcf) as Hu.
  destruct (dns_ptodn_wire name 0 0 (dnsc_pbuf c) 0 DNS_MAXDN Hname) as (r & m' & isabs & Hr & Hl & Hcase);
    [unfold DNS_MAXPACKET, DNS_MAXDN in *; lia|]. rewrite Hr. cbn [res_bind].
  pose proof (dns_ptodn_bytes _ _ _ _ _ _ _ _ _ Hr (proj1 Hname) Hpb) as Hmb.
  assert (ctx_ok cf srch (set_pbuf c m')) as Hc1 by (destruct Hc; split; try done; by rewrite <- Hpl).
  destruct (r <=? 0)%Z; (eexists; split; [reflexivity|]; split; [by destruct Hc1; split|done]).
Qed.

Definition fresh_query (c : dns_ctx) (a : option nat) : Prop := forall addr, a = Some addr -> addr ∉ dnsq_addr <$> dnsc_qactive c.

Definition type_of (ty : RecordType) : Z := match ty with TypeA4 => DNS_T_A | TypeA6 => DNS_T_AAAA end.

Lemma submit_query ty c calloc name d :
  ctx_ok cf srch c -> fresh_query c calloc -> c_string name 0 0 ->
  exists q c', dns_submit_p cf c calloc name DNS_C_IN (type_of ty) 0 (Some (parser_of malloc ty)) d = Ret (q, c') /\ ctx_ok cf srch c' /\
    match q with
    | Some a => calloc = Some a /\ exists x, dnsc_qactive c' = x :: dnsc_qactive c /\ dnsq_addr x = a /\ dnsq_cbdata x = d /\
                  dnsq_parse x = Some (parser_of malloc ty)
    | None => dnsc_qactive c' = dnsc_qactive c
    end.
Proof.
  intros Hc Hfresh Hname. destruct calloc as [addr|].
  - destruct (dns_submit_p_ok cf srch Hcf c addr name DNS_C_IN (type_of ty) 0 (Some (parser_of malloc ty)) d Hc (Hfresh addr eq_refl) Hname)
      as (q & c' & -> & Hc' & _ & Hq); [destruct ty; [apply a4_typcls|apply a6_typcls]|]. exists q, c'. split; [done|]. split; [done|].
    destruct q as [a|]; [|apply Hq]. destruct Hq as (-> & _ & ls & x & Hx & ? & ? & ? & _). split; [done|]. by exists x.
  - destruct (dns_submit_p_nomem c name DNS_C_IN (type_of ty) 0 (Some (parser_of malloc ty)) d Hc Hname) as (c' & -> & Hc' & Ha). by exists None, c'.
Qed.

Lemma first_nul (h : list Z) : exists l rest, h ++ [0%Z] = (l ++ [0%Z]) ++ rest /\ Forall (fun b => b <> 0%Z) l.
Proof.
  induction h as [|c h (l & rest & E & Hl)]; [by exists [], []|]. destruct (decide (c = 0%Z)) as [->|Hc]; [by exists [], (h ++ [0%Z])|].
  exists (c :: l), rest. split; [cbn; by rewrite E|by constructor].
Qed.

Lemma c_str_ok h : Forall is_byte h -> c_string (h ++ [0%Z]) 0 0.
Proof.
  intros Hh. split; [apply Forall_app; split; [done|by repeat constructor]|]. cbn [Nat.eqb]. destruct (first_nul h) as (l & rest & -> & Hl).
  exists (length l). split; [|rewrite !length_app; lia]. apply strlen_spec; [|done]. by exists [], rest.
Qed.

Lemma submit_ok ty i t calloc h s :
  mid i t s -> fresh_query (ctx_ s) calloc -> Forall is_byte h -> queries (data t) !! slot ty = Some None ->
  exists s' v, submit cf malloc ty i calloc h s = Ret s' /\ mid i (with_data t (set_query (slot ty) v (data t))) s' /\
    toks (obj s') = <[i := with_data t (set_query (slot ty) v (data t))]> (toks (obj s)) /\ woken (obj s') = woken (obj s) /\
    forall a, a ∈ dnsq_addr <$> dnsc_qactive (ctx_ s') -> a ∈ dnsq_addr <$> dnsc_qactive (ctx_ s) \/ calloc = Some a.
Proof.
  intros Hm Hfr Hh Hq. pose proof Hm as [Hio Hi _ _ _ [Hc Hpa Hs]].
  assert (slot_of (obj s) (callback_of ty i) = None) as Hsl by (unfold slot_of; rewrite callback_token_of, callback_type_of, Hi; cbn; by rewrite Hq).
  destruct (submit_query ty (ctx_ s) calloc (h ++ [0%Z]) (callback_of ty i) Hc Hfr (c_str_ok h Hh)) as (v & c & E & Hc' & Hv).
  assert (submit cf malloc ty i calloc h s =
    let! o := with_tok i (obj s) (fun t => setData (set_query (slot ty) v (data t)) i (obj s)) in Ret (mkResolver o c)) as ->.
  { unfold submit, dns_submit_a4, dns_submit_a6. destruct ty; cbn [type_of parser_of] in E; unfold dns_parse_fn in E; by rewrite E. }
  unfold with_tok. rewrite Hi. destruct (setData_ok (set_query (slot ty) v (data t)) i t (obj s) Hio Hi) as [-> _]. cbn [res_bind].
  eexists _, v. split; [reflexivity|]. split; [|split; [done|]; split; [done|]].
  - apply mid_set; [done|]. split; [done| |].
    + intros x. destruct v as [a|]; [|rewrite Hv; apply Hpa]. destruct Hv as (_ & y & -> & _ & Hyd & Hyp).
      intros [->|Hx]%elem_of_cons; [by rewrite Hyd, callback_type_of|by apply Hpa].
    + intros d b. rewrite (slot_set i t s ty v d Hm). destruct v as [a|].
      * destruct Hv as (_ & y & -> & Hya & Hyd & _). case_decide as Hd.
        -- subst d. split; [intros [= <-]; exists y; split; [apply list_elem_of_here|done]|]. intros (x & [->|Hx]%elem_of_cons & <- & Hxd); [by rewrite Hya|].
           assert (slot_of (obj s) (callback_of ty i) = Some (dnsq_addr x)) as H by (apply Hs; eauto). congruence.
        -- rewrite Hs. split; intros (x & Hx & Hxa & Hxd); exists x; split_and!; try done; [by apply list_elem_of_further|].
           apply elem_of_cons in Hx as [->|?]; [congruence|done].
      * rewrite Hv. case_decide as Hd; [|apply Hs]. subst d. by rewrite <- Hs, Hsl.
  - intros a. cbn [ctx_]. destruct v as [b|]; [|rewrite Hv; by left]. destruct Hv as (-> & y & -> & <- & _). cbn.
    intros [->|?]%elem_of_cons; [by right|by left].
Qed.

(** The token is in order again once its queries are checked, or once it has none. *)
Lemma mid_done i t s :
  mid i t s -> exists o t' w, checkPending i (obj s) = Ret o /\ resolver_ok (mkResolver o (ctx_ s)) /\ toks o = <[i := t']> (toks (obj s)) /\
    data t' = data t /\ woken o = woken (obj s) ++ w /\ advances t t' w.
Proof.
  intros [Hio Hi (Hs & Hp & Hop) Hq Hoth Hrg]. destruct (checkPending_ok i t (obj s) Hio Hi Hs Hp Hop Hq) as (o & t' & w & -> & Hio' & Ht' & Hd & Hto & Hw & Hadv).
  exists o, t', w. split_and!; try done. split; [split; [done|]|].
  - intros j u. cbn. rewrite Ht', lookup_insert_Some. intros [[-> <-]|[Hne Hu]]; [done|]. by eapply Hoth.
  - apply (registered_slots (obj s)); [|done]. intros d. unfold slot_of. cbn. rewrite Ht'. destruct (decide (callback_token d = i)) as [->|Hne].
    + by rewrite lookup_insert_eq, Hi; cbn; rewrite Hd.
    + by rewrite lookup_insert_ne.
Qed.

Lemma doResolve_ok i calloc4 calloc6 h flags s :
  resolver_ok s -> toks (obj s) !! i = None -> fresh_query (ctx_ s) calloc4 -> fresh_query (ctx_ s) calloc6 ->
  (forall a, calloc4 = Some a -> calloc6 <> Some a) -> Forall is_byte h -> flags <> 0%Z ->
  exists s' t' w, doResolve cf malloc i calloc4 calloc6 h flags s = Ret s' /\ resolver_ok s' /\ toks (obj s') = <[i := t']> (toks (obj s)) /\
    addrs_ (data t') = [] /\ s_ t' <> CANCELLED /\ woken (obj s') = woken (obj s) ++ w.
Proof.
  intros [[Hio Htk] Hrg] Hi Hf4 Hf6 Hne Hh Hfl. unfold doResolve. rewrite (proj2 (Z.eqb_neq _ _)) by done.
  pose proof (newTok_ok i OpRead newResolve (obj s) Hio Hi) as Hio1. set (o1 := newTok i OpRead newResolve (obj s)) in *.
  assert (toks o1 !! i = Some (mkToken false None STARTED OpRead newResolve)) as Hi1 by (cbn; apply lookup_insert_eq).
  destruct (attach_ok i _ o1 Hio1 Hi1 eq_refl) as (o2 & -> & Ht2 & _ & Hw2 & Hio2). cbn [res_bind].
  unfold o1 in Ht2, Hw2. cbn in Ht2, Hw2. rewrite insert_insert_eq in Ht2. set (t2 := mkToken true None STARTED OpRead newResolve) in *.
  assert (mid i t2 (mkResolver o2 (ctx_ s))) as Hm2.
  { split; try done; cbn; [by rewrite Ht2, lookup_insert_eq|by exists None, None| |].
    - intros j u Hj. rewrite Ht2, lookup_insert_ne by done. apply Htk.
    - apply (registered_slots (obj s)); [|done]. intros d. unfold slot_of. rewrite Ht2. destruct (decide (callback_token d = i)) as [->|Hd].
      + rewrite lookup_insert_eq, Hi. by destruct (callback_type d).
      + by rewrite lookup_insert_ne. }
  assert (exists s3 v, (if has flags EnableTypeA4 then submit cf malloc TypeA4 i calloc4 h (mkResolver o2 (ctx_ s)) else Ret (mkResolver o2 (ctx_ s))) = Ret s3 /\
    mid i (with_data t2 (mkResolve [v; None; None; None] [])) s3 /\ toks (obj s3) = <[i := with_data t2 (mkResolve [v; None; None; None] [])]> (toks (obj s)) /\
    woken (obj s3) = woken (obj s) /\ fresh_query (ctx_ s3) calloc6) as (s3 & v & -> & Hm3 & Ht3 & Hw3 & Hf6').
  { destruct (has flags EnableTypeA4); [|by exists (mkResolver o2 (ctx_ s)), None].
    destruct (submit_ok TypeA4 i t2 calloc4 h _ Hm2 Hf4 Hh eq_refl) as (s3 & v & -> & Hm3 & Ht3 & Hw3 & Ha3). exists s3, v.
    split; [done|]. split; [exact Hm3|]. cbn [obj] in Ht3, Hw3. rewrite Ht3, Ht2, insert_insert_eq, Hw3, Hw2. split; [done|]. split; [done|].
    intros a Ha Hin. destruct (Ha3 a Hin) as [?|?]; [by eapply Hf6|by eapply Hne]. }
  cbn [res_bind].
  assert (exists s4 q, (if has flags EnableTypeA6 then submit cf malloc TypeA6 i calloc6 h s3 else Ret s3) = Ret s4 /\
    mid i (with_data t2 (mkResolve q [])) s4 /\ toks (obj s4) = <[i := with_data t2 (mkResolve q [])]> (toks (obj s)) /\
    woken (obj s4) = woken (obj s)) as (s4 & q & -> & Hm4 & Ht4 & Hw4).
  { destruct (has flags EnableTypeA6); [|by eexists s3, _].
    destruct (submit_ok TypeA6 i _ calloc6 h s3 Hm3 Hf6' Hh eq_refl) as (s4 & v' & -> & Hm4 & Ht4 & Hw4 & _). eexists s4, _.
    split; [done|]. split; [exact Hm4|]. rewrite Ht4, Ht3, insert_insert_eq, Hw4, Hw3. done. }
  cbn [res_bind]. destruct (mid_done _ _ _ Hm4) as (o & t' & w & -> & Hok & Ht & Hd & Hw & Hadv). cbn [res_bind].
  eexists _, t', w. split; [reflexivity|]. split; [done|]. cbn [obj]. rewrite Ht, Ht4, insert_insert_eq, Hw, Hw4, Hd. split_and!; try done.
  destruct Hadv as [[-> _]|(_ & -> & _)]; done.
Qed.

(** ** Cancelling *)

Lemma with_data_same i t s ty : mid i t s -> queries (data t) !! slot ty = Some None -> with_data t (set_query (slot ty) None (data t)) = t.
Proof.
  intros _ Hq. unfold with_data, set_query. rewrite list_insert_id by done. destruct t as [? ? ? ? []]. done.
Qed.

(** One turn of the loop of [onCancel]. *)
Lemma cancel_slot ty i t s :
  mid i t s ->
  exists s', (forall n, cancel_from cf (S n) (slot ty) i s = cancel_from cf n (S (slot ty)) i s') /\ mid i (with_data t (set_query (slot ty) None (data t))) s' /\
    toks (obj s') = <[i := with_data t (set_query (slot ty) None (data t))]> (toks (obj s)) /\ (forall op, getPending op (obj s') = getPending op (obj s)) /\
    woken (obj s') = woken (obj s).
Proof.
  intros Hm. pose proof Hm as [Hio Hi (_ & Hp & _) (a & b & Hq) _ _].
  assert (exists o, queries (data t) !! slot ty = Some o) as [o Ho] by (rewrite Hq; destruct ty; eauto).
  destruct o as [x|].
  - destruct (cancel_one ty i t x s Hm Ho) as (c & Hc & Hrg). eexists. split; [|split; [by eapply mid_set|split; [done|split; [by intros []|done]]]].
    intros n. cbn [cancel_from]. unfold with_tok at 1. rewrite Hi, Ho, Hp. unfold doCancel. rewrite Hc. cbn [res_bind obj].
    destruct (setData_ok (set_query (slot ty) None (data t)) i t (obj s) Hio Hi) as [-> _]. done.
  - exists s. rewrite (with_data_same i t s ty Hm Ho), insert_id by done. split; [|done]. intros n. cbn [cancel_from]. unfold with_tok at 1. by rewrite Hi, Ho.
Qed.

Lemma cancel_rest n k i t s : mid i t s -> 2 <= k -> cancel_from cf n k i s = Ret s.
Proof.
  intros Hm. pose proof Hm as [_ Hi _ (a & b & Hq) _ _]. revert k. induction n as [|n IH]; intros k Hk; [done|]. cbn [cancel_from]. unfold with_tok at 1.
  rewrite Hi, Hq. destruct k as [|[|k]]; [lia..|]. cbn.
  destruct k as [|[|k]]; cbn; apply IH; lia.
Qed.

Definition emptied (t : CompletionToken Resolve) : CompletionToken Resolve := with_data t (mkResolve (replicate 4 None) (addrs_ (data t))).

Lemma onCancel_ok i t s :
  mid i t s -> exists s', tok_onCancel cf i s = Ret s' /\ mid i (emptied t) s' /\ toks (obj s') = <[i := emptied t]> (toks (obj s)) /\
    (forall op, getPending op (obj s') = getPending op (obj s)) /\ woken (obj s') = woken (obj s).
Proof.
  intros Hm. pose proof Hm as [_ _ _ (a & b & Hq) _ _]. unfold tok_onCancel.
  destruct (cancel_slot TypeA4 i t s Hm) as (s1 & E1 & Hm1 & Ht1 & Hp1 & Hw1). destruct (cancel_slot TypeA6 i _ s1 Hm1) as (s2 & E2 & Hm2 & Ht2 & Hp2 & Hw2).
  exists s2. change 0 with (slot TypeA4) at 1. rewrite E1. change (S (slot TypeA4)) with (slot TypeA6). rewrite E2, (cancel_rest _ _ _ _ _ Hm2) by done.
  rewrite Ht1, insert_insert_eq in Ht2.
  assert (with_data (with_data t (set_query (slot TypeA4) None (data t))) (set_query (slot TypeA6) None (data (with_data t (set_query (slot TypeA4) None (data t))))) = emptied t) as E
    by (unfold emptied, with_data, set_query; cbn; by rewrite Hq).
  rewrite E in Hm2, Ht2. split_and!; try done; [intros op; by rewrite Hp2, Hp1|congruence].
Qed.

(** The token is cancelled: it waits for nothing, and its task is woken. *)
Definition cancelled_to (t t' : CompletionToken Resolve) : Prop := s_ t' = CANCELLED /\ addrs_ (data t') = addrs_ (data t).

Lemma resolve_cleanup_ok i t s :
  resolver_ok s -> toks (obj s) !! i = Some t -> s_ t = STARTED ->
  exists s' t' w, resolve_cleanup cf i s = Ret s' /\ resolver_ok s' /\ toks (obj s') = <[i := t']> (toks (obj s)) /\ cancelled_to t t' /\
    (forall op, getPending op (obj s') = filter (.≠ i) (getPending op (obj s))) /\
    woken (obj s') = woken (obj s) ++ w /\ forall k, task_ t = Some k -> k ∈ w.
Proof.
  intros Hok Hi Hs. pose proof (mid_of i t s Hok Hi Hs) as Hm. unfold resolve_cleanup, with_tok. rewrite Hi, decide_True by done.
  destruct (onCancel_ok i t s Hm) as (s1 & -> & Hm1 & Ht1 & Hp1 & Hw1). cbn [res_bind]. pose proof Hm1 as [Hio1 Hi1 (_ & _ & Hop) _ Hoth Hrg].
  destruct (finish_ok CANCELLED i (emptied t) (obj s1) Hio1 Hi1) as (o & -> & Hio2 & Ht2 & Hp2 & Hw2); [done|]. cbn [res_bind].
  rewrite Ht1, insert_insert_eq in Ht2. eexists (mkResolver o (ctx_ s1)), _, _. split; [done|]. split; [split; [split; [done|]|]|].
  - intros j u. cbn. rewrite Ht2, lookup_insert_Some. intros [[-> <-]|[Hne Hu]]; [|by apply (Hoth j); [|rewrite Ht1, lookup_insert_ne]].
    split; try done. by exists None, None.
  - apply (registered_slots (obj s1)); [|done]. intros d. unfold slot_of. cbn. rewrite Ht2, Ht1. destruct (decide (callback_token d = i)) as [->|Hne].
    + rewrite !lookup_insert_eq. done.
    + by rewrite !lookup_insert_ne.
  - cbn [obj]. split_and!; try done; [intros op; by rewrite Hp2, Hp1|by rewrite Hw2, Hw1|]. cbn. intros k ->. apply list_elem_of_here.
Qed.

Lemma resolve_destroy_ok i t s :
  resolver_ok s -> toks (obj s) !! i = Some t ->
  exists s', resolve_destroy cf i s = Ret s' /\ resolver_ok s' /\ toks (obj s') = delete i (toks (obj s)).
Proof.
  intros Hok Hi.
  assert (exists s1 t1, resolve_cleanup cf i s = Ret s1 /\ resolver_ok s1 /\ toks (obj s1) = <[i := t1]> (toks (obj s)) /\ s_ t1 <> STARTED)
    as (s1 & t1 & E & [[Hio1 Htk1] Hrg1] & Ht1 & Hs1).
  { destruct (decide (s_ t = STARTED)) as [Hs|Hs].
    - destruct (resolve_cleanup_ok i t s Hok Hi Hs) as (s1 & t1 & w & ? & ? & ? & [E _] & _). exists s1, t1. split_and!; try done. by rewrite E.
    - exists s, t. unfold resolve_cleanup, with_tok. rewrite Hi, decide_False by done. by rewrite insert_id. }
  unfold resolve_destroy. rewrite E. cbn [res_bind]. assert (toks (obj s1) !! i = Some t1) as Hi1 by (by rewrite Ht1, lookup_insert_eq).
  destruct (destroy_ok i t1 (obj s1) Hio1 Hi1) as (o & -> & Hio & Ht & _). cbn [res_bind]. eexists. split; [reflexivity|]. cbn [obj].
  split; [|by rewrite Ht, Ht1, delete_insert_eq]. split; [split; [done|]|].
  - intros j u. cbn. rewrite Ht. intros [_ Hu]%lookup_delete_Some. by eapply Htk1.
  - apply (registered_slots (obj s1)); [|done]. intros d. unfold slot_of. cbn. rewrite Ht. destruct (decide (callback_token d = i)) as [->|Hne].
    + rewrite lookup_delete_eq, Hi1. cbn. destruct (Htk1 i t1 Hi1) as [(a & b & Hq) _ Hst _].
      assert (tok_hasPending (data t1) = false) as Hp by (destruct (tok_hasPending (data t1)); [by destruct Hs1; apply Hst|done]).
      unfold tok_hasPending in Hp. rewrite Hq in *. cbn in Hp. destruct a, b; try done. by destruct (callback_type d).
    + by rewrite lookup_delete_ne.
Qed.

(** The token is cancelled if it was in progress. *)
Definition ends (t t' : CompletionToken Resolve) (w : list Task) : Prop :=
  (s_ t = STARTED /\ cancelled_to t t' /\ forall k, task_ t = Some k -> k ∈ w) \/ (s_ t <> STARTED /\ t' = t).

Lemma only_reads s op : resolver_ok s -> op <> OpRead -> getPending op (obj s) = [].
Proof.
  intros [[Hio Htk] _] Hop. destruct (getPending op (obj s)) as [|i l] eqn:E; [done|]. destruct (head_pending op i l (obj s) Hio E) as (t & Hi & _ & Ht & _).
  destruct (Htk i t Hi) as [_ Hr _ _]. congruence.
Qed.

Lemma cleanup_loop_ok fuel : forall s,
  resolver_ok s -> length (pRead (obj s)) <= fuel ->
  exists s' w, cleanup_loop cf fuel OpRead s = Ret s' /\ resolver_ok s' /\ woken (obj s') = woken (obj s) ++ w /\
    forall j, match toks (obj s) !! j with
              | None => toks (obj s') !! j = None
              | Some t => exists t', toks (obj s') !! j = Some t' /\ ends t t' w
              end.
Proof.
  induction fuel as [|fuel IH]; intros s Hok Hf; (destruct (pRead (obj s)) as [|i l] eqn:E; [|cbn in Hf]);
    cbn [cleanup_loop]; change (getPending OpRead (obj s)) with (pRead (obj s)); rewrite E; try lia;
    try (exists s, []; rewrite app_nil_r; split_and!; try done; intros j; destruct (toks (obj s) !! j) as [t|] eqn:Hj; [|done]; exists t; split; [done|];
      right; split; [|done]; intros Hs; pose proof Hok as [[Hio Htk] _]; destruct (Htk j t Hj) as [_ Hop Hst Hpar];
      assert (j ∈ getPending OpRead (obj s)) as Hin by (apply (ok_pending _ Hio); exists t; rewrite Hpar; split_and!; [done|by apply Hst|done]);
      cbn in Hin; rewrite E in Hin; by apply elem_of_nil in Hin).
  destruct (head_pending OpRead i l (obj s)) as (t & Hi & Hs & _ & _ & Hl & _); [apply Hok|done|].
  destruct (resolve_cleanup_ok i t s Hok Hi Hs) as (s1 & t1 & w1 & -> & Hok1 & Ht1 & Hct & Hp1 & Hw1 & Htask). cbn [res_bind].
  destruct (IH s1 Hok1) as (s' & w & -> & Hok' & Hw & Htoks).
  { change (pRead (obj s1)) with (getPending OpRead (obj s1)). rewrite Hp1, Hl. lia. }
  exists s', (w1 ++ w). split; [done|]. split; [done|]. split; [by rewrite Hw, Hw1, app_assoc|]. intros j. specialize (Htoks j). rewrite Ht1 in Htoks.
  destruct (decide (j = i)) as [->|Hne].
  - rewrite lookup_insert_eq in Htoks. rewrite Hi. destruct Htoks as (t' & Ht' & Hends). exists t'. split; [done|]. destruct Hct as [Hc1 Hc2].
    destruct Hends as [(Hst & _)|[_ ->]]; [congruence|]. left. split; [done|]. split; [done|]. intros k Hk. apply elem_of_app. left. auto.
  - rewrite lookup_insert_ne in Htoks by done. destruct (toks (obj s) !! j) as [u|]; [|done]. destruct Htoks as (u' & Hu' & Hends). exists u'.
    split; [done|]. destruct Hends as [(Hst & Hc & Hk)|?]; [left|by right]. split; [done|]. split; [done|]. intros k ?. apply elem_of_app. right. auto.
Qed.

Lemma resolver_cleanup_ok s :
  resolver_ok s -> exists s' w, resolver_cleanup cf s = Ret s' /\ resolver_ok s' /\ dnsc_qactive (ctx_ s') = [] /\ woken (obj s') = woken (obj s) ++ w /\
    forall j, match toks (obj s) !! j with
              | None => toks (obj s') !! j = None
              | Some t => exists t', toks (obj s') !! j = Some t' /\ ends t t' w
              end.
Proof.
  intros Hok. unfold resolver_cleanup.
  assert (forall s fuel op, resolver_ok s -> op <> OpRead -> cleanup_loop cf fuel op s = Ret s) as Hnone
    by (intros s0 fuel op H0 Hop; destruct fuel; cbn [cleanup_loop]; by rewrite (only_reads s0 op H0 Hop)).
  rewrite Hnone by done. cbn [res_bind]. destruct (cleanup_loop_ok _ s Hok (Nat.le_refl _)) as (s' & w & -> & Hok' & Hw & Htoks). cbn [res_bind].
  rewrite Hnone by done. exists s', w. split_and!; try done. pose proof Hok' as [[_ Htk'] [_ _ Hsl]].
  destruct (dnsc_qactive (ctx_ s')) as [|x l] eqn:E; [done|]. exfalso.
  assert (slot_of (obj s') (dnsq_cbdata x) = Some (dnsq_addr x)) as Hx by (apply Hsl; exists x; split; [apply list_elem_of_here|done]).
  destruct (slot_of_tok _ _ _ Hx) as (t' & Ht' & Hq). specialize (Htoks (callback_token (dnsq_cbdata x))).
  destruct (toks (obj s) !! callback_token (dnsq_cbdata x)) as [t|] eqn:Et; [|congruence].
  destruct Htoks as (t2 & Ht2 & Hends). rewrite Ht' in Ht2. injection Ht2 as <-. destruct (Htk' _ _ Ht') as [(a & b & Hab) _ Hst _].
  assert (s_ t' = STARTED) as Hs'.
  { apply Hst. unfold tok_hasPending. rewrite Hab in *. destruct (callback_type _); cbn in *; injection Hq as ->; [done|by destruct a]. }
  destruct Hends as [(_ & [Hc _] & _)|[Hn ->]]; congruence.
Qed.

(** ** Polling *)
Lemma tok_poll_ok k i t s :
  resolver_ok s -> toks (obj s) !! i = Some t ->
  exists p s' t', tok_poll (Some k) i s = Ret (p, s') /\ resolver_ok s' /\ ctx_ s' = ctx_ s /\ woken (obj s') = woken (obj s) /\
    toks (obj s') = <[i := t']> (toks (obj s)) /\ s_ t' = s_ t /\
    match s_ t with
    | STARTED => p = not_ready /\ task_ t' = Some k /\ addrs_ (data t') = addrs_ (data t)
    | DONE => p = makePollReady (addrs_ (data t))
    | CANCELLED => p = EXCEPTION (Some (FutureCancelledException CR_Unknown)) /\ addrs_ (data t') = addrs_ (data t)
    end.
Proof.
  intros [[Hio Htk] Hrg] Hi. pose proof (Htk i t Hi) as [Hq Hop Hst Hpar]. unfold tok_poll, with_tok. rewrite Hi.
  assert (forall o t', io_ok o -> toks o = <[i := t']> (toks (obj s)) -> tok_ok t' -> queries (data t') = queries (data t) ->
    resolver_ok (mkResolver o (ctx_ s))) as Hmk.
  { intros o t' Hio' Ht' Hto Hqq. split; [split; [done|]|].
    - intros j u. cbn. rewrite Ht', lookup_insert_Some. intros [[-> <-]|[Hne Hu]]; [done|by eapply Htk].
    - apply (registered_slots (obj s)); [|done]. intros d. unfold slot_of. cbn. rewrite Ht'. destruct (decide (callback_token d = i)) as [->|Hne].
      + rewrite lookup_insert_eq, Hi. cbn. by rewrite Hqq.
      + by rewrite lookup_insert_ne. }
  destruct (s_ t) eqn:Es.
  - destruct (park_ok k i t (obj s) Hio Hi Es) as (o & -> & Hio' & Ht' & _ & Hw). cbn [res_bind]. eexists _, (mkResolver o (ctx_ s)), _.
    split; [reflexivity|]. split; [|by split_and!]. eapply Hmk; [done|exact Ht'| |done]. split; cbn; try done.
  - destruct (setData_ok (mkResolve (queries (data t)) []) i t (obj s) Hio Hi) as [-> Hio']. cbn [res_bind]. set (t' := mkToken _ _ _ _ _) in *.
    exists (makePollReady (addrs_ (data t))), (mkResolver (setTok i t' (obj s)) (ctx_ s)), t'. split; [done|]. split; [|by split_and!].
    eapply Hmk; [done|done| |done]. split; cbn; try done. by rewrite Es.
  - exists (EXCEPTION (Some (FutureCancelledException CR_Unknown))), s, t. rewrite insert_id by done. by split_and!.
Qed.
End Laws.
