(* ===== verification/ResolveRuns.v ===== *)
(** * Programs that resolve names

    Runs of a program with futures of [src/include/futures/dns/ResolverFuture.h]:
    no callback is late, every future gets the addresses of its replies, and no
    task that waits is forgotten. *)

From S2P Require Import Prelude Core Channels IoObject DnsName DnsText DnsPacket DnsAnswer DnsQlist DnsResolver DnsResolverInv DnsResolverSpec DnsRuns AsyncResolver.
Local Open Scope cpp_scope.
#[local] Opaque dns_getdn.

(** [made] futures were made. *)
Record world := World { resolver : AsyncResolver; futs : gmap nat ResolverFuture; made : nat }.

(** What happens: futures are made, polled by a task, and dropped; packets come,
    time passes; the executor cancels what is in progress. *)
Inductive action :=
| Make (hostname : list Z) (flags : Z)
| PollFuture (i : nat) (k : Task) (calloc4 calloc6 : option nat)
| DropFuture (i : nat)
| Receive (l : list datagram) (now : Z)
| TimerFires (now : Z)
| BeforeWait (now : Z)
| Shutdown.

Section World.
Context (cf : dns_conf) (malloc : nat -> bool).

Definition on_resolver (w : world) (m : AsyncResolver -> res AsyncResolver) : res (option (Poll (list IPAddress)) * world) :=
  let! s := m (resolver w) in Ret (None, World s (futs w) (made w)).

Definition with_future {A} (i : nat) (w : world) (k : ResolverFuture -> res A) : res A :=
  match futs w !! i with Some f => k f | None => Abort "no such future" end.

(** The token of a future has its number. *)
Definition act (a : action) (w : world) : res (option (Poll (list IPAddress)) * world) :=
  match a with
  | Make h fl => Ret (None, World (resolver w) (<[made w := mkFuture h fl None]> (futs w)) (S (made w)))
  | PollFuture i k c4 c6 =>
      with_future i w (fun f =>
        let! (p, f, s) := future_poll cf malloc (Some k) i c4 c6 f (resolver w) in
        Ret (Some p, World s (<[i := f]> (futs w)) (made w)))
  | DropFuture i =>
      with_future i w (fun f =>
        let! s := future_drop cf f (resolver w) in Ret (None, World s (delete i (futs w)) (made w)))
  | Receive l now => on_resolver w (onEvent cf malloc false true l now)
  | TimerFires now => on_resolver w (onTimer cf false true now)
  | BeforeWait now => on_resolver w (onPrepare cf true now)
  | Shutdown => on_resolver w (resolver_cleanup cf)
  end.

(** New queries are at new addresses, and packets are as the resolver expects. *)
Definition allowed (a : action) (w : world) : Prop :=
  match a with
  | Make h fl => Forall is_byte h /\ fl <> 0%Z
  | PollFuture i k c4 c6 =>
      is_Some (futs w !! i) /\ fresh_query (ctx_ (resolver w)) c4 /\ fresh_query (ctx_ (resolver w)) c6 /\ forall a, c4 = Some a -> c6 <> Some a
  | DropFuture i => is_Some (futs w !! i)
  | Receive l now => (0 <= now)%Z /\ Forall (good_datagram cf) l
  | TimerFires now | BeforeWait now => (0 <= now)%Z
  | Shutdown => True
  end.

(** The events of the resolver in an action. *)
Definition events_of (a : action) (w : world) : list event :=
  match a with Receive _ _ | TimerFires _ | BeforeWait _ => dnsc_events (ctx_ (resolver w)) | _ => [] end.

(** The futures whose result was taken. *)
Definition takes (a : action) (p : option (Poll (list IPAddress))) : list nat :=
  match a, p with PollFuture i _ _ _, Some (VALUE (Some _)) => [i] | _, _ => [] end.

Inductive reach : world -> list event -> list nat -> Prop :=
| reach_start c : opened cf c -> reach (World (mkResolver empty_io c) ∅ 0) [] []
| reach_act w log taken a p w' :
    reach w log taken -> allowed a w -> act a w = Ret (p, w') -> reach w' (log ++ events_of a w') (takes a p ++ taken).
End World.

(** ** Consistency *)
Section Invariant.
Context (cf : dns_conf) (malloc : nat -> bool) (srch : list (list (list Z))) (Hcf : conf_ok cf srch).

(** A future has its token once it was polled; what the token holds is what its
    callbacks got, until it is taken. *)
Record world_ok (w : world) (log : list event) (taken : list nat) : Prop := {
  wo_resolver : resolver_ok cf malloc srch (resolver w);
  wo_futs : forall i f, futs w !! i = Some f -> i < made w /\ Forall is_byte (hostname_ f) /\ flags_ f <> 0%Z /\
    match token_ f with
    | Some j => j = i /\ is_Some (toks (obj (resolver w)) !! i)
    | None => toks (obj (resolver w)) !! i = None /\ answers_for i log = []
    end;
  wo_toks : forall i t, toks (obj (resolver w)) !! i = Some t -> is_Some (futs w !! i);
  wo_log : forall i, made w <= i -> answers_for i log = [];
  wo_addrs : forall i t, toks (obj (resolver w)) !! i = Some t -> i ∉ taken -> addrs_ (data t) = answers_for i log
}.

Lemma answers_for_app i l l' : answers_for i (l ++ l') = answers_for i l ++ answers_for i l'.
Proof. unfold answers_for. by rewrite bind_app. Qed.

(** ** No task is forgotten *)

(** The task [k] waits for the future [i]. *)
Definition waits_on (i : nat) (k : Task) (w : world) : Prop :=
  exists t, toks (obj (resolver w)) !! i = Some t /\ s_ t = STARTED /\ task_ t = Some k.
Definition woken_since (w w' : world) : list Task := drop (length (woken (obj (resolver w)))) (woken (obj (resolver w'))).
Definition about (i : nat) (a : action) : Prop := match a with PollFuture j _ _ _ | DropFuture j => j = i | _ => False end.
Definition remembers (a : action) (w w' : world) : Prop :=
  forall i k, waits_on i k w -> ~ about i a -> waits_on i k w' \/ k ∈ woken_since w w'.

Lemma woken_since_app w w' l : woken (obj (resolver w')) = woken (obj (resolver w)) ++ l -> woken_since w w' = l.
Proof. intros E. unfold woken_since. by rewrite E, drop_app_length. Qed.

(** ** Every action *)

(** A call of the resolver. *)
Lemma call_act w log taken f :
  world_ok w log taken -> (exists c, f (quiet (ctx_ (resolver w))) = Ret c /\ evolves cf srch (quiet (ctx_ (resolver w))) c) ->
  exists s, call f (resolver w) = Ret s /\ let w' := World s (futs w) (made w) in
    world_ok w' (log ++ dnsc_events (ctx_ s)) taken /\ forall i k, waits_on i k w -> waits_on i k w' \/ k ∈ woken_since w w'.
Proof.
  intros [Hr Hf Ht Hl Ha] Hc. destruct (call_ok cf malloc srch f (resolver w) Hr Hc) as (s & -> & Hr' & l & Hw & Hp). exists s. split; [done|].
  cbn zeta. split.
  - split; cbn [resolver futs made]; [done|..].
    + intros i g Hg. destruct (Hf i g Hg) as (? & ? & ? & Htok). split_and!; try done. specialize (Hp i). destruct (token_ g) as [j|].
      * destruct Htok as [-> [t Hi]]. rewrite Hi in Hp. destruct Hp as (t' & -> & _). eauto.
      * destruct Htok as [Hi Hans]. rewrite Hi in Hp. destruct Hp as [-> Hp]. by rewrite answers_for_app, Hans, Hp.
    + intros i t' Hi'. specialize (Hp i). destruct (toks (obj (resolver w)) !! i) as [t|] eqn:Hi; [by eapply Ht|]. destruct Hp. congruence.
    + intros i Hi. rewrite answers_for_app, Hl by done. specialize (Hp i). destruct (toks (obj (resolver w)) !! i) as [t|] eqn:Hti; [|apply Hp].
      destruct (Ht i t Hti) as [g Hg]. destruct (Hf i g Hg). lia.
    + intros i t' Hi' Hn. specialize (Hp i). destruct (toks (obj (resolver w)) !! i) as [t|] eqn:Hi; [|destruct Hp; congruence].
      destruct Hp as (t2 & Ht2 & Hadr & _). rewrite Hi' in Ht2. injection Ht2 as <-. rewrite Hadr, answers_for_app. by erewrite Ha.
  - intros i k (t & Hi & Hs & Hk). specialize (Hp i). rewrite Hi in Hp. destruct Hp as (t' & Hi' & _ & [[Hs' Hk']|(_ & _ & Hin)]).
    + left. exists t'. cbn. split_and!; congruence.
    + right. rewrite (woken_since_app _ _ l) by done. by apply Hin.
Qed.

Lemma timeouts_act w log taken now :
  world_ok w log taken -> (0 <= now)%Z ->
  exists s, call (fun c => let! (_, c) := dns_timeouts cf c 30 now in Ret c) (resolver w) = Ret s /\ let w' := World s (futs w) (made w) in
    world_ok w' (log ++ dnsc_events (ctx_ s)) taken /\ forall i k, waits_on i k w -> waits_on i k w' \/ k ∈ woken_since w w'.
Proof.
  intros Hw Hnow. apply call_act; [done|]. assert (ctx_ok cf srch (quiet (ctx_ (resolver w)))) as Hc by (destruct (rg_ctx _ _ _ _ _ (proj2 (wo_resolver _ _ _ Hw))); by split).
  destruct (dns_timeouts_ok cf srch Hcf _ 30 now Hc Hnow) as (x & c & -> & Hev & _). by exists c.
Qed.

Lemma receive_act w log taken l now :
  world_ok w log taken -> (0 <= now)%Z -> Forall (good_datagram cf) l ->
  exists s, call (fun c => dns_ioevent cf malloc c l now) (resolver w) = Ret s /\ let w' := World s (futs w) (made w) in
    world_ok w' (log ++ dnsc_events (ctx_ s)) taken /\ forall i k, waits_on i k w -> waits_on i k w' \/ k ∈ woken_since w w'.
Proof.
  intros Hw Hnow Hl. apply call_act; [done|]. assert (ctx_ok cf srch (quiet (ctx_ (resolver w)))) as Hc by (destruct (rg_ctx _ _ _ _ _ (proj2 (wo_resolver _ _ _ Hw))); by split).
  destruct (dns_ioevent_ok cf srch Hcf malloc l now _ Hc Hl Hnow) as (c & -> & Hev). by exists c.
Qed.

(** What a poll by the task [k] gives, for a token that is then [t]. *)
Definition poll_result (i : nat) (k : Task) (log : list event) (taken : list nat) (t : CompletionToken Resolve) (p : Poll (list IPAddress)) : Prop :=
  match s_ t with
  | STARTED => p = not_ready /\ task_ t = Some k
  | DONE => exists l, p = makePollReady l /\ (i ∉ taken -> l = answers_for i log)
  | CANCELLED => p = EXCEPTION (Some (FutureCancelledException CR_Unknown))
  end.

(** A token of a future that has one. *)
Lemma poll_act w log taken i f k :
  world_ok w log taken -> futs w !! i = Some f -> token_ f = Some i ->
  exists p s t', tok_poll (Some k) i (resolver w) = Ret (p, s) /\ toks (obj s) = <[i := t']> (toks (obj (resolver w))) /\ poll_result i k log taken t' p /\
    world_ok (World s (<[i := f]> (futs w)) (made w)) log (takes (PollFuture i k None None) (Some p) ++ taken).
Proof.
  intros [Hr Hf Ht Hl Ha] Hi Hj. pose proof (Hf i f Hi) as (_ & _ & _ & Htok). rewrite Hj in Htok. destruct Htok as [_ [t Hti]].
  destruct (tok_poll_ok cf malloc srch k i t (resolver w) Hr Hti) as (p & s & t' & -> & Hr' & Hc & Hw & Htk & Hs & Hp).
  exists p, s, t'. split_and!; try done.
  { unfold poll_result. rewrite Hs. destruct (s_ t); [by destruct Hp as (? & ? & _)| |apply Hp]. eexists. split; [done|]. intros Hn. by apply Ha. }
  rewrite insert_id by done. split; cbn [resolver futs made]; [done|..].
  - intros j g Hg. destruct (Hf j g Hg) as (? & ? & ? & Htok). split_and!; try done. rewrite Htk. destruct (decide (j = i)) as [->|Hne].
    + assert (g = f) as -> by congruence. rewrite Hj in *. rewrite lookup_insert_eq. eauto.
    + by rewrite lookup_insert_ne.
  - intros j u. rewrite Htk, lookup_insert_Some. intros [[-> _]|[_ Hu]]; [by eexists|by eapply Ht].
  - done.
  - intros j u. rewrite Htk, lookup_insert_Some, not_elem_of_app. intros [[<- <-]|[_ Hu]] [Hn1 Hn2]; [|by apply Ha].
    rewrite <- (Ha i t Hti Hn2). destruct (s_ t); [apply Hp|by subst p; destruct Hn1; apply list_elem_of_here|apply Hp].
Qed.

(** A future is polled for the first time. *)
Lemma resolve_act w log taken i f c4 c6 :
  world_ok w log taken -> futs w !! i = Some f -> token_ f = None ->
  fresh_query (ctx_ (resolver w)) c4 -> fresh_query (ctx_ (resolver w)) c6 -> (forall a, c4 = Some a -> c6 <> Some a) ->
  exists s t l, doResolve cf malloc i c4 c6 (hostname_ f) (flags_ f) (resolver w) = Ret s /\
    toks (obj s) = <[i := t]> (toks (obj (resolver w))) /\ s_ t <> CANCELLED /\ woken (obj s) = woken (obj (resolver w)) ++ l /\
    world_ok (World s (<[i := mkFuture (hostname_ f) (flags_ f) (Some i)]> (futs w)) (made w)) log taken.
Proof.
  intros [Hr Hf Ht Hl Ha] Hi Hj Hf4 Hf6 Hne. pose proof (Hf i f Hi) as (Hm & Hh & Hfl & Htok). rewrite Hj in Htok. destruct Htok as [Hti Hans].
  destruct (doResolve_ok cf malloc srch Hcf i c4 c6 (hostname_ f) (flags_ f) (resolver w) Hr Hti Hf4 Hf6 Hne Hh Hfl)
    as (s & t & l & -> & Hr' & Htk & Hadr & Hs & Hw). exists s, t, l. split_and!; try done. split; cbn [resolver futs made]; [done|..].
  - intros j g. rewrite lookup_insert_Some, Htk. intros [[<- <-]|[Hji Hg]].
    + cbn. rewrite lookup_insert_eq. eauto.
    + rewrite lookup_insert_ne by done. by apply Hf.
  - intros j u. rewrite Htk, lookup_insert_Some. intros [[<- _]|[Hji Hu]]; [rewrite lookup_insert_eq; eauto|]. rewrite lookup_insert_ne by done. by eapply Ht.
  - done.
  - intros j u. rewrite Htk, lookup_insert_Some. intros [[<- <-]|[_ Hu]] Hn; [by rewrite Hadr, Hans|by apply Ha].
Qed.

(** Polling a future. *)
Lemma future_act w log taken i k c4 c6 :
  world_ok w log taken -> allowed cf (PollFuture i k c4 c6) w ->
  exists p w' t, act cf malloc (PollFuture i k c4 c6) w = Ret (Some p, w') /\ toks (obj (resolver w')) = <[i := t]> (toks (obj (resolver w))) /\
    poll_result i k log taken t p /\ world_ok w' log (takes (PollFuture i k c4 c6) (Some p) ++ taken).
Proof.
  intros Hw ([f Hi] & Hf4 & Hf6 & Hne). pose proof (wo_futs _ _ _ Hw i f Hi) as (_ & _ & _ & Htok). cbn [act]. unfold with_future. rewrite Hi. unfold future_poll.
  destruct (token_ f) as [j|] eqn:Hj.
  - destruct Htok as [-> _]. destruct (poll_act w log taken i f k Hw Hi Hj) as (p & s & t' & -> & Htk & Hp & Hw'). cbn [res_bind].
    by eexists p, _, t'.
  - destruct (resolve_act w log taken i f c4 c6 Hw Hi Hj Hf4 Hf6 Hne) as (s1 & t1 & l & -> & Ht1 & _ & _ & Hw1). cbn [res_bind].
    destruct (poll_act _ log taken i (mkFuture (hostname_ f) (flags_ f) (Some i)) k Hw1) as (p & s & t' & E & Htk & Hp & Hw'); [cbn; apply lookup_insert_eq|done|].
    cbn [resolver] in E. rewrite E. cbn [res_bind]. eexists p, _, t'. split; [reflexivity|]. cbn [resolver futs made] in *. rewrite insert_insert_eq in Hw'.
    by rewrite Htk, Ht1, insert_insert_eq.
Qed.

Lemma drop_act w log taken i :
  world_ok w log taken -> is_Some (futs w !! i) ->
  exists w', act cf malloc (DropFuture i) w = Ret (None, w') /\ toks (obj (resolver w')) = delete i (toks (obj (resolver w))) /\ world_ok w' log taken.
Proof.
  intros [Hr Hf Ht Hl Ha] [f Hi]. pose proof (Hf i f Hi) as (_ & _ & _ & Htok). cbn [act]. unfold with_future. rewrite Hi. unfold future_drop.
  assert (exists s, (match token_ f with Some i => resolve_destroy cf i (resolver w) | None => Ret (resolver w) end) = Ret s /\ resolver_ok cf malloc srch s /\
    toks (obj s) = delete i (toks (obj (resolver w)))) as (s & -> & Hr' & Htk).
  { destruct (token_ f) as [j|].
    - destruct Htok as [-> [t Hti]]. by eapply resolve_destroy_ok.
    - destruct Htok as [Hti _]. exists (resolver w). by rewrite delete_id. }
  cbn [res_bind]. eexists. split; [reflexivity|]. split; [done|]. split; cbn [resolver futs made]; [done|..].
  - intros j g [Hj Hg]%lookup_delete_Some. rewrite Htk, lookup_delete_ne by done. by apply Hf.
  - intros j u. rewrite Htk. intros [Hj Hu]%lookup_delete_Some. rewrite lookup_delete_ne by done. by eapply Ht.
  - done.
  - intros j u. rewrite Htk. intros [Hj Hu]%lookup_delete_Some. by apply Ha.
Qed.

Lemma shutdown_act w log taken :
  world_ok w log taken ->
  exists w', act cf malloc Shutdown w = Ret (None, w') /\ world_ok w' log taken /\ remembers Shutdown w w'.
Proof.
  intros [Hr Hf Ht Hl Ha]. cbn [act]. unfold on_resolver. destruct (resolver_cleanup_ok cf malloc srch (resolver w) Hr) as (s & l & -> & Hr' & _ & Hw & Htk).
  cbn [res_bind]. eexists. split; [reflexivity|]. split; [split; cbn [resolver futs made]; [done|..]|].
  - intros i g Hg. destruct (Hf i g Hg) as (? & ? & ? & Htok). split_and!; try done. specialize (Htk i). destruct (token_ g) as [j|].
    + destruct Htok as [-> [t Hi]]. rewrite Hi in Htk. destruct Htk as (t' & -> & _). eauto.
    + destruct Htok as [Hi Hans]. by rewrite Hi in Htk.
  - intros i t' Hi'. specialize (Htk i). destruct (toks (obj (resolver w)) !! i) as [t|] eqn:Hi; [by eapply Ht|congruence].
  - done.
  - intros i t' Hi' Hn. specialize (Htk i). destruct (toks (obj (resolver w)) !! i) as [t|] eqn:Hi; [|congruence].
    destruct Htk as (t2 & Ht2 & Hends). rewrite Hi' in Ht2. injection Ht2 as <-. rewrite <- (Ha i t Hi Hn). by destruct Hends as [(_ & [_ ->] & _)|[_ ->]].
  - intros i k (t & Hi & Hs & Hk) _. specialize (Htk i). rewrite Hi in Htk. destruct Htk as (t' & _ & [(_ & _ & Hin)|[Hn _]]); [|done].
    right. rewrite (woken_since_app _ _ l) by done. by apply Hin.
Qed.

Lemma act_ok a w log taken :
  world_ok w log taken -> allowed cf a w ->
  exists p w', act cf malloc a w = Ret (p, w') /\ world_ok w' (log ++ events_of a w') (takes a p ++ taken) /\ remembers a w w'.
Proof.
  intros Hw Hal. destruct a as [h fl|i k c4 c6|i|l now|now|now|].
  - destruct Hal as [Hh Hfl]. eexists None, _. split; [reflexivity|]. rewrite app_nil_r. split; [|by intros i k ? _; left]. destruct Hw as [Hr Hf Ht Hl Ha].
    split; cbn [resolver futs made]; try done.
    + intros i f. rewrite lookup_insert_Some. intros [[<- <-]|[_ Hf']].
      * cbn. split; [lia|]. split_and!; try done; [|by apply Hl]. destruct (toks _ !! made w) as [t|] eqn:E; [|done].
        destruct (Ht _ _ E) as [g Hg]. destruct (Hf _ _ Hg). lia.
      * destruct (Hf i f Hf') as (? & ?). split; [lia|done].
    + intros i t Hi. rewrite lookup_insert_is_Some. destruct (decide (made w = i)); [by left|right]. split; [done|]. by eapply Ht.
    + intros i Hi. apply Hl. lia.
  - destruct (future_act w log taken i k c4 c6 Hw Hal) as (p & w' & t & -> & Htk & _ & Hw'). exists (Some p), w'. split; [done|]. cbn [events_of]. rewrite app_nil_r.
    split; [done|]. intros j k' (u & Hu & Hs & Hk) Hj. left. exists u. rewrite Htk, lookup_insert_ne; [done|]. by intros ->.
  - destruct (drop_act w log taken i Hw Hal) as (w' & -> & Htk & Hw'). exists None, w'. split; [done|]. cbn [events_of]. rewrite app_nil_r.
    split; [done|]. intros j k' (u & Hu & Hs & Hk) Hj. left. exists u. rewrite Htk, lookup_delete_ne; [done|]. by intros ->.
  - destruct Hal as [Hnow Hl]. destruct (receive_act w log taken l now Hw Hnow Hl) as (s & E & Hw' & Hrem). cbn [act]. unfold on_resolver, onEvent. rewrite E.
    cbn [res_bind]. eexists None, _. split; [reflexivity|]. split; [done|]. intros i k Hi _. by apply Hrem.
  - destruct (timeouts_act w log taken now Hw Hal) as (s & E & Hw' & Hrem). cbn [act]. unfold on_resolver, onTimer. rewrite E.
    cbn [res_bind]. eexists None, _. split; [reflexivity|]. split; [done|]. intros i k Hi _. by apply Hrem.
  - destruct (timeouts_act w log taken now Hw Hal) as (s & E & Hw' & Hrem). cbn [act]. unfold on_resolver, onPrepare. rewrite E.
    cbn [res_bind]. eexists None, _. split; [reflexivity|]. split; [done|]. intros i k Hi _. by apply Hrem.
  - destruct (shutdown_act w log taken Hw) as (w' & -> & Hw' & Hrem). exists None, w'. rewrite app_nil_r. done.
Qed.

Lemma reach_ok w log taken : reach cf malloc w log taken -> world_ok w log taken.
Proof.
  induction 1 as [c Ho|w log taken a p w' _ IH Hal Ha].
  - split; cbn; try done. split; [split; [|done]|].
    + split; cbn; try done; [intros []; constructor|]. intros [] i; cbn; (split; [by intros ?%elem_of_nil|by intros (t & ? & _)]).
    + destruct Ho as (Ha & ? & ? & ? & ?). split; cbn; [by apply opened_ok|rewrite Ha; by intros x ?%elem_of_nil|].
      intros d a. rewrite Ha. unfold slot_of. cbn. split; [done|]. by intros (x & ?%elem_of_nil & _).
  - destruct (act_ok a w log taken IH Hal) as (p' & w1 & E & Hok & _). rewrite Ha in E. by injection E as -> ->.
Qed.
End Invariant.

(** ** The properties *)

(** The queries that call back to the future [i]. *)
Definition asked (i : nat) (w : world) : list dns_query := filter (fun x => callback_token (dnsq_cbdata x) = i) (dnsc_qactive (ctx_ (resolver w))).

Lemma asked_started cf malloc srch i t w :
  resolver_ok cf malloc srch (resolver w) -> toks (obj (resolver w)) !! i = Some t -> s_ t = STARTED <-> asked i w <> [].
Proof.
  intros [[_ Htk] [_ _ Hs]] Hi. destruct (Htk i t Hi) as [(a & b & Hq) _ Hst _]. rewrite Hst. unfold tok_hasPending, asked. rewrite Hq. split.
  - intros Hp. assert (exists ty x, slot_of (obj (resolver w)) (callback_of ty i) = Some x) as (ty & x & (q & Hin & _ & Hd)%Hs).
    { destruct a as [x|]; [exists TypeA4, x|destruct b as [x|]; [exists TypeA6, x|done]]; unfold slot_of; by rewrite callback_token_of, callback_type_of, Hi; cbn; rewrite Hq. }
    intros E. apply (elem_of_nil q). rewrite <- E. apply list_elem_of_filter. by rewrite Hd, callback_token_of.
  - intros Hne. destruct (filter _ _) as [|q l] eqn:E; [done|]. assert (q ∈ q :: l) as Hin by apply list_elem_of_here. rewrite <- E in Hin.
    apply list_elem_of_filter in Hin as [<- Hin]. assert (slot_of (obj (resolver w)) (dnsq_cbdata q) = Some (dnsq_addr q)) as Hq' by (apply Hs; eauto).
    destruct (slot_of_tok _ _ _ Hq') as (t' & Ht' & Hx). rewrite Hi in Ht'. injection Ht' as <-. rewrite Hq in Hx.
    destruct (callback_type _); cbn in Hx; injection Hx as ->; [done|]. by destruct a.
Qed.


(** C26: Polling a future: while a query for it is active it is not ready, and the
    task waits; after that it is ready with the addresses that its replies had, in
    their order, or it was cancelled.  A task that waits is woken by whatever ends
    the waiting. *)
Theorem resolve_future_spec (cf : dns_conf) (malloc : nat -> bool) (srch : list (list (list Z))) (w : world) (log : list event) (taken : list nat)
    (i : nat) (k : Task) (c4 c6 : option nat) :
  conf_ok cf srch -> reach cf malloc w log taken -> allowed cf (PollFuture i k c4 c6) w ->
  exists p w', act cf malloc (PollFuture i k c4 c6) w = Ret (Some p, w') /\
    ((p = not_ready /\ asked i w' <> [] /\ waits_on i k w') \/
     (exists l, p = makePollReady l /\ asked i w' = [] /\ (i ∉ taken -> l = answers_for i log)) \/
     (p = EXCEPTION (Some (FutureCancelledException CR_Unknown)) /\ asked i w' = [])) /\
    forall a q w'', allowed cf a w' -> act cf malloc a w' = Ret (q, w'') -> ~ about i a -> waits_on i k w' ->
      waits_on i k w'' \/ k ∈ woken_since w' w''.
Proof.
  intros Hcf Hr Hal. pose proof (reach_ok cf malloc srch Hcf w log taken Hr) as Hw.
  destruct (future_act cf malloc srch Hcf w log taken i k c4 c6 Hw Hal) as (p & w' & t & E & Htk & Hp & Hw'). exists p, w'. split; [done|].
  assert (toks (obj (resolver w')) !! i = Some t) as Hi by (rewrite Htk; apply lookup_insert_eq).
  pose proof (asked_started cf malloc srch i t w' (wo_resolver _ _ _ _ _ _ Hw') Hi) as Hask. split.
  - unfold poll_result in Hp. destruct (s_ t) eqn:Es.
    + left. destruct Hp as [-> Hk]. split; [done|]. split; [by apply Hask|by exists t].
    + right. left. destruct Hp as (l & -> & Hl). exists l. split; [done|]. split; [|done]. destruct (asked i w'); [done|]. by pose proof (proj2 Hask ltac:(done)).
    + right. right. split; [done|]. destruct (asked i w'); [done|]. by pose proof (proj2 Hask ltac:(done)).
  - intros a q w'' Ha Eq Hn Hwait. destruct (act_ok cf malloc srch Hcf a w' log _ Hw' Ha) as (q' & w2 & E2 & _ & Hrem). rewrite Eq in E2.
    injection E2 as -> ->. by apply Hrem.
Qed.

(** ** An example: the addresses of "a" *)

Definition next_world (a : action) (w : world) : world := (after (None, w) (act sample_conf (fun _ => true) a w)).2.
Definition next_poll (a : action) (w : world) : option (Poll (list IPAddress)) := (after (None, w) (act sample_conf (fun _ => true) a w)).1.

Lemma reach_next a w log taken :
  reach sample_conf (fun _ => true) w log taken -> allowed sample_conf a w ->
  reach sample_conf (fun _ => true) (next_world a w) (log ++ events_of a (next_world a w)) (takes a (next_poll a w) ++ taken).
Proof.
  intros Hr Ha. pose proof (reach_ok _ _ [] sample_conf_ok _ _ _ Hr) as Hw.
  destruct (act_ok _ _ [] sample_conf_ok a w log taken Hw Ha) as (p & w' & E & _). unfold next_world, next_poll.
  apply (reach_act _ _ w log taken a); [done|done|]. by rewrite E.
Qed.

Definition world0 : world := World (mkResolver empty_io sample_ctx) ∅ 0.
Definition world1 : world := next_world (Make [97%Z] EnableTypeA4) world0.
Definition world2 : world := next_world (PollFuture 0 5 (Some 1) (Some 2)) world1.
Definition world3 : world := next_world (BeforeWait 0) world2.
Definition reply1 : datagram :=
  Datagram (Some (Sockaddr false 53 [127; 0; 0; 1]%Z))
    match dnsc_qactive (ctx_ (resolver world3)) with q :: _ => fst (dnsq_id q) :: snd (dnsq_id q) :: drop 2 sample_reply | [] => [] end.
Definition world4 : world := next_world (Receive [reply1] 0) world3.
Definition log4 : list event := events_of (BeforeWait 0) world3 ++ events_of (Receive [reply1] 0) world4.

Lemma reply1_good : good_datagram sample_conf reply1.
Proof. replace reply1 with sample_datagram by (vm_compute; reflexivity). apply sample_datagram_good. Qed.

Lemma world3_reach : reach sample_conf (fun _ => true) world3 (events_of (BeforeWait 0) world3) [].
Proof.
  apply (reach_next (BeforeWait 0) world2 [] []); [|done].
  apply (reach_next (PollFuture 0 5 (Some 1) (Some 2)) world1 [] []).
  - apply (reach_next (Make [97%Z] EnableTypeA4) world0 [] []); [constructor; apply sample_opened|]. split; [by repeat constructor|done].
  - split_and!; [by eexists|by intros a _ ?%elem_of_nil..|by intros a [= <-]].
Qed.

Lemma world4_reach : reach sample_conf (fun _ => true) world4 log4 [].
Proof. apply (reach_next (Receive [reply1] 0) world3 _ []); [apply world3_reach|]. split; [done|]. apply Forall_singleton, reply1_good. Qed.


(** The task is woken, and the future is ready with the address. *)
Lemma resolve_future_spec_witness :
  woken_since world3 world4 = [5] /\ answers_for 0 log4 = [IPAddressV4 [10; 0; 0; 1]%Z] /\
  exists w', act sample_conf (fun _ => true) (PollFuture 0 6 None None) world4 = Ret (Some (makePollReady [IPAddressV4 [10; 0; 0; 1]%Z]), w').
Proof.
  split; [vm_compute; reflexivity|]. split; [vm_compute; reflexivity|].
  destruct (resolve_future_spec sample_conf (fun _ => true) [] world4 log4 [] 0 6 None None sample_conf_ok world4_reach) as (p & w' & E & Hp & _).
  - split_and!; [|done..]. vm_compute. by eexists.
  - exists w'. rewrite E. assert (Some p = Some (makePollReady [IPAddressV4 [10; 0; 0; 1]%Z])) as ->; [|done].
    transitivity (next_poll (PollFuture 0 6 None None) world4); [unfold next_poll; by rewrite E|vm_compute; reflexivity].
Defined.
