(* ===== verification/HttpController.v ===== *)
(** * Routing of HTTP requests

    Models [src/include/futures/http/HttpController.h]: handlers by pattern and
    method, the choice of the handler of a request, and the replies when there is
    none or it throws.  The patterns are those of a [std::map] of regular
    expressions, which is a list sorted by the text of the pattern; matching a
    pattern is an argument, and so is the type of the boxed futures that handlers
    return, with the function that makes a ready one of a response. *)

From S2P Require Import Prelude Core HttpSyntax HttpMessage.
Local Open Scope cpp_scope.

(** ** Ordered maps *)

(** [operator<] of strings, which is that of patterns *)
(** [src/include/futures/http/HttpController.h:97-99] regex_orderable::operator< *)
Fixpoint str_lt (a b : list Z) : bool :=
  match a, b with
  | _, [] => false
  | [], _ :: _ => true
  | x :: a, y :: b => (x <? y)%Z || ((x =? y)%Z && str_lt a b)
  end.

Section Ordered.
Context {V : Type}.

(** [m[k]] of a [std::map] is set to [f] of what it was. *)
Fixpoint map_update (k : list Z) (new : V) (f : V -> V) (m : list (list Z * V)) : list (list Z * V) :=
  match m with
  | [] => [(k, f new)]
  | (k', v) :: m' =>
      if str_lt k k' then (k, f new) :: m
      else if str_lt k' k then (k', v) :: map_update k new f m'
      else (k', f v) :: m'
  end.

(** The elements at a key. *)
Definition at_key (k : list Z) (m : list (list Z * V)) : option V := snd <$> find (fun x => bool_decide (fst x = k)) m.

Definition ordered_keys (m : list (list Z * V)) : Prop := StronglySorted (fun x y => str_lt (fst x) (fst y) = true) m.
End Ordered.

Lemma str_lt_irrefl a : str_lt a a = false.
Proof. induction a as [|x a IH]; [done|]. cbn. by rewrite Z.ltb_irrefl, Z.eqb_refl, IH. Qed.

Lemma str_lt_trans a b c : str_lt a b = true -> str_lt b c = true -> str_lt a c = true.
Proof.
  revert b c. induction a as [|x a IH]; intros [|y b] [|z c]; cbn; try done.
  intros [Hxy|[Hxy Hab]%andb_true_iff]%orb_true_iff [Hyz|[Hyz Hbc]%andb_true_iff]%orb_true_iff;
    apply orb_true_iff; rewrite ?andb_true_iff; rewrite ?Z.ltb_lt, ?Z.eqb_eq in *; [left; lia..|].
  right. split; [lia|]. by eapply IH.
Qed.

Lemma str_lt_total a b : str_lt a b = false -> str_lt b a = false -> a = b.
Proof.
  revert b. induction a as [|x a IH]; intros [|y b]; cbn; try done.
  intros [Hxy Ha]%orb_false_iff [Hyx Hb]%orb_false_iff. apply Z.ltb_ge in Hxy, Hyx. assert (x = y) as -> by lia.
  rewrite Z.eqb_refl in *. f_equal. by apply IH.
Qed.

Section MapLaws.
Context {V : Type}.
Implicit Types (m : list (list Z * V)).

Lemma map_update_keys k new (f : V -> V) m x : x ∈ map_update k new f m -> fst x = k \/ exists y, y ∈ m /\ fst x = fst y.
Proof.
  induction m as [|[k' v] m IH]; cbn; [intros ->%list_elem_of_singleton; by left|].
  destruct (str_lt k k'); [|destruct (str_lt k' k) eqn:E].
  - intros [->|Hx]%elem_of_cons; [by left|right; eauto].
  - intros [->|[?|(y & Hy & Ey)]%IH]%elem_of_cons; [right; eexists; split; [apply list_elem_of_here|done]|by left|].
    right. exists y. split; [by apply list_elem_of_further|done].
  - intros [->|Hx]%elem_of_cons; right; [eexists; split; [apply list_elem_of_here|done]|].
    exists x. split; [by apply list_elem_of_further|done].
Qed.

Lemma map_update_ordered k new (f : V -> V) m : ordered_keys m -> ordered_keys (map_update k new f m).
Proof.
  unfold ordered_keys. induction 1 as [|[k' v] m Hm IH Hall]; cbn; [by repeat constructor|]. destruct (str_lt k k') eqn:E1; [|destruct (str_lt k' k) eqn:E2].
  - constructor; [by constructor|]. constructor; [done|]. eapply Forall_impl; [done|]. intros y. by apply str_lt_trans.
  - constructor; [done|]. apply Forall_forall. intros x [->|(y & Hy & ->)]%map_update_keys; [done|]. rewrite Forall_forall in Hall. by apply Hall.
  - constructor; [done|]. eapply Forall_impl; [done|]. done.
Qed.

Lemma at_key_elem k v m : ordered_keys m -> (k, v) ∈ m -> at_key k m = Some v.
Proof.
  unfold ordered_keys, at_key. induction 1 as [|[k' v'] m Hm IH Hall]; [by intros ?%elem_of_nil|]. cbn. case_bool_decide as Hk.
  - subst. intros [[= ->]|Hin]%elem_of_cons; [done|]. rewrite Forall_forall in Hall. specialize (Hall _ Hin). cbn in Hall. by rewrite str_lt_irrefl in Hall.
  - intros [[= -> ->]|Hin]%elem_of_cons; [done|]. by apply IH.
Qed.

Lemma at_key_some k v m : at_key k m = Some v -> (k, v) ∈ m.
Proof.
  unfold at_key. destruct (find _ m) as [[k' v']|] eqn:E; [|done]. intros [= <-]. apply find_some in E as [Hin Hk]. cbn in Hk.
  apply bool_decide_eq_true in Hk as ->. by apply list_elem_of_In.
Qed.

Lemma at_key_cons k k' v m : at_key k ((k', v) :: m) = if bool_decide (k' = k) then Some v else at_key k m.
Proof. unfold at_key. cbn. by case_bool_decide. Qed.

Lemma at_key_less k k' v m : ordered_keys ((k', v) :: m) -> str_lt k k' = true -> at_key k ((k', v) :: m) = None.
Proof.
  intros Hm Hk. destruct (at_key k _) as [u|] eqn:E; [|done]. apply at_key_some in E. inversion Hm as [|? ? _ Hall]; subst.
  apply elem_of_cons in E as [[= <- <-]|Hin]; [by rewrite str_lt_irrefl in Hk|]. rewrite Forall_forall in Hall. specialize (Hall _ Hin). cbn in Hall.
  pose proof (str_lt_trans _ _ _ Hk Hall) as H. by rewrite str_lt_irrefl in H.
Qed.

Lemma at_key_update k k' new (f : V -> V) m :
  ordered_keys m -> at_key k' (map_update k new f m) = if bool_decide (k' = k) then Some (f (default new (at_key k m))) else at_key k' m.
Proof.
  unfold ordered_keys. induction 1 as [|[j v] m Hm IH Hall]; cbn [map_update].
  - rewrite at_key_cons. repeat case_bool_decide; first [done|congruence].
  - destruct (str_lt k j) eqn:E1; [|destruct (str_lt j k) eqn:E2].
    + rewrite at_key_cons, (at_key_less k) by (done || by constructor). repeat case_bool_decide; first [done|congruence].
    + rewrite !at_key_cons, IH. repeat case_bool_decide; subst; try done. by rewrite str_lt_irrefl in E2.
    + pose proof (str_lt_total _ _ E1 E2) as ->. rewrite !at_key_cons. repeat case_bool_decide; first [done|congruence].
Qed.
End MapLaws.

(** ** The controller *)

(** [src/include/futures/http/HttpController.h:26-33] HttpController::HttpMethod *)
Inductive HttpMethod := Delete | Get | Head | Post | Put | Unknown.
#[global] Instance HttpMethod_eq_dec : EqDecision HttpMethod.
Proof. solve_decision. Defined.

Definition method_index (m : HttpMethod) : nat :=
  match m with Delete => 0 | Get => 1 | Head => 2 | Post => 3 | Put => 4 | Unknown => 5 end.

(** [src/include/futures/http/HttpController.h:34-34] HttpController::kHttpMethodCount *)
Definition kHttpMethodCount : nat := method_index Unknown.

(** The number of a method. *)
(** [src/include/futures/http/http_parser.h:164-212] HTTP_METHOD_MAP, http_method *)
Definition method_number (m : http_method) : nat :=
  match m with
  | HTTP_DELETE => 0 | HTTP_GET => 1 | HTTP_HEAD => 2 | HTTP_POST => 3 | HTTP_PUT => 4 | HTTP_CONNECT => 5 | HTTP_OPTIONS => 6
  | HTTP_TRACE => 7 | HTTP_COPY => 8 | HTTP_LOCK => 9 | HTTP_MKCOL => 10 | HTTP_MOVE => 11 | HTTP_PROPFIND => 12 | HTTP_PROPPATCH => 13
  | HTTP_SEARCH => 14 | HTTP_UNLOCK => 15 | HTTP_BIND => 16 | HTTP_REBIND => 17 | HTTP_UNBIND => 18 | HTTP_ACL => 19 | HTTP_REPORT => 20
  | HTTP_MKACTIVITY => 21 | HTTP_CHECKOUT => 22 | HTTP_MERGE => 23 | HTTP_MSEARCH => 24 | HTTP_NOTIFY => 25 | HTTP_SUBSCRIBE => 26
  | HTTP_UNSUBSCRIBE => 27 | HTTP_PATCH => 28 | HTTP_PURGE => 29 | HTTP_MKCALENDAR => 30 | HTTP_LINK => 31 | HTTP_UNLINK => 32
  end.

Section Controller.
Context {W Mt Fut : Type} (boxed_ok : HttpFrame -> Fut) (regex_valid : list Z -> bool) (regex_match : list Z -> list Z -> option Mt).

(** [src/include/futures/http/HttpController.h:14-22] HttpRequest *)
Record HttpRequest := mkRequest { raw : HttpFrame; matches : option Mt }.

Definition RequestHandler : Type := HttpRequest -> eff W Fut.

(** [src/include/futures/http/HttpController.h:102-103] HttpController *)
Record HttpController := mkController {
  resource_ : list (list Z * list (option RequestHandler));
  default_ : list (option RequestHandler)
}.

(** A [Response] with a status and a body. *)
Definition response (status : Z) (text : string) : HttpFrame := mkFrame HPE_OK status HTTP_DELETE 0 [] ∅ false (bytes text).

(** [src/include/futures/http/HttpController.h:84-89] HttpController::defaultHandler *)
Definition defaultHandler : RequestHandler := fun _ => eff_ret (boxed_ok (response 404 "<h1>Not Found</h1>")).

(** [src/include/futures/http/HttpController.h:38-40] HttpController::HttpController *)
Definition newController : HttpController :=
  mkController [] (<[kHttpMethodCount := Some defaultHandler]> (replicate (S kHttpMethodCount) None)).

(** The pattern is compiled before the map is searched; the array of a pattern
    has no element for [Unknown]. *)
(** [src/include/futures/http/HttpController.h:42-44] HttpController::addRoute *)
Definition addRoute (m : HttpMethod) (pattern : list Z) (h : RequestHandler) (c : HttpController) : res HttpController :=
  if negb (regex_valid pattern) then Throw (std_runtime_error "regex_error")
  else if method_index m <? kHttpMethodCount then
    Ret (mkController (map_update pattern (replicate kHttpMethodCount None) (<[method_index m := Some h]>) (resource_ c)) (default_ c))
  else Abort "std::array: index out of range".

(** [src/include/futures/http/HttpController.h:46-48] HttpController::addDefaultRoute *)
Definition addDefaultRoute (m : HttpMethod) (h : RequestHandler) (c : HttpController) : HttpController :=
  mkController (resource_ c) (<[method_index m := Some h]> (default_ c)).

(** [src/include/futures/http/HttpController.h:50-64] HttpController::post, get, head, put *)
Definition post (pattern : list Z) (h : RequestHandler) : HttpController -> res HttpController := addRoute Post pattern h.
Definition get (pattern : list Z) (h : RequestHandler) : HttpController -> res HttpController := addRoute Get pattern h.
Definition head (pattern : list Z) (h : RequestHandler) : HttpController -> res HttpController := addRoute Head pattern h.
Definition put (pattern : list Z) (h : RequestHandler) : HttpController -> res HttpController := addRoute Put pattern h.

(** [src/include/futures/http/HttpController.h:110-118] HttpController::findResource, loop *)
Fixpoint find_route (m : nat) (path : list Z) (l : list (list Z * list (option RequestHandler))) : option (RequestHandler * Mt) :=
  match l with
  | [] => None
  | (pattern, a) :: l =>
      match mjoin (a !! m) with
      | Some h => match regex_match pattern path with Some x => Some (h, x) | None => find_route m path l end
      | None => find_route m path l
      end
  end.

(** The handler, which may be empty, and the request with its matches. *)
(** [src/include/futures/http/HttpController.h:105-123] HttpController::findResource *)
Definition findResource (c : HttpController) (req : HttpFrame) : option RequestHandler * HttpRequest :=
  let m := method_number (frame_method req) in
  if kHttpMethodCount <=? m then (mjoin (default_ c !! kHttpMethodCount), mkRequest req None)
  else match find_route m (path req) (resource_ c) with
       | Some (h, x) => (Some h, mkRequest req (Some x))
       | None => match mjoin (default_ c !! m) with
                 | Some h => (Some h, mkRequest req None)
                 | None => (mjoin (default_ c !! kHttpMethodCount), mkRequest req None)
                 end
       end.

(** [src/include/futures/http/HttpController.h:69-82] HttpController::operator() *)
Definition serve (c : HttpController) (req : HttpFrame) : eff W Fut := fun w =>
  let '(f, r) := findResource c req in
  match f with
  | None => (Abort "must not be empty", w)
  | Some f =>
      match f r w with
      | (Throw e, w') =>
          if is_std e then (Ret (boxed_ok (response 500 "<h1>Internal Error</h1>")), w') else (Throw e, w')
      | x => x
      end
  end.

(** ** Registrations *)

Inductive registration :=
| Route (m : HttpMethod) (pattern : list Z) (h : RequestHandler)
| Default (m : HttpMethod) (h : RequestHandler).

Definition register (c : HttpController) (r : registration) : res HttpController :=
  match r with
  | Route m p h => addRoute m p h c
  | Default m h => Ret (addDefaultRoute m h c)
  end.

Fixpoint registers (c : HttpController) (l : list registration) : res HttpController :=
  match l with [] => Ret c | r :: l => let! c := register c r in registers c l end.

(** The last handler that was registered. *)
Definition route_of (m : nat) (pattern : list Z) (l : list registration) : option RequestHandler :=
  last (omap (fun r => match r with
                       | Route m' p h => if bool_decide (method_index m' = m /\ p = pattern) then Some h else None
                       | _ => None
                       end) l).
Definition default_of (m : nat) (l : list registration) : option RequestHandler :=
  last (omap (fun r => match r with Default m' h => if bool_decide (method_index m' = m) then Some h else None | _ => None end) l).

Definition allowed (r : registration) : Prop :=
  match r with Route m p _ => m <> Unknown /\ regex_valid p = true | Default _ _ => True end.

(** Pattern [p] matches the request, with [x], and has handler [h]. *)
Definition candidate (l : list registration) (req : HttpFrame) (p : list Z) (h : RequestHandler) (x : Mt) : Prop :=
  route_of (method_number (frame_method req)) p l = Some h /\ regex_match p (path req) = Some x.

(** The handler that a request is due, and the matches it is given. *)
Inductive chosen (l : list registration) (req : HttpFrame) : RequestHandler -> option Mt -> Prop :=
| chosen_other h :
    kHttpMethodCount <= method_number (frame_method req) ->
    h = default defaultHandler (default_of kHttpMethodCount l) ->
    chosen l req h None
| chosen_route p h x :
    method_number (frame_method req) < kHttpMethodCount ->
    candidate l req p h x ->
    (forall p' h' x', candidate l req p' h' x' -> p' = p \/ str_lt p p' = true) ->
    chosen l req h (Some x)
| chosen_default h :
    method_number (frame_method req) < kHttpMethodCount ->
    (forall p' h' x', ~ candidate l req p' h' x') ->
    h = default (default defaultHandler (default_of kHttpMethodCount l)) (default_of (method_number (frame_method req)) l) ->
    chosen l req h None.

Lemma chosen_functional l req h x h' x' : chosen l req h x -> chosen l req h' x' -> h = h' /\ x = x'.
Proof.
  intros [h1 Hm E|p h1 x1 Hm Hc Hmin|h1 Hm Hn E] [h2 Hm' E'|p' h2 x2 Hm' Hc' Hmin'|h2 Hm' Hn' E']; try lia; try (by subst).
  - assert (p = p') as ->.
    { destruct (Hmin _ _ _ Hc') as [|H1]; [done|]. destruct (Hmin' _ _ _ Hc) as [|H2]; [done|].
      pose proof (str_lt_trans _ _ _ H1 H2) as H. by rewrite str_lt_irrefl in H. }
    destruct Hc as [E1 E2], Hc' as [E3 E4]. split; congruence.
  - by destruct (Hn' _ _ _ Hc).
  - by destruct (Hn _ _ _ Hc').
Qed.

(** ** What the registrations leave *)

(** The controller after the registrations [l]. *)
Record holds (l : list registration) (c : HttpController) : Prop := mkHolds {
  holds_ordered : ordered_keys (resource_ c);
  holds_arrays : forall p a, at_key p (resource_ c) = Some a -> length a = kHttpMethodCount;
  holds_route : forall m p, m < kHttpMethodCount -> mjoin (mjoin ((.!! m) <$> at_key p (resource_ c))) = route_of m p l;
  holds_defaults : length (default_ c) = S kHttpMethodCount;
  holds_default : forall m, m < kHttpMethodCount -> mjoin (default_ c !! m) = default_of m l;
  holds_other : mjoin (default_ c !! kHttpMethodCount) = Some (default defaultHandler (default_of kHttpMethodCount l))
}.

Lemma route_of_snoc m p l r :
  route_of m p (l ++ [r]) =
  match r with
  | Route m' p' h => if bool_decide (method_index m' = m /\ p' = p) then Some h else route_of m p l
  | Default _ _ => route_of m p l
  end.
Proof.
  unfold route_of. rewrite omap_app. destruct r; cbn; [case_bool_decide|]; by rewrite ?last_snoc, ?app_nil_r.
Qed.

Lemma default_of_snoc m l r :
  default_of m (l ++ [r]) =
  match r with
  | Default m' h => if bool_decide (method_index m' = m) then Some h else default_of m l
  | Route _ _ _ => default_of m l
  end.
Proof.
  unfold default_of. rewrite omap_app. destruct r; cbn; [|case_bool_decide]; by rewrite ?last_snoc, ?app_nil_r.
Qed.

Lemma method_index_le m : method_index m <= kHttpMethodCount.
Proof. destruct m; cbn; lia. Qed.

Lemma holds_new : holds [] newController.
Proof.
  split; try done; [apply SSorted_nil|].
  intros m Hm. cbn in *. do 5 (destruct m as [|m]; [done|]). lia.
Qed.

Lemma array_insert {A} (a : list (option A)) i h m :
  i < length a -> mjoin (<[i := Some h]> a !! m) = if bool_decide (i = m) then Some h else mjoin (a !! m).
Proof.
  intros Hi. case_bool_decide as E; [subst; by rewrite list_lookup_insert_eq|by rewrite list_lookup_insert_ne].
Qed.

Lemma holds_addRoute l c m p h :
  holds l c -> m <> Unknown -> regex_valid p = true ->
  exists c', addRoute m p h c = Ret c' /\ holds (l ++ [Route m p h]) c'.
Proof.
  intros [Ho Ha Hr Hl Hd Hx] Hm Hp. assert (Hi : method_index m < kHttpMethodCount) by (destruct m; cbn; lia || done).
  unfold addRoute. rewrite Hp. cbn [negb]. rewrite (proj2 (Nat.ltb_lt _ _) Hi). eexists. split; [done|].
  assert (Hnew : length (default (replicate kHttpMethodCount None) (at_key p (resource_ c))) = kHttpMethodCount).
  { destruct (at_key p (resource_ c)) as [a|] eqn:E; [by apply Ha in E|done]. }
  split; cbn [resource_ default_]; try done.
  - by apply map_update_ordered.
  - intros q a. rewrite at_key_update by done. case_bool_decide; [|apply Ha]. intros [= <-]. by rewrite length_insert.
  - intros k q Hk. rewrite route_of_snoc, at_key_update by done. specialize (Hr k q Hk). repeat case_bool_decide; subst; try (exact Hr || tauto); cbn [fmap option_fmap option_map mjoin option_join].
    + rewrite array_insert by lia. case_bool_decide; [done|tauto].
    + rewrite array_insert by lia. case_bool_decide; [tauto|]. rewrite <- Hr. destruct (at_key p (resource_ c)); [done|].
      cbn -[replicate kHttpMethodCount]. by rewrite lookup_replicate_2 by lia.
    + naive_solver.
  - intros k Hk. rewrite default_of_snoc. by apply Hd.
  - rewrite default_of_snoc. done.
Qed.

Lemma holds_addDefaultRoute l c m h : holds l c -> holds (l ++ [Default m h]) (addDefaultRoute m h c).
Proof.
  intros [Ho Ha Hr Hl Hd Hx]. pose proof (method_index_le m) as Hm. split; cbn [addDefaultRoute resource_ default_]; try done.
  - intros k q Hk. rewrite route_of_snoc. by apply Hr.
  - by rewrite length_insert.
  - intros k Hk. rewrite default_of_snoc, array_insert, Hd by lia. done.
  - rewrite default_of_snoc, array_insert, Hx by lia. by case_bool_decide.
Qed.

Lemma registers_holds l l0 c :
  holds l0 c -> Forall allowed l -> exists c', registers c l = Ret c' /\ holds (l0 ++ l) c'.
Proof.
  intros Hc Hl. revert l0 c Hc. induction Hl as [|r l Hr Hl IH]; intros l0 c Hc; [exists c; by rewrite app_nil_r|].
  assert (exists c1, register c r = Ret c1 /\ holds (l0 ++ [r]) c1) as (c1 & E1 & H1).
  { destruct r as [m p h|m h]; cbn in Hr |- *; [destruct Hr; by apply holds_addRoute|]. eexists. split; [done|]. by apply holds_addDefaultRoute. }
  destruct (IH _ _ H1) as (c' & E' & H'). exists c'. cbn. rewrite E1. cbn. split; [done|]. by rewrite <- app_assoc in H'.
Qed.

(** ** The choice *)

Lemma find_route_least m u (l : list (list Z * list (option RequestHandler))) :
  ordered_keys l ->
  match find_route m u l with
  | Some (h, x) => exists p a, (p, a) ∈ l /\ mjoin (a !! m) = Some h /\ regex_match p u = Some x /\
      forall p' a', (p', a') ∈ l -> is_Some (mjoin (a' !! m)) -> is_Some (regex_match p' u) -> p' = p \/ str_lt p p' = true
  | None => forall p a, (p, a) ∈ l -> is_Some (mjoin (a !! m)) -> is_Some (regex_match p u) -> False
  end.
Proof.
  unfold ordered_keys. induction 1 as [|[q b] l Hl IH Hall]; [by intros ? ? ?%elem_of_nil|]. cbn.
  assert (Hskip : (is_Some (mjoin (b !! m)) -> is_Some (regex_match q u) -> False) ->
    match find_route m u l with
    | Some (h, x) => exists p a, (p, a) ∈ (q, b) :: l /\ mjoin (a !! m) = Some h /\ regex_match p u = Some x /\
        forall p' a', (p', a') ∈ (q, b) :: l -> is_Some (mjoin (a' !! m)) -> is_Some (regex_match p' u) -> p' = p \/ str_lt p p' = true
    | None => forall p a, (p, a) ∈ (q, b) :: l -> is_Some (mjoin (a !! m)) -> is_Some (regex_match p u) -> False
    end).
  { intros Hno. destruct (find_route m u l) as [[h x]|].
    - destruct IH as (p & a & Hin & Eh & Ex & Hmin). exists p, a. split; [by apply list_elem_of_further|]. do 2 (split; [done|]).
      intros p' a' [[= -> ->]|Hin']%elem_of_cons; [intros; exfalso; auto|by apply Hmin].
    - intros p a [[= -> ->]|Hin']%elem_of_cons; [done|by apply IH]. }
  destruct (mjoin (b !! m)) as [h|] eqn:Eh; [destruct (regex_match q u) as [x|] eqn:Ex|].
  - exists q, b. split; [apply list_elem_of_here|]. do 2 (split; [done|]). intros p' a' [[= -> ->]|Hin]%elem_of_cons _ _; [by left|right].
    rewrite Forall_forall in Hall. by apply (Hall _ Hin).
  - apply Hskip. intros _ [? [=]].
  - apply Hskip. intros [? [=]].
Qed.

Lemma holds_candidate l c req p h x :
  holds l c -> method_number (frame_method req) < kHttpMethodCount -> candidate l req p h x ->
  exists a, (p, a) ∈ resource_ c /\ mjoin (a !! method_number (frame_method req)) = Some h.
Proof.
  intros Hc Hm [Hr _]. rewrite <- (holds_route _ _ Hc) in Hr by done. destruct (at_key p (resource_ c)) as [a|] eqn:E; [|done].
  exists a. split; [by apply at_key_some|]. done.
Qed.

Lemma findResource_chosen l c req :
  holds l c -> exists h x, findResource c req = (Some h, mkRequest req x) /\ chosen l req h x.
Proof.
  intros Hc. unfold findResource. destruct (Nat.leb_spec kHttpMethodCount (method_number (frame_method req))) as [Hm|Hm].
  { rewrite (holds_other _ _ Hc). do 2 eexists. split; [done|]. by apply chosen_other. }
  pose proof (find_route_least (method_number (frame_method req)) (path req) _ (holds_ordered _ _ Hc)) as Hf.
  destruct (find_route _ _ _) as [[h x]|].
  - destruct Hf as (p & a & Hin & Eh & Ex & Hmin). exists h, (Some x). split; [done|]. apply (chosen_route _ _ p); [done| |].
    + split; [|done]. rewrite <- (holds_route _ _ Hc) by done. by rewrite (at_key_elem _ a _ (holds_ordered _ _ Hc)).
    + intros p' h' x' Hcand. destruct (holds_candidate _ _ _ _ _ _ Hc Hm Hcand) as (a' & Hin' & Eh'). destruct Hcand as [_ Ex']. eapply Hmin; eauto.
  - rewrite (holds_default _ _ Hc) by done. rewrite (holds_other _ _ Hc).
    assert (Hn : forall p' h' x', ~ candidate l req p' h' x').
    { intros p' h' x' Hcand. destruct (holds_candidate _ _ _ _ _ _ Hc Hm Hcand) as (a' & Hin' & Eh'). destruct Hcand as [_ Ex']. eapply Hf; eauto. }
    destruct (default_of _ l) as [h|] eqn:Ed; do 2 eexists; (split; [done|]); apply chosen_default; try done; by rewrite Ed.
Qed.

(** C18: after any registrations of valid patterns, [HttpController::operator()]
    gives a request to exactly the handler it is due: the one last registered
    for the method and the least of the matching patterns, else the default of
    the method, else the default for unknown methods, which is a 404 page unless
    replaced; and a standard exception of the handler becomes a 500 page. *)
Theorem http_router_spec (l : list registration) (req : HttpFrame) :
  Forall allowed l ->
  exists c, registers newController l = Ret c /\
    (forall h x, chosen l req h x <-> findResource c req = (Some h, mkRequest req x)) /\
    (forall w, exists h x, chosen l req h x /\
      serve c req w =
      match h (mkRequest req x) w with
      | (Throw e, w') =>
          if is_std e then (Ret (boxed_ok (response 500 "<h1>Internal Error</h1>")), w') else (Throw e, w')
      | r => r
      end).
Proof.
  intros Hl. destruct (registers_holds l [] newController holds_new Hl) as (c & Ec & Hc). exists c. split; [done|].
  destruct (findResource_chosen _ _ req Hc) as (h & x & Ef & Hx). split.
  - intros h' x'. split; [|rewrite Ef; by intros [= <- <-]]. intros Hx'. by destruct (chosen_functional _ _ _ _ _ _ Hx Hx') as [-> ->].
  - intros w. exists h, x. split; [done|]. unfold serve. by rewrite Ef.
Qed.
End Controller.

(** ** An instance *)

Module HttpControllerEx.
(** A pattern matches what it is a prefix of, with the rest. *)
Fixpoint prefix_match (p u : list Z) : option (list Z) :=
  match p, u with
  | [], _ => Some u
  | _ :: _, [] => None
  | x :: p, y :: u => if (x =? y)%Z then prefix_match p u else None
  end.

(** It notes its name and the matches. *)
Definition named (n : Z) : @RequestHandler (list (Z * option (list Z))) (list Z) HttpFrame :=
  fun r w => (Ret (response 200 "ok"), w ++ [(n, matches r)]).
Definition throws : @RequestHandler (list (Z * option (list Z))) (list Z) HttpFrame := fun _ w => (Throw (UserException 7), w).

Definition site : list registration :=
  [Route Get (bytes "/static") (named 1); Route Get (bytes "/") (named 2); Route Post (bytes "/") throws;
   Default Put (named 3); Route Get (bytes "/static") (named 4)].

Definition request (m : http_method) (u : string) : HttpFrame := mkFrame HPE_OK 0 m 0 (bytes u) ∅ true [].

(** What serving a request notes, and the status of the reply; a ready future is
    its response. *)
Definition served (m : http_method) (u : string) : option (list (Z * option (list Z)) * Z) :=
  match registers (fun _ => true) (newController id) site with
  | Ret c =>
      match serve id prefix_match c (request m u) [] with
      | (Ret f, w) => Some (w, frame_http_errno f)
      | _ => None
      end
  | _ => None
  end.

(** The pattern ["/"] hides ["/static"], which sorts after it. *)
Example served_examples :
  served HTTP_GET "/static/x" = Some ([(2%Z, Some (bytes "static/x"))], 200%Z) /\
  served HTTP_POST "/form" = Some ([], 500%Z) /\
  served HTTP_PUT "/form" = Some ([(3%Z, None)], 200%Z) /\
  served HTTP_HEAD "/form" = Some ([], 404%Z) /\ served HTTP_PATCH "/form" = Some ([], 404%Z).
Proof. vm_compute. repeat split. Qed.

Lemma http_router_spec_witness :
  Forall (allowed (fun _ => true)) site /\
  exists c, registers (fun _ => true) (newController id) site = Ret c /\
    (forall h x, chosen id prefix_match site (request HTTP_GET "/static/x") h x <->
       findResource prefix_match c (request HTTP_GET "/static/x") = (Some h, mkRequest (request HTTP_GET "/static/x") x)).
Proof.
  assert (Hl : Forall (allowed (fun _ => true)) site) by (repeat constructor; done).
  split; [exact Hl|].
  destruct (http_router_spec id (fun _ => true) prefix_match site (request HTTP_GET "/static/x") Hl) as (c & Ec & Hc & _).
  exists c. split; [exact Ec|exact Hc].
Defined.
End HttpControllerEx.
