(* ===== verification/ServerSocket.v ===== *)
(** * AsyncServerSocket

    Models [src/include/futures/io/AsyncServerSocket.h] and [Socket::accept] of
    [src/src/TcpStream.cpp]: the token that queues accepted connections, the
    event that drains the listening socket, and the stream of connections.  The
    results of the [accept] calls are a script of the kernel; when it is empty
    the call would block. *)

From S2P Require Import Prelude Core Channels IoObject Socket.
Local Open Scope cpp_scope.

Section Server.
Context {A : Type}.

(** A connection: the descriptor and the address of the peer. *)
Definition Item : Type := nat * A.

(** What [::accept] returns, and for a connection the errors of making it
    non-blocking and of disabling Nagle's algorithm. *)
Inductive acceptret := AConn (x : Item) (nonblock nodelay : error_code) | AIntr | AAgain | AErr (e : Z).

(** What [AcceptCompletionToken] adds to a token. *)
(** [src/include/futures/io/AsyncServerSocket.h:28-35] AcceptCompletionToken *)
Record AcceptToken := mkAccept { ec : error_code; sock_ : list Item }.

(** [socket_] is whether the descriptor is open.  [sys] are the results to come,
    [calls] those consumed, [shut] the descriptors of connections that were
    closed, and [accepted] the connections appended to each token, in order. *)
(** [src/include/futures/io/AsyncServerSocket.h:94-96] AsyncServerSocket *)
Record AsyncServerSocket := mkServer {
  aio : IOObject AcceptToken; socket_ : bool; rio_ : bool; closed_ : bool;
  sys : list acceptret; calls : list acceptret; shut : list nat; accepted : list (nat * Item) }.

Definition upd_aio (o : IOObject AcceptToken) (s : AsyncServerSocket) : AsyncServerSocket :=
  mkServer o (socket_ s) (rio_ s) (closed_ s) (sys s) (calls s) (shut s) (accepted s).
Definition upd_rio (b : bool) (s : AsyncServerSocket) : AsyncServerSocket :=
  mkServer (aio s) (socket_ s) b (closed_ s) (sys s) (calls s) (shut s) (accepted s).
Definition upd_socket (b : bool) (s : AsyncServerSocket) : AsyncServerSocket :=
  mkServer (aio s) b (rio_ s) (closed_ s) (sys s) (calls s) (shut s) (accepted s).
Definition upd_sys (l : list acceptret) (s : AsyncServerSocket) : AsyncServerSocket :=
  mkServer (aio s) (socket_ s) (rio_ s) (closed_ s) l (calls s) (shut s) (accepted s).
Definition add_call (r : acceptret) (s : AsyncServerSocket) : AsyncServerSocket :=
  mkServer (aio s) (socket_ s) (rio_ s) (closed_ s) (sys s) (calls s ++ [r]) (shut s) (accepted s).
Definition add_shut (l : list nat) (s : AsyncServerSocket) : AsyncServerSocket :=
  mkServer (aio s) (socket_ s) (rio_ s) (closed_ s) (sys s) (calls s) (shut s ++ l) (accepted s).
Definition add_accepted (i : nat) (x : Item) (s : AsyncServerSocket) : AsyncServerSocket :=
  mkServer (aio s) (socket_ s) (rio_ s) (closed_ s) (sys s) (calls s) (shut s) (accepted s ++ [(i, x)]).

Definition liftio (f : IOObject AcceptToken -> res (IOObject AcceptToken)) (s : AsyncServerSocket) : res AsyncServerSocket :=
  let! o := f (aio s) in Ret (upd_aio o s).

(** The socket is bound, the watcher is not started. *)
(** [src/include/futures/io/AsyncServerSocket.h:19-26] AsyncServerSocket::AsyncServerSocket *)
Definition newServer (bind : error_code) (script : list acceptret) : res AsyncServerSocket :=
  match bind with
  | Some _ => Throw (IOError "bind")
  | None => Ret (mkServer empty_io true false false script [] [] [])
  end.

(** One call, again after [EINTR]; [fd_] is [-1] once the socket is closed, and
    the call fails with [EBADF]. *)
(** [src/src/TcpStream.cpp:201-232] Socket::accept *)
Fixpoint accept_again (l : list acceptret) (s : AsyncServerSocket) : option Item * error_code * AsyncServerSocket :=
  match l with
  | [] => (None, None, s)
  | r :: l =>
      let s := add_call r (upd_sys l s) in
      match r with
      | AIntr => accept_again l s
      | AAgain => (None, None, s)
      | AErr e => (None, Some e, s)
      | AConn x (Some e) _ => (None, Some e, add_shut [fst x] s)
      | AConn x None (Some e) => (None, Some e, add_shut [fst x] s)
      | AConn x None None => (Some x, None, s)
      end
  end.
Definition EBADF : Z := 9.
Definition Socket_accept (s : AsyncServerSocket) : option Item * error_code * AsyncServerSocket :=
  if socket_ s then accept_again (sys s) s else (None, Some EBADF, s).

(** [src/include/futures/io/AsyncServerSocket.h:82-85] AsyncServerSocket::forceClose *)
Definition server_forceClose (s : AsyncServerSocket) : AsyncServerSocket := upd_socket false (upd_rio false s).

(** [src/include/futures/io/AsyncServerSocket.h:61-63] AcceptCompletionToken::append *)
Definition append (x : Item) (i : nat) (s : AsyncServerSocket) : res AsyncServerSocket :=
  with_tok i (aio s) (fun t => let! s := liftio (setData (mkAccept (ec (data t)) (sock_ (data t) ++ [x])) i) s in Ret (add_accepted i x s)).

Definition set_token_ec (e : error_code) (i : nat) (s : AsyncServerSocket) : res AsyncServerSocket :=
  with_tok i (aio s) (fun t => liftio (setData (mkAccept e (sock_ (data t))) i) s).

(** [src/include/futures/io/AsyncServerSocket.h:70-80] AsyncServerSocket::doAccept *)
Definition doAccept (i : nat) (s : AsyncServerSocket) : res AsyncServerSocket :=
  let! s := liftio (fun o => Ret (newTok i OpRead (mkAccept None []) o)) s in
  if closed_ s then
    let! s := set_token_ec connection_aborted i s in
    liftio (notifyDone i) s
  else
    let! s := liftio (attach i) s in
    Ret (upd_rio true s).

(** [src/include/futures/io/AsyncServerSocket.h:104-121] AsyncServerSocket::onEvent, loop *)
Fixpoint accept_loop (fuel : nat) (p : nat) (s : AsyncServerSocket) : res AsyncServerSocket :=
  match fuel with
  | 0 => OutOfFuel
  | S fuel =>
      match Socket_accept s with
      | (_, Some e, s) =>
          let! s := set_token_ec (Some e) p s in
          let! s := liftio (notifyDone p) s in
          Ret (server_forceClose s)
      | (None, None, s) => Ret s
      | (Some x, None, s) =>
          let! s := append x p s in
          let! s := liftio (notify p) s in
          accept_loop fuel p s
      end
  end.

(** [src/include/futures/io/AsyncServerSocket.h:98-124] AsyncServerSocket::onEvent *)
Definition server_onEvent (read : bool) (s : AsyncServerSocket) : res AsyncServerSocket :=
  if read then
    match getPending OpRead (aio s) with
    | [] => Ret (upd_rio false s)
    | p :: _ => accept_loop (S (length (sys s))) p s
    end
  else Ret s.

(** [src/include/futures/io/AsyncServerSocket.h:40-59] AcceptCompletionToken::pollStream *)
Definition accept_pollStream (cur : option Task) (i : nat) (s : AsyncServerSocket) : res (Poll (option Item) * AsyncServerSocket) :=
  with_tok i (aio s) (fun t =>
    match sock_ (data t) with
    | x :: l =>
        let! s := liftio (setData (mkAccept (ec (data t)) l) i) s in
        Ret (VALUE (Some (Some x)), s)
    | [] =>
        match s_ t with
        | STARTED => let! s := liftio (park cur i) s in Ret (not_ready, s)
        | DONE => Ret (match ec (data t) with Some _ => EXCEPTION (Some (IOError "accept")) | None => VALUE (Some None) end, s)
        | CANCELLED => Ret (cancelled, s)
        end
    end).

(** The token of a stream has the number of the stream. *)
(** [src/include/futures/io/AsyncServerSocket.h:137-141] AcceptStream::poll *)
Definition AcceptStream_poll (cur : option Task) (i : nat) (s : AsyncServerSocket) : res (Poll (option Item) * AsyncServerSocket) :=
  let! s := (match toks (aio s) !! i with None => doAccept i s | Some _ => Ret s end) in
  accept_pollStream cur i s.

(** The stream goes, and with it its token, if it has been polled; the
    connections still queued are closed by their destructors. *)
(** [src/include/futures/io/AsyncServerSocket.h:65-67] ~AcceptCompletionToken *)
Definition drop_stream (i : nat) (s : AsyncServerSocket) : res AsyncServerSocket :=
  match toks (aio s) !! i with
  | None => Ret s
  | Some t => let! s := liftio (destroy i) s in Ret (add_shut (fst <$> sock_ (data t)) s)
  end.
End Server.
Arguments AsyncServerSocket A : clear implicits.
Arguments acceptret A : clear implicits.
Arguments AcceptToken A : clear implicits.
Arguments Item A : clear implicits.

(** ** Runs *)

Section Runs.
Context {A : Type}.
Implicit Types (s : AsyncServerSocket A).

(** A stream that has been dropped is not polled again; [given] are the
    connections the streams have returned. *)
Record world := mkWorld { srv : AsyncServerSocket A; gone : gset nat; given : list (nat * Item A) }.

(** The kernel has more to say; the watcher fires; a stream is polled by a task;
    a stream is dropped; the server is closed; the executor cancels what is in
    progress. *)
Inductive aop := Arrive (r : acceptret A) | Fires (read : bool) | PollStream (i : nat) (k : Task) | DropStream (i : nat) | CloseServer | CancelAll.

Definition set_srv (w : world) s : world := mkWorld s (gone w) (given w).

(** The loop calls back only a watcher that is started. *)
Definition astep (w : world) (op : aop) : res world :=
  match op with
  | Arrive r => Ret (set_srv w (upd_sys (sys (srv w) ++ [r]) (srv w)))
  | Fires read => if rio_ (srv w) then let! s := server_onEvent read (srv w) in Ret (set_srv w s) else Ret w
  | PollStream i k =>
      if decide (i ∈ gone w) then Ret w
      else
        let! (r, s) := AcceptStream_poll (Some k) i (srv w) in
        Ret (mkWorld s (gone w) (match r with VALUE (Some (Some x)) => given w ++ [(i, x)] | _ => given w end))
  | DropStream i =>
      if decide (i ∈ gone w) then Ret w
      else let! s := drop_stream i (srv w) in Ret (mkWorld s ({[i]} ∪ gone w) (given w))
  | CloseServer => Ret (set_srv w (server_forceClose (srv w)))
  | CancelAll => let! s := liftio cleanup_all (srv w) in Ret (set_srv w s)
  end.

Fixpoint arun (w : world) (l : list aop) : res world :=
  match l with [] => Ret w | op :: l => let! w := astep w op in arun w l end.

(** ** What holds of them *)

(** The connections of a stream. *)
Definition of_stream (i : nat) (l : list (nat * Item A)) : list (Item A) := snd <$> filter (fun x => fst x = i) l.
Definition queue (i : nat) (m : gmap nat (CompletionToken (AcceptToken A))) : list (Item A) :=
  match m !! i with Some t => sock_ (data t) | None => [] end.
Definition queued (m : gmap nat (CompletionToken (AcceptToken A))) : list (Item A) :=
  map_to_list m ≫= (fun x => sock_ (data (snd x))).

#[local] Arguments of_stream : simpl never.
#[local] Arguments queue : simpl never.
#[local] Arguments queued : simpl never.

(** The connections that were set up, and the descriptors of all. *)
Definition good (r : acceptret A) : option (Item A) := match r with AConn x None None => Some x | _ => None end.
Definition opened (r : acceptret A) : option nat := match r with AConn x _ _ => Some (fst x) | _ => None end.

(** The objects are sound; a stream returns and keeps, in order, the
    connections that were appended to its token, and these are the connections
    that the kernel gave, in order; every descriptor is with a user, queued or
    closed; a task only waits while there is nothing to return; and while a
    stream waits for connections the watcher is started, unless the listening
    socket is closed. *)
Record server_ok (w : world) : Prop := mkServerOk {
  sv_io : io_ok (aio (srv w));
  sv_op : forall i t, toks (aio (srv w)) !! i = Some t -> op_ t = OpRead;
  sv_gone : forall i, i ∈ gone w -> toks (aio (srv w)) !! i = None;
  sv_fresh : forall i, toks (aio (srv w)) !! i = None -> i ∉ gone w -> of_stream i (accepted (srv w)) = [] /\ of_stream i (given w) = [];
  sv_order : forall i, i ∉ gone w -> of_stream i (accepted (srv w)) = of_stream i (given w) ++ queue i (toks (aio (srv w)));
  sv_kernel : snd <$> accepted (srv w) = omap good (calls (srv w));
  sv_fds : omap opened (calls (srv w)) ≡ₚ (fst ∘ snd <$> given w) ++ (fst <$> queued (toks (aio (srv w)))) ++ shut (srv w);
  sv_task : forall i t, toks (aio (srv w)) !! i = Some t -> is_Some (task_ t) -> s_ t = STARTED /\ sock_ (data t) = [];
  sv_done : forall i t, toks (aio (srv w)) !! i = Some t -> s_ t = STARTED -> ec (data t) = None /\ parent_ t = true;
  sv_end : forall i t, toks (aio (srv w)) !! i = Some t -> s_ t = DONE -> is_Some (ec (data t)) /\ (socket_ (srv w) = false);
  sv_closed : closed_ (srv w) = false;
  sv_watch : pRead (aio (srv w)) <> [] -> rio_ (srv w) = true \/ socket_ (srv w) = false
}.

Lemma of_stream_app i (l l' : list (nat * Item A)) : of_stream i (l ++ l') = of_stream i l ++ of_stream i l'.
Proof. unfold of_stream. by rewrite filter_app, fmap_app. Qed.

Lemma of_stream_pairs i j (xs : list (Item A)) : of_stream i ((fun x => (j, x)) <$> xs) = if decide (j = i) then xs else [].
Proof.
  unfold of_stream. induction xs as [|x xs IH]; [by case_decide|]. rewrite fmap_cons, filter_cons. cbn [fst]. case_decide; [by rewrite fmap_cons, IH|done].
Qed.

Lemma queued_delete (m : gmap nat (CompletionToken (AcceptToken A))) i t :
  m !! i = Some t -> queued m ≡ₚ sock_ (data t) ++ queued (delete i m).
Proof. intros Hi. unfold queued. rewrite <- (map_to_list_delete m i t Hi). done. Qed.

Lemma queued_new (m : gmap nat (CompletionToken (AcceptToken A))) i t :
  m !! i = None -> queued (<[i := t]> m) ≡ₚ sock_ (data t) ++ queued m.
Proof. intros Hi. unfold queued. by rewrite map_to_list_insert. Qed.

Lemma moved_perm (a b c d q e h : list nat) : a ++ b = c ++ d -> a ++ q ++ e ++ b ++ h ≡ₚ c ++ d ++ q ++ e ++ h.
Proof. intros E. rewrite (app_assoc c), <- E. solve_Permutation. Qed.

(** One token changes: [xs] were appended, [ys] taken, and [cs] are the calls,
    which closed [sh]. *)
Lemma token_step w i t t' s' xs ys cs sh :
  server_ok w -> toks (aio (srv w)) !! i = Some t ->
  io_ok (aio s') -> toks (aio s') = <[i := t']> (toks (aio (srv w))) -> op_ t' = OpRead ->
  accepted s' = accepted (srv w) ++ ((fun x => (i, x)) <$> xs) ->
  calls s' = calls (srv w) ++ cs -> shut s' = shut (srv w) ++ sh ->
  sock_ (data t) ++ xs = ys ++ sock_ (data t') ->
  omap good cs = xs -> omap opened cs ≡ₚ (fst <$> xs) ++ sh ->
  (is_Some (task_ t') -> s_ t' = STARTED /\ sock_ (data t') = []) ->
  (s_ t' = STARTED -> ec (data t') = None /\ parent_ t' = true) ->
  (s_ t' = DONE -> is_Some (ec (data t')) /\ socket_ s' = false) ->
  (socket_ (srv w) = false -> socket_ s' = false) -> closed_ s' = false ->
  (pRead (aio s') <> [] -> rio_ s' = true \/ socket_ s' = false) ->
  server_ok (mkWorld s' (gone w) (given w ++ ((fun x => (i, x)) <$> ys))).
Proof.
  intros [Hio Hop Hg Hf Ho Hk Hd Ht Hst He Hc Hw] Hi Hio' Etok Hop' Ea Ec Es Exy Eg Eo Hta Hsta Hen Hso Hcl Hwa.
  assert (Hig : i ∉ gone w) by (intros Hin; rewrite Hg in Hi by done; done).
  split; cbn [srv gone given]; try done; rewrite ?Etok.
  - intros j u [[-> <-]|[_ Hj]]%lookup_insert_Some; [done|by eapply Hop].
  - intros j Hj. rewrite lookup_insert_ne by set_solver. by apply Hg.
  - intros j [Hj Hne]%lookup_insert_None Hjg. rewrite Ea, !of_stream_app, !of_stream_pairs, !(decide_False (P := i = j)), !app_nil_r by done. by apply Hf.
  - intros j Hjg. rewrite Ea, !of_stream_app, !of_stream_pairs. unfold queue. destruct (decide (i = j)) as [<-|Hne].
    + rewrite lookup_insert_eq, (Ho i) by done. unfold queue. by rewrite Hi, <- !app_assoc, Exy.
    + rewrite lookup_insert_ne, !app_nil_r by done. by apply Ho.
  - rewrite Ea, Ec, fmap_app, omap_app, Hk, Eg. f_equal. rewrite <- list_fmap_compose. apply list_fmap_id.
  - rewrite Ec, Es, omap_app, Hd, Eo, fmap_app, <- list_fmap_compose.
    rewrite (queued_delete _ i t Hi), (queued_delete (<[i := t']> _) i t') by by rewrite lookup_insert_eq.
    rewrite delete_insert_eq. apply (f_equal (fmap fst)) in Exy. rewrite !fmap_app in Exy |- *. 
    change (fst ∘ snd ∘ (fun x => (i, x))) with (fst : Item A -> nat).
    rewrite <- !app_assoc. apply Permutation_app_head. by apply moved_perm.
  - intros j u [[-> <-]|[_ Hj]]%lookup_insert_Some; [done|by eapply Ht].
  - intros j u [[-> <-]|[_ Hj]]%lookup_insert_Some; [done|by eapply Hst].
  - intros j u [[-> <-]|[_ Hj]]%lookup_insert_Some; [done|]. intros Hj'. destruct (He _ _ Hj Hj'). auto.
Qed.

(** What a call leaves alone. *)
Definition same_but_calls s s' : Prop :=
  aio s' = aio s /\ socket_ s' = socket_ s /\ rio_ s' = rio_ s /\ closed_ s' = closed_ s /\ accepted s' = accepted s.

Lemma accept_again_spec l : forall s x e s',
  accept_again l s = (x, e, s') -> sys s = l ->
  same_but_calls s s' /\
  exists cs sh, sys s = cs ++ sys s' /\ calls s' = calls s ++ cs /\ shut s' = shut s ++ sh /\ omap good cs = option_list x /\
    omap opened cs = (fst <$> option_list x) ++ sh /\ (is_Some x -> e = None /\ length (sys s') < length (sys s)).
Proof.
  induction l as [|r l IH]; intros s x e s' E El; cbn in E.
  { injection E as <- <- <-. split; [done|]. exists [], []. rewrite !app_nil_r. do 5 (split; [done|]). by intros [? [=]]. }
  assert (Hone : forall r y sh, omap good [r] = option_list y -> omap opened [r] = (fst <$> option_list y) ++ sh ->
    (y, match y with None => e | _ => None end, add_shut sh (add_call r (upd_sys l s))) = (x, e, s') -> sys s = r :: l ->
    same_but_calls s s' /\
    exists cs sh, sys s = cs ++ sys s' /\ calls s' = calls s ++ cs /\ shut s' = shut s ++ sh /\ omap good cs = option_list x /\
      omap opened cs = (fst <$> option_list x) ++ sh /\ (is_Some x -> e = None /\ length (sys s') < length (sys s))).
  { intros r' y sh Hg Hop [= <- He <-] Es. split; [done|]. exists [r'], sh. rewrite Es. cbn [sys calls shut add_shut add_call upd_sys length].
    do 5 (split; [done|]). intros [z ->]. split; [done|lia]. }
  assert (Hnil : forall u : AsyncServerSocket A, add_shut [] u = u) by (intros []; unfold add_shut; cbn; by rewrite app_nil_r).
  destruct r as [y [n|] [d|]| | |n].
  1-3: injection E as <- <- <-; refine (Hone _ None [fst y] _ _ _ El); done.
  1: injection E as <- <- <-; refine (Hone _ (Some y) [] _ _ _ El); rewrite ?Hnil; done.
  2-3: injection E as <- <- <-; refine (Hone _ None [] _ _ _ El); rewrite ?Hnil; done.
  apply IH in E as [Hs (cs & sh & E1 & E2 & E3 & E4 & E5 & E6)]; [|done]. split; [done|]. exists (AIntr :: cs), sh. cbn in *.
  rewrite El, E2, <- app_assoc. split; [by rewrite E1 at 1|]. do 4 (split; [done|]). intros Hx. destruct (E6 Hx). split; [done|]. cbn. lia.
Qed.

Lemma Socket_accept_spec s x e s' :
  Socket_accept s = (x, e, s') ->
  same_but_calls s s' /\
  exists cs sh, sys s = cs ++ sys s' /\ calls s' = calls s ++ cs /\ shut s' = shut s ++ sh /\ omap good cs = option_list x /\
    omap opened cs = (fst <$> option_list x) ++ sh /\ (is_Some x -> e = None /\ length (sys s') < length (sys s)).
Proof.
  unfold Socket_accept. destruct (socket_ s); [by intros ?%accept_again_spec|]. intros [= <- <- <-]. split; [done|].
  exists [], []. rewrite !app_nil_r. do 5 (split; [done|]). by intros [? [=]].
Qed.

(** A connection reaches the token, whose task is woken. *)
Lemma took w p l x s1 :
  server_ok w -> pRead (aio (srv w)) = p :: l -> Socket_accept (srv w) = (Some x, None, s1) ->
  exists s2, (let! s := append x p s1 in liftio (notify p) s) = Ret s2 /\ server_ok (set_srv w s2) /\
    pRead (aio s2) = p :: l /\ length (sys s2) < length (sys (srv w)).
Proof.
  intros Hok El E. apply Socket_accept_spec in E as [(Ea & Eso & Er & Ec & Eac) (cs & sh & E1 & E2 & E3 & E4 & E5 & E6)].
  destruct (head_pending OpRead p l _ (sv_io w Hok) El) as (t & Hi & Hs & Hop & Hpar & _).
  destruct (sv_done w Hok _ _ Hi Hs) as [He _].
  destruct (setData_ok (mkAccept (ec (data t)) (sock_ (data t) ++ [x])) p t _ (sv_io w Hok) Hi) as [F1 G1].
  destruct (notify_ok p (mkToken (parent_ t) (task_ t) (s_ t) (op_ t) (mkAccept (ec (data t)) (sock_ (data t) ++ [x]))) _ G1)
    as (o2 & F2 & G2 & Et & Ep & _); [by cbn; rewrite lookup_insert_eq|].
  unfold append, with_tok, liftio. rewrite Ea, Hi, F1. cbn [res_bind aio upd_aio add_accepted]. rewrite F2. cbn [res_bind].
  eexists. split; [done|]. cbn in Et. rewrite insert_insert_eq in Et. split; [|split].
  - unfold set_srv. rewrite <- (app_nil_r (given w)). change (@nil (nat * Item A)) with ((fun y : Item A => (p, y)) <$> []).
    eapply (token_step w p t _ _ [x] [] cs sh Hok Hi); [exact G2|exact Et|..]; cbn; try done; try congruence; try (by intros [? [=]]); try (rewrite Hs; done).
    + by rewrite E5.
    + by rewrite Ec, (sv_closed w Hok).
    + intros _. rewrite Er, Eso. apply (sv_watch w Hok). by rewrite El.
  - specialize (Ep OpRead). cbn in Ep |- *. by rewrite Ep.
  - cbn. apply E6. by eexists.
Qed.

(** A failure ends the front token and closes the server. *)
Lemma failed w p l x e s1 :
  server_ok w -> pRead (aio (srv w)) = p :: l -> Socket_accept (srv w) = (x, Some e, s1) ->
  exists s2, (let! s := set_token_ec (Some e) p s1 in let! s := liftio (notifyDone p) s in Ret (server_forceClose s)) = Ret s2 /\
    server_ok (set_srv w s2).
Proof.
  intros Hok El E. apply Socket_accept_spec in E as [(Ea & Eso & Er & Ec & Eac) (cs & sh & E1 & E2 & E3 & E4 & E5 & E6)].
  assert (x = None) as -> by (destruct x; [by destruct E6 as [[=] _]; eexists|done]).
  destruct (head_pending OpRead p l _ (sv_io w Hok) El) as (t & Hi & Hs & Hop & Hpar & _).
  destruct (setData_ok (mkAccept (Some e) (sock_ (data t))) p t _ (sv_io w Hok) Hi) as [F1 G1].
  destruct (notifyDone_ok p (mkToken (parent_ t) (task_ t) (s_ t) (op_ t) (mkAccept (Some e) (sock_ (data t)))) _ G1)
    as (o2 & F2 & G2 & Et & Ep & _); [by cbn; rewrite lookup_insert_eq|done|].
  unfold set_token_ec, with_tok, liftio. rewrite Ea, Hi, F1. cbn [res_bind aio upd_aio]. rewrite F2. cbn [res_bind].
  eexists. split; [done|]. cbn in Et. rewrite insert_insert_eq in Et.
  unfold set_srv. rewrite <- (app_nil_r (given w)). change (@nil (nat * Item A)) with ((fun y : Item A => (p, y)) <$> []).
  eapply (token_step w p t _ _ [] [] cs sh Hok Hi); [exact G2|exact Et|..]; cbn; try done; rewrite ?app_nil_r; try congruence; try (by intros [? [=]]).
  - by rewrite E5.
  - by rewrite Ec, (sv_closed w Hok).
  - intros _. by right.
Qed.

Lemma accept_loop_ok fuel : forall w p l,
  server_ok w -> pRead (aio (srv w)) = p :: l -> length (sys (srv w)) < fuel ->
  exists s, accept_loop fuel p (srv w) = Ret s /\ server_ok (set_srv w s).
Proof.
  induction fuel as [|fuel IH]; intros w p l Hok El Hf; [lia|]. cbn [accept_loop].
  destruct (Socket_accept (srv w)) as [[x [e|]] s1] eqn:E.
  - destruct x; by eapply failed.
  - destruct x as [x|].
    + destruct (took w p l x s1 Hok El E) as (s2 & E2 & Hok2 & El2 & Hf2). unfold liftio in *.
      destruct (append x p s1) as [s1'| | |]; try done. cbn [res_bind] in E2 |- *. rewrite E2. cbn [res_bind].
      apply (IH (set_srv w s2) p l Hok2 El2). cbn. lia.
    + eexists. split; [done|]. apply Socket_accept_spec in E as [(Ea & Eso & Er & Ec & Eac) (cs & sh & E1 & E2 & E3 & E4 & E5 & _)].
      destruct Hok as [Hio Hop Hg Hfr Ho Hk Hd Ht Hst He Hc Hw]. destruct w as [s g v]; cbn in *.
      split; cbn [srv gone given set_srv]; rewrite ?Ea, ?Eac, ?Eso, ?Er, ?Ec; try done.
      * by rewrite E2, omap_app, E4, app_nil_r.
      * rewrite E2, E3, omap_app, E5, Hd. cbn. by rewrite <- !app_assoc.
Qed.

(** The first poll attaches a token and starts the watcher. *)
Lemma doAccept_ok w i :
  server_ok w -> i ∉ gone w -> toks (aio (srv w)) !! i = None ->
  exists s, doAccept i (srv w) = Ret s /\ server_ok (set_srv w s) /\
    toks (aio s) = <[i := mkToken true None STARTED OpRead (mkAccept None [])]> (toks (aio (srv w))).
Proof.
  intros [Hio Hop Hg Hf Ho Hk Hd Ht Hst He Hc Hw] Hig Hi. unfold doAccept, liftio. cbn [res_bind closed_ upd_aio]. rewrite Hc.
  destruct (attach_ok i (mkToken false None STARTED OpRead (mkAccept None [])) (newTok i OpRead (mkAccept None []) (aio (srv w))))
    as (o & E & Et & Ep & _ & Hio'); [by apply newTok_ok|by cbn; rewrite lookup_insert_eq|done|].
  cbn [aio upd_aio]. rewrite E. cbn [res_bind]. eexists. split; [done|]. cbn in Et. rewrite insert_insert_eq in Et. split; [|done].
  destruct w as [s g v]; cbn in *. split; cbn; rewrite ?Et; try done.
  - intros j u [[-> <-]|[_ Hj]]%lookup_insert_Some; [done|by eapply Hop].
  - intros j Hj. rewrite lookup_insert_ne by set_solver. by apply Hg.
  - intros j [Hj Hne]%lookup_insert_None. by apply Hf.
  - intros j Hj. rewrite (Ho j Hj). f_equal. unfold queue. destruct (decide (i = j)) as [<-|Hne]; [by rewrite lookup_insert_eq, Hi|by rewrite lookup_insert_ne].
  - by rewrite Hd, queued_new.
  - intros j u [[-> <-]|[_ Hj]]%lookup_insert_Some; [by intros [? [=]]|by eapply Ht].
  - intros j u [[-> <-]|[_ Hj]]%lookup_insert_Some; [done|by eapply Hst].
  - intros j u [[-> <-]|[_ Hj]]%lookup_insert_Some; [done|by eapply He].
  - intros _. by left.
Qed.

(** What a stream is to return: the oldest connection, else what the state of
    its token says. *)
Definition due (i : nat) (m : gmap nat (CompletionToken (AcceptToken A))) : Poll (option (Item A)) :=
  match m !! i with
  | None => not_ready
  | Some t =>
      match sock_ (data t), s_ t with
      | x :: _, _ => VALUE (Some (Some x))
      | [], STARTED => not_ready
      | [], DONE => EXCEPTION (Some (IOError "accept"))
      | [], CANCELLED => cancelled
      end
  end.

Definition add_given (i : nat) (r : Poll (option (Item A))) (l : list (nat * Item A)) : list (nat * Item A) :=
  match r with VALUE (Some (Some x)) => l ++ [(i, x)] | _ => l end.

Lemma pollStream_ok w i k t :
  server_ok w -> toks (aio (srv w)) !! i = Some t ->
  exists s, accept_pollStream (Some k) i (srv w) = Ret (due i (toks (aio (srv w))), s) /\
    server_ok (mkWorld s (gone w) (add_given i (due i (toks (aio (srv w)))) (given w))) /\
    (due i (toks (aio (srv w))) = not_ready -> exists t', toks (aio s) !! i = Some t' /\ task_ t' = Some k).
Proof.
  intros Hok Hi. unfold accept_pollStream, due, with_tok, liftio. rewrite Hi. destruct (sock_ (data t)) as [|x l] eqn:Eq.
  - destruct (s_ t) eqn:Es.
    + destruct (park_ok k i t _ (sv_io w Hok) Hi Es) as (o & E & Hio & Et & Ep & _). rewrite E. cbn [res_bind]. eexists. split; [done|].
      split; [|intros _; cbn; rewrite Et, lookup_insert_eq; by eexists]. cbn [add_given]. unfold not_ready.
      rewrite <- (app_nil_r (given w)). change (@nil (nat * Item A)) with ((fun y : Item A => (i, y)) <$> []).
      destruct (sv_done w Hok _ _ Hi Es) as [He Hpar].
      eapply (token_step w i t _ _ [] [] [] [] Hok Hi); [exact Hio|exact Et|..]; cbn; rewrite ?app_nil_r; try done.
      * by apply (sv_op w Hok i).
      * apply (sv_closed w Hok).
      * specialize (Ep OpRead). cbn in Ep. rewrite Ep. apply (sv_watch w Hok).
    + destruct (sv_end w Hok _ _ Hi Es) as [[e ->] _]. eexists. split; [done|]. cbn. by destruct w.
    + eexists. split; [done|]. cbn. by destruct w.
  - destruct (setData_ok (mkAccept (ec (data t)) l) i t _ (sv_io w Hok) Hi) as [E Hio]. rewrite E. cbn [res_bind]. eexists. split; [done|].
    split; [|done]. cbn [add_given]. change [(i, x)] with ((fun y : Item A => (i, y)) <$> [x]).
    eapply (token_step w i t _ _ [] [x] [] [] Hok Hi); [exact Hio|done|..]; cbn; rewrite ?app_nil_r; try done.
    + by apply (sv_op w Hok i).
    + intros Hta. destruct (sv_task w Hok _ _ Hi Hta) as [? E0]. by rewrite Eq in E0.
    + apply (sv_done w Hok _ _ Hi).
    + apply (sv_end w Hok _ _ Hi).
    + apply (sv_closed w Hok).
    + apply (sv_watch w Hok).
Qed.

Lemma AcceptStream_poll_ok w i k :
  server_ok w -> i ∉ gone w ->
  exists s, AcceptStream_poll (Some k) i (srv w) = Ret (due i (toks (aio (srv w))), s) /\
    server_ok (mkWorld s (gone w) (add_given i (due i (toks (aio (srv w)))) (given w))) /\
    (due i (toks (aio (srv w))) = not_ready -> exists t', toks (aio s) !! i = Some t' /\ task_ t' = Some k).
Proof.
  intros Hok Hig. unfold AcceptStream_poll. destruct (toks (aio (srv w)) !! i) as [t|] eqn:Hi; [by apply (pollStream_ok w i k t)|].
  destruct (doAccept_ok w i Hok Hig Hi) as (s1 & E & Hok1 & Et). rewrite E. cbn [res_bind].
  assert (Hd : due i (toks (aio s1)) = due i (toks (aio (srv w)))) by (unfold due; by rewrite Et, lookup_insert_eq, Hi).
  destruct (pollStream_ok (set_srv w s1) i k (mkToken true None STARTED OpRead (mkAccept None [])) Hok1) as (s & Es & H); cbn in *;
    [by rewrite Et, lookup_insert_eq|]. exists s. by rewrite Es, Hd in *.
Qed.

Lemma drop_stream_ok w i :
  server_ok w -> i ∉ gone w -> exists s, drop_stream i (srv w) = Ret s /\ server_ok (mkWorld s ({[i]} ∪ gone w) (given w)).
Proof.
  intros Hok Hig. unfold drop_stream. destruct (toks (aio (srv w)) !! i) as [t|] eqn:Hi.
  - unfold liftio. destruct (destroy_ok i t _ (sv_io w Hok) Hi) as (o & E & Hio' & Et & Ep). rewrite E. cbn [res_bind]. eexists. split; [done|].
    destruct Hok as [Hio Hop Hg Hf Ho Hk Hd Ht Hst He Hc Hw]. split; cbn; rewrite ?Et; try done.
    + intros j u [_ Hj]%lookup_delete_Some. by eapply Hop.
    + intros j [->%elem_of_singleton|Hj]%elem_of_union; [apply lookup_delete_eq|]. apply lookup_delete_None. right. by apply Hg.
    + intros j [->|Hj]%lookup_delete_None Hjg; [set_solver|]. apply Hf; [done|set_solver].
    + intros j Hj. rewrite (Ho j) by set_solver. unfold queue. by rewrite lookup_delete_ne by set_solver.
    + rewrite Hd, (queued_delete _ i t Hi), fmap_app. solve_Permutation.
    + intros j u [_ Hj]%lookup_delete_Some. by eapply Ht.
    + intros j u [_ Hj]%lookup_delete_Some. by eapply Hst.
    + intros j u [_ Hj]%lookup_delete_Some. by eapply He.
    + intros Hp. apply Hw. specialize (Ep OpRead). cbn in Ep. rewrite Ep in Hp. by intros E0; rewrite E0 in Hp.
  - exists (srv w). split; [done|]. destruct Hok as [Hio Hop Hg Hf Ho Hk Hd Ht Hst He Hc Hw]. split; cbn; try done.
    + intros j [->%elem_of_singleton|Hj]%elem_of_union; [done|by apply Hg].
    + intros j Hj Hjg. apply Hf; [done|set_solver].
    + intros j Hj. apply Ho. set_solver.
Qed.

Definition cancel_tok (t : CompletionToken (AcceptToken A)) : CompletionToken (AcceptToken A) := if parent_ t then ended CANCELLED t else t.

Lemma cancel_tok_data t : data (cancel_tok t) = data t.
Proof. unfold cancel_tok. by destruct (parent_ t). Qed.

Lemma queued_cancel m : queued (cancel_tok <$> m) ≡ₚ queued m.
Proof.
  unfold queued. rewrite map_to_list_fmap. induction (map_to_list m) as [|[i t] l IH]; [done|]. cbn. by rewrite cancel_tok_data, IH.
Qed.

Lemma queue_cancel i m : queue i (cancel_tok <$> m) = queue i m.
Proof. unfold queue. rewrite lookup_fmap. destruct (m !! i); [|done]. cbn. by rewrite cancel_tok_data. Qed.

Lemma cancel_ok w : server_ok w -> exists s, liftio cleanup_all (srv w) = Ret s /\ server_ok (set_srv w s).
Proof.
  intros [Hio Hop Hg Hf Ho Hk Hd Ht Hst He Hc Hw]. unfold liftio. destruct (cleanup_all_ok _ Hio) as (o & E & Hio' & Ep & Et). rewrite E.
  cbn [res_bind]. eexists. split; [done|].
  assert (Em : toks o = cancel_tok <$> toks (aio (srv w))).
  { apply map_eq. intros j. rewrite Et, lookup_fmap. by destruct (toks (aio (srv w)) !! j). }
  assert (Hinv : forall (Q : CompletionToken (AcceptToken A) -> Prop) j u, toks o !! j = Some u ->
    (forall t, toks (aio (srv w)) !! j = Some t -> Q (cancel_tok t)) -> Q u).
  { intros Q j u. rewrite Em, lookup_fmap. destruct (toks (aio (srv w)) !! j); [|done]. cbn. intros [= <-] H. by apply H. }
  split; cbn; try done.
  - intros j u Hj. apply (Hinv (fun u => op_ u = OpRead) j u Hj). intros t Hjt. unfold cancel_tok. destruct (parent_ t); by apply (Hop _ _ Hjt).
  - intros j Hj. rewrite Em, lookup_fmap, Hg by done. done.
  - intros j. rewrite Em, lookup_fmap. intros Hj. apply Hf. by destruct (toks (aio (srv w)) !! j).
  - intros j Hj. rewrite Em, queue_cancel. by apply Ho.
  - by rewrite Em, queued_cancel.
  - intros j u Hj. apply (Hinv (fun u => is_Some (task_ u) -> s_ u = STARTED /\ sock_ (data u) = []) j u Hj). intros t Hjt. unfold cancel_tok.
    destruct (parent_ t); [by intros [? [=]]|by eapply Ht].
  - intros j u Hj. apply (Hinv (fun u => s_ u = STARTED -> ec (data u) = None /\ parent_ u = true) j u Hj). intros t Hjt. unfold cancel_tok.
    destruct (parent_ t) eqn:Ept; [done|]. intros Es. destruct (Hst _ _ Hjt Es). congruence.
  - intros j u Hj. apply (Hinv (fun u => s_ u = DONE -> is_Some (ec (data u)) /\ socket_ (srv w) = false) j u Hj). intros t Hjt. unfold cancel_tok.
    destruct (parent_ t) eqn:Ept; [done|]. by eapply He.
  - specialize (Ep OpRead). cbn in Ep. by rewrite Ep.
Qed.

(** ** Draining *)

(** The results that are left after an event: the event stops at the first one
    that is neither an interrupted call nor a connection that was set up. *)
Fixpoint after_stop (l : list (acceptret A)) : list (acceptret A) :=
  match l with
  | [] => []
  | (AConn _ None None | AIntr) :: l => after_stop l
  | _ :: l => l
  end.

Lemma accept_again_sys l : forall s x e s', accept_again l s = (x, e, s') -> sys s = l ->
  after_stop l = match x with Some _ => after_stop (sys s') | None => sys s' end.
Proof.
  induction l as [|r l IH]; intros s x e s' E El; cbn in E; [by injection E as <- <- <-|].
  destruct r as [y [n|] [d|]| | |n]; try (by injection E as <- <- <-). cbn. by eapply IH.
Qed.

Lemma accept_loop_drains fuel : forall s p s', socket_ s = true -> accept_loop fuel p s = Ret s' -> sys s' = after_stop (sys s).
Proof.
  assert (Hup : forall f s s', liftio (A := A) f s = Ret s' -> sys s' = sys s /\ socket_ s' = socket_ s).
  { intros f s s'. unfold liftio. destruct (f (aio s)); [|done..]. by intros [= <-]. }
  induction fuel as [|fuel IH]; intros s p s' Hs E; [done|]. cbn [accept_loop] in E. unfold Socket_accept in E. rewrite Hs in E.
  destruct (accept_again (sys s) s) as [[x e] s1] eqn:Ea. pose proof (accept_again_sys _ _ _ _ _ Ea eq_refl) as Esys.
  pose proof (accept_again_spec _ _ _ _ _ Ea eq_refl) as [(_ & Hso & _) (cs & sh & _ & _ & _ & _ & _ & Hx)]. rewrite Esys.
  destruct e as [e|].
  - destruct x as [x|]; [by destruct Hx as [[=] _]; eexists|]. unfold set_token_ec, with_tok in E. destruct (toks (aio s1) !! p); [|done].
    destruct (liftio _ s1) as [s2| | |] eqn:E2; [|done..]. cbn [res_bind] in E. destruct (liftio _ s2) as [s3| | |] eqn:E3; [|done..].
    injection E as <-. apply Hup in E2 as [? _], E3 as [? _]. cbn. congruence.
  - destruct x as [x|]; [|by injection E as <-]. unfold append, with_tok in E. destruct (toks (aio s1) !! p); [|done].
    destruct (liftio _ s1) as [s2| | |] eqn:E2; [|done..]. cbn [res_bind] in E. destruct (liftio _ (add_accepted p x s2)) as [s3| | |] eqn:E3; [|done..].
    cbn [res_bind] in E. apply Hup in E2 as [F2 G2], E3 as [F3 G3]. cbn in F3, G3. apply IH in E; [|congruence]. rewrite E. congruence.
Qed.

Lemma astep_ok w op : server_ok w -> exists w', astep w op = Ret w' /\ server_ok w'.
Proof.
  intros Hok. destruct op as [r|read|i k|i| |]; cbn.
  - eexists. split; [done|]. by destruct Hok; split.
  - destruct (rio_ (srv w)) eqn:Er; [|by exists w]. unfold server_onEvent. destruct read; [|eexists; split; [done|]; by destruct w].
    cbn [getPending]. destruct (pRead (aio (srv w))) as [|p l] eqn:El.
    + eexists. split; [done|]. destruct Hok. split; try done.
    + destruct (accept_loop_ok (S (length (sys (srv w)))) w p l Hok El) as (s & E & Hok'); [lia|]. rewrite E. by eexists.
  - case_decide as Hg; [by exists w|]. destruct (AcceptStream_poll_ok w i k Hok Hg) as (s & E & Hok' & _). rewrite E. by eexists.
  - case_decide as Hg; [by exists w|]. destruct (drop_stream_ok w i Hok Hg) as (s & E & Hok'). rewrite E. by eexists.
  - eexists. split; [done|]. destruct Hok. split; try done; cbn; [naive_solver|by right].
  - destruct (cancel_ok w Hok) as (s & E & Hok'). rewrite E. by eexists.
Qed.

Lemma arun_ok l : forall w, server_ok w -> exists w', arun w l = Ret w' /\ server_ok w'.
Proof.
  induction l as [|op l IH]; intros w Hok; cbn; [by exists w|]. destruct (astep_ok w op Hok) as (w1 & E & Hok1). rewrite E. by apply IH.
Qed.

Definition init_world (script : list (acceptret A)) : world := mkWorld (mkServer empty_io true false false script [] [] []) ∅ [].

Lemma init_ok script : server_ok (init_world script).
Proof.
  split; cbn; try done. split; try done.
  - by intros []; apply NoDup_nil.
  - intros [] i; split; [by intros ?%elem_of_nil|by intros (? & ? & _)|by intros ?%elem_of_nil|by intros (? & ? & _)|by intros ?%elem_of_nil|by intros (? & ? & _)].
Qed.

(** C16: whatever the kernel returns and however streams are polled and dropped,
    events fire and the server is closed or cancelled, no operation of the server
    socket corrupts its lists or trips an assertion; each stream returns the
    connections appended to its token in the order they were accepted, and no
    descriptor is lost; no task sleeps over a queued connection or a token that
    ended; an event takes all that the kernel has; and a poll returns the oldest
    connection, waits, or reports the end. *)
Theorem accept_server_spec (script : list (acceptret A)) (ops : list aop) :
  exists s w, newServer None script = Ret s /\ arun (mkWorld s ∅ []) ops = Ret w /\ server_ok w /\
    (rio_ (srv w) = true -> socket_ (srv w) = true -> pRead (aio (srv w)) <> [] ->
       exists w', astep w (Fires true) = Ret w' /\ sys (srv w') = after_stop (sys (srv w))) /\
    (forall i k, i ∉ gone w ->
       exists s', AcceptStream_poll (Some k) i (srv w) = Ret (due i (toks (aio (srv w))), s') /\
         (due i (toks (aio (srv w))) = not_ready -> exists t, toks (aio s') !! i = Some t /\ task_ t = Some k)).
Proof.
  destruct (arun_ok ops _ (init_ok script)) as (w & E & Hok). eexists _, w. split; [done|]. split; [exact E|]. split; [done|]. split.
  - intros Hr Hs Hp. destruct (astep_ok w (Fires true) Hok) as (w' & E' & _). exists w'. split; [done|]. unfold astep, server_onEvent in E'. rewrite Hr in E'. cbn [getPending] in E'.
    destruct (pRead (aio (srv w))) as [|p l]; [done|].
    destruct (accept_loop _ p (srv w)) as [s| | |] eqn:El; [|done..]. injection E' as <-. by apply (accept_loop_drains _ _ _ _ Hs El).
  - intros i k Hg. destruct (AcceptStream_poll_ok w i k Hok Hg) as (s' & Es & _ & Hd). by exists s'.
Qed.
End Runs.
Arguments world A : clear implicits.
Arguments aop A : clear implicits.

(** ** Instances *)

Module AcceptEx.
Definition conn (n : nat) : acceptret unit := AConn (n, tt) None None.

Definition summary (r : res (world unit)) : option (list (nat * nat) * list nat * list Task * bool * bool) :=
  match r with
  | Ret w => Some ((fun x => (fst x, fst (snd x))) <$> given w, shut (srv w), woken (aio (srv w)), rio_ (srv w), socket_ (srv w))
  | _ => None
  end.

(** Two connections wake the task once; one is taken and the other is closed
    with its stream. *)
Example two_connections :
  summary (arun (init_world []) [PollStream 0 7; Arrive (conn 4); Arrive AIntr; Arrive (conn 5); Fires true; PollStream 0 7; DropStream 0]) =
  Some ([(0, 4)], [5], [7], true, true).
Proof. vm_compute. reflexivity. Qed.

(** A connection that cannot be made non-blocking is closed, ends the stream in
    front and closes the server; the stream behind keeps waiting, with nothing
    left to wake its task. *)
Example failure_strands :
  let ops := [PollStream 0 7; PollStream 1 8; Arrive (AConn (4, tt) (Some 22%Z) None); Fires true] in
  summary (arun (init_world []) ops) = Some ([], [4], [7], false, false) /\
  match arun (init_world []) ops with
  | Ret w => due 0 (toks (aio (srv w))) = EXCEPTION (Some (IOError "accept")) /\ due 1 (toks (aio (srv w))) = not_ready
  | _ => False
  end.
Proof. vm_compute. repeat split. Qed.
End AcceptEx.
