(* ===== verification/WsServer.v ===== *)
(** * Websocket connections of a server

    Models [src/include/futures/http/WsController.h]: the handlers by pattern, the
    state machine of a connection with the callbacks it makes, what it sends, and
    the future that flushes what was sent.  The handlers are arguments, and so is
    the stream of frames, which may be any stream; the callbacks of a connection
    and the frames it was given are recorded in [trace] and [seen]. *)

From S2P Require Import Prelude HttpSyntax HttpMessage WsCodec WsSession IOBufQueue HttpController Core Channels IoObject Socket SocketLaws Framed Futures FutureLaws Streams.
Local Open Scope cpp_scope.

(** [src/include/futures/http/WsController.h:72-76] Connection::State *)
Inductive ConnState := HANDSHAKING | CONNECTED | CLOSED.
#[global] Instance ConnState_eq_dec : EqDecision ConnState.
Proof. solve_decision. Defined.

(** The callbacks of a handler. *)
Inductive call := CConnect | CText (text : list Z) | CBinary (text : list Z) | CClose | CError.

(** [src/include/futures/http/WsController.h:28-51] Notifier *)
Record Notifier := mkNotifier { ready_ : bool; cv_task : option Task }.

Section Connection.
Context {H X Mt : Type}.

(** [server_] is the handlers of the server while it lives; [flushed] are the
    tasks that were woken to flush, and [user] is the state of the handlers. *)
(** [src/include/futures/http/WsController.h:173-181] Connection *)
Record Connection := mkConn {
  server_ : option (list (list Z * option H)); sock_ : SocketChannel; sink_q : IOBufQueue; write_req : option nat;
  handler_ : option H; matches_ : option Mt; s_ : ConnState; cv_ : Notifier; flushed : list Task;
  trace : list call; seen : list DataFrame; user : X }.
Implicit Types (w : Connection).

Definition set_sock (k : SocketChannel) w : Connection :=
  mkConn (server_ w) k (sink_q w) (write_req w) (handler_ w) (matches_ w) (s_ w) (cv_ w) (flushed w) (trace w) (seen w) (user w).
Definition set_sink (q : IOBufQueue) (r : option nat) w : Connection :=
  mkConn (server_ w) (sock_ w) q r (handler_ w) (matches_ w) (s_ w) (cv_ w) (flushed w) (trace w) (seen w) (user w).
Definition set_handler (h : option H) (m : option Mt) w : Connection :=
  mkConn (server_ w) (sock_ w) (sink_q w) (write_req w) h m (s_ w) (cv_ w) (flushed w) (trace w) (seen w) (user w).
Definition set_state (x : ConnState) w : Connection :=
  mkConn (server_ w) (sock_ w) (sink_q w) (write_req w) (handler_ w) (matches_ w) x (cv_ w) (flushed w) (trace w) (seen w) (user w).
Definition set_cv (c : Notifier) (l : list Task) w : Connection :=
  mkConn (server_ w) (sock_ w) (sink_q w) (write_req w) (handler_ w) (matches_ w) (s_ w) c l (trace w) (seen w) (user w).
Definition set_user (x : X) w : Connection :=
  mkConn (server_ w) (sock_ w) (sink_q w) (write_req w) (handler_ w) (matches_ w) (s_ w) (cv_ w) (flushed w) (trace w) (seen w) x.
Definition add_trace (c : call) w : Connection :=
  mkConn (server_ w) (sock_ w) (sink_q w) (write_req w) (handler_ w) (matches_ w) (s_ w) (cv_ w) (flushed w) (trace w ++ [c]) (seen w) (user w).
Definition add_seen (f : DataFrame) w : Connection :=
  mkConn (server_ w) (sock_ w) (sink_q w) (write_req w) (handler_ w) (matches_ w) (s_ w) (cv_ w) (flushed w) (trace w) (seen w ++ [f]) (user w).

Definition C := eff Connection.
Definition cget : C Connection := fun w => (Ret w, w).
Definition cset (f : Connection -> Connection) : C unit := fun w => (Ret tt, f w).
Definition of_res {A} (r : res A) : C A := fun w => (r, w).
Definition on_sock {A} (m : Socket.M A) : C A := fun w => let '(r, k) := m (sock_ w) in (r, set_sock k w).

(** A new connection on a socket. *)
(** [src/include/futures/http/WsController.h:81-85] Connection::Connection *)
Definition newConnection (server : option (list (list Z * option H))) (sock : SocketChannel) (x : X) : Connection :=
  mkConn server sock empty_queue None None None HANDSHAKING (mkNotifier false None) [] [] [] x.

(** [src/include/futures/http/WsController.h:30-34] Notifier::notify *)
Definition cv_notify : C unit :=
  cset (fun w => set_cv (mkNotifier true None) (flushed w ++ match cv_task (cv_ w) with Some k => [k] | None => [] end) w).
(** [src/include/futures/http/WsController.h:36-38] Notifier::park *)
Definition cv_park (cur : option Task) : C unit :=
  do! k <- of_res (CurrentTask_park cur); cset (fun w => set_cv (mkNotifier (ready_ (cv_ w)) (Some k)) (flushed w) w).

(** [src/include/futures/http/WsController.h:189-191] Connection::flush *)
Definition flush : C unit := cv_notify.

(** [src/include/futures/http/WsController.h:193-199] Connection::close *)
Definition close : C unit :=
  do! w <- cget;
  do! _ <- (if decide (s_ w <> CLOSED) then do! _ <- on_sock shutdownWrite; cset (set_state CLOSED) else eff_ret tt);
  cv_notify.

(** ** Sending *)

(** The memory of the allocator, of the digest, and the order of a header map. *)
Context (create_room : nat -> nat) (mem : list Z) (walk : gmap (list Z) (list Z) -> list (list Z * list Z)).

(** [sink_.startSend]: an exception of the encoder is caught, and the encoder
    throws before it writes. *)
(** [src/include/futures/io/IoFuture.h:130-137] FramedSink::startSend *)
Definition conn_startSend (out : DataFrame) : C (Try unit) := fun w =>
  let hs := match handshake out with Some f => walk (headers f) | None => [] end in
  match encode create_room hs out (sink_q w) with
  | Ret q => (Ret (VALUE tt), set_sink q (write_req w) w)
  | Throw e => (if is_std e then Ret (EXCEPTION (Some e)) else Throw e, w)
  | Abort a => (Abort a, w)
  | OutOfFuel => (OutOfFuel, w)
  end.

(** [src/include/futures/http/WsController.h:154-157] Connection::send *)
Definition send (f : DataFrame) : C unit :=
  do! t <- conn_startSend f;
  do! _ <- of_res (Try_.throwIfFailed t);
  flush.
(** [src/include/futures/http/WsController.h:159-161] Connection::sendText *)
Definition sendText (text : list Z) : C unit := send (mkData TEXT None text).
(** [src/include/futures/http/WsController.h:163-166] Connection::close(int, const std::string&) *)
Definition closeWith (status : Z) (reason : list Z) : C unit :=
  do! w <- cget;
  if decide (s_ w = CLOSED) then eff_ret tt else send (mkData CLOSE None reason).
(** [src/include/futures/http/WsController.h:185-187] Connection::sendPong *)
Definition sendPong : C unit := send (mkData PONG None []).

(** ** The server's handlers *)

Context (regex_valid : list Z -> bool) (regex_match : list Z -> list Z -> option Mt).

(** [src/include/futures/http/WsController.h:239-241] WsServer::addRoute *)
Definition ws_addRoute (pattern : list Z) (h : option H) (resource_ : list (list Z * option H)) : res (list (list Z * option H)) :=
  if regex_valid pattern then Ret (map_update pattern None (fun _ => h) resource_) else Throw (std_runtime_error "regex_error").

Fixpoint first_match (url : list Z) (l : list (list Z * option H)) : option (option H * Mt) :=
  match l with
  | [] => None
  | (p, h) :: l => match regex_match p url with Some m => Some (h, m) | None => first_match url l end
  end.

(** [src/include/futures/http/WsController.h:261-271] Connection::matchHandler *)
Definition matchHandler (url : list Z) : C bool :=
  do! w <- cget;
  match server_ w with
  | None => eff_ret false
  | Some l =>
      match first_match url l with
      | Some (h, m) => do! _ <- cset (set_handler h (Some m)); eff_ret true
      | None => eff_ret false
      end
  end.

(** ** Frames *)

(** The handlers; [Fut] are the boxed futures they return, and [boxed_ok] is a
    ready one. *)
Context {Fut : Type} `{FB : Future Connection Fut unit} (boxed_ok : Fut).
Context (onError onConnect onClose : H -> C unit) (onText onBinary : H -> list Z -> C Fut).

(** A callback on the handler of the connection. *)
Definition calls {A} (c : call) (m : H -> C A) : C A :=
  do! w <- cget;
  match handler_ w with
  | Some h => do! _ <- cset (add_trace c); m h
  | None => of_res (Abort "null dereference")
  end.

Definition done_ : C Fut := eff_ret boxed_ok.

Definition not_found : DataFrame :=
  mkData HANDSHAKE_RESPONSE (Some (mkFrame HPE_OK 404 HTTP_DELETE 0 [] ∅ false (bytes "Not Found"))) [].

(** [src/include/futures/http/WsController.h:93-113] Connection::process, HANDSHAKING *)
Definition on_handshake (f : DataFrame) : C Fut :=
  match type_ f, handshake f with
  | HANDSHAKE, Some req =>
      do! b <- matchHandler (path req);
      if b then
        do! out <- of_res (buildHandshakeResponse mem req);
        do! _ <- conn_startSend out;
        do! _ <- flush;
        do! _ <- cset (set_state CONNECTED);
        do! _ <- calls CConnect onConnect;
        done_
      else
        do! _ <- conn_startSend not_found;
        do! _ <- close;
        done_
  | HANDSHAKE, None => of_res (Abort "null dereference")
  | _, _ => eff_throw (IOError "invalid request")
  end.

(** [if (handler_) handler_->m(self)] *)
Definition calls_if {A} (c : call) (m : H -> C A) (other : C A) : C A :=
  do! w <- cget;
  match handler_ w with Some h => calls c m | None => other end.

(** [src/include/futures/http/WsController.h:114-130] Connection::process, CONNECTED *)
Definition on_connected (f : DataFrame) : C Fut :=
  match type_ f with
  | CLOSE =>
      do! _ <- calls_if CClose onClose (eff_ret tt);
      do! _ <- close;
      done_
  | TEXT => calls_if (CText (data_ f)) (fun h => onText h (data_ f)) done_
  | BINARY => calls_if (CBinary (data_ f)) (fun h => onBinary h (data_ f)) done_
  | PING => do! _ <- sendPong; done_
  | _ => done_
  end.

(** [src/include/futures/http/WsController.h:91-135] Connection::process, on each frame *)
Definition on_frame (f : DataFrame) : C Fut :=
  do! _ <- cset (add_seen f);
  do! w <- cget;
  match s_ w with
  | HANDSHAKING => on_handshake f
  | CONNECTED => on_connected f
  | CLOSED => eff_throw (FutureCancelledException CR_Unknown)
  end.

(** [src/include/futures/http/WsController.h:136-149] Connection::process, at the end *)
Definition at_end (err : Try unit) : C (OkFuture unit) :=
  do! w <- cget;
  do! _ <- (if Try_.hasException err then
              if decide (s_ w <> CLOSED) then calls_if CError onError (eff_ret tt) else eff_ret tt
            else if decide (s_ w <> CLOSED) then calls_if CClose onClose (eff_ret tt) else eff_ret tt);
  do! _ <- close;
  eff_ret (mkOkFuture tt).
End Connection.

Section Tail.
Context {H X Mt : Type}.
Abbreviation W := (@Connection H X Mt).

(** [sink_.pollComplete()]: the queue is moved to a new write when there is none. *)
(** [src/include/futures/io/IoFuture.h:139-152] FramedSink::pollComplete *)
Definition conn_pollComplete (cur : option Task) (i : nat) : C (Poll unit) := fun w : W =>
  let moved := match write_req w, contents (sink_q w) with None, _ :: _ => true | _, _ => false end in
  let '(r, k) := pollComplete cur i (mkSink (contents (sink_q w)) (write_req w)) (sock_ w) in
  let q := if moved then empty_queue else sink_q w in
  match r with
  | Ret (p, k') => (Ret p, set_sink q (write_req_ k') (set_sock k w))
  | Throw e => (Throw e, set_sink q (write_req w) (set_sock k w))
  | Abort a => (Abort a, set_sock k w)
  | OutOfFuel => (OutOfFuel, set_sock k w)
  end.

(** [src/include/futures/http/WsController.h:204-216] DataFlushFuture::poll *)
Definition DataFlushFuture_poll (cur : option Task) (i : nat) : C (Poll unit) :=
  do! r <- conn_pollComplete cur i;
  match r with
  | Try_.EXCEPTION _ => eff_ret (makePollReady tt)
  | Try_.VALUE None => eff_ret not_ready
  | Try_.VALUE (Some _) =>
      do! w <- cget;
      if decide (s_ w = CLOSED) then eff_ret (makePollReady tt)
      else do! _ <- cv_park cur; eff_ret not_ready
  | Try_.NOTHING => eff_throw UsingUninitializedTry
  end.

(** What other code leaves alone: the private fields. *)
Record kept (w w' : W) : Prop := mkKept {
  kept_state : s_ w' = s_ w;
  kept_handler : handler_ w' = handler_ w;
  kept_trace : trace w' = trace w;
  kept_seen : seen w' = seen w;
  kept_sock : sock_ok (sock_ w) -> sock_ok (sock_ w')
}.

Lemma kept_refl w : kept w w.
Proof. by split. Qed.
Lemma kept_trans w w1 w2 : kept w w1 -> kept w1 w2 -> kept w w2.
Proof. intros [] []. split; try congruence; auto. Qed.
End Tail.

(** ** Completion of [drop] *)
Lemma completes_drop {W S0 T} {sp : Stream W S0 T} (env : W -> W -> Prop) n (s : S0) w (t : Try unit) w' :
  @completes W env S0 unit (DropStreamFuture_poll (St := sp) n) s w t w' <->
  @completes W env _ _ (ForEachFuture_poll (St := sp) n) (forEach s (fun _ => eff_ret tt)) w t w'.
Proof.
  split.
  - induction 1 as [s w v s' w' Hp|s w e s' w' Hp|s w s1 w1 w2 t w3 Hp He _ IH]; unfold poll in Hp; rewrite drop_forEach in Hp;
      destruct (ForEachFuture_poll n (forEach s (fun _ => eff_ret tt)) w) as [[R m] wm] eqn:E; simplify_eq.
    + by eapply completes_value.
    + by eapply completes_exception.
    + pose proof (forEach_poll_runs env n _ s w _ _ _ E) as (s1 & -> & _). by eapply completes_pending.
  - remember (forEach s (fun _ => eff_ret tt)) as m eqn:Em. intros Hc. revert s Em.
    induction Hc as [m w v m' w' Hp|m w e m' w' Hp|m w m1 w1 w2 t w3 Hp He _ IH]; intros s ->; unfold poll in Hp.
    + eapply completes_value. unfold poll. by rewrite drop_forEach, Hp.
    + eapply completes_exception. unfold poll. by rewrite drop_forEach, Hp.
    + pose proof (forEach_poll_runs env n _ s w _ _ _ Hp) as (s1 & -> & _).
      eapply completes_pending; [unfold poll; by rewrite drop_forEach, Hp|done|by apply IH].
Qed.

(** ** What the callbacks are *)

Definition message (f : DataFrame) : option call :=
  match type_ f with TEXT => Some (CText (data_ f)) | BINARY => Some (CBinary (data_ f)) | _ => None end.
Definition is_close (f : DataFrame) : bool := match type_ f with CLOSE => true | _ => false end.

(** The frames before a close frame. *)
Fixpoint until_close (l : list DataFrame) : list DataFrame :=
  match l with [] => [] | f :: l => if is_close f then [] else f :: until_close l end.

Lemma until_close_open l : existsb is_close l = false -> until_close l = l.
Proof. induction l as [|f l IH]; [done|]. cbn. intros [-> Hl]%orb_false_iff. by rewrite IH. Qed.

Lemma until_close_app l l' : existsb is_close l = true -> until_close (l ++ l') = until_close l.
Proof. induction l as [|f l IH]; [done|]. cbn. destruct (is_close f); [done|]. cbn. intros Hl. by rewrite IH. Qed.

Lemma until_close_snoc l f : existsb is_close l = false -> is_close f = true -> until_close (l ++ [f]) = l.
Proof. induction l as [|x l IH]; cbn; [by intros _ ->|]. intros [-> Hl]%orb_false_iff Hf. by rewrite IH. Qed.

Lemma eff_bind_ret {W A B} (m : eff W A) (k : A -> eff W B) w a w1 : m w = (Ret a, w1) -> eff_bind m k w = k a w1.
Proof. intros E. unfold eff_bind. by rewrite E. Qed.

Lemma eff_bind_inv {W A B} (m : eff W A) (k : A -> eff W B) w r w' :
  eff_bind m k w = (r, w') ->
  (exists a w1, m w = (Ret a, w1) /\ k a w1 = (r, w')) \/
  (exists r0, m w = (r0, w') /\ match r0 with Ret _ => False | Throw e => r = Throw e | Abort a => r = Abort a | OutOfFuel => r = OutOfFuel end).
Proof.
  unfold eff_bind. destruct (m w) as [[a|e|a|] w1]; intros E; [left; eauto|right; eexists; split; [by injection E as _ <-|by injection E as <- _]..].
Qed.

Section Laws.
Context {H X Mt S0 Fut : Type}.
Abbreviation W := (@Connection H X Mt).
Context (create_room : nat -> nat) (mem : list Z) (walk : gmap (list Z) (list Z) -> list (list Z * list Z)).
Context (regex_match : list Z -> list Z -> option Mt).
Context {FB : Future W Fut unit} (boxed_ok : Fut).
Context (onError onConnect onClose : H -> C (H := H) (X := X) (Mt := Mt) unit) (onText onBinary : H -> list Z -> C (H := H) (X := X) (Mt := Mt) Fut).
Context {sp : Stream W S0 DataFrame} (env : W -> W -> Prop).
Implicit Types (w : W).

Abbreviation frame := (on_frame create_room mem walk regex_match boxed_ok onConnect onClose onText onBinary).

#[local] Instance drop_Future (fuel : nat) : Future W (AndThenStream W S0 DataFrame Fut) unit :=
  DropStreamFuture_poll (St := AndThenStream_poll (St := sp)) fuel.

(** [src/include/futures/http/WsController.h:87-150] Connection::process *)
Definition process (s : S0) : ThenFuture W (AndThenStream W S0 DataFrame Fut) (OkFuture unit) unit :=
  then_ (andThen_ s frame) (at_end onError onClose).

(** The frames of the stream, each consumed by the callback and the future that
    it returns. *)
Definition ignore_item (u : unit) : eff W unit := eff_ret tt.
Definition session_run (s : S0) w (e : option exception_wrapper) w' : Prop :=
  runs env sp (K_andThen env frame (K_each ignore_item)) (KF_andThen env frame (KF_each ignore_item)) s w [] e w'.

Lemma process_completes fuel s w r w' :
  @completes W env _ _ (ThenFuture_Future (FA := drop_Future fuel)) (process s) w r w' ->
  exists e w1, session_run s w e w1 /\ continues env (at_end onError onClose (finish tt e)) w1 r w'.
Proof.
  intros (t & w1 & Hd & Hk)%completes_then_iff. apply completes_drop, forEach_sound in Hd as (e & Hr & ->).
  exists e, w1. split; [|done]. by apply (andThen_sound env frame _ _ None) in Hr.
Qed.

Lemma completes_process s w e w1 r w' :
  session_run s w e w1 -> continues env (at_end onError onClose (finish tt e)) w1 r w' ->
  exists n, forall fuel, n <= fuel -> @completes W env _ _ (ThenFuture_Future (FA := drop_Future fuel)) (process s) w r w'.
Proof.
  intros Hr Hk. apply andThen_complete in Hr. apply forEach_complete in Hr as [n Hn]. exists n. intros fuel Hf.
  apply completes_then_iff. exists (finish tt e), w1. split; [|done]. apply completes_drop. by apply Hn.
Qed.
(** *** The methods of a connection *)

Lemma close_ok w :
  sock_ok (sock_ w) ->
  exists w', close w = (Ret tt, w') /\ s_ w' = CLOSED /\ handler_ w' = handler_ w /\ trace w' = trace w /\ seen w' = seen w /\
    sock_ok (sock_ w').
Proof.
  intros Hs. unfold close, eff_bind, cget, on_sock. case_decide as Hc.
  - destruct (shutdownWrite_ok _ Hs) as (a & k & E & Hk & _). rewrite E. cbn. eexists. by do 5 (split; [done|]).
  - cbn. eexists. by do 5 (split; [done|]).
Qed.

Lemma startSend_inv out w r w' :
  conn_startSend create_room walk out w = (r, w') -> w' = w \/ (r = Ret (VALUE tt) /\ exists q, w' = set_sink q (write_req w) w).
Proof. unfold conn_startSend. destruct (encode _ _ _ _); intros [= <- <-]; eauto. Qed.

(** What was encoded is flushed. *)
Lemma sent_kept out w r w1 r2 w2 :
  conn_startSend create_room walk out w = (r, w1) -> flush w1 = (r2, w2) -> kept w w2.
Proof.
  intros E [= <- <-]. destruct (startSend_inv _ _ _ _ E) as [->|[_ [q ->]]]; by split.
Qed.

Lemma send_kept f w r w' : send create_room walk f w = (r, w') -> kept w w'.
Proof.
  intros [(t & w1 & E & E2)|(r0 & E & Hr)]%eff_bind_inv.
  - apply eff_bind_inv in E2 as [(u & w2 & E2 & E3)|(r1 & E2 & Hr)]; injection E2 as Et <-; [by eapply sent_kept|].
    destruct (startSend_inv _ _ _ _ E) as [->|[[= ->] _]]; [apply kept_refl|]. by subst.
  - destruct (startSend_inv _ _ _ _ E) as [->|[-> _]]; [apply kept_refl|done].
Qed.

(** ** Assumptions on the handlers, the stream and the rest of the program *)

(** A future leaves the private fields alone until it completes. *)
Definition future_keeps (g : Fut) w : Prop := forall t w', completes env g w t w' -> kept w w'.

Record user_code : Prop := mkUser {
  u_boxed : forall w, exists g, poll boxed_ok w = (Ret (VALUE (Some tt)), g, w);
  u_stream : forall s w r s' w', sp s w = (r, s', w') -> kept w w';
  u_env : forall w w', env w w' -> kept w w';
  u_connect : forall h w r w', onConnect h w = (r, w') -> kept w w';
  u_text : forall h d w r w', onText h d w = (r, w') -> kept w w' /\ forall g, r = Ret g -> future_keeps g w';
  u_binary : forall h d w r w', onBinary h d w = (r, w') -> kept w w' /\ forall g, r = Ret g -> future_keeps g w';
  u_close : forall h w, exists w', onClose h w = (Ret tt, w') /\ kept w w';
  u_error : forall h w, exists w', onError h w = (Ret tt, w') /\ kept w w'
}.

(** ** The invariant of a session *)

(** The callbacks so far. *)
Definition called w : Prop :=
  match s_ w with
  | HANDSHAKING => trace w = []
  | CONNECTED => is_Some (handler_ w) /\ existsb is_close (seen w) = false /\ trace w = CConnect :: omap message (seen w)
  | CLOSED => trace w = [] \/
      (existsb is_close (seen w) = true /\ trace w = CConnect :: omap message (until_close (seen w)) ++ [CClose])
  end.

Record conn_ok w : Prop := mkConnOk {
  co_sock : sock_ok (sock_ w);
  co_called : called w;
  co_fresh : s_ w = HANDSHAKING -> handler_ w = None /\ seen w = []
}.
Definition failed_ok w : Prop := sock_ok (sock_ w) /\ called w.

Lemma called_kept w w' : kept w w' -> called w -> called w'.
Proof. intros [E1 E2 E3 E4 _]. unfold called. by rewrite E1, E2, E3, E4. Qed.

Lemma conn_ok_kept w w' : kept w w' -> conn_ok w -> conn_ok w'.
Proof.
  intros K [Hs Hc Hf]. pose proof K as [E1 E2 E3 E4 E5]. split; auto; [by eapply called_kept|]. by rewrite E1, E2, E4.
Qed.

Lemma conn_ok_failed w : conn_ok w -> failed_ok w.
Proof. by intros []. Qed.

Lemma failed_ok_kept w w' : kept w w' -> failed_ok w -> failed_ok w'.
Proof. intros K (Hs & Hc). pose proof K as [_ _ _ _ E5]. split; [auto|]. by eapply called_kept. Qed.

Lemma boxed_keeps (U : user_code) w : future_keeps boxed_ok w.
Proof.
  intros t w' Hc. destruct (u_boxed U w) as [g E]. apply completes_unfold in Hc. rewrite E in Hc. cbn in Hc. destruct Hc as [_ ->]. apply kept_refl.
Qed.

(** The outcome of a callback. *)
Definition callback_ok (R : res Fut) w' : Prop :=
  match R with Ret g => conn_ok w' /\ future_keeps g w' | Throw _ => failed_ok w' | _ => True end.

Lemma done_ok (U : user_code) R w w' : conn_ok w -> done_ boxed_ok w = (R, w') -> callback_ok R w'.
Proof. intros Hw [= <- <-]. split; [done|]. by apply boxed_keeps. Qed.

(** The first frame: a reply and [onConnect], or a refusal. *)
Lemma on_handshake_ok (U : user_code) f w R w' :
  sock_ok (sock_ w) -> s_ w = HANDSHAKING -> trace w = [] -> seen w = [f] ->
  on_handshake create_room mem walk regex_match boxed_ok onConnect f w = (R, w') -> callback_ok R w'.
Proof.
  intros Hs Est Et Ese. unfold on_handshake.
  assert (Hbad : forall u, kept w u -> failed_ok u).
  { intros u K. eapply failed_ok_kept; [exact K|]. split; [done|]. unfold called. by rewrite Est. }
  destruct (type_ f) eqn:Ety; try (intros [= <- <-]; apply Hbad, kept_refl).
  destruct (handshake f) as [req|]; [|by intros [= <- <-]].
  intros [(b & w1 & E1 & E2)|(r0 & E1 & Hr)]%eff_bind_inv; unfold matchHandler, eff_bind, cget, cset, eff_ret in E1;
    [|destruct (server_ w); [destruct (first_match _ _ _) as [[??]|]|]; by simplify_eq].
  assert (Hw1 : sock_ok (sock_ w1) /\ s_ w1 = HANDSHAKING /\ trace w1 = [] /\ seen w1 = [f]).
  { destruct (server_ w); [destruct (first_match _ _ _) as [[??]|]|]; by simplify_eq. }
  clear Hs Est Et Ese Hbad E1 w. destruct Hw1 as (Hs & Est & Et & Ese).
  assert (Hbad : forall u, kept w1 u -> failed_ok u).
  { intros u K. eapply failed_ok_kept; [exact K|]. split; [done|]. unfold called. by rewrite Est. }
  destruct b.
  - apply eff_bind_inv in E2 as [(out & w2 & [= Eo <-] & E3)|(r0 & [= Er <-] & Hr)]; [|destruct r0; simplify_eq; try done; apply Hbad, kept_refl].
    apply eff_bind_inv in E3 as [(t & w3 & E3 & E4)|(r0 & E3 & Hr)];
      [|destruct (startSend_inv _ _ _ _ E3) as [->|[-> _]]; [destruct r0; subst; try done; apply Hbad, kept_refl|done]].
    apply eff_bind_inv in E4 as [(u & w4 & E4 & E5)|(r0 & [= <- <-] & Hr)]; [|done].
    pose proof (sent_kept _ _ _ _ _ _ E3 E4) as [K1 K2 K3 K4 K5].
    apply eff_bind_inv in E5 as [(u' & w5 & [= <- <-] & E6)|(r0 & [= <- <-] & Hr)]; [|done].
    set (w5 := set_state CONNECTED w4) in *.
    apply eff_bind_inv in E6 as [(u' & w6 & E6 & E7)|(r0 & E6 & Hr)]; unfold calls, eff_bind, cget in E6; destruct (handler_ w5) as [h|] eqn:Eh;
      try (injection E6 as <- <-); try done; try (by subst R).
    all: cbn in E6; pose proof (u_connect U _ _ _ _ E6) as K.
    all: assert (Hc : conn_ok (add_trace CConnect w5)) by
      (split; [by apply K5| |done]; unfold called; cbn [s_ add_trace w5 set_state handler_ seen trace] in *;
       rewrite K3, K4, Et, Ese; cbn; unfold message, is_close; rewrite Ety; split; [by eexists|done]).
    + eapply done_ok; [done| |exact E7]. by eapply conn_ok_kept.
    + apply (conn_ok_kept _ _ K) in Hc. destruct r0; subst; try done. by apply conn_ok_failed.
  - apply eff_bind_inv in E2 as [(t & w2 & E2 & E3)|(r0 & E2 & Hr)];
      [|destruct (startSend_inv _ _ _ _ E2) as [->|[-> _]]; [destruct r0; subst; try done; apply Hbad, kept_refl|done]].
    assert (Hw2 : sock_ok (sock_ w2) /\ trace w2 = [] /\ seen w2 = [f]) by (destruct (startSend_inv _ _ _ _ E2) as [->|[_ [q ->]]]; done).
    destruct Hw2 as (Hs2 & Et2 & Ese2). destruct (close_ok w2 Hs2) as (w3 & E4 & H1 & H2 & H3 & H4 & H5).
    unfold eff_bind in E3. rewrite E4 in E3. eapply done_ok; [done| |exact E3]. split; [done| |by rewrite H1].
    unfold called. rewrite H1. left. congruence.
Qed.

Lemma calls_if_some {A} c (m : H -> C A) (other : C A) h w : handler_ w = Some h -> calls_if c m other w = m h (add_trace c w).
Proof. intros Eh. unfold calls_if, calls, eff_bind, cget, cset. by rewrite !Eh. Qed.

(** A frame of a connection that is open. *)
Lemma on_connected_ok (U : user_code) f w R w' :
  conn_ok w -> s_ w = CONNECTED ->
  on_connected create_room walk boxed_ok onClose onText onBinary f (add_seen f w) = (R, w') -> callback_ok R w'.
Proof.
  intros [Hs Hc _] Est. unfold called in Hc. rewrite Est in Hc. destruct Hc as ([h Eh] & Hno & Et). unfold on_connected.
  assert (Hopen : forall l, message f = hd_error l -> length l <= 1 -> is_close f = false -> conn_ok (foldr add_trace (add_seen f w) l)).
  { intros l Hm Hl Hcl. destruct l as [|c [|]]; [| |cbn in Hl; lia].
    all: split; [done| |cbn; by rewrite Est]; unfold called; cbn; rewrite Est, Eh, omap_app, existsb_app, Hno, Et; cbn; rewrite Hm, Hcl.
    all: split; [by eexists|]. all: split; [done|]. all: by rewrite ?app_nil_r. }
  unfold message, is_close in Hopen. destruct (type_ f) eqn:Ety.
  1,2,7: intros E; eapply done_ok; [done| |exact E]; apply (Hopen []); cbn; first [done|lia].
  - rewrite (calls_if_some _ _ _ h) by done. intros E. destruct (u_text U _ _ _ _ _ E) as [K Hg].
    pose proof (conn_ok_kept _ _ K (Hopen [_] eq_refl ltac:(cbn; lia) eq_refl)) as Hk.
    destruct R; [split; [done|by apply Hg]|by apply conn_ok_failed|done..].
  - rewrite (calls_if_some _ _ _ h) by done. intros E. destruct (u_binary U _ _ _ _ _ E) as [K Hg].
    pose proof (conn_ok_kept _ _ K (Hopen [_] eq_refl ltac:(cbn; lia) eq_refl)) as Hk.
    destruct R; [split; [done|by apply Hg]|by apply conn_ok_failed|done..].
  - unfold eff_bind at 1. rewrite (calls_if_some _ _ _ h) by done.
    destruct (u_close U h (add_trace CClose (add_seen f w))) as (w1 & -> & [K1 K2 K3 K4 K5]).
    destruct (close_ok w1) as (w2 & E2 & H1 & H2 & H3 & H4 & H5); [by apply K5|]. unfold eff_bind. rewrite E2. intros E.
    eapply done_ok; [done| |exact E]. split; [done| |by rewrite H1]. unfold called. rewrite H1. right. cbn in K3, K4.
    rewrite H3, H4, K3, K4, Et, existsb_app, until_close_snoc by (done || by unfold is_close; rewrite Ety).
    cbn. unfold is_close at 2. rewrite Ety. by rewrite orb_true_r.
  - intros [(u & w1 & E1 & E2)|(r0 & E1 & Hr)]%eff_bind_inv; apply send_kept in E1;
      pose proof (conn_ok_kept _ _ E1 (Hopen [] eq_refl ltac:(cbn; lia) eq_refl)) as Hk; [by eapply done_ok|].
    destruct r0; subst; try done. by apply conn_ok_failed.
Qed.

Lemma on_frame_ok (U : user_code) f w R w' : conn_ok w -> frame f w = (R, w') -> callback_ok R w'.
Proof.
  intros Hw. unfold on_frame. unfold eff_bind at 1 2, cset, cget. cbn [s_ add_seen]. destruct (s_ w) eqn:Est.
  - destruct (co_fresh w Hw Est) as [Eh Ese]. pose proof (co_called w Hw) as Hc. unfold called in Hc. rewrite Est in Hc.
    apply on_handshake_ok; try done; [apply Hw|]. cbn. by rewrite Ese.
  - by apply on_connected_ok.
  - intros [= <- <-]. split; [apply Hw|]. pose proof (co_called w Hw) as Hc. unfold called in *. cbn. rewrite Est in *.
    destruct Hc as [?|[Hcl Et]]; [by left|right]. rewrite existsb_app, Hcl, until_close_app by done. done.
Qed.

Lemma session_ok (U : user_code) s w e w1 :
  conn_ok w -> session_run s w e w1 -> match e with None => conn_ok w1 | Some _ => failed_ok w1 end.
Proof.
  intros Hw Hr. unfold session_run in Hr. revert Hw.
  induction Hr as [s w s' w' Hp|s w e s' w' Hp|s w v s' w1 e w2 Hp HK|s w v s' w1 us w2 l r w3 Hp HK _ IH|s w s' w1 w2 l r w3 Hp He _ IH]; intros Hw;
    pose proof (conn_ok_kept _ _ (u_stream U _ _ _ _ _ Hp) Hw) as Hw1.
  - done.
  - by apply conn_ok_failed.
  - destruct HK as [(x & Hf & Hx & ->)|(g & wg & Hf & [Hc|(u & wu & Hc & (x & Hb & _))])].
    + by apply (on_frame_ok U _ _ _ _ Hw1 Hf).
    + destruct (on_frame_ok U _ _ _ _ Hw1 Hf) as [Hg Hk]. apply conn_ok_failed. eapply conn_ok_kept; [by eapply Hk|done].
    + done.
  - destruct HK as (g & wg & Hf & (u & wu & Hc & [_ [= ->]])). destruct (on_frame_ok U _ _ _ _ Hw1 Hf) as [Hg Hk].
    apply IH. eapply conn_ok_kept; [by eapply Hk|done].
  - apply IH. eapply conn_ok_kept; [by apply (u_env U)|done].
Qed.

(** ** The end *)

(** Exactly one callback ends a session that had begun. *)
Definition callbacks (e : option exception_wrapper) w : Prop :=
  trace w = [] \/ (trace w = [CError] /\ e <> None) \/
  trace w = CConnect :: omap message (until_close (seen w)) ++
    [if existsb is_close (seen w) || bool_decide (e = None) then CClose else CError].

Definition outcome (e : option exception_wrapper) w : Prop :=
  s_ w = CLOSED /\ sock_ok (sock_ w) /\ callbacks e w.

Lemma close_outcome e w :
  sock_ok (sock_ w) -> callbacks e w -> exists w', close w = (Ret tt, w') /\ outcome e w'.
Proof.
  intros Hs Ht. destruct (close_ok w Hs) as (w' & E & H1 & H2 & H3 & H4 & H5). exists w'. split; [done|].
  unfold outcome, callbacks. by rewrite H3, H4.
Qed.

(** The callback that is due at the end. *)
Lemma last_call_ok (U : user_code) (err : bool) (e : option exception_wrapper) w :
  failed_ok w -> (err = false <-> e = None) -> (err = false -> conn_ok w) ->
  exists w1, (if err then if decide (s_ w <> CLOSED) then calls_if CError onError (eff_ret tt) else eff_ret tt
              else if decide (s_ w <> CLOSED) then calls_if CClose onClose (eff_ret tt) else eff_ret tt) w = (Ret tt, w1) /\
    sock_ok (sock_ w1) /\ callbacks e w1.
Proof.
  intros (Hs & Hc) He Hn. unfold called in Hc. destruct (decide (s_ w <> CLOSED)) as [Hcl|Hcl].
  - destruct (handler_ w) as [h|] eqn:Eh.
    + assert (Hlast : forall c m, (exists w1, m h (add_trace c w) = (Ret tt, w1) /\ kept (add_trace c w) w1) ->
        (s_ w = HANDSHAKING -> c = CError /\ e <> None) -> c = (if bool_decide (e = None) then CClose else CError) ->
        exists w1, calls_if c m (eff_ret tt) w = (Ret tt, w1) /\ sock_ok (sock_ w1) /\ callbacks e w1).
      { intros c m (w1 & E & [K1 K2 K3 K4 K5]) Hh Hce. rewrite (calls_if_some _ _ _ h) by done. exists w1. split; [done|]. split; [by apply K5|].
        cbn in K3, K4. unfold callbacks. rewrite K3, K4. destruct (s_ w); [|destruct Hc as (_ & Hno & ->)|done].
        - destruct (Hh eq_refl) as [-> ?]. rewrite Hc. by right; left.
        - right; right. by rewrite until_close_open, Hno, Hce by done. }
      destruct err.
      * apply Hlast; [apply (u_error U)| |].
        -- intros _. split; [done|]. intros ->. by assert (true = false) by (by apply He).
        -- rewrite bool_decide_eq_false_2; [done|]. intros ->. by assert (true = false) by (by apply He).
      * apply Hlast; [apply (u_close U)| |].
        -- intros Est. destruct (co_fresh w (Hn eq_refl) Est) as [E _]. congruence.
        -- rewrite bool_decide_eq_true_2; [done|]. by apply He.
    + exists w. assert (trace w = []) by (destruct (s_ w); [done|by destruct Hc as ([? [=]] & _)|done]).
      split; [|split; [done|by left]]. destruct err; unfold calls_if, eff_bind, cget; by rewrite Eh.
  - exists w. split; [by destruct err|]. split; [done|]. assert (s_ w = CLOSED) as E by (destruct (s_ w); first [done|by destruct Hcl]). rewrite E in Hc.
    destruct Hc as [?|[Hx Ht]]; [by left|]. right; right. by rewrite Ht, Hx.
Qed.

Lemma at_end_ok (U : user_code) e w :
  match e with None => conn_ok w | Some _ => failed_ok w end ->
  exists w', at_end onError onClose (finish tt e) w = (Ret (mkOkFuture tt), w') /\ outcome e w'.
Proof.
  intros Hw. destruct (last_call_ok U (Try_.hasException (finish tt e)) e w) as (w1 & E & Hs & Ht).
  - destruct e; [done|by apply conn_ok_failed].
  - by destruct e.
  - by destruct e.
  - destruct (close_outcome e w1 Hs Ht) as (w' & E' & Ho). exists w'. split; [|done]. unfold at_end.
    erewrite eff_bind_ret by done. erewrite eff_bind_ret by exact E. erewrite eff_bind_ret by exact E'. done.
Qed.

Lemma continues_end e w w1 r w' :
  at_end onError onClose (finish tt e) w = (Ret (mkOkFuture tt), w1) ->
  (continues env (at_end onError onClose (finish tt e)) w r w' <-> r = VALUE tt /\ w' = w1).
Proof. intros E. unfold continues. rewrite E. rewrite guarded_unfold. done. Qed.

End Laws.

(** ** Instances *)

Module WsServerEx.
Abbreviation W := (@Connection bool unit (list Z)).

(** A stream that plays a list of frames. *)
Definition played : Type := list DataFrame.
#[local] Instance played_Stream : Stream W played DataFrame := fun l w =>
  match l with [] => (Ret (VALUE (Some None)), [], w) | f :: l => (Ret (VALUE (Some (Some f))), l, w) end.

Definition quiet (h : bool) : @C bool unit (list Z) unit := eff_ret tt.
Definition answers (h : bool) (d : list Z) : @C bool unit (list Z) (OkFuture unit) := eff_ret (mkOkFuture tt).
Definition chat_frame (f : DataFrame) : @C bool unit (list Z) (OkFuture unit) :=
  on_frame (fun n => n) (replicate 64 0%Z) map_to_list HttpControllerEx.prefix_match (mkOkFuture tt) quiet quiet answers answers f.

Fixpoint play (l : list DataFrame) (w : W) : option (option exception_wrapper * W) :=
  match l with
  | [] => Some (None, w)
  | f :: l =>
      match chat_frame f w with
      | (Ret _, w1) => play l w1
      | (Throw e, w1) => if is_std e then Some (Some (Some e), w1) else None
      | _ => None
      end
  end.

Definition chat_server : option (list (list Z * option bool)) := Some [(bytes "/chat", Some true)].
Definition chat (sock : SocketChannel) : W := newConnection chat_server sock tt.
Definition hello : list DataFrame :=
  [mkData HANDSHAKE (Some sample_upgrade) []; mkData TEXT None (bytes "hi"); mkData PONG None []; mkData BINARY None [7%Z]].
Definition ending (l : list DataFrame) : option (option exception_wrapper * list call) :=
  (fun x => (fst x, trace (snd x))) <$> play l (chat accepted_socket).

(** A ping ends the connection with an error, since a pong cannot be encoded. *)
Example endings :
  ending hello = Some (None, [CConnect; CText (bytes "hi"); CBinary [7%Z]]) /\
  ending (hello ++ [mkData CLOSE None []]) = Some (None, [CConnect; CText (bytes "hi"); CBinary [7%Z]; CClose]) /\
  ending (hello ++ [mkData PING None []]) = Some (Some (Some (IOError "unimpl")), [CConnect; CText (bytes "hi"); CBinary [7%Z]]) /\
  ending [mkData HANDSHAKE (Some (mkFrame HPE_OK 0 HTTP_GET 0 (bytes "/") ∅ false [])) []] = Some (None, []) /\
  ending [mkData HANDSHAKE (Some (mkFrame HPE_OK 0 HTTP_GET 0 (bytes "/chat") ∅ false [])) []] =
    Some (Some (Some (std_invalid_argument "invalid Sec-WebSocket-Key")), []).
Proof. vm_compute. repeat split. Qed.

Lemma play_runs l : forall w e w1, play l w = Some (e, w1) ->
  session_run (sp := played_Stream) (fun n => n) (replicate 64 0%Z) map_to_list HttpControllerEx.prefix_match (mkOkFuture tt) quiet quiet answers answers eq l w e w1.
Proof.
  unfold session_run. induction l as [|f l IH]; intros w e w1; cbn [play].
  - intros [= <- <-]. by eapply runs_eof.
  - destruct (chat_frame f w) as [[g|x|a|] w2] eqn:E; try done.
    + intros Hp. change (@nil Empty_set) with (@nil Empty_set ++ []). eapply runs_item; [done| |by apply IH].
      exists g, w2. split; [exact E|]. exists tt, w2. split; [|done]. destruct g as [[]]. by eapply completes_value.
    + destruct (is_std x) eqn:Ex; [|done]. intros [= <- <-]. eapply runs_fail; [done|]. left. by exists x.
Qed.

Lemma chat_user_code : user_code (sp := played_Stream) (mkOkFuture tt) quiet quiet quiet answers answers eq.
Proof.
  split.
  - intros w. by eexists.
  - intros [|f l] w r s' w' [= <- <- <-]; apply kept_refl.
  - intros w w' ->. apply kept_refl.
  - intros h w r w' [= <- <-]. apply kept_refl.
  - intros h d w r w' [= <- <-]. split; [apply kept_refl|]. intros g [= <-] t w' Hc. apply completes_unfold in Hc as [_ ->]. apply kept_refl.
  - intros h d w r w' [= <- <-]. split; [apply kept_refl|]. intros g [= <-] t w' Hc. apply completes_unfold in Hc as [_ ->]. apply kept_refl.
  - intros h w. exists w. split; [done|apply kept_refl].
  - intros h w. exists w. split; [done|apply kept_refl].
Qed.

Lemma chat_sock : sock_ok accepted_socket.
Proof. apply initial_ok. by right. Qed.


(** ** A flush that is lost *)

(** The flushing future starts a write that the kernel does not take at once; a
    second text is sent meanwhile; the socket becomes writable and the write
    completes.  The future is polled again, and waits to be notified, with the
    second text in the queue, no write in progress and no task woken. *)
Definition on_writable : @C bool unit (list Z) unit := fun w =>
  let '(r, k) := onEvent (fun _ => 1) false false true (false, None) (Socket.upd_sys [] [WSent 10] (sock_ w)) in (r, set_sock k w).
Definition lost_flush : @C bool unit (list Z) (Poll unit * Poll unit) :=
  do! _ <- sendText (fun n => n) map_to_list (bytes "one");
  do! r1 <- DataFlushFuture_poll (Some 1) 0;
  do! _ <- sendText (fun n => n) map_to_list (bytes "two");
  do! _ <- on_writable;
  do! r2 <- DataFlushFuture_poll (Some 1) 1;
  eff_ret (r1, r2).

Example flush_is_lost :
  let '(r, w) := lost_flush (set_state CONNECTED (chat accepted_socket)) in
  r = Ret (not_ready, not_ready) /\ sent (sock_ w) = [129; 3]%Z ++ bytes "one" /\ contents (sink_q w) = [129; 3]%Z ++ bytes "two" /\
  write_req w = None /\ pWrite (io (sock_ w)) = [] /\ cv_task (cv_ w) = Some 1 /\ flushed w = [].
Proof. vm_compute. repeat split. Qed.

(** The reply to a request that is refused is queued, but the socket is shut down
    before it is written. *)
Definition refused : @C bool unit (list Z) (Poll unit) :=
  do! _ <- chat_frame (mkData HANDSHAKE (Some (mkFrame HPE_OK 0 HTTP_GET 0 (bytes "/") ∅ false [])) []);
  DataFlushFuture_poll (Some 1) 0.

Example refusal_is_not_sent :
  let '(r, w) := refused (chat accepted_socket) in
  r = Ret (makePollReady tt) /\ sent (sock_ w) = [] /\ s_ w = CLOSED.
Proof. vm_compute. repeat split. Qed.

(** A close frame cannot be sent. *)
Example close_frame_throws :
  fst (closeWith (fun n => n) map_to_list 1000 (bytes "bye") (set_state CONNECTED (chat accepted_socket))) = Throw (IOError "unimpl").
Proof. vm_compute. reflexivity. Qed.
End WsServerEx.
