(* ===== verification/WsStream.v ===== *)
(** * From the bytes of a client to the handler

    The frames of a websocket connection: [FramedStream] of [Framed.v] over the
    decoder of [WsSession.v], read by the connection of [WsServer.v].  The reads of
    the socket are a script, one group of reads before each poll; the bytes of
    the queue are one buffer. *)

From S2P Require Import Prelude HttpSyntax HttpExec HttpMessage HttpSafe HttpDecode HttpBytes HttpEncode HttpRoundtrip IOBufQueue HttpController Core Channels IoObject Socket SocketLaws Codec Framed WsParser WsCodec WsSession Futures FutureLaws Streams WsServer.
Local Open Scope cpp_scope.

(** [RFC6455Decoder] on the bytes of a queue. *)
#[global] Instance ws_Decoder : Codec.Decoder WsSession.Decoder DataFrame := fun d s =>
  let '(r, d', bufs) := WsSession.decode d (match s with [] => [] | _ => [s] end) in (r, d', concat bufs).

Abbreviation reader := (FramedStreamReader WsSession.Decoder).

(** Reads that come in before a poll. *)
Definition arrive (g : list (list Z)) (r : reader) : reader := foldl (fun r l => fst (r_dataReady l r)) r g.

(** The stream with the reads to come; after the last one the peer closes. *)
Definition ws_stream {W} : Stream W (reader * list (list (list Z))) DataFrame := fun s w =>
  let '(r, gs) := s in
  let r := match gs with [] => fst (r_readEof r) | g :: _ => arrive g r end in
  let '(o, r') := pollStream (Some 0) r in (o, (r', tail gs), w).

Module WsStreamEx.
Definition text (l : list Z) : list Z := [129; Z.of_nat (length l)]%Z ++ l.
Definition sends (gs : list (list (list Z))) : list (res (Poll (option DataFrame))) :=
  let fix go n s := match n with 0 => [] | S n => let '(o, s', _) := ws_stream s tt in o :: go n s' end in
  go (2 + length gs) (new_reader (new_decoder sample_junk 5 6), gs).
Definition shown (o : res (Poll (option DataFrame))) : option (option (list Z)) :=
  match o with Ret (Core.VALUE (Some (Some f))) => Some (Some (data_ f)) | Ret (Core.VALUE (Some None)) => Some None | _ => None end.

(** Two frames in one read: the first is returned, the second waits for the next
    read, and is lost when the connection ends first. *)
Example frames_lost :
  shown <$> sends [sample_cut1; [text (bytes "one") ++ text (bytes "two")]; []] = [Some (Some []); Some (Some (bytes "one")); None; Some None; Some None] /\
  shown <$> sends [sample_cut1; [text (bytes "one")]; [text (bytes "two")]; []] =
    [Some (Some []); Some (Some (bytes "one")); Some (Some (bytes "two")); None; Some None; Some None].
Proof. vm_compute. repeat split. Qed.
End WsStreamEx.

(** ** The decoder against all the ways to cut what is left *)

Abbreviation wsdelivers := WsSession.delivers.
Abbreviation chunks bufs := (Forall (fun b : list Z => b <> []) bufs).

(** However the bytes [rem] are cut, the frames [R] are delivered. *)
Definition streams_to (d : WsSession.Decoder) (rem : list Z) (R : list DataFrame) : Prop :=
  forall bufs, chunks bufs -> concat bufs = rem -> exists d', wsdelivers d bufs R d'.

(** However the rest [rem] of the request is cut, it gives the first frame. *)
Definition greets_with (d : WsSession.Decoder) (rem fut : list Z) (R : list DataFrame) : Prop :=
  WsSession.s_ d = WsSession.HANDSHAKING /\ hasData (impl_ d) = false /\ rem <> [] /\
  exists f R', R = f :: R' /\ forall bufs more, chunks bufs -> concat bufs = rem ->
    exists d2, decode_loop d (bufs ++ more) = (Ret (Some f), d2, more) /\ streams_to d2 fut R'.

Lemma some_cut (l : list Z) : exists bufs, chunks bufs /\ concat bufs = l.
Proof. destruct l as [|x l]; [by exists []|]. exists [x :: l]. split; [by repeat constructor|]. cbn. by rewrite app_nil_r. Qed.

Lemma pollFrame_some (s s' : WsCodec.Parser) : hasData s = true -> pollFrame s <> (Ret None, s').
Proof.
  unfold hasData, pollFrame. destruct (WsCodec.q_ s) as [|[ty x] q]; [done|]. intros _. repeat (destruct (ty =? _)%Z; [done|]). done.
Qed.

Lemma poll_some d rest r d1 rest1 : hasData (impl_ d) = true -> WsSession.poll d rest = (Ret r, d1, rest1) -> is_Some r.
Proof.
  intros Hd. pose proof (fun s' => pollFrame_some _ s' Hd) as Hp. unfold WsSession.poll. destruct (pollFrame (impl_ d)) as [[[f|]|e|a|] s]; try done.
  - intros [= <- _ _]. by eexists.
  - by destruct (Hp s).
Qed.

Lemma poll_rest d rest r d1 rest1 : WsSession.poll d rest = (r, d1, rest1) -> rest1 = rest /\ forall rest', WsSession.poll d rest' = (r, d1, rest').
Proof. unfold WsSession.poll. destruct (pollFrame (impl_ d)). by intros [= <- <- <-]. Qed.

Lemma delivers_inv d bufs R d' : wsdelivers d bufs R d' ->
  (R = [] /\ WsSession.decode d bufs = (Ret None, d', [])) \/ exists f R' d1 rest, R = f :: R' /\ WsSession.decode d bufs = (Ret (Some f), d1, rest) /\ wsdelivers d1 rest R' d'.
Proof. inversion 1; subst; [by left|right]. eauto 10. Qed.

(** One buffer. *)
Definition first_step (d : WsSession.Decoder) (q : list Z) : option (res (option DataFrame)) * WsSession.Decoder :=
  match WsSession.s_ d with WsSession.HANDSHAKING => handshaking d q | STREAMING => streaming d q end.

Lemma decode_loop_cons d q bufs : q <> [] ->
  decode_loop d (q :: bufs) = match first_step d q with (Some r, d1) => (r, d1, bufs) | (None, d1) => decode_loop d1 bufs end.
Proof. intros Hq. cbn [decode_loop]. by rewrite no_bytes_cons. Qed.

Lemma first_step_some d q r d1 : first_step d q = (Some (Ret r), d1) -> is_Some r.
Proof.
  unfold first_step. destruct (WsSession.s_ d).
  - unfold handshaking. repeat case_match; intros E; simplify_eq; by eexists.
  - unfold streaming. destruct (WsCodec.execute _ _ _) as [[[rc p] s]|]; [|done]. destruct (negb _); [case_match; intros E; by simplify_eq|].
    destruct (hasData s) eqn:Eh; [|done]. destruct (WsSession.poll _ []) as [[r0 d0] rest] eqn:Ep. intros [= -> ->]. exact (poll_some (set_impl p s d) [] r d1 rest Eh Ep).
Qed.

Lemma first_step_none d q d1 : hasData (impl_ d) = false -> first_step d q = (None, d1) ->
  hasData (impl_ d1) = false /\ WsSession.s_ d1 = WsSession.s_ d.
Proof.
  unfold first_step. intros Hd. destruct (WsSession.s_ d) eqn:Es.
  - unfold handshaking. repeat case_match; try done. by intros [= <-].
  - unfold streaming. destruct (WsCodec.execute _ _ _) as [[[rc p] s]|]; [|done]. destruct (negb _); [case_match; intros E; by simplify_eq|].
    destruct (hasData s) eqn:Eh; [by destruct (WsSession.poll _ []) as [[r0 d0] rest]|]. by intros [= <-].
Qed.

(** One call of the decoder while frames come. *)
Lemma streams_to_step d q fut R r d1 rest :
  streams_to d (q ++ fut) R -> q <> [] -> WsSession.decode d [q] = (r, d1, rest) ->
  match r with
  | Ret (Some f) => exists R', R = f :: R' /\ streams_to d1 (concat rest ++ fut) R'
  | Ret None => rest = [] /\ streams_to d1 fut R
  | _ => False
  end.
Proof.
  intros HI Hq. assert (HI0 : forall bufs, chunks bufs -> concat bufs = fut -> exists d', wsdelivers d (q :: bufs) R d').
  { intros bufs Hb Ec. apply HI; [by constructor|]. cbn. by rewrite Ec. }
  destruct (some_cut fut) as (bufs0 & Hb0 & Ec0).
  unfold WsSession.decode at 1. destruct (hasData (impl_ d)) eqn:Eh.
  - intros E. destruct (poll_rest _ _ _ _ _ E) as [-> Hp].
    assert (Hall : forall bufs, chunks bufs -> concat bufs = q ++ fut -> exists f R' d', r = Ret (Some f) /\ R = f :: R' /\ wsdelivers d1 bufs R' d').
    { intros bufs Hb Ec. destruct (HI bufs Hb Ec) as [d' [[-> Ed]|(f & R' & d2 & rest & -> & Ed & Hd)]%delivers_inv];
        unfold WsSession.decode in Ed; rewrite Eh, Hp in Ed; simplify_eq; [|eauto 6]. by destruct (poll_some _ _ _ _ _ Eh E). }
    destruct (Hall (q :: bufs0)) as (f & R' & d' & -> & -> & _); [by constructor|cbn; by rewrite Ec0|].
    exists R'. split; [done|]. cbn. rewrite app_nil_r. intros bufs' Hb' Ec'. destruct (Hall bufs' Hb' Ec') as (? & ? & d2 & [= <-] & [= <-] & Hd). by exists d2.
  - rewrite decode_loop_cons by done. destruct (first_step d q) as [[r0|] d0] eqn:Es.
    + intros [= <- <- <-].
      assert (Hall : forall bufs, chunks bufs -> concat bufs = fut -> exists f R' d', r0 = Ret (Some f) /\ R = f :: R' /\ wsdelivers d0 bufs R' d').
      { intros bufs Hb Ec. destruct (HI0 bufs Hb Ec) as [d' [[-> Ed]|(f & R' & d2 & rest & -> & Ed & Hd)]%delivers_inv];
          unfold WsSession.decode in Ed; rewrite Eh, decode_loop_cons, Es in Ed by done; simplify_eq; [|eauto 6]. by destruct (first_step_some _ _ _ _ Es). }
      destruct (Hall bufs0 Hb0 Ec0) as (f & R' & d' & -> & -> & _).
      exists R'. split; [done|]. intros bufs' Hb' Ec'. destruct (Hall bufs' Hb' Ec') as (? & ? & d2 & [= <-] & [= <-] & Hd). by exists d2.
    + cbn [decode_loop]. intros [= <- <- <-]. split; [done|]. intros bufs Hb Ec. destruct (HI0 bufs Hb Ec) as [d' Hd]. exists d'.
      eapply delivers_same; [|exact Hd]. unfold WsSession.decode. destruct (first_step_none _ _ _ Eh Es) as [-> _]. by rewrite Eh, decode_loop_cons, Es.
Qed.

(** One call of the decoder during the handshake. *)
Lemma greets_step d q u fut R r d1 rest :
  greets_with d (q ++ u) fut R -> q <> [] -> WsSession.decode d [q] = (r, d1, rest) ->
  rest = [] /\
  match r with
  | Ret (Some f) => u = [] /\ exists R', R = f :: R' /\ streams_to d1 fut R'
  | Ret None => greets_with d1 u fut R
  | _ => False
  end.
Proof.
  intros (Hs & Hd & _ & f & R' & -> & HI) Hq. unfold WsSession.decode. rewrite Hd.
  destruct (decide (u = [])) as [->|Hu].
  - destruct (HI [q] []) as (d2 & E & Hd2); [by repeat constructor|done|]. cbn [app] in E. rewrite E. intros [= <- <- <-]. eauto.
  - rewrite decode_loop_cons by done. destruct (HI [q; u] []) as (d2 & E & _); [by repeat constructor|cbn; by rewrite app_nil_r|].
    cbn [app] in E. rewrite decode_loop_cons in E by done. destruct (first_step d q) as [[r0|] d0] eqn:Es; [by simplify_eq|].
    cbn [decode_loop]. intros [= <- <- <-]. split; [done|]. destruct (first_step_none _ _ _ Hd Es) as [Hd0 Hs0].
    split; [congruence|]. split; [done|]. split; [done|]. exists f, R'. split; [done|]. intros bufs more Hb Ec.
    destruct (HI (q :: bufs) more) as (d3 & E3 & Hd3); [by constructor|cbn; by rewrite Ec|]. cbn [app] in E3. rewrite decode_loop_cons, Es in E3 by done. eauto.
Qed.

(** ** The reader *)

Record rd_ok (r : reader) : Prop := mkRd {
  rd_ec : r_ec r = None;
  rd_state : (r_state r = IoObject.STARTED /\ eof_ r = false) \/ r_state r = DONE;
  rd_read : readable_ r = false -> Framed.q_ r = [] /\ eof_ r = false
}.

(** What is left: [u] of the request and [fut] after it, beyond the queue. *)
Definition expects (r : reader) (u fut : list Z) (R : list DataFrame) : Prop :=
  (greets_with (codec_ r) (Framed.q_ r ++ u) fut R /\ r_state r = IoObject.STARTED) \/ streams_to (codec_ r) (Framed.q_ r ++ u ++ fut) R.

Definition polled_ok (u fut : list Z) (R : list DataFrame) (x : res (Poll (option DataFrame)) * reader) : Prop :=
  match x with
  | (Ret (Try_.VALUE (Some (Some f))), r') => exists R', R = f :: R' /\ rd_ok r' /\ streams_to (codec_ r') (Framed.q_ r' ++ u ++ fut) R'
  | (Ret (Try_.VALUE None), r') => rd_ok r' /\ Framed.q_ r' = [] /\ expects r' u fut R
  | _ => True
  end.

(** Nothing to decode: the task waits, or the stream ends. *)
Lemma park_polled k n u fut R r again :
  r_ec r = None -> (r_state r = IoObject.STARTED \/ r_state r = DONE) -> Framed.q_ r = [] -> expects r u fut R ->
  (forall r', Framed.q_ r' = [] -> eof_ r' = true -> readable_ r' = true -> again r' = pollOneItem_loop (S n) (Some k) r') ->
  polled_ok u fut R (park_or_eof (Some k) (with_flags false false r) again).
Proof.
  intros Hec Hst Hq Hx Ha. unfold park_or_eof. cbn. destruct Hst as [Hst|Hst]; rewrite Hst.
  - rewrite decide_True by done. cbn. split; [|split; [done|]].
    + split; [done|by left|done].
    + unfold expects in *. cbn. by rewrite Hst in *.
  - rewrite decide_False by done. rewrite Ha by done. cbn. by rewrite Hq.
Qed.

Lemma pollStream_polled k r u fut R : rd_ok r -> expects r u fut R -> polled_ok u fut R (pollStream (Some k) r).
Proof.
  intros [Hec Hst Hrd] Hx. unfold pollStream. rewrite Hec.
  assert (Hst' : r_state r = IoObject.STARTED \/ r_state r = DONE) by (destruct Hst as [[? _]|?]; auto).
  assert (Hr : polled_ok u fut R (pollOneItem_loop 2 (Some k) r)); [|by destruct Hst' as [-> | ->]].
  cbn [pollOneItem_loop]. destruct (readable_ r) eqn:Er.
  - destruct (Framed.q_ r) as [|x q] eqn:Eq.
    + destruct (eof_ r) eqn:Ee; [done|]. by apply (park_polled k 0).
    + set (s := x :: q) in *. assert (Hs : s <> []) by done.
      unfold decodeEof, Codec.decode, ws_Decoder. change (match s with [] => [] | _ => [s] end) with [s].
      destruct (WsSession.decode (codec_ r) [s]) as [[res d1] rest] eqn:Ed.
      assert (Hd : match res with
        | Ret (Some f) => exists R', R = f :: R' /\ streams_to d1 (concat rest ++ u ++ fut) R'
        | Ret None => rest = [] /\ expects (with_q d1 (concat rest) r) u fut R
        | _ => False end).
      { destruct Hx as [[Hg Hstart]|Hg]; rewrite Eq in Hg.
        - destruct (greets_step _ _ _ _ _ _ _ _ Hg Hs Ed) as [-> Hres]. destruct res as [[f|]|?|?|]; try done.
          + destruct Hres as [-> (R' & -> & HR)]. by exists R'.
          + split; [done|]. left. by split.
        - pose proof (streams_to_step _ _ _ _ _ _ _ Hg Hs Ed) as Hres. destruct res as [[f|]|?|?|]; try done.
          destruct Hres as [-> HR]. split; [done|]. right. done. }
      destruct (eof_ r) eqn:Ee.
      * destruct res as [[f|]|?|?|]; try done. destruct Hd as (R' & -> & HR). exists R'. split; [done|]. split; [|done]. split; [done|destruct Hst as [[_ ?]|?]; [congruence|by right]|cbn; congruence].
      * destruct res as [[f|]|?|?|]; try done.
        -- destruct Hd as (R' & -> & HR). exists R'. split; [done|]. split; [|done]. split; [done| |cbn; congruence].
           destruct Hst as [[? ?]|?]; [left|right]; done.
        -- destruct Hd as [-> Hx']. by apply (park_polled k 0).
  - destruct (Hrd eq_refl) as [Hq He]. assert (with_flags false false r = r) as E by (destruct r; cbn in *; by subst). rewrite <- E at 1.
    by apply (park_polled k 0).
Qed.

(** The reads of a group. *)
Lemma arrive_ok g : forall r u fut R,
  rd_ok r -> r_state r = IoObject.STARTED -> expects r (concat g ++ u) fut R -> rd_ok (arrive g r) /\ expects (arrive g r) u fut R /\ r_state (arrive g r) = IoObject.STARTED.
Proof.
  induction g as [|l g IH]; intros r u fut R Hr Hst Hx; [done|]. cbn [arrive foldl]. apply IH; [| done|].
  - destruct Hr as [Hec Hs Hrd]. unfold r_dataReady, r_notify. split; [done|done|]. cbn. destruct l; [rewrite app_nil_r; done|done].
  - unfold expects in *. unfold r_dataReady, r_notify. cbn in *. by rewrite <- !app_assoc in *.
Qed.

Lemma pollStream_state k r : r_state (snd (pollStream (Some k) r)) = r_state r.
Proof.
  assert (Hp : forall r0 (again : reader -> res (Poll (option DataFrame)) * reader), (forall r1, r_state (snd (again r1)) = r_state r1) ->
    r_state (snd (park_or_eof (Some k) r0 again)) = r_state r0).
  { intros r0 again Ha. unfold park_or_eof. destruct (eof_ r0 || readable_ r0); [done|]. case_decide; [done|]. by rewrite Ha. }
  assert (Hl : forall n r0, r_state (snd (pollOneItem_loop n (Some k) r0)) = r_state r0).
  { intros n. induction n as [|n IH]; intros r0; [done|]. cbn [pollOneItem_loop].
    assert (Hc : forall e d s, r_state (snd (caught (A := option DataFrame) e (with_q d s r0))) = r_state r0) by (intros; unfold caught; by case_match).
    destruct (readable_ r0); [|by apply Hp]. destruct (eof_ r0).
    - destruct (Framed.q_ r0); [done|]. destruct (decodeEof _ _) as [[[]?]?]; done || apply Hc.
    - destruct (Framed.q_ r0); [by rewrite Hp|]. destruct (Codec.decode _ _) as [[[[]| | |]?]?]; first [done|by rewrite Hp|apply Hc]. }
  unfold pollStream. destruct (r_state r) eqn:E; [destruct (r_ec r)..|]; rewrite ?Hl; done.
Qed.

(** ** The stream *)

Abbreviation flat gs := (concat (concat gs)).

Definition st_ok (s : reader * list (list (list Z))) (R : list DataFrame) : Prop :=
  let '(r, gs) := s in
  rd_ok r /\ (gs <> [] -> r_state r = IoObject.STARTED) /\
  ((exists gs1 gs2, gs = gs1 ++ gs2 /\ Framed.q_ r = [] /\ greets_with (codec_ r) (flat gs1) (flat gs2) R) \/
   streams_to (codec_ r) (Framed.q_ r ++ flat gs) R).

Lemma flat_app (gs1 gs2 : list (list (list Z))) : flat (gs1 ++ gs2) = flat gs1 ++ flat gs2.
Proof. by rewrite concat_app, concat_app. Qed.

Lemma polled_st_ok gs1 gs2 gs R o r' :
  polled_ok (flat gs1) (flat gs2) R (o, r') -> gs = gs1 ++ gs2 -> (gs <> [] -> r_state r' = IoObject.STARTED) ->
  match o with
  | Ret (Try_.VALUE (Some (Some f))) => exists R', R = f :: R' /\ st_ok (r', gs) R'
  | Ret (Try_.VALUE None) => st_ok (r', gs) R
  | _ => True
  end.
Proof.
  intros Hp -> Hst. destruct o as [[[[f|]|]|?|]|?|?|]; try done; cbn in Hp.
  - destruct Hp as (R' & -> & Hr & HR). exists R'. split; [done|]. split; [done|]. split; [done|]. right. by rewrite flat_app.
  - destruct Hp as (Hr & Hq & [[Hg _]|Hs]); (split; [done|]); (split; [done|]).
    + left. exists gs1, gs2. rewrite Hq in Hg. done.
    + right. by rewrite flat_app.
Qed.

Lemma ws_stream_ok {W} s R (w : W) o s' w' :
  st_ok s R -> ws_stream s w = (o, s', w') ->
  w' = w /\
  match o with
  | Ret (Try_.VALUE (Some (Some f))) => exists R', R = f :: R' /\ st_ok s' R'
  | Ret (Try_.VALUE None) => st_ok s' R
  | _ => True
  end.
Proof.
  destruct s as [r gs]. intros (Hr & Hst & Hx) E. unfold ws_stream in E. destruct gs as [|g gs].
  - destruct Hx as [(gs1 & gs2 & Eg & _ & (_ & _ & Hne & _))|Hx]; [symmetry in Eg; apply app_nil in Eg as [-> ->]; done|].
    set (r1 := fst (r_readEof r)) in *. assert (Hr1 : rd_ok r1 /\ Framed.q_ r1 = Framed.q_ r /\ codec_ r1 = codec_ r).
    { unfold r1, r_readEof, r_finish. case_decide; [|done]. cbn. destruct Hr as [H1 H2 H3]. split; [|done]. split; [done|by right|done]. }
    destruct Hr1 as (Hr1 & Eq & Ec). destruct (pollStream (Some 0) r1) as [o1 r2] eqn:Ep. injection E as <- <- <-. split; [done|].
    eapply (polled_st_ok [] []); [|done|done]. rewrite <- Ep. apply pollStream_polled; [done|]. right. by rewrite Eq, Ec.
  - specialize (Hst ltac:(done)). destruct (pollStream (Some 0) (arrive g r)) as [o1 r2] eqn:Ep. injection E as <- <- <-. split; [done|].
    assert (Hgo : forall gs1 gs2, gs = gs1 ++ gs2 -> expects r (concat g ++ flat gs1) (flat gs2) R ->
      match o1 with
      | Ret (Try_.VALUE (Some (Some f))) => exists R', R = f :: R' /\ st_ok (r2, gs) R'
      | Ret (Try_.VALUE None) => st_ok (r2, gs) R
      | _ => True
      end).
    { intros gs1 gs2 Eg He. destruct (arrive_ok g r _ _ _ Hr Hst He) as (Ha & He' & Hs').
      eapply (polled_st_ok gs1 gs2); [|done|]; [rewrite <- Ep; by apply pollStream_polled|].
      intros _. pose proof (f_equal snd Ep) as E2. cbn [snd] in E2. rewrite <- E2. etransitivity; [apply pollStream_state|done]. }
    destruct Hx as [([|g1 gs1] & gs2 & Eg & Hq & Hg)|Hx].
    + by destruct Hg as (_ & _ & ? & _).
    + injection Eg as -> Eg. apply (Hgo gs1 gs2 Eg). left. split; [|done]. rewrite Hq. cbn in Hg |- *. by rewrite concat_app in Hg.
    + apply (Hgo [] gs eq_refl). right. cbn in Hx |- *. rewrite concat_app in Hx. by rewrite app_nil_r.
Qed.

(** ** A client's session *)

(** A decoder that has not read anything. *)
Lemma new_session_ok junk_p junk_data junk_control hs r fs gs1 gs2 :
  (0 <= bytes_remaining junk_p)%Z -> upgrade_request hs r -> (2 * Z.of_nat (length (upgrade_wire hs r)) <= HTTP_MAX_HEADER_SIZE)%Z -> Forall frame_ok fs ->
  flat gs1 = upgrade_wire hs r -> flat gs2 = concat (frame_wire <$> fs) ->
  st_ok (new_reader (new_decoder junk_p junk_data junk_control), gs1 ++ gs2) (session_frames r fs).
Proof.
  intros Hp Hr Hn Hfs Hc1 Hc2. pose proof (upgrade_wire_bytes hs r Hr) as Hb. destruct (reads_upgrade hs r Hr Hn) as (h1 & h2 & Hrd & Hc & E & He & Hu & Em).
  rewrite upgrade_wire_eq in Hc1, Hb. set (d0 := new_decoder junk_p junk_data junk_control).
  assert (Hws : upgradeToWebsocket (req_ (self_ h2)) = true).
  { rewrite <- (ur_websocket _ _ Hr). unfold HttpDecode.message in Em. destruct (completed_ (self_ h2)); [|done]. unfold upgradeToWebsocket. by injection Em as _ _ _ _ _ -> _. }
  split; [by split; try done; left|]. split; [done|]. left. exists gs1, gs2. split; [done|]. split; [done|]. split; [done|]. split; [done|].
  split; [rewrite Hc1; by intros [_ ?]%app_nil|]. eexists _, _. split; [done|]. intros bufs more Hbu Ecb.
  destruct (handshake_any_cut d0 _ LF h1 h2 bufs more eq_refl (new_parser_ok true false) eq_refl Hrd Hc E He Hu Hws Hb Hbu) as (h3 & Es & Ed); [by rewrite Ecb, Hc1|].
  rewrite (moveResult_message h3 _ (eq_trans (f_equal HttpDecode.message Es) Em)) in Ed. eexists. split; [exact Ed|].
  intros bufs2 Hb2 Ec2. destruct (delivers_frames (snd (moveResult h3)) (ws_ d0) (impl_ d0) fs bufs2) as (p' & s' & Hd & _); try done; [by rewrite Ec2|]. by eexists.
Qed.

Section EndToEnd.
Context {H X Mt Fut : Type}.
Abbreviation W := (@Connection H X Mt).
Context (create_room : nat -> nat) (mem : list Z) (walk : gmap (list Z) (list Z) -> list (list Z * list Z)).
Context (regex_match : list Z -> list Z -> option Mt).
Context {FB : Future W Fut unit} (boxed_ok : Fut).
Context (onError onConnect onClose : H -> C (H := H) (X := X) (Mt := Mt) unit) (onText onBinary : H -> list Z -> C (H := H) (X := X) (Mt := Mt) Fut).
Context (env : W -> W -> Prop).
Implicit Types (w : W).

(** *** The frames that a connection has seen *)

Definition keeps_seen {A} (m : C (H := H) (X := X) (Mt := Mt) A) : Prop := forall w r w', m w = (r, w') -> seen w' = seen w.

Lemma keeps_seen_bind {A B} (m : C A) (k : A -> C B) : keeps_seen m -> (forall a, keeps_seen (k a)) -> keeps_seen (eff_bind m k).
Proof.
  intros Hm Hk w r w' [(a & w1 & E1 & E2)|(r0 & E & _)]%eff_bind_inv; [|by eapply Hm]. rewrite (Hk _ _ _ _ E2). by eapply Hm.
Qed.
Lemma keeps_seen_cset f : (forall w, seen (f w) = seen w) -> keeps_seen (cset f).
Proof. intros Hf w r w' [= <- <-]. apply Hf. Qed.
Lemma keeps_seen_same {A} (m : C A) : (forall w, snd (m w) = w) -> keeps_seen m.
Proof. intros Hm w r w' E. specialize (Hm w). rewrite E in Hm. by subst. Qed.
Lemma keeps_seen_kept {A} (m : C A) : (forall w r w', m w = (r, w') -> kept w w') -> keeps_seen m.
Proof. intros Hm w r w' E. apply (kept_seen _ _ (Hm _ _ _ E)). Qed.

Ltac keeps :=
  repeat first
    [ apply keeps_seen_bind; [|intros ?]
    | apply keeps_seen_cset; intros ?; reflexivity
    | apply keeps_seen_same; intros ?; reflexivity
    | match goal with |- keeps_seen (match ?x with _ => _ end) => destruct x end ].

Lemma on_sock_keeps {A} (m : Socket.M A) : keeps_seen (on_sock m).
Proof. intros w r w' E. unfold on_sock in E. destruct (m (sock_ w)). by injection E as <- <-. Qed.

Lemma startSend_keeps out : keeps_seen (conn_startSend create_room walk out).
Proof. intros w r w' E. by destruct (startSend_inv create_room walk out w r w' E) as [->|[_ [q ->]]]. Qed.

Lemma send_keeps f : keeps_seen (send create_room walk f).
Proof. apply keeps_seen_kept. intros w r w'. apply send_kept. Qed.

Context (U : user_code (sp := ws_stream) boxed_ok onError onConnect onClose onText onBinary env).

Lemma close_callback_keeps h : keeps_seen (onClose h).
Proof. apply keeps_seen_kept. intros w r w' E. destruct (u_close _ _ _ _ _ _ _ U h w) as (w1 & E1 & K). rewrite E1 in E. by simplify_eq. Qed.
Lemma error_callback_keeps h : keeps_seen (onError h).
Proof. apply keeps_seen_kept. intros w r w' E. destruct (u_error _ _ _ _ _ _ _ U h w) as (w1 & E1 & K). rewrite E1 in E. by simplify_eq. Qed.
Lemma connect_callback_keeps h : keeps_seen (onConnect h).
Proof. apply keeps_seen_kept. intros w r w'. apply (u_connect _ _ _ _ _ _ _ U). Qed.
Lemma text_callback_keeps h d : keeps_seen (onText h d).
Proof. apply keeps_seen_kept. intros w r w' E. by destruct (u_text _ _ _ _ _ _ _ U _ _ _ _ _ E). Qed.
Lemma binary_callback_keeps h d : keeps_seen (onBinary h d).
Proof. apply keeps_seen_kept. intros w r w' E. by destruct (u_binary _ _ _ _ _ _ _ U _ _ _ _ _ E). Qed.

Abbreviation frame := (on_frame create_room mem walk regex_match boxed_ok onConnect onClose onText onBinary).

Lemma on_frame_seen f w R w' : frame f w = (R, w') -> seen w' = seen w ++ [f].
Proof.
  unfold on_frame. unfold eff_bind at 1, cset. intros E. change (seen w ++ [f]) with (seen (add_seen f w)). revert E.
  generalize (add_seen f w) as u. intros u. revert u R w'. change (keeps_seen (do! w <- cget;
    match s_ w with
    | HANDSHAKING => on_handshake create_room mem walk regex_match boxed_ok onConnect f
    | CONNECTED => on_connected create_room walk boxed_ok onClose onText onBinary f
    | CLOSED => eff_throw (FutureCancelledException CR_Unknown)
    end)).
  unfold on_handshake, on_connected, matchHandler, calls_if, calls, done_, flush, cv_notify, sendPong. keeps;
    first [apply on_sock_keeps|apply startSend_keeps|apply send_keeps|apply close_callback_keeps|apply connect_callback_keeps|apply text_callback_keeps|apply binary_callback_keeps].
Qed.

(** The callback of a frame and the future it returns. *)
Lemma frame_kept f w g w1 t w2 :
  conn_ok w -> frame f w = (Ret g, w1) -> completes env g w1 t w2 -> conn_ok w2 /\ seen w2 = seen w ++ [f].
Proof.
  intros Hw Hf Hc. pose proof Hf as Hk. eapply on_frame_ok in Hk as [Hg Hk]; [|exact U|exact Hw]. specialize (Hk _ _ Hc).
  split; [by eapply conn_ok_kept|]. rewrite (kept_seen _ _ Hk). by eapply on_frame_seen.
Qed.

(** Every frame is seen once, in order. *)
Lemma session_seen s w e w1 R :
  conn_ok w -> st_ok s R -> session_run (sp := ws_stream) create_room mem walk regex_match boxed_ok onConnect onClose onText onBinary env s w e w1 ->
  exists R1, seen w ++ R = seen w1 ++ R1.
Proof.
  intros Hw Hs Hr. unfold session_run in Hr. revert R Hw Hs.
  induction Hr as [s w s' w' Hp|s w e s' w' Hp|s w v s' w1 e w2 Hp HK|s w v s' w1 us w2 l r w3 Hp HK _ IH|s w s' w1 w2 l r w3 Hp He _ IH]; intros R Hw Hs;
    destruct (ws_stream_ok _ _ _ _ _ _ Hs Hp) as [-> Ho].
  - by exists R.
  - by exists R.
  - destruct Ho as (R' & -> & _). exists R'. rewrite cons_middle, app_assoc. f_equal.
    destruct HK as [(x & Hf & _)|(g & wg & Hf & [Hc|(u & wu & Hc & (x & Hb & _))])]; [by rewrite (on_frame_seen _ _ _ _ Hf)| |done].
    by destruct (frame_kept _ _ _ _ _ _ Hw Hf Hc) as [_ ->].
  - destruct Ho as (R' & -> & Hs'). destruct HK as (g & wg & Hf & (u & wu & Hc & [_ [= ->]])).
    destruct (frame_kept _ _ _ _ _ _ Hw Hf Hc) as [Hw2 E]. destruct (IH R' Hw2 Hs') as [R1 E1]. exists R1. by rewrite <- E1, E, <- app_assoc.
  - pose proof (u_env _ _ _ _ _ _ _ U _ _ He) as K. apply IH in Ho as [R1 E]; [|by eapply conn_ok_kept]. exists R1. by rewrite <- E, (kept_seen _ _ K).
Qed.

Lemma at_end_seen e w a w2 : at_end onError onClose e w = (a, w2) -> seen w2 = seen w.
Proof.
  revert w a w2. change (keeps_seen (at_end onError onClose e)). unfold at_end, close, calls_if, calls, cv_notify. keeps;
    first [apply on_sock_keeps|apply close_callback_keeps|apply error_callback_keeps].
Qed.

(** From the bytes of a client to its handler.  A client sends an upgrade
    request and then any frames, cut into reads in any way with a cut between the
    two, the server polling between any reads.  When the connection's future
    completes, it does so with success; the frames it has seen are the request
    and the first frames that were sent, unmasked, in order, none twice; and the
    callbacks are those that these frames are due. *)
Theorem ws_end_to_end junk_p junk_data junk_control hs r fs gs1 gs2 server sock x fuel t w' :
  (0 <= bytes_remaining junk_p)%Z -> upgrade_request hs r -> (2 * Z.of_nat (length (upgrade_wire hs r)) <= HTTP_MAX_HEADER_SIZE)%Z -> Forall frame_ok fs ->
  flat gs1 = upgrade_wire hs r -> flat gs2 = concat (frame_wire <$> fs) -> sock_ok sock ->
  @completes W env _ _ (ThenFuture_Future (FA := drop_Future (sp := ws_stream) fuel))
    (process create_room mem walk regex_match boxed_ok onError onConnect onClose onText onBinary
       (new_reader (new_decoder junk_p junk_data junk_control), gs1 ++ gs2))
    (newConnection server sock x) t w' ->
  t = VALUE tt /\ exists e, outcome e w' /\ seen w' `prefix_of` session_frames r fs.
Proof.
  intros Hj Hr Hn Hfs Hc1 Hc2 Hs Hc. assert (Hw : conn_ok (newConnection server sock x : W)) by by split.
  apply process_completes in Hc as (e & w1 & Hrun & Hk).
  pose proof Hrun as Hok. eapply session_ok in Hok; [|exact U|exact Hw]. eapply at_end_ok in Hok as (w2 & E & Ho); [|exact U].
  eapply continues_end in Hk as [-> ->]; [|exact E]. split; [done|]. exists e. split; [done|].
  destruct (session_seen _ _ _ _ _ Hw (new_session_ok _ _ _ _ _ _ _ _ Hj Hr Hn Hfs Hc1 Hc2) Hrun) as [R1 E1].
  rewrite (at_end_seen _ _ _ _ E). by exists R1.
Qed.
End EndToEnd.
